(* ===== verification/_CoqProject ===== *)
-Q . S2P
Prelude.v
GoStrings.v
GoRegexp.v
GoTime.v
GoBase64.v
Sha256.v
GoJson.v
DomainContract.v
Domain.v
GoStruct.v
GoCodec.v
RunBudget.v
RunBudgetFacts.v
RunBudgetExample.v
RunBudgetController.v
RunBudgetAdmission.v
RunBudgetStore.v
RunBudgetBinding.v
RunBudgetWire.v
RunBudgetCodec.v
ApprovalLifecycle.v
ApprovalLifecycleFacts.v
ApprovalCodec.v
TamperAudit.v
TamperAuditFacts.v
AuditLog.v
AuditLogFacts.v
AuditStore.v
AuditService.v
QueryConnector.v
QueryConnectorFacts.v
SchemaCache.v
SchemaCacheFacts.v
SchemaCacheTheorems.v
Storage.v
StorageFacts.v
Authority.v
ApprovalBroker.v
ApprovalBrokerFacts.v
ApprovalBrokerRuns.v
ApprovalBrokerTheorems.v
ApprovalBrokerStore.v
ApprovalBrokerExample.v
Policy.v
ActionManifest.v
ActionManifestFacts.v
ApprovalFingerprint.v
ApprovalFingerprintFacts.v
ApprovalBinding.v
PreDispatch.v
PreDispatchFacts.v
PreDispatchExample.v
EStop.v
EStopController.v
EStopStore.v
EStopFacts.v
EStopTheorems.v
EStopExample.v
SecretRef.v
SecretResolver.v
SecretResolverFacts.v
CredentialLease.v
LeaseBroker.v
LeaseFacts.v
LeaseSafety.v
LeaseTheorems.v
LeaseExample.v
ToolRoute.v
RouteRecord.v
RouteBroker.v
RouteSafety.v
RouteTheorems.v
RouteCompose.v
RouteExample.v
AgentLoop.v
AgentStore.v
AgentRun.v
AgentSafety.v
AgentTheorems.v
AgentExample.v
