(* ===== verification/Prelude.v ===== *)
(** * Cyber Operations Harness: the authority core, verified

    The harness (src/internal, Go) lets agents investigate under authority that operators
    grant: budgets bound what a run may spend, approvals gate what it may do, a contract
    bounds the queries it may send, and a tamper-evident log records all of it.  This
    library models that authority core from the Go source and proves what each part
    promises, alone and composed: from the signed manifest of an action through its
    fingerprint, its approval and the uses of it to the gate in front of a dispatch, the
    credential leases under which a connector gets a secret, the emergency stop over all
    of them, the tool routes that call a connector, and the agent loop that asks for all this.

    ** How the code is modelled

    A Go function that returns an error is a function into [result]; a method that calls its
    ports (store, clock, signer, resolver) is a [prog], which threads the state of the world
    the ports act on and keeps it on every error path.  Strings and byte slices are byte
    strings, unsigned integers are [Z] with the wrap-around written out ([u8], [u32], [u64])
    and a predicate that says a value fits, times are nanoseconds since year 1.  Goroutines
    that share state under a mutex are a step relation whose steps are the critical
    sections, or routines of atomic calls that a schedule interleaves; a theorem about them is
    about every interleaving.  Everything is executable; the worked examples are evaluated.

    ** The files

    The Go packages below all components.
    - Prelude.v: results, programs and their laws; the tactics [inv_ok] and
      [bool_split]; the hint database [coh].
    - GoStrings.v, GoRegexp.v, GoTime.v, GoBase64.v, Sha256.v, GoJson.v, GoStruct.v: what
      the harness uses of strings, unicode/utf8, strconv, regexp (derivatives, proved
      against the language of the pattern), time (the parser is the general one, which
      accepts more than the formatter prints), encoding/base64, crypto/sha256 (computed),
      encoding/json (scanner, printer and the reflective struct coder).
    - GoCodec.v: a record as the struct encoding/json sees; the laws of whole documents
      from those of their fields.
    - Domain.v: [CaseRef], identifiers and the vocabulary all packages share.

    internal/helper/domaincontract (DomainContract.v): [DecodeUnique] and [Canonicalize].
    Canonical text is injective and a fixed point, decoding is bounded and unambiguous.
    The digest theorems of every other component rest on it.

    internal/workflow/runbudget.
    - RunBudget.v: data, validation, digests and the controller ([Reserve], [Settle]) over
      the interface [BudgetStore].
    - RunBudgetFacts.v: [validateLedger] accepts exactly the sound ledgers.
    - RunBudgetController.v, RunBudgetAdmission.v: accounting, replay, complete admission.
    - RunBudgetStore.v: the contract [BudgetStoreLaws] of a store and its in-memory
      instance; interleaved controllers as a step relation; no budget is ever exceeded, no
      update lost.
    - RunBudgetBinding.v: what the digests bind.
    - RunBudgetWire.v, RunBudgetCodec.v: wire.go, its round trip, and how many reservations
      fit.
    - RunBudgetExample.v: the run the witnesses use.

    internal/domain/approvallifecycle.
    - ApprovalLifecycle.v: records, events, validation, transitions.
    - ApprovalLifecycleFacts.v: the transition table, the quorum, termination.
    - ApprovalCodec.v: canonical.go and its round trip.

    internal/domain/tamperaudit and internal/workflow/auditlog.
    - TamperAudit.v, TamperAuditFacts.v: events, hash-linked records, signed checkpoints;
      round trips and binding.
    - AuditLog.v, AuditLogFacts.v: the service over the interface [AuditPorts], and the
      guard of the storage adapters; tamper evidence.
    - AuditStore.v: the contract of a store; a log of timely guarded commits verifies.
    - AuditService.v: the append protocol, and what a clock that steps back makes of a log.

    internal/domain/queryconnector (QueryConnector.v, QueryConnectorFacts.v): the documents
    of read-only queries, their bounded decoders and the admission of an execution.

    internal/domain/schemacache.
    - SchemaCache.v: the cache, its flights and loads as critical sections.
    - SchemaCacheFacts.v: accounting and eviction in any order of the map; the invariant of
      every interleaving.
    - SchemaCacheTheorems.v: what it means for callers; a run for the witnesses.

    internal/workflow, the storage contract (Storage.v, StorageFacts.v): transactions, their
    validation and the guard over any driver, which fails closed.

    internal/policy and internal/domain/actionmanifest.
    - Authority.v: the data packages share: actors, decisions, manifests, fingerprints.
    - Policy.v: decision digests, errors and the durable audit sink of internal/policy.
    - ActionManifest.v, ActionManifestFacts.v: validation, decoding and verification of
      signed envelopes; what a verified envelope promises.

    internal/broker, the approval service.
    - ApprovalBroker.v: requests, grants, rejections, expiry, use and revocation, with their
      authority checks, commits and audits, over any store and ports ([BrokerPorts]).
    - ApprovalBrokerFacts.v: metadata records; what the checks mean.
    - ApprovalBrokerRuns.v: the traces a call can leave ([Observed]).
    - ApprovalBrokerTheorems.v: refusals and their audit, authority.
    - ApprovalBrokerStore.v: interleaved calls over a store as a step relation; what is
      stored was earned.
    - ApprovalBrokerExample.v: a store behind the guard and a service, for the witnesses.

    internal/policy/approvalfingerprint and its adapter in internal/broker.
    - ApprovalFingerprint.v, ApprovalFingerprintFacts.v: the engine; its digest binds the
      manifest and the decision.
    - ApprovalBinding.v: the service over the engine ([EngineBacked]); approvals are of
      signed actions.

    internal/broker, the pre-dispatch gate (PreDispatch.v, PreDispatchFacts.v): every check
    behind an authority to dispatch, and, over the service and the engine, that it is one
    counted use of an approval of the signed action.  PreDispatchExample.v has a signed action
    with a toy signature scheme, its fingerprint, its approval and its dispatch.

    internal/domain/estop and internal/broker/estop.
    - EStop.v: commands, authorities, states, acknowledgements, decisions.
    - EStopController.v: routines and schedules; activation, containment, guard, recovery,
      over the interface [Store].
    - EStopStore.v: the store in memory.
    - EStopFacts.v: what goroutines may return and keep; the contract [StopStore].
    - EStopTheorems.v: the store in memory discharges the contract; a stop is final, success
      means containment, the guard is exact, recovery drains the outbox.
    - EStopExample.v: an activation with five interleaved controls.

    internal/domain/secretref and internal/broker/secretresolver.
    - SecretRef.v: references, resolution requests, decisions.
    - SecretResolver.v: the resolver over its backends, the replay store, the sealed backend,
      the durable sink.
    - SecretResolverFacts.v: what a resolved secret is; versions of a secret are immutable.

    internal/domain/credentiallease and internal/broker/credentiallease.
    - CredentialLease.v: requests, authorities, scopes and decisions of leases.
    - LeaseBroker.v: issuing, using and revoking, as routines over the interfaces
      [LeaseStore], [StopGuard] and [SecretSource]; handles are cells of the world.  The
      store in memory, the control of the emergency stop, and the emergency stop and the
      resolver as the broker's guard and source.
    - LeaseFacts.v: pools of goroutines that spend keys; the contract [LeaseLaws] of a store.
    - LeaseSafety.v: every call of the broker under that contract, in every interleaving.
    - LeaseTheorems.v: the store in memory discharges the contract; one secret per lease,
      authority behind each, revocation and emergency stops are final, what the durable sink
      loses.
    - LeaseExample.v: a lease that is used twice at once, revoked and stopped.

    internal/domain/toolroute and internal/broker, the tool routes.
    - ToolRoute.v: intents, receipts and durable states, their validation and exact codecs.
    - RouteRecord.v: the records of the broker, their validation, transitions, digests and
      audit events (toolroute_types.go, _errors.go, _validate.go).
    - RouteBroker.v: [Submit] and all it calls, as routines over the interfaces [RouteStore]
      and [RoutePorts] (toolroute_authority.go, _audit.go).
    - RouteSafety.v: processes that crash and restart; the rule for goroutines that give up a
      token for one entry of a log; the contract [RouteLaws] of a store that compares and
      swaps, and every call of a submission under it.
    - RouteTheorems.v: one call of the connector per operation, the state machine of records,
      interrupted and repeated submissions.
    - RouteCompose.v: the pre-dispatch gate, and the guard of the emergency stop, behind the
      routes.
    - RouteExample.v: a signed action that is routed, interrupted and submitted again.

    internal/workflow/agentloop.
    - AgentLoop.v: runs, steps and requests; their validation, the transition rules, what
      failures and receipts mean for a step, provenance.
    - AgentStore.v: the interface [StateStore]; the repository of runs and steps over a
      metadata store, its exact codecs and their round trips.
    - AgentRun.v: the operations of the loop over [StateStore] and [LoopPorts] (loop.go,
      activities.go) and its adapter for recovery (recovery_control.go).
    - AgentSafety.v: a weakest-precondition rule for interleaved goroutines; the contract
      [MetadataLaws] of a store that compares and swaps; what is read was stored, and moves
      on by legal transitions only.
    - AgentTheorems.v: the tool routes behind the loop ([LoopWorld]); connector calls belong
      to paid, durable steps; the state machine of runs; canceled actions lose their receipt.
    - AgentExample.v: a run with one action, executed and canceled.

    ** What the theorems show

    Safety of budgets under concurrency, crashes and replays; the quorum and the end of
    approvals; that a stored approval was earned step by step, changes only under authority,
    is of exactly the action that was signed, and that a dispatch is one counted use of it;
    that a connector is called at most once for an operation, across crashes and restarts,
    only with what was signed and approved, and never for a stopped case; that behind a call
    the agent loop makes there is a durable step of that operation under a reserved budget,
    and that its runs follow their state machine, which may erase a receipt; that refusals
    are audited, and where the durable sink loses them; that an emergency stop is final and a
    successful activation contained; that a lease releases one secret, the one it names, to
    whom it was issued, and none under an emergency stop, by a decision that the audit log
    has; tamper evidence of the audit log, and that a log of guarded commits verifies as long
    as no checkpoint is older than its record, and never again after; isolation and bounds of the schema
    cache in every interleaving; exact round trips of the documents; and what digests bind.
    Binding theorems never assume that SHA-256 has no collisions: they conclude with equality
    or with two distinct messages at hand, the ones that were hashed for the two values, that
    collide ([sha256_collision]).

    ** Parameters and fuel

    crypto/ed25519, the storage adapters, signers, key resolvers, loaders, clocks and
    sources of identifiers are not part of the source; they are arguments, with what the
    source relies on as named hypotheses and an instance that satisfies them.  Recursion
    that is not structural carries fuel that is proved never to decide: the JSON decoder
    takes the length of its input, the eviction loop a round per entry
    ([enforce_rounds_enough]), the append loop its four attempts, which are the source's own
    bound.  Decimal printing has twenty digits of fuel, enough for 64 bits.  A schedule is not
    fuel: goroutines it does not finish run to their end after it.

    The call of one component by another is atomic in two places.  For the routes, the
    pre-dispatch gate answers in one call: its own reads and writes are not interleaved with
    those of other goroutines (the stored records it writes to are treated under every
    interleaving in ApprovalBrokerStore.v).  For the emergency stop, the pool of control
    goroutines of one activation runs to its end in one call; its goroutines are interleaved
    among themselves, not with other activations.

    ** What is not modelled

    Connectors, providers, transports, persistence adapters (among them the SQLite store of
    emergency stops), the broker's execution side, policy evaluation through OPA and
    repository tooling: network, process, SQL or third-party code around the core.  The
    investigation side but for the agent loop (sub-agents, evidence, cases, projections,
    extensions), which asks the authority core and is not trusted by it.  Within the
    modelled packages: the lookups of skills and memories of the agent loop; the JSON-schema
    checker of domaincontract, which walks embedded schema files; [DecodePoll] and
    [DecodePage] of queryconnector, whose rows hold
    floating-point numbers; the decoders of credentiallease and secretref, which read JSON
    with repeated keys; the secret backend on files, and the overwriting of secrets in memory;
    nil receivers and the test for typed nil ports; the controls of an emergency stop other
    than that of the leases, which are ports that answer or miss their deadline. *)

From stdpp Require Export base tactics option list strings numbers relations countable gmap.
From Stdlib Require Export ZArith Ascii Lia Sorted.
From Stdlib Require String.

#[export] Set Default Goal Selector "!".

(** Facts about identifiers, digests and timestamps that validation gives *)
Create HintDb coh.

(** ** Results of fallible Go functions

    A Go function returning [(A, error)] is a function into [result E A]: [Ok a]
    is the pair [(a, nil)] and [Err e] is the pair of a zero value and the error
    [e].  A function returning only [error] is a function into [result E unit]. *)
Inductive result (E A : Type) : Type :=
| Ok (a : A)
| Err (e : E).
Arguments Ok {E A} _.
Arguments Err {E A} _.

#[export] Instance result_ret E : MRet (result E) := fun A a => Ok a.
#[export] Instance result_bind E : MBind (result E) :=
  fun A B f m => match m with Ok a => f a | Err e => Err e end.
#[export] Instance result_fmap E : FMap (result E) :=
  fun A B f m => match m with Ok a => Ok (f a) | Err e => Err e end.

(** [if b { return err }], then the rest. *)
Definition deny_if {E} (b : bool) (e : E) : result E unit :=
  if b then Err e else Ok tt.

(** [if x, err := m; err != nil { return e }]: the callee's error is replaced. *)
Definition or_err {E F A} (m : result E A) (e : F) : result F A :=
  match m with Ok a => Ok a | Err _ => Err e end.

Definition is_ok {E A} (m : result E A) : bool :=
  match m with Ok _ => true | Err _ => false end.

(** Run a check over a list, left to right, stopping at the first error. *)
Fixpoint for_each {E A} (f : A -> result E unit) (l : list A) : result E unit :=
  match l with
  | [] => Ok tt
  | x :: l' => f x ;; for_each f l'
  end.

(** A loop with an accumulator, stopping at the first error. *)
Fixpoint fold_res {E A S} (f : S -> A -> result E S) (s : S) (l : list A) : result E S :=
  match l with
  | [] => Ok s
  | x :: l' => s' ← f s x; fold_res f s' l'
  end.

(** ** Programs that call into the world

    A Go method that calls its ports (a store, a clock, a signer) is a function of the
    state [W] of the world those ports act on: it returns what it returns and the state it
    leaves behind, also when it fails. *)
Definition prog (W E A : Type) : Type := W -> result E A * W.

#[export] Instance prog_ret W E : MRet (prog W E) := fun A a w => (Ok a, w).
#[export] Instance prog_bind W E : MBind (prog W E) :=
  fun A B f m w => match m w with (Ok a, w') => f a w' | (Err e, w') => (Err e, w') end.

(** A computation that touches no port *)
Definition pure {W E A} (r : result E A) : prog W E A := fun w => (r, w).

(** A critical section: it reads and changes the shared state and cannot fail *)
Definition atomically {W E A} (f : W -> A * W) : prog W E A := fun w => let '(a, w') := f w in (Ok a, w').

(** [x, err := m]: the caller looks at the error itself *)
Definition attempt {W E F A} (m : prog W E A) : prog W F (result E A) :=
  fun w => let '(r, w') := m w in (Ok r, w').

(** [if err != nil { return f(err) }] *)
Definition map_err {W E F A} (f : E -> F) (m : prog W E A) : prog W F A :=
  fun w => match m w with (Ok a, w') => (Ok a, w') | (Err e, w') => (Err (f e), w') end.

Lemma prog_bind_ok {W E A B} (m : prog W E A) (f : A -> prog W E B) w b w' :
  (m ≫= f) w = (Ok b, w') <-> exists a w1, m w = (Ok a, w1) /\ f a w1 = (Ok b, w').
Proof. unfold mbind, prog_bind. destruct (m w) as [[a|e] w1]; naive_solver. Qed.

Lemma pure_ok {W E A} (r : result E A) (w w' : W) a : pure r w = (Ok a, w') <-> r = Ok a /\ w' = w.
Proof. unfold pure. naive_solver. Qed.

Lemma atomically_ok {W E A} (f : W -> A * W) w (a : A) w' :
  atomically (E := E) f w = (Ok a, w') <-> f w = (a, w').
Proof. unfold atomically. destruct (f w); naive_solver. Qed.

Lemma map_err_ok {W E F A} (f : E -> F) (m : prog W E A) w a w' :
  map_err f m w = (Ok a, w') <-> m w = (Ok a, w').
Proof. unfold map_err. destruct (m w) as [[]]; naive_solver. Qed.

Section result_lemmas.
Context {E A B : Type}.

Lemma bind_ok (m : result E A) (f : A -> result E B) b :
  (m ≫= f) = Ok b <-> exists a, m = Ok a /\ f a = Ok b.
Proof. destruct m; cbn; naive_solver. Qed.

Lemma bind_err (m : result E A) (f : A -> result E B) e :
  (m ≫= f) = Err e <-> m = Err e \/ exists a, m = Ok a /\ f a = Err e.
Proof. destruct m; cbn; naive_solver. Qed.

Lemma deny_if_ok b (e : E) u : deny_if b e = Ok u <-> b = false.
Proof. destruct b, u; cbn; naive_solver. Qed.

Lemma deny_if_err b (e e' : E) : deny_if b e = Err e' <-> b = true /\ e = e'.
Proof. destruct b; cbn; naive_solver. Qed.

Lemma or_err_ok {F} (m : result E A) (e : F) a : or_err m e = Ok a <-> m = Ok a.
Proof. destruct m; cbn; naive_solver. Qed.

Lemma is_ok_true (m : result E A) : is_ok m = true <-> exists a, m = Ok a.
Proof. destruct m; cbn; naive_solver. Qed.

Lemma for_each_ok (f : A -> result E unit) l u :
  for_each f l = Ok u <-> Forall (fun x => f x = Ok tt) l.
Proof.
  destruct u. induction l as [|x l IH]; cbn; [naive_solver|].
  rewrite Forall_cons, <- IH. destruct (f x) as [[]|e]; cbn; naive_solver.
Qed.
End result_lemmas.

Lemma seq_ok {E B} (m : result E unit) (k : result E B) b :
  (m ≫= fun _ => k) = Ok b <-> m = Ok tt /\ k = Ok b.
Proof. rewrite bind_ok. split; [intros ([] & ? & ?) | intros [? ?]; exists tt]; done. Qed.

(** Decompose [_ = Ok _] hypotheses of translated handlers into the facts each
    guard established. *)
Ltac bool_split :=
  repeat match goal with
  | H : orb _ _ = false |- _ => apply orb_false_iff in H; destruct H
  | H : andb _ _ = true |- _ => apply andb_true_iff in H; destruct H
  | H : negb _ = false |- _ => apply negb_false_iff in H
  | H : negb _ = true |- _ => apply negb_true_iff in H
  end.

Ltac inv_ok :=
  repeat match goal with
  | H : Ok _ = Ok _ |- _ => injection H as H; try subst
  | H : Err _ = Err _ |- _ => injection H as H; try subst
  | H : Ok _ = Err _ |- _ => discriminate H
  | H : Err _ = Ok _ |- _ => discriminate H
  | H : (_ ≫= _) = Ok _ |- _ =>
      let a := fresh "r" in let H1 := fresh "Hr" in
      apply bind_ok in H; destruct H as (a & H1 & H);
      try match type of a with unit => destruct a | prod _ _ => destruct a end
  | H : deny_if _ _ = Ok _ |- _ => apply deny_if_ok in H
  | H : or_err _ _ = Ok _ |- _ => apply or_err_ok in H
  | H : mret _ = Ok _ |- _ => cbv [mret result_ret] in H
  end; bool_split.
