(* ===== verification/GoStrings.v ===== *)
(** * Go strings and byte slices

    A Go [string] and a Go [[]byte] are both a Rocq [string], a list of 8-bit
    characters.  This file models the operations of the packages [strings],
    [unicode/utf8], [encoding/hex], [strconv] and [slices] that the harness uses
    on them, at the byte level, with the UTF-8 decoding of [unicode/utf8]. *)

From Stdlib Require Import DecimalString DecimalN.
From S2P Require Import Prelude.

Local Open Scope string_scope.
Local Open Scope Z_scope.

#[global] Arguments String.append !_ _ / : simpl nomatch.

(** ** Bytes *)

Definition byte_val (c : ascii) : Z := Z.of_N (N_of_ascii c).
Definition byte_of (z : Z) : ascii := ascii_of_N (Z.to_N (z mod 256)).
Definition in_range (lo hi z : Z) : bool := (lo <=? z) && (z <=? hi).
Definition byte_in (lo hi : Z) (c : ascii) : bool := in_range lo hi (byte_val c).

Definition is_digit (c : ascii) : bool := byte_in 48 57 c.
Definition is_lower (c : ascii) : bool := byte_in 97 122 c.
Definition is_hex_lower (c : ascii) : bool := is_digit c || byte_in 97 102 c.

Definition len (s : string) : Z := Z.of_nat (String.length s).

(** Byte-wise predicates over a whole string. *)
Fixpoint str_forallb (p : ascii -> bool) (s : string) : bool :=
  match s with
  | EmptyString => true
  | String c s' => p c && str_forallb p s'
  end.

Definition str_existsb (p : ascii -> bool) (s : string) : bool :=
  negb (str_forallb (fun c => negb (p c)) s).

(** [strings.ContainsAny s cs] for a set [cs] of ASCII characters. *)
Definition contains_any (s : string) (cs : list ascii) : bool :=
  str_existsb (fun c => existsb (Ascii.eqb c) cs) s.

Definition NUL : ascii := "000".
Definition TAB : ascii := "009".
Definition LF : ascii := "010".
Definition CR : ascii := "013".

(** ** UTF-8

    [utf8_chunks s] is the sequence of runes [for _, r := range s] visits, each
    with the bytes it was decoded from; [None] is an invalid byte, which Go
    reports as [utf8.RuneError] of width one. *)

Definition cont (c : ascii) : bool := byte_in 128 191 c.
Definition low6 (c : ascii) : Z := byte_val c - 128.

(** The range of the second byte after the leading byte of a 3-byte sequence. *)
Definition second3 (b0 b1 : Z) : bool :=
  if b0 =? 224 then in_range 160 191 b1
  else if b0 =? 237 then in_range 128 159 b1
  else in_range 128 191 b1.

Definition second4 (b0 b1 : Z) : bool :=
  if b0 =? 240 then in_range 144 191 b1
  else if b0 =? 244 then in_range 128 143 b1
  else in_range 128 191 b1.

Fixpoint utf8_chunks (s : string) : list (option Z * string) :=
  match s with
  | EmptyString => []
  | String c0 s0 =>
      let b0 := byte_val c0 in
      let bad := (None, String c0 "") in
      if b0 <? 128 then (Some b0, String c0 "") :: utf8_chunks s0 else
      if in_range 194 223 b0 then
        match s0 with
        | String c1 s1 =>
            if cont c1
            then (Some ((b0 - 192) * 64 + low6 c1), String c0 (String c1 ""))
                   :: utf8_chunks s1
            else bad :: utf8_chunks s0
        | EmptyString => bad :: utf8_chunks s0
        end
      else if in_range 224 239 b0 then
        match s0 with
        | String c1 ((String c2 s2) as s1) =>
            if second3 b0 (byte_val c1) && cont c2
            then (Some ((b0 - 224) * 4096 + low6 c1 * 64 + low6 c2),
                  String c0 (String c1 (String c2 ""))) :: utf8_chunks s2
            else bad :: utf8_chunks s0
        | _ => bad :: utf8_chunks s0
        end
      else if in_range 240 244 b0 then
        match s0 with
        | String c1 ((String c2 ((String c3 s3) as s2)) as s1) =>
            if second4 b0 (byte_val c1) && cont c2 && cont c3
            then (Some ((b0 - 240) * 262144 + low6 c1 * 4096 + low6 c2 * 64 + low6 c3),
                  String c0 (String c1 (String c2 (String c3 "")))) :: utf8_chunks s3
            else bad :: utf8_chunks s0
        | _ => bad :: utf8_chunks s0
        end
      else bad :: utf8_chunks s0
  end.

Definition chunk_ok (c : option Z * string) : bool :=
  match fst c with Some _ => true | None => false end.

(** [utf8.ValidString] *)
Definition valid_string (s : string) : bool := forallb chunk_ok (utf8_chunks s).

Definition concat_chunks (l : list (option Z * string)) : string :=
  foldr (fun c acc => snd c ++ acc) "" l.

(** [strings.ToValidUTF8 s ""]: runs of invalid bytes are dropped. *)
Definition to_valid_utf8 (s : string) : string :=
  concat_chunks (List.filter chunk_ok (utf8_chunks s)).

(** [utf8.EncodeRune], for the scalar values a JSON escape can denote. *)
Definition encode_rune (r : Z) : string :=
  if r <? 128 then String (byte_of r) ""
  else if r <? 2048 then
    String (byte_of (192 + r / 64)) (String (byte_of (128 + r mod 64)) "")
  else if r <? 65536 then
    String (byte_of (224 + r / 4096))
      (String (byte_of (128 + r / 64 mod 64)) (String (byte_of (128 + r mod 64)) ""))
  else
    String (byte_of (240 + r / 262144))
      (String (byte_of (128 + r / 4096 mod 64))
        (String (byte_of (128 + r / 64 mod 64)) (String (byte_of (128 + r mod 64)) ""))).

(** [unicode.IsSpace] *)
Definition is_space_rune (r : Z) : bool :=
  in_range 9 13 r || (r =? 32) || (r =? 133) || (r =? 160) || (r =? 5760) ||
  in_range 8192 8202 r || (r =? 8232) || (r =? 8233) || (r =? 8239) ||
  (r =? 8287) || (r =? 12288).

Definition chunk_is_space (c : option Z * string) : bool :=
  match fst c with Some r => is_space_rune r | None => false end.

Fixpoint drop_space (l : list (option Z * string)) : list (option Z * string) :=
  match l with
  | c :: l' => if chunk_is_space c then drop_space l' else l
  | [] => []
  end.

(** [strings.TrimSpace] *)
Definition trim_space (s : string) : string :=
  concat_chunks (rev (drop_space (rev (drop_space (utf8_chunks s))))).

(** ** Hexadecimal and decimal text *)

Definition hex_digit (n : Z) : ascii :=
  byte_of (if n <? 10 then 48 + n else 87 + n).

(** [hex.EncodeToString] *)
Fixpoint hex_encode (s : string) : string :=
  match s with
  | EmptyString => ""
  | String c s' =>
      String (hex_digit (byte_val c / 16)) (String (hex_digit (byte_val c mod 16)) (hex_encode s'))
  end.

(** [strconv.FormatUint] and [strconv.FormatInt], base 10 *)
Definition format_uint (n : Z) : string := NilZero.string_of_uint (N.to_uint (Z.to_N n)).
Definition format_int (n : Z) : string :=
  if n <? 0 then "-" ++ format_uint (- n) else format_uint n.

(** ** Ordering: Go compares strings byte by byte *)

Definition str_lt (a b : string) : Prop := String.compare a b = Lt.
#[export] Instance str_lt_dec a b : Decision (str_lt a b).
Proof. unfold str_lt. solve_decision. Defined.

(** [slices.IsSorted] on a [[]string] *)
Fixpoint is_sorted (l : list string) : bool :=
  match l with
  | a :: ((b :: _) as l') => String.leb a b && is_sorted l'
  | _ => true
  end.

(** ** Lemmas on strings *)

Lemma length_append s t : String.length (s ++ t) = (String.length s + String.length t)%nat.
Proof. induction s; cbn; congruence. Qed.

Lemma append_nil_r (s : string) : (s ++ "")%string = s.
Proof. induction s; cbn; congruence. Qed.

Lemma append_assoc (s t u : string) : ((s ++ t) ++ u)%string = (s ++ (t ++ u))%string.
Proof. induction s; cbn; congruence. Qed.

Lemma append_inj_l (s t u : string) : (s ++ t)%string = (s ++ u)%string -> t = u.
Proof. induction s; cbn; [done|]. intros [=]. auto. Qed.

(** Two equal concatenations whose first parts have the same length agree part by part. *)
Lemma append_inj_len (s s' t t' : string) :
  String.length s = String.length s' -> (s ++ t)%string = (s' ++ t')%string -> s = s' /\ t = t'.
Proof.
  revert s'. induction s as [|c s IH]; intros [|c' s']; cbn; try discriminate; [done|].
  intros [= Hlen] [= -> Heq]. destruct (IH s' Hlen Heq) as [-> ->]. done.
Qed.

Lemma str_forallb_app p s t : str_forallb p (s ++ t) = str_forallb p s && str_forallb p t.
Proof. induction s; cbn; [done|]. by rewrite IHs, andb_assoc. Qed.

Lemma str_forallb_impl (p q : ascii -> bool) s :
  (forall c, p c = true -> q c = true) -> str_forallb p s = true -> str_forallb q s = true.
Proof. intros Hpq. induction s; cbn; [done|]. rewrite !andb_true_iff. naive_solver. Qed.

Lemma byte_val_range c : 0 <= byte_val c < 256.
Proof.
  unfold byte_val. pose proof (N_ascii_bounded c). lia.
Qed.

Lemma byte_val_of z : 0 <= z < 256 -> byte_val (byte_of z) = z.
Proof.
  intros Hz. unfold byte_val, byte_of. rewrite Z.mod_small by lia.
  rewrite N_ascii_embedding; lia.
Qed.

Lemma byte_of_val c : byte_of (byte_val c) = c.
Proof.
  unfold byte_of. rewrite Z.mod_small by apply byte_val_range.
  unfold byte_val. rewrite N2Z.id. apply ascii_N_embedding.
Qed.

Lemma byte_val_inj c d : byte_val c = byte_val d -> c = d.
Proof. intros H. rewrite <- (byte_of_val c), <- (byte_of_val d). congruence. Qed.

(** *** The byte order is a strict total order *)

#[export] Instance str_lt_trans : Transitive str_lt.
Proof.
  unfold str_lt. intros x. induction x as [|c x IH]; intros [|d y] [|e z]; cbn; try done.
  unfold Ascii.compare.
  destruct (N.compare_spec (N_of_ascii c) (N_of_ascii d)) as [Hcd|Hcd|Hcd]; try done;
  destruct (N.compare_spec (N_of_ascii d) (N_of_ascii e)) as [Hde|Hde|Hde]; try done;
  intros H1 H2; destruct (N.compare_spec (N_of_ascii c) (N_of_ascii e)); try lia; try done.
  eauto.
Qed.

Lemma str_lt_irrefl s : ~ str_lt s s.
Proof.
  unfold str_lt. induction s as [|c s IH]; cbn; [done|].
  unfold Ascii.compare. by rewrite N.compare_refl.
Qed.

#[export] Instance str_lt_strict : StrictOrder str_lt.
Proof. split; [exact str_lt_irrefl | apply _]. Qed.

Lemma str_lt_trichotomy s t : {str_lt s t} + {s = t} + {str_lt t s}.
Proof.
  unfold str_lt. destruct (String.compare s t) eqn:E.
  - left; right. by apply String.compare_eq_iff.
  - left; left. done.
  - right. rewrite String.compare_antisym, E. done.
Qed.

Lemma str_ltb_lt s t : String.ltb s t = true <-> str_lt s t.
Proof. unfold String.ltb, str_lt. by destruct (String.compare s t). Qed.

Lemma str_leb_nlt s t : String.leb s t = true <-> ~ str_lt t s.
Proof.
  unfold String.leb, str_lt. rewrite (String.compare_antisym s t).
  destruct (String.compare t s); cbn; split; try done.
Qed.

Lemma str_leb_false s t : String.leb s t = false <-> str_lt t s.
Proof.
  destruct (String.leb s t) eqn:E.
  - apply str_leb_nlt in E. split; [done | intros H; by destruct (E H)].
  - split; [|done]. intros _. destruct (decide (str_lt t s)); [done|].
    exfalso. apply not_true_iff_false in E. apply E. by apply str_leb_nlt.
Qed.

(** ** Sorted sets *)

Definition increasing (l : list string) : Prop := StronglySorted str_lt l.

Lemma increasing_cons a l : is_sorted (a :: l) = true -> increasing l -> ~ In a l -> increasing (a :: l).
Proof.
  intros Hs Hl Hin. constructor; [done|]. destruct l as [|b l]; [constructor|].
  cbn in Hs. apply andb_true_iff in Hs as [Hab _].
  assert (str_lt a b).
  { destruct (str_lt_trichotomy a b) as [[|]|]; [done| |].
    - subst. destruct Hin. by left.
    - apply str_leb_nlt in Hab. done. }
  constructor; [done|]. apply StronglySorted_inv in Hl as [_ Hb].
  eapply List.Forall_impl; [|exact Hb]. cbn. intros x. by transitivity b.
Qed.

Lemma is_sorted_tail a l : is_sorted (a :: l) = true -> is_sorted l = true.
Proof. destruct l; [done|]. cbn. by intros [_ ?]%andb_true_iff. Qed.

Lemma increasing_is_sorted l : increasing l -> is_sorted l = true.
Proof.
  induction 1 as [|a l Hl IH Ha]; [done|]. destruct l as [|b l]; [done|].
  change (String.leb a b && is_sorted (b :: l) = true). rewrite IH, andb_true_r.
  apply str_leb_nlt. inversion_clear Ha. intros Hba. by apply (str_lt_irrefl a); transitivity b.
Qed.

(** What the [hasDuplicate] of every package looks for *)
Fixpoint adjacent_equal (values : list string) : bool :=
  match values with
  | a :: ((b :: _) as values') => String.eqb b a || adjacent_equal values'
  | _ => false
  end.

(** Comparing neighbours finds every repetition of a sorted slice. *)
Lemma adjacent_equal_iff l : is_sorted l = true -> adjacent_equal l = false <-> increasing l.
Proof.
  induction l as [|a l IH]; intros Hs; [split; [constructor|done]|].
  pose proof (is_sorted_tail a l Hs) as Hs'. specialize (IH Hs'). destruct l as [|b l].
  { split; [repeat constructor|done]. }
  change (adjacent_equal (a :: b :: l)) with (String.eqb b a || adjacent_equal (b :: l)).
  rewrite orb_false_iff, IH. split.
  - intros [Hne Hinc]. apply increasing_cons; [done|done|]. intros Hin. apply String.eqb_neq in Hne.
    cbn in Hs. apply andb_true_iff in Hs as [Hle _]. apply str_leb_nlt in Hle.
    destruct Hin as [->|Hin]; [done|]. apply StronglySorted_inv in Hinc as [_ Hb].
    rewrite List.Forall_forall in Hb. by apply Hle, Hb.
  - intros Hinc. apply StronglySorted_inv in Hinc as [Hinc Ha]. split; [|done].
    apply String.eqb_neq. intros ->. inversion_clear Ha. by apply (str_lt_irrefl a).
Qed.

Lemma increasing_nodup l : increasing l -> NoDup l.
Proof.
  induction 1 as [|a l Hl IH Ha]; constructor; [|done]. intros Hin%list_elem_of_In.
  rewrite List.Forall_forall in Ha. by apply (str_lt_irrefl a), Ha.
Qed.

Lemma eqb_neq_false (s t : string) : String.eqb s t = false <-> s <> t.
Proof. apply String.eqb_neq. Qed.

(** *** UTF-8: one step at a time *)

(** The first chunk and the rest of the string *)
Definition next_chunk (s : string) : option ((option Z * string) * string) :=
  match s with
  | EmptyString => None
  | String c0 s0 =>
      let b0 := byte_val c0 in
      let bad := Some ((None, String c0 ""), s0) in
      if b0 <? 128 then Some ((Some b0, String c0 ""), s0) else
      if in_range 194 223 b0 then
        match s0 with
        | String c1 s1 =>
            if cont c1
            then Some ((Some ((b0 - 192) * 64 + low6 c1), String c0 (String c1 "")), s1)
            else bad
        | EmptyString => bad
        end
      else if in_range 224 239 b0 then
        match s0 with
        | String c1 (String c2 s2) =>
            if second3 b0 (byte_val c1) && cont c2
            then Some ((Some ((b0 - 224) * 4096 + low6 c1 * 64 + low6 c2),
                        String c0 (String c1 (String c2 ""))), s2)
            else bad
        | _ => bad
        end
      else if in_range 240 244 b0 then
        match s0 with
        | String c1 (String c2 (String c3 s3)) =>
            if second4 b0 (byte_val c1) && cont c2 && cont c3
            then Some ((Some ((b0 - 240) * 262144 + low6 c1 * 4096 + low6 c2 * 64 + low6 c3),
                        String c0 (String c1 (String c2 (String c3 "")))), s3)
            else bad
        | _ => bad
        end
      else bad
  end.

Ltac case_ifs :=
  repeat match goal with
  | |- context [if ?b then _ else _] => destruct b eqn:?
  | |- context [match ?s with EmptyString => _ | String _ _ => _ end] => is_var s; destruct s
  end.

Lemma utf8_chunks_unfold s :
  utf8_chunks s = match next_chunk s with None => [] | Some (ch, rest) => ch :: utf8_chunks rest end.
Proof. destruct s as [|c0 s0]; [done|]. cbn [utf8_chunks next_chunk]. by case_ifs. Qed.

Lemma second3_range b0 b1 :
  second3 b0 b1 = true -> 128 <= b1 <= 191 /\ (b0 = 224 -> 160 <= b1).
Proof.
  unfold second3, in_range.
  destruct (Z.eqb_spec b0 224), (Z.eqb_spec b0 237); intros H; bool_split; lia.
Qed.

Lemma second4_range b0 b1 :
  second4 b0 b1 = true -> 128 <= b1 <= 191 /\ (b0 = 240 -> 144 <= b1).
Proof.
  unfold second4, in_range.
  destruct (Z.eqb_spec b0 240), (Z.eqb_spec b0 244); intros H; bool_split; lia.
Qed.

(** What a chunk can be, and that it does not depend on what follows when it is valid *)
Lemma next_chunk_spec s ch rest :
  next_chunk s = Some (ch, rest) ->
  s = (snd ch ++ rest)%string /\ snd ch <> "" /\
  (forall r, fst ch = Some r ->
    (forall t, next_chunk (snd ch ++ t) = Some (ch, t)) /\
    ((r < 128 /\ snd ch = String (byte_of r) "" /\ 0 <= r) \/
     (128 <= r /\ str_forallb (byte_in 128 255) (snd ch) = true /\
      (r = 8232 \/ r = 8233 -> snd ch = encode_rune r)))).
Proof.
  destruct s as [|c0 s0]; [done|]. unfold next_chunk at 1.
  pose proof (byte_val_range c0) as R0.
  case_ifs; intros [= <- <-]; cbn [fst snd String.append]; split_and!; try done;
    intros r [= <-].
  - split; [intros t; cbn; by rewrite Heqb|]. left. rewrite byte_of_val. split_and!; [lia | done | lia].
  - split; [intros t; cbn; by rewrite Heqb, Heqb0, Heqb1|]. right.
    unfold cont, low6, byte_in, in_range in *. bool_split. split_and!; [lia| |lia].
    cbn. unfold byte_in, in_range. rewrite !andb_true_iff. pose proof (byte_val_range a). lia.
  - split; [intros t; cbn; by rewrite Heqb, Heqb0, Heqb1, Heqb2|]. right.
    pose proof (byte_val_range a). pose proof (byte_val_range a0).
    apply andb_true_iff in Heqb2 as [[? ?]%second3_range Hc2].
    unfold cont, low6, byte_in, in_range in *. bool_split.
    split_and!; [lia| |].
    + cbn. unfold byte_in, in_range. rewrite !andb_true_iff. lia.
    + intros Hr.
      assert (c0 = byte_of 226) as -> by (apply byte_val_inj; rewrite byte_val_of; lia).
      assert (a = byte_of 128) as ->
        by (apply byte_val_inj; rewrite byte_val_of in *; lia).
      rewrite !byte_val_of in * by lia.
      destruct Hr as [Hr|Hr]; rewrite Hr.
      * by assert (a0 = byte_of 168) as -> by (apply byte_val_inj; rewrite byte_val_of; lia).
      * by assert (a0 = byte_of 169) as -> by (apply byte_val_inj; rewrite byte_val_of; lia).
  - split; [intros t; cbn; by rewrite Heqb, Heqb0, Heqb1, Heqb2, Heqb3|]. right.
    pose proof (byte_val_range a). pose proof (byte_val_range a0). pose proof (byte_val_range a1).
    apply andb_true_iff in Heqb3 as [[[? ?]%second4_range Hc2]%andb_true_iff Hc3].
    unfold cont, low6, byte_in, in_range in *. bool_split.
    split_and!; [lia| |lia].
    cbn. unfold byte_in, in_range. rewrite !andb_true_iff. lia.
Qed.

(** Induction over the chunks of a string *)
Lemma chunk_ind (P : string -> Prop) :
  P "" ->
  (forall s ch rest, next_chunk s = Some (ch, rest) -> s = (snd ch ++ rest)%string -> P rest -> P s) ->
  forall s, P s.
Proof.
  intros H0 Hs s. remember (String.length s) as n eqn:Hn. revert s Hn.
  induction (lt_wf n) as [n _ IH]. intros s ->.
  destruct (next_chunk s) as [[ch rest]|] eqn:Hnext.
  - destruct (next_chunk_spec _ _ _ Hnext) as (Heq & Hne & _).
    eapply (Hs _ _ _ Hnext Heq), (IH _); [|done].
    rewrite Heq, length_append. destruct (snd ch); [done|]. cbn. lia.
  - destruct s as [|c s]; [done|]. exfalso. revert Hnext. cbn. by case_ifs.
Qed.

Lemma utf8_chunks_valid_cons r raw t :
  (forall t, next_chunk (raw ++ t) = Some ((Some r, raw), t)) ->
  utf8_chunks (raw ++ t) = (Some r, raw) :: utf8_chunks t.
Proof. intros H. by rewrite utf8_chunks_unfold, H. Qed.

Lemma ascii_valid s : str_forallb (byte_in 0 127) s = true -> valid_string s = true.
Proof.
  unfold valid_string. induction s as [|c s IH]; [done|]. cbn. intros [Hc Hs]%andb_true_iff.
  unfold byte_in, in_range in Hc. apply andb_true_iff in Hc as [_ Hc].
  destruct (Z.ltb_spec (byte_val c) 128); [|lia]. cbn. auto.
Qed.

(** Text up to the first occurrence of a separator *)
Lemma split_at_unique (sep : ascii) (a b x y : string) :
  str_forallb (fun c => negb (Ascii.eqb c sep)) a = true ->
  str_forallb (fun c => negb (Ascii.eqb c sep)) b = true ->
  (a ++ String sep x)%string = (b ++ String sep y)%string -> a = b /\ x = y.
Proof.
  revert b. induction a as [|c a IH]; intros [|d b] Ha Hb; cbn in *.
  - by intros [= ->].
  - intros [= <- _]. by rewrite Ascii.eqb_refl in Hb.
  - intros [= -> _]. by rewrite Ascii.eqb_refl in Ha.
  - apply andb_true_iff in Ha as [_ Ha], Hb as [_ Hb]. intros [= -> Heq].
    by destruct (IH b Ha Hb Heq) as [-> ->].
Qed.

(** ** Binary search *)

(** The loop of [sort.Search], for [values[h] >= expected], and of [slices.BinarySearch]; the interval shrinks in
    every round, so as many rounds as its length are enough. *)
Fixpoint search_loop (fuel : nat) (values : list string) (expected : string) (i j : nat) : nat :=
  match fuel with
  | O => i
  | S fuel =>
      if Nat.ltb i j then
        let h := Nat.div2 (i + j) in
        if String.leb expected (nth h values "") then search_loop fuel values expected i h
        else search_loop fuel values expected (S h) j
      else i
  end.

Definition SearchStrings (values : list string) (expected : string) : nat :=
  search_loop (length values) values expected 0 (length values).

Section search.
Context (values : list string) (expected : string) (sorted : increasing values).

Lemma nth_increasing i j : (i < j < length values)%nat -> str_lt (nth i values "") (nth j values "").
Proof.
  clear expected. revert i j. induction sorted as [|a l Hs IH Ha]; intros i j [Hij Hj]; cbn [length] in Hj; [lia|].
  destruct j as [|j]; [lia|]. cbn. destruct i as [|i].
  - rewrite List.Forall_forall in Ha. apply Ha, nth_In. lia.
  - apply IH; [done|lia].
Qed.

(** What lies left of the interval is smaller, what lies right of it is not. *)
Lemma search_loop_spec fuel i j : (i <= j <= length values)%nat -> (j - i <= fuel)%nat ->
  (forall k, (k < i)%nat -> str_lt (nth k values "") expected) ->
  (forall k, (j <= k < length values)%nat -> ~ str_lt (nth k values "") expected) ->
  let index := search_loop fuel values expected i j in (index <= length values)%nat /\
  (forall k, (k < index)%nat -> str_lt (nth k values "") expected) /\
  (forall k, (index <= k < length values)%nat -> ~ str_lt (nth k values "") expected).
Proof.
  revert i j. induction fuel as [|fuel IH]; intros i j Hij Hf Hl Hr; cbn [search_loop].
  { assert (i = j) as -> by lia. split_and!; [lia|done|done]. }
  destruct (Nat.ltb_spec i j) as [Hlt|Hge]; [|assert (i = j) as -> by lia; split_and!; [lia|done|done]].
  pose proof (Nat.div2_div (i + j)) as Hd. pose proof (Nat.div_mod (i + j) 2 ltac:(done)) as Hm.
  pose proof (Nat.mod_upper_bound (i + j) 2 ltac:(done)) as Hb. set (h := Nat.div2 (i + j)) in *.
  assert (Hh : (i <= h < j)%nat) by lia.
  destruct (String.leb expected (nth h values "")) eqn:E.
  - apply str_leb_nlt in E. apply IH; [lia|lia|done|]. intros k Hk Hlt'.
    destruct (decide (k = h)) as [->|Hne]; [done|]. apply E. transitivity (nth k values ""); [|done].
    apply nth_increasing. lia.
  - apply str_leb_false in E. apply IH; [lia|lia| |done]. intros k Hk.
    destruct (decide (k = h)) as [->|Hne]; [done|]. transitivity (nth h values ""); [|done].
    apply nth_increasing. lia.
Qed.

Lemma search_found : let index := SearchStrings values expected in
  Nat.ltb index (length values) && String.eqb (nth index values "") expected = true <-> In expected values.
Proof.
  cbv zeta. unfold SearchStrings.
  destruct (search_loop_spec (length values) 0 (length values)) as (Hle & Hl & Hr); [lia..|].
  generalize dependent (search_loop (length values) values expected 0 (length values)). intros index Hle Hl Hr.
  rewrite andb_true_iff, Nat.ltb_lt, String.eqb_eq. split.
  - intros [Hi <-]. by apply nth_In.
  - intros (k & Hk & Heq)%(In_nth _ _ ""). assert (index = k) as ->; [|done].
    assert (~ (k < index)%nat) by (intros H%Hl; rewrite Heq in H; by apply (str_lt_irrefl expected)).
    assert (~ (index < k)%nat); [|lia]. intros Hlt. apply (Hr index); [lia|].
    rewrite <- Heq. apply nth_increasing. lia.
Qed.
End search.
