(* ===== verification/GoRegexp.v ===== *)
(** * Go regular expressions

    The package [regexp] restricted to what the harness compiles: patterns
    anchored at both ends, built from literals, character classes, bounded and
    unbounded repetition, and alternation.  [MatchString] on such a pattern is
    membership in the regular language of the pattern; [matches] decides it with
    Brzozowski derivatives, and [matches_lang] proves it correct against the
    inductive definition [lang].  Every class the harness uses is a set of ASCII
    characters, so matching bytes and matching runes agree: a byte of a
    multi-byte rune, like an invalid byte, is in no class. *)

From S2P Require Import Prelude GoStrings.

Local Open Scope string_scope.

Inductive regex : Type :=
| REmpty
| REps
| RChr (p : ascii -> bool)
| RCat (r1 r2 : regex)
| RAlt (r1 r2 : regex)
| RStar (r : regex).

Inductive lang : regex -> string -> Prop :=
| lang_eps : lang REps ""
| lang_chr p c : p c = true -> lang (RChr p) (String c "")
| lang_cat r1 r2 s1 s2 : lang r1 s1 -> lang r2 s2 -> lang (RCat r1 r2) (s1 ++ s2)
| lang_alt_l r1 r2 s : lang r1 s -> lang (RAlt r1 r2) s
| lang_alt_r r1 r2 s : lang r2 s -> lang (RAlt r1 r2) s
| lang_star_nil r : lang (RStar r) ""
| lang_star_cons r s1 s2 : lang r s1 -> lang (RStar r) s2 -> lang (RStar r) (s1 ++ s2).

(** Constructors that drop the empty language and the empty word as they build. *)
Definition mk_cat (r1 r2 : regex) : regex :=
  match r1 with REmpty => REmpty | REps => r2 | _ => RCat r1 r2 end.
Definition mk_alt (r1 r2 : regex) : regex :=
  match r1, r2 with REmpty, _ => r2 | _, REmpty => r1 | _, _ => RAlt r1 r2 end.

Fixpoint nullable (r : regex) : bool :=
  match r with
  | REmpty | RChr _ => false
  | REps | RStar _ => true
  | RCat r1 r2 => nullable r1 && nullable r2
  | RAlt r1 r2 => nullable r1 || nullable r2
  end.

Fixpoint deriv (c : ascii) (r : regex) : regex :=
  match r with
  | REmpty | REps => REmpty
  | RChr p => if p c then REps else REmpty
  | RCat r1 r2 =>
      if nullable r1 then mk_alt (mk_cat (deriv c r1) r2) (deriv c r2)
      else mk_cat (deriv c r1) r2
  | RAlt r1 r2 => mk_alt (deriv c r1) (deriv c r2)
  | RStar r1 => mk_cat (deriv c r1) (RStar r1)
  end.

(** [regexp.Regexp.MatchString] on [^r$] *)
Fixpoint matches (r : regex) (s : string) : bool :=
  match s with
  | EmptyString => nullable r
  | String c s' => matches (deriv c r) s'
  end.

(** ** The surface syntax of the patterns *)

Fixpoint r_lit (s : string) : regex :=
  match s with
  | EmptyString => REps
  | String c s' => mk_cat (RChr (Ascii.eqb c)) (r_lit s')
  end.

Fixpoint r_seq (l : list regex) : regex :=
  match l with [] => REps | [r] => r | r :: l' => RCat r (r_seq l') end.

(** [r{n}] *)
Fixpoint r_times (n : nat) (r : regex) : regex :=
  match n with 0 => REps | 1 => r | S n' => RCat r (r_times n' r) end.

(** [r{0,n}] *)
Fixpoint r_upto (n : nat) (r : regex) : regex :=
  match n with 0 => REps | S n' => RAlt REps (RCat r (r_upto n' r)) end.

Definition hex_class : regex := RChr is_hex_lower.
Definition digit_class : regex := RChr is_digit.
Definition lower_class : regex := RChr is_lower.
Definition one_of (cs : list ascii) : regex := RChr (fun c => existsb (Ascii.eqb c) cs).

(** ** Correctness of the derivative matcher *)

Lemma lang_cat_inv r1 r2 s :
  lang (RCat r1 r2) s -> exists s1 s2, s = s1 ++ s2 /\ lang r1 s1 /\ lang r2 s2.
Proof. inversion 1; subst; eauto. Qed.

Lemma lang_alt_inv r1 r2 s : lang (RAlt r1 r2) s -> lang r1 s \/ lang r2 s.
Proof. inversion 1; subst; eauto. Qed.

Lemma lang_empty_inv s : ~ lang REmpty s.
Proof. inversion 1. Qed.

Lemma lang_eps_inv s : lang REps s -> s = "".
Proof. by inversion 1. Qed.

Create HintDb regex.
#[export] Hint Constructors lang : regex.
#[export] Hint Resolve lang_empty_inv : regex.

Lemma lang_mk_cat r1 r2 s : lang (mk_cat r1 r2) s <-> lang (RCat r1 r2) s.
Proof.
  destruct r1; cbn; try done; split; intros H.
  - by destruct (lang_empty_inv s).
  - apply lang_cat_inv in H as (? & ? & -> & H%lang_empty_inv & ?). done.
  - change s with ("" ++ s). by constructor; [constructor|].
  - apply lang_cat_inv in H as (? & ? & -> & ->%lang_eps_inv & ?). done.
Qed.

Lemma lang_mk_alt r1 r2 s : lang (mk_alt r1 r2) s <-> lang (RAlt r1 r2) s.
Proof.
  destruct r1, r2; cbn; try done; split; intros H;
    try (apply lang_alt_inv in H as [H|H]); auto with regex;
    by destruct (lang_empty_inv s).
Qed.

Lemma nullable_lang r : nullable r = true <-> lang r "".
Proof.
  induction r as [| |p|r1 IH1 r2 IH2|r1 IH1 r2 IH2|r IH]; cbn.
  - split; [done | intros []%lang_empty_inv].
  - split; auto with regex.
  - split; [done | inversion 1].
  - rewrite andb_true_iff, IH1, IH2. split.
    + intros []. change "" with ("" ++ ""). by constructor.
    + intros (s1 & s2 & Heq & ? & ?)%lang_cat_inv.
      by destruct s1, s2; try discriminate.
  - rewrite orb_true_iff, IH1, IH2. split.
    + intros []; auto with regex.
    + apply lang_alt_inv.
  - split; auto with regex.
Qed.

Lemma lang_star_inv r s :
  lang (RStar r) s -> s = "" \/ exists c s1 s2, s = String c (s1 ++ s2) /\
    lang r (String c s1) /\ lang (RStar r) s2.
Proof.
  remember (RStar r) as q eqn:Hq. induction 1; simplify_eq; [by left|].
  destruct s1 as [|c s1]; cbn; [tauto|]. right. eauto 10.
Qed.

Lemma deriv_lang c r s : lang (deriv c r) s <-> lang r (String c s).
Proof.
  revert s. induction r as [| |p|r1 IH1 r2 IH2|r1 IH1 r2 IH2|r IH]; intros s; cbn.
  - split; intros []%lang_empty_inv.
  - split; [intros []%lang_empty_inv | inversion 1].
  - destruct (p c) eqn:Hp; split.
    + intros ->%lang_eps_inv. by constructor.
    + inversion 1; subst. constructor.
    + intros []%lang_empty_inv.
    + inversion 1; subst. congruence.
  - assert (Hl : lang (RCat (deriv c r1) r2) s <->
      exists s1 s2, s = s1 ++ s2 /\ lang r1 (String c s1) /\ lang r2 s2).
    { split.
      - intros (s1 & s2 & -> & ?%IH1 & ?)%lang_cat_inv. eauto.
      - intros (s1 & s2 & -> & ?%IH1 & ?). by constructor. }
    assert (Hr : lang (RCat r1 r2) (String c s) <->
      lang (RCat (deriv c r1) r2) s \/ (nullable r1 = true /\ lang r2 (String c s))).
    { rewrite Hl, nullable_lang. split.
      - intros ([|c' s1] & s2 & Heq & ? & ?)%lang_cat_inv; cbn in Heq; simplify_eq; eauto 10.
      - intros [(s1 & s2 & -> & ? & ?)|[]].
        + change (String c (s1 ++ s2)) with (String c s1 ++ s2). by constructor.
        + change (String c s) with ("" ++ String c s). by constructor. }
    rewrite Hr. destruct (nullable r1).
    + rewrite lang_mk_alt. split.
      * intros [?%lang_mk_cat|?%IH2]%lang_alt_inv; auto.
      * intros [|[_ ?%IH2]]; [apply lang_alt_l, lang_mk_cat | apply lang_alt_r]; done.
    + rewrite lang_mk_cat. naive_solver.
  - rewrite lang_mk_alt. split.
    + intros [?%IH1|?%IH2]%lang_alt_inv; auto with regex.
    + intros [?%IH1|?%IH2]%lang_alt_inv; auto with regex.
  - rewrite lang_mk_cat. split.
    + intros (s1 & s2 & -> & ?%IH & ?)%lang_cat_inv.
      change (String c (s1 ++ s2)) with (String c s1 ++ s2). by constructor.
    + intros [|(c' & s1 & s2 & [= -> ->] & ?%IH & ?)]%lang_star_inv; [done|].
      by constructor.
Qed.

Lemma matches_lang r s : matches r s = true <-> lang r s.
Proof.
  revert r. induction s as [|c s IH]; intros r; cbn.
  - apply nullable_lang.
  - by rewrite IH, deriv_lang.
Qed.

(** ** Lengths and alphabets of the matched words *)

Fixpoint min_len (r : regex) : nat :=
  match r with
  | REmpty | REps | RStar _ => 0
  | RChr _ => 1
  | RCat r1 r2 => min_len r1 + min_len r2
  | RAlt r1 r2 => min (min_len r1) (min_len r2)
  end.

Fixpoint max_len (r : regex) : option nat :=
  match r with
  | REmpty | REps => Some 0
  | RStar _ => None
  | RChr _ => Some 1
  | RCat r1 r2 => m ← max_len r1; n ← max_len r2; Some (m + n)
  | RAlt r1 r2 => m ← max_len r1; n ← max_len r2; Some (max m n)
  end.

Lemma lang_min_len r s : lang r s -> min_len r <= String.length s.
Proof. induction 1; cbn; rewrite ?length_append; lia. Qed.

Lemma lang_max_len r s n : max_len r = Some n -> lang r s -> String.length s <= n.
Proof.
  intros Hn H. revert n Hn. induction H; cbn; intros n Hn; simplify_option_eq;
    rewrite ?length_append; try lia;
    repeat match goal with
    | IH : forall n, Some ?m = Some n -> _ |- _ => specialize (IH m eq_refl)
    end; lia.
Qed.

Lemma matches_length r n s :
  min_len r = n -> max_len r = Some n -> matches r s = true -> String.length s = n.
Proof.
  intros <- Hmax Hm%matches_lang.
  pose proof (lang_min_len _ _ Hm). pose proof (lang_max_len _ _ _ Hmax Hm). lia.
Qed.

(** [alphabet_in p r]: every character of every word of [r] satisfies [p].  The
    classes are tested on all 256 bytes. *)
Definition all_bytes : list ascii := map ascii_of_nat (seq 0 256).
#[global] Arguments all_bytes : simpl never.

Fixpoint alphabet_in (p : ascii -> bool) (r : regex) : bool :=
  match r with
  | REmpty | REps => true
  | RChr q => forallb (fun c => implb (q c) (p c)) all_bytes
  | RCat r1 r2 | RAlt r1 r2 => alphabet_in p r1 && alphabet_in p r2
  | RStar r1 => alphabet_in p r1
  end.

Lemma all_bytes_complete c : In c all_bytes.
Proof.
  apply in_map_iff. exists (nat_of_ascii c). split; [apply ascii_nat_embedding|].
  apply in_seq. pose proof (nat_ascii_bounded c). lia.
Qed.

Lemma lang_alphabet p r s :
  alphabet_in p r = true -> lang r s -> str_forallb p s = true.
Proof.
  intros Ha H. induction H; cbn in Ha; bool_split; rewrite ?str_forallb_app; cbn; auto.
  - rewrite forallb_forall in Ha. specialize (Ha c (all_bytes_complete c)).
    by destruct (p0 c), (p c).
  - by rewrite IHlang1, IHlang2.
  - rewrite IHlang1, IHlang2; auto.
Qed.

Lemma matches_alphabet p r s :
  alphabet_in p r = true -> matches r s = true -> str_forallb p s = true.
Proof. intros ? ?%matches_lang. by eapply lang_alphabet. Qed.

Lemma alphabet_times p r n : alphabet_in p r = true -> alphabet_in p (r_times n r) = true.
Proof.
  intros H. induction n as [|n IH]; [done|]. destruct n as [|n]; [done|].
  change (alphabet_in p r && alphabet_in p (r_times (S n) r) = true). by rewrite H, IH.
Qed.

Lemma alphabet_upto p r n : alphabet_in p r = true -> alphabet_in p (r_upto n r) = true.
Proof. intros H. induction n as [|n IH]; [done|]. cbn. by rewrite H, IH. Qed.

Lemma alphabet_cat p r1 r2 :
  alphabet_in p r1 = true -> alphabet_in p r2 = true -> alphabet_in p (RCat r1 r2) = true.
Proof. cbn. by intros -> ->. Qed.

Lemma lang_lit_inv s t : lang (r_lit s) t -> t = s.
Proof.
  revert t. induction s as [|c s IH]; intros t H; [by apply lang_eps_inv|].
  change (lang (RCat (RChr (Ascii.eqb c)) (r_lit s)) t) in H.
  apply lang_cat_inv in H as (t1 & t2 & -> & H1 & ->%IH).
  inversion H1 as [|? d Hd| | | | |]; subst. apply Ascii.eqb_eq in Hd as ->. done.
Qed.
