(* ===== verification/GoTime.v ===== *)
(** * Go [time.Time], and the timestamp layout of the harness

    A [time.Time] is an instant, in nanoseconds since January 1, year 1, 00:00:00
    UTC (the instant [IsZero] tests for), and whether its [Location()] is
    [time.UTC], the only thing the harness asks of a location.  [time.Duration] is
    a 64-bit signed number of nanoseconds, and [Sub] saturates.

    [format_timestamp] and [parse_timestamp] are [Time.Format] and [time.Parse] at
    the layout ["2006-01-02T15:04:05.000000000Z"] every package of the harness
    uses.  The parser is the general one of the package [time], which accepts more
    than the formatter produces: an hour of one digit, a comma for the decimal
    point, and a sign inside the fraction. *)

From S2P Require Import Prelude GoStrings.

Local Open Scope string_scope.
Local Open Scope Z_scope.

Record Time : Type := mkTime { nanos : Z; is_utc : bool }.

#[export] Instance Time_eq_dec : EqDecision Time.
Proof. solve_decision. Defined.

(** [time.Time{}] *)
Definition zero_time : Time := mkTime 0 true.

Definition is_zero (t : Time) : bool := nanos t =? 0.
Definition before (t u : Time) : bool := nanos t <? nanos u.
Definition after (t u : Time) : bool := nanos u <? nanos t.
Definition same_instant (t u : Time) : bool := nanos t =? nanos u.
Definition to_utc (t : Time) : Time := mkTime (nanos t) true.

Definition min_int64 : Z := - 2 ^ 63.
Definition max_int64 : Z := 2 ^ 63 - 1.

(** [t.Sub(u)], saturating to the range of [time.Duration] *)
Definition time_sub (t u : Time) : Z :=
  Z.max min_int64 (Z.min max_int64 (nanos t - nanos u)).

(** [t.Add(d)] *)
Definition time_add (t : Time) (d : Z) : Time := mkTime (nanos t + d) (is_utc t).

Definition second : Z := 1000000000.

(** ** The calendar *)

Definition is_leap (y : Z) : bool :=
  (y mod 4 =? 0) && (negb (y mod 100 =? 0) || (y mod 400 =? 0)).

Definition month_lengths (leap : bool) : list Z :=
  [31; if leap then 29 else 28; 31; 30; 31; 30; 31; 31; 30; 31; 30; 31].

(** [daysIn(month, year)] *)
Definition days_in (m y : Z) : Z := nth (Z.to_nat (m - 1)) (month_lengths (is_leap y)) 0.

Definition days_in_year (y : Z) : Z := if is_leap y then 366 else 365.

(** Days from January 1, year 1 to January 1, year [y] *)
Definition days_before_year (y : Z) : Z :=
  let p := y - 1 in 365 * p + p / 4 - p / 100 + p / 400.

Definition sum_Z (l : list Z) : Z := foldr Z.add 0 l.

Definition days_of_date (y m d : Z) : Z :=
  days_before_year y + sum_Z (take (Z.to_nat (m - 1)) (month_lengths (is_leap y))) + (d - 1).

(** Year and zero-based day of the year, by 400-year, 100-year, 4-year and 1-year cycles *)
Definition year_yday (days : Z) : Z * Z :=
  let n400 := days / 146097 in
  let d1 := days mod 146097 in
  let n100 := Z.min 3 (d1 / 36524) in
  let d2 := d1 - 36524 * n100 in
  let n4 := d2 / 1461 in
  let d3 := d2 - 1461 * n4 in
  let n1 := Z.min 3 (d3 / 365) in
  (400 * n400 + 100 * n100 + 4 * n4 + n1 + 1, d3 - 365 * n1).

Fixpoint split_month (lens : list Z) (m yd : Z) : Z * Z :=
  match lens with
  | [] => (m, yd + 1)
  | l :: lens' => if yd <? l then (m, yd + 1) else split_month lens' (m + 1) (yd - l)
  end.

Definition date_of_days (days : Z) : Z * Z * Z :=
  let '(y, yd) := year_yday days in
  let '(m, d) := split_month (month_lengths (is_leap y)) 1 yd in
  (y, m, d).

Definition nanos_per_day : Z := 86400 * second.

Definition nanos_of_civil (y m d hh mm ss ns : Z) : Z :=
  days_of_date y m d * nanos_per_day + ((hh * 60 + mm) * 60 + ss) * second + ns.

(** ** Formatting *)

Definition digit_char (d : Z) : ascii := byte_of (48 + d).

(** [n] in decimal, exactly [k] digits *)
Fixpoint pad_digits (k : nat) (n : Z) : string :=
  match k with
  | O => ""
  | S k' => pad_digits k' (n / 10) ++ String (digit_char (n mod 10)) ""
  end.

(** [appendInt(b, y, 4)] *)
Definition format_year (y : Z) : string :=
  let u := Z.abs y in
  let body := if u <? 10000 then pad_digits 4 u else format_uint u in
  if y <? 0 then "-" ++ body else body.

(** [t.UTC().Format("2006-01-02T15:04:05.000000000Z")] *)
Definition format_timestamp (t : Time) : string :=
  let days := nanos t / nanos_per_day in
  let rem := nanos t mod nanos_per_day in
  let '(y, m, d) := date_of_days days in
  let secs := rem / second in
  format_year y ++ "-" ++ pad_digits 2 m ++ "-" ++ pad_digits 2 d ++ "T" ++
  pad_digits 2 (secs / 3600) ++ ":" ++ pad_digits 2 (secs / 60 mod 60) ++ ":" ++
  pad_digits 2 (secs mod 60) ++ "." ++ pad_digits 9 (rem mod second) ++ "Z".

(** ** Parsing *)

Definition digit_val (c : ascii) : Z := byte_val c - 48.

(** The digits of a whole string, most significant first; [None] on any other byte *)
Fixpoint digits_val (acc : Z) (s : string) : option Z :=
  match s with
  | EmptyString => Some acc
  | String c s' => if is_digit c then digits_val (acc * 10 + digit_val c) s' else None
  end.

(** [atoi]: an optional sign, then digits only *)
Definition atoi (s : string) : option Z :=
  match s with
  | String c s' =>
      if Ascii.eqb c "-" then Z.opp <$> digits_val 0 s'
      else if Ascii.eqb c "+" then digits_val 0 s' else digits_val 0 s
  | EmptyString => Some 0
  end.

(** [getnum(value, fixed)]: one or two digits, exactly two when [fixed] *)
Definition getnum (fixed : bool) (s : string) : option (Z * string) :=
  match s with
  | String c0 s0 =>
      if is_digit c0 then
        match s0 with
        | String c1 s1 =>
            if is_digit c1 then Some (digit_val c0 * 10 + digit_val c1, s1)
            else if fixed then None else Some (digit_val c0, s0)
        | EmptyString => if fixed then None else Some (digit_val c0, s0)
        end
      else None
  | EmptyString => None
  end.

(** [skip(value, prefix)] for a one-byte prefix *)
Definition skip_byte (c : ascii) (s : string) : option string :=
  match s with
  | String c' s' => if Ascii.eqb c' c then Some s' else None
  | EmptyString => None
  end.

(** The first [n] bytes and the rest; [None] when there are fewer *)
Fixpoint split_bytes (n : nat) (s : string) : option (string * string) :=
  match n, s with
  | O, _ => Some ("", s)
  | S n', String c s' => '(p, q) ← split_bytes n' s'; Some (String c p, q)
  | S _, EmptyString => None
  end.

Definition starts_with_digit (s : string) : bool :=
  match s with String c _ => is_digit c | EmptyString => false end.

Definition parse_year (s : string) : option (Z * string) :=
  '(p, s') ← split_bytes 4 s;
  if starts_with_digit p then y ← atoi p; Some (y, s') else None.

(** [parseNanoseconds] on the ten bytes of the fraction *)
Definition parse_fraction (s : string) : option (Z * string) :=
  '(p, s') ← split_bytes 10 s;
  match p with
  | String c p' =>
      if Ascii.eqb c "." || Ascii.eqb c ","
      then ns ← atoi p'; if ns <? 0 then None else Some (ns, s')
      else None
  | EmptyString => None
  end.

Definition guard_opt (b : bool) : option unit := if b then Some tt else None.

(** [time.Parse("2006-01-02T15:04:05.000000000Z", s)] *)
Definition parse_timestamp (s : string) : option Time :=
  '(y, s) ← parse_year s;
  s ← skip_byte "-" s;
  '(m, s) ← getnum true s;
  guard_opt (in_range 1 12 m) ;;
  s ← skip_byte "-" s;
  '(d, s) ← getnum true s;
  s ← skip_byte "T" s;
  '(hh, s) ← getnum false s;
  guard_opt (in_range 0 23 hh) ;;
  s ← skip_byte ":" s;
  '(mm, s) ← getnum true s;
  guard_opt (in_range 0 59 mm) ;;
  s ← skip_byte ":" s;
  '(ss, s) ← getnum true s;
  guard_opt (in_range 0 59 ss) ;;
  '(ns, s) ← parse_fraction s;
  s ← skip_byte "Z" s;
  guard_opt (String.eqb s "") ;;
  guard_opt (in_range 1 (days_in m y) d) ;;
  Some (mkTime (nanos_of_civil y m d hh mm ss ns) true).

(** ** The calendar is a bijection *)

Section calendar.
#[local] Ltac Zify.zify_post_hook ::= Z.div_mod_to_equations.

Lemma days_before_year_succ y : days_before_year (y + 1) = days_before_year y + days_in_year y.
Proof.
  unfold days_before_year, days_in_year, is_leap.
  replace (y + 1 - 1) with y by lia.
  destruct (Z.eqb_spec (y mod 4) 0), (Z.eqb_spec (y mod 100) 0), (Z.eqb_spec (y mod 400) 0);
    cbn [andb orb negb]; lia.
Qed.

Lemma year_yday_spec days :
  let '(y, yd) := year_yday days in
  days_before_year y + yd = days /\ 0 <= yd < days_in_year y.
Proof.
  unfold year_yday.
  set (n400 := days / 146097). set (d1 := days mod 146097).
  set (n100 := Z.min 3 (d1 / 36524)). set (d2 := d1 - 36524 * n100).
  set (n4 := d2 / 1461). set (d3 := d2 - 1461 * n4). set (n1 := Z.min 3 (d3 / 365)).
  assert (H1 : 0 <= d1 < 146097 /\ days = 146097 * n400 + d1) by (unfold d1, n400; lia).
  assert (H2 : 0 <= n100 <= 3 /\ 0 <= d2 /\ (d2 < 36524 \/ (n100 = 3 /\ d2 = 36524)))
    by (unfold d2, n100; lia).
  assert (H3 : 0 <= n4 <= 24 /\ 0 <= d3 < 1461 /\ (n4 = 24 -> d3 < 1460 \/ n100 = 3))
    by (unfold d3, n4; lia).
  assert (H4 : 0 <= n1 <= 3 /\ 0 <= d3 - 365 * n1 /\
    (d3 - 365 * n1 < 365 \/ (n1 = 3 /\ d3 - 365 * n1 = 365))) by (unfold n1; lia).
  clearbody n400 d1 n100 n4 n1.
  assert (Hp4 : (400 * n400 + 100 * n100 + 4 * n4 + n1) / 4 = 100 * n400 + 25 * n100 + n4) by lia.
  assert (Hp100 : (400 * n400 + 100 * n100 + 4 * n4 + n1) / 100 = 4 * n400 + n100) by lia.
  assert (Hp400 : (400 * n400 + 100 * n100 + 4 * n4 + n1) / 400 = n400) by lia.
  unfold days_before_year, days_in_year, is_leap.
  replace (400 * n400 + 100 * n100 + 4 * n4 + n1 + 1 - 1)
    with (400 * n400 + 100 * n100 + 4 * n4 + n1) by lia.
  rewrite Hp4, Hp100, Hp400. split; [unfold d3, d2 in *; lia|].
  destruct (decide (n1 = 3)) as [->|Hn1].
  2: { split; [lia|]. destruct (_ && _); lia. }
  destruct (Z.eqb_spec ((400 * n400 + 100 * n100 + 4 * n4 + 3 + 1) mod 4) 0) as [_|]; [|lia].
  destruct (Z.eqb_spec ((400 * n400 + 100 * n100 + 4 * n4 + 3 + 1) mod 100) 0) as [E100|];
    cbn [andb orb negb]; [|lia].
  assert (n4 = 24) as -> by lia.
  destruct (Z.eqb_spec ((400 * n400 + 100 * n100 + 4 * 24 + 3 + 1) mod 400) 0) as [|E400];
    cbn [andb orb negb]; [lia|].
  assert (n100 <> 3) by (intros ->; apply E400; lia). lia.
Qed.
End calendar.

Lemma days_in_year_pos y : 365 <= days_in_year y <= 366.
Proof. unfold days_in_year. destruct (is_leap y); lia. Qed.

Lemma days_before_year_mono y k : 0 <= k -> days_before_year y + 365 * k <= days_before_year (y + k).
Proof.
  intros Hk. pattern k. apply natlike_ind; [|clear k Hk|done].
  - rewrite !Z.add_0_r. lia.
  - intros k Hk IH. replace (y + Z.succ k) with (y + k + 1) by lia.
    rewrite days_before_year_succ.
    pose proof (days_in_year_pos (y + k)). lia.
Qed.

Lemma year_unique y y' yd yd' :
  days_before_year y + yd = days_before_year y' + yd' ->
  0 <= yd < days_in_year y -> 0 <= yd' < days_in_year y' -> y = y' /\ yd = yd'.
Proof.
  intros Heq Hyd Hyd'.
  assert (Hlt : forall a b, a < b -> days_before_year a + days_in_year a <= days_before_year b).
  { intros a b Hab. rewrite <- days_before_year_succ.
    pose proof (days_before_year_mono (a + 1) (b - (a + 1)) ltac:(lia)).
    replace (a + 1 + (b - (a + 1))) with b in * by lia. lia. }
  destruct (Z.lt_trichotomy y y') as [H|[->|H]]; [|lia|].
  - specialize (Hlt _ _ H). lia.
  - specialize (Hlt _ _ H). lia.
Qed.

Lemma split_month_inv lens m i d l :
  Forall (fun l => 0 <= l) lens -> lens !! i = Some l -> 1 <= d <= l ->
  split_month lens m (sum_Z (take i lens) + (d - 1)) = (m + Z.of_nat i, d).
Proof.
  intros Hpos. revert m i. induction Hpos as [|l0 lens Hl0 Hpos IH]; intros m i Hi Hd; [done|].
  destruct i as [|i]; cbn [take split_month] in *.
  - cbn in Hi. simplify_eq. unfold sum_Z; cbn [foldr].
    destruct (Z.ltb_spec (0 + (d - 1)) l); [f_equal; lia | lia].
  - assert (Hs : 0 <= sum_Z (take i lens)).
    { clear -Hpos. revert i. induction Hpos as [|x xs Hx Hxs IHl]; intros [|i]; cbn; try lia.
      specialize (IHl i). unfold sum_Z in *. lia. }
    unfold sum_Z; cbn [foldr]; fold (sum_Z (take i lens)).
    destruct (Z.ltb_spec (l0 + sum_Z (take i lens) + (d - 1)) l0); [lia|].
    replace (l0 + sum_Z (take i lens) + (d - 1) - l0) with (sum_Z (take i lens) + (d - 1)) by lia.
    rewrite IH by done. f_equal; lia.
Qed.

Lemma split_month_spec lens m yd :
  Forall (fun l => 0 <= l) lens -> 0 <= yd < sum_Z lens ->
  exists i l, split_month lens m yd = (m + Z.of_nat i, yd - sum_Z (take i lens) + 1) /\
    lens !! i = Some l /\ 0 <= yd - sum_Z (take i lens) < l.
Proof.
  intros Hpos. revert m yd. induction Hpos as [|l0 lens Hl0 Hpos IH]; intros m yd Hyd; cbn in *; [lia|].
  destruct (Z.ltb_spec yd l0).
  - exists 0%nat, l0. cbn. split; [f_equal; lia|]. split; [done | lia].
  - destruct (IH (m + 1) (yd - l0)) as (i & l & -> & Hi & ?); [unfold sum_Z; lia|].
    exists (S i), l. cbn [take]. unfold sum_Z; cbn [foldr]; fold (sum_Z (take i lens)). split; [f_equal; lia|]. split; [done | lia].
Qed.

Lemma month_lengths_pos leap : Forall (fun l => 0 <= l) (month_lengths leap).
Proof. destruct leap; repeat constructor; lia. Qed.

Lemma month_lengths_sum y : sum_Z (month_lengths (is_leap y)) = days_in_year y.
Proof. unfold days_in_year. by destruct (is_leap y). Qed.

Lemma month_lookup leap m : 1 <= m <= 12 ->
  month_lengths leap !! Z.to_nat (m - 1) = Some (nth (Z.to_nat (m - 1)) (month_lengths leap) 0).
Proof.
  intros Hm.
  destruct (month_lengths leap !! Z.to_nat (m - 1)) eqn:E.
  - by rewrite (nth_lookup_Some _ _ 0 _ E).
  - apply lookup_ge_None in E. cbn in E. lia.
Qed.

(** The days of the month stay within the year. *)
Lemma month_prefix_bound lens i l d :
  Forall (fun l => 0 <= l) lens -> lens !! i = Some l -> 1 <= d <= l ->
  0 <= sum_Z (take i lens) + (d - 1) < sum_Z lens.
Proof.
  intros Hpos. revert i. induction Hpos as [|l0 lens Hl0 Hpos IH]; intros [|i] Hi Hd; cbn in *;
    simplify_eq; try done.
  - assert (0 <= sum_Z lens).
    { clear -Hpos. unfold sum_Z. induction Hpos; cbn in *; lia. }
    unfold sum_Z in *. lia.
  - specialize (IH i Hi Hd). unfold sum_Z in *. lia.
Qed.

Lemma date_of_days_of_date y m d :
  1 <= m <= 12 -> 1 <= d <= days_in m y -> date_of_days (days_of_date y m d) = (y, m, d).
Proof.
  intros Hm Hd. unfold date_of_days, days_of_date.
  pose proof (month_lookup (is_leap y) m Hm) as Hl.
  pose proof (month_prefix_bound _ _ _ _ (month_lengths_pos (is_leap y)) Hl Hd) as Hb.
  rewrite month_lengths_sum in Hb.
  set (yd := sum_Z _ + (d - 1)) in *.
  pose proof (year_yday_spec (days_before_year y + yd)) as Hs.
  replace (days_before_year y + sum_Z (take (Z.to_nat (m - 1)) (month_lengths (is_leap y))) + (d - 1))
    with (days_before_year y + yd) by (unfold yd; lia).
  destruct (year_yday (days_before_year y + yd)) as [y' yd'].
  destruct Hs as [Hs Hr]. destruct (year_unique _ _ _ _ Hs Hr Hb) as [-> ->].
  unfold yd. rewrite (split_month_inv _ 1 _ d _ (month_lengths_pos _) Hl Hd).
  repeat f_equal. lia.
Qed.

Lemma days_of_date_of_days days :
  let '(y, m, d) := date_of_days days in
  1 <= m <= 12 /\ 1 <= d <= days_in m y /\ days_of_date y m d = days.
Proof.
  unfold date_of_days. pose proof (year_yday_spec days) as Hs.
  destruct (year_yday days) as [y yd]. destruct Hs as [Hs Hr].
  rewrite <- month_lengths_sum in Hr.
  destruct (split_month_spec _ 1 yd (month_lengths_pos _) Hr) as (i & l & -> & Hi & Hd).
  pose proof (lookup_lt_Some _ _ _ Hi) as Hlt. cbn in Hlt.
  unfold days_in, days_of_date.
  replace (Z.to_nat (1 + Z.of_nat i - 1)) with i by lia.
  rewrite (nth_lookup_Some _ _ 0 _ Hi). lia.
Qed.

(** ** Formatting then parsing gives the instant back *)

Lemma digit_char_spec d : 0 <= d < 10 -> is_digit (digit_char d) = true /\ digit_val (digit_char d) = d.
Proof.
  intros Hd. unfold is_digit, byte_in, in_range, digit_val, digit_char.
  rewrite byte_val_of by lia. split; [|lia]. apply andb_true_iff. lia.
Qed.

Lemma length_pad_digits k n : String.length (pad_digits k n) = k.
Proof. revert n. induction k as [|k IH]; intros n; cbn; [done|]. rewrite length_append, IH. cbn. lia. Qed.

Lemma digits_val_app acc s t :
  digits_val acc (s ++ t) = (a ← digits_val acc s; digits_val a t).
Proof. revert acc. induction s as [|c s IH]; intros acc; cbn; [done|]. by destruct (is_digit c). Qed.

Lemma digits_val_pad acc k n :
  digits_val acc (pad_digits k n) = Some (acc * 10 ^ Z.of_nat k + n mod 10 ^ Z.of_nat k).
Proof.
  revert n. induction k as [|k IH]; intros n.
  - cbn. rewrite Z.mod_1_r. f_equal. lia.
  - cbn [pad_digits]. rewrite digits_val_app, IH. cbn.
    destruct (digit_char_spec (n mod 10)) as [-> ->]; [apply Z.mod_pos_bound; lia|].
    f_equal. rewrite Nat2Z.inj_succ, Z.pow_succ_r by lia.
    set (p := 10 ^ Z.of_nat k). assert (0 < p) by (apply Z.pow_pos_nonneg; lia).
    rewrite (Z.mul_comm 10 p), (Z.mul_comm p 10), Z.rem_mul_r by lia. lia.
Qed.

Lemma pad_digits_forallb k n : str_forallb is_digit (pad_digits k n) = true.
Proof.
  revert n. induction k as [|k IH]; intros n; cbn; [done|].
  rewrite str_forallb_app, IH. cbn.
  by destruct (digit_char_spec (n mod 10)) as [-> _]; [apply Z.mod_pos_bound; lia|].
Qed.

Lemma split_bytes_app p s : split_bytes (String.length p) (p ++ s) = Some (p, s).
Proof. induction p as [|c p IH]; cbn; [done|]. by rewrite IH. Qed.

Lemma atoi_digits s : str_forallb is_digit s = true -> atoi s = digits_val 0 s.
Proof.
  destruct s as [|c s]; [done|]. cbn [str_forallb]. intros [Hc _]%andb_true_iff.
  unfold atoi.
  destruct (Ascii.eqb_spec c "-") as [->|_]; [done|].
  by destruct (Ascii.eqb_spec c "+") as [->|_].
Qed.

Lemma getnum_pad fixed n s : 0 <= n < 100 -> getnum fixed (pad_digits 2 n ++ s) = Some (n, s).
Proof.
  intros Hn. cbn.
  destruct (digit_char_spec (n / 10 mod 10)) as [-> ->]; [apply Z.mod_pos_bound; lia|].
  destruct (digit_char_spec (n mod 10)) as [-> ->]; [apply Z.mod_pos_bound; lia|].
  rewrite (Z.mod_small (n / 10)).
  - repeat f_equal. pose proof (Z.div_mod n 10). lia.
  - split; [apply Z.div_pos; lia | apply Z.div_lt_upper_bound; lia].
Qed.

Lemma parse_year_pad y s : 0 <= y <= 9999 -> parse_year (pad_digits 4 y ++ s) = Some (y, s).
Proof.
  intros Hy. unfold parse_year.
  pose proof (split_bytes_app (pad_digits 4 y) s) as Hs. rewrite length_pad_digits in Hs.
  rewrite Hs. cbn [mbind option_bind].
  pose proof (pad_digits_forallb 4 y) as Hd.
  assert (starts_with_digit (pad_digits 4 y) = true) as ->.
  { destruct (pad_digits 4 y) eqn:E.
    - pose proof (length_pad_digits 4 y) as Hl. rewrite E in Hl. done.
    - cbn in *. by apply andb_true_iff in Hd as []. }
  rewrite (atoi_digits _ Hd), digits_val_pad. cbn. rewrite Z.mod_small by lia. done.
Qed.

Lemma parse_fraction_pad n s :
  0 <= n < second -> parse_fraction ("." ++ pad_digits 9 n ++ s) = Some (n, s).
Proof.
  intros Hn. unfold parse_fraction.
  pose proof (split_bytes_app ("." ++ pad_digits 9 n) s) as Hs.
  cbn [String.append String.length] in Hs |- *. rewrite length_pad_digits in Hs.
  rewrite Hs. cbn [mbind option_bind orb Ascii.eqb Bool.eqb andb].
  rewrite (atoi_digits _ (pad_digits_forallb 9 n)), digits_val_pad. cbn [mbind option_bind].
  unfold second in Hn. rewrite Z.mod_small by (cbn; lia).
  destruct (Z.ltb_spec (0 * 10 ^ Z.of_nat 9 + n) 0); [lia|]. done.
Qed.

(** The years the layout can print in four digits *)
Definition four_digit_year (t : Time) : bool :=
  in_range 0 9999 (fst (fst (date_of_days (nanos t / nanos_per_day)))).

Lemma days_in_bound m y : days_in m y <= 31.
Proof.
  unfold days_in. generalize (Z.to_nat (m - 1)). intros i.
  destruct (is_leap y); do 12 (destruct i as [|i]; [cbn; lia|]); destruct i; cbn; lia.
Qed.

Lemma clock_fields rem : 0 <= rem < nanos_per_day ->
  0 <= rem / second / 3600 <= 23 /\ 0 <= rem / second / 60 mod 60 <= 59 /\
  0 <= rem / second mod 60 <= 59 /\ 0 <= rem mod second < second /\
  ((rem / second / 3600 * 60 + rem / second / 60 mod 60) * 60 + rem / second mod 60) * second
    + rem mod second = rem.
Proof.
  unfold nanos_per_day, second. intros H.
  pose proof (Z.div_mod rem 1000000000 ltac:(lia)).
  pose proof (Z.mod_pos_bound rem 1000000000 ltac:(lia)).
  set (s := rem / 1000000000) in *.
  assert (0 <= s < 86400) by lia.
  assert (s / 3600 = s / 60 / 60) as -> by (rewrite Z.div_div by lia; done).
  pose proof (Z.div_mod s 60 ltac:(lia)). pose proof (Z.mod_pos_bound s 60 ltac:(lia)).
  set (m := s / 60) in *.
  pose proof (Z.div_mod m 60 ltac:(lia)). pose proof (Z.mod_pos_bound m 60 ltac:(lia)).
  lia.
Qed.

Lemma parse_format_timestamp t :
  four_digit_year t = true -> parse_timestamp (format_timestamp t) = Some (to_utc t).
Proof.
  unfold four_digit_year, format_timestamp, in_range. intros Hy.
  pose proof (days_of_date_of_days (nanos t / nanos_per_day)) as Hd.
  destruct (date_of_days (nanos t / nanos_per_day)) as [[y m] d]. cbn [fst] in Hy.
  apply andb_true_iff in Hy as [Hy1%Z.leb_le Hy2%Z.leb_le].
  destruct Hd as (Hm & Hdd & Hdays).
  assert (0 < nanos_per_day) as Hpos by (unfold nanos_per_day, second; lia).
  pose proof (Z.mod_pos_bound (nanos t) nanos_per_day Hpos) as Hrem.
  destruct (clock_fields _ Hrem) as (Hh & Hmi & Hs & Hns & Heq).
  pose proof (Z.div_mod (nanos t) nanos_per_day ltac:(lia)) as Hdm.
  set (rem := nanos t mod nanos_per_day) in *.
  unfold format_year. destruct (Z.ltb_spec (Z.abs y) 10000); [|lia].
  destruct (Z.ltb_spec y 0); [lia|]. rewrite (Z.abs_eq y) by lia.
  unfold parse_timestamp. rewrite parse_year_pad by lia.
  pose proof (days_in_bound m y).
  cbn [mbind option_bind String.append skip_byte Ascii.eqb Bool.eqb].
  rewrite getnum_pad by lia. cbn [mbind option_bind].
  assert (forall lo hi z, lo <= z <= hi -> guard_opt (in_range lo hi z) = Some tt) as Hguard.
  { intros lo hi z Hz. unfold guard_opt, in_range.
    by destruct (Z.leb_spec lo z), (Z.leb_spec z hi); try lia. }
  rewrite Hguard by lia. cbn [mbind option_bind skip_byte Ascii.eqb Bool.eqb].
  rewrite getnum_pad by lia. cbn [mbind option_bind skip_byte Ascii.eqb Bool.eqb].
  rewrite getnum_pad by lia. cbn [mbind option_bind skip_byte Ascii.eqb Bool.eqb].
  rewrite Hguard by lia. cbn [mbind option_bind skip_byte Ascii.eqb Bool.eqb].
  rewrite getnum_pad by lia. cbn [mbind option_bind skip_byte Ascii.eqb Bool.eqb].
  rewrite Hguard by lia. cbn [mbind option_bind skip_byte Ascii.eqb Bool.eqb].
  rewrite getnum_pad by lia. cbn [mbind option_bind].
  rewrite Hguard by lia. cbn [mbind option_bind].
  pose proof (parse_fraction_pad _ "Z" Hns) as Hf. cbn [String.append] in Hf. rewrite Hf.
  cbn [mbind option_bind skip_byte Ascii.eqb Bool.eqb String.eqb guard_opt].
  rewrite Hguard by lia. cbn [mbind option_bind].
  unfold to_utc, nanos_of_civil. do 2 f_equal. lia.
Qed.

(** ** What the parser accepts

    A timestamp ends in its only "Z", and what precedes it is made of a few characters. *)

Lemma skip_byte_inv c s s' : skip_byte c s = Some s' -> s = String c s'.
Proof. destruct s; cbn; [done|]. case_match eqn:E; [|done]. apply Ascii.eqb_eq in E as ->. by intros [= ->]. Qed.

Lemma split_bytes_inv n s p q : split_bytes n s = Some (p, q) -> s = p ++ q.
Proof.
  revert s p q. induction n as [|n IH]; intros s p q H; cbn in H; [by injection H as <- <-|].
  destruct s as [|c s]; [done|]. destruct (split_bytes n s) as [[p' q']|] eqn:E; [|done].
  injection H as <- <-. cbn. f_equal. by apply IH.
Qed.

Lemma guard_opt_inv b u : guard_opt b = Some u -> b = true.
Proof. by destruct b. Qed.

Lemma opt_bind_inv {A B} (m : option A) (f : A -> option B) b :
  (m ≫= f) = Some b -> exists a, m = Some a /\ f a = Some b.
Proof. destruct m; cbn; eauto. done. Qed.

Section characters.
Context (p : ascii -> bool) (Hdigit : forall c, is_digit c = true -> p c = true)
  (Hmarks : forallb p ["+"; "-"; "."; ","; ":"; "T"]%char = true).

Definition closed (s : string) : Prop := exists body, s = body ++ "Z" /\ str_forallb p body = true.

Lemma mark c : In c ["+"; "-"; "."; ","; ":"; "T"]%char -> p c = true.
Proof. rewrite forallb_forall in Hmarks. apply Hmarks. Qed.

Lemma closed_cons c s : p c = true -> closed s -> closed (String c s).
Proof. intros Hc (body & -> & Hb). exists (String c body). cbn. by rewrite Hc. Qed.

Lemma closed_app q s : str_forallb p q = true -> closed s -> closed (q ++ s).
Proof. induction q as [|c q IH]; cbn; [done|]. intros [Hc Hq]%andb_true_iff Hs. apply closed_cons; [done|by apply IH]. Qed.

Lemma digits_val_chars acc s n : digits_val acc s = Some n -> str_forallb p s = true.
Proof.
  revert acc. induction s as [|c s IH]; intros acc H; [done|]. cbn in H |- *.
  destruct (is_digit c) eqn:Hc; [|done]. rewrite Hdigit by done. by eapply IH.
Qed.

Lemma atoi_chars s n : atoi s = Some n -> str_forallb p s = true.
Proof.
  destruct s as [|c s]; [done|]. unfold atoi. cbn [str_forallb]. rewrite andb_true_iff.
  destruct (Ascii.eqb_spec c "-") as [->|]; [|destruct (Ascii.eqb_spec c "+") as [->|]].
  - destruct (digits_val 0 s) eqn:E; [|done]. intros _. split; [apply mark; cbn; tauto|by apply digits_val_chars in E].
  - intros H. split; [apply mark; cbn; tauto|by apply digits_val_chars in H].
  - intros H%digits_val_chars. cbn in H. by apply andb_true_iff in H.
Qed.

Lemma getnum_closed fixed s n s' : getnum fixed s = Some (n, s') -> closed s' -> closed s.
Proof.
  unfold getnum. intros H Hs'. repeat case_match; simplify_eq; repeat (apply closed_cons; [by apply Hdigit|]); done.
Qed.

Lemma parse_year_closed s n s' : parse_year s = Some (n, s') -> closed s' -> closed s.
Proof.
  unfold parse_year. intros H Hs'. destruct (split_bytes 4 s) as [[y q]|] eqn:E; [|done]. cbn in H.
  destruct (starts_with_digit y); [|done]. destruct (atoi y) eqn:Ea; [|done]. cbn in H. simplify_eq.
  apply split_bytes_inv in E as ->. apply closed_app; [by eapply atoi_chars|done].
Qed.

Lemma parse_fraction_closed s n s' : parse_fraction s = Some (n, s') -> closed s' -> closed s.
Proof.
  unfold parse_fraction. intros H Hs'. destruct (split_bytes 10 s) as [[f q]|] eqn:E; [|done]. cbn in H.
  destruct f as [|c f]; [done|]. destruct (Ascii.eqb c "." || Ascii.eqb c ",") eqn:Hc; [|done].
  destruct (atoi f) eqn:Ea; [|done]. cbn in H. destruct (_ <? 0); [done|]. simplify_eq.
  apply split_bytes_inv in E as ->. apply closed_cons; [|apply closed_app; [by eapply atoi_chars|done]].
  apply orb_true_iff in Hc as [Hc|Hc]; apply Ascii.eqb_eq in Hc as ->; apply mark; cbn; tauto.
Qed.

Lemma skip_byte_closed c s s' : In c ["+"; "-"; "."; ","; ":"; "T"]%char -> skip_byte c s = Some s' -> closed s' -> closed s.
Proof. intros Hc ->%skip_byte_inv. apply closed_cons. by apply mark. Qed.

Lemma parse_timestamp_closed s t : parse_timestamp s = Some t -> closed s.
Proof.
  unfold parse_timestamp. intros H.
  apply opt_bind_inv in H as ([y s1] & Hy & H). eapply parse_year_closed; [done|].
  apply opt_bind_inv in H as (s2 & E2 & H). eapply skip_byte_closed; [|done|]; [cbn; tauto|].
  apply opt_bind_inv in H as ([m s3] & Hm & H). eapply getnum_closed; [done|].
  apply opt_bind_inv in H as (? & _ & H).
  apply opt_bind_inv in H as (s4 & E4 & H). eapply skip_byte_closed; [|done|]; [cbn; tauto|].
  apply opt_bind_inv in H as ([d s5] & Hd & H). eapply getnum_closed; [done|].
  apply opt_bind_inv in H as (s6 & E6 & H). eapply skip_byte_closed; [|done|]; [cbn; tauto|].
  apply opt_bind_inv in H as ([hh s7] & Hh & H). eapply getnum_closed; [done|].
  apply opt_bind_inv in H as (? & _ & H).
  apply opt_bind_inv in H as (s8 & E8 & H). eapply skip_byte_closed; [|done|]; [cbn; tauto|].
  apply opt_bind_inv in H as ([mm s9] & Hmm & H). eapply getnum_closed; [done|].
  apply opt_bind_inv in H as (? & _ & H).
  apply opt_bind_inv in H as (s10 & E10 & H). eapply skip_byte_closed; [|done|]; [cbn; tauto|].
  apply opt_bind_inv in H as ([ss s11] & Hss & H). eapply getnum_closed; [done|].
  apply opt_bind_inv in H as (? & _ & H).
  apply opt_bind_inv in H as ([ns s12] & Hns & H). eapply parse_fraction_closed; [done|].
  apply opt_bind_inv in H as (s13 & ->%skip_byte_inv & H).
  apply opt_bind_inv in H as (? & Hend & _). apply guard_opt_inv, String.eqb_eq in Hend as ->. by exists "".
Qed.
End characters.

Lemma digit_is_ascii c : is_digit c = true -> byte_in 0 127 c = true.
Proof. unfold is_digit, byte_in, in_range. rewrite !andb_true_iff, !Z.leb_le. lia. Qed.

Lemma parse_timestamp_ascii s t : parse_timestamp s = Some t -> str_forallb (byte_in 0 127) s = true.
Proof.
  intros (body & -> & Hb)%(parse_timestamp_closed (byte_in 0 127)); [|by apply digit_is_ascii|done].
  rewrite str_forallb_app. by rewrite Hb.
Qed.

(** A timestamp is a prefix code: the text that follows it does not blur its end. *)
Lemma timestamp_prefix s t s' t' rest rest' : parse_timestamp s = Some t -> parse_timestamp s' = Some t' ->
  s ++ rest = s' ++ rest' -> s = s' /\ rest = rest'.
Proof.
  set (p c := negb (Ascii.eqb c "Z")).
  assert (Hd : forall c, is_digit c = true -> p c = true).
  { intros c Hc. unfold p. destruct (Ascii.eqb_spec c "Z") as [->|]; done. }
  intros (b & -> & Hb)%(parse_timestamp_closed p) (b' & -> & Hb')%(parse_timestamp_closed p); try done.
  rewrite !append_assoc. revert b' Hb Hb'. induction b as [|c b IH]; intros [|c' b'] Hb Hb' H; cbn in *.
  - by injection H.
  - injection H as <- _. done.
  - injection H as -> _. done.
  - apply andb_true_iff in Hb as [_ Hb], Hb' as [_ Hb']. injection H as -> H.
    destruct (IH b' Hb Hb' H) as [H1 ->]. split; [by rewrite H1|done].
Qed.

Lemma parse_timestamp_valid s t : parse_timestamp s = Some t -> valid_string s = true.
Proof. intros H. by eapply ascii_valid, parse_timestamp_ascii. Qed.
