(* ===== verification/GoBase64.v ===== *)
(** * [base64.RawURLEncoding]

    [EncodeToString] and [DecodeString] of the unpadded URL alphabet.  The decoder is the
    package's own, not strict: it skips carriage returns and line feeds anywhere, it does
    not look at the bits of the last character that no byte uses, and it refuses every
    other character, the padding character included. *)

From S2P Require Import Prelude GoStrings.

Local Open Scope string_scope.
Local Open Scope Z_scope.

(** The character of a six-bit value *)
Definition b64_char (n : Z) : ascii :=
  if n <? 26 then byte_of (65 + n)
  else if n <? 52 then byte_of (71 + n)
  else if n <? 62 then byte_of (n - 4)
  else if n =? 62 then "-"%char else "_"%char.

(** [decodeMap] *)
Definition b64_val (c : ascii) : option Z :=
  let b := byte_val c in
  if in_range 65 90 b then Some (b - 65)
  else if in_range 97 122 b then Some (b - 71)
  else if in_range 48 57 b then Some (b + 4)
  else if b =? 45 then Some 62
  else if b =? 95 then Some 63
  else None.

Fixpoint base64_encode (s : string) : string :=
  match s with
  | EmptyString => ""
  | String a EmptyString =>
      String (b64_char (byte_val a / 4)) (String (b64_char (byte_val a mod 4 * 16)) "")
  | String a (String b EmptyString) =>
      String (b64_char (byte_val a / 4))
        (String (b64_char (byte_val a mod 4 * 16 + byte_val b / 16))
          (String (b64_char (byte_val b mod 16 * 4)) ""))
  | String a (String b (String c s')) =>
      String (b64_char (byte_val a / 4))
        (String (b64_char (byte_val a mod 4 * 16 + byte_val b / 16))
          (String (b64_char (byte_val b mod 16 * 4 + byte_val c / 64))
            (String (b64_char (byte_val c mod 64)) (base64_encode s'))))
  end.

(** The six-bit values of the text, line breaks dropped *)
Fixpoint b64_values (s : string) : option (list Z) :=
  match s with
  | EmptyString => Some []
  | String c s' =>
      match b64_val c with
      | Some v => vs ← b64_values s'; Some (v :: vs)
      | None => if Ascii.eqb c LF || Ascii.eqb c CR then b64_values s' else None
      end
  end.

(** Quantum by quantum *)
Fixpoint b64_bytes (vs : list Z) : option string :=
  match vs with
  | [] => Some ""
  | [_] => None
  | [a; b] => Some (String (byte_of (a * 4 + b / 16)) "")
  | [a; b; c] => Some (String (byte_of (a * 4 + b / 16)) (String (byte_of (b mod 16 * 16 + c / 4)) ""))
  | a :: b :: c :: d :: vs' =>
      s ← b64_bytes vs';
      Some (String (byte_of (a * 4 + b / 16)) (String (byte_of (b mod 16 * 16 + c / 4))
        (String (byte_of (c mod 4 * 64 + d)) s)))
  end.

Definition base64_decode (s : string) : option string := vs ← b64_values s; b64_bytes vs.

Example base64_example : base64_encode "COH audit" = "Q09IIGF1ZGl0" /\ base64_decode "Q09IIGF1ZGl0" = Some "COH audit".
Proof. done. Qed.

(** ** Decoding what was encoded *)

Lemma b64_val_char n : 0 <= n < 64 -> b64_val (b64_char n) = Some n.
Proof.
  intros Hn.
  assert (H : forallb (fun k => bool_decide (b64_val (b64_char (Z.of_nat k)) = Some (Z.of_nat k))) (seq 0 64) = true)
    by (vm_compute; reflexivity).
  rewrite forallb_forall in H. specialize (H (Z.to_nat n)).
  rewrite in_seq in H. specialize (H ltac:(lia)). apply bool_decide_eq_true in H.
  by rewrite Z2Nat.id in H by lia.
Qed.

Lemma byte_val_bound c : 0 <= byte_val c < 256.
Proof. unfold byte_val. pose proof (N_ascii_bounded c). lia. Qed.

Lemma byte_of_byte_val z c : z = byte_val c -> byte_of z = c.
Proof.
  intros ->. unfold byte_of. pose proof (byte_val_bound c). rewrite Z.mod_small by lia.
  unfold byte_val. rewrite N2Z.id. apply ascii_N_embedding.
Qed.

Section triples.
Variable P : string -> Prop.
Hypothesis H0 : P "".
Hypothesis H1 : forall a, P (String a "").
Hypothesis H2 : forall a b, P (String a (String b "")).
Hypothesis H3 : forall a b c s, P s -> P (String a (String b (String c s))).

Fixpoint triple_ind (s : string) : P s :=
  match s with
  | EmptyString => H0
  | String a EmptyString => H1 a
  | String a (String b EmptyString) => H2 a b
  | String a (String b (String c s')) => H3 a b c s' (triple_ind s')
  end.
End triples.

Section round_trip.
#[local] Ltac Zify.zify_post_hook ::= Z.div_mod_to_equations.

Lemma b64_values_cons n s : 0 <= n < 64 ->
  b64_values (String (b64_char n) s) = (vs ← b64_values s; Some (n :: vs)).
Proof. intros Hn. cbn [b64_values]. by rewrite b64_val_char. Qed.

Lemma base64_round_trip s : base64_decode (base64_encode s) = Some s.
Proof.
  unfold base64_decode. induction s as [|a|a b|a b c s IH] using triple_ind; cbn [base64_encode]; [done|..];
    pose proof (byte_val_bound a); try pose proof (byte_val_bound b); try pose proof (byte_val_bound c);
    rewrite !b64_values_cons by lia.
  - cbn [b64_values mbind option_bind b64_bytes]. do 2 f_equal. apply byte_of_byte_val. lia.
  - cbn [b64_values mbind option_bind b64_bytes]. do 2 f_equal; [|f_equal]; apply byte_of_byte_val; lia.
  - destruct (b64_values (base64_encode s)) as [vs|]; [|done]. cbn in IH |- *. rewrite IH. cbn.
    f_equal. f_equal; [|f_equal; [|f_equal]]; apply byte_of_byte_val; lia.
Qed.
End round_trip.

(** ** What decodes is ASCII *)

Lemma b64_values_ascii s vs : b64_values s = Some vs -> str_forallb (byte_in 0 127) s = true.
Proof.
  revert vs. induction s as [|c s IH]; intros vs H; [done|]. cbn [b64_values] in H.
  cbn [str_forallb]. apply andb_true_iff.
  assert (byte_in 0 127 c = true /\ exists vs', b64_values s = Some vs') as [-> [vs' Hvs]].
  { unfold b64_val, byte_in, in_range in *.
    destruct (b64_values s) as [vs'|]; [split; [|eauto]|].
    - destruct (Ascii.eqb_spec c LF) as [->|]; [done|]. destruct (Ascii.eqb_spec c CR) as [->|]; [done|].
      cbn in H. repeat case_match; try done; bool_split; apply andb_true_iff; rewrite ?Z.leb_le in *; lia.
    - exfalso. repeat case_match; done. }
  split; [done|]. by eapply IH.
Qed.

Lemma base64_ascii s t : base64_decode s = Some t -> valid_string s = true.
Proof.
  unfold base64_decode. intros H. destruct (b64_values s) as [vs|] eqn:E; [|done].
  apply ascii_valid. by eapply b64_values_ascii.
Qed.

Lemma base64_encode_ascii s : valid_string (base64_encode s) = true.
Proof. eapply base64_ascii, base64_round_trip. Qed.

Lemma base64_no_padding s t : base64_decode s = Some t -> contains_any s ["="%char] = false.
Proof.
  unfold base64_decode. intros H. destruct (b64_values s) as [vs|] eqn:E; [|done]. clear H.
  unfold contains_any, str_existsb. apply negb_false_iff. revert vs E.
  induction s as [|c s IH]; intros vs E; [done|]. cbn [b64_values] in E. cbn [str_forallb].
  destruct (Ascii.eqb_spec c "=") as [->|Hc]; [done|]. apply andb_true_iff. split.
  - cbn. by apply Ascii.eqb_neq in Hc as ->.
  - destruct (b64_val c), (b64_values s) eqn:Es; cbn in E; try done; try (by eapply IH).
    by case_match.
Qed.
