(* ===== verification/Sha256.v ===== *)
(** * [crypto/sha256] and the digest strings of the harness

    [sum256] is SHA-256 (FIPS 180-4), the function [sha256.Sum256]; it is checked
    on published test vectors below.  Every package of the harness writes a digest
    as ["sha256:"] followed by 64 lower-case hexadecimal digits, which [digest]
    computes and [digestPattern] recognises. *)

From S2P Require Import Prelude GoStrings GoRegexp.

Local Open Scope string_scope.
Local Open Scope Z_scope.

(** ** SHA-256 on 32-bit words *)

Definition w32 (x : Z) : Z := Z.land x 4294967295.

(** The word twice, one copy above the other: its rotation by [n] is what a shift by [n] leaves
    in the lower half. *)
Definition twice (x : Z) : Z := 4294967297 * x.

(** Rotated by [i], by [i + j] and by [i + j + k], and combined *)
Definition rotations (i j k x : Z) : Z :=
  let a := Z.shiftr (twice x) i in
  let b := Z.shiftr a j in
  w32 (Z.lxor a (Z.lxor b (Z.shiftr b k))).

(** The constants of FIPS 180-4 come from its definition: the first 32 bits of the
    fractional parts of the cube roots of the first 64 primes, and of the square roots
    of the first eight. *)
Definition is_prime (n : Z) : bool :=
  forallb (fun d => negb (n mod d =? 0)) (map Z.of_nat (seq 2 (Z.to_nat (n - 2)))).

Definition first_primes : list Z := filter (fun n => is_prime n = true) (map Z.of_nat (seq 2 310)).

(** The integer cube root of [n], bit by bit from bit [k] *)
Fixpoint cube_root (k : nat) (root n : Z) : Z :=
  let root' := root + 2 ^ Z.of_nat k in
  let root'' := if root' * root' * root' <=? n then root' else root in
  match k with O => root'' | S k' => cube_root k' root'' n end.

Definition round_constants : list Z :=
  Eval vm_compute in map (fun p => w32 (cube_root 36 0 (p * 2 ^ 96))) first_primes.

(** Two rotations and a shift *)
Definition rotations_shift (i j n x : Z) : Z :=
  let a := Z.shiftr (twice x) i in Z.lxor (w32 (Z.lxor a (Z.shiftr a j))) (Z.shiftr x n).

Definition small_sigma0 : Z -> Z := rotations_shift 7 11 3.
Definition small_sigma1 : Z -> Z := rotations_shift 17 2 10.
Definition big_sigma0 : Z -> Z := rotations 2 11 9.
Definition big_sigma1 : Z -> Z := rotations 6 5 14.
Definition choose (e f g : Z) : Z := Z.lxor g (Z.land e (Z.lxor f g)).
Definition majority (a b c : Z) : Z := Z.lor (Z.land a b) (Z.land c (Z.lor a b)).

Record hash_state : Type := mkHash { ha : Z; hb : Z; hc : Z; hd : Z; he : Z; hf : Z; hg : Z; hh : Z }.

Definition square_root_bits (i : nat) : Z := w32 (Z.sqrt (nth i first_primes 0 * 2 ^ 64)).

Definition initial_hash : hash_state :=
  Eval vm_compute in
    mkHash (square_root_bits 0) (square_root_bits 1) (square_root_bits 2) (square_root_bits 3)
           (square_root_bits 4) (square_root_bits 5) (square_root_bits 6) (square_root_bits 7).

(** The message schedule is a window of sixteen words that slides one word a round. *)
Fixpoint sha_rounds (ks window : list Z) (h : hash_state) : hash_state :=
  match ks with
  | [] => h
  | k :: ks' =>
      let w := nth 0 window 0 in
      let next := w32 (small_sigma1 (nth 14 window 0) + nth 9 window 0
                       + small_sigma0 (nth 1 window 0) + w) in
      let t1 := w32 (hh h + big_sigma1 (he h) + choose (he h) (hf h) (hg h) + k + w) in
      let t2 := big_sigma0 (ha h) + majority (ha h) (hb h) (hc h) in
      sha_rounds ks' (tail window ++ [next])%list
        (mkHash (w32 (t1 + t2)) (ha h) (hb h) (hc h) (w32 (hd h + t1)) (he h) (hf h) (hg h))
  end.

Definition sha_block (h : hash_state) (window : list Z) : hash_state :=
  let r := sha_rounds round_constants window h in
  mkHash (w32 (ha h + ha r)) (w32 (hb h + hb r)) (w32 (hc h + hc r)) (w32 (hd h + hd r))
         (w32 (he h + he r)) (w32 (hf h + hf r)) (w32 (hg h + hg r)) (w32 (hh h + hh r)).

Fixpoint bytes_of (s : string) : list Z :=
  match s with EmptyString => [] | String c s' => byte_val c :: bytes_of s' end.

(** [n] in big-endian order, [k] bytes *)
Fixpoint be_bytes (k : nat) (n : Z) : list Z :=
  match k with
  | O => []
  | S k' => (be_bytes k' (Z.shiftr n 8) ++ [Z.land n 255])%list
  end.

Definition sha_padding (n : Z) : list Z :=
  (128 :: repeat 0 (Z.to_nat ((55 - n) mod 64)) ++ be_bytes 8 (8 * n))%list.

Fixpoint words_of (l : list Z) : list Z :=
  match l with
  | a :: b :: c :: d :: l' => (((a * 256 + b) * 256 + c) * 256 + d) :: words_of l'
  | _ => []
  end.

Fixpoint sha_blocks (fuel : nat) (words : list Z) (h : hash_state) : hash_state :=
  match fuel, words with
  | O, _ | _, [] => h
  | S fuel', _ => sha_blocks fuel' (drop 16 words) (sha_block h (take 16 words))
  end.

Fixpoint string_of_bytes (l : list Z) : string :=
  match l with [] => "" | b :: l' => String (byte_of b) (string_of_bytes l') end.

Definition hash_bytes (h : hash_state) : list Z :=
  (be_bytes 4 (ha h) ++ be_bytes 4 (hb h) ++ be_bytes 4 (hc h) ++ be_bytes 4 (hd h) ++
   be_bytes 4 (he h) ++ be_bytes 4 (hf h) ++ be_bytes 4 (hg h) ++ be_bytes 4 (hh h))%list.

(** [sha256.Sum256]; one unit of fuel per word of the padded message is enough,
    because every block consumes sixteen words. *)
Definition sum256 (s : string) : string :=
  let words := words_of (bytes_of s ++ sha_padding (len s)) in
  string_of_bytes (hash_bytes (sha_blocks (length words) words initial_hash)).

(** [hex.EncodeToString] of the sum, with the prefix of the harness *)
Definition digest (s : string) : string := "sha256:" ++ hex_encode (sum256 s).

(** [regexp.MustCompile(`^sha256:[0-9a-f]{64}$`)] *)
Definition digest_regex : regex := RCat (r_lit "sha256:") (r_times 64 hex_class).
Definition digestPattern (s : string) : bool := matches digest_regex s.

(** ** Published test vectors *)

Example sum256_abc :
  hex_encode (sum256 "abc") = "ba7816bf8f01cfea414140de5dae2223b00361a396177a9cb410ff61f20015ad".
Proof. vm_compute. reflexivity. Qed.

Example sum256_two_blocks :
  hex_encode (sum256 "abcdbcdecdefdefgefghfghighijhijkijkljklmklmnlmnomnopnopq")
  = "248d6a61d20638b8e5c026930c3e6039a33ce45964ff2167f6ecedd419db06c1".
Proof. vm_compute. reflexivity. Qed.

(** ** Shape of a digest *)

#[global] Opaque sum256.

Lemma length_be_bytes k n : length (be_bytes k n) = k.
Proof. revert n. induction k as [|k IH]; intros n; cbn; [done|]. rewrite length_app, IH. cbn. lia. Qed.

Lemma length_string_of_bytes l : String.length (string_of_bytes l) = length l.
Proof. induction l; cbn; congruence. Qed.

Lemma length_sum256 s : String.length (sum256 s) = 32%nat.
Proof.
  Local Transparent sum256. unfold sum256.
  rewrite length_string_of_bytes. unfold hash_bytes. by rewrite !length_app, !length_be_bytes.
Qed.

Lemma hex_digit_lower n : 0 <= n < 16 -> is_hex_lower (hex_digit n) = true.
Proof.
  intros Hn. unfold is_hex_lower, is_digit, byte_in, in_range, hex_digit.
  destruct (Z.ltb_spec n 10); rewrite byte_val_of by lia.
  - apply orb_true_iff. left. apply andb_true_iff. lia.
  - apply orb_true_iff. right. apply andb_true_iff. lia.
Qed.

Lemma hex_digit_inj m n : 0 <= m < 16 -> 0 <= n < 16 -> hex_digit m = hex_digit n -> m = n.
Proof.
  unfold hex_digit. intros Hm Hn Heq. apply (f_equal byte_val) in Heq.
  destruct (Z.ltb_spec m 10), (Z.ltb_spec n 10); rewrite !byte_val_of in Heq by lia; lia.
Qed.

Lemma nibbles c : 0 <= byte_val c / 16 < 16 /\ 0 <= byte_val c mod 16 < 16.
Proof.
  pose proof (byte_val_range c).
  split; [split; [apply Z.div_pos | apply Z.div_lt_upper_bound]; lia | apply Z.mod_pos_bound; lia].
Qed.

Lemma length_hex_encode s : String.length (hex_encode s) = (2 * String.length s)%nat.
Proof. induction s as [|c s IH]; cbn; [done|]. rewrite IH. lia. Qed.

Lemma hex_encode_lower s : str_forallb is_hex_lower (hex_encode s) = true.
Proof.
  induction s as [|c s IH]; cbn; [done|].
  destruct (nibbles c). by rewrite !hex_digit_lower, IH.
Qed.

Lemma hex_encode_inj s t : hex_encode s = hex_encode t -> s = t.
Proof.
  revert t. induction s as [|c s IH]; intros [|d t]; cbn; try discriminate; [done|].
  intros [= H1 H2 H3%IH]. subst t. f_equal.
  destruct (nibbles c), (nibbles d).
  apply hex_digit_inj in H1, H2; try lia. apply byte_val_inj.
  rewrite (Z.div_mod (byte_val c) 16), (Z.div_mod (byte_val d) 16) by lia. lia.
Qed.

Lemma lang_hex_times n s :
  String.length s = n -> str_forallb is_hex_lower s = true -> lang (r_times n hex_class) s.
Proof.
  revert s. induction n as [|n IH]; intros [|c s]; cbn; try discriminate; [constructor|].
  intros [= Hl] [Hc Hs]%andb_true_iff. destruct n as [|n].
  - destruct s; [|discriminate]. by constructor.
  - change (String c s) with (String c "" ++ s)%string. constructor; [by constructor|].
    by apply IH.
Qed.

(** A digest always has the shape the validators ask for, and two equal digests
    are two equal sums. *)
Lemma digest_pattern s : digestPattern (digest s) = true.
Proof.
  apply matches_lang. unfold digest_regex. constructor; [by apply matches_lang|].
  apply lang_hex_times; [|apply hex_encode_lower]. by rewrite length_hex_encode, length_sum256.
Qed.

Lemma digest_inj_sum s t : digest s = digest t -> sum256 s = sum256 t.
Proof. unfold digest. intros H%append_inj_l. by apply hex_encode_inj. Qed.

(** Two different messages with the same SHA-256 sum *)
Definition sha256_collision (x y : string) : Prop := x <> y /\ sum256 x = sum256 y.

Lemma digest_eq x y : digest x = digest y -> x = y \/ sha256_collision x y.
Proof.
  intros H%digest_inj_sum. destruct (decide (x = y)); [by left | by right].
Qed.

Lemma digestPattern_length s : digestPattern s = true -> String.length s = 71%nat.
Proof. by apply matches_length. Qed.

Lemma digestPattern_nonempty s : digestPattern s = true -> s <> "".
Proof. by intros H ->. Qed.

#[global] Opaque digest.
