(* ===== verification/GoJson.v ===== *)
(** * [encoding/json]

    The parts of [encoding/json] the harness relies on: [json.Marshal] of structs
    (a [json] value whose object fields are in declaration order), string quoting
    with and without HTML escaping, and the token stream of a [json.Decoder] with
    [UseNumber], as the state machine of [Decoder.Token] and [Decoder.More]. *)

From S2P Require Import Prelude GoStrings.

Local Open Scope string_scope.
Local Open Scope Z_scope.

(** A number keeps its literal text ([json.Number]).  An object is the list of its
    members; a Go [map[string]any] is such a list with distinct keys, read up to
    order. *)
Inductive json : Type :=
| JNull
| JBool (b : bool)
| JNum (text : string)
| JStr (s : string)
| JArr (l : list json)
| JObj (l : list (string * json)).

(** ** Quoting *)

Definition hex4 (r : Z) : string :=
  String (hex_digit (r / 4096 mod 16)) (String (hex_digit (r / 256 mod 16))
    (String (hex_digit (r / 16 mod 16)) (String (hex_digit (r mod 16)) ""))).

Definition u_escape (r : Z) : string := "\u" ++ hex4 r.

Definition is_html (r : Z) : bool := (r =? 60) || (r =? 62) || (r =? 38).

(** [appendString] on one ASCII byte *)
Definition quote_ascii (html : bool) (r : Z) : string :=
  if (r =? 34) || (r =? 92) then "\" ++ String (byte_of r) ""
  else if r =? 8 then "\b" else if r =? 12 then "\f" else if r =? 10 then "\n"
  else if r =? 13 then "\r" else if r =? 9 then "\t"
  else if (r <? 32) || (html && is_html r) then u_escape r
  else String (byte_of r) "".

Definition quote_chunk (html : bool) (c : option Z * string) : string :=
  match fst c with
  | None => u_escape 65533
  | Some r =>
      if r <? 128 then quote_ascii html r
      else if (r =? 8232) || (r =? 8233) then u_escape r else snd c
  end.

Definition quote_body (html : bool) (s : string) : string :=
  foldr (fun c acc => quote_chunk html c ++ acc) "" (utf8_chunks s).

Definition DQ : ascii := "034".
Definition quote (html : bool) (s : string) : string :=
  String DQ (quote_body html s ++ String DQ "").

(** ** Printing

    [marshal true v] is [json.Marshal]; [marshal false v] is an encoder after
    [SetEscapeHTML(false)]. *)

Fixpoint comma_items (l : list string) : string :=
  match l with
  | [] => ""
  | x :: l' => "," ++ x ++ comma_items l'
  end.

Definition join_comma (l : list string) : string :=
  match l with
  | [] => ""
  | x :: l' => x ++ comma_items l'
  end.

Fixpoint marshal (html : bool) (v : json) {struct v} : string :=
  match v with
  | JNull => "null"
  | JBool b => if b then "true" else "false"
  | JNum t => t
  | JStr s => quote html s
  | JArr l => "[" ++ join_comma (map (marshal html) l) ++ "]"
  | JObj l =>
      "{" ++ join_comma (map (fun kv => quote html (fst kv) ++ ":" ++ marshal html (snd kv)) l)
      ++ "}"
  end.

(** ** Scanning *)

Definition is_ws (c : ascii) : bool :=
  let b := byte_val c in (b =? 32) || (b =? 9) || (b =? 10) || (b =? 13).

Fixpoint skip_ws (s : string) : string :=
  match s with
  | String c s' => if is_ws c then skip_ws s' else s
  | EmptyString => s
  end.

Definition hex_val (c : ascii) : option Z :=
  let b := byte_val c in
  if in_range 48 57 b then Some (b - 48)
  else if in_range 97 102 b then Some (b - 87)
  else if in_range 65 70 b then Some (b - 55) else None.

Definition hex4_val (a b c d : ascii) : option Z :=
  w ← hex_val a; x ← hex_val b; y ← hex_val c; z ← hex_val d;
  Some (((w * 16 + x) * 16 + y) * 16 + z).

(** The byte a one-letter escape denotes *)
Definition simple_escape (c : ascii) : option ascii :=
  let b := byte_val c in
  if (b =? 34) || (b =? 92) || (b =? 47) then Some c
  else if b =? 98 then Some (byte_of 8) else if b =? 102 then Some (byte_of 12)
  else if b =? 110 then Some (byte_of 10) else if b =? 114 then Some (byte_of 13)
  else if b =? 116 then Some (byte_of 9) else None.

Definition is_surrogate (r : Z) : bool := in_range 55296 57343 r.

(** [utf16.DecodeRune] *)
Definition surrogate_pair (r1 r2 : Z) : option Z :=
  if in_range 55296 56319 r1 && in_range 56320 57343 r2
  then Some ((r1 - 55296) * 1024 + (r2 - 56320) + 65536) else None.

(** From just after the opening quote: the unescaped bytes and the input after the
    closing quote. *)
Fixpoint scan_string (s : string) : option (string * string) :=
  match s with
  | EmptyString => None
  | String c s0 =>
      let b := byte_val c in
      if b =? 34 then Some ("", s0)
      else if b <? 32 then None
      else if b =? 92 then
        match s0 with
        | EmptyString => None
        | String e s1 =>
            if byte_val e =? 117 then
              match s1 with
              | String h1 (String h2 (String h3 (String h4 s2))) =>
                  r ← hex4_val h1 h2 h3 h4;
                  let alone r := '(t, rest) ← scan_string s2; Some (encode_rune r ++ t, rest) in
                  if is_surrogate r then
                    match s2 with
                    | String b1 (String u1 (String g1 (String g2 (String g3 (String g4 s3))))) =>
                        match (if (byte_val b1 =? 92) && (byte_val u1 =? 117)
                               then r2 ← hex4_val g1 g2 g3 g4; surrogate_pair r r2 else None) with
                        | Some r' => '(t, rest) ← scan_string s3; Some (encode_rune r' ++ t, rest)
                        | None => alone 65533
                        end
                    | _ => alone 65533
                    end
                  else alone r
              | _ => None
              end
            else
              d ← simple_escape e;
              '(t, rest) ← scan_string s1; Some (String d t, rest)
        end
      else '(t, rest) ← scan_string s0; Some (String c t, rest)
  end.

(** Invalid UTF-8 in the literal becomes U+FFFD.  An escape always contributes a
    complete sequence that starts with a non-continuation byte, so replacing after
    unescaping and while unescaping give the same text. *)
Definition sanitize (s : string) : string :=
  foldr (fun c acc => (if chunk_ok c then snd c else encode_rune 65533) ++ acc) "" (utf8_chunks s).

Definition scan_str (s : string) : option (string * string) :=
  '(t, rest) ← scan_string s; Some (sanitize t, rest).

(** The longest prefix of digits, and the rest *)
Fixpoint span_digits (s : string) : string * string :=
  match s with
  | String c s' => if is_digit c then let '(p, q) := span_digits s' in (String c p, q) else ("", s)
  | EmptyString => ("", s)
  end.

Definition scan_digits1 (s : string) : option (string * string) :=
  match span_digits s with (EmptyString, _) => None | r => Some r end.

Definition scan_int (s : string) : option (string * string) :=
  match s with
  | String c s' => if byte_val c =? 48 then Some (String c "", s') else scan_digits1 s
  | EmptyString => None
  end.

Definition scan_frac (s : string) : option (string * string) :=
  match s with
  | String c s' =>
      if byte_val c =? 46 then '(d, rest) ← scan_digits1 s'; Some (String c d, rest)
      else Some ("", s)
  | EmptyString => Some ("", s)
  end.

Definition scan_sign (s : string) : string * string :=
  match s with
  | String c s' => if (byte_val c =? 43) || (byte_val c =? 45) then (String c "", s') else ("", s)
  | EmptyString => ("", s)
  end.

Definition scan_exp (s : string) : option (string * string) :=
  match s with
  | String c s' =>
      if (byte_val c =? 69) || (byte_val c =? 101)
      then let '(sg, s1) := scan_sign s' in
           '(d, rest) ← scan_digits1 s1; Some (String c (sg ++ d), rest)
      else Some ("", s)
  | EmptyString => Some ("", s)
  end.

Definition scan_number (s : string) : option (string * string) :=
  let '(sg, s1) :=
    match s with
    | String c s' => if byte_val c =? 45 then (String c "", s') else ("", s)
    | EmptyString => ("", s)
    end in
  '(i, s2) ← scan_int s1;
  '(f, s3) ← scan_frac s2;
  '(e, s4) ← scan_exp s3;
  Some (sg ++ i ++ f ++ e, s4).

Fixpoint skip_literal (lit s : string) : option string :=
  match lit, s with
  | EmptyString, _ => Some s
  | String c l', String d s' => if Ascii.eqb c d then skip_literal l' s' else None
  | _, EmptyString => None
  end.

(** A scalar value: what [Decoder.Decode] reads when the next byte opens none *)
Definition scan_scalar (s : string) : option (json * string) :=
  match s with
  | EmptyString => None
  | String c s' =>
      let b := byte_val c in
      if b =? 34 then '(t, rest) ← scan_str s'; Some (JStr t, rest)
      else if b =? 110 then rest ← skip_literal "null" s; Some (JNull, rest)
      else if b =? 116 then rest ← skip_literal "true" s; Some (JBool true, rest)
      else if b =? 102 then rest ← skip_literal "false" s; Some (JBool false, rest)
      else '(t, rest) ← scan_number s; Some (JNum t, rest)
  end.

(** ** The token stream *)

Inductive token_state : Type :=
| TopValue | ArrayStart | ArrayValue | ArrayComma
| ObjectStart | ObjectKey | ObjectColon | ObjectValue | ObjectComma.

#[export] Instance token_state_eq_dec : EqDecision token_state.
Proof. solve_decision. Defined.

Record decoder : Type := mkDecoder {
  dec_input : string;
  dec_state : token_state;
  dec_stack : list token_state }.

Definition new_decoder (s : string) : decoder := mkDecoder s TopValue [].

Inductive token : Type :=
| TokDelim (c : ascii)
| TokScalar (v : json).

(** [io.EOF] is told apart from the other errors of [Token]. *)
Inductive token_result : Type :=
| TokOk (t : token) (d : decoder)
| TokEOF
| TokErr.

Definition token_value_allowed (st : token_state) : bool :=
  match st with TopValue | ArrayStart | ArrayValue | ObjectValue => true | _ => false end.

Definition token_value_end (st : token_state) : token_state :=
  match st with
  | ArrayStart | ArrayValue => ArrayComma
  | ObjectValue => ObjectComma
  | _ => st
  end.

(** [Decoder.More] *)
Definition more (d : decoder) : bool :=
  match skip_ws (dec_input d) with
  | String c _ => negb (Ascii.eqb c "]" || Ascii.eqb c "}")
  | EmptyString => false
  end.

Definition close_delim (c : ascii) (s : string) (d : decoder) (start comma : token_state) : token_result :=
  if bool_decide (dec_state d = start \/ dec_state d = comma)
  then match dec_stack d with
       | st :: stk => TokOk (TokDelim c) (mkDecoder s (token_value_end st) stk)
       | [] => TokErr
       end
  else TokErr.

Definition open_delim (c : ascii) (s : string) (d : decoder) (start : token_state) : token_result :=
  if token_value_allowed (dec_state d)
  then TokOk (TokDelim c) (mkDecoder s start (dec_state d :: dec_stack d))
  else TokErr.

(** [Decoder.Token] when the next byte is neither [,] nor [:] *)
Definition token_plain (d : decoder) : token_result :=
  match skip_ws (dec_input d) with
  | EmptyString => TokEOF
  | String c s as input =>
      if Ascii.eqb c "[" then open_delim c s d ArrayStart
      else if Ascii.eqb c "]" then close_delim c s d ArrayStart ArrayComma
      else if Ascii.eqb c "{" then open_delim c s d ObjectStart
      else if Ascii.eqb c "}" then close_delim c s d ObjectStart ObjectComma
      else if Ascii.eqb c ":" || Ascii.eqb c "," then TokErr
      else if Ascii.eqb c DQ && bool_decide (dec_state d = ObjectStart \/ dec_state d = ObjectKey)
      then match scan_str s with
           | Some (k, s') => TokOk (TokScalar (JStr k)) (mkDecoder s' ObjectColon (dec_stack d))
           | None => TokErr
           end
      else if token_value_allowed (dec_state d)
      then match scan_scalar input with
           | Some (v, s') =>
               TokOk (TokScalar v) (mkDecoder s' (token_value_end (dec_state d)) (dec_stack d))
           | None => TokErr
           end
      else TokErr
  end.

(** [Decoder.Token]: a separator moves the state on and the loop reads again; the
    state it moves to admits no second separator, so two rounds are all there are. *)
Definition next_token (d : decoder) : token_result :=
  match skip_ws (dec_input d) with
  | String c s =>
      if Ascii.eqb c ":" && bool_decide (dec_state d = ObjectColon)
      then token_plain (mkDecoder s ObjectValue (dec_stack d))
      else if Ascii.eqb c "," && bool_decide (dec_state d = ArrayComma)
      then token_plain (mkDecoder s ArrayValue (dec_stack d))
      else if Ascii.eqb c "," && bool_decide (dec_state d = ObjectComma)
      then token_plain (mkDecoder s ObjectKey (dec_stack d))
      else token_plain d
  | EmptyString => token_plain d
  end.

(** ** Scanning what was quoted *)

Lemma hex_val_digit n : 0 <= n < 16 -> hex_val (hex_digit n) = Some n.
Proof.
  intros Hn. unfold hex_val, hex_digit, in_range.
  destruct (Z.ltb_spec n 10); rewrite byte_val_of by lia.
  - destruct (Z.leb_spec 48 (48 + n)), (Z.leb_spec (48 + n) 57); try lia. cbn. f_equal. lia.
  - destruct (Z.leb_spec 48 (87 + n)), (Z.leb_spec (87 + n) 57); try lia. cbn.
    destruct (Z.leb_spec 97 (87 + n)), (Z.leb_spec (87 + n) 102); try lia. cbn. f_equal. lia.
Qed.

Lemma hex4_val_digits r : 0 <= r < 65536 ->
  hex4_val (hex_digit (r / 4096 mod 16)) (hex_digit (r / 256 mod 16))
    (hex_digit (r / 16 mod 16)) (hex_digit (r mod 16)) = Some r.
Proof.
  intros Hr. unfold hex4_val.
  rewrite !hex_val_digit by (apply Z.mod_pos_bound; lia). cbn. f_equal.
  assert (Hd : forall a, a = 16 * (a / 16) + a mod 16) by (intros; apply Z.div_mod; lia).
  pose proof (Hd r) as H1. pose proof (Hd (r / 16)) as H2. pose proof (Hd (r / 256)) as H3.
  replace (r / 16 / 16) with (r / 256) in H2 by (rewrite Z.div_div; lia || done).
  replace (r / 256 / 16) with (r / 4096) in H3 by (rewrite Z.div_div; lia || done).
  rewrite (Z.mod_small (r / 4096)); [lia|].
  split; [apply Z.div_pos | apply Z.div_lt_upper_bound]; lia.
Qed.

Definition scan_cons (pre : string) (o : option (string * string)) : option (string * string) :=
  '(t, rest) ← o; Some (pre ++ t, rest).

Lemma scan_u_escape r t : 0 <= r < 65536 -> is_surrogate r = false ->
  scan_string (u_escape r ++ t) = scan_cons (encode_rune r) (scan_string t).
Proof.
  intros Hr Hs. unfold u_escape, hex4. cbn [String.append].
  cbn [scan_string]. rewrite (hex4_val_digits r Hr). cbn [mbind option_bind]. by rewrite Hs.
Qed.

Lemma scan_plain c t :
  byte_val c <> 34 -> byte_val c <> 92 -> 32 <= byte_val c ->
  scan_string (String c t) = scan_cons (String c "") (scan_string t).
Proof.
  intros H1 H2 H3. cbn [scan_string].
  destruct (Z.eqb_spec (byte_val c) 34), (Z.ltb_spec (byte_val c) 32),
    (Z.eqb_spec (byte_val c) 92); try lia. done.
Qed.

Lemma scan_cons_app p q o : scan_cons p (scan_cons q o) = scan_cons (p ++ q) o.
Proof. destruct o as [[]|]; cbn; [|done]. by rewrite append_assoc. Qed.

Lemma scan_high raw t :
  str_forallb (byte_in 128 255) raw = true ->
  scan_string (raw ++ t) = scan_cons raw (scan_string t).
Proof.
  induction raw as [|c raw IH]; cbn [str_forallb String.append]; intros H.
  - by destruct (scan_string t) as [[]|].
  - apply andb_true_iff in H as [Hc Hraw].
    unfold byte_in, in_range in Hc. bool_split.
    rewrite scan_plain, IH, scan_cons_app by (done || lia). done.
Qed.

Lemma scan_simple e d t :
  byte_val e <> 117 -> simple_escape e = Some d ->
  scan_string (String "\" (String e t)) = scan_cons (String d "") (scan_string t).
Proof.
  intros He Hd. cbn [scan_string]. cbn [byte_val]. destruct (Z.eqb_spec (byte_val e) 117); [done|].
  by rewrite Hd.
Qed.

Lemma byte_of_neq z n : 0 <= z < 256 -> z <> n -> byte_val (byte_of z) <> n.
Proof. intros. by rewrite byte_val_of. Qed.

Lemma scan_quote_ascii html r t : 0 <= r < 128 ->
  scan_string (quote_ascii html r ++ t) = scan_cons (String (byte_of r) "") (scan_string t).
Proof.
  intros Hr. unfold quote_ascii.
  destruct (Z.eqb_spec r 34) as [->|]; [by apply scan_simple|].
  destruct (Z.eqb_spec r 92) as [->|]; [by apply scan_simple|]. cbn [orb].
  destruct (Z.eqb_spec r 8) as [->|]; [by apply scan_simple|].
  destruct (Z.eqb_spec r 12) as [->|]; [by apply scan_simple|].
  destruct (Z.eqb_spec r 10) as [->|]; [by apply scan_simple|].
  destruct (Z.eqb_spec r 13) as [->|]; [by apply scan_simple|].
  destruct (Z.eqb_spec r 9) as [->|]; [by apply scan_simple|].
  destruct ((r <? 32) || (html && is_html r)) eqn:Hesc.
  - rewrite scan_u_escape; [|lia|].
    + unfold encode_rune. by destruct (Z.ltb_spec r 128); [|lia].
    + unfold is_surrogate, in_range. destruct (Z.leb_spec 55296 r); [lia|done].
  - apply orb_false_iff in Hesc as [?%Z.ltb_ge _].
    apply scan_plain; rewrite byte_val_of; lia.
Qed.

Lemma scan_quote_chunk html s ch rest t :
  next_chunk s = Some (ch, rest) -> chunk_ok ch = true ->
  scan_string (quote_chunk html ch ++ t) = scan_cons (snd ch) (scan_string t).
Proof.
  intros Hch Hok. destruct (next_chunk_spec _ _ _ Hch) as (_ & _ & Hspec).
  unfold chunk_ok in Hok. unfold quote_chunk.
  destruct (fst ch) as [r|] eqn:Hr; [|done].
  destruct (Hspec r eq_refl) as [_ [(Hlt & -> & ?)|(Hge & Hhigh & H2028)]].
  - destruct (Z.ltb_spec r 128); [|lia]. by apply scan_quote_ascii.
  - destruct (Z.ltb_spec r 128); [lia|].
    destruct (Z.eqb_spec r 8232); [|destruct (Z.eqb_spec r 8233)]; cbn [orb].
    + subst r. rewrite H2028 by lia. by apply scan_u_escape.
    + subst r. rewrite H2028 by lia. by apply scan_u_escape.
    + by apply scan_high.
Qed.

Lemma scan_quote_body html s t :
  valid_string s = true ->
  scan_string (quote_body html s ++ String DQ t) = Some (s, t).
Proof.
  unfold valid_string, quote_body.
  induction s as [|s ch rest Hch Heq IH] using chunk_ind; [done|].
  rewrite utf8_chunks_unfold, Hch. cbn [forallb foldr]. intros [Hok Hrest]%andb_true_iff.
  rewrite append_assoc, (scan_quote_chunk html s ch rest _ Hch Hok), (IH Hrest).
  cbn. by rewrite <- Heq.
Qed.

Lemma sanitize_valid_id s : valid_string s = true -> sanitize s = s.
Proof.
  unfold valid_string, sanitize.
  induction s as [|s ch rest Hch Heq IH] using chunk_ind; [done|].
  rewrite utf8_chunks_unfold, Hch. cbn [forallb foldr]. intros [Hok Hrest]%andb_true_iff.
  by rewrite Hok, (IH Hrest).
Qed.

Lemma sanitize_valid s : valid_string (sanitize s) = true.
Proof.
  unfold valid_string, sanitize.
  induction s as [|s ch rest Hch Heq IH] using chunk_ind; [done|].
  rewrite (utf8_chunks_unfold s), Hch. cbn [foldr].
  destruct (chunk_ok ch) eqn:Hok.
  - destruct (next_chunk_spec _ _ _ Hch) as (_ & _ & Hspec).
    unfold chunk_ok in Hok. destruct ch as [[r|] raw]; cbn [fst snd] in *; [|done].
    destruct (Hspec r eq_refl) as [Hnext _].
    by rewrite (utf8_chunks_valid_cons r raw _ Hnext).
  - rewrite (utf8_chunks_valid_cons 65533); [done|]. done.
Qed.

(** Quoting then scanning is the identity on valid UTF-8. *)
Lemma scan_str_quote html s t :
  valid_string s = true -> scan_str (quote_body html s ++ String DQ t) = Some (s, t).
Proof. intros H. unfold scan_str. rewrite scan_quote_body by done. cbn. by rewrite sanitize_valid_id. Qed.

(** ** Scanning an integer *)

(** What may follow a value: the end, a comma or a closing bracket *)
Definition stops (s : string) : bool :=
  match s with
  | EmptyString => true
  | String c _ => Ascii.eqb c "," || Ascii.eqb c "]" || Ascii.eqb c "}"
  end.

Lemma stops_cases s : stops s = true ->
  s = "" \/ exists c s', s = String c s' /\ (c = "," \/ c = "]" \/ c = "}")%char.
Proof.
  destruct s as [|c s']; [by left|]. cbn. intros H. right. exists c, s'. split; [done|].
  destruct (Ascii.eqb_spec c ","), (Ascii.eqb_spec c "]"), (Ascii.eqb_spec c "}"); naive_solver.
Qed.

Lemma span_digits_app p rest :
  str_forallb is_digit p = true -> stops rest = true -> span_digits (p ++ rest) = (p, rest).
Proof.
  intros Hp Hrest. induction p as [|c p IH]; cbn in *.
  - destruct (stops_cases rest Hrest) as [->|(c & s' & -> & [->|[->| ->]])]; done.
  - apply andb_true_iff in Hp as [Hc Hp]. by rewrite Hc, IH.
Qed.

Lemma scan_frac_stops rest : stops rest = true -> scan_frac rest = Some ("", rest).
Proof. intros H. by destruct (stops_cases rest H) as [->|(c & s' & -> & [->|[->| ->]])]. Qed.

Lemma scan_exp_stops rest : stops rest = true -> scan_exp rest = Some ("", rest).
Proof. intros H. by destruct (stops_cases rest H) as [->|(c & s' & -> & [->|[->| ->]])]. Qed.

(** ** Scanning makes progress *)

Local Notation slen := String.length.

Lemma scan_string_shrinks s t rest : scan_string s = Some (t, rest) -> (slen rest < slen s)%nat.
Proof.
  remember (slen s) as n eqn:Hn. revert s t rest Hn.
  induction (lt_wf n) as [n _ IH]. intros s t rest -> H.
  assert (IH' : forall s' t' r', scan_string s' = Some (t', r') -> (slen s' < slen s)%nat ->
    (slen r' < slen s')%nat) by (intros; by eapply IH).
  clear IH. destruct s as [|c s0]; [done|]. cbn [scan_string] in H.
  repeat first
    [ discriminate H
    | match type of H with
      | Some _ = Some _ => injection H as <- <-
      | (_ ≫= _) = Some _ => apply bind_Some in H as ([? ?] & ? & H)
      | (_ ≫= _) = Some _ => apply bind_Some in H as (? & ? & H)
      | (if ?b then _ else _) = Some _ => destruct b
      | (match ?x with _ => _ end) = Some _ => destruct x eqn:?
      | context [match ?x with _ => _ end] => destruct x eqn:?
      end ];
  repeat match goal with
  | H : scan_string ?s' = Some (_, _) |- _ => apply IH' in H; [|cbn; lia]
  end; cbn in *; lia.
Qed.

Lemma scan_str_shrinks s t rest : scan_str s = Some (t, rest) -> (slen rest < slen s)%nat.
Proof.
  unfold scan_str. intros ([u r] & Hs & [= <- <-])%bind_Some. by eapply scan_string_shrinks.
Qed.

Lemma span_digits_len s p q : span_digits s = (p, q) -> slen s = (slen p + slen q)%nat.
Proof.
  revert p q. induction s as [|c s IH]; cbn; intros p q; [by intros [= <- <-]|].
  destruct (is_digit c).
  - destruct (span_digits s) as [p' q'] eqn:E. intros [= <- <-]. cbn. by rewrite (IH _ _ eq_refl).
  - by intros [= <- <-].
Qed.

Lemma scan_digits1_shrinks s p q : scan_digits1 s = Some (p, q) -> (slen q < slen s)%nat.
Proof.
  unfold scan_digits1. destruct (span_digits s) as [[|c p'] q'] eqn:E; [done|].
  intros [= <- <-]. apply span_digits_len in E. cbn in E. lia.
Qed.

Lemma scan_int_shrinks s p q : scan_int s = Some (p, q) -> (slen q < slen s)%nat.
Proof.
  unfold scan_int. destruct s as [|c s]; [done|]. destruct (byte_val c =? 48).
  - intros [= <- <-]. cbn. lia.
  - apply scan_digits1_shrinks.
Qed.

Lemma scan_frac_len s p q : scan_frac s = Some (p, q) -> (slen q <= slen s)%nat.
Proof.
  unfold scan_frac. destruct s as [|c s]; [by intros [= <- <-]|]. destruct (byte_val c =? 46).
  - intros ([d r] & Hd%scan_digits1_shrinks & [= <- <-])%bind_Some. cbn. lia.
  - intros [= <- <-]. lia.
Qed.

Lemma scan_exp_len s p q : scan_exp s = Some (p, q) -> (slen q <= slen s)%nat.
Proof.
  unfold scan_exp. destruct s as [|c s]; [by intros [= <- <-]|]. destruct (_ || _).
  - destruct (scan_sign s) as [sg s1] eqn:Es.
    intros ([d r] & Hd%scan_digits1_shrinks & [= <- <-])%bind_Some.
    assert (slen s1 <= slen s)%nat; [|cbn; lia].
    unfold scan_sign in Es. destruct s as [|c' s']; [by injection Es as <- <-|].
    destruct (_ || _); injection Es as <- <-; cbn; lia.
  - intros [= <- <-]. lia.
Qed.

Lemma scan_number_shrinks s p q : scan_number s = Some (p, q) -> (slen q < slen s)%nat.
Proof.
  unfold scan_number.
  set (pre := match s with String c s' => _ | _ => _ end).
  assert (slen (snd pre) <= slen s)%nat as Hpre.
  { unfold pre. destruct s as [|c s']; [done|]. destruct (byte_val c =? 45); cbn; lia. }
  destruct pre as [sg s1]. cbn in Hpre.
  intros ([i s2] & Hi%scan_int_shrinks & H)%bind_Some.
  apply bind_Some in H as ([f s3] & Hf%scan_frac_len & H).
  apply bind_Some in H as ([e s4] & He%scan_exp_len & [= <- <-]). lia.
Qed.

Lemma skip_literal_len l s rest : skip_literal l s = Some rest -> slen s = (slen l + slen rest)%nat.
Proof.
  revert s. induction l as [|c l IH]; intros s; cbn; [by intros [= ->]|].
  destruct s as [|d s]; [done|]. destruct (Ascii.eqb c d); [|done]. intros H. cbn. by rewrite (IH s).
Qed.

Lemma scan_scalar_shrinks s v rest : scan_scalar s = Some (v, rest) -> (slen rest < slen s)%nat.
Proof.
  unfold scan_scalar. destruct s as [|c s]; [done|].
  destruct (byte_val c =? 34).
  { intros ([t r] & H%scan_str_shrinks & [= <- <-])%bind_Some. cbn. lia. }
  repeat match goal with |- (if ?b then _ else _) = _ -> _ => destruct b end;
    intros H; apply bind_Some in H as (x & Hx & H).
  1-3: injection H as <- <-; apply skip_literal_len in Hx; cbn in Hx |- *; lia.
  destruct x as [t r]. injection H as <- <-. by eapply scan_number_shrinks.
Qed.

Lemma skip_ws_len s : (slen (skip_ws s) <= slen s)%nat.
Proof. induction s as [|c s IH]; cbn; [done|]. destruct (is_ws c); cbn; lia. Qed.

Lemma token_plain_shrinks d t d' :
  token_plain d = TokOk t d' -> (slen (dec_input d') < slen (dec_input d))%nat.
Proof.
  destruct d as [s st stk]. unfold token_plain, open_delim, close_delim.
  cbn [dec_input dec_state dec_stack]. pose proof (skip_ws_len s) as Hws.
  destruct (skip_ws s) as [|c s']; [done|]. cbn [slen] in Hws.
  destruct (Ascii.eqb c "["); [destruct (token_value_allowed st); [|done]; intros [= <- <-]; cbn; lia|].
  destruct (Ascii.eqb c "]");
    [case_bool_decide; [|done]; destruct stk; [done|]; intros [= <- <-]; cbn; lia|].
  destruct (Ascii.eqb c "{"); [destruct (token_value_allowed st); [|done]; intros [= <- <-]; cbn; lia|].
  destruct (Ascii.eqb c "}");
    [case_bool_decide; [|done]; destruct stk; [done|]; intros [= <- <-]; cbn; lia|].
  destruct (_ || _); [done|]. destruct (_ && _).
  - destruct (scan_str s') as [[k r]|] eqn:E; [|done]. intros [= <- <-].
    apply scan_str_shrinks in E. cbn. lia.
  - destruct (token_value_allowed st); [|done].
    destruct (scan_scalar (String c s')) as [[w r]|] eqn:E; [|done]. intros [= <- <-].
    apply scan_scalar_shrinks in E. cbn in E |- *. lia.
Qed.

Lemma next_token_shrinks d t d' :
  next_token d = TokOk t d' -> (slen (dec_input d') < slen (dec_input d))%nat.
Proof.
  unfold next_token. pose proof (skip_ws_len (dec_input d)) as Hws.
  destruct (skip_ws (dec_input d)) as [|c s]; [apply token_plain_shrinks|]. cbn [slen] in Hws.
  repeat match goal with |- context [if ?b then _ else _] => destruct b end;
    intros H%token_plain_shrinks; cbn in H; lia.
Qed.
