(* ===== verification/DomainContract.v ===== *)
(** * internal/helper/domaincontract: canonical JSON

    [DecodeUnique] reads one bounded JSON value and rejects duplicate object keys;
    [Canonicalize] prints it back as COH-CJ-1 bytes: sorted keys, no white space,
    integers only.  Every digest of the harness is taken over such bytes, so the
    theorems here are what the digest arguments of the other components rest on:
    decoding what was printed gives the value back, and on a marshalled struct
    [Canonicalize] succeeds and prints the value with its keys sorted. *)

From Stdlib Require Import Btauto.
From S2P Require Import Prelude GoStrings GoJson.

Local Open Scope string_scope.
Local Open Scope Z_scope.

Definition MaxInputBytes : Z := 2 ^ 20.

(** Every error of this file wraps [ErrDenied]; the text after it is dropped. *)
Inductive contract_error : Type := ErrDenied.

(** ** decode.go *)

Definition has_key (k : string) (l : list (string * json)) : bool :=
  existsb (fun kv => String.eqb k (fst kv)) l.

(** [decodeValue], with its two loops.  [object] and [array] are the members read so
    far.  Every call reads at least one byte or one token of the input; see
    [decode_fuel_mono] for why the fuel [DecodeUnique] passes is enough. *)
Fixpoint decodeValue (fuel : nat) (depth : Z) (d : decoder) : result contract_error (json * decoder) :=
  match fuel with
  | O => Err ErrDenied
  | S fuel =>
      if 64 <? depth then Err ErrDenied else
      match next_token d with
      | TokErr | TokEOF => Err ErrDenied
      | TokOk (TokScalar v) d => Ok (v, d)
      | TokOk (TokDelim c) d =>
          if Ascii.eqb c "{" then decodeObject fuel depth [] d
          else if Ascii.eqb c "[" then decodeArray fuel depth [] d
          else Err ErrDenied
      end
  end
with decodeObject (fuel : nat) (depth : Z) (object : list (string * json)) (d : decoder)
  : result contract_error (json * decoder) :=
  match fuel with
  | O => Err ErrDenied
  | S fuel =>
      if more d then
        match next_token d with
        | TokOk (TokScalar (JStr key)) d =>
            if has_key key object then Err ErrDenied else
            '(value, d) ← decodeValue fuel (depth + 1) d;
            decodeObject fuel depth (object ++ [(key, value)])%list d
        | _ => Err ErrDenied
        end
      else
        match next_token d with
        | TokOk (TokDelim c) d => if Ascii.eqb c "}" then Ok (JObj object, d) else Err ErrDenied
        | _ => Err ErrDenied
        end
  end
with decodeArray (fuel : nat) (depth : Z) (array : list json) (d : decoder)
  : result contract_error (json * decoder) :=
  match fuel with
  | O => Err ErrDenied
  | S fuel =>
      if more d then
        '(value, d) ← decodeValue fuel (depth + 1) d;
        decodeArray fuel depth (array ++ [value])%list d
      else
        match next_token d with
        | TokOk (TokDelim c) d => if Ascii.eqb c "]" then Ok (JArr array, d) else Err ErrDenied
        | _ => Err ErrDenied
        end
  end.

Definition decode_fuel (input : string) : nat := 2 * String.length input + 2.

(** One value and the end of the input *)
Definition read_value (input : string) : result contract_error json :=
  '(value, d) ← decodeValue (decode_fuel input) 0 (new_decoder input);
  match next_token d with
  | TokEOF => Ok value
  | _ => Err ErrDenied
  end.

Definition DecodeUnique (input : string) : result contract_error json :=
  deny_if ((len input =? 0) || (MaxInputBytes <? len input)) ErrDenied ;;
  read_value input.

(** ** canonical.go *)

Definition canonicalInteger (value : string) : bool :=
  if String.eqb value "0" then true else
  let value := match value with
               | String c s => if Ascii.eqb c "-" then s else value
               | EmptyString => value
               end in
  match value with
  | EmptyString => false
  | String c _ => negb (Ascii.eqb c "0") && str_forallb is_digit value
  end.

(** [sort.Strings] on the keys, carrying what each key maps to; the keys of a map are
    distinct, so insertion sort and the library's sort agree. *)
Fixpoint insert_key {A} (kv : string * A) (l : list (string * A)) : list (string * A) :=
  match l with
  | [] => [kv]
  | kv' :: l' => if String.leb (fst kv) (fst kv') then kv :: l else kv' :: insert_key kv l'
  end.
Definition sort_keys {A} (l : list (string * A)) : list (string * A) := foldr insert_key [] l.
#[global] Arguments sort_keys {A} l : simpl never.

Fixpoint writeCanonical (v : json) {struct v} : result contract_error string :=
  match v with
  | JNull => Ok "null"
  | JBool b => Ok (if b then "true" else "false")
  | JStr s => Ok (quote false s)
  | JNum text => deny_if (negb (canonicalInteger text)) ErrDenied ;; Ok text
  | JArr l =>
      items ← (fix go (l : list json) : result contract_error (list string) :=
        match l with
        | [] => Ok []
        | x :: l' => x ← writeCanonical x; xs ← go l'; Ok (x :: xs)
        end) l;
      Ok ("[" ++ join_comma items ++ "]")
  | JObj l =>
      members ← (fix go (l : list (string * json)) : result contract_error (list (string * string)) :=
        match l with
        | [] => Ok []
        | (k, x) :: l' => x ← writeCanonical x; xs ← go l'; Ok ((k, x) :: xs)
        end) l;
      Ok ("{" ++ join_comma (map (fun kv => quote false (fst kv) ++ ":" ++ snd kv) (sort_keys members))
          ++ "}")
  end.

Definition Canonicalize (input : string) : result contract_error string :=
  value ← DecodeUnique input; writeCanonical value.

(** ** Well-formed values: what [json.Marshal] of a struct of the harness produces *)

Fixpoint json_wf (n : nat) (v : json) {struct v} : bool :=
  match v with
  | JNull | JBool _ => true
  | JNum t => canonicalInteger t
  | JStr s => valid_string s
  | JArr l =>
      match n with
      | O => match l with [] => true | _ => false end
      | S n' => forallb (json_wf n') l
      end
  | JObj l =>
      match n with
      | O => match l with [] => true | _ => false end
      | S n' =>
          forallb (fun kv => valid_string (fst kv) && json_wf n' (snd kv)) l &&
          bool_decide (NoDup (map fst l))
      end
  end.

(** The same value with the keys of every object sorted. *)
Fixpoint sort_json (v : json) {struct v} : json :=
  match v with
  | JArr l => JArr (map sort_json l)
  | JObj l => JObj (sort_keys (map (fun kv => (fst kv, sort_json (snd kv))) l))
  | _ => v
  end.

(** JSON text in the examples, with an apostrophe for every double quote *)
Fixpoint dq (s : string) : string :=
  match s with
  | EmptyString => ""
  | String c s' => String (if Ascii.eqb c "'" then DQ else c) (dq s')
  end.

Example canonicalize_example :
  Canonicalize (dq " { 'b' : [1, -20 , true] , 'a<' : 'x\u0041\n' } ")
  = Ok (dq "{'a<':'xA\n','b':[1,-20,true]}").
Proof. vm_compute. reflexivity. Qed.

Example canonicalize_duplicate : Canonicalize (dq "{'a':1,'\u0061':2}") = Err ErrDenied.
Proof. vm_compute. reflexivity. Qed.

(** ** Decoding what was printed *)

Section json_ind.
Variable P : json -> Prop.
Hypothesis Hnull : P JNull.
Hypothesis Hbool : forall b, P (JBool b).
Hypothesis Hnum : forall t, P (JNum t).
Hypothesis Hstr : forall s, P (JStr s).
Hypothesis Harr : forall l, Forall P l -> P (JArr l).
Hypothesis Hobj : forall l, Forall (fun kv => P (snd kv)) l -> P (JObj l).

Fixpoint json_nested_ind (v : json) : P v :=
  match v with
  | JNull => Hnull
  | JBool b => Hbool b
  | JNum t => Hnum t
  | JStr s => Hstr s
  | JArr l => Harr l ((fix go (l : list json) : Forall P l :=
      match l with [] => Forall_nil_2 _ | x :: l' => Forall_cons_2 _ _ _ (json_nested_ind x) (go l') end) l)
  | JObj l => Hobj l ((fix go (l : list (string * json)) : Forall (fun kv => P (snd kv)) l :=
      match l with
      | [] => Forall_nil_2 _
      | kv :: l' => Forall_cons_2 _ _ _ (json_nested_ind (snd kv)) (go l')
      end) l)
  end.
End json_ind.

Lemma canonicalInteger_shape t : canonicalInteger t = true ->
  (exists c p, t = String c p /\ str_forallb is_digit t = true /\
     (byte_val c = 48 -> p = "")) \/
  (exists c p, t = String "-" (String c p) /\ str_forallb is_digit (String c p) = true /\
     byte_val c <> 48).
Proof.
  unfold canonicalInteger. destruct (String.eqb_spec t "0") as [->|Hne]; [by left; exists "0"%char, ""|].
  destruct t as [|c t]; [done|]. destruct (Ascii.eqb_spec c "-") as [->|Hc].
  - destruct t as [|c' t]; [done|]. intros [H0 Hd]%andb_true_iff. right. exists c', t.
    split_and!; [done..|]. intros Hv. apply negb_true_iff, Ascii.eqb_neq in H0. apply H0.
    by apply byte_val_inj.
  - intros [H0 Hd]%andb_true_iff. left. exists c, t. split_and!; [done..|].
    intros Hv. apply negb_true_iff, Ascii.eqb_neq in H0. destruct H0. by apply byte_val_inj.
Qed.

Lemma scan_int_digits c p rest :
  str_forallb is_digit (String c p) = true -> (byte_val c = 48 -> p = "") -> stops rest = true ->
  scan_int (String c p ++ rest) = Some (String c p, rest).
Proof.
  intros Hd H0 Hrest. cbn [String.append scan_int].
  destruct (Z.eqb_spec (byte_val c) 48) as [E|E].
  - by rewrite (H0 E).
  - unfold scan_digits1. change (String c (p ++ rest)) with (String c p ++ rest).
    by rewrite span_digits_app.
Qed.

Lemma digit_not_minus c p : str_forallb is_digit (String c p) = true -> (byte_val c =? 45) = false.
Proof.
  cbn. intros [Hc _]%andb_true_iff. unfold is_digit, byte_in, in_range in Hc. bool_split. lia.
Qed.

Lemma scan_number_canonical t rest :
  canonicalInteger t = true -> stops rest = true -> scan_number (t ++ rest) = Some (t, rest).
Proof.
  intros Ht Hrest. unfold scan_number.
  destruct (canonicalInteger_shape t Ht) as [(c & p & -> & Hd & H0)|(c & p & -> & Hd & H0)].
  - cbn [String.append]. rewrite (digit_not_minus c p Hd).
    change (String c (p ++ rest)) with (String c p ++ rest).
    rewrite scan_int_digits by done. cbn [mbind option_bind].
    rewrite scan_frac_stops by done. cbn [mbind option_bind].
    rewrite scan_exp_stops by done. cbn. by rewrite append_nil_r.
  - cbn [String.append]. change (byte_val "-" =? 45) with true. cbn iota.
    change (String c (p ++ rest)) with (String c p ++ rest).
    rewrite scan_int_digits by done. cbn [mbind option_bind].
    rewrite scan_frac_stops by done. cbn [mbind option_bind].
    rewrite scan_exp_stops by done. cbn. by rewrite append_nil_r.
Qed.

(** The first byte of a printed value: never white space, a closing bracket or a separator *)
Definition opens (c : ascii) : bool :=
  negb (is_ws c || Ascii.eqb c "]" || Ascii.eqb c "}" || Ascii.eqb c "," || Ascii.eqb c ":").

Lemma digit_opens c : is_digit c = true -> opens c = true.
Proof.
  unfold is_digit, byte_in, in_range, opens, is_ws. intros H.
  destruct (Ascii.eqb_spec c "]") as [->|_]; [done|].
  destruct (Ascii.eqb_spec c "}") as [->|_]; [done|].
  destruct (Ascii.eqb_spec c ",") as [->|_]; [done|].
  destruct (Ascii.eqb_spec c ":") as [->|_]; [done|]. rewrite !orb_false_r, !negb_orb.
  bool_split. rewrite !andb_true_iff, !negb_true_iff. lia.
Qed.

Lemma marshal_head html n v : json_wf n v = true ->
  exists c s, marshal html v = String c s /\ opens c = true.
Proof.
  destruct v as [|[]|t|s|l|l]; cbn; intros Hwf; try by eexists _, _.
  destruct (canonicalInteger_shape t Hwf) as [(c & p & -> & Hd & _)|(c & p & -> & _ & _)];
    [|by eexists _, _].
  eexists _, _. split; [done|]. cbn in Hd. apply andb_true_iff in Hd as [Hd _]. by apply digit_opens.
Qed.

Lemma opens_spec c : opens c = true ->
  is_ws c = false /\ Ascii.eqb c "]" = false /\ Ascii.eqb c "}" = false /\
  Ascii.eqb c "," = false /\ Ascii.eqb c ":" = false.
Proof. unfold opens. intros H. bool_split. done. Qed.

Lemma next_token_open c s st stk : opens c = true ->
  next_token (mkDecoder (String c s) st stk) = token_plain (mkDecoder (String c s) st stk).
Proof.
  intros (Hws & _ & _ & Hc & Hcol)%opens_spec. unfold next_token. cbn [dec_input skip_ws].
  by rewrite Hws, Hc, Hcol.
Qed.

Lemma next_token_comma st st' s stk :
  (st = ArrayComma /\ st' = ArrayValue) \/ (st = ObjectComma /\ st' = ObjectKey) ->
  next_token (mkDecoder (String "," s) st stk) = token_plain (mkDecoder s st' stk).
Proof. by intros [[-> ->]|[-> ->]]. Qed.

Lemma more_open c s st stk : opens c = true -> more (mkDecoder (String c s) st stk) = true.
Proof.
  intros (Hws & H1 & H2 & _)%opens_spec. unfold more. cbn [dec_input skip_ws].
  by rewrite Hws, H1, H2.
Qed.

Lemma scan_scalar_number t rest :
  canonicalInteger t = true -> stops rest = true -> scan_scalar (t ++ rest) = Some (JNum t, rest).
Proof.
  intros Ht Hrest.
  assert (exists c s, t ++ rest = String c s /\ (byte_val c = 45 \/ 48 <= byte_val c <= 57))
    as (c & s & Hcs & Hb).
  { destruct (canonicalInteger_shape t Ht) as [(c & p & -> & Hd & _)|(c & p & -> & _ & _)];
      eexists _, _; (split; [done|]); [right | by left].
    cbn in Hd. apply andb_true_iff in Hd as [Hd _].
    unfold is_digit, byte_in, in_range in Hd. bool_split. lia. }
  pose proof (scan_number_canonical t rest Ht Hrest) as Hn. rewrite Hcs in *.
  unfold scan_scalar.
  destruct (Z.eqb_spec (byte_val c) 34), (Z.eqb_spec (byte_val c) 110),
    (Z.eqb_spec (byte_val c) 116), (Z.eqb_spec (byte_val c) 102); try lia.
  by rewrite Hn.
Qed.

Definition scalar (v : json) : bool :=
  match v with JArr _ | JObj _ => false | _ => true end.

Lemma scan_scalar_marshal html n v rest :
  scalar v = true -> json_wf n v = true -> stops rest = true ->
  scan_scalar (marshal html v ++ rest) = Some (v, rest).
Proof.
  destruct v as [|[]|t|s|l|l]; cbn [scalar json_wf marshal]; intros Hs Hwf Hrest; try done.
  - by apply scan_scalar_number.
  - unfold quote. cbn [String.append scan_scalar]. change (byte_val DQ =? 34) with true. cbn iota.
    rewrite append_assoc. cbn [String.append]. by rewrite scan_str_quote.
Qed.

Lemma token_plain_scalar html n v st stk rest :
  scalar v = true -> json_wf n v = true -> stops rest = true -> token_value_allowed st = true ->
  token_plain (mkDecoder (marshal html v ++ rest) st stk)
  = TokOk (TokScalar v) (mkDecoder rest (token_value_end st) stk).
Proof.
  intros Hs Hwf Hrest Hst.
  destruct (marshal_head html n v Hwf) as (c & s & Hm & Hopen).
  pose proof (scan_scalar_marshal html n v rest Hs Hwf Hrest) as Hscan.
  rewrite Hm in *. cbn [String.append] in *. unfold token_plain. cbn [dec_input skip_ws].
  destruct (opens_spec c Hopen) as (Hws & H1 & H2 & H3 & H4). rewrite Hws, H1, H2, H3, H4.
  cbn [orb dec_state dec_stack].
  assert (Ascii.eqb c "[" = false /\ Ascii.eqb c "{" = false) as [-> ->].
  { destruct v as [|[]|t|q|l|l]; cbn in Hm, Hs; try done; try by injection Hm as <- <-.
    destruct (canonicalInteger_shape t Hwf) as [(d & p & -> & Hd & _)|(d & p & -> & _ & _)];
      injection Hm as <- <-; [|done].
    cbn in Hd. apply andb_true_iff in Hd as [Hd _].
    destruct (Ascii.eqb_spec d "[") as [->|_]; [done|].
    by destruct (Ascii.eqb_spec d "{") as [->|_]. }
  rewrite bool_decide_false by (intros [->| ->]; done).
  rewrite andb_false_r, Hst, Hscan. done.
Qed.

(** A key, in the two states that admit one *)
Lemma token_plain_key html k st stk rest :
  valid_string k = true -> st = ObjectStart \/ st = ObjectKey ->
  token_plain (mkDecoder (quote html k ++ rest) st stk)
  = TokOk (TokScalar (JStr k)) (mkDecoder rest ObjectColon stk).
Proof.
  intros Hk Hst. unfold quote, token_plain. cbn [String.append dec_input skip_ws dec_state dec_stack].
  change (is_ws DQ) with false. cbn iota.
  change (Ascii.eqb DQ "[") with false. change (Ascii.eqb DQ "]") with false.
  change (Ascii.eqb DQ "{") with false. change (Ascii.eqb DQ "}") with false.
  change (Ascii.eqb DQ ":") with false. change (Ascii.eqb DQ ",") with false.
  change (Ascii.eqb DQ DQ) with true. cbn [orb andb].
  rewrite bool_decide_true by done. rewrite append_assoc. cbn [String.append].
  by rewrite scan_str_quote.
Qed.

Lemma has_key_false k l : ~ In k (map fst l) -> has_key k l = false.
Proof.
  intros Hn. unfold has_key. apply not_true_iff_false. intros (kv & Hin & Heq)%existsb_exists.
  apply String.eqb_eq in Heq. subst. by apply Hn, in_map.
Qed.

Section decode_marshal.
Context (html : bool).

Local Notation member kv := (quote html (fst kv) ++ ":" ++ marshal html (snd kv))%string.

(** What [decodeValue] does on a printed value in any state that leads to it. *)
Definition decodes (v : json) : Prop :=
  forall n depth d st stk rest fuel,
    json_wf n v = true -> depth + Z.of_nat n <= 64 ->
    next_token d = token_plain (mkDecoder (marshal html v ++ rest) st stk) ->
    token_value_allowed st = true -> stops rest = true ->
    (2 * String.length (marshal html v) <= fuel)%nat ->
    decodeValue fuel depth d = Ok (v, mkDecoder rest (token_value_end st) stk).

Lemma marshal_length_pos n v : json_wf n v = true -> (0 < String.length (marshal html v))%nat.
Proof. intros H. destruct (marshal_head html n v H) as (c & s & -> & _). cbn. lia. Qed.

Lemma stops_comma_items l rest : stops rest = true -> stops (comma_items l ++ rest) = true.
Proof. by destruct l. Qed.

Lemma decode_scalar v : scalar v = true -> decodes v.
Proof.
  intros Hs n depth d st stk rest fuel Hwf Hdepth Htok Hst Hrest Hfuel.
  pose proof (marshal_length_pos n v Hwf). destruct fuel as [|fuel]; [lia|].
  cbn [decodeValue]. destruct (Z.ltb_spec 64 depth); [lia|].
  by rewrite Htok, (token_plain_scalar html n) by done.
Qed.

(** *** Arrays *)

Lemma decode_array_tail depth l n st stk rest : forall acc fuel,
  Forall decodes l -> forallb (json_wf n) l = true -> depth + 1 + Z.of_nat n <= 64 ->
  (2 * String.length (comma_items (map (marshal html) l)) + 1 <= fuel)%nat ->
  decodeArray fuel depth acc
    (mkDecoder (comma_items (map (marshal html) l) ++ "]" ++ rest) ArrayComma (st :: stk))
  = Ok (JArr (acc ++ l), mkDecoder rest (token_value_end st) stk).
Proof.
  induction l as [|v l IH]; intros acc fuel Hl Hwf Hdepth Hfuel.
  - destruct fuel as [|fuel]; [lia|]. cbn. by rewrite app_nil_r.
  - apply Forall_cons in Hl as [Hv Hl]. cbn [forallb] in Hwf. apply andb_true_iff in Hwf as [Hwfv Hwf].
    cbn [map comma_items String.append] in *. cbn [String.length] in Hfuel. rewrite length_append in Hfuel.
    destruct fuel as [|fuel]; [lia|]. cbn [decodeArray].
    change (more _) with true at 1. cbn iota.
    rewrite (Hv n (depth + 1) _ ArrayValue (st :: stk)
      (comma_items (map (marshal html) l) ++ "]" ++ rest) fuel); try done; try lia.
    + cbn [mbind result_bind token_value_end]. rewrite IH; [|done..|lia]. by rewrite <- app_assoc.
    + rewrite append_assoc. by apply next_token_comma; left.
    + by apply stops_comma_items.
Qed.

Lemma decode_array l : Forall decodes l -> decodes (JArr l).
Proof.
  intros Hl n depth d st stk rest fuel Hwf Hdepth Htok Hst Hrest Hfuel.
  cbn [json_wf] in Hwf.
  cbn [marshal String.append] in Htok, Hfuel. cbn [String.length] in Hfuel.
  rewrite length_append in Hfuel.
  destruct fuel as [|fuel]; [lia|]. cbn [decodeValue]. destruct (Z.ltb_spec 64 depth); [lia|].
  rewrite Htok. unfold token_plain at 1. cbn [dec_input skip_ws dec_state].
  change (is_ws "[") with false. cbn iota. change (Ascii.eqb "[" "[") with true. cbn iota.
  unfold open_delim. cbn [dec_state dec_stack]. rewrite Hst. cbn [Ascii.eqb Bool.eqb andb].
  destruct l as [|v l].
  - destruct fuel as [|fuel]; [cbn in Hfuel; lia|]. done.
  - destruct n as [|n]; [done|].
    apply Forall_cons in Hl as [Hv Hl]. cbn [forallb] in Hwf. apply andb_true_iff in Hwf as [Hwfv Hwf].
    cbn [map join_comma] in *. rewrite length_append in Hfuel. cbn [String.length] in Hfuel.
    destruct fuel as [|fuel]; [lia|]. cbn [decodeArray].
    destruct (marshal_head html n v Hwfv) as (c & s & Hm & Hopen).
    rewrite !append_assoc. cbn [String.append].
    set (rest' := comma_items (map (marshal html) l) ++ String "]" rest).
    assert (more (mkDecoder (marshal html v ++ rest') ArrayStart (st :: stk)) = true) as ->
      by (rewrite Hm; by apply more_open).
    rewrite (Hv n (depth + 1) _ ArrayStart (st :: stk) rest' fuel); try done; try lia.
    + cbn [mbind result_bind token_value_end].
      apply (decode_array_tail depth l n st stk rest [v]); [done|done|lia|lia].
    + rewrite Hm. by apply next_token_open.
    + by apply stops_comma_items.
Qed.

(** *** Objects *)

Lemma decode_member_value v n depth stk rest fuel :
  decodes v -> json_wf n v = true -> depth + Z.of_nat n <= 64 -> stops rest = true ->
  (2 * String.length (marshal html v) <= fuel)%nat ->
  decodeValue fuel depth (mkDecoder (":" ++ marshal html v ++ rest) ObjectColon stk)
  = Ok (v, mkDecoder rest ObjectComma stk).
Proof. intros Hv Hwf Hd Hrest Hf. by rewrite (Hv n depth _ ObjectValue stk rest fuel). Qed.

Lemma decode_object_tail depth l n st stk rest : forall acc fuel,
  Forall (fun kv => decodes (snd kv)) l ->
  forallb (fun kv => valid_string (fst kv) && json_wf n (snd kv)) l = true ->
  NoDup (map fst (acc ++ l)) -> depth + 1 + Z.of_nat n <= 64 ->
  (2 * String.length (comma_items (map (fun kv => member kv) l)) + 1 <= fuel)%nat ->
  decodeObject fuel depth acc
    (mkDecoder (comma_items (map (fun kv => member kv) l) ++ "}" ++ rest) ObjectComma (st :: stk))
  = Ok (JObj (acc ++ l), mkDecoder rest (token_value_end st) stk).
Proof.
  induction l as [|[k v] l IH]; intros acc fuel Hl Hwf Hnd Hdepth Hfuel.
  - destruct fuel as [|fuel]; [lia|]. cbn. by rewrite app_nil_r.
  - apply Forall_cons in Hl as [Hv Hl]. cbn [forallb fst snd] in Hwf.
    apply andb_true_iff in Hwf as [[Hk Hwfv]%andb_true_iff Hwf].
    cbn [map comma_items String.append fst snd] in *. cbn [String.length] in Hfuel.
    rewrite !length_append in Hfuel. cbn [String.length] in Hfuel.
    destruct fuel as [|fuel]; [lia|]. cbn [decodeObject].
    change (more _) with true at 1. cbn iota.
    rewrite !append_assoc, (next_token_comma _ ObjectKey) by by right.
    rewrite token_plain_key by auto.
    rewrite has_key_false.
    2: { rewrite map_app in Hnd. cbn in Hnd. apply NoDup_app in Hnd as (_ & Hdisj & _).
         intros Hin. apply (Hdisj k); [by apply list_elem_of_In|]. by left. }
    rewrite (decode_member_value v n (depth + 1) _
      (comma_items (map (fun kv => member kv) l) ++ "}" ++ rest));
      [|done|done|lia| by apply stops_comma_items |lia].
    cbn [mbind result_bind]. rewrite IH; [|done|done| |lia|lia].
    + by rewrite <- app_assoc.
    + by rewrite <- app_assoc.
Qed.

Lemma decode_object l : Forall (fun kv => decodes (snd kv)) l -> decodes (JObj l).
Proof.
  intros Hl n depth d st stk rest fuel Hwf Hdepth Htok Hst Hrest Hfuel.
  cbn [json_wf] in Hwf.
  cbn [marshal String.append] in Htok, Hfuel. cbn [String.length] in Hfuel.
  rewrite length_append in Hfuel.
  destruct fuel as [|fuel]; [lia|]. cbn [decodeValue]. destruct (Z.ltb_spec 64 depth); [lia|].
  rewrite Htok. unfold token_plain at 1. cbn [dec_input skip_ws dec_state].
  change (is_ws "{") with false. cbn iota. change (Ascii.eqb "{" "[") with false.
  change (Ascii.eqb "{" "]") with false. change (Ascii.eqb "{" "{") with true. cbn iota.
  unfold open_delim. cbn [dec_state dec_stack]. rewrite Hst. cbn [Ascii.eqb Bool.eqb andb].
  destruct l as [|[k v] l].
  - destruct fuel as [|fuel]; [cbn in Hfuel; lia|]. done.
  - destruct n as [|n]; [done|].
    apply andb_true_iff in Hwf as [Hwf Hnd]. apply bool_decide_eq_true in Hnd.
    apply Forall_cons in Hl as [Hv Hl]. cbn [forallb fst snd] in Hwf.
    apply andb_true_iff in Hwf as [[Hk Hwfv]%andb_true_iff Hwf].
    cbn [map join_comma fst snd] in *. rewrite !length_append in Hfuel. cbn [String.length] in Hfuel.
    destruct fuel as [|fuel]; [lia|]. cbn [decodeObject].
    rewrite !append_assoc. cbn [String.append]. rewrite ?append_assoc.
    set (rest' := comma_items _ ++ String "}" rest).
    assert (Hmore : more (mkDecoder (quote html k ++ String ":" (marshal html v ++ rest'))
      ObjectStart (st :: stk)) = true) by by apply (more_open DQ).
    assert (Hkey : next_token (mkDecoder (quote html k ++ String ":" (marshal html v ++ rest'))
      ObjectStart (st :: stk))
      = TokOk (TokScalar (JStr k)) (mkDecoder (String ":" (marshal html v ++ rest'))
          ObjectColon (st :: stk))).
    { rewrite <- (token_plain_key html k ObjectStart) by auto. by apply (next_token_open DQ). }
    rewrite Hmore, Hkey. cbn [has_key existsb].
    pose proof (decode_member_value v n (depth + 1) (st :: stk) rest' fuel Hv Hwfv) as Hmv.
    cbn [String.append] in Hmv. rewrite Hmv; [|lia|by apply stops_comma_items|lia].
    cbn [mbind result_bind app].
    apply (decode_object_tail depth l n st stk rest [(k, v)]); [done..|lia|cbn [String.append]; lia].
Qed.

Lemma decode_marshal v : decodes v.
Proof.
  induction v using json_nested_ind;
    [by apply decode_scalar.. | by apply decode_array | by apply decode_object].
Qed.
End decode_marshal.

(** ** Sorting keys *)

Lemma insert_key_map {A B} (f : A -> B) kv l :
  insert_key (fst kv, f (snd kv)) (map (fun kv => (fst kv, f (snd kv))) l)
  = map (fun kv => (fst kv, f (snd kv))) (insert_key kv l).
Proof.
  induction l as [|kv' l IH]; cbn; [done|].
  destruct (String.leb (fst kv) (fst kv')); cbn; [done|]. by rewrite IH.
Qed.

Lemma sort_keys_map {A B} (f : A -> B) l :
  sort_keys (map (fun kv => (fst kv, f (snd kv))) l)
  = map (fun kv => (fst kv, f (snd kv))) (sort_keys l).
Proof.
  unfold sort_keys. induction l as [|kv l IH]; [done|].
  cbn [map foldr]. by rewrite IH, insert_key_map.
Qed.

Lemma insert_key_perm {A} (kv : string * A) l : insert_key kv l ≡ₚ kv :: l.
Proof.
  induction l as [|kv' l IH]; cbn; [done|]. destruct (String.leb _ _); [done|].
  rewrite IH. apply Permutation_swap.
Qed.

Lemma sort_keys_perm {A} (l : list (string * A)) : sort_keys l ≡ₚ l.
Proof.
  unfold sort_keys. induction l as [|kv l IH]; [done|].
  cbn [foldr]. by rewrite insert_key_perm, IH.
Qed.

Lemma sort_keys_cons {A} (kv : string * A) l : sort_keys (kv :: l) = insert_key kv (sort_keys l).
Proof. done. Qed.

(** Strictly increasing keys, as a map with distinct keys has once sorted *)
Definition keys_increasing {A} (l : list (string * A)) : Prop :=
  StronglySorted (fun a b => str_lt (fst a) (fst b)) l.

Lemma insert_key_sorted {A} (kv : string * A) l :
  keys_increasing l -> ~ In (fst kv) (map fst l) -> keys_increasing (insert_key kv l).
Proof.
  unfold keys_increasing. induction 1 as [|kv' l Hl IH Hall]; cbn; intros Hn.
  - repeat constructor.
  - destruct (String.leb (fst kv) (fst kv')) eqn:E.
    + assert (str_lt (fst kv) (fst kv')) as Hlt.
      { apply str_leb_nlt in E. destruct (str_lt_trichotomy (fst kv) (fst kv')) as [[]|]; naive_solver. }
      constructor; [by constructor|]. constructor; [done|].
      eapply Forall_impl; [done|]. intros ? Hx. by etrans.
    + apply str_leb_false in E. constructor; [apply IH; naive_solver|].
      rewrite insert_key_perm. by constructor.
Qed.

Lemma sort_keys_sorted {A} (l : list (string * A)) :
  NoDup (map fst l) -> keys_increasing (sort_keys l).
Proof.
  induction l as [|kv l IH]; [constructor|]. cbn [map]. intros [Hn Hnd]%NoDup_cons.
  rewrite sort_keys_cons. apply insert_key_sorted; [auto|]. rewrite (sort_keys_perm l).
  by rewrite <- list_elem_of_In.
Qed.

Lemma sort_keys_id {A} (l : list (string * A)) : keys_increasing l -> sort_keys l = l.
Proof.
  induction 1 as [|kv l Hl IH Hall]; [done|]. rewrite sort_keys_cons, IH.
  destruct l as [|kv' l]; cbn; [done|].
  assert (String.leb (fst kv) (fst kv') = true) as ->; [|done].
  apply Forall_cons in Hall as [Hlt _]. apply str_leb_nlt. intros Hgt.
  by apply (str_lt_irrefl (fst kv)); etrans.
Qed.

(** ** Canonical bytes of a well-formed value *)

Lemma json_wf_sort n v : json_wf n v = true -> json_wf n (sort_json v) = true.
Proof.
  revert n. induction v as [| | | |l IH|l IH] using json_nested_ind; intros n; try done;
    (destruct n as [|n]; [by destruct l|]); cbn [json_wf sort_json].
  - rewrite !forallb_forall. intros Hwf x (y & <- & Hy)%in_map_iff.
    rewrite Forall_forall in IH. apply IH; [by apply list_elem_of_In|]. auto.
  - intros [Hwf Hnd]%andb_true_iff. apply andb_true_iff. split.
    + rewrite forallb_forall in *. intros kv Hin.
      rewrite sort_keys_perm in Hin. apply in_map_iff in Hin as (kv' & <- & Hin). cbn [fst snd].
      specialize (Hwf kv' Hin). apply andb_true_iff in Hwf as [-> Hwf].
      rewrite Forall_forall in IH. apply IH; [by apply list_elem_of_In|]. done.
    + rewrite bool_decide_eq_true in *. rewrite sort_keys_perm, map_map. done.
Qed.

Lemma writeCanonical_wf n v :
  json_wf n v = true -> writeCanonical v = Ok (marshal false (sort_json v)).
Proof.
  revert n. induction v as [| |t| |l IH|l IH] using json_nested_ind; intros n Hwf; try done.
  - cbn in *. by rewrite Hwf.
  - destruct n as [|n]; [by destruct l|]. cbn [json_wf] in Hwf. cbn [writeCanonical sort_json marshal].
    match goal with |- (_ ← ?go l; _) = _ =>
      enough (go l = Ok (map (marshal false) (map sort_json l))) as -> by done end.
    induction IH as [|x l Hx Hl IHl]; [done|].
    cbn in Hwf. apply andb_true_iff in Hwf as [Hwfx Hwf].
    cbn. rewrite (Hx n Hwfx). cbn. by rewrite IHl.
  - destruct n as [|n]; [by destruct l|]. cbn [json_wf] in Hwf. cbn [writeCanonical sort_json marshal].
    apply andb_true_iff in Hwf as [Hwf _].
    match goal with |- (_ ← ?go l; _) = _ =>
      enough (go l = Ok (map (fun kv => (fst kv, marshal false (sort_json (snd kv)))) l)) as -> end.
    + cbn. rewrite (sort_keys_map (fun v => marshal false (sort_json v))), map_map.
      rewrite (sort_keys_map sort_json), map_map. done.
    + induction IH as [|[k x] l Hx Hl IHl]; [done|].
      cbn in Hwf. apply andb_true_iff in Hwf as [[_ Hwfx]%andb_true_iff Hwf].
      cbn in *. rewrite (Hx n Hwfx). cbn. by rewrite IHl.
Qed.

Lemma sort_json_idemp n v : json_wf n v = true -> sort_json (sort_json v) = sort_json v.
Proof.
  revert n. induction v as [| | | |l IH|l IH] using json_nested_ind; intros n Hwf; try done;
    (destruct n as [|n]; [by destruct l|]); cbn [json_wf sort_json] in *.
  - f_equal. rewrite map_map. apply map_ext_in. intros x Hx. rewrite forallb_forall in Hwf.
    rewrite Forall_forall in IH. eapply IH; [by apply list_elem_of_In | eauto].
  - apply andb_true_iff in Hwf as [Hwf Hnd%bool_decide_eq_true]. f_equal.
    rewrite <- (sort_keys_map sort_json), map_map. cbn.
    assert (map (fun kv => (fst kv, sort_json (sort_json (snd kv)))) l
            = map (fun kv => (fst kv, sort_json (snd kv))) l) as ->.
    { apply map_ext_in. intros kv Hx. f_equal. rewrite forallb_forall in Hwf.
      specialize (Hwf kv Hx). apply andb_true_iff in Hwf as [_ Hwf].
      rewrite Forall_forall in IH. eapply IH; [by apply list_elem_of_In | eauto]. }
    apply sort_keys_id, sort_keys_sorted. by rewrite map_map.
Qed.

Lemma read_value_marshal html v : json_wf 64 v = true -> read_value (marshal html v) = Ok v.
Proof.
  intros Hwf. unfold read_value, decode_fuel.
  destruct (marshal_head html 64 v Hwf) as (c & s & Hm & Hopen).
  rewrite (decode_marshal html v 64%nat 0 _ TopValue [] ""); [done|done|lia| |done|done|lia].
  rewrite append_nil_r, Hm. by apply next_token_open.
Qed.

Lemma DecodeUnique_marshal html v :
  json_wf 64 v = true -> len (marshal html v) <= MaxInputBytes ->
  DecodeUnique (marshal html v) = Ok v.
Proof.
  intros Hwf Hlen. unfold DecodeUnique.
  pose proof (marshal_length_pos html 64 v Hwf) as Hpos. unfold len in *.
  destruct (Z.eqb_spec (Z.of_nat (String.length (marshal html v))) 0); [lia|].
  destruct (Z.ltb_spec MaxInputBytes (Z.of_nat (String.length (marshal html v)))); [lia|].
  by apply read_value_marshal.
Qed.

(** What the digests of the harness are taken over *)
Lemma Canonicalize_marshal html v :
  json_wf 64 v = true -> len (marshal html v) <= MaxInputBytes ->
  Canonicalize (marshal html v) = Ok (marshal false (sort_json v)).
Proof.
  intros Hwf Hlen. unfold Canonicalize. rewrite DecodeUnique_marshal by done.
  by apply (writeCanonical_wf 64).
Qed.

(** Printing is injective on well-formed values. *)
Lemma marshal_inj html n m v w :
  json_wf n v = true -> json_wf m w = true -> marshal html v = marshal html w -> v = w.
Proof.
  intros Hv Hw Heq.
  set (k := (n + m)%nat).
  destruct (marshal_head html n v Hv) as (c & s & Hm & Hopen).
  pose proof (decode_marshal html v n (64 - Z.of_nat k) (new_decoder (marshal html v))
    TopValue [] "" (2 * String.length (marshal html v))%nat Hv ltac:(unfold k; lia)) as H1.
  pose proof (decode_marshal html w m (64 - Z.of_nat k) (new_decoder (marshal html w))
    TopValue [] "" (2 * String.length (marshal html w))%nat Hw ltac:(unfold k; lia)) as H2.
  rewrite <- Heq in H2. rewrite append_nil_r in H1, H2.
  unfold new_decoder in H1, H2. rewrite Hm in H1, H2.
  specialize (H1 (next_token_open c s _ _ Hopen) eq_refl eq_refl ltac:(lia)).
  specialize (H2 (next_token_open c s _ _ Hopen) eq_refl eq_refl ltac:(lia)).
  congruence.
Qed.

(** ** What [DecodeUnique] accepts

    [json_shape n v]: every string is valid UTF-8, no object has two equal keys, and
    containers nest at most [n] deep below this one. *)
Fixpoint json_shape (n : nat) (v : json) {struct v} : bool :=
  match v with
  | JNull | JBool _ | JNum _ => true
  | JStr s => valid_string s
  | JArr l =>
      match n with
      | O => match l with [] => true | _ => false end
      | S n' => forallb (json_shape n') l
      end
  | JObj l =>
      match n with
      | O => match l with [] => true | _ => false end
      | S n' =>
          forallb (fun kv => valid_string (fst kv) && json_shape n' (snd kv)) l &&
          bool_decide (NoDup (map fst l))
      end
  end.

(** Every number is an integer in canonical form. *)
Fixpoint integers_only (v : json) {struct v} : bool :=
  match v with
  | JNum t => canonicalInteger t
  | JArr l => forallb integers_only l
  | JObj l => forallb (fun kv => integers_only (snd kv)) l
  | _ => true
  end.

Lemma json_wf_split n v : json_wf n v = json_shape n v && integers_only v.
Proof.
  revert n. induction v as [| | | |l IH|l IH] using json_nested_ind; intros n; cbn;
    try (by rewrite andb_true_r); try done.
  - destruct n as [|n]; [by destruct l|].
    induction IH as [|x l Hx Hl IHl]; [done|]. cbn. rewrite Hx, IHl. btauto.
  - destruct n as [|n]; [by destruct l|].
    assert (forallb (fun kv => valid_string (fst kv) && json_wf n (snd kv)) l
      = forallb (fun kv => valid_string (fst kv) && json_shape n (snd kv)) l
        && forallb (fun kv => integers_only (snd kv)) l) as ->; [|btauto].
    induction IH as [|x l Hx Hl IHl]; [done|]. cbn. rewrite Hx, IHl. btauto.
Qed.

Lemma scan_str_valid s t rest : scan_str s = Some (t, rest) -> valid_string t = true.
Proof.
  unfold scan_str. destruct (scan_string s) as [[u r]|]; cbn; [|done].
  intros [= <- <-]. apply sanitize_valid.
Qed.

Lemma scan_scalar_shape s v rest : scan_scalar s = Some (v, rest) -> forall n, json_shape n v = true.
Proof.
  unfold scan_scalar. intros H n. destruct s as [|c s]; [done|]. revert H.
  repeat match goal with |- context [if ?b then _ else _] => destruct b end;
    intros H; simplify_option_eq; try done;
    repeat match goal with p : string * string |- _ => destruct p end; simplify_option_eq; try done.
  by eapply scan_str_valid.
Qed.

Lemma token_scalar_shape d v d' : next_token d = TokOk (TokScalar v) d' -> forall n, json_shape n v = true.
Proof.
  assert (Hp : forall d, token_plain d = TokOk (TokScalar v) d' -> forall n, json_shape n v = true).
  { intros [s st stk]. unfold token_plain, open_delim, close_delim. cbn [dec_input dec_state dec_stack].
    destruct (skip_ws s) as [|c s']; [done|].
    destruct (Ascii.eqb c "["); [by destruct (token_value_allowed st)|].
    destruct (Ascii.eqb c "]"); [by case_bool_decide; [destruct stk|]|].
    destruct (Ascii.eqb c "{"); [by destruct (token_value_allowed st)|].
    destruct (Ascii.eqb c "}"); [by case_bool_decide; [destruct stk|]|].
    destruct (Ascii.eqb c ":" || Ascii.eqb c ","); [done|].
    destruct (Ascii.eqb c DQ && _).
    - destruct (scan_str s') as [[k r]|] eqn:E; [|done]. intros [= <- _] n. by eapply scan_str_valid.
    - destruct (token_value_allowed st); [|done].
      destruct (scan_scalar (String c s')) as [[w r]|] eqn:E; [|done].
      intros [= <- _]. by eapply scan_scalar_shape. }
  unfold next_token. destruct (skip_ws (dec_input d)) as [|c s]; [apply Hp|].
  repeat match goal with |- context [if ?b then _ else _] => destruct b end; apply Hp.
Qed.

Lemma has_key_not_in k l : has_key k l = false -> ~ In k (map fst l).
Proof.
  intros H (kv & <- & Hin)%in_map_iff. apply not_true_iff_false in H. apply H.
  apply existsb_exists. exists kv. by rewrite String.eqb_refl.
Qed.

Lemma shape_snoc_member n l k v :
  json_shape (S n) (JObj l) = true -> valid_string k = true -> json_shape n v = true ->
  has_key k l = false -> json_shape (S n) (JObj (l ++ [(k, v)])) = true.
Proof.
  cbn [json_shape]. intros [Hl Hnd%bool_decide_eq_true]%andb_true_iff Hk Hv Hn%has_key_not_in.
  rewrite forallb_app, Hl. cbn [forallb fst snd]. rewrite Hk, Hv. apply bool_decide_eq_true.
  rewrite map_app. apply NoDup_app. split_and!; [done| |apply NoDup_singleton].
  intros x Hx ->%list_elem_of_singleton. apply Hn. by apply list_elem_of_In.
Qed.

Lemma shape_snoc_item n l v :
  json_shape (S n) (JArr l) = true -> json_shape n v = true ->
  json_shape (S n) (JArr (l ++ [v])) = true.
Proof. cbn [json_shape]. intros Hl Hv. rewrite forallb_app, Hl. cbn. by rewrite Hv. Qed.

Lemma decode_shape fuel :
  (forall depth d v d', 0 <= depth -> decodeValue fuel depth d = Ok (v, d') ->
    depth <= 64 /\ json_shape (Z.to_nat (64 - depth)) v = true) /\
  (forall depth obj d v d', 0 <= depth <= 64 -> json_shape (Z.to_nat (64 - depth)) (JObj obj) = true ->
    decodeObject fuel depth obj d = Ok (v, d') -> json_shape (Z.to_nat (64 - depth)) v = true) /\
  (forall depth arr d v d', 0 <= depth <= 64 -> json_shape (Z.to_nat (64 - depth)) (JArr arr) = true ->
    decodeArray fuel depth arr d = Ok (v, d') -> json_shape (Z.to_nat (64 - depth)) v = true).
Proof.
  induction fuel as [|fuel (IHv & IHo & IHa)]; [done|]. split_and!.
  - intros depth d v d' Hd H. cbn [decodeValue] in H.
    destruct (Z.ltb_spec 64 depth); [done|]. split; [lia|].
    destruct (next_token d) as [[c|w] d1| |] eqn:Et; try done.
    + destruct (Ascii.eqb c "{"); [|destruct (Ascii.eqb c "["); [|done]].
      * refine (IHo depth _ _ _ _ _ _ H); [lia|]. by destruct (Z.to_nat (64 - depth)).
      * refine (IHa depth _ _ _ _ _ _ H); [lia|]. by destruct (Z.to_nat (64 - depth)).
    + injection H as <- <-. by eapply token_scalar_shape.
  - intros depth obj d v d' Hd Hobj H. cbn [decodeObject] in H. destruct (more d).
    + destruct (next_token d) as [[c|[| | |key| |]] d1| |] eqn:Et; try done.
      destruct (has_key key obj) eqn:Hk; [done|]. inv_ok.
      destruct (IHv (depth + 1) _ _ _ ltac:(lia) Hr) as [Hle Hshape].
      refine (IHo depth _ _ _ _ _ _ H); [lia|].
      replace (Z.to_nat (64 - depth)) with (S (Z.to_nat (64 - (depth + 1)))) in * by lia.
      by apply shape_snoc_member; [|eapply (token_scalar_shape _ (JStr key) _ Et O)|..].
    + destruct (next_token d) as [[c|w] d1| |]; try done.
      destruct (Ascii.eqb c "}"); [|done]. by injection H as <- <-.
  - intros depth arr d v d' Hd Harr H. cbn [decodeArray] in H. destruct (more d).
    + inv_ok. destruct (IHv (depth + 1) _ _ _ ltac:(lia) Hr) as [Hle Hshape].
      refine (IHa depth _ _ _ _ _ _ H); [lia|].
      replace (Z.to_nat (64 - depth)) with (S (Z.to_nat (64 - (depth + 1)))) in * by lia.
      by apply shape_snoc_item.
    + destruct (next_token d) as [[c|w] d1| |]; try done.
      destruct (Ascii.eqb c "]"); [|done]. by injection H as <- <-.
Qed.

Lemma read_value_shape input v : read_value input = Ok v -> json_shape 64 v = true.
Proof.
  unfold read_value. intros H. inv_ok.
  destruct (next_token d) as [| |]; try done. inv_ok.
  by destruct (proj1 (decode_shape (decode_fuel input)) 0 _ _ _ ltac:(lia) Hr).
Qed.

Lemma DecodeUnique_shape input v : DecodeUnique input = Ok v -> json_shape 64 v = true.
Proof. unfold DecodeUnique. intros [_ H]%seq_ok. by eapply read_value_shape. Qed.

Lemma writeCanonical_integers v c : writeCanonical v = Ok c -> integers_only v = true.
Proof.
  revert c. induction v as [| |t| |l IH|l IH] using json_nested_ind; intros c H; try done.
  - cbn in H. inv_ok. done.
  - cbn [writeCanonical] in H. apply bind_ok in H as (items & Hgo & _). cbn.
    revert items Hgo. induction IH as [|x l Hx Hl IHl]; intros items Hgo; [done|].
    apply bind_ok in Hgo as (y & Hy & Hgo). apply bind_ok in Hgo as (ys & Hys & _).
    cbn. rewrite (Hx _ Hy). by eapply IHl.
  - cbn [writeCanonical] in H. apply bind_ok in H as (items & Hgo & _). cbn.
    revert items Hgo. induction IH as [|[k x] l Hx Hl IHl]; intros items Hgo; [done|].
    apply bind_ok in Hgo as (y & Hy & Hgo). apply bind_ok in Hgo as (ys & Hys & _).
    cbn. cbn in Hx. rewrite (Hx _ Hy). by eapply IHl.
Qed.

(** What [Canonicalize] returns is the canonical print of a well-formed value. *)
Lemma Canonicalize_inv input c :
  Canonicalize input = Ok c ->
  exists v, DecodeUnique input = Ok v /\ json_wf 64 v = true /\ c = marshal false (sort_json v).
Proof.
  unfold Canonicalize. intros H. apply bind_ok in H as (v & Hv & Hw). exists v.
  assert (Hwf : json_wf 64 v = true).
  { rewrite json_wf_split, (DecodeUnique_shape _ _ Hv). by eapply writeCanonical_integers. }
  rewrite (writeCanonical_wf 64 v Hwf) in Hw. by injection Hw as <-.
Qed.

(** ** The fuel of [DecodeUnique] is enough *)

Local Notation dlen d := (String.length (dec_input d)).

Lemma decode_shrinks fuel :
  (forall depth d v d', decodeValue fuel depth d = Ok (v, d') -> (dlen d' < dlen d)%nat) /\
  (forall depth obj d v d', decodeObject fuel depth obj d = Ok (v, d') -> (dlen d' < dlen d)%nat) /\
  (forall depth arr d v d', decodeArray fuel depth arr d = Ok (v, d') -> (dlen d' < dlen d)%nat).
Proof.
  induction fuel as [|fuel (IHv & IHo & IHa)]; [done|]. split_and!.
  - intros depth d v d' H. cbn [decodeValue] in H. destruct (64 <? depth); [done|].
    destruct (next_token d) as [[c|w] d1| |] eqn:Et; try done; apply next_token_shrinks in Et.
    + destruct (Ascii.eqb c "{"); [apply IHo in H; lia|].
      destruct (Ascii.eqb c "["); [apply IHa in H; lia|done].
    + by injection H as <- <-.
  - intros depth obj d v d' H. cbn [decodeObject] in H. destruct (more d).
    + destruct (next_token d) as [[c|[| | |key| |]] d1| |] eqn:Et; try done.
      apply next_token_shrinks in Et. destruct (has_key key obj); [done|]. inv_ok.
      apply IHv in Hr. apply IHo in H. lia.
    + destruct (next_token d) as [[c|w] d1| |] eqn:Et; try done. apply next_token_shrinks in Et.
      destruct (Ascii.eqb c "}"); [|done]. by injection H as <- <-.
  - intros depth arr d v d' H. cbn [decodeArray] in H. destruct (more d).
    + inv_ok. apply IHv in Hr. apply IHa in H. lia.
    + destruct (next_token d) as [[c|w] d1| |] eqn:Et; try done. apply next_token_shrinks in Et.
      destruct (Ascii.eqb c "]"); [|done]. by injection H as <- <-.
Qed.

Lemma decode_fuel_mono n :
  (forall f f' depth d, (dlen d <= n -> 2 * n + 1 <= f -> 2 * n + 1 <= f' ->
    decodeValue f depth d = decodeValue f' depth d)%nat) /\
  (forall f f' depth obj d, (dlen d <= n -> 2 * n + 2 <= f -> 2 * n + 2 <= f' ->
    decodeObject f depth obj d = decodeObject f' depth obj d)%nat) /\
  (forall f f' depth arr d, (dlen d <= n -> 2 * n + 2 <= f -> 2 * n + 2 <= f' ->
    decodeArray f depth arr d = decodeArray f' depth arr d)%nat).
Proof.
  induction n as [n IH] using lt_wf_ind.
  assert (HV : forall f f' depth d, (dlen d <= n -> 2 * n + 1 <= f -> 2 * n + 1 <= f' ->
    decodeValue f depth d = decodeValue f' depth d)%nat).
  { intros [|f] [|f'] depth d Hd Hf Hf'; try lia. cbn [decodeValue].
    destruct (64 <? depth); [done|].
    destruct (next_token d) as [[c|w] d1| |] eqn:Et; try done. apply next_token_shrinks in Et.
    destruct (IH (dlen d1) ltac:(lia)) as (_ & IHo & IHa).
    rewrite (IHo f f') by lia. by rewrite (IHa f f') by lia. }
  split_and!; [done| |].
  - intros [|f] [|f'] depth obj d Hd Hf Hf'; try lia. cbn [decodeObject].
    destruct (more d); [|done].
    destruct (next_token d) as [[c|[| | |key| |]] d1| |] eqn:Et; try done.
    apply next_token_shrinks in Et. destruct (has_key key obj); [done|].
    rewrite (HV f f') by lia.
    destruct (decodeValue f' (depth + 1) d1) as [[v d2]|] eqn:Ev; [|done]. cbn [mbind result_bind].
    apply (proj1 (decode_shrinks _)) in Ev.
    destruct (IH (dlen d2) ltac:(lia)) as (_ & IHo & _). by rewrite (IHo f f') by lia.
  - intros [|f] [|f'] depth arr d Hd Hf Hf'; try lia. cbn [decodeArray].
    destruct (more d); [|done]. rewrite (HV f f') by lia.
    destruct (decodeValue f' (depth + 1) d) as [[v d2]|] eqn:Ev; [|done]. cbn [mbind result_bind].
    apply (proj1 (decode_shrinks _)) in Ev.
    destruct (IH (dlen d2) ltac:(lia)) as (_ & _ & IHa). by rewrite (IHa f f') by lia.
Qed.

(** ** Properties *)

(** ** Values of one layout

    Two values of the same Go type have the same keys in the same order; on such values
    sorting the keys loses nothing. *)
Inductive same_layout : json -> json -> Prop :=
| sl_scalar v w : scalar v = true -> scalar w = true -> same_layout v w
| sl_arr l l' : (forall x y, x ∈ l -> y ∈ l' -> same_layout x y) -> same_layout (JArr l) (JArr l')
| sl_nil : same_layout (JObj []) (JObj [])
| sl_field k v w l l' :
    same_layout v w -> same_layout (JObj l) (JObj l') ->
    same_layout (JObj ((k, v) :: l)) (JObj ((k, w) :: l')).

Lemma insert_key_inj {A} k (v w : A) l : forall l',
  map fst l = map fst l' -> insert_key (k, v) l = insert_key (k, w) l' -> v = w /\ l = l'.
Proof.
  induction l as [|[k1 v1] l IH]; intros [|[k2 v2] l'] Hk H; cbn in *; try done.
  - by injection H as ->.
  - injection Hk as -> Hk. destruct (String.leb k k2).
    + injection H as -> -> ->. done.
    + injection H as -> H. by destruct (IH _ Hk H) as [-> ->].
Qed.

Lemma insert_key_keys {A B} k (v : A) (w : B) l : forall l',
  map fst l = map fst l' -> map fst (insert_key (k, v) l) = map fst (insert_key (k, w) l').
Proof.
  induction l as [|[k1 v1] l IH]; intros [|[k2 v2] l'] Hk; cbn in *; try done.
  injection Hk as -> Hk. destruct (String.leb k k2); cbn; f_equal; auto. by f_equal.
Qed.

Lemma sort_keys_keys {A B} (l : list (string * A)) : forall (l' : list (string * B)),
  map fst l = map fst l' -> map fst (sort_keys l) = map fst (sort_keys l').
Proof.
  induction l as [|[k v] l IH]; intros [|[k' v'] l'] Hk; cbn in *; try done.
  injection Hk as -> Hk. apply insert_key_keys, IH, Hk.
Qed.

Lemma layout_keys v w : same_layout v w ->
  match v, w with JObj l, JObj l' => map fst l = map fst l' | _, _ => True end.
Proof.
  induction 1 as [v w Hv Hw| | |k v w l l' _ _ _ IH]; try done; [by destruct v|]. cbn. by f_equal.
Qed.

Lemma sort_json_layout_inj v w : same_layout v w -> sort_json v = sort_json w -> v = w.
Proof.
  induction 1 as [v w Hv Hw|l l' _ IH| |k v w l l' _ IHv Hl IHl]; intros Heq.
  - by destruct v, w.
  - injection Heq as Heq. f_equal. revert l' IH Heq.
    induction l as [|x l IHl]; intros [|y l'] IH Heq; cbn in Heq; try done.
    injection Heq as Hxy Heq. f_equal; [apply IH; [by left..|done]|].
    apply IHl; [|done]. intros; apply IH; [by right..|done].
  - done.
  - apply layout_keys in Hl. cbn [sort_json map foldr sort_keys fst snd] in *.
    assert (H : insert_key (k, sort_json v) (sort_keys (map (fun kv => (fst kv, sort_json (snd kv))) l)) =
                insert_key (k, sort_json w) (sort_keys (map (fun kv => (fst kv, sort_json (snd kv))) l')))
      by (by injection Heq).
    apply insert_key_inj in H as [Hv H].
    + rewrite (IHv Hv). f_equal. f_equal. assert (JObj l = JObj l') as [= ->]; [|done].
      apply IHl. cbn. by rewrite H.
    + apply sort_keys_keys. rewrite !map_map. exact Hl.
Qed.

(** Canonical bytes are a fixed point: whatever [Canonicalize] returns, within the
    size bound, decodes again and prints as itself, so a digest over canonical bytes does
    not depend on how many times they were canonicalised. *)
Theorem canonicalize_idempotent (input c : string)
  (H : Canonicalize input = Ok c) (Hlen : len c <= MaxInputBytes) :
  Canonicalize c = Ok c.
Proof.
  destruct (Canonicalize_inv input c H) as (v & _ & Hwf & ->).
  rewrite Canonicalize_marshal by (done || by apply json_wf_sort).
  by rewrite (sort_json_idemp 64).
Qed.

Lemma canonicalize_idempotent_witness :
  Canonicalize (dq "{'b':1,'a':[2]}") = Ok (dq "{'a':[2],'b':1}") /\
  Canonicalize (dq "{'a':[2],'b':1}") = Ok (dq "{'a':[2],'b':1}").
Proof.
  split; [vm_compute; reflexivity|].
  apply (canonicalize_idempotent (dq "{'b':1,'a':[2]}")); [vm_compute; reflexivity | vm_compute; discriminate].
Defined.

(** C37. Two inputs with the same canonical bytes decode to the same value up to the order
    of object members: equal canonical bytes mean equal content. *)
Theorem canonicalize_injective (s t c : string) (v w : json)
  (Hs : Canonicalize s = Ok c) (Ht : Canonicalize t = Ok c)
  (Hv : DecodeUnique s = Ok v) (Hw : DecodeUnique t = Ok w) :
  sort_json v = sort_json w.
Proof.
  destruct (Canonicalize_inv s c Hs) as (v' & Hv' & Hwfv & ->).
  destruct (Canonicalize_inv t _ Ht) as (w' & Hw' & Hwfw & Heq).
  rewrite Hv in Hv'. rewrite Hw in Hw'. simplify_eq.
  eapply (marshal_inj false 64 64); [by apply json_wf_sort..|done].
Qed.

Lemma canonicalize_injective_witness :
  sort_json (JObj [("b", JNum "1"); ("a", JStr "x")]) = sort_json (JObj [("a", JStr "x"); ("b", JNum "1")]).
Proof.
  apply (canonicalize_injective (dq "{'b':1,'a':'x'}") (dq "{ 'a':'\u0078', 'b' : 1}")
    (dq "{'a':'x','b':1}")); vm_compute; reflexivity.
Defined.

(** Whatever [DecodeUnique] accepts has no object with two equal keys at any depth,
    holds valid UTF-8 only, and nests at most 64 containers; the fuel the model passes
    never decides the outcome. *)
Theorem decode_unique_sound (input : string) :
  (forall v, DecodeUnique input = Ok v -> json_shape 64 v = true /\ 0 < len input <= MaxInputBytes) /\
  (forall k depth, decodeValue (decode_fuel input + k) depth (new_decoder input)
    = decodeValue (decode_fuel input) depth (new_decoder input)).
Proof.
  split.
  - intros v H. split; [by eapply DecodeUnique_shape|].
    unfold DecodeUnique in H. inv_ok. unfold len in *. lia.
  - intros k depth. apply (proj1 (decode_fuel_mono (String.length input))); cbn; unfold decode_fuel; lia.
Qed.
