(* ===== verification/Domain.v ===== *)
(** * Shared vocabulary of the components

    [internal/domain]'s [CaseRef], the identifier patterns every package compiles
    (the packages declare the same [uuidPattern], [digestPattern] and [tokenPattern]
    over and over), machine-width integers, and the contexts and string checks the
    request validators share. *)

From S2P Require Import Prelude GoStrings GoRegexp GoTime GoJson DomainContract Sha256.

Local Open Scope string_scope.
Local Open Scope Z_scope.

(** ** Machine integers *)

Definition max_uint32 : Z := 2 ^ 32 - 1.
Definition max_uint64 : Z := 2 ^ 64 - 1.

Definition u8 (z : Z) : Z := z mod 2 ^ 8.
Definition u32 (z : Z) : Z := z mod 2 ^ 32.
Definition u64 (z : Z) : Z := z mod 2 ^ 64.

Definition is_u8 (z : Z) : Prop := 0 <= z < 2 ^ 8.
Definition is_u32 (z : Z) : Prop := 0 <= z < 2 ^ 32.
Definition is_u64 (z : Z) : Prop := 0 <= z < 2 ^ 64.

Lemma u64_small z : 0 <= z < 2 ^ 64 -> u64 z = z.
Proof. apply Z.mod_small. Qed.

(** ** Identifiers *)

(** [^[0-9a-f]{8}-[0-9a-f]{4}-7[0-9a-f]{3}-[89ab][0-9a-f]{3}-[0-9a-f]{12}$] *)
Definition uuid_regex : regex :=
  r_seq [r_times 8 hex_class; r_lit "-"; r_times 4 hex_class; r_lit "-7"; r_times 3 hex_class;
         r_lit "-"; one_of ["8"; "9"; "a"; "b"]%char; r_times 3 hex_class; r_lit "-";
         r_times 12 hex_class].
Definition uuidPattern (s : string) : bool := matches uuid_regex s.

Definition token_char (c : ascii) : bool :=
  is_lower c || is_digit c || Ascii.eqb c "_" || Ascii.eqb c "." || Ascii.eqb c "-".

(** [^[a-z][a-z0-9_.-]{0,127}$] *)
Definition token_regex : regex := RCat lower_class (r_upto 127 (RChr token_char)).
Definition tokenPattern (s : string) : bool := matches token_regex s.

Record CaseRef : Type := mkCaseRef {
  OrganizationID : string;
  TenantID : string;
  CaseID : string }.

#[export] Instance CaseRef_eq_dec : EqDecision CaseRef.
Proof. solve_decision. Defined.

#[export] Instance CaseRef_countable : Countable CaseRef.
Proof.
  refine (inj_countable' (fun c => (OrganizationID c, TenantID c, CaseID c))
    (fun '(o, t, c) => mkCaseRef o t c) _).
  by intros [].
Defined.

Definition validCase (value : CaseRef) : bool :=
  uuidPattern (OrganizationID value) && uuidPattern (TenantID value) && uuidPattern (CaseID value).

(** ** Requests *)

Definition validTime (value : Time) : bool := negb (is_zero value) && is_utc value.

Definition validOpaque (value : string) (maximum : Z) : bool :=
  negb (String.eqb value "") && (len value <=? maximum) && valid_string value &&
  String.eqb (trim_space value) value && negb (contains_any value [NUL; CR; LF; TAB]).

(** What [ctx.Err()] can say when it is asked; [CtxNil] is a nil context. *)
Inductive context_state : Type :=
| CtxNil
| CtxLive
| CtxCanceled
| CtxDeadlineExceeded.

(** ** Error values

    What [errors.As] and [errors.Is] see of an error: a tree of wrapped errors whose nodes
    are a package's own error value [E], one of the two context errors, or some other
    error wrapping none, one or (as [errors.Join] does) several others. *)
Inductive go_error (E : Type) : Type :=
| EOwn (e : E)
| ECanceled
| EDeadlineExceeded
| EOther (wrapped : list (go_error E)).
Arguments EOwn {E} _.
Arguments ECanceled {E}.
Arguments EDeadlineExceeded {E}.
Arguments EOther {E} _.

(** [errors.As(err, &target)], depth first *)
Fixpoint errors_as {E} (err : go_error E) : option E :=
  match err with
  | EOwn e => Some e
  | ECanceled | EDeadlineExceeded => None
  | EOther l =>
      (fix go (l : list (go_error E)) : option E :=
        match l with
        | [] => None
        | x :: l' => match errors_as x with Some e => Some e | None => go l' end
        end) l
  end.

(** [errors.Is(err, context.Canceled)] and [errors.Is(err, context.DeadlineExceeded)], on
    errors in which [errors.As] found no error of the package *)
Fixpoint errors_is_canceled {E} (err : go_error E) : bool :=
  match err with
  | ECanceled => true
  | EOwn _ | EDeadlineExceeded => false
  | EOther l => existsb errors_is_canceled l
  end.

Fixpoint errors_is_deadline {E} (err : go_error E) : bool :=
  match err with
  | EDeadlineExceeded => true
  | EOwn _ | ECanceled => false
  | EOther l => existsb errors_is_deadline l
  end.

(** The classes of storage errors (internal/workflow/storage_errors.go) *)
Inductive StorageErrorCode : Type :=
| StorageInvalidInput | StorageDenied | StorageNotFound | StorageConflict
| StorageCanceled | StorageTimeout | StorageUnavailable.

(** ** JSON of identifiers and numbers *)

Definition json_uint (n : Z) : json := JNum (format_uint n).
Definition json_int (n : Z) : json := JNum (format_int n).

Definition case_json (value : CaseRef) : json :=
  JObj [("organization_id", JStr (OrganizationID value)); ("tenant_id", JStr (TenantID value));
        ("case_id", JStr (CaseID value))].

(** ** Lemmas *)

Lemma uuidPattern_length s : uuidPattern s = true -> String.length s = 36%nat.
Proof. by apply matches_length. Qed.

Lemma uuid_nonempty s : uuidPattern s = true -> s <> "".
Proof. by intros H ->. Qed.

Lemma hex_class_ascii : alphabet_in (byte_in 0 127) hex_class = true.
Proof. vm_compute. reflexivity. Qed.

Lemma uuid_regex_ascii : alphabet_in (byte_in 0 127) uuid_regex = true.
Proof.
  assert (Hh : forall n, alphabet_in (byte_in 0 127) (r_times n hex_class) = true)
    by (intros n; exact (alphabet_times _ hex_class n hex_class_ascii)).
  unfold uuid_regex. cbn [r_seq alphabet_in]. rewrite !Hh. vm_compute. reflexivity.
Qed.

Lemma digest_regex_ascii : alphabet_in (byte_in 0 127) digest_regex = true.
Proof. apply alphabet_cat; [vm_compute; reflexivity | apply alphabet_times, hex_class_ascii]. Qed.

Lemma token_regex_ascii : alphabet_in (byte_in 0 127) token_regex = true.
Proof.
  apply alphabet_cat; [vm_compute; reflexivity|]. apply alphabet_upto. vm_compute. reflexivity.
Qed.

Lemma uuid_ascii s : uuidPattern s = true -> valid_string s = true.
Proof. intros H. apply ascii_valid. exact (matches_alphabet _ _ _ uuid_regex_ascii H). Qed.

Lemma digest_ascii s : digestPattern s = true -> valid_string s = true.
Proof. intros H. apply ascii_valid. exact (matches_alphabet _ _ _ digest_regex_ascii H). Qed.

Lemma token_ascii s : tokenPattern s = true -> valid_string s = true.
Proof. intros H. apply ascii_valid. exact (matches_alphabet _ _ _ token_regex_ascii H). Qed.

#[export] Hint Resolve uuid_ascii digest_ascii token_ascii parse_timestamp_valid : coh.

(** Digests and tokens contain no NUL, the separator of the hashed messages. *)
Definition nul_free (s : string) : Prop := str_forallb (fun c => negb (Ascii.eqb c NUL)) s = true.

Lemma bytes_nul_free s : str_forallb (byte_in 1 127) s = true -> nul_free s.
Proof.
  apply str_forallb_impl. intros c. unfold byte_in, in_range. rewrite andb_true_iff, !Z.leb_le.
  intros [Hc _]. apply negb_true_iff, Ascii.eqb_neq. intros ->. vm_compute in Hc. by apply Hc.
Qed.

Lemma hex_class_nul_free : alphabet_in (byte_in 1 127) hex_class = true.
Proof. vm_compute. reflexivity. Qed.

Lemma digest_nul_free s : digestPattern s = true -> nul_free s.
Proof.
  intros H. apply bytes_nul_free. refine (matches_alphabet _ digest_regex _ _ H).
  apply alphabet_cat; [vm_compute; reflexivity | apply alphabet_times, hex_class_nul_free].
Qed.

Lemma token_nul_free s : tokenPattern s = true -> nul_free s.
Proof.
  intros H. apply bytes_nul_free. refine (matches_alphabet _ token_regex _ _ H).
  apply alphabet_cat; [vm_compute; reflexivity|]. apply alphabet_upto. vm_compute. reflexivity.
Qed.

Lemma token_nonempty s : tokenPattern s = true -> s <> "".
Proof. by intros H ->. Qed.

(** *** Decimal text of an unsigned number is a canonical integer *)

Lemma string_of_uint_digits d :
  str_forallb is_digit (DecimalString.NilEmpty.string_of_uint d) = true.
Proof. induction d; cbn; done. Qed.

Lemma to_uint_canonical n : n <> 0%N ->
  exists c s, DecimalString.NilEmpty.string_of_uint (N.to_uint n) = String c s /\ c <> "0"%char.
Proof.
  intros Hn. pose proof (DecimalN.Unsigned.to_of (N.to_uint n)) as H.
  rewrite DecimalN.Unsigned.of_to in H.
  destruct (N.to_uint n) eqn:E; try (by exfalso); try (eexists _, _; by split).
  exfalso.
  assert (Hu : forall d, match Decimal.nzhead d with Decimal.D0 _ => False | _ => True end)
    by (intros d; induction d; cbn; done).
  unfold Decimal.unorm in H. cbn in H. specialize (Hu u).
  destruct (Decimal.nzhead u) eqn:Eu; try done.
  injection H as ->.
  apply (f_equal N.of_uint) in E. rewrite DecimalN.Unsigned.of_to in E. done.
Qed.

Lemma format_uint_canonical n : canonicalInteger (format_uint n) = true.
Proof.
  unfold format_uint. destruct (decide (Z.to_N n = 0%N)) as [->|Hn]; [done|].
  destruct (to_uint_canonical _ Hn) as (c & s & Hs & Hc).
  pose proof (string_of_uint_digits (N.to_uint (Z.to_N n))) as Hd.
  assert (DecimalString.NilZero.string_of_uint (N.to_uint (Z.to_N n)) = String c s) as ->.
  { unfold DecimalString.NilZero.string_of_uint. by destruct (N.to_uint (Z.to_N n)). }
  rewrite Hs in Hd. unfold canonicalInteger.
  destruct (String.eqb (String c s) "0"); [done|].
  assert (Ascii.eqb c "-" = false) as ->.
  { cbn in Hd. apply andb_true_iff in Hd as [Hd _]. by destruct (Ascii.eqb_spec c "-") as [->|]. }
  rewrite Hd, andb_true_r. apply negb_true_iff. by apply Ascii.eqb_neq.
Qed.

Lemma format_int_canonical n : canonicalInteger (format_int n) = true.
Proof.
  unfold format_int. destruct (Z.ltb_spec n 0); [|apply format_uint_canonical].
  destruct (to_uint_canonical (Z.to_N (- n))) as (c & s & Hs & Hc); [lia|].
  pose proof (string_of_uint_digits (N.to_uint (Z.to_N (- n)))) as Hd. unfold format_uint.
  assert (DecimalString.NilZero.string_of_uint (N.to_uint (Z.to_N (- n))) = String c s) as ->.
  { unfold DecimalString.NilZero.string_of_uint. by destruct (N.to_uint (Z.to_N (- n))). }
  rewrite Hs in Hd. cbn in Hd |- *. rewrite Hd, andb_true_r. apply negb_true_iff. by apply Ascii.eqb_neq.
Qed.

Lemma to_uint_not_nil n : N.to_uint n <> Decimal.Nil.
Proof.
  intros E. pose proof E as E'. apply (f_equal N.of_uint) in E'.
  rewrite DecimalN.Unsigned.of_to in E'. by rewrite E' in E.
Qed.

Lemma format_uint_inj m n : 0 <= m -> 0 <= n -> format_uint m = format_uint n -> m = n.
Proof.
  unfold format_uint. intros Hm Hn Heq.
  apply (f_equal DecimalString.NilZero.uint_of_string) in Heq.
  rewrite !DecimalString.NilZero.usu in Heq by apply to_uint_not_nil.
  injection Heq as Heq. apply (f_equal N.of_uint) in Heq.
  rewrite !DecimalN.Unsigned.of_to in Heq. lia.
Qed.

#[global] Opaque format_uint uuidPattern tokenPattern digestPattern.

(** ** Shared facts *)

(** A word of a vocabulary is text. *)
Lemma word_valid (words : list string) s : forallb valid_string words = true ->
  existsb (String.eqb s) words = true -> valid_string s = true.
Proof.
  rewrite forallb_forall. intros H (w & Hw & Heq)%existsb_exists. apply String.eqb_eq in Heq as ->. by apply H.
Qed.

Lemma u64_is_u64 z : is_u64 (u64 z).
Proof. unfold is_u64, u64. apply Z.mod_pos_bound. lia. Qed.
