(* ===== verification/GoStruct.v ===== *)
(** * [encoding/json] on structs

    [json.Marshal] of a struct and [Decoder.Decode] into one, by reflection: a Go type is
    a [gtype], a value of it a [gval] whose struct fields are in declaration order, and
    [encode] and [decode] walk the type as the package does.

    [decode] is [Decode] with [DisallowUnknownFields] on input whose value is already
    known ([DecodeUnique] reads the same bytes first): a key selects the field of exactly
    that name, or else the first field whose name is equal under the case folding of the
    package; [null] clears a slice or a pointer and leaves every other field
    alone; a nil pointer is allocated when its field is present; a number becomes an
    integer when [strconv.ParseUint], or [strconv.ParseInt] for a signed field, takes its text.  Errors are all one: every
    caller of [Decode] in the harness replaces the error.  An element that decodes into a
    slice which an earlier, case-variant key of the same field had already filled keeps
    what it held when the new element is [null]; storage beyond the slice's length is not
    modelled. *)

From S2P Require Import Prelude GoStrings GoJson DomainContract Sha256 GoRegexp GoTime Domain.

Local Open Scope string_scope.
Local Open Scope Z_scope.

(** The tag [json:"name,omitempty"] and the type of each field *)
Inductive gtype : Type :=
| TString
| TBool
| TUint (bits : Z)
| TSlice (elem : gtype)
| TPtr (elem : gtype)
| TStruct (fields : list (string * bool * gtype))
| TInt (bits : Z).

(** A nil slice is not an empty slice: they are encoded as [null] and [[]]. *)
Inductive gval : Type :=
| VStr (s : string)
| VBool (b : bool)
| VUint (n : Z)
| VSlice (items : option (list gval))
| VPtr (target : option gval)
| VStruct (fields : list gval)
| VInt (n : Z).

Fixpoint zero_val (t : gtype) : gval :=
  match t with
  | TString => VStr ""
  | TBool => VBool false
  | TUint _ => VUint 0
  | TSlice _ => VSlice None
  | TPtr _ => VPtr None
  | TStruct fs => VStruct (map (fun f => zero_val (snd f)) fs)
  | TInt _ => VInt 0
  end.

(** ** Marshal *)

(** [isEmptyValue] *)
Definition is_empty (v : gval) : bool :=
  match v with
  | VStr s => String.eqb s ""
  | VBool b => negb b
  | VUint n | VInt n => n =? 0
  | VSlice None | VSlice (Some []) | VPtr None => true
  | VSlice _ | VPtr _ | VStruct _ => false
  end.

Fixpoint encode (t : gtype) (v : gval) {struct t} : json :=
  match t, v with
  | TString, VStr s => JStr s
  | TBool, VBool b => JBool b
  | TUint _, VUint n => json_uint n
  | TInt _, VInt n => json_int n
  | TSlice t', VSlice (Some l) => JArr (map (encode t') l)
  | TPtr t', VPtr (Some v') => encode t' v'
  | TStruct fs, VStruct vs =>
      JObj ((fix go (fs : list (string * bool * gtype)) (vs : list gval) : list (string * json) :=
        match fs, vs with
        | (name, omitempty, t') :: fs', v' :: vs' =>
            let members := go fs' vs' in
            if omitempty && is_empty v' then members else (name, encode t' v') :: members
        | _, _ => []
        end) fs vs)
  | _, _ => JNull
  end.

Fixpoint encode_fields (fs : list (string * bool * gtype)) (vs : list gval) : list (string * json) :=
  match fs, vs with
  | (name, omitempty, t) :: fs', v :: vs' =>
      let members := encode_fields fs' vs' in
      if omitempty && is_empty v then members else (name, encode t v) :: members
  | _, _ => []
  end.

(** ** Decode *)

(** [strconv.ParseUint(s, 10, bits)] *)
Definition parse_uint (bits : Z) (s : string) : option Z :=
  match s with
  | EmptyString => None
  | _ => n ← digits_val 0 s; if n <? 2 ^ bits then Some n else None
  end.

(** [strconv.ParseInt(s, 10, bits)]; JSON has no number that starts with a plus sign. *)
Definition parse_int (bits : Z) (s : string) : option Z :=
  match s with
  | String "-" s' => n ← parse_uint bits s'; if n <=? 2 ^ (bits - 1) then Some (- n) else None
  | _ => n ← parse_uint bits s; if n <? 2 ^ (bits - 1) then Some n else None
  end.

(** [foldName], on the runes that fold to a rune of an ASCII name: the lower case
    letters, the long s and the Kelvin sign.  Any other rune folds to a rune that is in no
    field name of the harness. *)
Definition fold_rune (c : option Z * string) : string :=
  match c with
  | (Some r, raw) =>
      if in_range 97 122 r then String (byte_of (r - 32)) ""
      else if r =? 383 then "S"
      else if r =? 8490 then "K"
      else raw
  | (None, raw) => raw
  end.
Definition fold_name (s : string) : string :=
  foldr (fun c acc => fold_rune c ++ acc) "" (utf8_chunks s).

Fixpoint find_index {A} (p : A -> bool) (i : nat) (l : list A) : option nat :=
  match l with
  | [] => None
  | x :: l' => if p x then Some i else find_index p (S i) l'
  end.

(** The field a key selects *)
Definition select_field (fs : list (string * bool * gtype)) (key : string) : option nat :=
  match find_index (fun f => String.eqb (fst (fst f)) key) 0 fs with
  | Some i => Some i
  | None => find_index (fun f => String.eqb (fold_name (fst (fst f))) (fold_name key)) 0 fs
  end.

(** [indirect]: the type and the value behind the pointers, which are allocated where they
    are nil, and how the pointers are put back *)
Fixpoint indirect (t : gtype) (old : gval) : gtype * gval * (gval -> gval) :=
  match t with
  | TPtr t' =>
      let '(base, held, wrap) :=
        indirect t' (match old with VPtr (Some v) => v | _ => zero_val t' end) in
      (base, held, fun v => VPtr (Some (wrap v)))
  | _ => (t, old, fun v => v)
  end.

Fixpoint decode (j : json) (t : gtype) (old : gval) {struct j} : option gval :=
  match j with
  | JNull =>
      match t with
      | TSlice _ => Some (VSlice None)
      | TPtr _ => Some (VPtr None)
      | _ => Some old
      end
  | JBool b =>
      match indirect t old with
      | (TBool, _, wrap) => Some (wrap (VBool b))
      | _ => None
      end
  | JNum s =>
      match indirect t old with
      | (TUint bits, _, wrap) => n ← parse_uint bits s; Some (wrap (VUint n))
      | (TInt bits, _, wrap) => n ← parse_int bits s; Some (wrap (VInt n))
      | _ => None
      end
  | JStr s =>
      match indirect t old with
      | (TString, _, wrap) => Some (wrap (VStr s))
      | _ => None
      end
  | JArr l =>
      match indirect t old with
      | (TSlice t', held, wrap) =>
          let kept := match held with VSlice (Some items) => items | _ => [] end in
          items ← (fix go (l : list json) (kept : list gval) : option (list gval) :=
            match l with
            | [] => Some []
            | x :: l' =>
                v ← decode x t' (match kept with h :: _ => h | [] => zero_val t' end);
                vs ← go l' (tail kept);
                Some (v :: vs)
            end) l kept;
          Some (wrap (VSlice (Some items)))
      | _ => None
      end
  | JObj ms =>
      match indirect t old with
      | (TStruct fs, VStruct vs, wrap) =>
          vs' ← (fix go (ms : list (string * json)) (vs : list gval) : option (list gval) :=
            match ms with
            | [] => Some vs
            | (key, x) :: ms' =>
                i ← select_field fs key;
                f ← fs !! i;
                kept ← vs !! i;
                v ← decode x (snd f) kept;
                go ms' (<[i := v]> vs)
            end) ms vs;
          Some (wrap (VStruct vs'))
      | _ => None
      end
  end.

Fixpoint decode_items (t : gtype) (l : list json) (held : list gval) : option (list gval) :=
  match l with
  | [] => Some []
  | x :: l' =>
      v ← decode x t (match held with h :: _ => h | [] => zero_val t end);
      vs ← decode_items t l' (tail held);
      Some (v :: vs)
  end.

Fixpoint decode_members (fs : list (string * bool * gtype)) (ms : list (string * json)) (vs : list gval)
  : option (list gval) :=
  match ms with
  | [] => Some vs
  | (key, x) :: ms' =>
      i ← select_field fs key;
      f ← fs !! i;
      held ← vs !! i;
      v ← decode x (snd f) held;
      decode_members fs ms' (<[i := v]> vs)
  end.

(** ** Well-typed values *)

(** No two fields of a struct have the same name, the names are valid UTF-8, and a pointer
    points to a value that is not encoded as [null]. *)
Fixpoint type_ok (t : gtype) : bool :=
  match t with
  | TString | TBool => true
  | TUint bits => 0 <=? bits
  | TInt bits => 1 <=? bits
  | TSlice t' => type_ok t'
  | TPtr t' => match t' with TSlice _ | TPtr _ => false | _ => type_ok t' end
  | TStruct fs =>
      forallb (fun f => valid_string (fst (fst f)) && type_ok (snd f)) fs &&
      bool_decide (NoDup (map (fun f => fst (fst f)) fs))
  end.

(** The value has the type, its strings are valid UTF-8, its integers fit, and no field
    with [omitempty] is an empty slice that is not nil. *)
Fixpoint val_ok (t : gtype) (v : gval) {struct t} : bool :=
  match t, v with
  | TString, VStr s => valid_string s
  | TBool, VBool _ => true
  | TUint bits, VUint n => (0 <=? n) && (n <? 2 ^ bits)
  | TInt bits, VInt n => (- 2 ^ (bits - 1) <=? n) && (n <? 2 ^ (bits - 1))
  | TSlice t', VSlice None => true
  | TSlice t', VSlice (Some l) => forallb (val_ok t') l
  | TPtr t', VPtr None => true
  | TPtr t', VPtr (Some v') => val_ok t' v'
  | TStruct fs, VStruct vs =>
      (fix go (fs : list (string * bool * gtype)) (vs : list gval) : bool :=
        match fs, vs with
        | [], [] => true
        | (_, omitempty, t') :: fs', v' :: vs' =>
            val_ok t' v' &&
            negb (omitempty && match v' with VSlice (Some []) => true | _ => false end) && go fs' vs'
        | _, _ => false
        end) fs vs
  | _, _ => false
  end.

Fixpoint fields_ok (fs : list (string * bool * gtype)) (vs : list gval) : bool :=
  match fs, vs with
  | [], [] => true
  | (_, omitempty, t) :: fs', v :: vs' =>
      val_ok t v && negb (omitempty && match v with VSlice (Some []) => true | _ => false end) &&
      fields_ok fs' vs'
  | _, _ => false
  end.

(** How deep objects and arrays nest below a value of the type *)
Fixpoint type_depth (t : gtype) : nat :=
  match t with
  | TString | TBool | TUint _ | TInt _ => 0
  | TSlice t' => S (type_depth t')
  | TPtr t' => type_depth t'
  | TStruct fs => S (foldr (fun f n => max (type_depth (snd f)) n) 0%nat fs)
  end.

Lemma encode_struct fs vs : encode (TStruct fs) (VStruct vs) = JObj (encode_fields fs vs).
Proof. reflexivity. Qed.

Lemma decode_obj ms t old : decode (JObj ms) t old =
  match indirect t old with
  | (TStruct fs, VStruct vs, wrap) => vs' ← decode_members fs ms vs; Some (wrap (VStruct vs'))
  | _ => None
  end.
Proof.
  cbn [decode]. destruct (indirect t old) as [[[] []] wrap]; try done.
  match goal with |- (?f ms ?vs ≫= _) = _ => set (go := f) end.
  assert (Hgo : forall ms vs, go ms vs = decode_members fields ms vs); [|by rewrite Hgo].
  clear ms. induction ms as [|[k x] ms IH]; intros vs; [done|]. cbn.
  destruct (select_field fields k) as [i|]; [|done]. cbn.
  destruct (fields !! i) as [f|]; [|done]. cbn. destruct (vs !! i) as [h|]; [|done]. cbn.
  destruct (decode x (snd f) h); [|done]. apply IH.
Qed.

Lemma decode_arr l t old : decode (JArr l) t old =
  match indirect t old with
  | (TSlice t', held, wrap) =>
      items ← decode_items t' l (match held with VSlice (Some items) => items | _ => [] end);
      Some (wrap (VSlice (Some items)))
  | _ => None
  end.
Proof.
  cbn [decode]. destruct (indirect t old) as [[[] held] wrap]; try done.
  match goal with |- (?f l ?h ≫= _) = _ => set (go := f); set (kept := h) end.
  assert (Hgo : forall l kept, go l kept = decode_items elem l kept); [|by rewrite Hgo].
  clear l kept. induction l as [|x l IH]; intros kept; [done|]. cbn.
  destruct (decode x elem _); [|done]. cbn. by rewrite IH.
Qed.

Lemma decode_struct fs ms vs :
  decode (JObj ms) (TStruct fs) (VStruct vs) = (vs' ← decode_members fs ms vs; Some (VStruct vs')).
Proof. by rewrite decode_obj. Qed.

Lemma decode_slice t l old :
  decode (JArr l) (TSlice t) old =
  (items ← decode_items t l (match old with VSlice (Some items) => items | _ => [] end);
   Some (VSlice (Some items))).
Proof. by rewrite decode_arr. Qed.

Lemma val_ok_struct fs vs : val_ok (TStruct fs) (VStruct vs) = fields_ok fs vs.
Proof. reflexivity. Qed.

(** ** Decoding what was encoded *)

Section gtype_ind.
Variable P : gtype -> Prop.
Hypothesis Hstring : P TString.
Hypothesis Hbool : P TBool.
Hypothesis Huint : forall bits, P (TUint bits).
Hypothesis Hint : forall bits, P (TInt bits).
Hypothesis Hslice : forall t, P t -> P (TSlice t).
Hypothesis Hptr : forall t, P t -> P (TPtr t).
Hypothesis Hstruct : forall fs, Forall (fun f => P (snd f)) fs -> P (TStruct fs).

Fixpoint gtype_nested_ind (t : gtype) : P t :=
  match t with
  | TString => Hstring
  | TBool => Hbool
  | TUint bits => Huint bits
  | TInt bits => Hint bits
  | TSlice t' => Hslice t' (gtype_nested_ind t')
  | TPtr t' => Hptr t' (gtype_nested_ind t')
  | TStruct fs => Hstruct fs ((fix go (fs : list (string * bool * gtype)) : Forall (fun f => P (snd f)) fs :=
      match fs with
      | [] => Forall_nil_2 _
      | f :: fs' => Forall_cons_2 _ _ _ (gtype_nested_ind (snd f)) (go fs')
      end) fs)
  end.
End gtype_ind.

Definition field_name (f : string * bool * gtype) : string := fst (fst f).

Lemma find_index_lookup {A} (p : A -> bool) (l : list A) i x :
  (forall j y, l !! j = Some y -> p y = true -> j = i) -> l !! i = Some x -> p x = true ->
  forall k, find_index p k l = Some (k + i)%nat.
Proof.
  revert i. induction l as [|y l IH]; intros i Huniq Hi Hp k; [done|]. cbn.
  destruct (p y) eqn:Hy.
  - rewrite <- (Huniq 0%nat y); [f_equal; lia|done|done].
  - destruct i as [|i]; cbn in Hi; [congruence|].
    rewrite (IH i); [f_equal; lia | | done | done].
    intros j z Hj Hz. specialize (Huniq (S j) z Hj Hz). lia.
Qed.

Lemma select_field_exact fs i f :
  NoDup (map field_name fs) -> fs !! i = Some f -> select_field fs (field_name f) = Some i.
Proof.
  intros Hnd Hi. unfold select_field.
  rewrite (find_index_lookup _ fs i f); [done| |done|by apply String.eqb_refl].
  intros j y Hj Hy. apply String.eqb_eq in Hy.
  eapply (NoDup_lookup (map field_name fs)); [done| |].
  - by rewrite list_lookup_fmap, Hj.
  - rewrite list_lookup_fmap, Hi. cbn. by f_equal.
Qed.

(** The members of an encoded struct, one by one *)
Lemma encode_fields_elem fs vs k j :
  (k, j) ∈ encode_fields fs vs ->
  exists i f v, fs !! i = Some f /\ vs !! i = Some v /\ k = field_name f /\ j = encode (snd f) v.
Proof.
  revert vs. induction fs as [|[[name om] t] fs IH]; intros [|v vs]; cbn; try (intros H; by apply not_elem_of_nil in H).
  intros H. destruct (om && is_empty v); [|apply elem_of_cons in H as [[= -> ->]|H]].
  - destruct (IH _ H) as (i & f & w & ?). by exists (S i), f, w.
  - by exists 0%nat, (name, om, t), v.
  - destruct (IH _ H) as (i & f & w & ?). by exists (S i), f, w.
Qed.

Lemma encode_fields_names fs vs : map fst (encode_fields fs vs) `sublist_of` map field_name fs.
Proof.
  revert vs. induction fs as [|[[name om] t] fs IH]; intros [|v vs]; cbn; try by apply sublist_nil_l.
  destruct (om && is_empty v); [by apply sublist_cons | by apply sublist_skip].
Qed.

Lemma encode_fields_omitted fs vs i f v :
  NoDup (map field_name fs) -> fields_ok fs vs = true ->
  fs !! i = Some f -> vs !! i = Some v -> field_name f ∉ map fst (encode_fields fs vs) ->
  v = zero_val (snd f).
Proof.
  revert vs i. induction fs as [|[[name om] t] fs IH]; intros [|w vs] i Hnd Hok Hf Hv Hno; try done.
  cbn in Hnd. apply NoDup_cons in Hnd as [Hn Hnd]. cbn [fields_ok] in Hok. bool_split.
  cbn in Hno. destruct i as [|i]; cbn in Hf, Hv.
  - injection Hf as <-. injection Hv as ->. cbn in Hno.
    destruct (om && is_empty v) eqn:Ho; [|cbn in Hno; set_solver].
    apply andb_true_iff in Ho as [-> He]. cbn.
    destruct t, v as [s|[]|n|[[|? ?]|]|[?|]| |]; cbn in *; try done.
    + by apply String.eqb_eq in He as ->.
    + by apply Z.eqb_eq in He as ->.
    + by apply Z.eqb_eq in He as ->.
  - eapply (IH vs i); try done. destruct (om && is_empty w); [done|]. cbn in Hno. set_solver.
Qed.

(** Encoded values come back from [Marshal]'s text in declaration order and from canonical
    text with sorted keys. *)
Definition arrange (sorted : bool) (v : json) : json := if sorted then sort_json v else v.

Definition round_trips (t : gtype) : Prop := forall sorted v,
  type_ok t = true -> val_ok t v = true -> decode (arrange sorted (encode t v)) t (zero_val t) = Some v.

Lemma arrange_arr sorted l : arrange sorted (JArr l) = JArr (map (arrange sorted) l).
Proof. destruct sorted; cbn; [done|]. by rewrite map_id. Qed.

Lemma arrange_scalar sorted v : scalar v = true -> arrange sorted v = v.
Proof. by destruct sorted, v. Qed.

Lemma arrange_members sorted ms :
  exists ms', arrange sorted (JObj ms) = JObj ms' /\ ms' ≡ₚ map (fun kv => (fst kv, arrange sorted (snd kv))) ms.
Proof.
  destruct sorted; cbn; eexists; (split; [done|]); [apply sort_keys_perm|].
  change map with (@fmap list list_fmap). rewrite (list_fmap_ext _ id), list_fmap_id; [done|]. intros i [k x] _. done.
Qed.

Lemma decode_items_encode t l : round_trips t -> type_ok t = true -> forallb (val_ok t) l = true ->
  forall sorted, decode_items t (map (arrange sorted) (map (encode t) l)) [] = Some l.
Proof.
  intros Ht Hok Hl sorted. induction l as [|v l IH]; [done|]. cbn in *. bool_split.
  rewrite Ht by done. cbn. by rewrite IH.
Qed.

(** Decoding members one after the other, in any order, fills in exactly their fields. *)
Lemma decode_members_fill fs vs ms : NoDup (map field_name fs) -> length vs = length fs ->
  NoDup (map fst ms) ->
  (forall k j, (k, j) ∈ ms -> exists i f v, fs !! i = Some f /\ vs !! i = Some v /\ k = field_name f /\
     decode j (snd f) (zero_val (snd f)) = Some v) ->
  forall cur, length cur = length fs ->
  (forall i f, fs !! i = Some f -> field_name f ∈ map fst ms -> cur !! i = Some (zero_val (snd f))) ->
  exists res, decode_members fs ms cur = Some res /\ length res = length fs /\
    forall i f, fs !! i = Some f ->
      res !! i = if bool_decide (field_name f ∈ map fst ms) then vs !! i else cur !! i.
Proof.
  intros Hnd Hlen. induction ms as [|[k j] ms IH]; intros Hms Hdec cur Hcur Hzero.
  { by exists cur. }
  cbn in Hms. apply NoDup_cons in Hms as [Hk Hms].
  destruct (Hdec k j) as (i & f & v & Hf & Hv & -> & Hj); [by left|].
  cbn [decode_members]. rewrite (select_field_exact fs i f) by done. cbn. rewrite Hf. cbn.
  rewrite (Hzero i f Hf) by (by left). cbn. rewrite Hj. cbn.
  assert (Hi : (i < length cur)%nat) by (rewrite Hcur; by eapply lookup_lt_Some).
  assert (Hother : forall i' f', fs !! i' = Some f' -> i' <> i -> field_name f' <> field_name f).
  { intros i' f' Hf' Hne Heq. apply Hne.
    eapply (NoDup_lookup (map field_name fs)); [done| |]; rewrite list_lookup_fmap.
    - by rewrite Hf'. - rewrite Hf. cbn. by f_equal. }
  destruct (IH Hms (fun k j H => Hdec k j (list_elem_of_further _ _ _ H)) (<[i:=v]> cur)) as (res & Hres & Hl & Hat).
  - by rewrite length_insert.
  - intros i' f' Hf' Hin. destruct (decide (i' = i)) as [->|Hne].
    { rewrite Hf in Hf'. injection Hf' as <-. done. }
    rewrite list_lookup_insert_ne by done. apply Hzero; [done|by right].
  - exists res. split_and!; [done|done|]. intros i' f' Hf'. rewrite (Hat i' f' Hf').
    destruct (decide (i' = i)) as [->|Hne].
    + rewrite Hf in Hf'. injection Hf' as <-.
      rewrite bool_decide_false by done. rewrite bool_decide_true by (by left).
      by rewrite list_lookup_insert_eq.
    + rewrite list_lookup_insert_ne by done. specialize (Hother i' f' Hf' Hne).
      erewrite bool_decide_ext; [done|]. cbn. set_solver.
Qed.

Lemma fields_ok_length fs vs : fields_ok fs vs = true -> length vs = length fs.
Proof.
  revert vs. induction fs as [|[[? ?] ?] fs IH]; intros [|v vs]; cbn; try done.
  intros H. bool_split. by rewrite IH.
Qed.

Lemma fields_ok_lookup fs vs i f v : fields_ok fs vs = true -> fs !! i = Some f -> vs !! i = Some v ->
  val_ok (snd f) v = true.
Proof.
  revert vs i. induction fs as [|[[? ?] ?] fs IH]; intros [|w vs] i; cbn; try done.
  intros H. bool_split. destruct i as [|i]; cbn; [by intros [= <-] [= <-] | by apply IH].
Qed.

Lemma digits_val_acc d p :
  digits_val (Zpos p) (DecimalString.NilEmpty.string_of_uint d) = Some (Zpos (Pos.of_uint_acc d p)).
Proof.
  revert p. induction d; intros p; [done|..];
    cbn [DecimalString.NilEmpty.string_of_uint digits_val Pos.of_uint_acc];
    match goal with |- context [is_digit ?c] => change (is_digit c) with true end; cbn iota;
    rewrite <- IHd; f_equal; unfold digit_val; vm_compute byte_val; lia.
Qed.

Lemma digits_val_uint d :
  digits_val 0 (DecimalString.NilEmpty.string_of_uint d) = Some (Z.of_N (N.of_uint d)).
Proof.
  induction d; [done|..]; cbn [DecimalString.NilEmpty.string_of_uint digits_val];
    match goal with |- context [is_digit ?c] => change (is_digit c) with true end; cbn iota; [exact IHd|..];
    exact (digits_val_acc _ _).
Qed.

Lemma parse_format_uint bits n : 0 <= n < 2 ^ bits -> parse_uint bits (format_uint n) = Some n.
Proof.
  intros Hn. Transparent format_uint. unfold format_uint. Opaque format_uint.
  assert (Hs : DecimalString.NilZero.string_of_uint (N.to_uint (Z.to_N n)) =
               DecimalString.NilEmpty.string_of_uint (N.to_uint (Z.to_N n))).
  { unfold DecimalString.NilZero.string_of_uint. pose proof (to_uint_not_nil (Z.to_N n)).
    by destruct (N.to_uint (Z.to_N n)). }
  rewrite Hs. pose proof (digits_val_uint (N.to_uint (Z.to_N n))) as Hd.
  rewrite DecimalN.Unsigned.of_to, Z2N.id in Hd by lia. unfold parse_uint.
  destruct (DecimalString.NilEmpty.string_of_uint _) eqn:E.
  - pose proof (to_uint_not_nil (Z.to_N n)). by destruct (N.to_uint (Z.to_N n)).
  - rewrite Hd. cbn. by destruct (Z.ltb_spec n (2 ^ bits)); [|lia].
Qed.

Lemma digits_val_nonneg s : forall acc n, 0 <= acc -> digits_val acc s = Some n -> 0 <= n.
Proof.
  induction s as [|c s IH]; cbn; intros acc n Hacc H; [by injection H as <-|].
  destruct (is_digit c) eqn:Hc; [|done]. apply (IH _ _) in H; [done|].
  unfold is_digit, byte_in, in_range, digit_val in *. bool_split. lia.
Qed.

Lemma parse_uint_ok bits s n : parse_uint bits s = Some n -> val_ok (TUint bits) (VUint n) = true.
Proof.
  unfold parse_uint. destruct s; [done|]. intros (m & Hm & H)%opt_bind_inv.
  destruct (Z.ltb_spec m (2 ^ bits)); [|done]. injection H as ->. cbn.
  apply digits_val_nonneg in Hm; [|lia]. apply andb_true_iff. rewrite Z.leb_le, Z.ltb_lt. lia.
Qed.

Lemma parse_format_int bits n : - 2 ^ (bits - 1) <= n < 2 ^ (bits - 1) -> 1 <= bits -> parse_int bits (format_int n) = Some n.
Proof.
  intros Hn Hb. assert (Hp : 2 ^ bits = 2 * 2 ^ (bits - 1)) by (rewrite <- Z.pow_succ_r by lia; f_equal; lia).
  assert (0 < 2 ^ (bits - 1)) by (apply Z.pow_pos_nonneg; lia). unfold format_int. destruct (Z.ltb_spec n 0).
  - cbn. rewrite parse_format_uint by lia. cbn. destruct (Z.leb_spec (- n) (2 ^ (bits - 1))); [|lia]. f_equal. lia.
  - unfold parse_int. pose proof (format_uint_canonical n) as Hc. pose proof (parse_format_uint bits n) as Hf.
    assert (Hcases : forall s : string, parse_uint bits s = Some n -> match s with String "-" _ => False | _ => True end).
    { intros [|c s] Hs; [done|]. unfold parse_uint in Hs. cbn in Hs. destruct (is_digit c) eqn:Hd; [|done].
      destruct (Ascii.eqb_spec c "-") as [->|Hne]; [done|]. by destruct c as [[] [] [] [] [] [] [] []]. }
    specialize (Hcases _ (Hf ltac:(lia))).
    assert (Hgo : (n0 ← parse_uint bits (format_uint n); if n0 <? 2 ^ (bits - 1) then Some n0 else None) = Some n).
    { rewrite Hf by lia. cbn. by destruct (Z.ltb_spec n (2 ^ (bits - 1))); [|lia]. }
    destruct (format_uint n) as [|c s]; [done|]. by destruct c as [[] [] [] [] [] [] [] []].
Qed.

Lemma parse_int_ok bits s n : 1 <= bits -> parse_int bits s = Some n -> val_ok (TInt bits) (VInt n) = true.
Proof.
  intros Hb H. assert (0 < 2 ^ (bits - 1)) by (apply Z.pow_pos_nonneg; lia).
  assert (Hcases : (exists m, parse_uint bits s = Some m /\ m < 2 ^ (bits - 1) /\ n = m) \/
    exists s' m, parse_uint bits s' = Some m /\ m <= 2 ^ (bits - 1) /\ n = - m).
  { assert (Hgo : (m ← parse_uint bits s; if m <? 2 ^ (bits - 1) then Some m else None) = Some n ->
      exists m, parse_uint bits s = Some m /\ m < 2 ^ (bits - 1) /\ n = m).
    { intros (m & Hm & Hif)%opt_bind_inv. exists m. destruct (Z.ltb_spec m (2 ^ (bits - 1))); [|done]. by injection Hif as ->. }
    unfold parse_int in H. destruct s as [|c s]; [left; by apply Hgo|]. destruct (Ascii.eqb_spec c "-") as [->|Hne].
    - right. apply opt_bind_inv in H as (m & Hm & Hif). exists s, m. destruct (Z.leb_spec m (2 ^ (bits - 1))); [|done].
      by injection Hif as <-.
    - left. apply Hgo. by destruct c as [[] [] [] [] [] [] [] []]. }
  cbn. apply andb_true_iff. rewrite Z.leb_le, Z.ltb_lt.
  destruct Hcases as [(m & Hm%parse_uint_ok & ? & ->)|(s' & m & Hm%parse_uint_ok & ? & ->)]; cbn in Hm; bool_split; lia.
Qed.

Lemma type_ok_nodup fs : type_ok (TStruct fs) = true -> NoDup (map field_name fs).
Proof. cbn. intros H. bool_split. by apply bool_decide_eq_true in H0. Qed.

Lemma type_ok_field fs i f : type_ok (TStruct fs) = true -> fs !! i = Some f ->
  valid_string (field_name f) = true /\ type_ok (snd f) = true.
Proof.
  cbn. intros H Hf. apply andb_true_iff in H as [H _]. rewrite forallb_forall in H.
  by apply andb_true_iff, H, list_elem_of_In, (list_elem_of_lookup_2 _ i).
Qed.

Lemma decode_fields_encode fs vs sorted : Forall (fun f => round_trips (snd f)) fs ->
  type_ok (TStruct fs) = true -> fields_ok fs vs = true ->
  decode (arrange sorted (JObj (encode_fields fs vs))) (TStruct fs) (zero_val (TStruct fs)) = Some (VStruct vs).
Proof.
  intros Hrt Htype Hok. pose proof (type_ok_nodup _ Htype) as Hnd.
  pose proof (fields_ok_length _ _ Hok) as Hlen.
  destruct (arrange_members sorted (encode_fields fs vs)) as (ms & -> & Hperm).
  assert (Hkeys : map fst ms ≡ₚ map fst (encode_fields fs vs)).
  { rewrite (fmap_Permutation fst _ _ Hperm). by rewrite <- list_fmap_compose. }
  cbn [zero_val]. rewrite decode_struct.
  destruct (decode_members_fill fs vs ms Hnd Hlen) with (cur := map (fun f : string * bool * gtype => zero_val (snd f)) fs)
    as (res & -> & Hl & Hat).
  - rewrite Hkeys. eapply sublist_NoDup; [done | apply encode_fields_names].
  - intros k j Hin. rewrite Hperm in Hin. apply list_elem_of_fmap in Hin as ([k' j'] & [= -> ->] & Hin).
    apply encode_fields_elem in Hin as (i & f & v & Hf & Hv & -> & ->). exists i, f, v. split_and!; try done.
    rewrite Forall_lookup in Hrt. apply (Hrt i f Hf); [by eapply type_ok_field | by eapply fields_ok_lookup].
  - by rewrite length_map.
  - intros i f Hf _. change map with (@fmap list list_fmap).  by rewrite list_lookup_fmap, Hf.
  - cbn. do 2 f_equal. apply list_eq_same_length with (length fs); [done|done|].
    intros i x y Hi Hx Hy. apply lookup_lt_is_Some in Hi as [f Hf]. rewrite (Hat i f Hf) in Hx.
    case_bool_decide as Hin; [congruence|]. change map with (@fmap list list_fmap) in Hx.
    rewrite list_lookup_fmap, Hf in Hx. injection Hx as <-.
    symmetry. eapply encode_fields_omitted; try done. by rewrite <- Hkeys.
Qed.

Lemma decode_ptr t v j : type_ok (TPtr t) = true ->
  decode j t (zero_val t) = Some v -> j <> JNull ->
  decode j (TPtr t) (VPtr None) = Some (VPtr (Some v)).
Proof.
  intros Htype Hj Hnull. destruct j; [done|..]; cbn [decode indirect zero_val] in *;
    destruct t; try done; cbn [decode indirect] in *; try (by injection Hj as <-);
    try (apply opt_bind_inv in Hj as (m & Hm & [= <-]); by rewrite Hm);
    destruct (zero_val _); try done; apply opt_bind_inv in Hj as (m & Hm & [= <-]); by rewrite Hm.
Qed.

Lemma decode_encode t : round_trips t.
Proof.
  induction t as [| |bits|bits|t IH|t IH|fs IH] using gtype_nested_ind; intros sorted v Htype Hv.
  - destruct v; try done. cbn [encode]. by rewrite arrange_scalar.
  - destruct v; try done. cbn [encode]. by rewrite arrange_scalar.
  - destruct v; try done. cbn [encode]. rewrite arrange_scalar by done. cbn in *.
    apply andb_true_iff in Hv as [?%Z.leb_le ?%Z.ltb_lt]. by rewrite parse_format_uint.
  - destruct v; try done. cbn [encode]. rewrite arrange_scalar by done. cbn in *.
    apply andb_true_iff in Hv as [?%Z.leb_le ?%Z.ltb_lt]. apply Z.leb_le in Htype. by rewrite parse_format_int.
  - destruct v as [| | |[l|]| | |]; try done; cbn [encode]; [|by rewrite arrange_scalar].
    rewrite arrange_arr, decode_slice. cbn [zero_val]. by rewrite decode_items_encode.
  - destruct v as [| | | |[v|]| |]; try done; cbn [encode zero_val]; [|by rewrite arrange_scalar].
    apply decode_ptr; [done|apply IH; [by destruct t|done]|].
    by destruct sorted, t, v.
  - destruct v as [| | | | |vs|]; try done. rewrite encode_struct. by apply decode_fields_encode.
Qed.

(** ** What is encoded is well-formed JSON *)

Lemma encode_wf t : forall v n, type_ok t = true -> val_ok t v = true -> (type_depth t <= n)%nat ->
  json_wf n (encode t v) = true.
Proof.
  induction t as [| |bits|bits|t IH|t IH|fs IH] using gtype_nested_ind; intros v n Htype Hv Hn.
  - by destruct v.
  - by destruct v.
  - destruct v; try done. apply format_uint_canonical.
  - destruct v; try done. apply format_int_canonical.
  - destruct v as [| | |[l|]| | |]; try done. cbn in *. destruct n as [|n]; [lia|].
    rewrite forallb_forall in *. intros x Hx. apply in_map_iff in Hx as (y & <- & Hy).
    apply IH; [done|by apply Hv|lia].
  - destruct v as [| | | |[v|]| |]; try done. apply IH; [by destruct t|done|done].
  - destruct v as [| | | | |vs|]; try done. rewrite encode_struct. cbn [type_depth] in Hn.
    destruct n as [|n]; [lia|]. cbn [json_wf]. rewrite val_ok_struct in Hv.
    apply andb_true_iff. split.
    + apply forallb_forall. intros [k j] Hin%list_elem_of_In.
      apply encode_fields_elem in Hin as (i & f & v & Hf & Hw & -> & ->). cbn [fst snd].
      destruct (type_ok_field _ _ _ Htype Hf) as [-> Hft]. rewrite Forall_lookup in IH.
      apply (IH i f Hf); [done|by eapply fields_ok_lookup|].
      assert (Hmax : forall l : list (string * bool * gtype), f ∈ l ->
        (type_depth (snd f) <= foldr (fun f n => max (type_depth (snd f)) n) 0 l)%nat).
      { clear. induction 1; cbn; lia. }
      specialize (Hmax fs (list_elem_of_lookup_2 _ _ _ Hf)). lia.
    + apply bool_decide_eq_true. eapply sublist_NoDup; [by apply type_ok_nodup | apply encode_fields_names].
Qed.

(** ** Canonical text of a struct *)

(** [domaincontract.Canonicalize(json.Marshal(v))] *)
Definition canonical_struct (t : gtype) (v : gval) : result contract_error string :=
  Canonicalize (marshal true (encode t v)).

(** A [json.Decoder] with [DisallowUnknownFields] reading [input] into a zero value and
    finding nothing after it.  Every caller has had [DecodeUnique] read the input, or decodes
    canonical text, so repeated keys and deep nesting do not occur here. *)
Definition decode_struct_text (t : gtype) (input : string) : option gval :=
  match read_value input with
  | Ok j => decode j t (zero_val t)
  | Err _ => None
  end.

Lemma quote_chunk_length c :
  (String.length (quote_chunk false c) <= String.length (quote_chunk true c))%nat.
Proof.
  unfold quote_chunk. destruct (fst c) as [r|]; [|done].
  destruct (r <? 128); [|done]. unfold quote_ascii. cbn [andb].
  repeat (case_match; cbn; try lia).
Qed.

Lemma quote_length s : (String.length (quote false s) <= String.length (quote true s))%nat.
Proof.
  unfold quote, quote_body. cbn. rewrite !length_append.
  apply le_n_S, Nat.add_le_mono_r.
  induction (utf8_chunks s) as [|c l IH]; [done|]. cbn. rewrite !length_append.
  pose proof (quote_chunk_length c). lia.
Qed.

Fixpoint total_length (l : list string) : nat :=
  match l with [] => 0 | x :: l' => S (String.length x) + total_length l' end.

Lemma length_comma_items l : String.length (comma_items l) = total_length l.
Proof. induction l as [|x l IH]; [done|]. cbn. rewrite length_append, IH. lia. Qed.

Lemma length_join_comma l : String.length (join_comma l) = (total_length l - 1)%nat.
Proof. destruct l as [|x l]; [done|]. cbn. rewrite length_append, length_comma_items. lia. Qed.

Lemma total_length_perm l l' : l ≡ₚ l' -> total_length l = total_length l'.
Proof. induction 1; cbn; lia. Qed.

Lemma total_length_le {A} (f g : A -> string) l :
  Forall (fun x => String.length (f x) <= String.length (g x))%nat l ->
  (total_length (map f l) <= total_length (map g l))%nat.
Proof. induction 1; cbn; lia. Qed.

(** Neither sorting the keys nor leaving the HTML characters alone makes the text longer. *)
Lemma marshal_sort_length html v : String.length (marshal html (sort_json v)) = String.length (marshal html v).
Proof.
  induction v as [| | | |l IH|l IH] using json_nested_ind; try done; cbn; f_equal;
    rewrite !length_append; f_equal; rewrite !length_join_comma; f_equal.
  - rewrite map_map. apply Nat.le_antisymm; apply total_length_le; eapply Forall_impl; try exact IH;
      cbn; intros x Hx; lia.
  - etransitivity; [apply total_length_perm, fmap_Permutation, sort_keys_perm|].
    rewrite <- list_fmap_compose. cbn [fst snd compose].
    apply Nat.le_antisymm; apply total_length_le; eapply Forall_impl; try exact IH;
      unfold compose; cbn; intros x Hx; rewrite !length_append; cbn; rewrite Hx; done.
Qed.

Lemma marshal_html_length v : (String.length (marshal false v) <= String.length (marshal true v))%nat.
Proof.
  induction v as [| | |s|l IH|l IH] using json_nested_ind; try done; cbn [marshal]; [apply quote_length|..];
    rewrite !length_append, !length_join_comma; apply Nat.add_le_mono_l, Nat.add_le_mono_r, Nat.sub_le_mono_r.
  - by apply total_length_le.
  - apply total_length_le. eapply Forall_impl; [exact IH|]. intros x Hx. cbn beta in *.
    rewrite !length_append. pose proof (quote_length (fst x)). cbn in *. lia.
Qed.

Section canonical_struct.
Context (t : gtype) (Htype : type_ok t = true) (Hdepth : (type_depth t <= 64)%nat).

Lemma canonical_struct_inv v c : val_ok t v = true -> canonical_struct t v = Ok c ->
  c = marshal false (sort_json (encode t v)) /\ len c <= MaxInputBytes.
Proof.
  intros Hv H. pose proof (encode_wf t v 64 Htype Hv Hdepth) as Hwf.
  unfold canonical_struct in H.
  assert (Hlen : len (marshal true (encode t v)) <= MaxInputBytes).
  { pose proof H as H0. unfold Canonicalize in H0. apply bind_ok in H0 as (w & Hd & _).
    unfold DecodeUnique in Hd. apply seq_ok in Hd as [Hd _]. apply deny_if_ok in Hd. bool_split. lia. }
  rewrite Canonicalize_marshal in H by done. injection H as <-. split; [done|].
  unfold len in *. rewrite marshal_sort_length. pose proof (marshal_html_length (encode t v)). lia.
Qed.

Lemma canonical_struct_ok v : val_ok t v = true -> len (marshal true (encode t v)) <= MaxInputBytes ->
  canonical_struct t v = Ok (marshal false (sort_json (encode t v))).
Proof. intros Hv Hlen. apply Canonicalize_marshal; [by apply encode_wf|done]. Qed.

(** The canonical text of a value is a fixed point of [Canonicalize], *)
Lemma canonical_struct_fixed v c : val_ok t v = true -> canonical_struct t v = Ok c ->
  Canonicalize c = Ok c.
Proof.
  intros Hv H. pose proof (encode_wf t v 64 Htype Hv Hdepth) as Hwf.
  destruct (canonical_struct_inv v c Hv H) as [-> Hlen].
  rewrite Canonicalize_marshal; [|by apply json_wf_sort|done]. by rewrite (sort_json_idemp 64).
Qed.

(** and it decodes to the value. *)
Lemma decode_canonical_struct v c : val_ok t v = true -> canonical_struct t v = Ok c ->
  decode_struct_text t c = Some v.
Proof.
  intros Hv H. pose proof (encode_wf t v 64 Htype Hv Hdepth) as Hwf.
  destruct (canonical_struct_inv v c Hv H) as [-> Hlen]. unfold decode_struct_text.
  rewrite read_value_marshal by (by apply json_wf_sort). by apply (decode_encode t true).
Qed.

Lemma canonical_struct_inj v w c : val_ok t v = true -> val_ok t w = true ->
  canonical_struct t v = Ok c -> canonical_struct t w = Ok c -> v = w.
Proof.
  intros Hv Hw Hcv Hcw. apply (decode_canonical_struct v c Hv) in Hcv.
  apply (decode_canonical_struct w c Hw) in Hcw. congruence.
Qed.
End canonical_struct.

(** ** What is decoded is well-typed

    Decoding into a type without [omitempty] fields gives a value of the type: integers
    within their width, strings valid UTF-8. *)
Fixpoint no_omit (t : gtype) : bool :=
  match t with
  | TString | TBool | TUint _ | TInt _ => true
  | TSlice t' | TPtr t' => no_omit t'
  | TStruct fs => forallb (fun f => negb (snd (fst f)) && no_omit (snd f)) fs
  end.

Definition plain_type (t : gtype) : Prop := type_ok t = true /\ no_omit t = true.

Lemma plain_field fs i f : plain_type (TStruct fs) -> fs !! i = Some f ->
  plain_type (snd f) /\ snd (fst f) = false.
Proof.
  intros [Ht Hn] Hf. destruct (type_ok_field _ _ _ Ht Hf) as [_ Hft]. cbn in Hn.
  rewrite forallb_forall in Hn. specialize (Hn f). rewrite <- list_elem_of_In in Hn.
  specialize (Hn (list_elem_of_lookup_2 _ _ _ Hf)). bool_split. done.
Qed.

Lemma plain_fields_ok fs vs : plain_type (TStruct fs) ->
  fields_ok fs vs = true <->
  length vs = length fs /\ forall i f v, fs !! i = Some f -> vs !! i = Some v -> val_ok (snd f) v = true.
Proof.
  intros Hp. split.
  { intros H. split; [by apply fields_ok_length|]. intros i f v. by apply fields_ok_lookup. }
  assert (Hom : forall i f, fs !! i = Some f -> snd (fst f) = false)
    by (intros i f Hf; by apply (plain_field fs i f)).
  clear Hp. revert vs. induction fs as [|[[name om] t] fs IH]; intros [|v vs] [Hlen Hok]; try done.
  pose proof (Hom 0%nat _ eq_refl) as Hom0. cbn in Hom0. subst om. cbn [fields_ok].
  pose proof (Hok 0%nat (name, false, t) v eq_refl eq_refl) as Hv. cbn in Hv. rewrite Hv. apply IH.
  - intros i f Hf. by apply (Hom (S i)).
  - split; [by injection Hlen|]. intros i f w Hf Hw. by apply (Hok (S i) f w).
Qed.

Lemma val_ok_zero t : plain_type t -> val_ok t (zero_val t) = true.
Proof.
  induction t as [| |bits|bits|t IH|t IH|fs IH] using gtype_nested_ind; intros Hp; try done.
  - destruct Hp as [Ht _]. cbn in *. apply Z.leb_le in Ht. apply Z.ltb_lt, Z.pow_pos_nonneg; lia.
  - destruct Hp as [Ht _]. cbn in *. apply Z.leb_le in Ht. pose proof (Z.pow_pos_nonneg 2 (bits - 1)).
    apply andb_true_iff. rewrite Z.leb_le, Z.ltb_lt. lia.
  - cbn [zero_val]. rewrite val_ok_struct. apply plain_fields_ok; [done|]. rewrite length_map.
    split; [done|]. intros i f v Hf Hv. change map with (@fmap list list_fmap) in Hv.
    rewrite list_lookup_fmap, Hf in Hv. injection Hv as <-. rewrite Forall_lookup in IH.
    apply (IH i f Hf). by apply (plain_field fs i f).
Qed.

Lemma plain_ptr t : plain_type (TPtr t) -> plain_type t.
Proof. intros [Ht Hn]. split; [by destruct t|done]. Qed.

Lemma indirect_ok t old : plain_type t -> val_ok t old = true ->
  plain_type (fst (fst (indirect t old))) /\
  val_ok (fst (fst (indirect t old))) (snd (fst (indirect t old))) = true /\
  forall v, val_ok (fst (fst (indirect t old))) v = true -> val_ok t (snd (indirect t old) v) = true.
Proof.
  revert old. induction t as [| |bits|bits|t IH|t IH|fs IH] using gtype_nested_ind; intros old Hp Hold; try done.
  pose proof (plain_ptr _ Hp) as Hpt. cbn [indirect].
  assert (Hheld : val_ok t (match old with VPtr (Some v) => v | _ => zero_val t end) = true).
  { destruct old as [| | | |[w|]| |]; try (by apply val_ok_zero); done. }
  specialize (IH _ Hpt Hheld). by destruct (indirect t _) as [[base held] wrap].
Qed.

Lemma decode_items_ok n t l kept vs :
  Forall (fun x => forall n t old v, json_shape n x = true -> plain_type t -> val_ok t old = true ->
    decode x t old = Some v -> val_ok t v = true) l ->
  forallb (json_shape n) l = true -> plain_type t -> forallb (val_ok t) kept = true ->
  decode_items t l kept = Some vs -> forallb (val_ok t) vs = true.
Proof.
  intros Hl. revert kept vs. induction Hl as [|x l Hx Hl IH]; intros kept vs Hs Hp Hk H; cbn in *.
  { by injection H as <-. }
  bool_split. apply opt_bind_inv in H as (v & Hv & H). apply opt_bind_inv in H as (vs' & Hvs & [= <-]).
  cbn. apply andb_true_iff. split.
  - eapply (Hx n t); [done|done| |exact Hv]. destruct kept; [by apply val_ok_zero|]. cbn in Hk. by bool_split.
  - apply (IH (tail kept) vs'); try done. destruct kept; [done|]. cbn in Hk. by bool_split.
Qed.

Lemma decode_members_ok n fs ms vs vs' :
  Forall (fun kv => forall n t old v, json_shape n (snd kv) = true -> plain_type t -> val_ok t old = true ->
    decode (snd kv) t old = Some v -> val_ok t v = true) ms ->
  forallb (fun kv => valid_string (fst kv) && json_shape n (snd kv)) ms = true ->
  plain_type (TStruct fs) -> fields_ok fs vs = true ->
  decode_members fs ms vs = Some vs' -> fields_ok fs vs' = true.
Proof.
  intros Hl. revert vs. induction Hl as [|[k x] ms Hx Hl IH]; intros vs Hs Hp Hok H; cbn in *.
  { by injection H as <-. }
  bool_split. apply opt_bind_inv in H as (i & Hi & H). apply opt_bind_inv in H as (f & Hf & H).
  apply opt_bind_inv in H as (kept & Hkept & H). apply opt_bind_inv in H as (v & Hv & H).
  apply (IH (<[i := v]> vs)); try done. rewrite plain_fields_ok in * by done.
  destruct Hok as [Hlen Hok]. rewrite length_insert. split; [done|]. intros i' f' v' Hf' Hv'.
  destruct (decide (i' = i)) as [->|Hne].
  - rewrite list_lookup_insert_eq in Hv' by (by eapply lookup_lt_Some). injection Hv' as <-.
    rewrite Hf in Hf'. injection Hf' as <-. apply (Hx n (snd f) kept v); try done.
    + by apply (plain_field fs i f).
    + by apply (Hok i f kept).
  - rewrite list_lookup_insert_ne in Hv' by done. by apply (Hok i' f' v').
Qed.

Lemma decode_val_ok j : forall n t old v, json_shape n j = true -> plain_type t -> val_ok t old = true ->
  decode j t old = Some v -> val_ok t v = true.
Proof.
  induction j as [|b|s|s|l IH|ms IH] using json_nested_ind; intros n t old v Hs Hp Hold H.
  - cbn in H. destruct t; try (by injection H as <-).
  - pose proof (indirect_ok t old Hp Hold) as (Hb & Hh & Hw). cbn in H.
    destruct (indirect t old) as [[[] held] wrap]; try done. injection H as <-. by apply Hw.
  - pose proof (indirect_ok t old Hp Hold) as (Hb & Hh & Hw). cbn in H.
    destruct (indirect t old) as [[[] held] wrap]; try done.
    + apply opt_bind_inv in H as (m & Hm & [= <-]). apply Hw. by eapply parse_uint_ok.
    + apply opt_bind_inv in H as (m & Hm & [= <-]). apply Hw. eapply parse_int_ok; [|done].
      destruct Hb as [Ht _]. by apply Z.leb_le in Ht.
  - pose proof (indirect_ok t old Hp Hold) as (Hb & Hh & Hw). cbn in H.
    destruct (indirect t old) as [[[] held] wrap]; try done. injection H as <-. by apply Hw.
  - pose proof (indirect_ok t old Hp Hold) as (Hb & Hh & Hw). rewrite decode_arr in H.
    destruct (indirect t old) as [[[] held] wrap]; try done. cbn in Hb, Hh, Hw.
    apply opt_bind_inv in H as (items & Hi & [= <-]). apply Hw. cbn.
    assert (exists m, forallb (json_shape m) l = true) as [m Hm].
    { destruct n as [|n]; cbn in Hs; [destruct l; [by exists 0%nat|done] | by exists n]. }
    eapply (decode_items_ok m elem l); [exact IH|exact Hm|by destruct Hb| |exact Hi].
    by destruct held as [| | |[]| | |].
  - pose proof (indirect_ok t old Hp Hold) as (Hb & Hh & Hw). rewrite decode_obj in H.
    destruct (indirect t old) as [[[] held] wrap]; try done. cbn in Hb, Hh, Hw.
    destruct held; try done. apply opt_bind_inv in H as (vs' & Hi & [= <-]). apply Hw.
    assert (exists m, forallb (fun kv => valid_string (fst kv) && json_shape m (snd kv)) ms = true) as [m Hm].
    { destruct n as [|n]; cbn in Hs; [destruct ms; [by exists 0%nat|done] | exists n; by bool_split]. }
    eapply (decode_members_ok m); [exact IH|exact Hm|exact Hb|exact Hh|exact Hi].
Qed.

Lemma decode_struct_text_ok t input v : plain_type t -> decode_struct_text t input = Some v ->
  val_ok t v = true.
Proof.
  unfold decode_struct_text. intros Hp H. destruct (read_value input) as [j|] eqn:Hj; [|done].
  apply (decode_val_ok j 64 t (zero_val t)); [by eapply read_value_shape|done|by apply val_ok_zero|done].
Qed.

(** ** Proving that a struct is well-typed, field by field *)

Lemma fields_ok_cons name om t fs v vs :
  val_ok t v = true -> (om = true -> v <> VSlice (Some [])) -> fields_ok fs vs = true ->
  fields_ok ((name, om, t) :: fs) (v :: vs) = true.
Proof.
  intros Hv Hom Hfs. cbn [fields_ok]. rewrite Hv, Hfs, andb_true_r. cbn [andb].
  destruct om; [|done]. specialize (Hom eq_refl). by destruct v as [| | |[[|? ?]|]|[]| |].
Qed.

Lemma val_ok_uint bits n : 0 <= n < 2 ^ bits -> val_ok (TUint bits) (VUint n) = true.
Proof. intros. cbn. apply andb_true_iff. rewrite Z.leb_le, Z.ltb_lt. lia. Qed.

Ltac val_ok_fields :=
  repeat (apply fields_ok_cons; [ | done | ]); [ .. | reflexivity ].
