(* ===== verification/GoCodec.v ===== *)
(** * Records as JSON structs

    A [codec] says how a record of the model is the Go struct that [encoding/json] sees:
    its type with the field tags, the value of the struct and the way back.  Codecs are
    built field by field; the laws of a whole document follow from those of its fields,
    so a component only writes down its tags. *)

From S2P Require Import Prelude GoStrings GoTime GoJson DomainContract Domain GoStruct.

Local Open Scope string_scope.
Local Open Scope Z_scope.

(** ** Slices

    A nil slice is not an empty slice. *)
Definition slice (A : Type) : Type := option (list A).
Definition items {A} (s : slice A) : list A := default [] s.

Record codec (T : Type) : Type := mkCodec {
  c_type : gtype;
  c_zero : T;
  c_to : T -> gval;
  c_of : gval -> option T;
  c_zero_val : c_to c_zero = zero_val c_type;
  c_of_to : forall x, c_of (c_to x) = Some x;
  c_total : forall v, val_ok c_type v = true -> exists x, c_of v = Some x /\ c_to x = v }.
Arguments mkCodec {T} _ _ _ _ _ _ _.
Arguments c_type {T} _.
Arguments c_zero {T} _.
Arguments c_to {T} _ _.
Arguments c_of {T} _ _.
Arguments c_zero_val {T} _.
Arguments c_of_to {T} _ _.
Arguments c_total {T} _ _ _.

(** ** Scalars *)

Definition str_codec : codec string.
Proof.
  refine (mkCodec TString "" VStr (fun v => match v with VStr s => Some s | _ => None end) _ _ _); [done..|].
  intros []; cbn; naive_solver.
Defined.

Definition bool_codec : codec bool.
Proof.
  refine (mkCodec TBool false VBool (fun v => match v with VBool s => Some s | _ => None end) _ _ _); [done..|].
  intros []; cbn; naive_solver.
Defined.

Definition uint_codec (bits : Z) : codec Z.
Proof.
  refine (mkCodec (TUint bits) 0 VUint (fun v => match v with VUint n => Some n | _ => None end) _ _ _); [done..|].
  intros []; cbn; naive_solver.
Defined.

Definition int_codec (bits : Z) : codec Z.
Proof.
  refine (mkCodec (TInt bits) 0 VInt (fun v => match v with VInt n => Some n | _ => None end) _ _ _); [done..|].
  intros []; cbn; naive_solver.
Defined.

(** ** Slices and pointers *)

Section containers.
Context {T : Type} (c : codec T).

Lemma mapM_of_to (l : list T) : mapM (c_of c) (map (c_to c) l) = Some l.
Proof. induction l as [|x l IH]; cbn; [done|]. rewrite c_of_to. cbn. by rewrite IH. Qed.

Lemma mapM_total (vs : list gval) : forallb (val_ok (c_type c)) vs = true ->
  exists l, mapM (c_of c) vs = Some l /\ map (c_to c) l = vs.
Proof.
  induction vs as [|v vs IH]; cbn; intros H; [by exists []|]. bool_split.
  destruct (c_total c v) as (x & -> & <-); [done|].
  destruct IH as (l & -> & <-); [done|]. by exists (x :: l).
Qed.

Definition slice_codec : codec (slice T).
Proof.
  refine (mkCodec (TSlice (c_type c)) None (fun s => VSlice (map (c_to c) <$> s))
    (fun v => match v with
              | VSlice None => Some None
              | VSlice (Some l) => Some <$> mapM (c_of c) l
              | _ => None
              end) _ _ _); [done| |].
  - intros [l|]; cbn; [|done]. by rewrite mapM_of_to.
  - intros [| | |[l|]| | |]; cbn; intros H; try done; [|by exists None].
    destruct (mapM_total l H) as (x & -> & <-). by exists (Some x).
Defined.

Definition ptr_codec : codec (option T).
Proof.
  refine (mkCodec (TPtr (c_type c)) None (fun p => VPtr (c_to c <$> p))
    (fun v => match v with
              | VPtr None => Some None
              | VPtr (Some v) => Some <$> c_of c v
              | _ => None
              end) _ _ _); [done| |].
  - intros [x|]; cbn; [|done]. by rewrite c_of_to.
  - intros [| | | |[v|]| |]; cbn; intros H; try done; [|by exists None].
    destruct (c_total c v H) as (x & -> & <-). by exists (Some x).
Defined.
End containers.

(** ** Structs *)

(** The fields of a struct, in order, as a nested pair *)
Record fields_codec (T : Type) : Type := mkFields {
  fc_fields : list (string * bool * gtype);
  fc_zero : T;
  fc_to : T -> list gval;
  fc_of : list gval -> option T;
  fc_zero_val : fc_to fc_zero = map (fun f => zero_val (snd f)) fc_fields;
  fc_of_to : forall x, fc_of (fc_to x) = Some x;
  fc_total : forall vs, fields_ok fc_fields vs = true -> exists x, fc_of vs = Some x /\ fc_to x = vs }.
Arguments mkFields {T} _ _ _ _ _ _ _.
Arguments fc_fields {T} _.
Arguments fc_zero {T} _.
Arguments fc_to {T} _ _.
Arguments fc_of {T} _ _.
Arguments fc_zero_val {T} _.
Arguments fc_of_to {T} _ _.
Arguments fc_total {T} _ _ _.

Definition no_fields : fields_codec unit.
Proof.
  refine (mkFields [] tt (fun _ => []) (fun vs => match vs with [] => Some tt | _ => None end) _ _ _); [done| |].
  - by intros [].
  - intros []; [|done]. by exists tt.
Defined.

(** [json:"name"] *)
Definition field {A B} (name : string) (c : codec A) (rest : fields_codec B) : fields_codec (A * B).
Proof.
  refine (mkFields ((name, false, c_type c) :: fc_fields rest) (c_zero c, fc_zero rest)
    (fun x => c_to c (fst x) :: fc_to rest (snd x))
    (fun vs => match vs with
               | v :: vs' => x ← c_of c v; y ← fc_of rest vs'; Some (x, y)
               | [] => None
               end) _ _ _).
  - cbn. by rewrite c_zero_val, fc_zero_val.
  - intros [x y]. cbn. by rewrite c_of_to, fc_of_to.
  - intros [|v vs]; [done|]. cbn [fields_ok andb negb]. rewrite andb_true_r. intros H. bool_split.
    destruct (c_total c v) as (x & -> & <-); [done|].
    destruct (fc_total rest vs) as (y & -> & <-); [done|]. by exists (x, y).
Defined.

(** A record, given as the tuple of its fields *)
Definition struct_codec {T F} (fc : fields_codec F) (unpack : T -> F) (pack : F -> T)
  (pack_unpack : forall x, pack (unpack x) = x) (unpack_pack : forall y, unpack (pack y) = y) : codec T.
Proof.
  refine (mkCodec (TStruct (fc_fields fc)) (pack (fc_zero fc)) (fun x => VStruct (fc_to fc (unpack x)))
    (fun v => match v with VStruct vs => pack <$> fc_of fc vs | _ => None end) _ _ _).
  - cbn. by rewrite unpack_pack, fc_zero_val.
  - intros x. rewrite fc_of_to. cbn. by rewrite pack_unpack.
  - intros [| | | | |vs|]; try done. intros H. destruct (fc_total fc vs H) as (y & -> & <-).
    exists (pack y). by rewrite unpack_pack.
Defined.

(** ** Text *)

Section text.
Context {T : Type} (c : codec T).

(** [decoder.Decode(&value)] of a decoder with [DisallowUnknownFields], into a zero value *)
Definition decode_text (input : string) : option T :=
  v ← decode_struct_text (c_type c) input; c_of c v.

(** [json.Unmarshal] of what [json.Marshal] printed: printing and scanning JSON text are
    inverse (GoJson.v), so this is decoding the encoded value. *)
Definition remarshal (x : T) : T :=
  default (c_zero c) (v ← decode (encode (c_type c) (c_to c x)) (c_type c) (zero_val (c_type c)); c_of c v).

(** What a decoded record promises: strings are valid UTF-8, integers fit. *)
Definition typed (x : T) : Prop := val_ok (c_type c) (c_to c x) = true.

Context (Hplain : plain_type (c_type c)).

Lemma decode_text_typed input x : decode_text input = Some x -> typed x.
Proof.
  intros (v & Hv & Hx)%opt_bind_inv. apply decode_struct_text_ok in Hv; [|done].
  destruct (c_total c v Hv) as (y & Hy & <-). unfold typed. by replace x with y by congruence.
Qed.

Lemma remarshal_id x : typed x -> remarshal x = x.
Proof.
  intros Hx. unfold remarshal. pose proof (decode_encode (c_type c) false (c_to c x)) as H.
  cbn [arrange] in H. destruct Hplain as [Ht _]. rewrite (H Ht Hx). cbn. by rewrite c_of_to.
Qed.

(** Canonical text is read back, value and all. *)
Lemma canonical_reads x bytes : plain_type (c_type c) -> (type_depth (c_type c) <= 64)%nat -> typed x ->
  canonical_struct (c_type c) (c_to c x) = Ok bytes ->
  0 < len bytes <= MaxInputBytes /\ DecodeUnique bytes = Ok (sort_json (encode (c_type c) (c_to c x))) /\
  decode (sort_json (encode (c_type c) (c_to c x))) (c_type c) (zero_val (c_type c)) = Some (c_to c x).
Proof.
  intros Hp Hdepth Hty Hcan. pose proof (encode_wf (c_type c) (c_to c x) 64 (proj1 Hp) Hty Hdepth) as Hwf.
  destruct (canonical_struct_inv (c_type c) (proj1 Hp) Hdepth (c_to c x) bytes Hty Hcan) as [Hbytes Hlen].
  assert (Hpos : 0 < len bytes).
  { rewrite Hbytes. pose proof (marshal_length_pos false 64 _ (json_wf_sort _ _ Hwf)). unfold len. lia. }
  split; [done|]. split; [|exact (decode_encode (c_type c) true (c_to c x) (proj1 Hp) Hty)].
  rewrite Hbytes in *. apply DecodeUnique_marshal; [by apply json_wf_sort|done].
Qed.

Lemma typed_zero : typed (c_zero c).
Proof. unfold typed. rewrite c_zero_val. by apply val_ok_zero. Qed.
End text.

(** ** Field by field *)

Lemma typed_str s : typed str_codec s <-> valid_string s = true.
Proof. done. Qed.

Lemma typed_uint bits n : typed (uint_codec bits) n <-> 0 <= n < 2 ^ bits.
Proof. unfold typed. cbn. by rewrite andb_true_iff, Z.leb_le, Z.ltb_lt. Qed.

Lemma typed_slice {T} (c : codec T) (l : list T) : typed (slice_codec c) (Some l) <-> Forall (typed c) l.
Proof.
  unfold typed. cbn. rewrite forallb_forall, List.Forall_forall. split.
  - intros H x Hx. apply H. by apply in_map.
  - intros H v Hv. apply in_map_iff in Hv as (x & <- & Hx). by apply H.
Qed.

Definition fields_typed {T} (fc : fields_codec T) (x : T) : Prop := fields_ok (fc_fields fc) (fc_to fc x) = true.

Lemma fields_typed_cons {A B} name (c : codec A) (rest : fields_codec B) x :
  fields_typed (field name c rest) x <-> typed c (fst x) /\ fields_typed rest (snd x).
Proof. unfold fields_typed, typed. cbn. by rewrite andb_true_r, andb_true_iff. Qed.

Lemma fields_typed_nil x : fields_typed no_fields x <-> True.
Proof. done. Qed.

Lemma typed_struct {T F} (fc : fields_codec F) (unpack : T -> F) pack H1 H2 x :
  typed (struct_codec fc unpack pack H1 H2) x <-> fields_typed fc (unpack x).
Proof. done. Qed.

(** Splits [typed] of a struct into [typed] of its fields. *)
Ltac typed_fields :=
  match goal with |- typed ?c _ => unfold c end; apply typed_struct;
  repeat (apply fields_typed_cons; split; cbn [fst snd]); [..|by apply fields_typed_nil].
