(* ===== verification/RunBudget.v ===== *)
(** * internal/workflow/runbudget: durable resource budgets of a run

    The data of [types.go], the validation of [validate.go], the digests of
    [canonical.go], the wire form of [wire.go] and the controller of
    [controller.go].  The durable store is the interface [BudgetStore]; what the
    source asks of it (begin-if-absent and optimistic compare-and-save) is the class
    [BudgetStoreLaws], proved for the in-memory store of [RunBudgetStore]. *)

From S2P Require Import Prelude GoStrings GoTime GoJson DomainContract Sha256 Domain.

Local Open Scope string_scope.
Local Open Scope Z_scope.

(** ** errors.go *)

Inductive Code : Type :=
| InvalidInput | Denied | Conflict | Canceled | Timeout | Unavailable | Internal.

#[export] Instance Code_eq_dec : EqDecision Code.
Proof. solve_decision. Defined.

(** The cause an error wraps is one of the two context errors, or nothing. *)
Inductive Cause : Type := NoCause | CauseCanceled | CauseDeadlineExceeded.

Record Error : Type := newErrorCause {
  code : Code;
  reason : string;
  retryable : bool;
  cause : Cause }.

Definition newError (c : Code) (r : string) (retry : bool) : Error := newErrorCause c r retry NoCause.

(** A Go error from a dependency: one of this package's, or some other one. *)
Inductive go_error : Type :=
| Typed (e : Error)
| Foreign.

Definition ErrorCode (err : go_error) : Code :=
  match err with Typed e => code e | Foreign => Unavailable end.

Definition ErrorReason (err : go_error) : string :=
  match err with Typed e => reason e | Foreign => "budget_dependency_unavailable" end.

Definition Retryable (err : go_error) : bool :=
  match err with Typed e => retryable e | Foreign => false end.

(** ** types.go *)

Definition SchemaVersion : string := "coh.run-budget/v1".
Definition ContractVersion : string := "1.0.0".
Definition MaximumRecords : Z := 4096.

Record Vector : Type := mkVector {
  Tokens : Z;
  CostMicros : Z;
  WallTimeNanoseconds : Z;
  ToolCalls : Z;
  QueryRows : Z;
  EvidenceBytes : Z;
  DelegationDepth : Z;
  Fanout : Z;
  Concurrency : Z }.

#[export] Instance Vector_eq_dec : EqDecision Vector.
Proof. solve_decision. Defined.

Definition zero_vector : Vector := mkVector 0 0 0 0 0 0 0 0 0.

(** The fields of a [Vector] hold six [uint64] and three [uint32]. *)
Definition vector_typed (v : Vector) : Prop :=
  is_u64 (Tokens v) /\ is_u64 (CostMicros v) /\ is_u64 (WallTimeNanoseconds v) /\
  is_u64 (ToolCalls v) /\ is_u64 (QueryRows v) /\ is_u64 (EvidenceBytes v) /\
  is_u32 (DelegationDepth v) /\ is_u32 (Fanout v) /\ is_u32 (Concurrency v).

Record Plan : Type := mkPlan {
  p_SchemaVersion : string;
  p_ContractVersion : string;
  p_RunID : string;
  p_Case : CaseRef;
  p_PolicyDigest : string;
  p_ProviderRoute : string;
  p_Limits : Vector;
  p_CreatedAt : Time;
  p_ExpiresAt : Time }.

Record ReservationRequest : Type := mkReservationRequest {
  q_IdempotencyKey : string;
  q_RunID : string;
  q_TaskID : string;
  q_ParentTaskID : string;
  q_Case : CaseRef;
  q_Activity : string;
  q_PolicyDigest : string;
  q_ProviderRoute : string;
  q_Deadline : Time;
  q_Plan : option Plan;
  q_TaskLimits : Vector;
  q_Claim : Vector }.

Record Reservation : Type := mkReservation {
  rv_ReservationDigest : string;
  rv_PlanDigest : string;
  rv_ClaimDigest : string;
  rv_LedgerDigest : string;
  rv_Replayed : bool }.

Record SettlementRequest : Type := mkSettlementRequest {
  s_IdempotencyKey : string;
  s_RunID : string;
  s_TaskID : string;
  s_Case : CaseRef;
  s_ReservationDigest : string;
  s_Actual : option Vector;
  s_Outcome : string }.

Record Settlement : Type := mkSettlement {
  sv_ReservationDigest : string;
  sv_SettlementDigest : string;
  sv_LedgerDigest : string;
  sv_Replayed : bool }.

(** [ReservationStatus] is a string type: any string can be stored. *)
Definition ReservationActive : string := "active".
Definition ReservationSettled : string := "settled".

Record ReservationRecord : Type := mkReservationRecord {
  r_ReservationDigest : string;
  r_ClaimDigest : string;
  r_SettlementDigest : string;
  r_SettlementIdempotencyDigest : string;
  r_IdempotencyDigest : string;
  r_TaskID : string;
  r_ParentTaskID : string;
  r_Activity : string;
  r_PolicyDigest : string;
  r_ProviderRoute : string;
  r_Deadline : Time;
  r_TaskLimits : Vector;
  r_Claim : Vector;
  r_Actual : Vector;
  r_Outcome : string;
  r_Status : string;
  r_CreatedAt : Time;
  r_SettledAt : Time }.

Record Ledger : Type := mkLedger {
  l_SchemaVersion : string;
  l_ContractVersion : string;
  l_RunID : string;
  l_Case : CaseRef;
  l_PlanDigest : string;
  l_PolicyDigest : string;
  l_ProviderRoute : string;
  l_Limits : Vector;
  l_Charged : Vector;
  l_ActiveConcurrency : Z;
  l_Reservations : list ReservationRecord;
  l_ReasonCode : string;
  l_PreviousProvenanceDigest : string;
  l_ProvenanceDigest : string;
  l_CreatedAt : Time;
  l_ExpiresAt : Time;
  l_UpdatedAt : Time;
  l_Revision : Z }.

#[export] Instance ReservationRecord_eq_dec : EqDecision ReservationRecord.
Proof. solve_decision. Defined.
#[export] Instance Ledger_eq_dec : EqDecision Ledger.
Proof. solve_decision. Defined.

(** ** wire.go: the JSON of each type *)

Definition formatTime (value : Time) : string := format_timestamp (to_utc value).

Definition vector_json (v : Vector) : json :=
  JObj [("tokens", json_uint (Tokens v)); ("cost_micros", json_uint (CostMicros v));
        ("wall_time_nanoseconds", json_uint (WallTimeNanoseconds v));
        ("tool_calls", json_uint (ToolCalls v)); ("query_rows", json_uint (QueryRows v));
        ("evidence_bytes", json_uint (EvidenceBytes v));
        ("delegation_depth", json_uint (DelegationDepth v)); ("fanout", json_uint (Fanout v));
        ("concurrency", json_uint (Concurrency v))].

Definition planToWire (value : Plan) : json :=
  JObj [("schema_version", JStr (p_SchemaVersion value));
        ("contract_version", JStr (p_ContractVersion value));
        ("run_id", JStr (p_RunID value)); ("case", case_json (p_Case value));
        ("policy_digest", JStr (p_PolicyDigest value));
        ("provider_route", JStr (p_ProviderRoute value)); ("limits", vector_json (p_Limits value));
        ("created_at", JStr (formatTime (p_CreatedAt value)));
        ("expires_at", JStr (formatTime (p_ExpiresAt value)))].

Definition reservationToWire (record : ReservationRecord) : json :=
  let settled := if is_zero (r_SettledAt record) then "" else formatTime (r_SettledAt record) in
  JObj [("reservation_digest", JStr (r_ReservationDigest record));
        ("claim_digest", JStr (r_ClaimDigest record));
        ("settlement_digest", JStr (r_SettlementDigest record));
        ("settlement_idempotency_digest", JStr (r_SettlementIdempotencyDigest record));
        ("idempotency_digest", JStr (r_IdempotencyDigest record));
        ("task_id", JStr (r_TaskID record)); ("parent_task_id", JStr (r_ParentTaskID record));
        ("activity", JStr (r_Activity record)); ("policy_digest", JStr (r_PolicyDigest record));
        ("provider_route", JStr (r_ProviderRoute record));
        ("deadline", JStr (formatTime (r_Deadline record)));
        ("task_limits", vector_json (r_TaskLimits record)); ("claim", vector_json (r_Claim record));
        ("actual", vector_json (r_Actual record)); ("outcome", JStr (r_Outcome record));
        ("status", JStr (r_Status record)); ("created_at", JStr (formatTime (r_CreatedAt record)));
        ("settled_at", JStr settled)].

Definition ledgerToWire (value : Ledger) : json :=
  JObj [("schema_version", JStr (l_SchemaVersion value));
        ("contract_version", JStr (l_ContractVersion value));
        ("run_id", JStr (l_RunID value)); ("case", case_json (l_Case value));
        ("plan_digest", JStr (l_PlanDigest value)); ("policy_digest", JStr (l_PolicyDigest value));
        ("provider_route", JStr (l_ProviderRoute value)); ("limits", vector_json (l_Limits value));
        ("charged", vector_json (l_Charged value));
        ("active_concurrency", json_uint (l_ActiveConcurrency value));
        ("reservations", JArr (map reservationToWire (l_Reservations value)));
        ("reason_code", JStr (l_ReasonCode value));
        ("previous_provenance_digest", JStr (l_PreviousProvenanceDigest value));
        ("provenance_digest", JStr (l_ProvenanceDigest value));
        ("created_at", JStr (formatTime (l_CreatedAt value)));
        ("expires_at", JStr (formatTime (l_ExpiresAt value)));
        ("updated_at", JStr (formatTime (l_UpdatedAt value)));
        ("revision", json_uint (l_Revision value))].

(** ** canonical.go *)

(** [json.Marshal] of these structs cannot fail; [Canonicalize] can, on size. *)
Definition canonicalValue (value : json) : result Error string :=
  or_err (Canonicalize (marshal true value)) (newError Internal "budget_canonicalization_failed" false).

Definition NUL_str : string := String NUL "".

Definition budgetDigest (domain value : string) : string := digest (domain ++ NUL_str ++ value).

Definition claim_json (value : ReservationRequest) (plan : string) : json :=
  JObj [("run_id", JStr (q_RunID value)); ("task_id", JStr (q_TaskID value));
        ("parent_task_id", JStr (q_ParentTaskID value)); ("case", case_json (q_Case value));
        ("activity", JStr (q_Activity value)); ("policy_digest", JStr (q_PolicyDigest value));
        ("provider_route", JStr (q_ProviderRoute value));
        ("deadline", JStr (formatTime (q_Deadline value))); ("plan_digest", JStr plan);
        ("task_limits", vector_json (q_TaskLimits value)); ("claim", vector_json (q_Claim value))].

Definition claimDigest (value : ReservationRequest) (plan : string) : result Error string :=
  canonical ← canonicalValue (claim_json value plan);
  Ok (budgetDigest "COH-RUN-BUDGET-CLAIM-V1" canonical).

Definition settlement_json (reservation idempotency : string) (actual : Vector) (outcome : string) : json :=
  JObj [("reservation_digest", JStr reservation); ("idempotency_digest", JStr idempotency);
        ("actual", vector_json actual); ("outcome", JStr outcome)].

Definition settlementDigest (reservation idempotency : string) (actual : Vector) (outcome : string)
  : result Error string :=
  canonical ← canonicalValue (settlement_json reservation idempotency actual outcome);
  Ok (budgetDigest "COH-RUN-BUDGET-SETTLEMENT-V1" canonical).

Definition set_ProvenanceDigest (l : Ledger) (d : string) : Ledger :=
  mkLedger (l_SchemaVersion l) (l_ContractVersion l) (l_RunID l) (l_Case l) (l_PlanDigest l)
    (l_PolicyDigest l) (l_ProviderRoute l) (l_Limits l) (l_Charged l) (l_ActiveConcurrency l)
    (l_Reservations l) (l_ReasonCode l) (l_PreviousProvenanceDigest l) d (l_CreatedAt l)
    (l_ExpiresAt l) (l_UpdatedAt l) (l_Revision l).

Definition provenanceDigest (prior operation : string) (value : Ledger) : result Error string :=
  canonical ← canonicalValue (ledgerToWire (set_ProvenanceDigest value ""));
  Ok (budgetDigest "COH-RUN-BUDGET-PROVENANCE-V1"
        (prior ++ NUL_str ++ operation ++ NUL_str ++ canonical)).

(** ** validate.go *)

Definition maximumUintBudget : Z := max_int64.

Definition validLimitVector (value : Vector) : bool :=
  (0 <? Tokens value) && (Tokens value <=? maximumUintBudget) &&
  (0 <? CostMicros value) && (CostMicros value <=? maximumUintBudget) &&
  (0 <? WallTimeNanoseconds value) && (WallTimeNanoseconds value <=? maximumUintBudget) &&
  (0 <? ToolCalls value) && (ToolCalls value <=? maximumUintBudget) &&
  (0 <? QueryRows value) && (QueryRows value <=? maximumUintBudget) &&
  (0 <? EvidenceBytes value) && (EvidenceBytes value <=? maximumUintBudget) &&
  (0 <? DelegationDepth value) && (0 <? Fanout value) && (0 <? Concurrency value).

Definition validClaimVector (value : Vector) : bool :=
  (Tokens value <=? maximumUintBudget) && (CostMicros value <=? maximumUintBudget) &&
  (0 <? WallTimeNanoseconds value) && (WallTimeNanoseconds value <=? maximumUintBudget) &&
  (ToolCalls value <=? maximumUintBudget) && (QueryRows value <=? maximumUintBudget) &&
  (EvidenceBytes value <=? maximumUintBudget) && (0 <? Concurrency value).

Definition validActualVector (value : Vector) : bool :=
  (Tokens value <=? maximumUintBudget) && (CostMicros value <=? maximumUintBudget) &&
  (WallTimeNanoseconds value <=? maximumUintBudget) && (ToolCalls value <=? maximumUintBudget) &&
  (QueryRows value <=? maximumUintBudget) && (EvidenceBytes value <=? maximumUintBudget).

Definition validChargedVector (value : Vector) : bool :=
  (Tokens value <=? maximumUintBudget) && (CostMicros value <=? maximumUintBudget) &&
  (ToolCalls value <=? maximumUintBudget) && (QueryRows value <=? maximumUintBudget) &&
  (EvidenceBytes value <=? maximumUintBudget) && (WallTimeNanoseconds value =? 0) &&
  (DelegationDepth value =? 0) && (Fanout value =? 0) && (Concurrency value =? 0).

Definition vectorWithin (value limit : Vector) : bool :=
  (Tokens value <=? Tokens limit) && (CostMicros value <=? CostMicros limit) &&
  (WallTimeNanoseconds value <=? WallTimeNanoseconds limit) && (ToolCalls value <=? ToolCalls limit) &&
  (QueryRows value <=? QueryRows limit) && (EvidenceBytes value <=? EvidenceBytes limit) &&
  (DelegationDepth value <=? DelegationDepth limit) && (Fanout value <=? Fanout limit) &&
  (Concurrency value <=? Concurrency limit).

(** One of the five pairs of [addCharged]: [left > maximumUintBudget-right] in [uint64],
    then [left + right] in [uint64]. *)
Definition add_pair (left right : Z) : option Z :=
  if u64 (maximumUintBudget - right) <? left then None else Some (u64 (left + right)).

Definition addCharged (left right : Vector) : option Vector :=
  tokens ← add_pair (Tokens left) (Tokens right);
  cost ← add_pair (CostMicros left) (CostMicros right);
  calls ← add_pair (ToolCalls left) (ToolCalls right);
  rows ← add_pair (QueryRows left) (QueryRows right);
  bytes ← add_pair (EvidenceBytes left) (EvidenceBytes right);
  Some (mkVector tokens cost 0 calls rows bytes 0 0 0).

Definition validOutcome (value : string) : bool :=
  String.eqb value "succeeded" || String.eqb value "denied" || String.eqb value "canceled" ||
  String.eqb value "timeout" || String.eqb value "failed" || String.eqb value "uncertain".

Definition mapContext (err : context_state) : Error :=
  match err with
  | CtxCanceled => newErrorCause Canceled "budget_canceled" false CauseCanceled
  | CtxDeadlineExceeded => newErrorCause Timeout "budget_timeout" false CauseDeadlineExceeded
  | _ => newError Unavailable "budget_dependency_unavailable" true
  end.

Definition validateContext (ctx : context_state) : result Error unit :=
  match ctx with
  | CtxNil => Err (newError InvalidInput "context_required" false)
  | CtxLive => Ok tt
  | _ => Err (mapContext ctx)
  end.

Definition validatePlan (value : Plan) : result Error unit :=
  deny_if
    (negb (String.eqb (p_SchemaVersion value) SchemaVersion) ||
     negb (String.eqb (p_ContractVersion value) ContractVersion) ||
     negb (uuidPattern (p_RunID value)) || negb (validCase (p_Case value)) ||
     negb (digestPattern (p_PolicyDigest value)) || negb (tokenPattern (p_ProviderRoute value)) ||
     negb (validLimitVector (p_Limits value)) || negb (validTime (p_CreatedAt value)) ||
     negb (validTime (p_ExpiresAt value)) || negb (after (p_ExpiresAt value) (p_CreatedAt value)))
    (newError InvalidInput "budget_plan_invalid" false).

(** canonical.go: [planDigest] validates before it hashes *)
Definition planDigest (value : Plan) : result Error string :=
  validatePlan value ;;
  canonical ← canonicalValue (planToWire value);
  Ok (budgetDigest "COH-RUN-BUDGET-PLAN-V1" canonical).

Definition plan_binding_invalid (value : ReservationRequest) (now : Time) (plan : Plan) : bool :=
  negb (is_ok (validatePlan plan)) || negb (String.eqb (p_RunID plan) (q_RunID value)) ||
  negb (bool_decide (p_Case plan = q_Case value)) ||
  negb (String.eqb (p_PolicyDigest plan) (q_PolicyDigest value)) ||
  negb (String.eqb (p_ProviderRoute plan) (q_ProviderRoute value)) ||
  after (p_CreatedAt plan) now || negb (before now (p_ExpiresAt plan)) ||
  after (q_Deadline value) (p_ExpiresAt plan) ||
  negb (vectorWithin (q_TaskLimits value) (p_Limits plan)).

Definition validateReservationRequest (value : ReservationRequest) (now : Time) : result Error unit :=
  deny_if
    (negb (validOpaque (q_IdempotencyKey value) 256) || negb (uuidPattern (q_RunID value)) ||
     negb (uuidPattern (q_TaskID value)) ||
     (negb (String.eqb (q_ParentTaskID value) "") && negb (uuidPattern (q_ParentTaskID value))) ||
     String.eqb (q_ParentTaskID value) (q_TaskID value) || negb (validCase (q_Case value)) ||
     negb (tokenPattern (q_Activity value)) || negb (digestPattern (q_PolicyDigest value)) ||
     negb (tokenPattern (q_ProviderRoute value)) || negb (validTime (q_Deadline value)) ||
     negb (after (q_Deadline value) now) || negb (validLimitVector (q_TaskLimits value)) ||
     negb (validClaimVector (q_Claim value)) || negb (vectorWithin (q_Claim value) (q_TaskLimits value)))
    (newError InvalidInput "budget_reservation_invalid" false) ;;
  match q_Plan value with
  | Some plan =>
      deny_if (plan_binding_invalid value now plan)
        (newError InvalidInput "budget_plan_binding_invalid" false)
  | None => Ok tt
  end ;;
  let remaining := time_sub (q_Deadline value) now in
  deny_if ((remaining <=? 0) || (WallTimeNanoseconds (q_Claim value) <? u64 remaining))
    (newError Denied "budget_deadline_exceeds_claim" false).

Definition validateSettlementRequest (value : SettlementRequest) : result Error unit :=
  deny_if
    (negb (validOpaque (s_IdempotencyKey value) 256) || negb (uuidPattern (s_RunID value)) ||
     negb (uuidPattern (s_TaskID value)) || negb (validCase (s_Case value)) ||
     negb (digestPattern (s_ReservationDigest value)) || negb (validOutcome (s_Outcome value)) ||
     match s_Actual value with Some actual => negb (validActualVector actual) | None => false end)
    (newError InvalidInput "budget_settlement_invalid" false).

Definition record_request (ledger : Ledger) (value : ReservationRecord) : ReservationRequest :=
  mkReservationRequest "" (l_RunID ledger) (r_TaskID value) (r_ParentTaskID value) (l_Case ledger)
    (r_Activity value) (r_PolicyDigest value) (r_ProviderRoute value) (r_Deadline value) None
    (r_TaskLimits value) (r_Claim value).

Definition reservation_digest (plan claim idempotency : string) : string :=
  budgetDigest "COH-RUN-BUDGET-RESERVATION-V1" (plan ++ NUL_str ++ claim ++ NUL_str ++ idempotency).

(** [if x, err := m; err != nil || x != want { return e }] *)
Definition check_digest (m : result Error string) (want : string) (e : Error) : result Error unit :=
  match m with
  | Ok d => deny_if (negb (String.eqb d want)) e
  | Err _ => Err e
  end.

Definition validateReservationRecord (ledger : Ledger) (value : ReservationRecord) : result Error unit :=
  deny_if
    (negb (digestPattern (r_ReservationDigest value)) || negb (digestPattern (r_ClaimDigest value)) ||
     negb (digestPattern (r_IdempotencyDigest value)) || negb (uuidPattern (r_TaskID value)) ||
     (negb (String.eqb (r_ParentTaskID value) "") && negb (uuidPattern (r_ParentTaskID value))) ||
     String.eqb (r_ParentTaskID value) (r_TaskID value) || negb (tokenPattern (r_Activity value)) ||
     negb (String.eqb (r_PolicyDigest value) (l_PolicyDigest ledger)) ||
     negb (String.eqb (r_ProviderRoute value) (l_ProviderRoute ledger)) ||
     negb (validTime (r_Deadline value)) || after (r_Deadline value) (l_ExpiresAt ledger) ||
     negb (validLimitVector (r_TaskLimits value)) ||
     negb (vectorWithin (r_TaskLimits value) (l_Limits ledger)) ||
     negb (validClaimVector (r_Claim value)) || negb (vectorWithin (r_Claim value) (r_TaskLimits value)) ||
     negb (validTime (r_CreatedAt value)) || before (r_CreatedAt value) (l_CreatedAt ledger) ||
     negb (after (r_Deadline value) (r_CreatedAt value)) ||
     (WallTimeNanoseconds (r_Claim value) <? u64 (time_sub (r_Deadline value) (r_CreatedAt value))))
    (newError Denied "budget_reservation_record_invalid" false) ;;
  match claimDigest (record_request ledger value) (l_PlanDigest ledger) with
  | Ok claim =>
      deny_if (negb (String.eqb claim (r_ClaimDigest value)) ||
               negb (String.eqb
                 (reservation_digest (l_PlanDigest ledger) claim (r_IdempotencyDigest value))
                 (r_ReservationDigest value)))
        (newError Denied "budget_reservation_binding_invalid" false)
  | Err _ => Err (newError Denied "budget_reservation_binding_invalid" false)
  end ;;
  if String.eqb (r_Status value) ReservationActive then
    deny_if
      (negb (String.eqb (r_SettlementDigest value) "") ||
       negb (String.eqb (r_SettlementIdempotencyDigest value) "") ||
       negb (String.eqb (r_Outcome value) "") || negb (bool_decide (r_Actual value = zero_vector)) ||
       negb (is_zero (r_SettledAt value)))
      (newError Denied "budget_active_record_invalid" false)
  else
    deny_if
      (negb (String.eqb (r_Status value) ReservationSettled) ||
       negb (digestPattern (r_SettlementDigest value)) ||
       negb (digestPattern (r_SettlementIdempotencyDigest value)) ||
       negb (validOutcome (r_Outcome value)) || negb (validActualVector (r_Actual value)) ||
       negb (vectorWithin (r_Actual value) (r_Claim value)) || negb (validTime (r_SettledAt value)) ||
       before (r_SettledAt value) (r_CreatedAt value))
      (newError Denied "budget_settled_record_invalid" false) ;;
    check_digest
      (settlementDigest (r_ReservationDigest value) (r_SettlementIdempotencyDigest value)
         (r_Actual value) (r_Outcome value))
      (r_SettlementDigest value) (newError Denied "budget_settlement_binding_invalid" false).

(** [slices.IndexFunc(reservations, func(v) bool { return v.TaskID == id })] and the
    element there *)
Definition find_record (id : string) (l : list ReservationRecord) : option (nat * ReservationRecord) :=
  list_find (fun r => r_TaskID r = id) l.

(** The loop of [validateLedger] over the reservations: the task before this one, the
    tasks seen, how many children each parent has, and the two running sums. *)
Record tally : Type := mkTally {
  t_prior : option string;
  t_seen : gset string;
  t_children : gmap string Z;
  t_charged : Vector;
  t_active : Z }.

Definition empty_tally : tally := mkTally None ∅ ∅ zero_vector 0.

Definition tally_record (ledger : Ledger) (t : tally) (record : ReservationRecord) : result Error tally :=
  deny_if
    match t_prior t with Some prior => String.leb (r_TaskID record) prior | None => false end
    (newError Denied "budget_reservation_order_invalid" false) ;;
  validateReservationRecord ledger record ;;
  deny_if (bool_decide (r_TaskID record ∈ t_seen t)) (newError Denied "budget_task_duplicate" false) ;;
  let children :=
    if String.eqb (r_ParentTaskID record) "" then t_children t
    else <[r_ParentTaskID record := u32 (default 0 (t_children t !! r_ParentTaskID record) + 1)]>
           (t_children t) in
  match addCharged (t_charged t) (r_Claim record) with
  | None => Err (newError Denied "budget_ledger_overflow" false)
  | Some charged =>
      let active :=
        if String.eqb (r_Status record) ReservationActive
        then u64 (t_active t + Concurrency (r_Claim record)) else t_active t in
      deny_if (String.eqb (r_Status record) ReservationActive && (max_uint32 <? active))
        (newError Denied "budget_concurrency_overflow" false) ;;
      Ok (mkTally (Some (r_TaskID record)) ({[r_TaskID record]} ∪ t_seen t) children charged active)
  end.

Definition check_hierarchy (reservations : list ReservationRecord) (record : ReservationRecord)
  : result Error unit :=
  if String.eqb (r_ParentTaskID record) "" then
    deny_if (negb (DelegationDepth (r_Claim record) =? 0))
      (newError Denied "budget_root_hierarchy_invalid" false)
  else
    match find_record (r_ParentTaskID record) reservations with
    | Some (_, parent) =>
        deny_if ((DelegationDepth (r_Claim parent) =? max_uint32) ||
                 negb (DelegationDepth (r_Claim record) =? u32 (DelegationDepth (r_Claim parent) + 1)))
          (newError Denied "budget_delegation_hierarchy_invalid" false)
    | None => Err (newError Denied "budget_delegation_hierarchy_invalid" false)
    end.

Definition check_fanout (reservations : list ReservationRecord) (entry : string * Z) : result Error unit :=
  match find_record (fst entry) reservations with
  | Some (_, parent) =>
      deny_if (Fanout (r_Claim parent) <? snd entry)
        (newError Denied "budget_fanout_state_invalid" false)
  | None => Err (newError Denied "budget_fanout_state_invalid" false)
  end.

Definition ledger_plan (value : Ledger) : Plan :=
  mkPlan (l_SchemaVersion value) (l_ContractVersion value) (l_RunID value) (l_Case value)
    (l_PolicyDigest value) (l_ProviderRoute value) (l_Limits value) (l_CreatedAt value)
    (l_ExpiresAt value).

Definition validateLedger (value : Ledger) : result Error unit :=
  deny_if
    (negb (String.eqb (l_SchemaVersion value) SchemaVersion) ||
     negb (String.eqb (l_ContractVersion value) ContractVersion) ||
     negb (uuidPattern (l_RunID value)) || negb (validCase (l_Case value)) ||
     negb (digestPattern (l_PlanDigest value)) || negb (digestPattern (l_PolicyDigest value)) ||
     negb (tokenPattern (l_ProviderRoute value)) || negb (validLimitVector (l_Limits value)) ||
     negb (validChargedVector (l_Charged value)) ||
     (Concurrency (l_Limits value) <? l_ActiveConcurrency value) ||
     (Z.of_nat (length (l_Reservations value)) =? 0) ||
     (MaximumRecords <? Z.of_nat (length (l_Reservations value))) ||
     negb (tokenPattern (l_ReasonCode value)) || negb (digestPattern (l_ProvenanceDigest value)) ||
     (negb (String.eqb (l_PreviousProvenanceDigest value) "") &&
      negb (digestPattern (l_PreviousProvenanceDigest value))) ||
     negb (validTime (l_CreatedAt value)) || negb (validTime (l_ExpiresAt value)) ||
     negb (validTime (l_UpdatedAt value)) || negb (after (l_ExpiresAt value) (l_CreatedAt value)) ||
     before (l_UpdatedAt value) (l_CreatedAt value) || (l_Revision value =? 0) ||
     (maximumUintBudget <? l_Revision value))
    (newError Denied "budget_ledger_invalid" false) ;;
  check_digest (planDigest (ledger_plan value)) (l_PlanDigest value)
    (newError Denied "budget_plan_digest_invalid" false) ;;
  t ← fold_res (tally_record value) empty_tally (l_Reservations value);
  for_each (check_hierarchy (l_Reservations value)) (l_Reservations value) ;;
  for_each (check_fanout (l_Reservations value)) (map_to_list (t_children t)) ;;
  deny_if
    (negb (bool_decide (t_charged t = l_Charged value)) ||
     negb (u32 (t_active t) =? l_ActiveConcurrency value) ||
     negb (vectorWithin (t_charged t) (l_Limits value)))
    (newError Denied "budget_ledger_totals_invalid" false) ;;
  check_digest (provenanceDigest (l_PreviousProvenanceDigest value) (l_ReasonCode value) value)
    (l_ProvenanceDigest value) (newError Denied "budget_provenance_invalid" false).

(** ** types.go: the [Store] interface

    A store is a state; [store_begin] and [store_save] return the state after the
    call.  [store_load] returns [Ok None] when there is no ledger. *)
Class BudgetStore (S : Type) : Type := {
  store_load : S -> CaseRef -> string -> result go_error (option Ledger);
  store_begin : S -> string -> Ledger -> result go_error (Ledger * bool) * S;
  store_save : S -> string -> Ledger -> Ledger -> result go_error Ledger * S }.

(** ** controller.go *)

(** What a call finds around it: whether the controller and its dependencies are
    non-nil, the clock, and the context when the call starts and when a store error is
    mapped. *)
Record call_env : Type := mkEnv {
  env_ready : bool;
  env_now : Time;
  env_ctx : context_state;
  env_ctx_late : context_state }.

(** [New] *)
Definition New (store_nil clock_nil : bool) : result Error unit :=
  deny_if (store_nil || clock_nil) (newError InvalidInput "budget_dependencies" false).

Definition mapStoreError (env : call_env) (r : string) (err : go_error) : go_error :=
  match env_ctx_late env with
  | CtxCanceled | CtxDeadlineExceeded => Typed (mapContext (env_ctx_late env))
  | _ => if bool_decide (ErrorCode err = Unavailable)
         then Typed (newError Unavailable r true) else err
  end.

Definition exhaustedReason (charged claim limit : Vector) : string :=
  let check used add max k next :=
    if (max <? used) || (u64 (max - used) <? add) then k else next in
  check (Tokens charged) (Tokens claim) (Tokens limit) "budget_tokens_exhausted"
  (check (CostMicros charged) (CostMicros claim) (CostMicros limit) "budget_cost_exhausted"
  (check (ToolCalls charged) (ToolCalls claim) (ToolCalls limit) "budget_tool_calls_exhausted"
  (check (QueryRows charged) (QueryRows claim) (QueryRows limit) "budget_query_rows_exhausted"
  (check (EvidenceBytes charged) (EvidenceBytes claim) (EvidenceBytes limit)
     "budget_evidence_bytes_exhausted" "budget_limit_exhausted")))).

Definition reservationDigests (request : ReservationRequest) (plan : string)
  : result Error (string * string * string) :=
  claim ← claimDigest request plan;
  let idempotency := budgetDigest "COH-RUN-BUDGET-IDEMPOTENCY-V1" (q_IdempotencyKey request) in
  Ok (claim, idempotency, reservation_digest plan claim idempotency).

Definition newReservationRecord (request : ReservationRequest) (claim idempotency reservation : string)
  (now : Time) : ReservationRecord :=
  mkReservationRecord reservation claim "" "" idempotency (q_TaskID request) (q_ParentTaskID request)
    (q_Activity request) (q_PolicyDigest request) (q_ProviderRoute request) (q_Deadline request)
    (q_TaskLimits request) (q_Claim request) zero_vector "" ReservationActive now zero_time.

Fixpoint insert_record (r : ReservationRecord) (l : list ReservationRecord) : list ReservationRecord :=
  match l with
  | [] => [r]
  | r' :: l' => if String.leb (r_TaskID r) (r_TaskID r') then r :: l else r' :: insert_record r l'
  end.

(** [slices.SortFunc] by task; the tasks are distinct, so any sort gives this list. *)
Definition sort_records (l : list ReservationRecord) : list ReservationRecord :=
  foldr insert_record [] l.

Definition stamp (next prior : Ledger) (operation : string) (now : Time) : result Error Ledger :=
  deny_if (maximumUintBudget <=? l_Revision prior)
    (newError Denied "budget_revision_exhausted" false) ;;
  let next :=
    mkLedger (l_SchemaVersion next) (l_ContractVersion next) (l_RunID next) (l_Case next)
      (l_PlanDigest next) (l_PolicyDigest next) (l_ProviderRoute next) (l_Limits next)
      (l_Charged next) (l_ActiveConcurrency next) (l_Reservations next) operation
      (l_ProvenanceDigest prior) (l_ProvenanceDigest next) (l_CreatedAt next) (l_ExpiresAt next)
      now (u64 (l_Revision prior + 1)) in
  provenance ← provenanceDigest (l_ProvenanceDigest prior) operation next;
  Ok (set_ProvenanceDigest next provenance).

Definition validateReservationHierarchy (ledger : Ledger) (request : ReservationRequest)
  : result Error unit :=
  if String.eqb (q_ParentTaskID request) "" then
    deny_if (negb (DelegationDepth (q_Claim request) =? 0))
      (newError Denied "budget_root_hierarchy_invalid" false)
  else
    match find_record (q_ParentTaskID request) (l_Reservations ledger) with
    | None => Err (newError Denied "budget_delegation_parent_missing" false)
    | Some (_, parent) =>
        deny_if ((DelegationDepth (r_Claim parent) =? max_uint32) ||
                 negb (DelegationDepth (q_Claim request) =? u32 (DelegationDepth (r_Claim parent) + 1)))
          (newError Denied "budget_delegation_depth_invalid" false) ;;
        let children :=
          foldl (fun n record =>
            if String.eqb (r_ParentTaskID record) (r_TaskID parent) then u32 (n + 1) else n)
            0 (l_Reservations ledger) in
        deny_if (Fanout (r_Claim parent) <=? children)
          (newError Denied "budget_fanout_exhausted" false)
    end.

Definition newLedgerWithReservation (request : ReservationRequest) (plan : Plan) (now : Time)
  : result Error (Ledger * Reservation) :=
  pd ← planDigest plan;
  deny_if (negb (String.eqb (q_ParentTaskID request) "") ||
           negb (DelegationDepth (q_Claim request) =? 0))
    (newError Denied "budget_root_hierarchy_invalid" false) ;;
  '(claim, idempotency, reservation) ← reservationDigests request pd;
  let exhausted :=
    newError Denied (exhaustedReason zero_vector (q_Claim request) (p_Limits plan)) false in
  match addCharged zero_vector (q_Claim request) with
  | None => Err exhausted
  | Some charged =>
      deny_if (negb (vectorWithin charged (p_Limits plan)) ||
               (Concurrency (p_Limits plan) <? Concurrency (q_Claim request))) exhausted ;;
      let ledger :=
        mkLedger SchemaVersion ContractVersion (q_RunID request) (q_Case request) pd
          (q_PolicyDigest request) (q_ProviderRoute request) (p_Limits plan) charged
          (Concurrency (q_Claim request))
          [newReservationRecord request claim idempotency reservation now]
          "reservation_charged" "" "" (p_CreatedAt plan) (p_ExpiresAt plan) now 1 in
      provenance ← provenanceDigest "" (l_ReasonCode ledger) ledger;
      let ledger := set_ProvenanceDigest ledger provenance in
      validateLedger ledger ;;
      Ok (ledger, mkReservation reservation pd claim provenance false)
  end.

(** [cloneLedger], then the two totals and the records assigned *)
Definition with_totals (l : Ledger) (charged : Vector) (active : Z) (reservations : list ReservationRecord)
  : Ledger :=
  mkLedger (l_SchemaVersion l) (l_ContractVersion l) (l_RunID l) (l_Case l) (l_PlanDigest l)
    (l_PolicyDigest l) (l_ProviderRoute l) (l_Limits l) charged active reservations (l_ReasonCode l)
    (l_PreviousProvenanceDigest l) (l_ProvenanceDigest l) (l_CreatedAt l) (l_ExpiresAt l)
    (l_UpdatedAt l) (l_Revision l).

(** The check on what a store returned: still a valid ledger, with the digest that was
    offered *)
Definition check_stored (stored : Ledger) (want : string) : result Error unit :=
  deny_if (negb (is_ok (validateLedger stored)) || negb (String.eqb (l_ProvenanceDigest stored) want))
    (newError Denied "budget_store_result_invalid" false).

(** Errors of this package as Go errors *)
Definition lift {A} (m : result Error A) : result go_error A :=
  match m with Ok a => Ok a | Err e => Err (Typed e) end.

(** The decision [reserveExisting] takes before it writes: replay an earlier reservation
    of the task, or charge the next ledger. *)
Inductive reserve_plan : Type :=
| ReplayReservation (r : Reservation)
| ChargeLedger (next : Ledger) (reservation claim : string).

Definition plan_reserve (request : ReservationRequest) (current : Ledger) (now : Time)
  : result Error reserve_plan :=
  validateLedger current ;;
  deny_if
    (negb (String.eqb (l_RunID current) (q_RunID request)) ||
     negb (bool_decide (l_Case current = q_Case request)) ||
     negb (String.eqb (l_PolicyDigest current) (q_PolicyDigest request)) ||
     negb (String.eqb (l_ProviderRoute current) (q_ProviderRoute request)))
    (newError Denied "budget_scope_binding" false) ;;
  match q_Plan request with
  | Some plan =>
      check_digest (planDigest plan) (l_PlanDigest current)
        (newError Denied "budget_plan_replay_binding" false)
  | None => Ok tt
  end ;;
  '(claim, idempotency, reservation) ← reservationDigests request (l_PlanDigest current);
  match find_record (q_TaskID request) (l_Reservations current) with
  | Some (_, record) =>
      deny_if
        (negb (String.eqb (r_ClaimDigest record) claim) ||
         negb (String.eqb (r_IdempotencyDigest record) idempotency) ||
         negb (String.eqb (r_ReservationDigest record) reservation))
        (newError Denied "budget_task_replay_binding" false) ;;
      Ok (ReplayReservation
            (mkReservation reservation (l_PlanDigest current) claim (l_ProvenanceDigest current) true))
  | None =>
      deny_if (negb (before now (l_ExpiresAt current)) ||
               after (q_Deadline request) (l_ExpiresAt current))
        (newError Denied "budget_elapsed_exhausted" false) ;;
      deny_if (negb (vectorWithin (q_TaskLimits request) (l_Limits current)))
        (newError Denied "budget_task_limit_exceeds_run" false) ;;
      validateReservationHierarchy current request ;;
      let exhausted :=
        newError Denied
          (exhaustedReason (l_Charged current) (q_Claim request) (l_Limits current)) false in
      match addCharged (l_Charged current) (q_Claim request) with
      | None => Err exhausted
      | Some charged =>
          deny_if (negb (vectorWithin charged (l_Limits current))) exhausted ;;
          let active := u64 (l_ActiveConcurrency current + Concurrency (q_Claim request)) in
          deny_if (Concurrency (l_Limits current) <? active)
            (newError Denied "budget_concurrency_exhausted" false) ;;
          let reservations :=
            sort_records (l_Reservations current ++
              [newReservationRecord request claim idempotency reservation now]) in
          let next := with_totals current charged (u32 active) reservations in
          next ← stamp next current "reservation_charged" now;
          validateLedger next ;;
          Ok (ChargeLedger next reservation claim)
      end
  end.

Definition update_record (r : ReservationRecord) (actual : Vector) (outcome settlement idem : string)
  (now : Time) : ReservationRecord :=
  mkReservationRecord (r_ReservationDigest r) (r_ClaimDigest r) settlement idem
    (r_IdempotencyDigest r) (r_TaskID r) (r_ParentTaskID r) (r_Activity r) (r_PolicyDigest r)
    (r_ProviderRoute r) (r_Deadline r) (r_TaskLimits r) (r_Claim r) actual outcome
    ReservationSettled (r_CreatedAt r) now.

Inductive settle_plan : Type :=
| ReplaySettlement (s : Settlement)
| ReleaseLedger (next : Ledger) (reservation settlement : string).

(** The decision of [Settle] once the ledger is loaded *)
Definition plan_settle (request : SettlementRequest) (current : Ledger) (clock : Time)
  : result Error settle_plan :=
  validateLedger current ;;
  let binding := newError Denied "budget_settlement_binding" false in
  match find_record (s_TaskID request) (l_Reservations current) with
  | None => Err binding
  | Some (index, record) =>
      deny_if (negb (String.eqb (r_ReservationDigest record) (s_ReservationDigest request))) binding ;;
      let actual := default (r_Claim record) (s_Actual request) in
      deny_if (negb (validActualVector actual) || negb (vectorWithin actual (r_Claim record)))
        (newError Denied "budget_actual_exceeds_reservation" false) ;;
      let idem :=
        budgetDigest "COH-RUN-BUDGET-SETTLEMENT-IDEMPOTENCY-V1" (s_IdempotencyKey request) in
      settlement ← settlementDigest (r_ReservationDigest record) idem actual (s_Outcome request);
      if String.eqb (r_Status record) ReservationSettled then
        deny_if (negb (String.eqb (r_SettlementDigest record) settlement) ||
                 negb (String.eqb (r_SettlementIdempotencyDigest record) idem))
          (newError Denied "budget_settlement_replay_binding" false) ;;
        Ok (ReplaySettlement
              (mkSettlement (r_ReservationDigest record) settlement (l_ProvenanceDigest current) true))
      else
        let now := to_utc clock in
        deny_if (negb (validTime now)) (newError Internal "budget_clock_unavailable" false) ;;
        let reservations :=
          <[index := update_record record actual (s_Outcome request) settlement idem now]>
            (l_Reservations current) in
        deny_if (l_ActiveConcurrency current <? Concurrency (r_Claim record))
          (newError Denied "budget_concurrency_state_invalid" false) ;;
        let next :=
          with_totals current (l_Charged current)
            (u32 (l_ActiveConcurrency current - Concurrency (r_Claim record))) reservations in
        next ← stamp next current "reservation_settled" now;
        validateLedger next ;;
        Ok (ReleaseLedger next (r_ReservationDigest record) settlement)
  end.

Section controller.
Context {S : Type} `{!BudgetStore S}.

Definition reserveExisting (env : call_env) (request : ReservationRequest) (current : Ledger)
  (now : Time) (st : S) : result go_error Reservation * S :=
  match plan_reserve request current now with
  | Err e => (Err (Typed e), st)
  | Ok (ReplayReservation r) => (Ok r, st)
  | Ok (ChargeLedger next reservation claim) =>
      let '(saved, st) := store_save st (q_IdempotencyKey request ++ ":budget") current next in
      match saved with
      | Err err => (Err (mapStoreError env "budget_store_save" err), st)
      | Ok stored =>
          (lift (check_stored stored (l_ProvenanceDigest next) ;;
                 Ok (mkReservation reservation (l_PlanDigest current) claim
                       (l_ProvenanceDigest stored) false)), st)
      end
  end.

Definition Reserve (env : call_env) (request : ReservationRequest) (st : S)
  : result go_error Reservation * S :=
  let now := to_utc (env_now env) in
  match deny_if (negb (env_ready env)) (newError Unavailable "budget_unavailable" true) ;;
        validateContext (env_ctx env) ;;
        deny_if (negb (validTime now)) (newError Internal "budget_clock_unavailable" false) ;;
        validateReservationRequest request now with
  | Err e => (Err (Typed e), st)
  | Ok _ =>
      match store_load st (q_Case request) (q_RunID request) with
      | Err err => (Err (mapStoreError env "budget_store_load" err), st)
      | Ok (Some current) => reserveExisting env request current now st
      | Ok None =>
          match q_Plan request with
          | None => (Err (Typed (newError Denied "budget_plan_required" false)), st)
          | Some plan =>
              match newLedgerWithReservation request plan now with
              | Err e => (Err (Typed e), st)
              | Ok (candidate, reservation) =>
                  let '(begun, st) := store_begin st (q_IdempotencyKey request ++ ":budget") candidate in
                  match begun with
                  | Err err => (Err (mapStoreError env "budget_store_begin" err), st)
                  | Ok (stored, false) =>
                      (lift (check_stored stored (l_ProvenanceDigest candidate) ;;
                             Ok (mkReservation (rv_ReservationDigest reservation)
                                   (rv_PlanDigest reservation) (rv_ClaimDigest reservation)
                                   (l_ProvenanceDigest stored) false)), st)
                  | Ok (stored, true) => reserveExisting env request stored now st
                  end
              end
          end
      end
  end.

Definition Settle (env : call_env) (request : SettlementRequest) (st : S)
  : result go_error Settlement * S :=
  match deny_if (negb (env_ready env)) (newError Unavailable "budget_unavailable" true) ;;
        validateContext (env_ctx env) ;;
        validateSettlementRequest request with
  | Err e => (Err (Typed e), st)
  | Ok _ =>
      match store_load st (s_Case request) (s_RunID request) with
      | Err err => (Err (mapStoreError env "budget_store_load" err), st)
      | Ok None => (Err (Typed (newError Denied "budget_ledger_missing" false)), st)
      | Ok (Some current) =>
          match plan_settle request current (env_now env) with
          | Err e => (Err (Typed e), st)
          | Ok (ReplaySettlement s) => (Ok s, st)
          | Ok (ReleaseLedger next reservation settlement) =>
              let '(saved, st) := store_save st (s_IdempotencyKey request ++ ":budget") current next in
              match saved with
              | Err err => (Err (mapStoreError env "budget_store_save" err), st)
              | Ok stored =>
                  (lift (check_stored stored (l_ProvenanceDigest next) ;;
                         Ok (mkSettlement reservation settlement (l_ProvenanceDigest stored) false)), st)
              end
          end
      end
  end.
End controller.
