(* ===== verification/RunBudgetFacts.v ===== *)
(** * The budget ledger: what validation means

    [validateLedger] is characterised by the declarative [ledger_sound]: tasks in
    strictly increasing order, each record valid, the charged totals the sums of the
    claims, the active concurrency the sum over the active records, delegation a forest
    whose depths and fan-outs respect the claims. *)

From S2P Require Import Prelude GoStrings GoRegexp GoTime GoJson DomainContract Sha256 Domain RunBudget.

Local Open Scope string_scope.
Local Open Scope Z_scope.

(** ** Sums over the records *)

Definition claim_sum (f : Vector -> Z) (l : list ReservationRecord) : Z :=
  foldr (fun r acc => f (r_Claim r) + acc) 0 l.

Definition active_concurrency (r : ReservationRecord) : Z :=
  if String.eqb (r_Status r) ReservationActive then Concurrency (r_Claim r) else 0.

Definition active_sum (l : list ReservationRecord) : Z :=
  foldr (fun r acc => active_concurrency r + acc) 0 l.

(** The five dimensions that are charged *)
Definition charged_total (l : list ReservationRecord) : Vector :=
  mkVector (claim_sum Tokens l) (claim_sum CostMicros l) 0 (claim_sum ToolCalls l)
    (claim_sum QueryRows l) (claim_sum EvidenceBytes l) 0 0 0.

Definition vector_add (a b : Vector) : Vector :=
  mkVector (Tokens a + Tokens b) (CostMicros a + CostMicros b) 0 (ToolCalls a + ToolCalls b)
    (QueryRows a + QueryRows b) (EvidenceBytes a + EvidenceBytes b) 0 0 0.

(** A vector of totals: five counters from zero to [max], nothing else *)
Definition totals (v : Vector) : Prop :=
  0 <= Tokens v <= max_int64 /\ 0 <= CostMicros v <= max_int64 /\ 0 <= ToolCalls v <= max_int64 /\
  0 <= QueryRows v <= max_int64 /\ 0 <= EvidenceBytes v <= max_int64 /\
  WallTimeNanoseconds v = 0 /\ DelegationDepth v = 0 /\ Fanout v = 0 /\ Concurrency v = 0.

Definition records_typed (l : list ReservationRecord) : Prop :=
  Forall (fun r => vector_typed (r_Claim r)) l.

(** A claim that [validClaimVector] accepted *)
Definition claim_ok (v : Vector) : Prop := vector_typed v /\ validClaimVector v = true.

Lemma add_pair_spec a b :
  0 <= a <= max_int64 -> 0 <= b <= max_int64 ->
  add_pair a b = if a + b <=? max_int64 then Some (a + b) else None.
Proof.
  unfold add_pair, u64, maximumUintBudget, max_int64. intros Ha Hb.
  rewrite (Z.mod_small (2 ^ 63 - 1 - b)) by lia. rewrite (Z.mod_small (a + b)) by lia.
  destruct (Z.ltb_spec (2 ^ 63 - 1 - b) a), (Z.leb_spec (a + b) (2 ^ 63 - 1)); lia || done.
Qed.

Lemma claim_ok_bounds v : claim_ok v ->
  0 <= Tokens v <= max_int64 /\ 0 <= CostMicros v <= max_int64 /\ 0 <= ToolCalls v <= max_int64 /\
  0 <= QueryRows v <= max_int64 /\ 0 <= EvidenceBytes v <= max_int64 /\
  1 <= Concurrency v < 2 ^ 32 /\ 0 <= Fanout v < 2 ^ 32 /\ 0 <= DelegationDepth v < 2 ^ 32.
Proof.
  intros [Ht Hv]. unfold vector_typed, is_u64, is_u32 in Ht.
  unfold validClaimVector, maximumUintBudget in Hv. bool_split. lia.
Qed.

(** [addCharged] is addition guarded by the 63-bit bound. *)
Lemma addCharged_spec a b : totals a -> claim_ok b ->
  forall c, addCharged a b = Some c <-> c = vector_add a b /\ totals (vector_add a b).
Proof.
  intros Ha Hb%claim_ok_bounds c. unfold totals in Ha.
  unfold addCharged. rewrite !add_pair_spec by lia.
  assert (Htot : totals (vector_add a b) <->
    (Tokens a + Tokens b <= max_int64 /\ CostMicros a + CostMicros b <= max_int64 /\
     ToolCalls a + ToolCalls b <= max_int64 /\ QueryRows a + QueryRows b <= max_int64 /\
     EvidenceBytes a + EvidenceBytes b <= max_int64)) by (unfold totals, vector_add; cbn; lia).
  rewrite Htot. unfold vector_add.
  repeat match goal with |- context [?x <=? max_int64] => destruct (Z.leb_spec x max_int64) end;
    cbn; split; intros Hc; try (by destruct Hc; lia); try done;
    try (by injection Hc as <-; split; [done|lia]).
  by destruct Hc as [-> _].
Qed.

(** ** The loop of [validateLedger] *)

Fixpoint increasing (prior : option string) (l : list ReservationRecord) : Prop :=
  match l with
  | [] => True
  | r :: l' =>
      match prior with Some p => str_lt p (r_TaskID r) | None => True end /\
      increasing (Some (r_TaskID r)) l'
  end.

Fixpoint last_task (prior : option string) (l : list ReservationRecord) : option string :=
  match l with [] => prior | r :: l' => last_task (Some (r_TaskID r)) l' end.

Definition bump_child (m : gmap string Z) (r : ReservationRecord) : gmap string Z :=
  if String.eqb (r_ParentTaskID r) "" then m
  else <[r_ParentTaskID r := u32 (default 0 (m !! r_ParentTaskID r) + 1)]> m.

Definition tally_after (t : tally) (l : list ReservationRecord) : tally :=
  mkTally (last_task (t_prior t) l) (list_to_set (map r_TaskID l) ∪ t_seen t)
    (foldl bump_child (t_children t) l) (vector_add (t_charged t) (charged_total l))
    (t_active t + active_sum l).

(** The tasks seen so far do not come after the last one. *)
Definition tally_wf (t : tally) : Prop :=
  (forall x, x ∈ t_seen t -> exists p, t_prior t = Some p /\ (x = p \/ str_lt x p)) /\
  totals (t_charged t) /\ 0 <= t_active t <= max_uint32.

Lemma claim_sum_nonneg f l : Forall (fun r => 0 <= f (r_Claim r)) l -> 0 <= claim_sum f l.
Proof. unfold claim_sum. induction 1; cbn; lia. Qed.

Lemma active_concurrency_bounds r : claim_ok (r_Claim r) -> 0 <= active_concurrency r < 2 ^ 32.
Proof.
  intros Hr%claim_ok_bounds. unfold active_concurrency. destruct (String.eqb _ _); lia.
Qed.

Lemma active_sum_nonneg l : Forall (fun r => claim_ok (r_Claim r)) l -> 0 <= active_sum l.
Proof.
  unfold active_sum. induction 1 as [|r l Hr%active_concurrency_bounds Hl IH]; cbn; lia.
Qed.

Lemma charged_total_nonneg l : Forall (fun r => claim_ok (r_Claim r)) l ->
  0 <= Tokens (charged_total l) /\ 0 <= CostMicros (charged_total l) /\
  0 <= ToolCalls (charged_total l) /\ 0 <= QueryRows (charged_total l) /\
  0 <= EvidenceBytes (charged_total l).
Proof.
  intros Hl. cbn. split_and!; apply claim_sum_nonneg; eapply Forall_impl; try exact Hl;
    cbn; intros r Hr%claim_ok_bounds; lia.
Qed.

Lemma tally_record_step ledger t r t' :
  tally_wf t -> vector_typed (r_Claim r) -> validateReservationRecord ledger r = Ok tt ->
  claim_ok (r_Claim r) ->
  tally_record ledger t r = Ok t' <->
  match t_prior t with Some p => str_lt p (r_TaskID r) | None => True end /\
  totals (vector_add (t_charged t) (r_Claim r)) /\ t_active t + active_concurrency r <= max_uint32 /\
  t' = mkTally (Some (r_TaskID r)) ({[r_TaskID r]} ∪ t_seen t) (bump_child (t_children t) r)
         (vector_add (t_charged t) (r_Claim r)) (t_active t + active_concurrency r).
Proof.
  intros (Hseen & Htot & Hact) Htyped Hval Hclaim.
  pose proof (claim_ok_bounds _ Hclaim) as Hb.
  unfold tally_record. rewrite bind_ok. setoid_rewrite deny_if_ok.
  assert (Hprior : match t_prior t with Some p => String.leb (r_TaskID r) p | None => false end = false
    <-> match t_prior t with Some p => str_lt p (r_TaskID r) | None => True end).
  { destruct (t_prior t); [apply str_leb_false | done]. }
  rewrite Hval.
  assert (Hactive : forall b : bool, b = String.eqb (r_Status r) ReservationActive ->
    (if b then u64 (t_active t + Concurrency (r_Claim r)) else t_active t) = t_active t + active_concurrency r).
  { intros b ->. unfold active_concurrency, u64, max_uint32 in *.
    destruct (String.eqb _ _); [rewrite Z.mod_small; lia | lia]. }
  rewrite (Hactive _ eq_refl).
  assert (Hdeny : String.eqb (r_Status r) ReservationActive && (max_uint32 <? t_active t + active_concurrency r) = false
    <-> t_active t + active_concurrency r <= max_uint32).
  { unfold active_concurrency. destruct (String.eqb _ _); cbn [andb]; [|split; [lia|done]].
    apply Z.ltb_ge. }
  fold (bump_child (t_children t) r). cbn [mbind result_bind].
  split.
  - intros ([] & Hlt%Hprior & H). inv_ok.
    destruct (addCharged (t_charged t) (r_Claim r)) as [c|] eqn:Hadd; [|done]. inv_ok.
    apply (addCharged_spec _ _ Htot Hclaim) in Hadd as [-> Htot'].
    split_and!; [done..| |done]. by apply Hdeny.
  - intros (Hlt & Htot' & Hle & ->). exists tt. split; [by apply Hprior|].
    rewrite bool_decide_false.
    2: { intros (p & Hp & Hx)%Hseen. rewrite Hp in Hlt. destruct Hx as [Hx|Hx].
         - rewrite Hx in Hlt. by apply str_lt_irrefl in Hlt.
         - apply (str_lt_irrefl p). by etrans. }
    cbn [deny_if mbind result_bind].
    rewrite (proj2 (addCharged_spec _ _ Htot Hclaim _) (conj eq_refl Htot')).
    apply Hdeny in Hle. by rewrite Hle.
Qed.

Lemma record_valid_claim ledger r :
  validateReservationRecord ledger r = Ok tt -> vector_typed (r_Claim r) -> claim_ok (r_Claim r).
Proof. unfold validateReservationRecord. intros H Ht. split; [done|]. inv_ok. done. Qed.

Lemma vector_add_zero v : totals v -> vector_add v zero_vector = v.
Proof.
  unfold totals. destruct v; cbn. intros (_ & _ & _ & _ & _ & -> & -> & -> & ->).
  unfold vector_add. cbn. f_equal; lia.
Qed.

Lemma charged_total_cons r l : charged_total (r :: l) = vector_add (r_Claim r) (charged_total l).
Proof. done. Qed.

Lemma vector_add_assoc a b c : vector_add (vector_add a b) c = vector_add a (vector_add b c).
Proof. unfold vector_add. cbn. f_equal; lia. Qed.

Definition tally_step (t : tally) (r : ReservationRecord) : tally :=
  mkTally (Some (r_TaskID r)) ({[r_TaskID r]} ∪ t_seen t) (bump_child (t_children t) r)
    (vector_add (t_charged t) (r_Claim r)) (t_active t + active_concurrency r).

Lemma tally_after_cons t r l : tally_after t (r :: l) = tally_after (tally_step t r) l.
Proof.
  unfold tally_after, tally_step. cbn [last_task map t_prior t_seen t_children t_charged t_active foldl].
  rewrite charged_total_cons, vector_add_assoc.
  f_equal; [cbn; set_solver|]. unfold active_sum. cbn. lia.
Qed.

Lemma tally_step_wf t r :
  tally_wf t -> claim_ok (r_Claim r) ->
  match t_prior t with Some p => str_lt p (r_TaskID r) | None => True end ->
  totals (vector_add (t_charged t) (r_Claim r)) -> t_active t + active_concurrency r <= max_uint32 ->
  tally_wf (tally_step t r).
Proof.
  intros (Hseen & _ & Hact) Hclaim%active_concurrency_bounds Hlt Htot Hle.
  refine (conj _ (conj Htot _)); [|cbn; lia].
  cbn. intros x [->%elem_of_singleton|Hx]%elem_of_union; [eauto|].
  eexists. split; [done|]. destruct (Hseen x Hx) as (p & Hp & Hxp). rewrite Hp in Hlt.
  right. destruct Hxp as [->|Hxp]; [done|]. by etrans.
Qed.

Lemma tally_fold ledger l : forall t t',
  tally_wf t -> records_typed l ->
  fold_res (tally_record ledger) t l = Ok t' <->
  Forall (fun r => validateReservationRecord ledger r = Ok tt) l /\ increasing (t_prior t) l /\
  totals (vector_add (t_charged t) (charged_total l)) /\ t_active t + active_sum l <= max_uint32 /\
  t' = tally_after t l.
Proof.
  induction l as [|r l IH]; intros t t' Hwf Htyped.
  - cbn [fold_res increasing]. pose proof Hwf as (_ & Htot & Hact).
    assert (tally_after t [] = t) as ->.
    { unfold tally_after. cbn. rewrite union_empty_l_L, vector_add_zero by done.
      destruct t; cbn. f_equal. lia. }
    change (charged_total []) with zero_vector. rewrite vector_add_zero by done. cbn [active_sum foldr].
    split; [intros [= <-]; split_and!; (done || lia || constructor) | naive_solver].
  - apply Forall_cons in Htyped as [Hr Hl]. cbn [fold_res]. rewrite bind_ok, Forall_cons.
    rewrite tally_after_cons, charged_total_cons, <- vector_add_assoc.
    assert (Hact : t_active t + active_sum (r :: l) = t_active t + active_concurrency r + active_sum l)
      by (unfold active_sum; cbn; lia).
    rewrite Hact. cbn [increasing]. split.
    + intros (t1 & Hstep & Hfold).
      assert (Hval : validateReservationRecord ledger r = Ok tt).
      { unfold tally_record in Hstep. inv_ok. done. }
      pose proof (record_valid_claim _ _ Hval Hr) as Hclaim.
      apply tally_record_step in Hstep as (Hlt & Htot & Hle & ->); [|done..].
      apply (IH (tally_step t r) t') in Hfold; [|by apply tally_step_wf|done]. naive_solver.
    + intros ([Hval Hvals] & [Hlt Hinc] & Htot & Hle & ->).
      pose proof (record_valid_claim _ _ Hval Hr) as Hclaim.
      assert (Hclaims : Forall (fun r => claim_ok (r_Claim r)) l).
      { apply Forall_forall. intros x Hx. rewrite Forall_forall in Hvals. unfold records_typed in Hl.
        rewrite Forall_forall in Hl. eapply record_valid_claim; auto. }
      pose proof (charged_total_nonneg l Hclaims). pose proof (active_sum_nonneg l Hclaims).
      pose proof Hwf as (_ & Ht0 & _). pose proof (claim_ok_bounds _ Hclaim).
      assert (totals (vector_add (t_charged t) (r_Claim r))).
      { unfold totals, vector_add in *. cbn in *. lia. }
      assert (t_active t + active_concurrency r <= max_uint32) by lia.
      exists (tally_step t r). split.
      * by apply tally_record_step.
      * apply IH; [by apply tally_step_wf|done|]. done.
Qed.

(** ** Children *)

Definition child_count (p : string) (l : list ReservationRecord) : Z :=
  foldr (fun r acc => (if String.eqb (r_ParentTaskID r) p then 1 else 0) + acc) 0 l.

Lemma child_count_bounds p l : 0 <= child_count p l <= Z.of_nat (length l).
Proof. unfold child_count. induction l; cbn; [lia|]. destruct (String.eqb _ _); lia. Qed.

Lemma bump_child_eq m r : r_ParentTaskID r <> "" ->
  bump_child m r !! r_ParentTaskID r = Some (u32 (default 0 (m !! r_ParentTaskID r) + 1)).
Proof.
  intros H. unfold bump_child. destruct (String.eqb_spec (r_ParentTaskID r) ""); [done|].
  apply lookup_insert_eq.
Qed.

Lemma bump_child_ne m r p : r_ParentTaskID r <> p -> bump_child m r !! p = m !! p.
Proof.
  intros H. unfold bump_child. destruct (String.eqb_spec (r_ParentTaskID r) ""); [done|].
  by apply lookup_insert_ne.
Qed.

Lemma child_count_cons p r l :
  child_count p (r :: l) = (if String.eqb (r_ParentTaskID r) p then 1 else 0) + child_count p l.
Proof. done. Qed.

(** The counter of a parent is its number of children; it never wraps below [2^32]
    records, and a parent without children has no entry. *)
Lemma children_lookup p l : forall m,
  p <> "" -> (forall n, m !! p = Some n -> 0 < n) -> default 0 (m !! p) + Z.of_nat (length l) < 2 ^ 32 ->
  foldl bump_child m l !! p =
    if decide (default 0 (m !! p) + child_count p l = 0) then None
    else Some (default 0 (m !! p) + child_count p l).
Proof.
  induction l as [|r l IH]; intros m Hp Hpos Hb.
  - cbn [foldl child_count foldr]. rewrite Z.add_0_r.
    destruct (m !! p) as [n|] eqn:E; cbn; case_decide; try done.
    specialize (Hpos n eq_refl). lia.
  - cbn [foldl length] in *. rewrite child_count_cons.
    pose proof (child_count_bounds p l).
    assert (Hd : 0 <= default 0 (m !! p)).
    { destruct (m !! p) as [n|] eqn:E; cbn; [specialize (Hpos n eq_refl)|]; lia. }
    destruct (String.eqb_spec (r_ParentTaskID r) p) as [<-|Hne].
    + assert (Hu : u32 (default 0 (m !! r_ParentTaskID r) + 1) = default 0 (m !! r_ParentTaskID r) + 1)
        by (unfold u32; rewrite Z.mod_small; lia).
      rewrite IH; [|done|..]; rewrite bump_child_eq by done; rewrite ?Hu; cbn [default from_option id].
      * by rewrite Z.add_assoc.
      * intros n [= <-]. lia.
      * lia.
    + rewrite Z.add_0_l. rewrite IH; [|done|..]; rewrite bump_child_ne by done; [done..|lia].
Qed.

Lemma children_lookup_root l : forall m, m !! "" = None -> foldl bump_child m l !! "" = None.
Proof.
  induction l as [|r l IH]; intros m Hm; [done|]. cbn. apply IH. unfold bump_child.
  destruct (String.eqb_spec (r_ParentTaskID r) ""); [done|]. by rewrite lookup_insert_ne.
Qed.

(** ** Records by task *)

Lemma increasing_sorted l : forall prior,
  increasing prior l <->
  match prior with Some p => Forall (fun r => str_lt p (r_TaskID r)) l | None => True end /\
  StronglySorted str_lt (map r_TaskID l).
Proof.
  induction l as [|r l IH]; intros prior; cbn [increasing map].
  - destruct prior; split; intros; repeat constructor.
  - rewrite IH. split.
    + intros [Hp [Hr Hs]]. split; [|constructor; [done|by apply Forall_map]].
      destruct prior as [p|]; [|done]. constructor; [done|].
      eapply Forall_impl; [exact Hr|]. intros x Hx. by transitivity (r_TaskID r).
    + intros [Hp Hs]. inversion Hs as [|? ? Hs' Hr]; subst. apply (proj1 (Forall_map _ _ _)) in Hr.
      split; [|split; [exact Hr|exact Hs']]. destruct prior; [|done]. by inversion Hp.
Qed.

Lemma sorted_tasks_unique l r1 r2 :
  StronglySorted str_lt (map r_TaskID l) -> r1 ∈ l -> r2 ∈ l -> r_TaskID r1 = r_TaskID r2 -> r1 = r2.
Proof.
  intros Hs. assert (Hlt : forall r l', StronglySorted str_lt (map r_TaskID (r :: l')) ->
    forall x, x ∈ l' -> r_TaskID r <> r_TaskID x).
  { intros r l' Hs' x Hx Heq. inversion Hs' as [|? ? _ Hall]; subst.
    apply (proj1 (Forall_map r_TaskID _ _)) in Hall. rewrite Forall_forall in Hall. specialize (Hall x Hx). cbn in Hall.
    rewrite Heq in Hall. by apply str_lt_irrefl in Hall. }
  induction l as [|r l IH]; [by intros ?%elem_of_nil|].
  intros [->|H1]%elem_of_cons [->|H2]%elem_of_cons Heq; [done|..].
  - by destruct (Hlt _ _ Hs _ H2).
  - by destruct (Hlt _ _ Hs _ H1).
  - apply IH; [|done..]. by inversion Hs.
Qed.

Lemma sorted_nodup (l : list string) : StronglySorted str_lt l -> NoDup l.
Proof.
  induction 1 as [|x l Hs IH Hall]; constructor; [|done].
  intros Hx. rewrite Forall_forall in Hall. by apply Hall, str_lt_irrefl in Hx.
Qed.

Lemma find_record_some id l i r :
  find_record id l = Some (i, r) -> l !! i = Some r /\ r ∈ l /\ r_TaskID r = id.
Proof.
  unfold find_record. intros (Hl & Hid & _)%list_find_Some. split_and!; [done| |done].
  by eapply list_elem_of_lookup_2.
Qed.

Lemma find_record_none id l : find_record id l = None <-> Forall (fun r => r_TaskID r <> id) l.
Proof. apply list_find_None. Qed.

Lemma find_record_unique id l r :
  StronglySorted str_lt (map r_TaskID l) -> r ∈ l -> r_TaskID r = id ->
  exists i, find_record id l = Some (i, r).
Proof.
  intros Hs Hr Hid. destruct (find_record id l) as [[i r']|] eqn:E.
  - apply find_record_some in E as (_ & Hr' & Hid'). exists i. f_equal. f_equal.
    apply (sorted_tasks_unique l); congruence.
  - apply find_record_none in E. rewrite Forall_forall in E. by destruct (E r Hr).
Qed.

(** ** Delegation *)

(** A root has depth zero; a delegated task is one deeper than its parent. *)
Definition delegated (l : list ReservationRecord) (r : ReservationRecord) : Prop :=
  (r_ParentTaskID r = "" /\ DelegationDepth (r_Claim r) = 0) \/
  (r_ParentTaskID r <> "" /\
   exists p, p ∈ l /\ r_TaskID p = r_ParentTaskID r /\
     DelegationDepth (r_Claim r) = DelegationDepth (r_Claim p) + 1).

Lemma depth_step (d e : Z) : is_u32 d -> is_u32 e ->
  (e =? max_uint32) || negb (d =? u32 (e + 1)) = false <-> d = e + 1.
Proof.
  unfold is_u32, max_uint32, u32. intros Hd He. rewrite orb_false_iff, negb_false_iff, Z.eqb_eq, Z.eqb_neq.
  split; [intros [Hm ->]; rewrite Z.mod_small; lia | intros ->; rewrite Z.mod_small; lia].
Qed.

Lemma check_hierarchy_ok l r :
  StronglySorted str_lt (map r_TaskID l) -> records_typed l -> r ∈ l ->
  check_hierarchy l r = Ok tt <-> delegated l r.
Proof.
  intros Hs Ht Hr. unfold records_typed in Ht. rewrite Forall_forall in Ht.
  assert (Hdep : forall x, x ∈ l -> is_u32 (DelegationDepth (r_Claim x))).
  { intros x Hx. specialize (Ht x Hx). unfold vector_typed in Ht. tauto. }
  unfold check_hierarchy, delegated. destruct (String.eqb_spec (r_ParentTaskID r) "") as [He|He].
  - rewrite deny_if_ok, negb_false_iff, Z.eqb_eq. naive_solver.
  - split.
    + destruct (find_record _ _) as [[i p]|] eqn:E; [|done].
      apply find_record_some in E as (_ & Hp & Hid).
      rewrite deny_if_ok, depth_step by auto. intros Hd. right. split; [done|]. by exists p.
    + intros [[? _]|(_ & p & Hp & Hid & Hd)]; [done|].
      destruct (find_record_unique _ _ _ Hs Hp Hid) as [i ->].
      rewrite deny_if_ok, depth_step by auto. done.
Qed.

(** ** Fan-out *)

Definition fanout_within (l : list ReservationRecord) : Prop :=
  Forall (fun p => child_count (r_TaskID p) l <= Fanout (r_Claim p)) l.

Lemma child_count_pos p l : 0 < child_count p l <-> exists r, r ∈ l /\ r_ParentTaskID r = p.
Proof.
  induction l as [|r l IH]; [cbn; split; [lia|by intros (? & ?%elem_of_nil & _)]|].
  rewrite child_count_cons. pose proof (child_count_bounds p l).
  setoid_rewrite elem_of_cons. destruct (String.eqb_spec (r_ParentTaskID r) p); [|naive_solver lia].
  split; [intros _; eauto | lia].
Qed.

Lemma check_fanout_ok l :
  StronglySorted str_lt (map r_TaskID l) -> Z.of_nat (length l) < 2 ^ 32 ->
  Forall (fun r => r_TaskID r <> "") l -> Forall (delegated l) l -> records_typed l ->
  for_each (check_fanout l) (map_to_list (foldl bump_child ∅ l)) = Ok tt <-> fanout_within l.
Proof.
  intros Hs Hlen Hne Hdel Htyped. unfold records_typed in Htyped. rewrite Forall_forall in Hdel, Hne, Htyped.
  rewrite for_each_ok. unfold fanout_within. rewrite !Forall_forall.
  assert (Hlook : forall p, p <> "" -> foldl bump_child ∅ l !! p =
    if decide (child_count p l = 0) then None else Some (child_count p l)).
  { intros p Hp. rewrite children_lookup; [|done|..]; rewrite lookup_empty; cbn; [done..|lia]. }
  split.
  - intros Hall p Hp. destruct (decide (child_count (r_TaskID p) l = 0)) as [->|Hc].
    { specialize (Htyped p Hp). unfold vector_typed, is_u32 in Htyped. lia. }
    specialize (Hall (r_TaskID p, child_count (r_TaskID p) l)).
    rewrite elem_of_map_to_list, Hlook, decide_False in Hall by auto. specialize (Hall eq_refl).
    unfold check_fanout in Hall. cbn [fst snd] in Hall.
    destruct (find_record_unique _ _ _ Hs Hp eq_refl) as [i Hf]. rewrite Hf in Hall.
    apply deny_if_ok in Hall. lia.
  - intros Hall [p n] Hp%elem_of_map_to_list. cbn.
    destruct (decide (p = "")) as [->|Hp'].
    { by rewrite children_lookup_root in Hp. }
    rewrite Hlook in Hp by done. case_decide as Hc; [done|]. injection Hp as <-.
    pose proof (child_count_bounds p l).
    assert (Hpos : 0 < child_count p l) by lia. apply child_count_pos in Hpos as (r & Hr & Hpar).
    destruct (Hdel r Hr) as [[? _]|(_ & q & Hq & Hid & _)]; [congruence|].
    rewrite Hpar in Hid. unfold check_fanout. cbn [fst snd].
    destruct (find_record_unique _ _ _ Hs Hq Hid) as [i ->].
    apply deny_if_ok. rewrite <- Hid. specialize (Hall q Hq). cbn in Hall. lia.
Qed.

(** ** What a valid ledger is *)

(** The Go types of a ledger's fields bound its numbers. *)
Definition ledger_typed (l : Ledger) : Prop :=
  vector_typed (l_Limits l) /\ vector_typed (l_Charged l) /\ is_u32 (l_ActiveConcurrency l) /\
  is_u64 (l_Revision l) /\ records_typed (l_Reservations l).

(** The first guard of [validateLedger]: formats, versions and ranges of the fields *)
Definition ledger_fields_ok (value : Ledger) : Prop :=
  l_SchemaVersion value = SchemaVersion /\ l_ContractVersion value = ContractVersion /\
  uuidPattern (l_RunID value) = true /\ validCase (l_Case value) = true /\
  digestPattern (l_PlanDigest value) = true /\ digestPattern (l_PolicyDigest value) = true /\
  tokenPattern (l_ProviderRoute value) = true /\ validLimitVector (l_Limits value) = true /\
  (1 <= length (l_Reservations value) <= 4096)%nat /\
  tokenPattern (l_ReasonCode value) = true /\ digestPattern (l_ProvenanceDigest value) = true /\
  (l_PreviousProvenanceDigest value = "" \/ digestPattern (l_PreviousProvenanceDigest value) = true) /\
  validTime (l_CreatedAt value) = true /\ validTime (l_ExpiresAt value) = true /\
  validTime (l_UpdatedAt value) = true /\ after (l_ExpiresAt value) (l_CreatedAt value) = true /\
  before (l_UpdatedAt value) (l_CreatedAt value) = false /\ 1 <= l_Revision value <= max_int64.

Record ledger_sound (value : Ledger) : Prop := {
  ls_fields : ledger_fields_ok value;
  ls_plan : planDigest (ledger_plan value) = Ok (l_PlanDigest value);
  ls_records : Forall (fun r => validateReservationRecord value r = Ok tt) (l_Reservations value);
  ls_order : StronglySorted str_lt (map r_TaskID (l_Reservations value));
  ls_charged : l_Charged value = charged_total (l_Reservations value);
  ls_within : vectorWithin (l_Charged value) (l_Limits value) = true;
  ls_active : l_ActiveConcurrency value = active_sum (l_Reservations value);
  ls_active_within : l_ActiveConcurrency value <= Concurrency (l_Limits value);
  ls_delegation : Forall (delegated (l_Reservations value)) (l_Reservations value);
  ls_fanout : fanout_within (l_Reservations value);
  ls_provenance : provenanceDigest (l_PreviousProvenanceDigest value) (l_ReasonCode value) value =
                    Ok (l_ProvenanceDigest value) }.

Lemma check_digest_ok m want e u : check_digest m want e = Ok u <-> m = Ok want.
Proof.
  destruct u. unfold check_digest. destruct m as [d|]; [|done].
  rewrite deny_if_ok, negb_false_iff, String.eqb_eq. naive_solver.
Qed.

Lemma empty_tally_wf : tally_wf empty_tally.
Proof. unfold tally_wf, totals, max_int64, max_uint32. cbn. split; [set_solver | lia]. Qed.

Lemma tally_after_empty l : tally_after empty_tally l =
  mkTally (last_task None l) (list_to_set (map r_TaskID l)) (foldl bump_child ∅ l)
    (charged_total l) (active_sum l).
Proof.
  unfold tally_after. cbn [empty_tally t_prior t_seen t_children t_charged t_active].
  rewrite union_empty_r_L. done.
Qed.

Lemma vectorWithin_spec a b : vectorWithin a b = true <->
  Tokens a <= Tokens b /\ CostMicros a <= CostMicros b /\
  WallTimeNanoseconds a <= WallTimeNanoseconds b /\ ToolCalls a <= ToolCalls b /\
  QueryRows a <= QueryRows b /\ EvidenceBytes a <= EvidenceBytes b /\
  DelegationDepth a <= DelegationDepth b /\ Fanout a <= Fanout b /\ Concurrency a <= Concurrency b.
Proof. unfold vectorWithin. rewrite !andb_true_iff, !Z.leb_le. tauto. Qed.

Lemma record_task_uuid ledger r :
  validateReservationRecord ledger r = Ok tt -> uuidPattern (r_TaskID r) = true.
Proof. unfold validateReservationRecord. intros H. inv_ok. done. Qed.

Lemma records_claim_ok ledger l :
  records_typed l -> Forall (fun r => validateReservationRecord ledger r = Ok tt) l ->
  Forall (fun r => claim_ok (r_Claim r)) l.
Proof.
  unfold records_typed. rewrite !Forall_forall. eauto using record_valid_claim.
Qed.

Lemma records_tasks_nonempty ledger l :
  Forall (fun r => validateReservationRecord ledger r = Ok tt) l -> Forall (fun r => r_TaskID r <> "") l.
Proof.
  intros H. eapply Forall_impl; [exact H|]. intros r Hr. apply uuid_nonempty.
  exact (record_task_uuid ledger r Hr).
Qed.

(** The guard of [validateLedger] on the fields and the totals it announces *)
Definition ledger_guard (value : Ledger) : bool :=
  negb (String.eqb (l_SchemaVersion value) SchemaVersion) ||
  negb (String.eqb (l_ContractVersion value) ContractVersion) ||
  negb (uuidPattern (l_RunID value)) || negb (validCase (l_Case value)) ||
  negb (digestPattern (l_PlanDigest value)) || negb (digestPattern (l_PolicyDigest value)) ||
  negb (tokenPattern (l_ProviderRoute value)) || negb (validLimitVector (l_Limits value)) ||
  negb (validChargedVector (l_Charged value)) ||
  (Concurrency (l_Limits value) <? l_ActiveConcurrency value) ||
  (Z.of_nat (length (l_Reservations value)) =? 0) ||
  (MaximumRecords <? Z.of_nat (length (l_Reservations value))) ||
  negb (tokenPattern (l_ReasonCode value)) || negb (digestPattern (l_ProvenanceDigest value)) ||
  (negb (String.eqb (l_PreviousProvenanceDigest value) "") &&
   negb (digestPattern (l_PreviousProvenanceDigest value))) ||
  negb (validTime (l_CreatedAt value)) || negb (validTime (l_ExpiresAt value)) ||
  negb (validTime (l_UpdatedAt value)) || negb (after (l_ExpiresAt value) (l_CreatedAt value)) ||
  before (l_UpdatedAt value) (l_CreatedAt value) || (l_Revision value =? 0) ||
  (maximumUintBudget <? l_Revision value).

Lemma blank_or_pattern (p : string -> bool) s :
  negb (String.eqb s "") && negb (p s) = false <-> s = "" \/ p s = true.
Proof.
  rewrite andb_false_iff, !negb_false_iff, String.eqb_eq. done.
Qed.

Lemma ledger_guard_ok value : ledger_typed value ->
  ledger_guard value = false <->
  ledger_fields_ok value /\ validChargedVector (l_Charged value) = true /\
  l_ActiveConcurrency value <= Concurrency (l_Limits value).
Proof.
  intros (_ & _ & _ & Hrev & _). unfold is_u64 in Hrev.
  unfold ledger_guard, ledger_fields_ok, maximumUintBudget, MaximumRecords.
  rewrite !orb_false_iff, !negb_false_iff, !String.eqb_eq, blank_or_pattern, !Z.ltb_ge, !Z.eqb_neq.
  intuition lia.
Qed.

Lemma totals_within value :
  vector_typed (l_Limits value) -> validLimitVector (l_Limits value) = true ->
  Forall (fun r => claim_ok (r_Claim r)) (l_Reservations value) ->
  vectorWithin (charged_total (l_Reservations value)) (l_Limits value) = true ->
  totals (charged_total (l_Reservations value)).
Proof.
  intros Ht Hlim Hc Hw. pose proof (charged_total_nonneg _ Hc). apply vectorWithin_spec in Hw.
  unfold validLimitVector, maximumUintBudget in Hlim. bool_split.
  unfold totals. split_and!; try done; cbn in *; lia.
Qed.

Lemma totals_charged v : totals v -> validChargedVector v = true.
Proof.
  unfold totals, validChargedVector, maximumUintBudget. intros.
  rewrite !andb_true_iff, !Z.leb_le, !Z.eqb_eq. lia.
Qed.

Lemma hierarchy_loop_ok l :
  StronglySorted str_lt (map r_TaskID l) -> records_typed l ->
  for_each (check_hierarchy l) l = Ok tt <-> Forall (delegated l) l.
Proof.
  intros Hs Ht. rewrite for_each_ok, !Forall_forall. split; intros H r Hr; specialize (H r Hr);
    by apply check_hierarchy_ok.
Qed.

Lemma validateLedger_parts value :
  validateLedger value = Ok tt <->
  ledger_guard value = false /\ planDigest (ledger_plan value) = Ok (l_PlanDigest value) /\
  exists t, fold_res (tally_record value) empty_tally (l_Reservations value) = Ok t /\
    for_each (check_hierarchy (l_Reservations value)) (l_Reservations value) = Ok tt /\
    for_each (check_fanout (l_Reservations value)) (map_to_list (t_children t)) = Ok tt /\
    (t_charged t = l_Charged value /\ u32 (t_active t) = l_ActiveConcurrency value /\
     vectorWithin (t_charged t) (l_Limits value) = true) /\
    provenanceDigest (l_PreviousProvenanceDigest value) (l_ReasonCode value) value =
      Ok (l_ProvenanceDigest value).
Proof.
  unfold validateLedger. fold (ledger_guard value).
  rewrite seq_ok, deny_if_ok, seq_ok, check_digest_ok, bind_ok.
  apply and_iff_compat_l, and_iff_compat_l. split.
  - intros (t & Hf & H). exists t. split; [done|]. revert H.
    rewrite !seq_ok, check_digest_ok, deny_if_ok, !orb_false_iff, !negb_false_iff,
      bool_decide_eq_true, Z.eqb_eq. tauto.
  - intros (t & Hf & H). exists t. split; [done|]. revert H.
    rewrite !seq_ok, check_digest_ok, deny_if_ok, !orb_false_iff, !negb_false_iff,
      bool_decide_eq_true, Z.eqb_eq. tauto.
Qed.

(** Validation accepts exactly the sound ledgers. *)
Lemma validateLedger_iff value : ledger_typed value ->
  validateLedger value = Ok tt <-> ledger_sound value.
Proof.
  intros Htyped. pose proof Htyped as (Hlim & _ & Hact & _ & Hrt).
  rewrite validateLedger_parts, ledger_guard_ok by done. split.
  - intros ((Hf & Hch & Hle) & Hplan & t & Hfold & Hhier & Hfan & (Hc & Ha & Hw) & Hprov).
    apply tally_fold in Hfold as (Hrec & Hinc & _ & Hsum & ->); [|apply empty_tally_wf|done].
    rewrite tally_after_empty in *. cbn [t_children t_charged t_active empty_tally t_prior] in *.
    apply increasing_sorted in Hinc as [_ Hs].
    pose proof (records_claim_ok _ _ Hrt Hrec) as Hclaims.
    pose proof (active_sum_nonneg _ Hclaims).
    rewrite hierarchy_loop_ok in Hhier by done.
    unfold ledger_fields_ok, max_uint32, u32 in *. rewrite Z.mod_small in Ha by lia.
    apply check_fanout_ok in Hfan; [|done|lia| |done..].
    2: exact (records_tasks_nonempty _ _ Hrec).
    constructor; try done; congruence.
  - intros []. pose proof (records_claim_ok _ _ Hrt ls_records0) as Hclaims.
    pose proof (active_sum_nonneg _ Hclaims). unfold vector_typed, is_u32 in *.
    assert (Htot : totals (charged_total (l_Reservations value))).
    { apply totals_within; [done|unfold ledger_fields_ok in *; tauto|done|congruence]. }
    split_and!; [done|rewrite ls_charged0; by apply totals_charged|done|done|].
    exists (tally_after empty_tally (l_Reservations value)). split_and!.
    + apply tally_fold; [apply empty_tally_wf|done|].
      split_and!; [done|by apply increasing_sorted|done|cbn; unfold max_uint32; lia|done].
    + by apply hierarchy_loop_ok.
    + rewrite tally_after_empty. cbn [t_children]. apply check_fanout_ok; try done.
      * unfold ledger_fields_ok in *. lia.
      * exact (records_tasks_nonempty _ _ ls_records0).
    + rewrite tally_after_empty. done.
    + rewrite tally_after_empty. cbn [t_active]. unfold u32. rewrite Z.mod_small; lia.
    + rewrite tally_after_empty. cbn [t_charged]. congruence.
    + done.
Qed.
