(* ===== verification/RunBudgetExample.v ===== *)
(** * A concrete run

    The run of the package's own tests (a root task and a delegated one under one plan), as inputs for the
    theorems about the budget controller. *)

From S2P Require Import Prelude GoStrings GoRegexp GoTime GoJson DomainContract Sha256 Domain RunBudget.

Local Open Scope string_scope.
Local Open Scope Z_scope.

Definition ex_run : string := "0199a213-1111-7111-8111-111111111111".
Definition ex_task1 : string := "0199a213-2222-7222-8222-222222222222".
Definition ex_task2 : string := "0199a213-3333-7333-8333-333333333333".
Definition ex_scope : CaseRef :=
  mkCaseRef "0199a213-4444-7444-8444-444444444444" "0199a213-5555-7555-8555-555555555555"
    "0199a213-6666-7666-8666-666666666666".
Definition ex_policy : string :=
  "sha256:aaaaaaaaaaaaaaaaaaaaaaaaaaaaaaaaaaaaaaaaaaaaaaaaaaaaaaaaaaaaaaaa".

(** 2026-08-26T18:00:00Z, and [n] seconds later *)
Definition ex_now : Time := default zero_time (parse_timestamp "2026-08-26T18:00:00.000000000Z").
Definition ex_at (n : Z) : Time := time_add ex_now (n * 1000000000).

Definition ex_limits : Vector := mkVector 100 1000 3600000000000 10 1000 1000000 4 8 2.
Definition ex_claim (depth : Z) : Vector := mkVector 10 100 600000000000 1 100 1000 depth 1 1.

Definition ex_plan : Plan :=
  mkPlan SchemaVersion ContractVersion ex_run ex_scope ex_policy "ollama.local" ex_limits (ex_at (-60)) (ex_at 3600).

Definition ex_request (key task parent : string) (depth : Z) (plan : option Plan) : ReservationRequest :=
  mkReservationRequest key ex_run task parent ex_scope "planning" ex_policy "ollama.local" (ex_at 300) plan
    ex_limits (ex_claim depth).

Definition ex_request1 : ReservationRequest := ex_request "reserve-one" ex_task1 "" 0 (Some ex_plan).
Definition ex_request2 : ReservationRequest := ex_request "reserve-two" ex_task2 ex_task1 1 None.

Definition ex_settlement : SettlementRequest :=
  mkSettlementRequest "settle-one" ex_run ex_task1 ex_scope
    "sha256:724c7c579e21697414389b14939d8a8d0df00b138726d7c7ba2b32bf9760634f"
    (Some (mkVector 5 50 300000000000 1 10 100 0 0 1)) "succeeded".

Definition ex_record1 : ReservationRecord :=
  newReservationRecord ex_request1
    "sha256:4c886ef1b6f1937cab9aa92cee84f19e202a4d6764d3462846e867b303084781"
    "sha256:3bc008faf3f8d4a1517068860d76c940de284f3cd96921237ea90db195430f14"
    "sha256:724c7c579e21697414389b14939d8a8d0df00b138726d7c7ba2b32bf9760634f" ex_now.

Definition ex_ledger (charged : Vector) (active : Z) (records : list ReservationRecord)
  (operation previous provenance : string) (updated : Time) (revision : Z) : Ledger :=
  mkLedger SchemaVersion ContractVersion ex_run ex_scope
    "sha256:ea57ec03d005dd07b44109f1b70f8e870e2ea7612fd00939b72a3f4dc187b1bf" ex_policy
    "ollama.local" ex_limits charged active records operation previous provenance
    (ex_at (-60)) (ex_at 3600) updated revision.

(** After the first reservation *)
Definition ex_ledger1 : Ledger :=
  ex_ledger (mkVector 10 100 0 1 100 1000 0 0 0) 1 [ex_record1] "reservation_charged" ""
    "sha256:741ca0658055a02215cca3256648084230ec1ca12b108ed6779cae158cc02d7d" ex_now 1.

Definition ex_reservation2 : string :=
  "sha256:643fb999dd2ee940d132194aed5a4cf7717aa4c101bfb326d6c1dbb16f38478c".
Definition ex_claim2 : string :=
  "sha256:d9784edba4bec950717da5bac3677f88bd82c30a18399f98dec348f7a5db1e42".

(** After the delegated reservation *)
Definition ex_ledger2 : Ledger :=
  ex_ledger (mkVector 20 200 0 2 200 2000 0 0 0) 2
    [ex_record1;
     newReservationRecord ex_request2 ex_claim2
       "sha256:61586b65fe95771106b8ee8d648f9d5267d9836b9eafb6f7b48e9c43b24b70e4" ex_reservation2
       (ex_at 1)]
    "reservation_charged" "sha256:741ca0658055a02215cca3256648084230ec1ca12b108ed6779cae158cc02d7d"
    "sha256:f409421d8ecd25f03d73a2ee9db3a3b1d949da83befe5da76ad9f46c54d22a95" (ex_at 1) 2.

Definition ex_settled : string :=
  "sha256:6c408911018777ffe470c13068253e7bbd6b8035b4da7aa11384936a81db0844".

(** After the root task is settled instead *)
Definition ex_ledger3 : Ledger :=
  ex_ledger (mkVector 10 100 0 1 100 1000 0 0 0) 0
    [update_record ex_record1 (mkVector 5 50 300000000000 1 10 100 0 0 1) "succeeded" ex_settled
       "sha256:beab59787c6adfe2de2e1b415689f222a9399299413d45a60e0ae668c277e32f" (ex_at 2)]
    "reservation_settled" "sha256:741ca0658055a02215cca3256648084230ec1ca12b108ed6779cae158cc02d7d"
    "sha256:5f136a4668fdc961b454790ff4a45df9f685def35de96a47079ad5f41c0f67ef" (ex_at 2) 2.

Lemma ex_begin1 :
  newLedgerWithReservation ex_request1 ex_plan ex_now =
  Ok (ex_ledger1, mkReservation (r_ReservationDigest ex_record1) (l_PlanDigest ex_ledger1)
                    (r_ClaimDigest ex_record1) (l_ProvenanceDigest ex_ledger1) false).
Proof. vm_compute. reflexivity. Qed.

Lemma ex_reserve2 :
  plan_reserve ex_request2 ex_ledger1 (ex_at 1) = Ok (ChargeLedger ex_ledger2 ex_reservation2 ex_claim2).
Proof. vm_compute. reflexivity. Qed.

Lemma ex_settle1 :
  plan_settle ex_settlement ex_ledger1 (ex_at 2) =
  Ok (ReleaseLedger ex_ledger3 (r_ReservationDigest ex_record1) ex_settled).
Proof. vm_compute. reflexivity. Qed.

Lemma ex_request_valid : validateReservationRequest ex_request2 (ex_at 1) = Ok tt.
Proof. vm_compute. reflexivity. Qed.

(** What the evaluations above established of the ledgers they wrote *)
Lemma ex_ledger1_valid : validateLedger ex_ledger1 = Ok tt.
Proof. pose proof ex_settle1 as H. unfold plan_settle in H. by apply bind_ok in H as ([] & H & _). Qed.


Lemma ex_ledger3_valid : validateLedger ex_ledger3 = Ok tt.
Proof. vm_compute. reflexivity. Qed.

Lemma ex_replay2 :
  plan_reserve ex_request2 ex_ledger2 (ex_at 30) =
  Ok (ReplayReservation (mkReservation ex_reservation2 (l_PlanDigest ex_ledger1) ex_claim2
        (l_ProvenanceDigest ex_ledger2) true)).
Proof. vm_compute. reflexivity. Qed.

Lemma ex_ledger2_valid : validateLedger ex_ledger2 = Ok tt.
Proof. pose proof ex_replay2 as H. unfold plan_reserve in H. by apply bind_ok in H as ([] & H & _). Qed.
