(* ===== verification/RunBudgetController.v ===== *)
(** * The budget controller: reservations, settlements and their replays

    What [Reserve] and [Settle] write, as functions of the ledger they loaded: the
    accounting of each branch, the replays, and that the ledgers they build pass the
    validation they run on them. *)

From S2P Require Import Prelude GoStrings GoRegexp GoTime GoJson DomainContract Sha256 Domain RunBudget RunBudgetFacts RunBudgetExample.

Local Open Scope string_scope.
Local Open Scope Z_scope.

(** ** What a transition keeps *)

(** The fields of a ledger that never change once the run has begun *)
Definition same_run (a b : Ledger) : Prop :=
  l_SchemaVersion a = l_SchemaVersion b /\ l_ContractVersion a = l_ContractVersion b /\
  l_RunID a = l_RunID b /\ l_Case a = l_Case b /\ l_PlanDigest a = l_PlanDigest b /\
  l_PolicyDigest a = l_PolicyDigest b /\ l_ProviderRoute a = l_ProviderRoute b /\
  l_Limits a = l_Limits b /\ l_CreatedAt a = l_CreatedAt b /\ l_ExpiresAt a = l_ExpiresAt b.

(** [b] is the next revision of [a], linked to it by its provenance digest. *)
Definition next_revision (a b : Ledger) : Prop :=
  same_run a b /\ l_Revision b = l_Revision a + 1 /\
  l_PreviousProvenanceDigest b = l_ProvenanceDigest a.

(** A record stays as it is, or goes from active to settled; what was reserved for it
    does not change. *)
Definition record_kept (r r' : ReservationRecord) : Prop :=
  r_ReservationDigest r' = r_ReservationDigest r /\ r_ClaimDigest r' = r_ClaimDigest r /\
  r_IdempotencyDigest r' = r_IdempotencyDigest r /\ r_TaskID r' = r_TaskID r /\
  r_ParentTaskID r' = r_ParentTaskID r /\ r_Claim r' = r_Claim r /\
  (r' = r \/ (r_Status r = ReservationActive /\ r_Status r' = ReservationSettled)).

Definition records_kept (l l' : list ReservationRecord) : Prop :=
  forall r, r ∈ l -> exists r', r' ∈ l' /\ record_kept r r'.

#[export] Instance same_run_preorder : PreOrder same_run.
Proof. split; [intros a | intros a b c]; unfold same_run; intuition congruence. Qed.

#[export] Instance record_kept_preorder : PreOrder record_kept.
Proof.
  split; [intros r; unfold record_kept; naive_solver|].
  intros r1 r2 r3 (? & ? & ? & ? & ? & ? & H12) (? & ? & ? & ? & ? & ? & H23).
  unfold record_kept. split_and!; try congruence.
  destruct H12 as [->|[? Hst]]; [done|]. destruct H23 as [->|[? ?]]; [naive_solver|].
  right. split; [done|]. congruence.
Qed.

#[export] Instance records_kept_preorder : PreOrder records_kept.
Proof.
  split; [intros l r Hr; by exists r|].
  intros l1 l2 l3 H12 H23 r Hr. destruct (H12 r Hr) as (r2 & Hr2 & Hk2).
  destruct (H23 r2 Hr2) as (r3 & Hr3 & Hk3). exists r3. split; [done|]. by etrans.
Qed.

(** ** Sorting the records *)

Lemma insert_record_perm r l : insert_record r l ≡ₚ r :: l.
Proof.
  induction l as [|r' l IH]; [done|]. cbn. destruct (String.leb _ _); [done|].
  rewrite IH. apply Permutation_swap.
Qed.

Lemma sort_records_perm l : sort_records l ≡ₚ l.
Proof. induction l as [|r l IH]; [done|]. cbn. by rewrite insert_record_perm, IH. Qed.

Lemma sort_records_snoc l r : sort_records (l ++ [r]) ≡ₚ r :: l.
Proof. by rewrite sort_records_perm, Permutation_app_comm. Qed.

Lemma claim_sum_perm f l l' : l ≡ₚ l' -> claim_sum f l = claim_sum f l'.
Proof. unfold claim_sum. induction 1; cbn; lia. Qed.

Lemma active_sum_perm l l' : l ≡ₚ l' -> active_sum l = active_sum l'.
Proof. unfold active_sum. induction 1; cbn; lia. Qed.

Lemma charged_total_perm l l' : l ≡ₚ l' -> charged_total l = charged_total l'.
Proof. intros H. unfold charged_total. f_equal; by apply claim_sum_perm. Qed.

Lemma child_count_perm p l l' : l ≡ₚ l' -> child_count p l = child_count p l'.
Proof. unfold child_count. induction 1; cbn; lia. Qed.

(** ** The ledgers the controller builds *)

Lemma stamp_ok next prior operation now n :
  is_u64 (l_Revision prior) -> same_run prior next -> stamp next prior operation now = Ok n ->
  l_Revision prior < max_int64 /\ next_revision prior n /\ l_UpdatedAt n = now /\
  l_ReasonCode n = operation /\ l_Charged n = l_Charged next /\
  l_ActiveConcurrency n = l_ActiveConcurrency next /\ l_Reservations n = l_Reservations next.
Proof.
  unfold stamp, is_u64. intros Hu Hsame H. inv_ok. unfold maximumUintBudget, max_int64 in *.
  split; [lia|]. unfold next_revision. cbn.
  unfold u64. rewrite Z.mod_small by lia. split_and!; done.
Qed.

Lemma validate_revision l : validateLedger l = Ok tt -> l_Revision l <= max_int64.
Proof. unfold validateLedger, maximumUintBudget. intros H. inv_ok. lia. Qed.

(** What [reserveExisting] decided when it charges *)
Record charge_facts (request : ReservationRequest) (current next : Ledger) (now : Time)
  (reservation claim : string) : Prop := {
  cf_current : validateLedger current = Ok tt;
  cf_next : validateLedger next = Ok tt;
  cf_scope : l_RunID current = q_RunID request /\ l_Case current = q_Case request /\
    l_PolicyDigest current = q_PolicyDigest request /\ l_ProviderRoute current = q_ProviderRoute request;
  cf_plan : forall plan, q_Plan request = Some plan -> planDigest plan = Ok (l_PlanDigest current);
  cf_digests : reservationDigests request (l_PlanDigest current) =
    Ok (claim, budgetDigest "COH-RUN-BUDGET-IDEMPOTENCY-V1" (q_IdempotencyKey request), reservation);
  cf_fresh : find_record (q_TaskID request) (l_Reservations current) = None;
  cf_time : before now (l_ExpiresAt current) = true;
  cf_revision : next_revision current next;
  cf_charged : addCharged (l_Charged current) (q_Claim request) = Some (l_Charged next);
  cf_active : l_ActiveConcurrency next = u32 (u64 (l_ActiveConcurrency current + Concurrency (q_Claim request)));
  cf_records : l_Reservations next = sort_records (l_Reservations current ++
    [newReservationRecord request claim
       (budgetDigest "COH-RUN-BUDGET-IDEMPOTENCY-V1" (q_IdempotencyKey request)) reservation now]) }.

Lemma reservationDigests_idem request plan c i r :
  reservationDigests request plan = Ok (c, i, r) ->
  i = budgetDigest "COH-RUN-BUDGET-IDEMPOTENCY-V1" (q_IdempotencyKey request).
Proof. unfold reservationDigests. intros H. inv_ok. naive_solver. Qed.

Lemma plan_reserve_charge request current now next reservation claim :
  is_u64 (l_Revision current) ->
  plan_reserve request current now = Ok (ChargeLedger next reservation claim) ->
  charge_facts request current next now reservation claim.
Proof.
  intros Hu H. unfold plan_reserve in H. apply seq_ok in H as [Hcur H].
  apply seq_ok in H as [Hscope H]. apply deny_if_ok in Hscope. bool_split.
  apply seq_ok in H as [Hplan H]. apply bind_ok in H as ([[c i] r] & Hd & H).
  pose proof (reservationDigests_idem _ _ _ _ _ Hd) as ->.
  destruct (find_record _ _) as [[j rec]|] eqn:Hfind; [apply seq_ok in H as [_ H]; done|].
  apply seq_ok in H as [Htime H]. apply deny_if_ok in Htime. bool_split.
  apply seq_ok in H as [_ H]. apply seq_ok in H as [_ H].
  destruct (addCharged _ _) as [charged|] eqn:Hadd; [|done].
  apply seq_ok in H as [_ H]. apply seq_ok in H as [_ H].
  apply bind_ok in H as (n & Hst & H). apply seq_ok in H as [Hval [= -> -> ->]].
  apply stamp_ok in Hst as (? & Hnr & _ & _ & Hch & Hac & Hre); [|done|done].
  cbn in Hch, Hac, Hre.
  repeat match goal with
  | H : String.eqb _ _ = true |- _ => apply String.eqb_eq in H
  | H : bool_decide _ = true |- _ => apply bool_decide_eq_true in H
  end.
  constructor; try done; [|by rewrite Hch].
  intros plan Hp. rewrite Hp in Hplan. by apply check_digest_ok in Hplan.
Qed.

(** What [Settle] decided when it releases *)
Record release_facts (request : SettlementRequest) (current next : Ledger) (now : Time)
  (reservation settlement : string) (index : nat) (record : ReservationRecord) : Prop := {
  rf_current : validateLedger current = Ok tt;
  rf_next : validateLedger next = Ok tt;
  rf_find : find_record (s_TaskID request) (l_Reservations current) = Some (index, record);
  rf_reservation : r_ReservationDigest record = s_ReservationDigest request /\
    reservation = r_ReservationDigest record;
  rf_status : r_Status record <> ReservationSettled;
  rf_valid : validActualVector (default (r_Claim record) (s_Actual request)) = true;
  rf_actual : vectorWithin (default (r_Claim record) (s_Actual request)) (r_Claim record) = true;
  rf_settlement : settlementDigest reservation
    (budgetDigest "COH-RUN-BUDGET-SETTLEMENT-IDEMPOTENCY-V1" (s_IdempotencyKey request))
    (default (r_Claim record) (s_Actual request)) (s_Outcome request) = Ok settlement;
  rf_revision : next_revision current next;
  rf_charged : l_Charged next = l_Charged current;
  rf_covered : Concurrency (r_Claim record) <= l_ActiveConcurrency current;
  rf_active : l_ActiveConcurrency next = u32 (l_ActiveConcurrency current - Concurrency (r_Claim record));
  rf_records : l_Reservations next =
    <[index := update_record record (default (r_Claim record) (s_Actual request)) (s_Outcome request)
        settlement (budgetDigest "COH-RUN-BUDGET-SETTLEMENT-IDEMPOTENCY-V1" (s_IdempotencyKey request))
        now]> (l_Reservations current) }.

Lemma plan_settle_release request current clock next reservation settlement :
  is_u64 (l_Revision current) ->
  plan_settle request current clock = Ok (ReleaseLedger next reservation settlement) ->
  exists index record,
    release_facts request current next (to_utc clock) reservation settlement index record.
Proof.
  intros Hu H. unfold plan_settle in H. apply seq_ok in H as [Hcur H].
  destruct (find_record _ _) as [[index record]|] eqn:Hfind; [|done].
  apply seq_ok in H as [Hdig H]. apply deny_if_ok in Hdig. bool_split. apply String.eqb_eq in Hdig.
  apply seq_ok in H as [Hact H]. apply deny_if_ok in Hact. bool_split.
  apply bind_ok in H as (d & Hd & H).
  destruct (String.eqb_spec (r_Status record) ReservationSettled) as [|Hst];
    [apply seq_ok in H as [_ H]; done|].
  apply seq_ok in H as [_ H]. apply seq_ok in H as [Hcov H]. apply deny_if_ok in Hcov.
  apply bind_ok in H as (n & Hstamp & H). apply seq_ok in H as [Hval [= -> <- ->]].
  apply stamp_ok in Hstamp as (? & Hnr & _ & _ & Hch & Hac & Hre); [|done|done].
  cbn in Hch, Hac, Hre. exists index, record. constructor; try done. lia.
Qed.

(** ** Typed ledgers *)

Definition request_typed (q : ReservationRequest) : Prop :=
  vector_typed (q_Claim q) /\ vector_typed (q_TaskLimits q) /\
  match q_Plan q with Some p => vector_typed (p_Limits p) | None => True end.

Lemma records_typed_perm l l' : l ≡ₚ l' -> records_typed l -> records_typed l'.
Proof. intros Hp. unfold records_typed. by rewrite Hp. Qed.

Lemma charge_records_perm request current next now reservation claim :
  charge_facts request current next now reservation claim ->
  l_Reservations next ≡ₚ
    newReservationRecord request claim
      (budgetDigest "COH-RUN-BUDGET-IDEMPOTENCY-V1" (q_IdempotencyKey request)) reservation now
    :: l_Reservations current.
Proof. intros []. rewrite cf_records0. apply sort_records_snoc. Qed.

Lemma u64_is z : is_u64 (u64 z).
Proof. unfold is_u64, u64. apply Z.mod_pos_bound. lia. Qed.

Lemma u32_is z : is_u32 (u32 z).
Proof. unfold is_u32, u32. apply Z.mod_pos_bound. lia. Qed.

Lemma add_pair_typed a b c : add_pair a b = Some c -> is_u64 c.
Proof. unfold add_pair. destruct (_ <? _); [done|]. intros [= <-]. apply u64_is. Qed.

Lemma addCharged_typed a b c : addCharged a b = Some c -> vector_typed c.
Proof.
  unfold addCharged. intros H.
  repeat (apply bind_Some in H as (? & ?%add_pair_typed & H)). injection H as <-.
  unfold vector_typed. cbn. unfold is_u64, is_u32 in *. lia.
Qed.

Lemma next_revision_typed a b : ledger_typed a -> validateLedger b = Ok tt -> next_revision a b ->
  is_u64 (l_Revision b) /\ l_Limits b = l_Limits a.
Proof.
  intros (_ & _ & _ & Hu & _) Hv%validate_revision (Hs & Hr & _).
  unfold same_run in Hs. unfold is_u64, max_int64 in *. split; [lia|]. by symmetry; apply Hs.
Qed.

Lemma charge_typed request current next now reservation claim :
  ledger_typed current -> request_typed request ->
  charge_facts request current next now reservation claim -> ledger_typed next.
Proof.
  intros Ht (Hq & _) Hf. pose proof (charge_records_perm _ _ _ _ _ _ Hf) as Hp. destruct Hf.
  destruct (next_revision_typed _ _ Ht cf_next0 cf_revision0) as [? Hl].
  destruct Ht as (? & ? & ? & ? & Hr). unfold ledger_typed. rewrite Hl, cf_active0.
  split_and!; [done|by eapply addCharged_typed|apply u32_is|done|].
  eapply records_typed_perm; [symmetry; exact Hp|]. by constructor.
Qed.

(** The records around the one that is settled *)
Lemma settle_split (l : list ReservationRecord) index record new :
  l !! index = Some record ->
  exists l1 l2, l = (l1 ++ record :: l2)%list /\ <[index := new]> l = (l1 ++ new :: l2)%list.
Proof.
  intros Hl. exists (take index l), (drop (S index) l). split.
  - by rewrite take_drop_middle.
  - apply insert_take_drop. by eapply lookup_lt_Some.
Qed.

Lemma release_typed request current next now reservation settlement index record :
  ledger_typed current ->
  release_facts request current next now reservation settlement index record -> ledger_typed next.
Proof.
  intros Ht []. destruct (next_revision_typed _ _ Ht rf_next0 rf_revision0) as [? Hl].
  destruct Ht as (? & ? & ? & ? & Hr). unfold ledger_typed. rewrite Hl, rf_active0, rf_charged0.
  split_and!; [done..|apply u32_is|done|]. rewrite rf_records0.
  apply find_record_some in rf_find0 as (Hi & Hin & _).
  apply Forall_insert; [done|]. unfold records_typed in Hr. rewrite Forall_forall in Hr. exact (Hr record Hin).
Qed.

(** ** Records are kept and charges never shrink *)

Lemma charge_kept request current next now reservation claim :
  charge_facts request current next now reservation claim ->
  records_kept (l_Reservations current) (l_Reservations next).
Proof.
  intros Hf%charge_records_perm r Hr. exists r. split; [|done].
  rewrite Hf. by right.
Qed.

Lemma record_active_or_settled ledger r :
  validateReservationRecord ledger r = Ok tt ->
  r_Status r = ReservationActive \/ r_Status r = ReservationSettled.
Proof.
  unfold validateReservationRecord. intros H. do 2 (apply seq_ok in H as [_ H]).
  destruct (String.eqb_spec (r_Status r) ReservationActive); [by left|]. inv_ok.
  right. by apply String.eqb_eq.
Qed.

Lemma validated_record_status l r : ledger_typed l -> validateLedger l = Ok tt -> r ∈ l_Reservations l ->
  r_Status r = ReservationActive \/ r_Status r = ReservationSettled.
Proof.
  intros Ht [_ _ Hrec _ _ _ _ _ _ _ _]%validateLedger_iff Hr; [|done].
  rewrite Forall_forall in Hrec. eauto using record_active_or_settled.
Qed.

Lemma release_active request current next now reservation settlement index record :
  ledger_typed current ->
  release_facts request current next now reservation settlement index record ->
  r_Status record = ReservationActive.
Proof.
  intros Ht []. apply find_record_some in rf_find0 as (_ & Hin & _).
  by destruct (validated_record_status current record).
Qed.

Lemma release_kept request current next now reservation settlement index record :
  ledger_typed current ->
  release_facts request current next now reservation settlement index record ->
  records_kept (l_Reservations current) (l_Reservations next).
Proof.
  intros Ht Hf r Hr. pose proof (release_active _ _ _ _ _ _ _ _ Ht Hf) as Hact. destruct Hf.
  apply find_record_some in rf_find0 as (Hi & _ & _). rewrite rf_records0.
  match goal with |- context [<[index := ?n]> _] => set (new := n) end.
  destruct (settle_split _ _ _ new Hi) as (l1 & l2 & Hl & ->). rewrite Hl in Hr.
  apply elem_of_app in Hr as [Hr|[->|Hr]%elem_of_cons].
  - exists r. split; [set_solver|done].
  - exists new. split; [set_solver|]. unfold record_kept, new. cbn. tauto.
  - exists r. split; [set_solver|done].
Qed.

Lemma charged_totals l : ledger_typed l -> validateLedger l = Ok tt -> totals (l_Charged l).
Proof.
  intros Ht Hv. apply validateLedger_iff in Hv; [|done]. destruct Ht as (Hlim & _ & _ & _ & Hr).
  pose proof (ls_within _ Hv) as Hw. rewrite (ls_charged _ Hv) in *.
  apply totals_within; [done| |eapply records_claim_ok; [done|apply Hv]|done].
  pose proof (ls_fields _ Hv) as Hf. unfold ledger_fields_ok in Hf. tauto.
Qed.

Lemma charge_claim_ok request current next now reservation claim :
  ledger_typed current -> request_typed request ->
  charge_facts request current next now reservation claim -> claim_ok (q_Claim request).
Proof.
  intros Ht Hq Hf. pose proof (charge_typed _ _ _ _ _ _ Ht Hq Hf) as Htn.
  pose proof (charge_records_perm _ _ _ _ _ _ Hf) as Hp. destruct Hf.
  apply validateLedger_iff in cf_next0; [|done]. destruct Htn as (_ & _ & _ & _ & Hr).
  pose proof (records_claim_ok _ _ Hr (ls_records _ cf_next0)) as Hc. rewrite Hp in Hc.
  by apply Forall_cons in Hc as [Hc _].
Qed.

(** C31. When [Reserve] charges an existing ledger, the ledger it writes is sound, holds
    the earlier records and the new one, its charge is the earlier charge plus the claim
    in every cumulative dimension (as unbounded integers: nothing wrapped), its active
    concurrency grows by the claim, the totals stay within the run's limits, and it is
    the next revision, linked to the ledger that was loaded. *)
Theorem reserve_charges_worst_case request current now next reservation claim :
  ledger_typed current -> request_typed request ->
  plan_reserve request current now = Ok (ChargeLedger next reservation claim) ->
  ledger_sound next /\ next_revision current next /\
  l_Charged next = vector_add (l_Charged current) (q_Claim request) /\
  l_ActiveConcurrency next = l_ActiveConcurrency current + Concurrency (q_Claim request) /\
  vectorWithin (l_Charged next) (l_Limits current) = true /\
  l_ActiveConcurrency next <= Concurrency (l_Limits current) /\
  exists r, r_TaskID r = q_TaskID request /\ r_ReservationDigest r = reservation /\
    r_Claim r = q_Claim request /\ r_Status r = ReservationActive /\
    l_Reservations next ≡ₚ r :: l_Reservations current.
Proof.
  intros Ht Hq H. pose proof Ht as (_ & _ & _ & Hu & _).
  apply plan_reserve_charge in H; [|done].
  pose proof (charge_typed _ _ _ _ _ _ Ht Hq H) as Htn.
  pose proof (charge_claim_ok _ _ _ _ _ _ Ht Hq H) as Hclaim.
  pose proof (charge_records_perm _ _ _ _ _ _ H) as Hp. destruct H.
  pose proof (proj1 (validateLedger_iff _ Htn) cf_next0) as Hs.
  pose proof (proj1 (validateLedger_iff _ Ht) cf_current0) as Hsc.
  assert (Hlim : l_Limits next = l_Limits current)
    by (destruct cf_revision0 as (Hsame & _); unfold same_run in Hsame; symmetry; tauto).
  apply addCharged_spec in cf_charged0 as [Hch _]; [|by apply charged_totals|done].
  split_and!; try done.
  - rewrite (ls_active _ Hs), (ls_active _ Hsc), (active_sum_perm _ _ Hp). unfold active_sum. cbn. lia.
  - rewrite <- Hlim. apply Hs.
  - rewrite <- Hlim. apply Hs.
  - eexists. split_and!; [..|exact Hp]; done.
Qed.

Lemma ex_ledger1_typed : ledger_typed ex_ledger1.
Proof.
  unfold ledger_typed, records_typed, vector_typed, is_u64, is_u32. cbn.
  split_and!; try lia. constructor; [cbn; lia|constructor].
Qed.

Lemma ex_request2_typed : request_typed ex_request2.
Proof. unfold request_typed, vector_typed, is_u64, is_u32. cbn. lia. Qed.

Lemma reserve_charges_worst_case_witness :
  ledger_sound ex_ledger2 /\
  l_Charged ex_ledger2 = vector_add (l_Charged ex_ledger1) (q_Claim ex_request2).
Proof.
  destruct (reserve_charges_worst_case ex_request2 ex_ledger1 (ex_at 1) ex_ledger2 ex_reservation2
    ex_claim2 ex_ledger1_typed ex_request2_typed ex_reserve2) as (Hs & _ & Hc & _).
  exact (conj Hs Hc).
Defined.

(** When [Settle] releases a reservation, the ledger it writes is sound and the next
    revision of the one it loaded; the cumulative charge is exactly what it was (nothing
    is refunded), the active concurrency drops by the reservation's claim, and the
    record of the task, which was active, is the only one that changed: it is settled
    with its claim and reservation digest kept and actual use within the claim. *)
Theorem settle_releases_concurrency_only request current clock next reservation settlement :
  ledger_typed current ->
  plan_settle request current clock = Ok (ReleaseLedger next reservation settlement) ->
  ledger_sound next /\ next_revision current next /\ l_Charged next = l_Charged current /\
  exists l1 r r' l2,
    l_Reservations current = (l1 ++ r :: l2)%list /\ l_Reservations next = (l1 ++ r' :: l2)%list /\
    r_TaskID r = s_TaskID request /\ r_ReservationDigest r = s_ReservationDigest request /\
    r_Status r = ReservationActive /\ r_Status r' = ReservationSettled /\ record_kept r r' /\
    r_SettlementDigest r' = settlement /\ vectorWithin (r_Actual r') (r_Claim r) = true /\
    l_ActiveConcurrency next = l_ActiveConcurrency current - Concurrency (r_Claim r).
Proof.
  intros Ht H. pose proof Ht as (_ & _ & Hact32 & Hu & _).
  apply plan_settle_release in H as (index & record & H); [|done].
  pose proof (release_typed _ _ _ _ _ _ _ _ Ht H) as Htn.
  pose proof (release_active _ _ _ _ _ _ _ _ Ht H) as Hact. destruct H.
  split; [by apply validateLedger_iff|]. split; [done|]. split; [done|].
  apply find_record_some in rf_find0 as (Hi & Hin & Htask).
  destruct (settle_split _ _ _ (update_record record (default (r_Claim record) (s_Actual request))
    (s_Outcome request) settlement
    (budgetDigest "COH-RUN-BUDGET-SETTLEMENT-IDEMPOTENCY-V1" (s_IdempotencyKey request))
    (to_utc clock)) Hi) as (l1 & l2 & Hl & Hl').
  exists l1, record. eexists. exists l2. rewrite rf_records0, Hl'.
  assert (Hc : is_u32 (Concurrency (r_Claim record))).
  { destruct Ht as (_ & _ & _ & _ & Hr). unfold records_typed in Hr. rewrite Forall_forall in Hr.
    specialize (Hr _ Hin). unfold vector_typed in Hr. tauto. }
  split_and!; try done; try tauto.
  - unfold record_kept. cbn. tauto.
  - rewrite rf_active0. unfold u32, is_u32 in *. apply Z.mod_small. lia.
Qed.

Lemma settle_releases_concurrency_only_witness :
  ledger_sound ex_ledger3 /\ l_Charged ex_ledger3 = l_Charged ex_ledger1.
Proof.
  destruct (settle_releases_concurrency_only ex_settlement ex_ledger1 (ex_at 2) ex_ledger3
    (r_ReservationDigest ex_record1) ex_settled ex_ledger1_typed ex_settle1) as (Hs & _ & Hc & _).
  exact (conj Hs Hc).
Defined.

(** ** Replays *)

(** [later] is a ledger some revisions after [next]: it still binds the same run and has
    kept every record. *)
Definition later_ledger (next later : Ledger) : Prop :=
  validateLedger later = Ok tt /\ same_run next later /\
  records_kept (l_Reservations next) (l_Reservations later).

Lemma later_record next later r : ledger_typed later ->
  later_ledger next later -> r ∈ l_Reservations next ->
  exists i r', find_record (r_TaskID r) (l_Reservations later) = Some (i, r') /\ record_kept r r'.
Proof.
  intros Ht (Hv & _ & Hk) Hr. apply validateLedger_iff in Hv; [|done].
  destruct (Hk r Hr) as (r' & Hr' & Hkept).
  assert (Hid : r_TaskID r' = r_TaskID r) by (unfold record_kept in Hkept; tauto).
  destruct (find_record_unique _ _ _ (ls_order _ Hv) Hr' Hid) as [i Hi]. eauto.
Qed.

(** What a request must agree with to be a replay on a ledger *)
Lemma plan_reserve_replays request later now claim idempotency reservation i r :
  validateLedger later = Ok tt ->
  l_RunID later = q_RunID request -> l_Case later = q_Case request ->
  l_PolicyDigest later = q_PolicyDigest request -> l_ProviderRoute later = q_ProviderRoute request ->
  (forall plan, q_Plan request = Some plan -> planDigest plan = Ok (l_PlanDigest later)) ->
  reservationDigests request (l_PlanDigest later) = Ok (claim, idempotency, reservation) ->
  find_record (q_TaskID request) (l_Reservations later) = Some (i, r) ->
  r_ClaimDigest r = claim -> r_IdempotencyDigest r = idempotency -> r_ReservationDigest r = reservation ->
  plan_reserve request later now =
  Ok (ReplayReservation (mkReservation reservation (l_PlanDigest later) claim (l_ProvenanceDigest later) true)).
Proof.
  intros Hv H1 H2 H3 H4 Hplan Hd Hf Hc Hi Hr. unfold plan_reserve.
  assert (match q_Plan request with
          | Some plan => check_digest (planDigest plan) (l_PlanDigest later)
                           (newError Denied "budget_plan_replay_binding" false)
          | None => Ok tt
          end = Ok tt) as ->.
  { destruct (q_Plan request); [|done]. apply check_digest_ok. by apply Hplan. }
  rewrite Hv, Hd, Hf, H1, H2, H3, H4, !String.eqb_refl. cbn [mbind result_bind].
  rewrite bool_decide_true by done. cbn [negb orb deny_if mbind result_bind].
  by rewrite Hc, Hi, Hr, !String.eqb_refl.
Qed.

(** Replay after a lost response.  Once a reservation is charged, the same request
    on the ledger that was written, or on any later ledger of the run, at any time, is
    answered from the record: the same reservation, plan and claim digests, marked
    replayed, and no second charge. *)
Theorem reserve_replay_is_exact request current now next reservation claim later now' :
  ledger_typed current -> ledger_typed later ->
  plan_reserve request current now = Ok (ChargeLedger next reservation claim) ->
  later_ledger next later ->
  plan_reserve request later now' =
  Ok (ReplayReservation
        (mkReservation reservation (l_PlanDigest current) claim (l_ProvenanceDigest later) true)).
Proof.
  intros Ht Htl H Hl. destruct Ht as (_ & _ & _ & Hu & _).
  apply plan_reserve_charge in H; [|done]. pose proof (charge_records_perm _ _ _ _ _ _ H) as Hp.
  destruct H, cf_revision0 as (Hsame & _). pose proof Hl as (Hv & Hsame' & _).
  assert (Hrun : same_run current later) by (by transitivity next). unfold same_run in Hrun.
  destruct Hrun as (_ & H1 & H2 & H3 & H4 & H5 & H6 & _).
  edestruct (later_record next later) as (i & r' & Hf & Hk); [done|done|rewrite Hp; by left|].
  cbn [newReservationRecord r_TaskID] in Hf.
  rewrite H4. destruct cf_scope0 as (? & ? & ? & ?), Hk as (? & ? & ? & _). cbn in *.
  eapply plan_reserve_replays; try done; try congruence.
  intros plan Hpl. rewrite (cf_plan0 plan Hpl). congruence.
Qed.

Lemma ex_ledger2_typed : ledger_typed ex_ledger2.
Proof.
  unfold ledger_typed, records_typed, vector_typed, is_u64, is_u32. cbn.
  split_and!; try lia. repeat (constructor; [cbn; lia|]). constructor.
Qed.

Lemma reserve_replay_is_exact_witness :
  plan_reserve ex_request2 ex_ledger2 (ex_at 30) =
  Ok (ReplayReservation (mkReservation ex_reservation2 (l_PlanDigest ex_ledger1) ex_claim2
        (l_ProvenanceDigest ex_ledger2) true)).
Proof.
  apply (reserve_replay_is_exact ex_request2 ex_ledger1 (ex_at 1) ex_ledger2).
  - exact ex_ledger1_typed.
  - exact ex_ledger2_typed.
  - exact ex_reserve2.
  - split_and!; [exact ex_ledger2_valid|reflexivity..].
Defined.

(** A settlement replays exactly too: once a reservation is settled, the same
    settlement request on that ledger or any later one returns the same settlement
    digest, marked replayed, and releases nothing again. *)
Theorem settle_replay_is_exact request current clock next reservation settlement later clock' :
  ledger_typed current -> ledger_typed later ->
  plan_settle request current clock = Ok (ReleaseLedger next reservation settlement) ->
  later_ledger next later ->
  plan_settle request later clock' =
  Ok (ReplaySettlement (mkSettlement reservation settlement (l_ProvenanceDigest later) true)).
Proof.
  intros Ht Htl H Hl. pose proof Ht as (_ & _ & _ & Hu & _).
  apply plan_settle_release in H as (index & record & []); [|done].
  apply find_record_some in rf_find0 as (Hi & Hin & Htask).
  match type of rf_records0 with _ = <[_ := ?n]> _ => set (new := n) in * end.
  destruct (later_record next later new) as (i & r' & Hfind & Hk); [done|done| |].
  { rewrite rf_records0. eapply list_elem_of_lookup_2, list_lookup_insert_eq.
    by eapply lookup_lt_Some. }
  assert (r' = new) as ->.
  { destruct Hk as (_ & _ & _ & _ & _ & _ & [->|[Hst _]]); [done|]. by vm_compute in Hst. }
  change (r_TaskID new) with (r_TaskID record) in Hfind. rewrite Htask in Hfind.
  destruct Hl as (Hv & _), rf_reservation0 as [Hres ->]. unfold plan_settle. rewrite Hv, Hfind.
  change (r_ReservationDigest new) with (r_ReservationDigest record).
  change (r_Claim new) with (r_Claim record). change (r_Status new) with ReservationSettled.
  cbn [mbind result_bind]. rewrite <- Hres, String.eqb_refl, rf_valid0, rf_actual0, rf_settlement0.
  cbn [negb orb deny_if mbind result_bind]. unfold new. cbn [update_record r_SettlementDigest
    r_SettlementIdempotencyDigest]. by rewrite !String.eqb_refl.
Qed.

Lemma ex_ledger3_typed : ledger_typed ex_ledger3.
Proof.
  unfold ledger_typed, records_typed, vector_typed, is_u64, is_u32. cbn.
  split_and!; try lia. repeat (constructor; [cbn; lia|]). constructor.
Qed.

Lemma settle_replay_is_exact_witness :
  plan_settle ex_settlement ex_ledger3 (ex_at 40) =
  Ok (ReplaySettlement (mkSettlement (r_ReservationDigest ex_record1) ex_settled
        (l_ProvenanceDigest ex_ledger3) true)).
Proof.
  apply (settle_replay_is_exact ex_settlement ex_ledger1 (ex_at 2) ex_ledger3).
  - exact ex_ledger1_typed.
  - exact ex_ledger3_typed.
  - exact ex_settle1.
  - split_and!; [exact ex_ledger3_valid|reflexivity..].
Defined.
