(* ===== verification/RunBudgetAdmission.v ===== *)
(** * Admission: a reservation that fits is not refused by the re-validation

    [reserveExisting] validates the ledger it is about to write.  That check never turns
    down a request that passed the guards before it: the guards of the request, of the
    hierarchy and of the totals are together what [validateLedger] asks of the new
    ledger. *)

From S2P Require Import Prelude GoStrings GoRegexp GoTime GoJson DomainContract Sha256 Domain RunBudget RunBudgetFacts RunBudgetExample RunBudgetController.

Local Open Scope string_scope.
Local Open Scope Z_scope.

(** ** The sorted records *)

Definition tasks (l : list ReservationRecord) : list string := map r_TaskID l.

Lemma insert_record_sorted r l :
  StronglySorted str_lt (tasks l) -> r_TaskID r ∉ tasks l ->
  StronglySorted str_lt (tasks (insert_record r l)).
Proof.
  unfold tasks. induction l as [|r' l IH]; intros Hs Hr; cbn; [by repeat constructor|].
  apply StronglySorted_inv in Hs as [Hs Hall]. apply not_elem_of_cons in Hr as [Hne Hr].
  destruct (String.leb (r_TaskID r) (r_TaskID r')) eqn:Hle; cbn.
  - assert (Hlt : str_lt (r_TaskID r) (r_TaskID r')).
    { destruct (str_lt_trichotomy (r_TaskID r) (r_TaskID r')) as [[|]|Hgt]; [done..|].
      apply str_leb_false in Hgt. congruence. }
    constructor; [by constructor|]. constructor; [done|].
    eapply Forall_impl; [exact Hall|]. intros x Hx. by transitivity (r_TaskID r').
  - constructor; [by apply IH|]. apply str_leb_false in Hle.
    change (map r_TaskID (insert_record r l)) with (r_TaskID <$> insert_record r l).
    rewrite insert_record_perm. cbn. by constructor.
Qed.

Lemma sort_records_sorted l : NoDup (tasks l) -> StronglySorted str_lt (tasks (sort_records l)).
Proof.
  unfold tasks. induction l as [|r l IH]; cbn; [constructor|]. intros [Hr Hnd]%NoDup_cons.
  apply insert_record_sorted; [by apply IH|]. unfold tasks.
  change (map r_TaskID (sort_records l)) with (r_TaskID <$> sort_records l).
  by rewrite sort_records_perm.
Qed.

Lemma tasks_snoc_nodup l r :
  StronglySorted str_lt (tasks l) -> find_record (r_TaskID r) l = None -> NoDup (tasks (l ++ [r])).
Proof.
  intros Hs%sorted_nodup Hf. unfold tasks. rewrite map_app. apply NoDup_app. split_and!; [done| |].
  - intros x (r' & Hx & Hr')%list_elem_of_fmap_1 ->%list_elem_of_singleton.
    apply find_record_none in Hf. rewrite Forall_forall in Hf. by apply (Hf r').
  - cbn. constructor; [by intros ?%elem_of_nil|constructor].
Qed.

(** ** The new record *)

Lemma request_valid_parts request now : validateReservationRequest request now = Ok tt ->
  uuidPattern (q_TaskID request) = true /\
  (q_ParentTaskID request = "" \/ uuidPattern (q_ParentTaskID request) = true) /\
  q_ParentTaskID request <> q_TaskID request /\ tokenPattern (q_Activity request) = true /\
  validTime (q_Deadline request) = true /\ after (q_Deadline request) now = true /\
  validLimitVector (q_TaskLimits request) = true /\ validClaimVector (q_Claim request) = true /\
  vectorWithin (q_Claim request) (q_TaskLimits request) = true /\
  u64 (time_sub (q_Deadline request) now) <= WallTimeNanoseconds (q_Claim request).
Proof.
  unfold validateReservationRequest. intros H. apply seq_ok in H as [Hg H]. apply seq_ok in H as [_ H].
  rewrite deny_if_ok in Hg, H. apply orb_false_iff in H as [_ H].
  rewrite !orb_false_iff, blank_or_pattern, !negb_false_iff, String.eqb_neq in Hg.
  apply Z.ltb_ge in H. tauto.
Qed.

Lemma budgetDigest_pattern d v : digestPattern (budgetDigest d v) = true.
Proof. apply digest_pattern. Qed.

Lemma claimDigest_pattern q p c : claimDigest q p = Ok c -> digestPattern c = true.
Proof. unfold claimDigest. intros H. inv_ok. apply budgetDigest_pattern. Qed.

Section new_record.
Context (request : ReservationRequest) (ledger : Ledger) (now : Time).
Context (claim idempotency reservation : string).
Hypothesis Hreq : validateReservationRequest request now = Ok tt.
Hypothesis Hnow : validTime now = true.
Hypothesis Hcreated : before now (l_CreatedAt ledger) = false.
Hypothesis Hrun : l_RunID ledger = q_RunID request.
Hypothesis Hcase : l_Case ledger = q_Case request.
Hypothesis Hpolicy : l_PolicyDigest ledger = q_PolicyDigest request.
Hypothesis Hroute : l_ProviderRoute ledger = q_ProviderRoute request.
Hypothesis Hdeadline : after (q_Deadline request) (l_ExpiresAt ledger) = false.
Hypothesis Hlimits : vectorWithin (q_TaskLimits request) (l_Limits ledger) = true.
Hypothesis Hdigests : reservationDigests request (l_PlanDigest ledger) = Ok (claim, idempotency, reservation).

Lemma new_record_claim :
  claimDigest (record_request ledger (newReservationRecord request claim idempotency reservation now))
    (l_PlanDigest ledger) = Ok claim.
Proof.
  unfold reservationDigests in Hdigests. apply bind_ok in Hdigests as (c & Hc & [= -> _ _]).
  rewrite <- Hc. unfold claimDigest, claim_json. cbn. by rewrite Hrun, Hcase.
Qed.

Lemma new_record_valid :
  validateReservationRecord ledger (newReservationRecord request claim idempotency reservation now) = Ok tt.
Proof.
  pose proof new_record_claim as Hclaim.
  apply request_valid_parts in Hreq as (H1 & H2 & H3 & H4 & H5 & H6 & H7 & H8 & H9 & H10).
  unfold reservationDigests in Hdigests. apply bind_ok in Hdigests as (c & Hc & [= -> <- <-]).
  pose proof (claimDigest_pattern _ _ _ Hc) as Hcp.
  unfold validateReservationRecord. rewrite Hclaim. rewrite !seq_ok, !deny_if_ok.
  cbn [newReservationRecord r_ReservationDigest r_ClaimDigest r_IdempotencyDigest r_TaskID
    r_ParentTaskID r_Activity r_PolicyDigest r_ProviderRoute r_Deadline r_TaskLimits r_Claim
    r_Status r_CreatedAt r_SettlementDigest r_SettlementIdempotencyDigest r_Outcome r_Actual r_SettledAt].
  split_and!.
  - unfold reservation_digest. apply String.eqb_neq in H3. apply Z.ltb_ge in H10.
    rewrite !orb_false_iff, blank_or_pattern, !budgetDigest_pattern, Hcp, H1, H3, H4, H5, Hpolicy, Hroute,
      !String.eqb_refl, Hdeadline, H7, Hlimits, H8, H9, Hnow, Hcreated, H6, H10. tauto.
  - by rewrite !String.eqb_refl.
  - by rewrite String.eqb_refl.
Qed.
End new_record.

(** ** Hierarchy of the new ledger *)

Lemma children_loop p (l : list ReservationRecord) : forall n, 0 <= n -> n + Z.of_nat (length l) < 2 ^ 32 ->
  foldl (fun n record => if String.eqb (r_ParentTaskID record) p then u32 (n + 1) else n) n l =
  n + child_count p l.
Proof.
  induction l as [|r l IH]; intros n Hn Hb; cbn [foldl length] in *; [cbn; lia|].
  rewrite child_count_cons. destruct (String.eqb _ _).
  - unfold u32. rewrite Z.mod_small, IH by lia. lia.
  - rewrite IH by lia. lia.
Qed.

Lemma reservation_hierarchy_ok ledger request :
  records_typed (l_Reservations ledger) -> vector_typed (q_Claim request) ->
  (length (l_Reservations ledger) < 4096)%nat ->
  validateReservationHierarchy ledger request = Ok tt ->
  (q_ParentTaskID request = "" /\ DelegationDepth (q_Claim request) = 0) \/
  (q_ParentTaskID request <> "" /\ exists p, p ∈ l_Reservations ledger /\
     r_TaskID p = q_ParentTaskID request /\
     DelegationDepth (q_Claim request) = DelegationDepth (r_Claim p) + 1 /\
     child_count (r_TaskID p) (l_Reservations ledger) < Fanout (r_Claim p)).
Proof.
  intros Ht Hq Hlen. unfold validateReservationHierarchy.
  destruct (String.eqb_spec (q_ParentTaskID request) "") as [He|He].
  - rewrite deny_if_ok, negb_false_iff, Z.eqb_eq. tauto.
  - destruct (find_record _ _) as [[i p]|] eqn:Hf; [|done].
    apply find_record_some in Hf as (_ & Hp & Hid).
    unfold records_typed in Ht. rewrite Forall_forall in Ht. specialize (Ht p Hp).
    unfold vector_typed in Ht, Hq. rewrite seq_ok, !deny_if_ok, depth_step by tauto.
    intros [Hd Hc]. right. split; [done|]. exists p. rewrite children_loop in Hc by lia.
    split_and!; try done. lia.
Qed.

(** No record of a sound ledger names a task that is not in it as its parent. *)
Lemma orphan_free l task :
  Forall (delegated l) l -> Forall (fun r => r_TaskID r <> task) l -> task <> "" -> child_count task l = 0.
Proof.
  intros Hd Hf Hne. pose proof (child_count_bounds task l).
  destruct (decide (0 < child_count task l)) as [(r & Hr & Hp)%child_count_pos|]; [|lia].
  rewrite Forall_forall in Hd, Hf.
  destruct (Hd r Hr) as [[? _]|(_ & p & Hpin & Hid & _)]; [congruence|].
  exfalso. apply (Hf p Hpin). congruence.
Qed.

Lemma delegated_perm l l' r : l ⊆ l' -> delegated l r -> delegated l' r.
Proof. intros Hl [?|(? & p & Hp & ?)]; [by left|right]. split; [done|]. exists p. auto. Qed.

Section next_hierarchy.
Context (l l' : list ReservationRecord) (new : ReservationRecord).
Hypothesis Hp : l' ≡ₚ new :: l.
Hypothesis Hdel : Forall (delegated l) l.
Hypothesis Hfan : fanout_within l.
Hypothesis Hfresh : Forall (fun r => r_TaskID r <> r_TaskID new) l.
Hypothesis Hne : r_TaskID new <> "".
Hypothesis Hself : r_ParentTaskID new <> r_TaskID new.
Hypothesis Hfan_new : 0 <= Fanout (r_Claim new).
Hypothesis Hhier : (r_ParentTaskID new = "" /\ DelegationDepth (r_Claim new) = 0) \/
  (r_ParentTaskID new <> "" /\ exists p, p ∈ l /\ r_TaskID p = r_ParentTaskID new /\
     DelegationDepth (r_Claim new) = DelegationDepth (r_Claim p) + 1 /\
     child_count (r_TaskID p) l < Fanout (r_Claim p)).
Hypothesis Hunique : forall a b, a ∈ l -> b ∈ l -> r_TaskID a = r_TaskID b -> a = b.
Hypothesis Huuid : Forall (fun r => r_TaskID r <> "") l.

Lemma next_delegated : Forall (delegated l') l'.
Proof.
  assert (Hsub : l ⊆ l') by (intros r Hr; rewrite Hp; by right).
  rewrite Forall_forall. intros r Hr. rewrite Hp in Hr. apply elem_of_cons in Hr as [->|Hr].
  - destruct Hhier as [?|(? & p & ? & ? & ? & _)]; [by left|right]. split; [done|]. exists p. auto.
  - rewrite Forall_forall in Hdel. exact (delegated_perm _ _ _ Hsub (Hdel r Hr)).
Qed.

Lemma next_fanout : fanout_within l'.
Proof.
  unfold fanout_within in *. rewrite Forall_forall. intros r Hr. rewrite Hp in Hr.
  apply elem_of_cons in Hr as [->|Hr].
  - rewrite (child_count_perm _ _ _ Hp), child_count_cons, orphan_free by done.
    destruct (String.eqb_spec (r_ParentTaskID new) (r_TaskID new)); [done|lia].
  - rewrite Forall_forall in *. specialize (Hfan r Hr).
    rewrite (child_count_perm _ _ _ Hp), child_count_cons.
    destruct (String.eqb_spec (r_ParentTaskID new) (r_TaskID r)) as [Heq|]; [|cbn in *; lia].
    destruct Hhier as [[He _]|(_ & p & Hpin & Hid & _ & Hc)].
    + exfalso. apply (Huuid r Hr). congruence.
    + assert (p = r) as -> by (apply Hunique; congruence). lia.
Qed.
End next_hierarchy.

(** ** The theorem *)

Lemma tokenPattern_charged : tokenPattern "reservation_charged" = true.
Proof. vm_compute. reflexivity. Qed.

Lemma provenance_of_stamp next prior operation now n :
  stamp next prior operation now = Ok n ->
  provenanceDigest (l_PreviousProvenanceDigest n) (l_ReasonCode n) n = Ok (l_ProvenanceDigest n).
Proof. unfold stamp. intros H. apply seq_ok in H as [_ H]. apply bind_ok in H as (p & Hp & [= <-]). exact Hp. Qed.

Lemma provenanceDigest_pattern a b v d : provenanceDigest a b v = Ok d -> digestPattern d = true.
Proof. unfold provenanceDigest. intros H. inv_ok. apply budgetDigest_pattern. Qed.

Lemma same_run_record a b r : same_run a b ->
  validateReservationRecord a r = validateReservationRecord b r.
Proof.
  intros (H1 & H2 & H3 & H4 & H5 & H6 & H7 & H8 & H9 & H10).
  unfold validateReservationRecord, record_request. by rewrite H3, H4, H5, H6, H7, H8, H9, H10.
Qed.

Lemma same_run_plan a b : same_run a b -> ledger_plan a = ledger_plan b.
Proof.
  intros (H1 & H2 & H3 & H4 & H5 & H6 & H7 & H8 & H9 & H10). unfold ledger_plan. congruence.
Qed.

(** What the guards of [reserveExisting] ask, besides a valid ledger and request *)
Record admissible (request : ReservationRequest) (current : Ledger) (now : Time)
  (claim idempotency reservation : string) : Prop := {
  ad_scope : l_RunID current = q_RunID request /\ l_Case current = q_Case request /\
    l_PolicyDigest current = q_PolicyDigest request /\ l_ProviderRoute current = q_ProviderRoute request;
  ad_plan : forall plan, q_Plan request = Some plan -> planDigest plan = Ok (l_PlanDigest current);
  ad_digests : reservationDigests request (l_PlanDigest current) = Ok (claim, idempotency, reservation);
  ad_fresh : find_record (q_TaskID request) (l_Reservations current) = None;
  ad_live : before now (l_ExpiresAt current) = true;
  ad_deadline : after (q_Deadline request) (l_ExpiresAt current) = false;
  ad_limits : vectorWithin (q_TaskLimits request) (l_Limits current) = true;
  ad_hierarchy : validateReservationHierarchy current request = Ok tt;
  ad_charge : vectorWithin (vector_add (l_Charged current) (q_Claim request)) (l_Limits current) = true;
  ad_concurrency : l_ActiveConcurrency current + Concurrency (q_Claim request) <= Concurrency (l_Limits current) }.

(** The ledger [reserveExisting] builds, before it is stamped *)
Definition charged_candidate (request : ReservationRequest) (current : Ledger) (now : Time)
  (claim idempotency reservation : string) : Ledger :=
  with_totals current (vector_add (l_Charged current) (q_Claim request))
    (l_ActiveConcurrency current + Concurrency (q_Claim request))
    (sort_records (l_Reservations current ++
       [newReservationRecord request claim idempotency reservation now])).

Section admission.
Context (request : ReservationRequest) (current next : Ledger) (now : Time).
Context (claim idempotency reservation : string).
Hypothesis Htyped : ledger_typed current.
Hypothesis Hqtyped : request_typed request.
Hypothesis Hnow : validTime now = true.
Hypothesis Hreq : validateReservationRequest request now = Ok tt.
Hypothesis Hcur : validateLedger current = Ok tt.
Hypothesis Had : admissible request current now claim idempotency reservation.
Hypothesis Hcreated : before now (l_CreatedAt current) = false.
Hypothesis Hroom : (length (l_Reservations current) < 4096)%nat.
Hypothesis Hstamp :
  stamp (charged_candidate request current now claim idempotency reservation) current
    "reservation_charged" now = Ok next.

Let new := newReservationRecord request claim idempotency reservation now.

Lemma admitted_stamp :
  l_Revision current < max_int64 /\ next_revision current next /\ l_UpdatedAt next = now /\
  l_ReasonCode next = "reservation_charged" /\
  l_Charged next = vector_add (l_Charged current) (q_Claim request) /\
  l_ActiveConcurrency next = l_ActiveConcurrency current + Concurrency (q_Claim request) /\
  l_Reservations next = sort_records (l_Reservations current ++ [new]).
Proof. destruct Htyped as (_ & _ & _ & Hu & _). by apply stamp_ok in Hstamp. Qed.

Lemma admitted_perm : l_Reservations next ≡ₚ new :: l_Reservations current.
Proof. destruct admitted_stamp as (_ & _ & _ & _ & _ & _ & ->). apply sort_records_snoc. Qed.

Lemma admitted_claim_ok : claim_ok (q_Claim request).
Proof.
  split; [apply Hqtyped|]. apply request_valid_parts in Hreq. tauto.
Qed.

Lemma admitted_fields : ledger_fields_ok next.
Proof.
  destruct admitted_stamp as (Hrev & (Hs & Hr & Hprev) & Hup & Hreason & _).
  pose proof admitted_perm as Hp%Permutation_length. cbn in Hp.
  pose proof (provenance_of_stamp _ _ _ _ _ Hstamp) as Hprov%provenanceDigest_pattern.
  apply validateLedger_iff in Hcur; [|done]. pose proof (ls_fields _ Hcur) as Hf.
  destruct Hs as (H1 & H2 & H3 & H4 & H5 & H6 & H7 & H8 & H9 & H10).
  unfold ledger_fields_ok in *. rewrite Hr, Hprev, Hup, Hreason, Hp, Hprov.
  rewrite <- H1, <- H2, <- H3, <- H4, <- H5, <- H6, <- H7, <- H8, <- H9, <- H10.
  pose proof tokenPattern_charged. intuition lia.
Qed.

Lemma admitted_sound : ledger_sound next.
Proof.
  pose proof admitted_stamp as (_ & (Hs & _) & _ & _ & Hch & Hac & Hre).
  pose proof admitted_perm as Hp. pose proof admitted_claim_ok as Hok.
  pose proof (proj1 (validateLedger_iff _ Htyped) Hcur) as Hc.
  pose proof Htyped as (_ & _ & _ & _ & Hrt). destruct Had as [(? & ? & ? & ?) ? ? Hfr].
  pose proof (request_valid_parts _ _ Hreq) as (Hu & _ & Hself & _).
  assert (Hlim : l_Limits next = l_Limits current) by (symmetry; apply Hs).
  assert (Hplan : l_PlanDigest next = l_PlanDigest current) by (symmetry; apply Hs).
  pose proof (proj1 (find_record_none _ _) Hfr) as Hfresh.
  assert (Hhier := reservation_hierarchy_ok _ _ Hrt (proj1 Hqtyped) Hroom ad_hierarchy0).
  pose proof (claim_ok_bounds _ Hok).
  constructor.
  - apply admitted_fields.
  - rewrite <- (same_run_plan _ _ Hs), Hplan. apply Hc.
  - rewrite Hp. constructor.
    + rewrite <- (same_run_record _ _ _ Hs). by apply new_record_valid.
    + eapply Forall_impl; [apply Hc|]. intros r Hr. by rewrite <- (same_run_record _ _ _ Hs).
  - rewrite Hre. apply sort_records_sorted, tasks_snoc_nodup; [apply Hc|done].
  - rewrite Hch, (charged_total_perm _ _ Hp), charged_total_cons, (ls_charged _ Hc).
    unfold vector_add. cbn. f_equal; lia.
  - by rewrite Hch, Hlim.
  - rewrite Hac, (active_sum_perm _ _ Hp), (ls_active _ Hc). unfold active_sum. cbn. lia.
  - by rewrite Hac, Hlim.
  - eapply next_delegated; [exact Hp|apply Hc|exact Hhier].
  - eapply next_fanout; [exact Hp|apply Hc|apply Hc|exact Hfresh|by apply uuid_nonempty|exact Hself| |exact Hhier|..].
    + cbn. lia.
    + intros a b. apply sorted_tasks_unique, Hc.
    + eapply records_tasks_nonempty, Hc.
  - by eapply provenance_of_stamp.
Qed.

Lemma admitted_addCharged :
  addCharged (l_Charged current) (q_Claim request) = Some (vector_add (l_Charged current) (q_Claim request)).
Proof.
  apply addCharged_spec; [by apply charged_totals|apply admitted_claim_ok|]. split; [done|].
  pose proof admitted_sound as Hs. pose proof (ls_fields _ Hs) as Hf.
  pose proof (charged_totals _ Htyped Hcur) as Hc. pose proof (claim_ok_bounds _ admitted_claim_ok).
  pose proof (proj1 (vectorWithin_spec _ _) (ad_charge _ _ _ _ _ _ Had)) as Hw.
  destruct admitted_stamp as (_ & (Hsame & _) & _).
  assert (Hlim : validLimitVector (l_Limits current) = true).
  { replace (l_Limits current) with (l_Limits next) by (symmetry; apply Hsame).
    unfold ledger_fields_ok in Hf. tauto. }
  unfold validLimitVector, maximumUintBudget in Hlim. bool_split.
  unfold totals in *. cbn in *. lia.
Qed.

Lemma admitted_typed : ledger_typed next.
Proof.
  destruct admitted_stamp as (Hrev & (Hsame & Hr & _) & _ & _ & Hch & Hac & _).
  pose proof (addCharged_typed _ _ _ admitted_addCharged) as Hct.
  pose proof (ad_concurrency _ _ _ _ _ _ Had). pose proof (claim_ok_bounds _ admitted_claim_ok).
  destruct Htyped as (Hl & _ & Ha & Hu & Hrt). unfold ledger_typed. rewrite Hch, Hac, Hr.
  replace (l_Limits next) with (l_Limits current) by apply Hsame.
  split_and!; [done|done| | |].
  - unfold vector_typed, is_u32 in *. lia.
  - unfold is_u64, max_int64 in *. lia.
  - eapply records_typed_perm; [symmetry; apply admitted_perm|]. constructor; [apply Hqtyped|done].
Qed.

Lemma admitted_active :
  u64 (l_ActiveConcurrency current + Concurrency (q_Claim request)) =
    l_ActiveConcurrency current + Concurrency (q_Claim request) /\
  u32 (l_ActiveConcurrency current + Concurrency (q_Claim request)) =
    l_ActiveConcurrency current + Concurrency (q_Claim request).
Proof.
  pose proof admitted_typed as (_ & _ & Ha & _).
  destruct admitted_stamp as (_ & _ & _ & _ & _ & Hac & _). rewrite Hac in Ha.
  unfold u64, u32, is_u32 in *. split; apply Z.mod_small; lia.
Qed.

Lemma admitted_plan : plan_reserve request current now = Ok (ChargeLedger next reservation claim).
Proof.
  destruct admitted_active as [H64 H32]. pose proof Had as [(H1 & H2 & H3 & H4)].
  unfold plan_reserve. rewrite seq_ok. split; [done|]. rewrite seq_ok, deny_if_ok. split.
  { by rewrite H1, H2, H3, H4, !String.eqb_refl, bool_decide_true. }
  rewrite seq_ok. split.
  { destruct (q_Plan request) as [plan|] eqn:E; [|done]. apply check_digest_ok. auto. }
  rewrite ad_digests0. cbn [mbind result_bind]. rewrite ad_fresh0.
  rewrite seq_ok, deny_if_ok, ad_live0, ad_deadline0. split; [done|].
  rewrite seq_ok, deny_if_ok, ad_limits0. split; [done|]. rewrite seq_ok. split; [done|].
  rewrite admitted_addCharged, seq_ok, deny_if_ok, ad_charge0. split; [done|].
  rewrite H64, H32, seq_ok, deny_if_ok. split; [lia|].
  fold (charged_candidate request current now claim idempotency reservation).
  rewrite Hstamp. cbn [mbind result_bind].
  by rewrite (proj2 (validateLedger_iff _ admitted_typed) admitted_sound).
Qed.
End admission.

(** Admission is complete: a valid request, inside the run's scope, whose task is
    new, which fits the remaining budget, the concurrency, the delegation depth and the
    parent's fan-out, is charged.  The re-validation of the ledger before it is saved
    cannot refuse it: only the record limit, the clock (a time before the run's
    creation) and the size of the canonical form (the hypothesis on [stamp]) remain. *)
Theorem reserve_admits_what_fits request current next now claim idempotency reservation :
  ledger_typed current -> request_typed request -> validTime now = true ->
  validateReservationRequest request now = Ok tt -> validateLedger current = Ok tt ->
  admissible request current now claim idempotency reservation ->
  before now (l_CreatedAt current) = false -> (length (l_Reservations current) < 4096)%nat ->
  stamp (charged_candidate request current now claim idempotency reservation) current
    "reservation_charged" now = Ok next ->
  plan_reserve request current now = Ok (ChargeLedger next reservation claim).
Proof. intros. by eapply admitted_plan. Qed.

Lemma ex_admissible :
  admissible ex_request2 ex_ledger1 (ex_at 1) ex_claim2
    "sha256:61586b65fe95771106b8ee8d648f9d5267d9836b9eafb6f7b48e9c43b24b70e4" ex_reservation2.
Proof.
  constructor; [by split_and!|done|..|vm_compute; discriminate]; vm_compute; reflexivity.
Qed.

Lemma reserve_admits_what_fits_witness :
  plan_reserve ex_request2 ex_ledger1 (ex_at 1) = Ok (ChargeLedger ex_ledger2 ex_reservation2 ex_claim2).
Proof.
  apply (reserve_admits_what_fits ex_request2 ex_ledger1 ex_ledger2 (ex_at 1) ex_claim2
    "sha256:61586b65fe95771106b8ee8d648f9d5267d9836b9eafb6f7b48e9c43b24b70e4").
  - exact ex_ledger1_typed.
  - exact ex_request2_typed.
  - reflexivity.
  - exact ex_request_valid.
  - exact ex_ledger1_valid.
  - exact ex_admissible.
  - reflexivity.
  - cbn. lia.
  - vm_compute. reflexivity.
Defined.

(** ** Delegation is a forest *)

(** The chain of parents of a record, up to a root *)
Inductive lineage (l : list ReservationRecord) : ReservationRecord -> list ReservationRecord -> Prop :=
| lineage_root r : r_ParentTaskID r = "" -> lineage l r []
| lineage_step r p chain :
    p ∈ l -> r_TaskID p = r_ParentTaskID r -> lineage l p chain -> lineage l r (p :: chain).

Definition depth_of (r : ReservationRecord) : Z := DelegationDepth (r_Claim r).

Lemma lineage_exists l : Forall (delegated l) l -> Forall (fun r => 0 <= depth_of r) l ->
  forall (n : nat) r, r ∈ l -> depth_of r = Z.of_nat n ->
  exists chain, lineage l r chain /\ length chain = n /\ chain ⊆ l /\
    StronglySorted (fun a b => depth_of b < depth_of a) (r :: chain).
Proof.
  intros Hd Hpos. rewrite Forall_forall in Hd, Hpos. unfold depth_of in *.
  induction n as [|n IH]; intros r Hr Hn; destruct (Hd r Hr) as [[Hroot H0]|(Hp & p & Hpin & Hid & Hdepth)].
  - exists []. split_and!; [by constructor|done|set_solver|by repeat constructor].
  - specialize (Hpos p Hpin). cbn in Hpos. lia.
  - lia.
  - destruct (IH p Hpin ltac:(lia)) as (chain & Hlin & Hlen & Hsub & Hs).
    exists (p :: chain). split_and!; [by econstructor|cbn; lia|set_solver|].
    constructor; [done|]. apply StronglySorted_inv in Hs as [_ Hall].
    constructor; [lia|]. eapply Forall_impl; [exact Hall|]. cbn. intros; lia.
Qed.

(** C32. Delegation is a forest of bounded depth: in a valid ledger the parents of every
    record lead, through records of the ledger and without ever meeting a task twice, to
    a root in exactly as many steps as the record's delegation depth, which is at most
    the run's limit, and no task has more children than its claimed fan-out. *)
Theorem delegation_is_a_bounded_forest ledger r :
  ledger_typed ledger -> validateLedger ledger = Ok tt -> r ∈ l_Reservations ledger ->
  (exists chain, lineage (l_Reservations ledger) r chain /\ chain ⊆ l_Reservations ledger /\
     Z.of_nat (length chain) = DelegationDepth (r_Claim r) /\ NoDup (tasks (r :: chain))) /\
  DelegationDepth (r_Claim r) <= DelegationDepth (l_Limits ledger) /\
  child_count (r_TaskID r) (l_Reservations ledger) <= Fanout (r_Claim r).
Proof.
  intros Ht Hv Hr. apply validateLedger_iff in Hv; [|done].
  destruct Ht as (_ & _ & _ & _ & Hrt). pose proof (records_claim_ok _ _ Hrt (ls_records _ Hv)) as Hc.
  assert (Hpos : Forall (fun r => 0 <= depth_of r) (l_Reservations ledger)).
  { eapply Forall_impl; [exact Hc|]. intros x Hx%claim_ok_bounds. unfold depth_of. lia. }
  pose proof (ls_delegation _ Hv) as Hd. pose proof (ls_fanout _ Hv) as Hf.
  pose proof (ls_records _ Hv) as Hrec. unfold fanout_within in Hf.
  rewrite Forall_forall in Hf, Hrec. split_and!; [| |by apply Hf].
  - pose proof (proj1 (Forall_forall _ _) Hpos r Hr) as H0.
    destruct (lineage_exists _ Hd Hpos (Z.to_nat (depth_of r)) r Hr) as (chain & Hl & Hlen & Hsub & Hs).
    { rewrite Z2Nat.id by done. done. }
    exists chain. split_and!; [done|done|rewrite Hlen, Z2Nat.id by done; done|].
    assert (Hin : r :: chain ⊆ l_Reservations ledger) by set_solver.
    clear - Hs Hin Hv. induction Hs as [|x l Hs IH Hall]; [constructor|].
    unfold tasks in *. cbn. constructor; [|set_solver].
    intros (y & Hy & Hyl)%list_elem_of_fmap_1. rewrite Forall_forall in Hall.
    specialize (Hall y Hyl). assert (x = y); [|subst; lia].
    apply (sorted_tasks_unique _ _ _ (ls_order _ Hv)); set_solver.
  - specialize (Hrec r Hr). unfold validateReservationRecord in Hrec. apply seq_ok in Hrec as [Hg _].
    apply deny_if_ok in Hg. bool_split.
    repeat match goal with H : vectorWithin _ _ = true |- _ => apply vectorWithin_spec in H end. lia.
Qed.

Lemma delegation_is_a_bounded_forest_witness :
  validateLedger ex_ledger2 = Ok tt /\
  DelegationDepth (r_Claim (newReservationRecord ex_request2 ex_claim2
       "sha256:61586b65fe95771106b8ee8d648f9d5267d9836b9eafb6f7b48e9c43b24b70e4" ex_reservation2
       (ex_at 1))) <= DelegationDepth (l_Limits ex_ledger2).
Proof.
  split; [exact ex_ledger2_valid|].
  refine (proj1 (proj2 (delegation_is_a_bounded_forest ex_ledger2 _ ex_ledger2_typed ex_ledger2_valid _))).
  right. left.
Defined.
