(* ===== verification/RunBudgetStore.v ===== *)
(** * The budget store and concurrent controllers

    The durable store is the only serialization point of the controllers.  Its contract
    (begin-if-absent and optimistic compare-and-save; a response may be lost after the
    write) is the class [BudgetStoreLaws], discharged by an in-memory store.  [Reserve]
    is proved against the contract.  Concurrent controllers are a step relation over the
    stored ledger and the writes in flight. *)

From S2P Require Import Prelude GoStrings GoRegexp GoTime GoJson DomainContract Sha256 Domain RunBudget RunBudgetFacts RunBudgetExample RunBudgetController.

Local Open Scope string_scope.
Local Open Scope Z_scope.

(** ** The contract of a store *)

Definition run_key : Type := CaseRef * string.
Definition ledger_key (l : Ledger) : run_key := (l_Case l, l_RunID l).

(** Nothing was written / only the ledger of [l]'s run was replaced by [l]. *)
Definition unchanged (v v' : run_key -> option Ledger) : Prop := forall k, v' k = v k.
Definition written (v v' : run_key -> option Ledger) (l : Ledger) : Prop :=
  v' (ledger_key l) = Some l /\ forall k, k <> ledger_key l -> v' k = v k.

(** What optimistic compare-and-save compares *)
Definition same_version (a b : Ledger) : Prop :=
  l_Revision a = l_Revision b /\ l_ProvenanceDigest a = l_ProvenanceDigest b.

Class BudgetStoreLaws (S : Type) `{!BudgetStore S} : Type := {
  (** The durable content *)
  view : S -> run_key -> option Ledger;
  load_law st c run found : store_load st c run = Ok found -> found = view st (c, run);
  begin_law st key candidate res st' :
    store_begin st key candidate = (res, st') ->
    (unchanged (view st) (view st') /\
     forall l replayed, res = Ok (l, replayed) -> replayed = true /\ view st (ledger_key candidate) = Some l) \/
    (view st (ledger_key candidate) = None /\ written (view st) (view st') candidate /\
     forall l replayed, res = Ok (l, replayed) -> l = candidate /\ replayed = false);
  save_law st key prior next res st' :
    store_save st key prior next = (res, st') ->
    (unchanged (view st) (view st') /\ forall l, res <> Ok l) \/
    (exists cur, view st (ledger_key next) = Some cur /\ same_version cur prior /\
     written (view st) (view st') next /\ forall l, res = Ok l -> l = next) }.

(** ** An in-memory store

    A ledger per run, and a script of faults: for each write, whether the response is
    lost after the write. *)
Record memory_store : Type := mkMemory {
  ms_ledgers : gmap run_key Ledger;
  ms_lost : list bool }.

Definition next_fault (st : memory_store) : bool * list bool :=
  match ms_lost st with [] => (false, []) | b :: rest => (b, rest) end.

Definition memory_begin (st : memory_store) (candidate : Ledger)
  : result go_error (Ledger * bool) * memory_store :=
  match ms_ledgers st !! ledger_key candidate with
  | Some cur => (Ok (cur, true), st)
  | None =>
      let '(lost, rest) := next_fault st in
      (if lost then Err Foreign else Ok (candidate, false),
       mkMemory (<[ledger_key candidate := candidate]> (ms_ledgers st)) rest)
  end.

Definition memory_save (st : memory_store) (prior next : Ledger) : result go_error Ledger * memory_store :=
  let conflict := (Err (Typed (newError Conflict "store_revision_conflict" true)), st) in
  match ms_ledgers st !! ledger_key next with
  | None => conflict
  | Some cur =>
      if (l_Revision cur =? l_Revision prior) &&
         String.eqb (l_ProvenanceDigest cur) (l_ProvenanceDigest prior)
      then
        let '(lost, rest) := next_fault st in
        (if lost then Err Foreign else Ok next,
         mkMemory (<[ledger_key next := next]> (ms_ledgers st)) rest)
      else conflict
  end.

#[export] Instance memory_budget_store : BudgetStore memory_store := {
  store_load st c run := Ok (ms_ledgers st !! (c, run));
  store_begin st _ candidate := memory_begin st candidate;
  store_save st _ prior next := memory_save st prior next }.

Lemma written_insert (m : gmap run_key Ledger) l :
  written (fun k => m !! k) (fun k => <[ledger_key l := l]> m !! k) l.
Proof. split; [apply lookup_insert_eq | intros k Hk; by apply lookup_insert_ne]. Qed.

#[export] Instance memory_store_laws : BudgetStoreLaws memory_store.
Proof.
  refine {| view st k := ms_ledgers st !! k |}.
  - by intros st c run found [= <-].
  - intros st key cand res st'. cbn. unfold memory_begin.
    destruct (ms_ledgers st !! ledger_key cand) as [cur|] eqn:E; [|destruct (next_fault st) as [lost rest]];
      intros [= <- <-].
    + left. split; [done|]. intros l r [= <- <-]. done.
    + right. split_and!; [done|apply written_insert|]. destruct lost; intros l r Hr; [done|].
      by injection Hr as <- <-.
  - intros st key prior next res st'. cbn. unfold memory_save.
    destruct (ms_ledgers st !! ledger_key next) as [cur|] eqn:E; [|by intros [= <- <-]; left].
    destruct (_ && _) eqn:Hv; [destruct (next_fault st) as [lost rest]|]; intros [= <- <-]; [|by left].
    right. exists cur. apply andb_true_iff in Hv as [Hr%Z.eqb_eq Hp%String.eqb_eq].
    split_and!; [done|by split|apply written_insert|]. destruct lost; intros l Hl; [done|].
    by injection Hl as <-.
Defined.

(** ** [Reserve] against the contract *)

(** A ledger holds the reservation that was handed out. *)
Definition holds (l : Ledger) (task : string) (rv : Reservation) : Prop :=
  validateLedger l = Ok tt /\ l_ProvenanceDigest l = rv_LedgerDigest rv /\ l_PlanDigest l = rv_PlanDigest rv /\
  exists r, r ∈ l_Reservations l /\ r_TaskID r = task /\
    r_ReservationDigest r = rv_ReservationDigest rv /\ r_ClaimDigest r = rv_ClaimDigest rv.

Lemma replay_holds request current now rv :
  plan_reserve request current now = Ok (ReplayReservation rv) -> holds current (q_TaskID request) rv.
Proof.
  unfold plan_reserve. intros H. apply seq_ok in H as [Hv H]. apply seq_ok in H as [_ H].
  apply seq_ok in H as [_ H]. apply bind_ok in H as ([[c i] r] & _ & H).
  destruct (find_record _ _) as [[j rec]|] eqn:Hf.
  - apply seq_ok in H as [Hg [= <-]]. apply deny_if_ok in Hg. bool_split.
    apply find_record_some in Hf as (_ & Hin & Hid).
    repeat match goal with H : String.eqb _ _ = true |- _ => apply String.eqb_eq in H end.
    split_and!; [done..|]. exists rec. split_and!; done.
  - apply seq_ok in H as [_ H]. apply seq_ok in H as [_ H]. apply seq_ok in H as [_ H].
    destruct (addCharged _ _); [|done]. apply seq_ok in H as [_ H]. apply seq_ok in H as [_ H].
    apply bind_ok in H as (n & _ & H). by apply seq_ok in H as [_ H].
Qed.

Lemma charge_holds request current next now reservation claim :
  charge_facts request current next now reservation claim ->
  holds next (q_TaskID request)
    (mkReservation reservation (l_PlanDigest current) claim (l_ProvenanceDigest next) false).
Proof.
  intros H. pose proof (charge_records_perm _ _ _ _ _ _ H) as Hp. destruct H as [? ? ? ? ? ? ? (Hs & _)].
  split_and!; [done|done|symmetry; apply Hs|].
  eexists. split_and!; [rewrite Hp; by left|done..].
Qed.

(** What [newLedgerWithReservation] built *)
Record begin_facts (request : ReservationRequest) (plan : Plan) (now : Time) (candidate : Ledger)
  (rv : Reservation) : Prop := {
  bf_valid : validateLedger candidate = Ok tt;
  bf_key : ledger_key candidate = (q_Case request, q_RunID request);
  bf_policy : l_PolicyDigest candidate = q_PolicyDigest request /\
    l_ProviderRoute candidate = q_ProviderRoute request;
  bf_plan : planDigest plan = Ok (l_PlanDigest candidate);
  bf_limits : l_Limits candidate = p_Limits plan;
  bf_revision : l_Revision candidate = 1;
  bf_charged : addCharged zero_vector (q_Claim request) = Some (l_Charged candidate);
  bf_active : l_ActiveConcurrency candidate = Concurrency (q_Claim request);
  bf_digests : reservationDigests request (l_PlanDigest candidate) =
    Ok (rv_ClaimDigest rv, budgetDigest "COH-RUN-BUDGET-IDEMPOTENCY-V1" (q_IdempotencyKey request),
        rv_ReservationDigest rv);
  bf_result : rv = mkReservation (rv_ReservationDigest rv) (l_PlanDigest candidate) (rv_ClaimDigest rv)
                     (l_ProvenanceDigest candidate) false;
  bf_records : l_Reservations candidate =
    [newReservationRecord request (rv_ClaimDigest rv)
       (budgetDigest "COH-RUN-BUDGET-IDEMPOTENCY-V1" (q_IdempotencyKey request)) (rv_ReservationDigest rv) now] }.

Lemma new_ledger_facts request plan now candidate rv :
  newLedgerWithReservation request plan now = Ok (candidate, rv) ->
  begin_facts request plan now candidate rv.
Proof.
  unfold newLedgerWithReservation. intros H. apply bind_ok in H as (pd & Hpd & H).
  apply seq_ok in H as [_ H]. apply bind_ok in H as ([[c i] r] & Hd & H).
  pose proof (reservationDigests_idem _ _ _ _ _ Hd) as ->.
  destruct (addCharged _ _) as [charged|] eqn:Hadd; [|done].
  apply seq_ok in H as [_ H]. apply bind_ok in H as (prov & _ & H).
  apply seq_ok in H as [Hv [= <- <-]]. by constructor.
Qed.

Lemma begin_holds request plan now candidate rv :
  begin_facts request plan now candidate rv -> holds candidate (q_TaskID request) rv.
Proof.
  intros []. split_and!; [done|by rewrite bf_result0..|]. rewrite bf_records0.
  eexists. split_and!; [by left|done..].
Qed.

Lemma check_stored_ok stored want u : check_stored stored want = Ok u ->
  validateLedger stored = Ok tt /\ l_ProvenanceDigest stored = want.
Proof.
  unfold check_stored. intros H. apply deny_if_ok in H. bool_split.
  rewrite is_ok_true in H. destruct H as [[] H]. split; [done|by apply String.eqb_eq].
Qed.

Lemma lift_ok {A} (m : result Error A) a : lift m = Ok a -> m = Ok a.
Proof. destruct m; cbn; [by intros [= ->]|done]. Qed.

Section reserve_contract.
Context {S : Type} `{!BudgetStore S} `{!BudgetStoreLaws S}.

(** The numbers of the stored ledgers have their Go types. *)
Definition store_typed (st : S) : Prop := forall k l, view st k = Some l -> ledger_typed l.

Lemma typed_revision st k l : store_typed st -> view st k = Some l -> is_u64 (l_Revision l).
Proof. intros Ht Hv. by destruct (Ht k l Hv) as (_ & _ & _ & ? & _). Qed.

Lemma charge_key request current next now reservation claim :
  charge_facts request current next now reservation claim ->
  ledger_key next = (q_Case request, q_RunID request).
Proof.
  intros [? ? (H1 & H2 & _) ? ? ? ? (Hs & _)]. unfold ledger_key.
  destruct Hs as (_ & _ & <- & <- & _). congruence.
Qed.

(** A write of [request]'s run that may have happened: nothing, or the charge *)
Definition charge_outcome (request : ReservationRequest) (st st' : S) : Prop :=
  unchanged (view st) (view st') \/
  exists l, written (view st) (view st') l /\ ledger_key l = (q_Case request, q_RunID request) /\
    forall now, exists rv, rv_Replayed rv = true /\
      plan_reserve request l now = Ok (ReplayReservation rv).

Lemma charged_then_replays request current next now reservation claim :
  charge_facts request current next now reservation claim ->
  ledger_typed current -> request_typed request ->
  forall now', exists rv, rv_Replayed rv = true /\ plan_reserve request next now' = Ok (ReplayReservation rv).
Proof.
  intros Hf Ht Hq now'. pose proof (charge_typed _ _ _ _ _ _ Ht Hq Hf) as Htn.
  pose proof (charge_records_perm _ _ _ _ _ _ Hf) as Hp. destruct Hf as [? ? (H1 & H2 & H3 & H4) Hpl Hd ? ? (Hs & _)].
  destruct (later_record next next
    (newReservationRecord request claim
     (budgetDigest "COH-RUN-BUDGET-IDEMPOTENCY-V1" (q_IdempotencyKey request)) reservation now))
    as (i & r' & Hfind & Hk); [done|split_and!; done|rewrite Hp; by left|].
  destruct Hs as (_ & _ & G1 & G2 & G3 & G4 & G5 & _), Hk as (K1 & K2 & K3 & _). cbn in *.
  eexists. split; [|eapply plan_reserve_replays; try done; try congruence].
  - done.
  - intros plan Hplan. rewrite (Hpl plan Hplan). congruence.
Qed.

Lemma begun_then_replays request plan now candidate rv :
  begin_facts request plan now candidate rv -> q_Plan request = Some plan -> ledger_typed candidate ->
  forall now', exists rv', rv_Replayed rv' = true /\
    plan_reserve request candidate now' = Ok (ReplayReservation rv').
Proof.
  intros [] Hplan Ht now'.
  destruct (later_record candidate candidate
    (newReservationRecord request (rv_ClaimDigest rv)
     (budgetDigest "COH-RUN-BUDGET-IDEMPOTENCY-V1" (q_IdempotencyKey request)) (rv_ReservationDigest rv) now))
    as (i & r' & Hfind & Hk); [done|split_and!; done|rewrite bf_records0; by left|].
  destruct Hk as (K1 & K2 & K3 & _). cbn in *. injection bf_key0 as Hc Hr.
  destruct bf_policy0. eexists. split; [|eapply plan_reserve_replays; try done].
  - done.
  - intros plan' Hp'. rewrite Hplan in Hp'. by injection Hp' as <-.
Qed.

Lemma begin_typed request plan now candidate rv :
  begin_facts request plan now candidate rv -> q_Plan request = Some plan -> request_typed request ->
  ledger_typed candidate.
Proof.
  intros [] Hp (Hq & _ & Hl). rewrite Hp in Hl. unfold ledger_typed.
  rewrite bf_limits0, bf_active0, bf_revision0, bf_records0.
  split_and!; [done|by eapply addCharged_typed|unfold vector_typed in Hq; tauto|unfold is_u64; lia|].
  unfold records_typed. rewrite Forall_singleton. exact Hq.
Qed.

Definition reserve_ok (request : ReservationRequest) (res : result go_error Reservation) (st st' : S) : Prop :=
  (forall rv, res = Ok rv -> exists l, view st' (q_Case request, q_RunID request) = Some l /\
     holds l (q_TaskID request) rv) /\ charge_outcome request st st'.

Lemma unchanged_trans (v1 v2 v3 : run_key -> option Ledger) :
  unchanged v1 v2 -> unchanged v2 v3 -> unchanged v1 v3.
Proof. intros H1 H2 k. by rewrite H2, H1. Qed.

Lemma charge_outcome_after request st1 st2 st3 :
  unchanged (view st1) (view st2) -> charge_outcome request st2 st3 -> charge_outcome request st1 st3.
Proof.
  intros Hu [Hc|(l & (Hw & Hk) & Hrest)]; [left; by eapply unchanged_trans|].
  right. exists l. split; [|done]. split; [done|]. intros k Hne. by rewrite Hk, Hu.
Qed.

Lemma reserveExisting_ok env request current now st res st' :
  store_typed st -> request_typed request ->
  view st (q_Case request, q_RunID request) = Some current ->
  reserveExisting env request current now st = (res, st') -> reserve_ok request res st st'.
Proof.
  intros Ht Hq Hcur H. unfold reserveExisting in H.
  destruct (plan_reserve request current now) as [[rv|next reservation claim]|e] eqn:Hplan.
  - apply pair_equal_spec in H as [<- <-]. split; [|by left]. intros rv' [= <-]. exists current.
    split; [done|]. by eapply replay_holds.
  - apply plan_reserve_charge in Hplan; [|by eapply typed_revision].
    destruct (store_save st _ current next) as [saved st2] eqn:Hsave.
    apply save_law in Hsave as [[Hu Hno]|(cur & _ & _ & Hw & Hres)].
    + destruct saved as [stored|err]; [by destruct (Hno stored)|].
      apply pair_equal_spec in H as [<- <-]. split; [done|by left].
    + assert (Hout : charge_outcome request st st2).
      { right. exists next. split; [done|]. split; [by eapply charge_key|].
        eapply charged_then_replays; eauto. }
      destruct saved as [stored|err]; apply pair_equal_spec in H as [<- <-]; (split; [|exact Hout]); [|done].
      specialize (Hres stored eq_refl). subst stored.
      intros rv Hrv%lift_ok. apply seq_ok in Hrv as [_ [= <-]]. exists next.
      destruct Hw as [Hw _]. rewrite (charge_key _ _ _ _ _ _ Hplan) in Hw. split; [done|].
      by eapply charge_holds.
  - apply pair_equal_spec in H as [<- <-]. split; [done|by left].
Qed.

Lemma begin_ok env request plan now candidate rv st res st' :
  store_typed st -> request_typed request -> q_Plan request = Some plan ->
  begin_facts request plan now candidate rv ->
  (let '(begun, st1) := store_begin st (q_IdempotencyKey request ++ ":budget") candidate in
   match begun with
   | Err err => (Err (mapStoreError env "budget_store_begin" err), st1)
   | Ok (stored, false) =>
       (lift (check_stored stored (l_ProvenanceDigest candidate) ;;
              Ok (mkReservation (rv_ReservationDigest rv) (rv_PlanDigest rv) (rv_ClaimDigest rv)
                    (l_ProvenanceDigest stored) false)), st1)
   | Ok (stored, true) => reserveExisting env request stored now st1
   end) = (res, st') ->
  reserve_ok request res st st'.
Proof.
  intros Ht Hq Hplan Hf H. destruct (store_begin st _ candidate) as [begun st1] eqn:Hbegin.
  pose proof (bf_key _ _ _ _ _ Hf) as Hkey.
  apply begin_law in Hbegin as [[Hu Hres]|(_ & Hw & Hres)].
  - destruct begun as [[stored replayed]|err]; [|by apply pair_equal_spec in H as [<- <-]; split; [|left]].
    destruct (Hres _ _ eq_refl) as [-> Hstored]. rewrite Hkey in Hstored.
    rewrite <- Hu in Hstored. apply reserveExisting_ok in H as [Hok Hout]; [| |done..].
    + split; [done|]. by eapply charge_outcome_after.
    + intros k l Hl. rewrite Hu in Hl. by eapply Ht.
  - assert (Hout : charge_outcome request st st1).
    { right. exists candidate. split; [done|]. split; [done|].
      eapply begun_then_replays; eauto using begin_typed. }
    destruct begun as [[stored replayed]|err]; [|by apply pair_equal_spec in H as [<- <-]].
    destruct (Hres _ _ eq_refl) as [-> ->]. apply pair_equal_spec in H as [<- <-]. split; [|done].
    intros rv' Hrv%lift_ok. apply seq_ok in Hrv as [_ [= <-]]. exists candidate.
    destruct Hw as [Hw _]. rewrite Hkey in Hw. split; [done|].
    pose proof (begin_holds _ _ _ _ _ Hf) as (Hv & Hp & Hpl & Hr). by split_and!.
Qed.

Lemma Reserve_ok env request st res st' :
  store_typed st -> request_typed request -> Reserve env request st = (res, st') ->
  reserve_ok request res st st'.
Proof.
  intros Ht Hq H. unfold Reserve in H.
  assert (Hskip : forall e, (Err (E := go_error) (A := Reservation) e, st) = (res, st') ->
    reserve_ok request res st st') by (intros e [= <- <-]; split; [done|by left]).
  destruct (deny_if _ _ ≫= _) as [_|e]; [|by eapply Hskip].
  destruct (store_load st _ _) as [found|err] eqn:Hload; [|by eapply Hskip].
  apply load_law in Hload. destruct found as [current|].
  - by eapply reserveExisting_ok.
  - destruct (q_Plan request) as [plan|] eqn:Hplan; [|by eapply Hskip].
    destruct (newLedgerWithReservation request plan _) as [[candidate rv]|e] eqn:Hnew; [|by eapply Hskip].
    apply new_ledger_facts in Hnew. by eapply begin_ok.
Qed.

(** Whatever the store does within its contract, a reservation [Reserve] returns
    is durable: the stored ledger of the run is valid and holds a record of the task
    with the returned reservation and claim digests, under the returned plan and
    ledger digests.  And whether it returns a reservation or an error, [Reserve]
    either wrote nothing or wrote the charge such that the same request is from then
    on answered by replay, at any time, from the ledger that was written (an ambiguous
    commit is never charged twice). *)
Theorem reserve_is_durable_and_replayable env request st res st' :
  store_typed st -> request_typed request -> Reserve env request st = (res, st') ->
  (forall rv, res = Ok rv -> exists l, view st' (q_Case request, q_RunID request) = Some l /\
     holds l (q_TaskID request) rv) /\
  (unchanged (view st) (view st') \/
   exists l, written (view st) (view st') l /\ ledger_key l = (q_Case request, q_RunID request) /\
     forall now, exists rv, rv_Replayed rv = true /\
       plan_reserve request l now = Ok (ReplayReservation rv)).
Proof. apply Reserve_ok. Qed.
End reserve_contract.

Definition ex_key : run_key := (ex_scope, ex_run).
Definition ex_env (n : Z) : call_env := mkEnv true (ex_at n) CtxLive CtxLive.

(** The response to the second reservation is lost after the write. *)
Lemma ex_reserve_lost :
  Reserve (ex_env 1) ex_request2 (mkMemory {[ex_key := ex_ledger1]} [true]) =
  (Err (Typed (newError Unavailable "budget_store_save" true)), mkMemory {[ex_key := ex_ledger2]} []).
Proof.
  unfold Reserve. change (to_utc (env_now (ex_env 1))) with (ex_at 1).
  rewrite ex_request_valid.
  change (store_load (mkMemory {[ex_key := ex_ledger1]} [true]) (q_Case ex_request2) (q_RunID ex_request2))
    with (@Ok go_error _ (({[ex_key := ex_ledger1]} : gmap run_key Ledger) !! ex_key)).
  rewrite lookup_singleton_eq. unfold reserveExisting.
  replace (plan_reserve ex_request2 ex_ledger1 (ex_at 1))
    with (@Ok Error _ (ChargeLedger ex_ledger2 ex_reservation2 ex_claim2)) by (symmetry; exact ex_reserve2).
  cbn [store_save memory_budget_store]. unfold memory_save. cbn [ms_ledgers].
  change (ledger_key ex_ledger2) with ex_key. rewrite lookup_singleton_eq, insert_singleton_eq.
  reflexivity.
Qed.

Lemma ex_store_typed : store_typed (mkMemory {[ex_key := ex_ledger1]} [true]).
Proof.
  intros k l Hl. cbn in Hl. apply lookup_singleton_Some in Hl as [_ <-]. exact ex_ledger1_typed.
Qed.

Lemma reserve_is_durable_and_replayable_witness :
  exists res st', Reserve (ex_env 1) ex_request2 (mkMemory {[ex_key := ex_ledger1]} [true]) = (res, st') /\
    (unchanged (view (mkMemory {[ex_key := ex_ledger1]} [true])) (view st') \/
     exists l, written (view (mkMemory {[ex_key := ex_ledger1]} [true])) (view st') l /\
       ledger_key l = (q_Case ex_request2, q_RunID ex_request2) /\
       forall now, exists rv, rv_Replayed rv = true /\
         plan_reserve ex_request2 l now = Ok (ReplayReservation rv)).
Proof.
  eexists _, _. split; [exact ex_reserve_lost|].
  exact (proj2 (reserve_is_durable_and_replayable _ _ _ _ _ ex_store_typed ex_request2_typed ex_reserve_lost)).
Defined.

(** ** Concurrent controllers

    One run.  Any number of controllers load the ledger, decide, and write later; the
    store lets a write through only under its contract.  [w_log] is the history of the
    stored ledger, newest first. *)

Inductive pending : Type :=
| PBegin (candidate : Ledger)
| PSave (prior next : Ledger).

Record world : Type := mkWorld {
  w_ledger : option Ledger;
  w_pending : list pending;
  w_log : list Ledger }.

Inductive world_step (key : run_key) : world -> world -> Prop :=
| step_plan_begin w request plan now candidate rv :
    request_typed request -> (q_Case request, q_RunID request) = key -> q_Plan request = Some plan ->
    newLedgerWithReservation request plan now = Ok (candidate, rv) ->
    world_step key w (mkWorld (w_ledger w) (PBegin candidate :: w_pending w) (w_log w))
| step_plan_reserve w request now current next reservation claim :
    w_ledger w = Some current -> request_typed request ->
    plan_reserve request current now = Ok (ChargeLedger next reservation claim) ->
    world_step key w (mkWorld (w_ledger w) (PSave current next :: w_pending w) (w_log w))
| step_plan_settle w request now current next reservation settlement :
    w_ledger w = Some current ->
    plan_settle request current now = Ok (ReleaseLedger next reservation settlement) ->
    world_step key w (mkWorld (w_ledger w) (PSave current next :: w_pending w) (w_log w))
| step_commit_begin w candidate :
    PBegin candidate ∈ w_pending w -> w_ledger w = None ->
    world_step key w (mkWorld (Some candidate) (w_pending w) [candidate])
| step_commit_save w prior next cur :
    PSave prior next ∈ w_pending w -> w_ledger w = Some cur -> same_version cur prior ->
    world_step key w (mkWorld (Some next) (w_pending w) (next :: w_log w))
| step_drop w rest :
    rest ⊆ w_pending w -> world_step key w (mkWorld (w_ledger w) rest (w_log w)).

Definition world_init : world := mkWorld None [] [].

(** What each write in flight was checked to be when it was decided *)
Definition good_write (prior next : Ledger) : Prop :=
  ledger_typed next /\ validateLedger next = Ok tt /\ next_revision prior next /\
  records_kept (l_Reservations prior) (l_Reservations next).

Definition pending_ok (log : list Ledger) (p : pending) : Prop :=
  match p with
  | PBegin candidate => ledger_typed candidate /\ validateLedger candidate = Ok tt
  | PSave prior next => prior ∈ log /\ good_write prior next
  end.

(** The history: each ledger follows the one below it. *)
Inductive chain : list Ledger -> Prop :=
| chain_first l : ledger_typed l -> validateLedger l = Ok tt -> chain [l]
| chain_next next prior log : chain (prior :: log) -> good_write prior next -> chain (next :: prior :: log).

Record world_inv (w : world) : Prop := {
  wi_head : w_ledger w = head (w_log w);
  wi_chain : w_log w = [] \/ chain (w_log w);
  wi_pending : Forall (pending_ok (w_log w)) (w_pending w) }.

Lemma chain_head_revision l log x :
  chain (l :: log) -> x ∈ log -> l_Revision x < l_Revision l.
Proof.
  revert l. induction log as [|prior log IH]; intros l Hc Hx; [by apply elem_of_nil in Hx|].
  inversion Hc as [|? ? ? Hc' (_ & _ & (_ & Hr & _) & _)]; subst.
  apply elem_of_cons in Hx as [->|Hx]; [lia|]. specialize (IH prior Hc' Hx). lia.
Qed.

Lemma chain_typed_head l log : chain (l :: log) -> ledger_typed l /\ validateLedger l = Ok tt.
Proof. inversion 1 as [|? ? ? ? (? & ? & _)]; done. Qed.

Lemma chain_extends l log : chain (l :: log) -> forall x, x ∈ l :: log ->
  same_run x l /\ records_kept (l_Reservations x) (l_Reservations l).
Proof.
  revert l. induction log as [|prior log IH]; intros l Hc x [->|Hx]%elem_of_cons; try done.
  { by apply elem_of_nil in Hx. }
  inversion Hc as [|? ? ? Hc' (_ & _ & (Hs & _) & Hk)]; subst.
  destruct (IH prior Hc' x Hx) as [Hs' Hk']. split; by etrans.
Qed.

Lemma chain_member log : chain log -> forall x, x ∈ log -> ledger_typed x /\ validateLedger x = Ok tt.
Proof.
  induction 1 as [l Ht Hv|next prior log Hc IH (Ht & Hv & _)]; intros x Hx.
  - by apply list_elem_of_singleton in Hx as ->.
  - apply elem_of_cons in Hx as [->|Hx]; [done|auto].
Qed.

Lemma pending_ok_mono log log' p : log ⊆ log' -> pending_ok log p -> pending_ok log' p.
Proof. destruct p; cbn; [done|]. intros Hl [? ?]. auto. Qed.

Lemma decided_write current next : ledger_typed current ->
  (exists request now reservation claim, request_typed request /\
     plan_reserve request current now = Ok (ChargeLedger next reservation claim)) \/
  (exists request clock reservation settlement,
     plan_settle request current clock = Ok (ReleaseLedger next reservation settlement)) ->
  good_write current next.
Proof.
  intros Ht H. pose proof Ht as (_ & _ & _ & Hu & _).
  destruct H as [(q & now & rv & c & Hq & H%plan_reserve_charge)|(q & clock & rv & s & H%plan_settle_release)]; [|done|..|done].
  - split_and!; [by eapply charge_typed|apply H|apply H|by eapply charge_kept].
  - destruct H as (i & r & H). split_and!; [by eapply release_typed|apply H|apply H|by eapply release_kept].
Qed.

Lemma world_step_inv key w w' : world_inv w -> world_step key w w' -> world_inv w'.
Proof.
  intros [Hh Hc Hp] Hstep.
  assert (Hcur : forall cur, w_ledger w = Some cur -> exists log, w_log w = cur :: log /\ chain (cur :: log)).
  { intros cur Hw. rewrite Hh in Hw. destruct (w_log w) as [|x log]; [done|].
    injection Hw as ->. destruct Hc as [|Hc]; [done|]. eauto. }
  assert (Hadd : forall cur next, w_ledger w = Some cur -> good_write cur next ->
    world_inv (mkWorld (w_ledger w) (PSave cur next :: w_pending w) (w_log w))).
  { intros cur next Hw Hg. constructor; cbn; [done..|]. constructor; [|done]. split; [|done].
    destruct (Hcur cur Hw) as (log & -> & _). by left. }
  destruct Hstep as [w q plan now cand rv Hq Hk Hplan Hnew|w q now cur next rv c Hw Hq H
    |w q now cur next rv s Hw H|w cand Hin Hw|w prior next cur Hin Hw Hv|w rest Hsub].
  - constructor; cbn; [done..|]. constructor; [|done]. apply new_ledger_facts in Hnew. cbn.
    split; [by eapply begin_typed|apply Hnew].
  - apply Hadd; [done|]. destruct (Hcur cur Hw) as (log & _ & [Ht _]%chain_typed_head).
    apply decided_write; [done|]. left. by exists q, now, rv, c.
  - apply Hadd; [done|]. destruct (Hcur cur Hw) as (log & _ & [Ht _]%chain_typed_head).
    apply decided_write; [done|]. right. by exists q, now, rv, s.
  - rewrite Forall_forall in Hp. destruct (Hp _ Hin) as [Ht Hval].
    rewrite Hw in Hh. destruct (w_log w) as [|x log] eqn:Hlog; [|done].
    constructor; cbn; [done|right; by constructor|]. rewrite Forall_forall. intros p Hpin.
    eapply pending_ok_mono; [|by apply Hp]. set_solver.
  - rewrite Forall_forall in Hp. destruct (Hp _ Hin) as [Hprior Hg].
    destruct (Hcur cur Hw) as (log & Hlog & Hch). rewrite Hlog in *.
    assert (prior = cur) as ->.
    { apply elem_of_cons in Hprior as [->|Hx]; [done|].
      apply (chain_head_revision _ _ _ Hch) in Hx. destruct Hv as [Hv _]. lia. }
    constructor; cbn; [done|right; by constructor|]. rewrite Forall_forall. intros p Hpin.
    eapply pending_ok_mono; [|by apply Hp]. set_solver.
  - constructor; cbn; [done..|]. rewrite Forall_forall in *. auto.
Qed.

Lemma world_reach_inv key w : rtc (world_step key) world_init w -> world_inv w.
Proof.
  intros H. revert w H. apply rtc_ind_r; [constructor; cbn; by eauto|].
  intros. by eapply world_step_inv.
Qed.

(** *** Charges only grow *)

Lemma claim_sum_kept f l : forall l',
  NoDup (map r_TaskID l) -> records_kept l l' -> Forall (fun r => 0 <= f (r_Claim r)) l' ->
  claim_sum f l <= claim_sum f l'.
Proof.
  induction l as [|r l IH]; intros l' Hnd Hk Hpos; [by apply claim_sum_nonneg|].
  apply NoDup_cons in Hnd as [Hr Hnd].
  destruct (Hk r) as (r' & Hr' & Hkept); [by left|].
  apply elem_of_Permutation in Hr' as [l2 Hp].
  rewrite (claim_sum_perm f _ _ Hp). unfold claim_sum. cbn. fold (claim_sum f l) (claim_sum f l2).
  destruct Hkept as (_ & _ & _ & Hid & _ & Hcl & _). rewrite Hcl.
  assert (claim_sum f l <= claim_sum f l2); [|lia].
  rewrite Hp in Hpos. apply Forall_cons in Hpos as [_ Hpos]. apply IH; [done| |done].
  intros x Hx. destruct (Hk x) as (x' & Hx' & Hxk); [by right|]. exists x'. split; [|done].
  rewrite Hp in Hx'. apply elem_of_cons in Hx' as [->|?]; [|done].
  destruct Hxk as (_ & _ & _ & Hxid & _). exfalso. apply Hr.
  rewrite <- Hid, Hxid. apply list_elem_of_fmap_2. done.
Qed.

Lemma charged_kept a b : ledger_typed b -> ledger_sound a -> ledger_sound b ->
  records_kept (l_Reservations a) (l_Reservations b) -> vectorWithin (l_Charged a) (l_Charged b) = true.
Proof.
  intros Htb Ha Hb Hk. destruct Htb as (_ & _ & _ & _ & Hrb).
  pose proof (records_claim_ok _ _ Hrb (ls_records _ Hb)) as Hc.
  pose proof (sorted_nodup _ (ls_order _ Ha)) as Hnd.
  assert (Hsum : forall f, (forall v, claim_ok v -> 0 <= f v) ->
    claim_sum f (l_Reservations a) <= claim_sum f (l_Reservations b)).
  { intros f Hf. apply claim_sum_kept; [done..|]. eapply Forall_impl; [exact Hc|]. auto. }
  rewrite (ls_charged _ Ha), (ls_charged _ Hb). apply vectorWithin_spec. cbn.
  split_and!; try lia; apply Hsum; intros v Hv%claim_ok_bounds; lia.
Qed.

(** C1. However the controllers of a run interleave, crash or lose races, the stored
    ledger is sound (so its charge is the sum of all its claims, within the limits), and
    it extends every ledger stored before: same run, plan and limits, every reservation
    kept with its claim, no cumulative charge lower than it was. *)
Theorem interleaved_budget_is_never_exceeded key w cur :
  rtc (world_step key) world_init w -> w_ledger w = Some cur ->
  ledger_sound cur /\
  forall old, old ∈ w_log w ->
    same_run old cur /\ records_kept (l_Reservations old) (l_Reservations cur) /\
    vectorWithin (l_Charged old) (l_Charged cur) = true.
Proof.
  intros [Hh Hc _]%world_reach_inv Hw. rewrite Hh in Hw.
  destruct (w_log w) as [|x log]; [done|]. injection Hw as ->. destruct Hc as [|Hc]; [done|].
  destruct (chain_typed_head _ _ Hc) as [Ht Hv].
  pose proof (proj1 (validateLedger_iff _ Ht) Hv) as Hs. split; [done|].
  intros old Hold. destruct (chain_extends _ _ Hc old Hold) as [Hsame Hk]. split_and!; [done..|].
  apply charged_kept; [done| |done..].
  destruct (chain_member _ Hc old Hold) as [Ht' Hv']. by apply validateLedger_iff.
Qed.

(** Two writers decide on the first ledger: a delegated reservation and a settlement. *)
Definition ex_world : world :=
  mkWorld (Some ex_ledger2)
    [PSave ex_ledger1 ex_ledger3; PSave ex_ledger1 ex_ledger2; PBegin ex_ledger1] [ex_ledger2; ex_ledger1].

Lemma ex_request1_typed : request_typed ex_request1.
Proof. unfold request_typed, vector_typed, is_u64, is_u32. cbn. lia. Qed.

Lemma ex_world_reachable : rtc (world_step ex_key) world_init ex_world.
Proof.
  eapply rtc_l.
  { eapply (step_plan_begin _ _ ex_request1 ex_plan ex_now); [exact ex_request1_typed|done|done|exact ex_begin1]. }
  eapply rtc_l; [eapply (step_commit_begin _ _ ex_ledger1); [by left|done]|].
  eapply rtc_l; [eapply (step_plan_reserve _ _ ex_request2); [done|exact ex_request2_typed|exact ex_reserve2]|].
  eapply rtc_l; [eapply (step_plan_settle _ _ ex_settlement); [done|exact ex_settle1]|].
  eapply rtc_l; [eapply (step_commit_save _ _ ex_ledger1 ex_ledger2 ex_ledger1); [right; by left|done|done]|].
  apply rtc_refl.
Qed.

Lemma interleaved_budget_is_never_exceeded_witness :
  w_ledger ex_world = Some ex_ledger2 /\ ledger_sound ex_ledger2 /\
  vectorWithin (l_Charged ex_ledger1) (l_Charged ex_ledger2) = true.
Proof.
  destruct (interleaved_budget_is_never_exceeded ex_key ex_world ex_ledger2 ex_world_reachable eq_refl)
    as [Hs Hold].
  destruct (Hold ex_ledger1) as (_ & _ & Hc); [right; by left|].
  exact (conj eq_refl (conj Hs Hc)).
Defined.

(** No lost update: comparing the revision and the provenance digest is enough.  In
    every reachable state a write in flight matches the stored ledger by version only if
    that ledger is the very one the write was decided on, and then the new ledger is its
    next revision; every stale write is refused. *)
Theorem compare_and_save_is_exact key w prior next cur :
  rtc (world_step key) world_init w -> PSave prior next ∈ w_pending w -> w_ledger w = Some cur ->
  (same_version cur prior <-> cur = prior) /\ next_revision prior next.
Proof.
  intros [Hh Hc Hp]%world_reach_inv Hin Hw. rewrite Forall_forall in Hp.
  destruct (Hp _ Hin) as [Hprior (_ & _ & Hn & _)]. rewrite Hh in Hw.
  destruct (w_log w) as [|x log]; [done|]. injection Hw as ->. destruct Hc as [|Hc]; [done|].
  split; [|done]. split; [|by intros ->]. intros [Hv _].
  apply elem_of_cons in Hprior as [->|Hx]; [done|].
  apply (chain_head_revision _ _ _ Hc) in Hx. lia.
Qed.

Lemma compare_and_save_is_exact_witness :
  ~ same_version ex_ledger2 ex_ledger1 /\ next_revision ex_ledger1 ex_ledger3.
Proof.
  destruct (compare_and_save_is_exact ex_key ex_world ex_ledger1 ex_ledger3 ex_ledger2
    ex_world_reachable (list_elem_of_here _ _) eq_refl) as [Hv Hn].
  split; [|exact Hn]. intros H. apply Hv in H. discriminate (f_equal l_Revision H).
Defined.
