(* ===== verification/RunBudgetBinding.v ===== *)
(** * What the digests of the budget bind

    The digests of the budget package are SHA-256 over canonical JSON.  Canonical JSON is
    injective, so two records with the same digest are the same record, or they exhibit
    a collision of SHA-256. *)

From S2P Require Import Prelude GoStrings GoRegexp GoTime GoJson DomainContract Sha256 Domain RunBudget RunBudgetFacts RunBudgetExample RunBudgetController RunBudgetAdmission.

Local Open Scope string_scope.
Local Open Scope Z_scope.

(** ** The JSON of each type determines the value *)

Lemma json_uint_inj m n : 0 <= m -> 0 <= n -> json_uint m = json_uint n -> m = n.
Proof. intros Hm Hn [= H]. by apply format_uint_inj. Qed.

Lemma case_json_inj a b : sort_json (case_json a) = sort_json (case_json b) -> a = b.
Proof. destruct a, b. cbn. by intros [= -> -> ->]. Qed.

Definition vector_nonneg (v : Vector) : Prop :=
  0 <= Tokens v /\ 0 <= CostMicros v /\ 0 <= WallTimeNanoseconds v /\ 0 <= ToolCalls v /\
  0 <= QueryRows v /\ 0 <= EvidenceBytes v /\ 0 <= DelegationDepth v /\ 0 <= Fanout v /\ 0 <= Concurrency v.

Lemma typed_nonneg v : vector_typed v -> vector_nonneg v.
Proof. unfold vector_typed, vector_nonneg, is_u64, is_u32. lia. Qed.

Lemma limits_nonneg v : validLimitVector v = true -> vector_nonneg v.
Proof. unfold validLimitVector, vector_nonneg. intros H. bool_split. lia. Qed.

Lemma vector_json_inj a b : vector_nonneg a -> vector_nonneg b ->
  sort_json (vector_json a) = sort_json (vector_json b) -> a = b.
Proof.
  unfold vector_nonneg. destruct a, b. cbn. intros Ha Hb [= H1 H2 H3 H4 H5 H6 H7 H8 H9].
  apply format_uint_inj in H1, H2, H3, H4, H5, H6, H7, H8, H9; try lia. by subst.
Qed.

(** ** Well-formedness of the JSON *)

Lemma digits_ascii s : str_forallb is_digit s = true -> str_forallb (byte_in 0 127) s = true.
Proof.
  apply str_forallb_impl. intros c. unfold is_digit, byte_in, in_range.
  rewrite !andb_true_iff, !Z.leb_le. lia.
Qed.

Lemma pad_ascii k n : str_forallb (byte_in 0 127) (pad_digits k n) = true.
Proof. apply digits_ascii, pad_digits_forallb. Qed.

Lemma format_uint_ascii n : str_forallb (byte_in 0 127) (format_uint n) = true.
Proof.
  apply digits_ascii. Transparent format_uint. unfold format_uint, DecimalString.NilZero.string_of_uint.
  Opaque format_uint. destruct (N.to_uint (Z.to_N n)); try apply string_of_uint_digits. done.
Qed.

Lemma formatTime_valid t : valid_string (formatTime t) = true.
Proof.
  apply ascii_valid. unfold formatTime, format_timestamp. destruct (date_of_days _) as [[y m] d].
  rewrite !str_forallb_app, !pad_ascii. cbn [str_forallb andb].
  assert (str_forallb (byte_in 0 127) (format_year y) = true) as ->; [|done].
  unfold format_year. destruct (y <? 0); rewrite ?str_forallb_app; cbn [str_forallb];
    (destruct (_ <? 10000); rewrite ?pad_ascii, ?format_uint_ascii; done).
Qed.

Ltac json_wf_tac :=
  cbn [json_wf forallb fst snd map]; rewrite ?format_uint_canonical, ?formatTime_valid.

Lemma vector_json_wf n v : json_wf (S n) (vector_json v) = true.
Proof. unfold vector_json, json_uint. json_wf_tac. vm_compute. reflexivity. Qed.

Lemma case_json_wf n c : validCase c = true -> json_wf (S n) (case_json c) = true.
Proof.
  unfold validCase. intros H. bool_split. unfold case_json. json_wf_tac.
  rewrite (uuid_ascii (OrganizationID c)), (uuid_ascii (TenantID c)), (uuid_ascii (CaseID c)) by done.
  vm_compute. reflexivity.
Qed.

Lemma or_uuid_valid s : s = "" \/ uuidPattern s = true -> valid_string s = true.
Proof. intros [->|H]; [done|by apply uuid_ascii]. Qed.

Lemma or_digest_valid s : s = "" \/ digestPattern s = true -> valid_string s = true.
Proof. intros [->|H]; [done|by apply digest_ascii]. Qed.

Record claim_strings_ok (q : ReservationRequest) (plan : string) : Prop := {
  cs_run : uuidPattern (q_RunID q) = true;
  cs_task : uuidPattern (q_TaskID q) = true;
  cs_parent : q_ParentTaskID q = "" \/ uuidPattern (q_ParentTaskID q) = true;
  cs_case : validCase (q_Case q) = true;
  cs_activity : tokenPattern (q_Activity q) = true;
  cs_policy : digestPattern (q_PolicyDigest q) = true;
  cs_route : tokenPattern (q_ProviderRoute q) = true;
  cs_plan : digestPattern plan = true }.

Lemma claim_json_wf q plan : claim_strings_ok q plan -> json_wf 64 (claim_json q plan) = true.
Proof.
  intros []. unfold claim_json. json_wf_tac. rewrite !vector_json_wf, (case_json_wf 62) by done.
  rewrite (uuid_ascii (q_RunID q)), (uuid_ascii (q_TaskID q)), (or_uuid_valid (q_ParentTaskID q)),
    (token_ascii (q_Activity q)), (token_ascii (q_ProviderRoute q)), (digest_ascii (q_PolicyDigest q)),
    (digest_ascii plan) by done. vm_compute. reflexivity.
Qed.

(** ** Canonical values are injective up to the order of keys *)

Lemma canonicalValue_inv v c : json_wf 64 v = true -> canonicalValue v = Ok c ->
  c = marshal false (sort_json v).
Proof.
  unfold canonicalValue. intros Hwf H%or_err_ok. pose proof H as H0. unfold Canonicalize in H0.
  apply bind_ok in H0 as (w & Hd & _).
  assert (Hlen : len (marshal true v) <= MaxInputBytes).
  { unfold DecodeUnique in Hd. apply seq_ok in Hd as [Hd _]. apply deny_if_ok in Hd. bool_split. lia. }
  rewrite Canonicalize_marshal in H by done. by injection H as <-.
Qed.

Lemma canonicalValue_inj v w c : json_wf 64 v = true -> json_wf 64 w = true ->
  canonicalValue v = Ok c -> canonicalValue w = Ok c -> sort_json v = sort_json w.
Proof.
  intros Hv Hw Hcv Hcw. apply (marshal_inj false 64 64); [by apply json_wf_sort..|].
  rewrite <- (canonicalValue_inv v c), <- (canonicalValue_inv w c); done.
Qed.

Lemma budgetDigest_inj d x y : budgetDigest d x = budgetDigest d y ->
  x = y \/ sha256_collision (d ++ NUL_str ++ x) (d ++ NUL_str ++ y).
Proof.
  unfold budgetDigest. intros [Heq|H]%digest_eq; [left|by right].
  by apply append_inj_l, append_inj_l in Heq.
Qed.

Lemma claim_json_inj a b plan :
  vector_nonneg (q_TaskLimits a) -> vector_nonneg (q_Claim a) ->
  vector_nonneg (q_TaskLimits b) -> vector_nonneg (q_Claim b) ->
  sort_json (claim_json a plan) = sort_json (claim_json b plan) ->
  q_RunID a = q_RunID b /\ q_TaskID a = q_TaskID b /\ q_ParentTaskID a = q_ParentTaskID b /\
  q_Case a = q_Case b /\ q_Activity a = q_Activity b /\ q_PolicyDigest a = q_PolicyDigest b /\
  q_ProviderRoute a = q_ProviderRoute b /\ formatTime (q_Deadline a) = formatTime (q_Deadline b) /\
  q_TaskLimits a = q_TaskLimits b /\ q_Claim a = q_Claim b.
Proof.
  intros. assert (Hs : forall q, sort_json (claim_json q plan) =
    JObj [("activity", JStr (q_Activity q)); ("case", sort_json (case_json (q_Case q)));
          ("claim", sort_json (vector_json (q_Claim q))); ("deadline", JStr (formatTime (q_Deadline q)));
          ("parent_task_id", JStr (q_ParentTaskID q)); ("plan_digest", JStr plan);
          ("policy_digest", JStr (q_PolicyDigest q)); ("provider_route", JStr (q_ProviderRoute q));
          ("run_id", JStr (q_RunID q)); ("task_id", JStr (q_TaskID q));
          ("task_limits", sort_json (vector_json (q_TaskLimits q)))]) by reflexivity.
  rewrite !Hs in *. clear Hs.
  pose proof (case_json_inj (q_Case a) (q_Case b)) as Hc.
  pose proof (vector_json_inj (q_Claim a) (q_Claim b)) as Hv.
  pose proof (vector_json_inj (q_TaskLimits a) (q_TaskLimits b)) as Ht.
  revert Hc Hv Ht. generalize dependent (sort_json (case_json (q_Case a))).
  generalize dependent (sort_json (vector_json (q_Claim a))).
  generalize dependent (sort_json (vector_json (q_TaskLimits a))). intros ? ? ? Heq.
  injection Heq. intros. split_and!; auto.
Qed.

(** ** The claim of a replay *)

Lemma record_claim ledger r : validateReservationRecord ledger r = Ok tt ->
  claimDigest (record_request ledger r) (l_PlanDigest ledger) = Ok (r_ClaimDigest r).
Proof.
  unfold validateReservationRecord. intros H. apply seq_ok in H as [_ H]. apply seq_ok in H as [H _].
  destruct (claimDigest _ _) as [c|]; [|done]. apply deny_if_ok in H. bool_split.
  by match goal with H : String.eqb c _ = true |- _ => apply String.eqb_eq in H as -> end.
Qed.

Lemma record_strings ledger r : ledger_fields_ok ledger -> validateReservationRecord ledger r = Ok tt ->
  claim_strings_ok (record_request ledger r) (l_PlanDigest ledger).
Proof.
  intros Hf H. unfold validateReservationRecord in H. apply seq_ok in H as [Hg _]. apply deny_if_ok in Hg.
  rewrite !orb_false_iff, blank_or_pattern, !negb_false_iff, !String.eqb_eq in Hg.
  unfold ledger_fields_ok in Hf.
  assert (r_PolicyDigest r = l_PolicyDigest ledger) as Ep by tauto.
  assert (r_ProviderRoute r = l_ProviderRoute ledger) as Er by tauto.
  constructor; cbn [record_request q_RunID q_TaskID q_ParentTaskID q_Case q_Activity q_PolicyDigest
    q_ProviderRoute]; rewrite ?Ep, ?Er; tauto.
Qed.

Lemma request_strings request now plan : validateReservationRequest request now = Ok tt ->
  digestPattern plan = true -> claim_strings_ok request plan.
Proof.
  intros H Hp. unfold validateReservationRequest in H. apply seq_ok in H as [Hg _]. apply deny_if_ok in Hg.
  rewrite !orb_false_iff, blank_or_pattern, !negb_false_iff in Hg.
  repeat match type of Hg with _ /\ _ => destruct Hg as [Hg ?] end. by constructor.
Qed.

Lemma claimDigest_canonical q plan d : claimDigest q plan = Ok d ->
  exists c, canonicalValue (claim_json q plan) = Ok c /\ d = budgetDigest "COH-RUN-BUDGET-CLAIM-V1" c.
Proof. unfold claimDigest. intros H. apply bind_ok in H as (c & Hc & [= <-]). eauto. Qed.

(** The messages [claimDigest] hashes for two requests are different and have the same sum. *)
Definition claims_collide (a b : ReservationRequest) (plan : string) : Prop :=
  exists ca cb, canonicalValue (claim_json a plan) = Ok ca /\ canonicalValue (claim_json b plan) = Ok cb /\
    sha256_collision ("COH-RUN-BUDGET-CLAIM-V1" ++ NUL_str ++ ca) ("COH-RUN-BUDGET-CLAIM-V1" ++ NUL_str ++ cb).

Lemma claimDigest_inj a b plan d :
  claim_strings_ok a plan -> claim_strings_ok b plan -> claimDigest a plan = Ok d -> claimDigest b plan = Ok d ->
  sort_json (claim_json a plan) = sort_json (claim_json b plan) \/ claims_collide a b plan.
Proof.
  intros Ha Hb (ca & Hca & ->)%claimDigest_canonical (cb & Hcb & Heq)%claimDigest_canonical.
  apply budgetDigest_inj in Heq as [->|?]; [left|right; by exists ca, cb].
  eapply canonicalValue_inj; eauto using claim_json_wf.
Qed.

Lemma replay_record request current now rv :
  plan_reserve request current now = Ok (ReplayReservation rv) ->
  exists claim r i, claimDigest request (l_PlanDigest current) = Ok claim /\
    find_record (q_TaskID request) (l_Reservations current) = Some (i, r) /\ r_ClaimDigest r = claim /\
    r_IdempotencyDigest r = budgetDigest "COH-RUN-BUDGET-IDEMPOTENCY-V1" (q_IdempotencyKey request) /\
    r_ReservationDigest r = rv_ReservationDigest rv.
Proof.
  unfold plan_reserve. intros H. apply seq_ok in H as [Hv H]. apply seq_ok in H as [_ H].
  apply seq_ok in H as [_ H]. apply bind_ok in H as ([[c i] r] & Hd & H).
  pose proof (reservationDigests_idem _ _ _ _ _ Hd) as ->.
  destruct (find_record _ _) as [[j rec]|] eqn:Hf.
  - apply seq_ok in H as [Hg [= <-]]. apply deny_if_ok in Hg. bool_split.
    repeat match goal with H : String.eqb _ _ = true |- _ => apply String.eqb_eq in H end.
    unfold reservationDigests in Hd. apply bind_ok in Hd as (c' & Hc & [= -> _]).
    exists c, rec, j. split_and!; done.
  - apply seq_ok in H as [_ H]. apply seq_ok in H as [_ H]. apply seq_ok in H as [_ H].
    destruct (addCharged _ _); [|done]. apply seq_ok in H as [_ H]. apply seq_ok in H as [_ H].
    apply bind_ok in H as (n & _ & H). by apply seq_ok in H as [_ H].
Qed.

(** A task replays only with its original request.  If [Reserve] answers a valid
    request from a record, the record has the request's task, parent, activity, policy,
    route, limits and claim, its deadline prints the same timestamp, and its idempotency
    digest is that of the request's key; otherwise the claim messages of the request and of
    one of the ledger's records are a collision of SHA-256. *)
Theorem replay_binds_the_request request current now rv :
  ledger_typed current -> request_typed request -> validateReservationRequest request now = Ok tt ->
  plan_reserve request current now = Ok (ReplayReservation rv) ->
  (exists r, r ∈ l_Reservations current /\ r_ReservationDigest r = rv_ReservationDigest rv /\
    r_TaskID r = q_TaskID request /\ r_ParentTaskID r = q_ParentTaskID request /\
    r_Activity r = q_Activity request /\ r_PolicyDigest r = q_PolicyDigest request /\
    r_ProviderRoute r = q_ProviderRoute request /\ r_TaskLimits r = q_TaskLimits request /\
    r_Claim r = q_Claim request /\ formatTime (r_Deadline r) = formatTime (q_Deadline request) /\
    r_IdempotencyDigest r = budgetDigest "COH-RUN-BUDGET-IDEMPOTENCY-V1" (q_IdempotencyKey request)) \/
  (exists r, r ∈ l_Reservations current /\
     claims_collide (record_request current r) request (l_PlanDigest current)).
Proof.
  intros Ht (Hq & Hql & _) Hreq H.
  assert (Hv : ledger_sound current).
  { apply validateLedger_iff; [done|]. unfold plan_reserve in H. by apply seq_ok in H as [Hv _]. }
  apply replay_record in H as (claim & r & i & Hclaim & Hf & Hrc & Hidem & Hres).
  apply find_record_some in Hf as (_ & Hin & Htask).
  pose proof (proj1 (Forall_forall _ _) (ls_records _ Hv) r Hin) as Hrec. cbn beta in Hrec.
  pose proof (record_claim _ _ Hrec) as Hrclaim. rewrite Hrc in Hrclaim.
  pose proof (ls_fields _ Hv) as Hfields.
  destruct (claimDigest_inj _ _ _ _ (record_strings _ _ Hfields Hrec)
    (request_strings _ _ _ Hreq (cs_plan _ _ (record_strings _ _ Hfields Hrec))) Hrclaim Hclaim)
    as [Hj|]; [left|right; by exists r].
  destruct Ht as (_ & _ & _ & _ & Hrt). pose proof (proj1 (Forall_forall _ _) Hrt r Hin) as Hct.
  apply claim_json_inj in Hj as (_ & _ & H3 & _ & H5 & H6 & H7 & H8 & H9 & H10);
    [| |by apply typed_nonneg..|by apply typed_nonneg].
  - exists r. by split_and!.
  - apply limits_nonneg. unfold validateReservationRecord in Hrec. apply seq_ok in Hrec as [Hg _].
    apply deny_if_ok in Hg. by bool_split.
Qed.

Lemma replay_binds_the_request_witness :
  validateReservationRequest ex_request2 (ex_at 30) = Ok tt /\
  ((exists r, r ∈ l_Reservations ex_ledger2 /\ r_Claim r = q_Claim ex_request2) \/
   exists r, r ∈ l_Reservations ex_ledger2 /\
     claims_collide (record_request ex_ledger2 r) ex_request2 (l_PlanDigest ex_ledger2)).
Proof.
  assert (Hv : validateReservationRequest ex_request2 (ex_at 30) = Ok tt) by (vm_compute; reflexivity).
  split; [exact Hv|].
  destruct (replay_binds_the_request ex_request2 ex_ledger2 (ex_at 30) _ ex_ledger2_typed
    ex_request2_typed Hv ex_replay2) as [(r & Hin & H)|H]; [left|right; exact H].
  exists r. split; [exact Hin|apply H].
Defined.

(** ** The provenance digest of a ledger *)

Ltac layout_tac :=
  repeat first
    [ apply sl_nil | apply sl_field | apply sl_scalar; [reflexivity|reflexivity] ].

Lemma vector_layout a b : same_layout (vector_json a) (vector_json b).
Proof. unfold vector_json. layout_tac. Qed.

Lemma case_layout a b : same_layout (case_json a) (case_json b).
Proof. unfold case_json. layout_tac. Qed.

Lemma reservation_layout a b : same_layout (reservationToWire a) (reservationToWire b).
Proof. unfold reservationToWire. layout_tac; apply vector_layout. Qed.

Lemma ledger_layout a b : same_layout (ledgerToWire a) (ledgerToWire b).
Proof.
  unfold ledgerToWire. layout_tac; try apply vector_layout; try apply case_layout.
  apply sl_arr. intros x y (x' & -> & _)%list_elem_of_fmap_1 (y' & -> & _)%list_elem_of_fmap_1.
  apply reservation_layout.
Qed.

Lemma outcome_valid s : s = "" \/ validOutcome s = true -> valid_string s = true.
Proof.
  intros [->|H]; [done|]. unfold validOutcome in H.
  repeat (apply orb_true_iff in H as [H|H]); apply String.eqb_eq in H as ->; done.
Qed.

Lemma record_valid_strings ledger r : digestPattern (l_PolicyDigest ledger) = true ->
  tokenPattern (l_ProviderRoute ledger) = true -> validateReservationRecord ledger r = Ok tt ->
  valid_string (r_ReservationDigest r) = true /\ valid_string (r_ClaimDigest r) = true /\
  valid_string (r_SettlementDigest r) = true /\ valid_string (r_SettlementIdempotencyDigest r) = true /\
  valid_string (r_IdempotencyDigest r) = true /\ valid_string (r_TaskID r) = true /\
  valid_string (r_ParentTaskID r) = true /\ valid_string (r_Activity r) = true /\
  valid_string (r_PolicyDigest r) = true /\ valid_string (r_ProviderRoute r) = true /\
  valid_string (r_Outcome r) = true /\ valid_string (r_Status r) = true.
Proof.
  intros Hpol Hroute H. pose proof (record_active_or_settled _ _ H) as Hst.
  unfold validateReservationRecord in H. apply seq_ok in H as [Hg H]. apply seq_ok in H as [_ H].
  apply deny_if_ok in Hg. rewrite !orb_false_iff, blank_or_pattern, !negb_false_iff, !String.eqb_eq in Hg.
  assert (r_PolicyDigest r = l_PolicyDigest ledger) as -> by tauto.
  assert (r_ProviderRoute r = l_ProviderRoute ledger) as -> by tauto.
  assert (Hs : (r_SettlementDigest r = "" \/ digestPattern (r_SettlementDigest r) = true) /\
    (r_SettlementIdempotencyDigest r = "" \/ digestPattern (r_SettlementIdempotencyDigest r) = true) /\
    (r_Outcome r = "" \/ validOutcome (r_Outcome r) = true)).
  { destruct (String.eqb (r_Status r) ReservationActive).
    - apply deny_if_ok in H. rewrite !orb_false_iff, !negb_false_iff, !String.eqb_eq in H. tauto.
    - apply seq_ok in H as [H _]. apply deny_if_ok in H.
      rewrite !orb_false_iff, !negb_false_iff in H. tauto. }
  assert (valid_string (r_Status r) = true) as Hstatus by (destruct Hst as [-> | ->]; done).
  split_and!; first [done|apply or_digest_valid; tauto|apply uuid_ascii; tauto|apply or_uuid_valid; tauto
    |apply token_ascii; tauto|apply outcome_valid; tauto].
Qed.

Lemma reservation_wf ledger r : digestPattern (l_PolicyDigest ledger) = true ->
  tokenPattern (l_ProviderRoute ledger) = true -> validateReservationRecord ledger r = Ok tt ->
  json_wf 62 (reservationToWire r) = true.
Proof.
  intros Hp Hr H. destruct (record_valid_strings _ _ Hp Hr H)
    as (H1 & H2 & H3 & H4 & H5 & H6 & H7 & H8 & H9 & H10 & H11 & H12).
  assert (Hs : valid_string (if is_zero (r_SettledAt r) then "" else formatTime (r_SettledAt r)) = true)
    by (destruct (is_zero _); [done|apply formatTime_valid]).
  unfold reservationToWire. json_wf_tac.
  rewrite H1, H2, H3, H4, H5, H6, H7, H8, H9, H10, H11, H12, Hs, !vector_json_wf. vm_compute. reflexivity.
Qed.

Lemma ledger_wf l d : ledger_sound l -> d = "" -> json_wf 64 (ledgerToWire (set_ProvenanceDigest l d)) = true.
Proof.
  intros Hs ->. pose proof (ls_fields _ Hs) as (H1 & H2 & H3 & H4 & H5 & H6 & H7 & _ & _ & H10 & H11 & H12 & _).
  assert (Hrec : forallb (json_wf 62) (map reservationToWire (l_Reservations l)) = true).
  { apply forallb_forall. intros x (r & <- & Hr%list_elem_of_In)%in_map_iff.
    eapply reservation_wf; [done..|]. exact (proj1 (Forall_forall _ _) (ls_records _ Hs) r Hr). }
  unfold ledgerToWire, json_uint. cbn [set_ProvenanceDigest l_SchemaVersion l_ContractVersion l_RunID l_Case l_PlanDigest
    l_PolicyDigest l_ProviderRoute l_Limits l_Charged l_ActiveConcurrency l_Reservations l_ReasonCode
    l_PreviousProvenanceDigest l_ProvenanceDigest l_CreatedAt l_ExpiresAt l_UpdatedAt l_Revision].
  json_wf_tac. rewrite H1, H2, (uuid_ascii _ H3), (case_json_wf 62 _ H4), (digest_ascii _ H5),
    (digest_ascii _ H6), (token_ascii _ H7), !vector_json_wf, Hrec, (token_ascii _ H10),
    (or_digest_valid _ H12). vm_compute. reflexivity.
Qed.

Lemma previous_nul_free s : s = "" \/ digestPattern s = true -> nul_free s.
Proof. intros [->|H]; [done|by apply digest_nul_free]. Qed.

(** The wire form with its provenance digest filled in *)
Definition fill_provenance (j : json) (d : string) : json :=
  match j with
  | JObj l => JObj (map (fun kv => if String.eqb (fst kv) "provenance_digest" then (fst kv, JStr d) else kv) l)
  | _ => j
  end.

Lemma fill_provenance_wire l :
  ledgerToWire l = fill_provenance (ledgerToWire (set_ProvenanceDigest l "")) (l_ProvenanceDigest l).
Proof. reflexivity. Qed.

(** The messages [provenanceDigest] hashes for two ledgers are different and have the same sum. *)
Definition ledgers_collide (a b : Ledger) : Prop :=
  exists ca cb, canonicalValue (ledgerToWire (set_ProvenanceDigest a "")) = Ok ca /\
    canonicalValue (ledgerToWire (set_ProvenanceDigest b "")) = Ok cb /\
    sha256_collision
      ("COH-RUN-BUDGET-PROVENANCE-V1" ++ NUL_str ++
        (l_PreviousProvenanceDigest a ++ NUL_str ++ l_ReasonCode a ++ NUL_str ++ ca))
      ("COH-RUN-BUDGET-PROVENANCE-V1" ++ NUL_str ++
        (l_PreviousProvenanceDigest b ++ NUL_str ++ l_ReasonCode b ++ NUL_str ++ cb)).

(** The provenance digest seals the ledger: two valid ledgers with the same
    provenance digest have the same wire form, that is the same value in every field of
    the ledger and of all its records, or the two messages it hashed are a collision of SHA-256.  A ledger altered in
    any field no longer carries the digest it was stored under. *)
Theorem provenance_digest_seals_the_ledger a b :
  ledger_typed a -> ledger_typed b -> validateLedger a = Ok tt -> validateLedger b = Ok tt ->
  l_ProvenanceDigest a = l_ProvenanceDigest b ->
  ledgerToWire a = ledgerToWire b \/ ledgers_collide a b.
Proof.
  intros Hta Htb Hva Hvb Heq. apply validateLedger_iff in Hva, Hvb; [|done..].
  pose proof (ls_provenance _ Hva) as Hpa. pose proof (ls_provenance _ Hvb) as Hpb.
  pose proof (ls_fields _ Hva) as (_ & _ & _ & _ & _ & _ & _ & _ & _ & Hoa & _ & Hqa & _).
  pose proof (ls_fields _ Hvb) as (_ & _ & _ & _ & _ & _ & _ & _ & _ & Hob & _ & Hqb & _).
  unfold provenanceDigest in Hpa, Hpb.
  apply bind_ok in Hpa as (ca & Hca & [= Hda]), Hpb as (cb & Hcb & [= Hdb]).
  rewrite Heq, <- Hdb in Hda. apply budgetDigest_inj in Hda as [Hm|Hcol]; [left|right; by exists ca, cb].
  unfold NUL_str in Hm. cbn [String.append] in Hm.
  apply split_at_unique in Hm as [_ Hm]; [|by apply previous_nul_free..].
  apply split_at_unique in Hm as [_ ->]; [|by apply token_nul_free..].
  pose proof (canonicalValue_inj _ _ _ (ledger_wf a _ Hva eq_refl) (ledger_wf b _ Hvb eq_refl) Hca Hcb) as Hj.
  apply sort_json_layout_inj in Hj; [|apply ledger_layout].
  by rewrite (fill_provenance_wire a), (fill_provenance_wire b), Hj, Heq.
Qed.

Lemma provenance_digest_seals_the_ledger_witness :
  validateLedger ex_ledger2 = Ok tt /\ (ledgerToWire ex_ledger2 = ledgerToWire ex_ledger2 \/ ledgers_collide ex_ledger2 ex_ledger2).
Proof.
  split; [exact ex_ledger2_valid|].
  exact (provenance_digest_seals_the_ledger ex_ledger2 ex_ledger2 ex_ledger2_typed ex_ledger2_typed
    ex_ledger2_valid ex_ledger2_valid eq_refl).
Defined.
