(* ===== verification/RunBudgetWire.v ===== *)
(** * internal/workflow/runbudget/wire.go: plans and ledgers as bytes

    The structs of the wire format, the exact decoder and the conversions.  [ledgerToWire] and
    [planToWire] of RunBudget.v are the JSON of the structs here ([plan_encoded],
    [ledger_encoded]). *)

From S2P Require Import Prelude GoStrings GoRegexp GoTime GoJson DomainContract Sha256 Domain GoStruct GoCodec RunBudget RunBudgetFacts RunBudgetExample RunBudgetBinding.

Local Open Scope string_scope.
Local Open Scope Z_scope.

Definition maximumRecordBytes : Z := 2 ^ 20.

(** ** The structs and their tags *)

Record planWire : Type := mkPlanWire {
  pw_SchemaVersion : string; pw_ContractVersion : string; pw_RunID : string; pw_Case : CaseRef;
  pw_PolicyDigest : string; pw_ProviderRoute : string; pw_Limits : Vector; pw_CreatedAt : string;
  pw_ExpiresAt : string }.

Record reservationWire : Type := mkReservationWire {
  rw_ReservationDigest : string; rw_ClaimDigest : string; rw_SettlementDigest : string;
  rw_SettlementIdempotencyDigest : string; rw_IdempotencyDigest : string; rw_TaskID : string;
  rw_ParentTaskID : string; rw_Activity : string; rw_PolicyDigest : string; rw_ProviderRoute : string;
  rw_Deadline : string; rw_TaskLimits : Vector; rw_Claim : Vector; rw_Actual : Vector; rw_Outcome : string;
  rw_Status : string; rw_CreatedAt : string; rw_SettledAt : string }.

Record ledgerWire : Type := mkLedgerWire {
  lw_SchemaVersion : string; lw_ContractVersion : string; lw_RunID : string; lw_Case : CaseRef;
  lw_PlanDigest : string; lw_PolicyDigest : string; lw_ProviderRoute : string; lw_Limits : Vector;
  lw_Charged : Vector; lw_ActiveConcurrency : Z; lw_Reservations : slice reservationWire;
  lw_ReasonCode : string; lw_PreviousProvenanceDigest : string; lw_ProvenanceDigest : string;
  lw_CreatedAt : string; lw_ExpiresAt : string; lw_UpdatedAt : string; lw_Revision : Z }.

(** [caseWire] has the fields of [domain.CaseRef]. *)
Definition caseWire : codec CaseRef := struct_codec
  (field "organization_id" str_codec $ field "tenant_id" str_codec $ field "case_id" str_codec $ no_fields)
  (fun '(mkCaseRef a b c) => (a, (b, (c, tt))))
  (fun '(a, (b, (c, _))) => mkCaseRef a b c)
  ltac:(by intros []) ltac:(by intros (? & ? & ? & [])).

Definition vector_codec : codec Vector := struct_codec
  (field "tokens" (uint_codec 64) $ field "cost_micros" (uint_codec 64) $
     field "wall_time_nanoseconds" (uint_codec 64) $ field "tool_calls" (uint_codec 64) $
     field "query_rows" (uint_codec 64) $ field "evidence_bytes" (uint_codec 64) $
     field "delegation_depth" (uint_codec 32) $ field "fanout" (uint_codec 32) $
     field "concurrency" (uint_codec 32) $ no_fields)
  (fun '(mkVector a b c d e f g h i) => (a, (b, (c, (d, (e, (f, (g, (h, (i, tt))))))))))
  (fun '(a, (b, (c, (d, (e, (f, (g, (h, (i, _))))))))) => mkVector a b c d e f g h i)
  ltac:(by intros []) ltac:(by intros (? & ? & ? & ? & ? & ? & ? & ? & ? & [])).

Definition plan_codec : codec planWire := struct_codec
  (field "schema_version" str_codec $ field "contract_version" str_codec $ field "run_id" str_codec $
     field "case" caseWire $ field "policy_digest" str_codec $ field "provider_route" str_codec $
     field "limits" vector_codec $ field "created_at" str_codec $ field "expires_at" str_codec $ no_fields)
  (fun '(mkPlanWire a b c d e f g h i) => (a, (b, (c, (d, (e, (f, (g, (h, (i, tt))))))))))
  (fun '(a, (b, (c, (d, (e, (f, (g, (h, (i, _))))))))) => mkPlanWire a b c d e f g h i)
  ltac:(by intros []) ltac:(by intros (? & ? & ? & ? & ? & ? & ? & ? & ? & [])).

Definition reservation_codec : codec reservationWire := struct_codec
  (field "reservation_digest" str_codec $ field "claim_digest" str_codec $ field "settlement_digest" str_codec $
     field "settlement_idempotency_digest" str_codec $ field "idempotency_digest" str_codec $
     field "task_id" str_codec $ field "parent_task_id" str_codec $ field "activity" str_codec $
     field "policy_digest" str_codec $ field "provider_route" str_codec $ field "deadline" str_codec $
     field "task_limits" vector_codec $ field "claim" vector_codec $ field "actual" vector_codec $
     field "outcome" str_codec $ field "status" str_codec $ field "created_at" str_codec $
     field "settled_at" str_codec $ no_fields)
  (fun '(mkReservationWire a b c d e f g h i j k l m n o p q r) =>
     (a, (b, (c, (d, (e, (f, (g, (h, (i, (j, (k, (l, (m, (n, (o, (p, (q, (r, tt)))))))))))))))))))
  (fun '(a, (b, (c, (d, (e, (f, (g, (h, (i, (j, (k, (l, (m, (n, (o, (p, (q, (r, _)))))))))))))))))) =>
     mkReservationWire a b c d e f g h i j k l m n o p q r)
  ltac:(by intros [])
  ltac:(by intros (? & ? & ? & ? & ? & ? & ? & ? & ? & ? & ? & ? & ? & ? & ? & ? & ? & ? & [])).

Definition ledger_codec : codec ledgerWire := struct_codec
  (field "schema_version" str_codec $ field "contract_version" str_codec $ field "run_id" str_codec $
     field "case" caseWire $ field "plan_digest" str_codec $ field "policy_digest" str_codec $
     field "provider_route" str_codec $ field "limits" vector_codec $ field "charged" vector_codec $
     field "active_concurrency" (uint_codec 32) $ field "reservations" (slice_codec reservation_codec) $
     field "reason_code" str_codec $ field "previous_provenance_digest" str_codec $
     field "provenance_digest" str_codec $ field "created_at" str_codec $ field "expires_at" str_codec $
     field "updated_at" str_codec $ field "revision" (uint_codec 64) $ no_fields)
  (fun '(mkLedgerWire a b c d e f g h i j k l m n o p q r) =>
     (a, (b, (c, (d, (e, (f, (g, (h, (i, (j, (k, (l, (m, (n, (o, (p, (q, (r, tt)))))))))))))))))))
  (fun '(a, (b, (c, (d, (e, (f, (g, (h, (i, (j, (k, (l, (m, (n, (o, (p, (q, (r, _)))))))))))))))))) =>
     mkLedgerWire a b c d e f g h i j k l m n o p q r)
  ltac:(by intros [])
  ltac:(by intros (? & ? & ? & ? & ? & ? & ? & ? & ? & ? & ? & ? & ? & ? & ? & ? & ? & ? & [])).

(** ** To the wire *)

Definition plan_wire (value : Plan) : planWire :=
  mkPlanWire (p_SchemaVersion value) (p_ContractVersion value) (p_RunID value) (p_Case value)
    (p_PolicyDigest value) (p_ProviderRoute value) (p_Limits value) (formatTime (p_CreatedAt value))
    (formatTime (p_ExpiresAt value)).

Definition reservation_wire (record : ReservationRecord) : reservationWire :=
  let settled := if is_zero (r_SettledAt record) then "" else formatTime (r_SettledAt record) in
  mkReservationWire (r_ReservationDigest record) (r_ClaimDigest record) (r_SettlementDigest record)
    (r_SettlementIdempotencyDigest record) (r_IdempotencyDigest record) (r_TaskID record)
    (r_ParentTaskID record) (r_Activity record) (r_PolicyDigest record) (r_ProviderRoute record)
    (formatTime (r_Deadline record)) (r_TaskLimits record) (r_Claim record) (r_Actual record)
    (r_Outcome record) (r_Status record) (formatTime (r_CreatedAt record)) settled.

Definition ledger_wire (value : Ledger) : ledgerWire :=
  mkLedgerWire (l_SchemaVersion value) (l_ContractVersion value) (l_RunID value) (l_Case value)
    (l_PlanDigest value) (l_PolicyDigest value) (l_ProviderRoute value) (l_Limits value) (l_Charged value)
    (l_ActiveConcurrency value) (Some (map reservation_wire (l_Reservations value))) (l_ReasonCode value)
    (l_PreviousProvenanceDigest value) (l_ProvenanceDigest value) (formatTime (l_CreatedAt value))
    (formatTime (l_ExpiresAt value)) (formatTime (l_UpdatedAt value)) (l_Revision value).

Lemma plan_encoded p : encode (c_type plan_codec) (c_to plan_codec (plan_wire p)) = planToWire p.
Proof. destruct p as [? ? ? [] ? ? [] ? ?]. reflexivity. Qed.

Lemma reservation_encoded r :
  encode (c_type reservation_codec) (c_to reservation_codec (reservation_wire r)) = reservationToWire r.
Proof. destruct r as [? ? ? ? ? ? ? ? ? ? ? [] [] [] ? ? ? ?]. reflexivity. Qed.

Lemma ledger_encoded l : encode (c_type ledger_codec) (c_to ledger_codec (ledger_wire l)) = ledgerToWire l.
Proof.
  unfold ledgerToWire.
  rewrite <- (map_ext _ _ reservation_encoded).
  destruct l as [? ? ? [] ? ? ? [] [] ? records ? ? ? ? ? ? ?]. cbn -[c_type c_to].
  cbn. rewrite !map_map. reflexivity.
Qed.

Definition CanonicalPlan (value : Plan) : result Error string :=
  validatePlan value ;; canonicalValue (planToWire value).

Definition CanonicalLedger (value : Ledger) : result Error string :=
  validateLedger value ;; canonicalValue (ledgerToWire value).

(** ** From the wire *)

Definition parseWireTime (value : string) (optional : bool) : result Error Time :=
  if String.eqb value "" && optional then Ok zero_time else
  match parse_timestamp value with
  | Some parsed =>
      deny_if (negb (String.eqb (formatTime parsed) value)) (newError Denied "budget_timestamp_invalid" false) ;;
      Ok (to_utc parsed)
  | None => Err (newError Denied "budget_timestamp_invalid" false)
  end.

(** [requiredFieldsPresent], by reflection on the target type *)
Fixpoint requiredFieldsPresent (value : json) (target : gtype) {struct target} : bool :=
  match target with
  | TPtr t => requiredFieldsPresent value t
  | TStruct fs =>
      match value with
      | JObj object =>
          (fix go (fs : list (string * bool * gtype)) : bool :=
            match fs with
            | [] => true
            | (name, _, t) :: fs' =>
                match find (fun kv => String.eqb (fst kv) name) object with
                | Some kv => if requiredFieldsPresent (snd kv) t then go fs' else false
                | None => false
                end
            end) fs
      | _ => false
      end
  | TSlice t =>
      match value with
      | JArr array => forallb (fun child => requiredFieldsPresent child t) array
      | _ => false
      end
  | _ => true
  end.

(** What the second pass reads is what [DecodeUnique] read: one value and the end. *)
Definition decodeExact {T} (c : codec T) (input : string) : result Error T :=
  deny_if ((len input =? 0) || (maximumRecordBytes <? len input))
    (newError Denied "budget_record_size_invalid" false) ;;
  decoded ← or_err (DecodeUnique input) (newError Denied "budget_record_duplicate_or_malformed" false);
  deny_if (negb (requiredFieldsPresent decoded (c_type c)))
    (newError Denied "budget_record_required_field_missing" false) ;;
  match v ← decode decoded (c_type c) (zero_val (c_type c)); c_of c v with
  | Some wire => Ok wire
  | None => Err (newError Denied "budget_record_malformed" false)
  end.

Definition DecodePlan (input : string) : result Error Plan :=
  wire ← decodeExact plan_codec input;
  created ← parseWireTime (pw_CreatedAt wire) false;
  expires ← parseWireTime (pw_ExpiresAt wire) false;
  let value := mkPlan (pw_SchemaVersion wire) (pw_ContractVersion wire) (pw_RunID wire) (pw_Case wire)
    (pw_PolicyDigest wire) (pw_ProviderRoute wire) (pw_Limits wire) created expires in
  validatePlan value ;; Ok value.

Definition reservationFromWire (record : reservationWire) : result Error ReservationRecord :=
  deadline ← parseWireTime (rw_Deadline record) false;
  createdAt ← parseWireTime (rw_CreatedAt record) false;
  settledAt ← parseWireTime (rw_SettledAt record) true;
  Ok (mkReservationRecord (rw_ReservationDigest record) (rw_ClaimDigest record) (rw_SettlementDigest record)
    (rw_SettlementIdempotencyDigest record) (rw_IdempotencyDigest record) (rw_TaskID record)
    (rw_ParentTaskID record) (rw_Activity record) (rw_PolicyDigest record) (rw_ProviderRoute record) deadline
    (rw_TaskLimits record) (rw_Claim record) (rw_Actual record) (rw_Outcome record) (rw_Status record)
    createdAt settledAt).

Fixpoint reservationsFromWire (records : list reservationWire) : result Error (list ReservationRecord) :=
  match records with
  | [] => Ok []
  | record :: records' =>
      value ← reservationFromWire record; values ← reservationsFromWire records'; Ok (value :: values)
  end.

Definition ledgerFromWire (wire : ledgerWire) : result Error Ledger :=
  created ← parseWireTime (lw_CreatedAt wire) false;
  expires ← parseWireTime (lw_ExpiresAt wire) false;
  updated ← parseWireTime (lw_UpdatedAt wire) false;
  reservations ← reservationsFromWire (items (lw_Reservations wire));
  Ok (mkLedger (lw_SchemaVersion wire) (lw_ContractVersion wire) (lw_RunID wire) (lw_Case wire)
    (lw_PlanDigest wire) (lw_PolicyDigest wire) (lw_ProviderRoute wire) (lw_Limits wire) (lw_Charged wire)
    (lw_ActiveConcurrency wire) reservations (lw_ReasonCode wire) (lw_PreviousProvenanceDigest wire)
    (lw_ProvenanceDigest wire) created expires updated (lw_Revision wire)).

Definition DecodeLedger (input : string) : result Error Ledger :=
  wire ← decodeExact ledger_codec input;
  value ← ledgerFromWire wire;
  validateLedger value ;; Ok value.
