(* ===== verification/RunBudgetCodec.v ===== *)
(** * Run budgets: the round trip of wire.go, and how many reservations fit

    Canonical bytes decode to the value they were made of, and whatever decodes is sound.
    [validateLedger] admits [MaximumRecords] records, but the provenance digest it recomputes
    is taken over canonical text, which [Canonicalize] bounds to 1 MiB: the bound on the text
    is reached first. *)

From S2P Require Import Prelude GoStrings GoRegexp GoTime GoJson DomainContract Sha256 Domain GoStruct GoCodec RunBudget RunBudgetFacts RunBudgetExample RunBudgetController RunBudgetBinding RunBudgetWire.

Local Open Scope string_scope.
Local Open Scope Z_scope.

(** ** Required fields *)

(** No slice and no pointer of the value is nil. *)
Fixpoint full_val (t : gtype) (v : gval) {struct t} : bool :=
  match t, v with
  | TSlice t', VSlice (Some l) => forallb (full_val t') l
  | TSlice _, _ => false
  | TPtr t', VPtr (Some v') => full_val t' v'
  | TPtr _, _ => false
  | TStruct fs, VStruct vs =>
      (fix go (fs : list (string * bool * gtype)) (vs : list gval) : bool :=
        match fs, vs with
        | (_, _, t') :: fs', v' :: vs' => full_val t' v' && go fs' vs'
        | _, _ => true
        end) fs vs
  | _, _ => true
  end.

Lemma find_member (ms : list (string * json)) name j : NoDup (map fst ms) -> (name, j) ∈ ms ->
  find (fun kv => String.eqb (fst kv) name) ms = Some (name, j).
Proof.
  induction ms as [|[k x] ms IH]; cbn; intros Hnd Hin; [by apply not_elem_of_nil in Hin|].
  apply NoDup_cons in Hnd as [Hk Hnd]. apply elem_of_cons in Hin as [[= -> ->]|Hin].
  - by rewrite String.eqb_refl.
  - destruct (String.eqb_spec k name) as [->|Hne]; [|by apply IH].
    destruct Hk. apply (list_elem_of_fmap_2 fst) in Hin. done.
Qed.

Definition presents (t : gtype) : Prop := forall sorted v, plain_type t -> val_ok t v = true -> full_val t v = true ->
  requiredFieldsPresent (arrange sorted (encode t v)) t = true.

Lemma encode_fields_all fs vs i f v : plain_type (TStruct fs) -> fs !! i = Some f -> vs !! i = Some v ->
  (field_name f, encode (snd f) v) ∈ encode_fields fs vs.
Proof.
  intros Hp. assert (Hom : forall i f, fs !! i = Some f -> snd (fst f) = false)
    by (intros j g Hg; by apply (plain_field fs j g)).
  clear Hp. revert vs i. induction fs as [|[[name om] t] fs IH]; intros [|w vs] i; try done.
  pose proof (Hom 0%nat _ eq_refl) as H0. cbn in H0. subst om. intros Hf Hv. cbn [encode_fields andb].
  destruct i as [|i]; cbn in Hf, Hv.
  - injection Hf as <-. injection Hv as ->. by left.
  - right. eapply IH; [|done|done]. intros j g Hg. by apply (Hom (S j)).
Qed.

Lemma presents_fields fs vs ms sorted : plain_type (TStruct fs) -> Forall (fun f => presents (snd f)) fs ->
  fields_ok fs vs = true -> full_val (TStruct fs) (VStruct vs) = true -> NoDup (map fst ms) ->
  (forall i f v, fs !! i = Some f -> vs !! i = Some v ->
     (field_name f, arrange sorted (encode (snd f) v)) ∈ ms) ->
  requiredFieldsPresent (JObj ms) (TStruct fs) = true.
Proof.
  intros Hp Hall Hok Hfull Hnd Hin. cbn [requiredFieldsPresent].
  assert (Hplain : forall i f, fs !! i = Some f -> plain_type (snd f)) by (intros j g Hg; by apply (plain_field fs j g)).
  clear Hp. revert vs Hok Hfull Hin. induction Hall as [|[[name om] t] fs Ht Hall IH]; intros [|v vs] Hok Hfull Hin; try done.
  cbn [fields_ok] in Hok. cbn in Hfull. bool_split.
  rewrite (find_member ms name (arrange sorted (encode t v)) Hnd (Hin 0%nat (name, om, t) v eq_refl eq_refl)).
  cbn [snd]. cbn in Ht. rewrite (Ht sorted v (Hplain 0%nat _ eq_refl)) by done. apply (IH (fun i f => Hplain (S i) f) vs); try done.
  intros i f w Hf Hw. by apply (Hin (S i) f w).
Qed.

Lemma present_encode t : presents t.
Proof.
  induction t as [| |bits|bits|t IH|t IH|fs IH] using gtype_nested_ind; intros sorted v Hp Hok Hfull; try done.
  - destruct v as [| | |[l|]| | |]; try done. cbn [encode]. rewrite arrange_arr. cbn in *.
    rewrite forallb_forall in *. intros x Hx. rewrite map_map in Hx. apply in_map_iff in Hx as (y & <- & Hy).
    apply IH; [by destruct Hp|by apply Hok|by apply Hfull].
  - destruct v as [| | | |[v|]| |]; try done. apply IH; [by apply plain_ptr|done|done].
  - destruct v as [| | | | |vs|]; try done. rewrite encode_struct.
    destruct (arrange_members sorted (encode_fields fs vs)) as (ms & -> & Hperm). rewrite val_ok_struct in Hok.
    assert (Hkeys : map fst ms ≡ₚ map fst (encode_fields fs vs)).
    { rewrite (fmap_Permutation fst _ _ Hperm). by rewrite <- list_fmap_compose. }
    apply (presents_fields fs vs ms sorted); try done.
    + rewrite Hkeys. eapply sublist_NoDup; [by apply type_ok_nodup, Hp|apply encode_fields_names].
    + intros i f v Hf Hv. rewrite Hperm.
      apply (list_elem_of_fmap_2 (fun kv => (fst kv, arrange sorted (snd kv))) (encode_fields fs vs)
        (field_name f, encode (snd f) v)). by eapply encode_fields_all.
Qed.

(** ** Canonical bytes decode exactly *)

Lemma decodeExact_canonical {T} (c : codec T) x bytes : plain_type (c_type c) -> (type_depth (c_type c) <= 64)%nat ->
  typed c x -> full_val (c_type c) (c_to c x) = true ->
  canonicalValue (encode (c_type c) (c_to c x)) = Ok bytes -> decodeExact c bytes = Ok x.
Proof.
  intros Hp Hdepth Hty Hfull Hcan. apply or_err_ok in Hcan.
  destruct (canonical_reads c x bytes Hp Hdepth Hty Hcan) as (Hlen & Hunique & Hdec).
  unfold decodeExact. rewrite seq_ok, deny_if_ok. split.
  { apply orb_false_iff. rewrite Z.eqb_neq, Z.ltb_ge. unfold MaxInputBytes, maximumRecordBytes in *. lia. }
  rewrite Hunique. cbn [or_err mbind result_bind]. rewrite seq_ok, deny_if_ok. split.
  { apply negb_false_iff. by apply (present_encode (c_type c) true). }
  rewrite Hdec. cbn [mbind option_bind]. by rewrite c_of_to.
Qed.

Lemma decodeExact_typed {T} (c : codec T) input x : plain_type (c_type c) -> decodeExact c input = Ok x -> typed c x.
Proof.
  intros Hp H. unfold decodeExact in H. apply seq_ok in H as [_ H]. apply bind_ok in H as (j & Hj & H).
  apply or_err_ok in Hj. apply seq_ok in H as [_ H].
  destruct (decode j (c_type c) (zero_val (c_type c))) as [v|] eqn:Hv; [|done]. cbn [mbind option_bind] in H.
  destruct (c_of c v) as [y|] eqn:Hy; [|done]. injection H as <-.
  apply (decode_val_ok j 64) in Hv; [|by eapply DecodeUnique_shape|done|by apply val_ok_zero].
  destruct (c_total c v Hv) as (z & Hz & <-). unfold typed. by replace y with z by congruence.
Qed.

(** ** Times *)

(** A time that its text gives back *)
Definition wire_time (t : Time) : Prop := parseWireTime (formatTime t) false = Ok t.

Lemma wire_time_utc t : four_digit_year t = true -> is_utc t = true -> wire_time t.
Proof.
  intros Hy Hutc. unfold wire_time, parseWireTime. rewrite andb_false_r. unfold formatTime.
  rewrite parse_format_timestamp by done. cbn [to_utc nanos is_utc]. rewrite String.eqb_refl. cbn.
  destruct t as [n []]; done.
Qed.

Lemma parseWireTime_false value t : parseWireTime value false = Ok t -> formatTime t = value /\ wire_time t.
Proof.
  intros H. pose proof H as H0. unfold parseWireTime in H. rewrite andb_false_r in H.
  destruct (parse_timestamp value) as [p|]; [|done]. apply seq_ok in H as [Heq [= <-]].
  apply deny_if_ok, negb_false_iff, String.eqb_eq in Heq.
  assert (Hf : formatTime (to_utc p) = value) by (by rewrite <- Heq). split; [done|].
  unfold wire_time. by rewrite Hf.
Qed.

Definition settled_text (t : Time) : string := if is_zero t then "" else formatTime t.

(** A settlement time that its text gives back *)
Definition wire_settled (t : Time) : Prop := parseWireTime (settled_text t) true = Ok t.

Lemma parseWireTime_true value t : parseWireTime value true = Ok t -> value = settled_text t -> wire_settled t.
Proof. by intros H ->. Qed.

Lemma parseWireTime_settled value t : parseWireTime value true = Ok t -> wire_settled t.
Proof.
  intros H. destruct (String.eqb_spec value "") as [->|Hne].
  { injection H as <-. done. }
  unfold parseWireTime in H. apply String.eqb_neq in Hne. rewrite Hne in H. cbn [andb] in H.
  assert (Hf : parseWireTime value false = Ok t) by (unfold parseWireTime; by rewrite andb_false_r).
  apply parseWireTime_false in Hf as [Heq Hwire]. unfold wire_settled, settled_text.
  destruct (is_zero t) eqn:Hz.
  - destruct (parse_timestamp value) as [p|]; [|done]. apply seq_ok in H as [_ [= <-]]. cbn in *.
    unfold is_zero in Hz. cbn in Hz. apply Z.eqb_eq in Hz. destruct p. cbn in *. by subst.
  - unfold parseWireTime. rewrite Heq, Hne. exact H.
Qed.

(** ** Ledgers *)

Record record_storable (r : ReservationRecord) : Prop := {
  rs_deadline : wire_time (r_Deadline r);
  rs_created : wire_time (r_CreatedAt r);
  rs_settled : wire_settled (r_SettledAt r);
  rs_typed : vector_typed (r_TaskLimits r) /\ vector_typed (r_Claim r) /\ vector_typed (r_Actual r) }.

(** The integers of the ledger fit their fields, and its times survive their text. *)
Record storable (l : Ledger) : Prop := {
  st_created : wire_time (l_CreatedAt l);
  st_expires : wire_time (l_ExpiresAt l);
  st_updated : wire_time (l_UpdatedAt l);
  st_typed : ledger_typed l;
  st_records : Forall record_storable (l_Reservations l) }.

Lemma reservation_back r : record_storable r -> reservationFromWire (reservation_wire r) = Ok r.
Proof.
  intros [Hd Hc Hs _]. unfold reservationFromWire. cbn [reservation_wire rw_Deadline rw_CreatedAt rw_SettledAt].
  rewrite Hd, Hc. cbn [mbind result_bind]. fold (settled_text (r_SettledAt r)). rewrite Hs. by destruct r.
Qed.

Lemma reservations_back l : Forall record_storable l -> reservationsFromWire (map reservation_wire l) = Ok l.
Proof.
  induction 1 as [|r l Hr Hl IH]; [done|]. cbn [map reservationsFromWire]. rewrite (reservation_back r Hr).
  cbn [mbind result_bind]. by rewrite IH.
Qed.

Lemma ledger_back l : storable l -> ledgerFromWire (ledger_wire l) = Ok l.
Proof.
  intros [Hc He Hu _ Hr]. unfold ledgerFromWire.
  cbn [ledger_wire lw_CreatedAt lw_ExpiresAt lw_UpdatedAt lw_Reservations].
  rewrite Hc, He, Hu. cbn [mbind result_bind].
  change (items (Some (map reservation_wire (l_Reservations l)))) with (map reservation_wire (l_Reservations l)).
  rewrite (reservations_back _ Hr). by destruct l.
Qed.

Lemma typed_vector v : typed vector_codec v <-> vector_typed v.
Proof.
  unfold vector_codec. rewrite typed_struct, !fields_typed_cons, !typed_uint, fields_typed_nil.
  destruct v. cbn [fst snd]. unfold vector_typed, is_u64, is_u32. cbn. tauto.
Qed.

Lemma typed_case c : validCase c = true -> typed caseWire c.
Proof.
  unfold validCase, caseWire. intros H. bool_split.
  rewrite typed_struct, !fields_typed_cons, !typed_str, fields_typed_nil. destruct c. cbn in *.
  split_and!; eauto with coh.
Qed.

Lemma settled_valid t : valid_string (settled_text t) = true.
Proof. unfold settled_text. destruct (is_zero t); [done|apply formatTime_valid]. Qed.

Lemma typed_reservation ledger r : digestPattern (l_PolicyDigest ledger) = true ->
  tokenPattern (l_ProviderRoute ledger) = true -> validateReservationRecord ledger r = Ok tt ->
  record_storable r -> typed reservation_codec (reservation_wire r).
Proof.
  intros Hp Hr H [_ _ _ (Ht & Hc & Ha)]. pose proof (record_valid_strings _ _ Hp Hr H)
    as (? & ? & ? & ? & ? & ? & ? & ? & ? & ? & ? & ?). clear Hp Hr H.
  pose proof (settled_valid (r_SettledAt r)) as Hs. unfold settled_text in Hs.
  pose proof (formatTime_valid (r_Deadline r)). pose proof (formatTime_valid (r_CreatedAt r)).
  apply typed_vector in Ht, Hc, Ha. destruct r. typed_fields; assumption.
Qed.

Lemma typed_ledger l : ledger_sound l -> storable l -> typed ledger_codec (ledger_wire l).
Proof.
  intros Hs [_ _ _ (Hlim & Hch & Hact & Hrev & _) Hrecs].
  pose proof (ls_fields _ Hs) as (H1 & H2 & H3 & H4 & H5 & H6 & H7 & _ & _ & H10 & H11 & H12 & _).
  assert (Hrec : Forall (typed reservation_codec) (map reservation_wire (l_Reservations l))).
  { apply List.Forall_map. rewrite List.Forall_forall. intros r Hr%list_elem_of_In.
    eapply typed_reservation; [done|done| |].
    - exact (proj1 (Forall_forall _ _) (ls_records _ Hs) r Hr).
    - exact (proj1 (Forall_forall _ _) Hrecs r Hr). }
  apply typed_case in H4. apply uuid_ascii in H3. apply digest_ascii in H5, H6. apply token_ascii in H7, H10.
  apply digest_ascii in H11. apply or_digest_valid in H12.
  apply typed_vector in Hlim, Hch. apply (typed_uint 32) in Hact. apply (typed_uint 64) in Hrev.
  pose proof (formatTime_valid (l_CreatedAt l)). pose proof (formatTime_valid (l_ExpiresAt l)).
  pose proof (formatTime_valid (l_UpdatedAt l)).
  apply typed_slice in Hrec.
  destruct l. typed_fields; try assumption; cbn in H1, H2; subst; reflexivity.
Qed.

Lemma full_reservation r : full_val (c_type reservation_codec) (c_to reservation_codec (reservation_wire r)) = true.
Proof. destruct r as [? ? ? ? ? ? ? ? ? ? ? [] [] [] ? ? ? ?]. reflexivity. Qed.

Lemma full_ledger l : full_val (c_type ledger_codec) (c_to ledger_codec (ledger_wire l)) = true.
Proof.
  assert (Hrec : forallb (full_val (c_type reservation_codec))
    (map (c_to reservation_codec) (map reservation_wire (l_Reservations l))) = true).
  { apply forallb_forall. intros v Hv. rewrite map_map in Hv. apply in_map_iff in Hv as (r & <- & _).
    apply full_reservation. }
  destruct l as [? ? ? [] ? ? ? [] [] ? records ? ? ? ? ? ? ?]. cbn -[c_type c_to reservation_codec] in Hrec |- *.
  cbn [c_type c_to ledger_codec struct_codec]. cbn. cbn in Hrec. by rewrite Hrec.
Qed.

Lemma ledger_codec_plain : plain_type (c_type ledger_codec).
Proof. split; vm_compute; reflexivity. Qed.

Lemma ledger_codec_depth : (type_depth (c_type ledger_codec) <= 64)%nat.
Proof. vm_compute. lia. Qed.

(** C38. Ledgers round trip: the canonical bytes of a ledger whose integers fit and whose times
    the layout can print decode, under the exact decoder and its checks, to the same ledger. *)
Theorem ledger_round_trip l bytes (Hst : storable l) (H : CanonicalLedger l = Ok bytes) :
  DecodeLedger bytes = Ok l.
Proof.
  unfold CanonicalLedger in H. apply seq_ok in H as [Hval Hcan].
  pose proof (proj1 (validateLedger_iff l (st_typed _ Hst)) Hval) as Hs.
  unfold DecodeLedger. rewrite (decodeExact_canonical ledger_codec (ledger_wire l) bytes ledger_codec_plain
    ledger_codec_depth (typed_ledger l Hs Hst) (full_ledger l)) by (by rewrite ledger_encoded).
  cbn [mbind result_bind]. rewrite (ledger_back l Hst). cbn [mbind result_bind]. by rewrite Hval.
Qed.

Lemma reservations_typed w : Forall (typed reservation_codec) w -> forall l, reservationsFromWire w = Ok l ->
  Forall record_storable l.
Proof.
  induction 1 as [|x w Hx Hw IH]; cbn; intros l H; [by injection H as <-|].
  apply bind_ok in H as (r & Hr & H). apply bind_ok in H as (rs & Hrs & [= <-]).
  constructor; [|by apply IH]. unfold reservationFromWire in Hr.
  apply bind_ok in Hr as (d & Hd & Hr). apply bind_ok in Hr as (c & Hc & Hr). apply bind_ok in Hr as (s & Hsd & [= <-]).
  apply parseWireTime_false in Hd as [_ Hd], Hc as [_ Hc]. apply parseWireTime_settled in Hsd.
  split; [done..|]. cbn. rewrite <- !typed_vector.
  destruct x. unfold reservation_codec in Hx. apply typed_struct in Hx.
  repeat (apply fields_typed_cons in Hx as [? Hx]; cbn [fst snd] in * ). done.
Qed.

(** C39. Whatever [DecodeLedger] accepts is a sound ledger: its charge is the sum of its claims
    within the limits, its records are ordered, bound to its plan and hierarchical, its integers
    fit and its times survive their text, so it can be written back. *)
Theorem decoded_ledger_is_sound input l (H : DecodeLedger input = Ok l) : ledger_sound l /\ storable l.
Proof.
  unfold DecodeLedger in H. apply bind_ok in H as (w & Hw & H). apply bind_ok in H as (v & Hv & H).
  apply seq_ok in H as [Hval [= ->]].
  apply (decodeExact_typed ledger_codec _ _ ledger_codec_plain) in Hw.
  unfold ledgerFromWire in Hv. apply bind_ok in Hv as (c & Hc & Hv). apply bind_ok in Hv as (e & He & Hv).
  apply bind_ok in Hv as (u & Hu & Hv). apply bind_ok in Hv as (rs & Hrs & [= Hl]).
  apply parseWireTime_false in Hc as [_ Hc], He as [_ He], Hu as [_ Hu].
  destruct w. unfold ledger_codec in Hw. apply typed_struct in Hw.
  repeat (apply fields_typed_cons in Hw as [? Hw]; cbn [fst snd] in * ).
  assert (Hrecs : Forall record_storable rs).
  { eapply reservations_typed; [|exact Hrs]. cbn. destruct lw_Reservations as [rw|]; [|constructor].
    by apply typed_slice. }
  assert (Hst : storable l).
  { rewrite <- Hl. split; try done. cbn. unfold ledger_typed, records_typed. cbn.
    split_and!; try (by apply typed_vector); try (by apply (typed_uint 32)); try (by apply (typed_uint 64)).
    eapply Forall_impl; [exact Hrecs|]. by intros r [_ _ _ (_ & ? & _)]. }
  split; [|done]. by apply validateLedger_iff; [apply Hst|].
Qed.

(** ** A worked example *)

Definition ex_ledger_bytes : string :=
  match CanonicalLedger ex_ledger1 with Ok bytes => bytes | Err _ => "" end.

Lemma ex_ledger_canonical : CanonicalLedger ex_ledger1 = Ok ex_ledger_bytes.
Proof. vm_compute. reflexivity. Qed.

Lemma ex_ledger_storable : storable ex_ledger1.
Proof.
  split; [vm_compute; reflexivity..|exact ex_ledger1_typed|].
  constructor; [|constructor]. split; [vm_compute; reflexivity..|].
  split_and!; vm_compute; repeat split; discriminate.
Qed.

Lemma ledger_round_trip_witness : DecodeLedger ex_ledger_bytes = Ok ex_ledger1.
Proof. exact (ledger_round_trip ex_ledger1 ex_ledger_bytes ex_ledger_storable ex_ledger_canonical). Defined.

Lemma ex_ledger_decodes : DecodeLedger ex_ledger_bytes = Ok ex_ledger1.
Proof. vm_compute. reflexivity. Qed.

Lemma decoded_ledger_is_sound_witness : ledger_sound ex_ledger1.
Proof. exact (proj1 (decoded_ledger_is_sound ex_ledger_bytes ex_ledger1 ex_ledger_decodes)). Defined.

(** ** How many reservations a ledger can hold *)

(** ** Printed text is at least as long as what it prints *)

Lemma quote_chunk_lower html ch : chunk_ok ch = true ->
  (forall r, fst ch = Some r -> (r < 128 /\ snd ch = String (byte_of r) "" /\ 0 <= r) \/
     (128 <= r /\ str_forallb (byte_in 128 255) (snd ch) = true /\
      (r = 8232 \/ r = 8233 -> snd ch = encode_rune r))) ->
  (String.length (snd ch) <= String.length (quote_chunk html ch))%nat.
Proof.
  intros Hok Hshape. unfold chunk_ok in Hok. unfold quote_chunk. destruct (fst ch) as [r|]; [|done].
  destruct (Hshape r eq_refl) as [(Hr & -> & _)|(Hr & _ & Hsep)].
  - destruct (Z.ltb_spec r 128); [|lia]. unfold quote_ascii. repeat case_match; cbn; lia.
  - destruct (Z.ltb_spec r 128); [lia|]. destruct ((r =? 8232) || (r =? 8233)) eqn:Hs; [|done].
    assert (Hr' : r = 8232 \/ r = 8233) by (apply orb_true_iff in Hs as [?%Z.eqb_eq|?%Z.eqb_eq]; auto).
    rewrite (Hsep Hr'). by destruct Hr' as [-> | ->]; vm_compute; lia.
Qed.

Lemma quote_lower html s : valid_string s = true -> (String.length s + 2 <= String.length (quote html s))%nat.
Proof.
  intros Hv. unfold quote. cbn [String.length]. rewrite length_append. cbn [String.length].
  assert (String.length s <= String.length (quote_body html s))%nat; [|lia].
  unfold quote_body. revert Hv. induction s as [|s ch rest Hch Heq IH] using chunk_ind; [cbn; lia|].
  unfold valid_string. rewrite utf8_chunks_unfold, Hch. cbn [forallb foldr]. intros [Hok Hrest]%andb_true_iff.
  rewrite Heq at 1. rewrite !length_append. specialize (IH Hrest).
  destruct (next_chunk_spec _ _ _ Hch) as (_ & _ & Hshape).
  pose proof (quote_chunk_lower html ch Hok (fun r Hr => proj2 (Hshape r Hr))). lia.
Qed.

(** A lower bound on printed text: names and strings with their quotes, a byte per number *)
Fixpoint printed_least (v : json) : nat :=
  match v with
  | JNull | JBool _ => 4%nat
  | JNum _ => 1%nat
  | JStr s => (String.length s + 2)%nat
  | JArr l => S ((fix go (l : list json) : nat :=
      match l with [] => 0%nat | x :: l' => (printed_least x + 1 + go l')%nat end) l)
  | JObj l => S ((fix go (l : list (string * json)) : nat :=
      match l with [] => 0%nat | kv :: l' => (String.length (fst kv) + 4 + printed_least (snd kv) + go l')%nat end) l)
  end.

Lemma printed_lower html v : forall n, json_wf n v = true -> (printed_least v <= String.length (marshal html v))%nat.
Proof.
  induction v as [|b|t|s|l IH|l IH] using json_nested_ind; intros n Hwf; cbn [printed_least marshal].
  - cbn. lia.
  - destruct b; cbn; lia.
  - cbn in Hwf. destruct t; [done|]. cbn. lia.
  - by apply quote_lower.
  - rewrite !length_append, length_join_comma. cbn [String.length].
    assert (Hm : exists m, forallb (json_wf m) l = true).
    { destruct n as [|n]; cbn in Hwf; [destruct l; [by exists 0%nat|done]|by exists n]. }
    destruct Hm as [m Hm]. clear n Hwf.
    match goal with |- context [?f l] => set (go := f) end.
    assert (Hgo : (go l <= total_length (map (marshal html) l))%nat).
    { induction IH as [|x l Hx Hl IHl]; [done|]. cbn in Hm. bool_split. specialize (Hx m ltac:(done)).
      specialize (IHl ltac:(done)). change (go (x :: l)) with (printed_least x + 1 + go l)%nat. cbn. lia. }
    lia.
  - rewrite !length_append, length_join_comma. cbn [String.length].
    assert (Hm : exists m, forallb (fun kv => valid_string (fst kv) && json_wf m (snd kv)) l = true).
    { destruct n as [|n]; cbn in Hwf; [destruct l; [by exists 0%nat|done]|exists n; by bool_split]. }
    destruct Hm as [m Hm]. clear n Hwf.
    match goal with |- context [?f l] => set (go := f) end.
    assert (Hgo : (go l <= total_length (map (fun kv => quote html (fst kv) ++ ":" ++ marshal html (snd kv)) l))%nat).
    { induction IH as [|kv l Hx Hl IHl]; [done|]. cbn in Hm. bool_split. specialize (Hx m ltac:(done)).
      specialize (IHl ltac:(done)). pose proof (quote_lower html (fst kv) ltac:(done)).
      change (go (kv :: l)) with (String.length (fst kv) + 4 + printed_least (snd kv) + go l)%nat.
      cbn [map total_length]. rewrite !length_append. cbn [String.length]. lia. }
    lia.
Qed.

(** ** The text of a reservation *)

Lemma reservation_printed ledger r : digestPattern (l_PolicyDigest ledger) = true ->
  validateReservationRecord ledger r = Ok tt -> (1089 <= printed_least (reservationToWire r))%nat.
Proof.
  intros Hpol H. unfold validateReservationRecord in H. apply seq_ok in H as [Hg _].
  apply deny_if_ok in Hg. bool_split. rewrite String.eqb_eq in *.
  assert (Hp : digestPattern (r_PolicyDigest r) = true) by congruence.
  assert (Hl : String.length (r_ReservationDigest r) = 71%nat /\ String.length (r_ClaimDigest r) = 71%nat /\
    String.length (r_IdempotencyDigest r) = 71%nat /\ String.length (r_PolicyDigest r) = 71%nat /\
    String.length (r_TaskID r) = 36%nat)
    by (split_and!; first [by apply digestPattern_length | by apply uuidPattern_length]).
  unfold reservationToWire, vector_json, json_uint. cbn [printed_least fst snd String.length]. lia.
Qed.

Lemma array_printed l : (1 + length l * 1090 <= printed_least (JArr (map reservationToWire l)))%nat \/
  Exists (fun r => (printed_least (reservationToWire r) < 1089)%nat) l.
Proof.
  cbn [printed_least]. match goal with |- context [?f (map _ l)] => set (go := f) end.
  induction l as [|r l IH]; [left; cbn; lia|]. change (go (map reservationToWire (r :: l))) with
    (printed_least (reservationToWire r) + 1 + go (map reservationToWire l))%nat.
  destruct (decide (printed_least (reservationToWire r) < 1089)%nat); [right; by left|].
  destruct IH as [IH|]; [left|right; by right]. cbn [length]. lia.
Qed.

(** C40. A valid ledger holds at most 961 reservations, far fewer than the [MaximumRecords] its
    own check and the contract allow: the canonical text behind its provenance digest must stay
    within 1 MiB, and every reservation takes more than a kilobyte of it. *)
Theorem valid_ledgers_stay_small l (Htyped : ledger_typed l) (H : validateLedger l = Ok tt) :
  (length (l_Reservations l) <= 961)%nat.
Proof.
  apply validateLedger_iff in H as Hs; [|done]. pose proof (ls_provenance _ Hs) as Hprov.
  unfold provenanceDigest in Hprov. apply bind_ok in Hprov as (canonical & Hcan & _).
  unfold canonicalValue in Hcan. apply or_err_ok in Hcan.
  pose proof (ledger_wf l "" Hs eq_refl) as Hwf. set (j := ledgerToWire (set_ProvenanceDigest l "")) in *.
  assert (Hlen : len (marshal true j) <= MaxInputBytes).
  { unfold Canonicalize in Hcan. apply bind_ok in Hcan as (v & Hv & _). unfold DecodeUnique in Hv.
    apply seq_ok in Hv as [Hv _]. apply deny_if_ok in Hv. bool_split. lia. }
  pose proof (printed_lower true j 64 Hwf) as Hlow.
  assert (Harr : (printed_least (JArr (map reservationToWire (l_Reservations l))) <= printed_least j)%nat).
  { subst j. unfold ledgerToWire. cbn [set_ProvenanceDigest l_Reservations].
    generalize (JArr (map reservationToWire (l_Reservations l))). intros a. cbn [printed_least fst snd]. lia. }
  destruct (array_printed (l_Reservations l)) as [Hbig|Hshort].
  - unfold len, MaxInputBytes in Hlen. lia.
  - exfalso. apply Exists_exists in Hshort as (r & Hr & Hlt).
    pose proof (proj1 (Forall_forall _ _) (ls_records _ Hs) r Hr) as Hrec.
    pose proof (ls_fields _ Hs) as (_ & _ & _ & _ & _ & Hpol & _).
    pose proof (reservation_printed l r Hpol Hrec). lia.
Qed.

Lemma valid_ledgers_stay_small_witness : (length (l_Reservations ex_ledger1) <= 961)%nat.
Proof. apply (valid_ledgers_stay_small ex_ledger1); [exact ex_ledger1_typed | exact ex_ledger1_valid]. Defined.
