(* ===== verification/ApprovalLifecycle.v ===== *)
(** * internal/domain/approvallifecycle: the approval state machine

    The records and events of [types.go], the validation of [validate.go] and the
    transition rules of [transition.go].  [Record] is a keyword here, so the Go type
    [Record] is [ApprovalRecord]; a [State] is a Go string and any string can be in the
    field.  Field prefixes: [a_] record, [g_] grant, [e_] event. *)

From S2P Require Import Prelude GoStrings GoRegexp GoTime GoJson DomainContract Sha256 Domain.

Local Open Scope string_scope.
Local Open Scope Z_scope.

(** ** errors.go *)

Inductive ErrorCode : Type :=
| InvalidInput | Denied | NotFound | Conflict | Canceled | Timeout | Unavailable.

#[export] Instance ErrorCode_eq_dec : EqDecision ErrorCode.
Proof. solve_decision. Defined.

Record Error : Type := NewError { Code : ErrorCode; Reason : string }.

(** ** types.go *)

Definition SchemaVersion : string := "coh.approval-lifecycle/v2".
Definition ContractVersion : string := "2.0.0".

Definition Requested : string := "requested".
Definition Granted : string := "granted".
Definition Rejected : string := "rejected".
Definition Expired : string := "expired".
Definition Consumed : string := "consumed".
Definition Revoked : string := "revoked".

Record Grant : Type := mkGrant {
  g_ActorID : string;
  g_ActorRevision : Z;
  g_PrincipalID : string;
  g_EnrollmentRevision : Z;
  g_GrantedAt : string }.

#[export] Instance Grant_eq_dec : EqDecision Grant.
Proof. solve_decision. Defined.

Record ApprovalRecord : Type := mkApproval {
  a_SchemaVersion : string;
  a_ContractVersion : string;
  a_ApprovalID : string;
  a_OrganizationID : string;
  a_TenantID : string;
  a_CaseID : string;
  a_FingerprintDigest : string;
  a_ManifestDigest : string;
  a_PolicyDecisionDigest : string;
  a_RequestorActorID : string;
  a_RequestorRevision : Z;
  a_RequestorPrincipalID : string;
  a_ActionOwnerActorID : string;
  a_ActionTier : string;
  a_State : string;
  a_Revision : Z;
  a_RequestedAt : string;
  a_ValidFrom : string;
  a_ValidUntil : string;
  a_RequiredGrantCount : Z;
  a_Grants : list Grant;
  a_MaximumUseCount : Z;
  a_UseCount : Z;
  a_ReasonCode : string;
  a_LastActorID : string;
  a_LastActorRevision : Z;
  a_LastOperationDigest : string;
  a_LastEventID : string;
  a_UpdatedAt : string }.

#[export] Instance ApprovalRecord_eq_dec : EqDecision ApprovalRecord.
Proof. solve_decision. Defined.

(** The Go types of the counters *)
Definition approval_typed (r : ApprovalRecord) : Prop :=
  is_u64 (a_RequestorRevision r) /\ is_u64 (a_Revision r) /\ is_u8 (a_RequiredGrantCount r) /\
  is_u32 (a_MaximumUseCount r) /\ is_u32 (a_UseCount r) /\ is_u64 (a_LastActorRevision r) /\
  Forall (fun g => is_u64 (g_ActorRevision g) /\ is_u64 (g_EnrollmentRevision g)) (a_Grants r).

Record Event : Type := mkEvent {
  e_SchemaVersion : string;
  e_ContractVersion : string;
  e_EventID : string;
  e_Operation : string;
  e_Outcome : string;
  e_ReasonCode : string;
  e_ApprovalID : string;
  e_OrganizationID : string;
  e_TenantID : string;
  e_CaseID : string;
  e_FingerprintDigest : string;
  e_ActorID : string;
  e_ActorRevision : Z;
  e_RecordRevision : Z;
  e_OccurredAt : string }.

(** ** validate.go *)

(** [time.Parse(timestampLayout, value)] *)
Definition parseTimestamp (value : string) : option Time := parse_timestamp value.

Definition validActionTier (value : string) : bool :=
  String.eqb value "T0" || String.eqb value "T1" || String.eqb value "T2" ||
  String.eqb value "T3" || String.eqb value "T4".

Definition validState (state : string) : bool :=
  String.eqb state Requested || String.eqb state Granted || String.eqb state Rejected ||
  String.eqb state Expired || String.eqb state Consumed || String.eqb state Revoked.

Definition grant_count (r : ApprovalRecord) : Z := Z.of_nat (length (a_Grants r)).

Definition validStateShape (record : ApprovalRecord) : bool :=
  let grantCount := grant_count record in
  if String.eqb (a_State record) Requested then
    (grantCount <? a_RequiredGrantCount record) && (a_UseCount record =? 0)
  else if String.eqb (a_State record) Granted then
    (grantCount =? a_RequiredGrantCount record) && (a_UseCount record <? a_MaximumUseCount record)
  else if String.eqb (a_State record) Consumed then
    (grantCount =? a_RequiredGrantCount record) && (a_UseCount record =? a_MaximumUseCount record)
  else if String.eqb (a_State record) Rejected || String.eqb (a_State record) Expired then
    a_UseCount record =? 0
  else if String.eqb (a_State record) Revoked then
    a_UseCount record <? a_MaximumUseCount record
  else false.

(** The loop of [duplicateGrant], with the two sets of what was seen *)
Fixpoint duplicate_from (actors principals : gset string) (grants : list Grant) : bool :=
  match grants with
  | [] => false
  | grant :: rest =>
      if bool_decide (g_ActorID grant ∈ actors) then true
      else if bool_decide (g_PrincipalID grant ∈ principals) then true
      else duplicate_from ({[g_ActorID grant]} ∪ actors) ({[g_PrincipalID grant]} ∪ principals) rest
  end.

Definition duplicateGrant (grants : list Grant) : bool := duplicate_from ∅ ∅ grants.

Definition validate_grant (record : ApprovalRecord) (requestedAt updatedAt : Time) (grant : Grant)
  : result Error unit :=
  deny_if
    (negb (uuidPattern (g_ActorID grant)) || negb (uuidPattern (g_PrincipalID grant)) ||
     (g_ActorRevision grant =? 0) || (g_EnrollmentRevision grant =? 0) ||
     match parseTimestamp (g_GrantedAt grant) with
     | Some grantedAt => before grantedAt requestedAt || after grantedAt updatedAt
     | None => true
     end)
    (NewError InvalidInput "invalid_grant") ;;
  deny_if
    (String.eqb (g_ActorID grant) (a_RequestorActorID record) ||
     String.eqb (g_PrincipalID grant) (a_RequestorPrincipalID record))
    (NewError Denied "self_approval").

Definition record_identities (record : ApprovalRecord) : list string :=
  [a_ApprovalID record; a_OrganizationID record; a_TenantID record; a_CaseID record;
   a_RequestorActorID record; a_RequestorPrincipalID record; a_ActionOwnerActorID record;
   a_LastActorID record; a_LastEventID record].

Definition record_digests (record : ApprovalRecord) : list string :=
  [a_FingerprintDigest record; a_ManifestDigest record; a_PolicyDecisionDigest record;
   a_LastOperationDigest record].

(** The four timestamps of a record, when they parse and are in order *)
Definition record_times (record : ApprovalRecord) : option (Time * Time) :=
  requestedAt ← parseTimestamp (a_RequestedAt record);
  validFrom ← parseTimestamp (a_ValidFrom record);
  validUntil ← parseTimestamp (a_ValidUntil record);
  updatedAt ← parseTimestamp (a_UpdatedAt record);
  if before validUntil validFrom || same_instant validUntil validFrom || after requestedAt updatedAt
  then None else Some (requestedAt, updatedAt).

Definition ValidateRecord (record : ApprovalRecord) : result Error unit :=
  deny_if (negb (String.eqb (a_SchemaVersion record) SchemaVersion) ||
           negb (String.eqb (a_ContractVersion record) ContractVersion))
    (NewError InvalidInput "unsupported_contract") ;;
  deny_if (negb (forallb uuidPattern (record_identities record))) (NewError InvalidInput "invalid_identity") ;;
  deny_if (negb (forallb digestPattern (record_digests record))) (NewError InvalidInput "invalid_digest") ;;
  match record_times record with
  | None => Err (NewError InvalidInput "invalid_time_window")
  | Some (requestedAt, updatedAt) =>
      deny_if
        ((a_Revision record =? 0) || (a_RequestorRevision record =? 0) || (a_LastActorRevision record =? 0) ||
         (a_RequiredGrantCount record =? 0) || (16 <? a_RequiredGrantCount record) ||
         (a_MaximumUseCount record =? 0) || (1000 <? a_MaximumUseCount record) ||
         (a_MaximumUseCount record <? a_UseCount record))
        (NewError InvalidInput "invalid_counter") ;;
      deny_if
        (negb (validActionTier (a_ActionTier record)) || (a_RequiredGrantCount record <? grant_count record) ||
         duplicateGrant (a_Grants record))
        (NewError InvalidInput "invalid_grants") ;;
      for_each (validate_grant record requestedAt updatedAt) (a_Grants record) ;;
      deny_if (negb (validState (a_State record)) || negb (validStateShape record))
        (NewError InvalidInput "invalid_state") ;;
      deny_if (negb (tokenPattern (a_ReasonCode record))) (NewError InvalidInput "invalid_reason_code")
  end.

Definition string_in (value : string) (l : list string) : bool := bool_decide (value ∈ l).

Definition ValidateEvent (event : Event) : result Error unit :=
  let invalid := NewError InvalidInput "invalid_event" in
  deny_if (negb (String.eqb (e_SchemaVersion event) SchemaVersion) ||
           negb (String.eqb (e_ContractVersion event) ContractVersion) ||
           negb (uuidPattern (e_EventID event))) invalid ;;
  deny_if (negb (string_in (e_Operation event) ["request"; "grant"; "reject"; "expire"; "consume"; "revoke"])) invalid ;;
  deny_if (negb (string_in (e_Outcome event)
    ["allowed"; "denied"; "invalid"; "canceled"; "timeout"; "unavailable"])) invalid ;;
  deny_if (negb (tokenPattern (e_ReasonCode event))) invalid ;;
  deny_if match parseTimestamp (e_OccurredAt event) with Some _ => false | None => true end invalid ;;
  deny_if (existsb (fun value => negb (String.eqb value "") && negb (uuidPattern value))
    [e_ApprovalID event; e_OrganizationID event; e_TenantID event; e_CaseID event; e_ActorID event]) invalid ;;
  deny_if (negb (String.eqb (e_FingerprintDigest event) "") && negb (digestPattern (e_FingerprintDigest event)) ||
           String.eqb (e_ActorID event) "" && negb (e_ActorRevision event =? 0)) invalid.

(** ** transition.go *)

Definition terminal (state : string) : bool :=
  String.eqb state Rejected || String.eqb state Expired || String.eqb state Consumed || String.eqb state Revoked.

Definition sameBinding (left right : ApprovalRecord) : bool :=
  String.eqb (a_SchemaVersion left) (a_SchemaVersion right) &&
  String.eqb (a_ContractVersion left) (a_ContractVersion right) &&
  String.eqb (a_ApprovalID left) (a_ApprovalID right) &&
  String.eqb (a_OrganizationID left) (a_OrganizationID right) &&
  String.eqb (a_TenantID left) (a_TenantID right) && String.eqb (a_CaseID left) (a_CaseID right) &&
  String.eqb (a_FingerprintDigest left) (a_FingerprintDigest right) &&
  String.eqb (a_ManifestDigest left) (a_ManifestDigest right) &&
  String.eqb (a_PolicyDecisionDigest left) (a_PolicyDecisionDigest right) &&
  String.eqb (a_RequestorActorID left) (a_RequestorActorID right) &&
  (a_RequestorRevision left =? a_RequestorRevision right) &&
  String.eqb (a_RequestorPrincipalID left) (a_RequestorPrincipalID right) &&
  String.eqb (a_ActionOwnerActorID left) (a_ActionOwnerActorID right) &&
  String.eqb (a_ActionTier left) (a_ActionTier right) &&
  String.eqb (a_RequestedAt left) (a_RequestedAt right) &&
  String.eqb (a_ValidFrom left) (a_ValidFrom right) && String.eqb (a_ValidUntil left) (a_ValidUntil right) &&
  (a_RequiredGrantCount left =? a_RequiredGrantCount right) &&
  (a_MaximumUseCount left =? a_MaximumUseCount right).

Fixpoint sameGrantPrefix (left right : list Grant) : bool :=
  match left, right with
  | [], _ => true
  | _ :: _, [] => false
  | g :: left', g' :: right' => bool_decide (g = g') && sameGrantPrefix left' right'
  end.

Definition validateRequestedTransition (previous next : ApprovalRecord) : result Error unit :=
  if String.eqb (a_State next) Requested || String.eqb (a_State next) Granted then
    deny_if (negb (grant_count next =? grant_count previous + 1) || negb (a_UseCount next =? 0))
      (NewError Denied "grant_transition_invalid") ;;
    let thresholdReached := grant_count next =? a_RequiredGrantCount next in
    deny_if (negb (Bool.eqb thresholdReached (String.eqb (a_State next) Granted)))
      (NewError Denied "grant_threshold_invalid")
  else if String.eqb (a_State next) Rejected || String.eqb (a_State next) Expired ||
          String.eqb (a_State next) Revoked then
    deny_if (negb (grant_count next =? grant_count previous) || negb (a_UseCount next =? 0))
      (NewError Denied "disposition_transition_invalid")
  else Err (NewError Denied "transition_denied").

Definition validateGrantedTransition (previous next : ApprovalRecord) : result Error unit :=
  if String.eqb (a_State next) Granted || String.eqb (a_State next) Consumed then
    deny_if (negb (grant_count next =? grant_count previous) ||
             negb (a_UseCount next =? u32 (a_UseCount previous + 1)))
      (NewError Denied "consume_transition_invalid") ;;
    let exhausted := a_UseCount next =? a_MaximumUseCount next in
    deny_if (negb (Bool.eqb exhausted (String.eqb (a_State next) Consumed)))
      (NewError Denied "consume_limit_invalid")
  else if String.eqb (a_State next) Expired || String.eqb (a_State next) Revoked then
    deny_if (negb (grant_count next =? grant_count previous) ||
             negb (a_UseCount next =? a_UseCount previous))
      (NewError Denied "disposition_transition_invalid")
  else Err (NewError Denied "transition_denied").

Definition ValidateTransition (previous next : ApprovalRecord) : result Error unit :=
  ValidateRecord previous ;;
  ValidateRecord next ;;
  deny_if (negb (a_Revision next =? u64 (a_Revision previous + 1))) (NewError Conflict "stale_revision") ;;
  deny_if (negb (sameBinding previous next)) (NewError Denied "approval_binding_changed") ;;
  let previousUpdated := default zero_time (parseTimestamp (a_UpdatedAt previous)) in
  let nextUpdated := default zero_time (parseTimestamp (a_UpdatedAt next)) in
  deny_if (before nextUpdated previousUpdated) (NewError Denied "time_regression") ;;
  deny_if (terminal (a_State previous)) (NewError Denied "terminal_state") ;;
  deny_if (negb (sameGrantPrefix (a_Grants previous) (a_Grants next)))
    (NewError Denied "grant_history_changed") ;;
  if String.eqb (a_State previous) Requested then validateRequestedTransition previous next
  else if String.eqb (a_State previous) Granted then validateGrantedTransition previous next
  else Err (NewError Denied "transition_denied").
