(* ===== verification/ApprovalLifecycleFacts.v ===== *)
(** * The approval state machine: its table, its quorum and its end

    [ValidateTransition] is the transition table of the contract but for the expiry of a
    granted approval that was used; along every sequence of validated transitions an approval is used only under a quorum of distinct approvers,
    at most as often as it allows, and every lifecycle ends. *)

From S2P Require Import Prelude GoStrings GoRegexp GoTime GoJson DomainContract Sha256 Domain ApprovalLifecycle.

Local Open Scope string_scope.
Local Open Scope Z_scope.

(** ** Grants *)

Lemma duplicate_from_false grants : forall actors principals,
  duplicate_from actors principals grants = false <->
  NoDup (map g_ActorID grants) /\ NoDup (map g_PrincipalID grants) /\
  Forall (fun g => g_ActorID g ∉ actors /\ g_PrincipalID g ∉ principals) grants.
Proof.
  induction grants as [|g l IH]; intros actors principals; cbn [duplicate_from map].
  - split; [repeat constructor|done].
  - rewrite Forall_cons, !NoDup_cons. case_bool_decide as Ha; [naive_solver|].
    case_bool_decide as Hp; [naive_solver|]. rewrite IH.
    assert (Hsplit : Forall (fun x => g_ActorID x ∉ {[g_ActorID g]} ∪ actors /\
        g_PrincipalID x ∉ {[g_PrincipalID g]} ∪ principals) l <->
      g_ActorID g ∉ map g_ActorID l /\ g_PrincipalID g ∉ map g_PrincipalID l /\
      Forall (fun x => g_ActorID x ∉ actors /\ g_PrincipalID x ∉ principals) l).
    { clear. induction l as [|x l IHl]; 
      [split; [intros _; split_and!; [apply not_elem_of_nil..|constructor]|constructor]|].
      cbn [map]. rewrite !Forall_cons, IHl, !not_elem_of_cons. set_solver. }
    rewrite Hsplit. tauto.
Qed.

Lemma duplicateGrant_false grants : duplicateGrant grants = false <->
  NoDup (map g_ActorID grants) /\ NoDup (map g_PrincipalID grants).
Proof.
  unfold duplicateGrant. rewrite duplicate_from_false. split; [tauto|].
  intros [Ha Hp]. split_and!; [done..|]. apply Forall_forall. set_solver.
Qed.

Lemma sameGrantPrefix_app l l' : sameGrantPrefix l l' = true <-> exists rest, l' = (l ++ rest)%list.
Proof.
  revert l'. induction l as [|g l IH]; intros [|g' l']; cbn.
  - split; [by exists []|done].
  - split; [by exists (g' :: l')|done].
  - split; [done|by intros [? ?]].
  - rewrite andb_true_iff, bool_decide_eq_true, IH. naive_solver.
Qed.

Lemma grant_prefix_same p n : sameGrantPrefix (a_Grants p) (a_Grants n) = true ->
  grant_count n = grant_count p -> a_Grants n = a_Grants p.
Proof.
  unfold grant_count. intros [rest Hr]%sameGrantPrefix_app Hc. rewrite Hr in *.
  rewrite length_app in Hc. destruct rest; [by rewrite app_nil_r|cbn in Hc; lia].
Qed.

Lemma grant_prefix_one p n : sameGrantPrefix (a_Grants p) (a_Grants n) = true ->
  grant_count n = grant_count p + 1 -> exists g, a_Grants n = (a_Grants p ++ [g])%list.
Proof.
  unfold grant_count. intros [rest Hr]%sameGrantPrefix_app Hc. rewrite Hr in *.
  rewrite length_app in Hc. destruct rest as [|g [|]]; cbn in Hc; [lia|eauto|lia].
Qed.

(** ** Valid records *)

(** What [ValidateRecord] establishes of the counters, the state and the grants *)
Record record_shape (r : ApprovalRecord) : Prop := {
  rs_required : 1 <= a_RequiredGrantCount r <= 16;
  rs_maximum : 1 <= a_MaximumUseCount r <= 1000;
  rs_uses : 0 <= a_UseCount r <= a_MaximumUseCount r;
  rs_revision : 1 <= a_Revision r;
  rs_count : grant_count r <= a_RequiredGrantCount r;
  rs_actors : NoDup (map g_ActorID (a_Grants r));
  rs_principals : NoDup (map g_PrincipalID (a_Grants r));
  rs_self : Forall (fun g => g_ActorID g <> a_RequestorActorID r /\
                             g_PrincipalID g <> a_RequestorPrincipalID r) (a_Grants r);
  rs_state : validStateShape r = true }.

Lemma record_valid_shape r : approval_typed r -> ValidateRecord r = Ok tt -> record_shape r.
Proof.
  intros Ht H. unfold ValidateRecord in H. destruct (record_times r) as [[req upd]|]; inv_ok.
  repeat match goal with
  | H : (_ =? _)%Z = false |- _ => apply Z.eqb_neq in H
  | H : (_ <? _)%Z = false |- _ => apply Z.ltb_ge in H
  | H : duplicateGrant _ = false |- _ => apply duplicateGrant_false in H as [? ?]
  | H : for_each _ _ = Ok _ |- _ => rename H into Hgrants
  end.
  unfold approval_typed, is_u8, is_u32, is_u64 in Ht. constructor; try done; try lia.
  apply for_each_ok in Hgrants. eapply Forall_impl; [exact Hgrants|]. intros g Hg. cbn beta in Hg.
  unfold validate_grant in Hg. apply bind_ok in Hg as (_ & _ & Hg). apply deny_if_ok in Hg.
  apply orb_false_iff in Hg as [Ha%String.eqb_neq Hp%String.eqb_neq]. done.
Qed.

(** The state and what it says of the counters, one line per state *)
Inductive shape_of (r : ApprovalRecord) : Prop :=
| shape_requested : a_State r = Requested -> grant_count r < a_RequiredGrantCount r -> a_UseCount r = 0 -> shape_of r
| shape_granted : a_State r = Granted -> grant_count r = a_RequiredGrantCount r ->
    a_UseCount r < a_MaximumUseCount r -> shape_of r
| shape_consumed : a_State r = Consumed -> grant_count r = a_RequiredGrantCount r ->
    a_UseCount r = a_MaximumUseCount r -> shape_of r
| shape_rejected : a_State r = Rejected -> a_UseCount r = 0 -> shape_of r
| shape_expired : a_State r = Expired -> a_UseCount r = 0 -> shape_of r
| shape_revoked : a_State r = Revoked -> a_UseCount r < a_MaximumUseCount r -> shape_of r.

Lemma validStateShape_iff r : validStateShape r = true <-> shape_of r.
Proof.
  unfold validStateShape. split.
  - destruct (String.eqb_spec (a_State r) Requested); [intros; bool_split; apply shape_requested; lia || done|].
    destruct (String.eqb_spec (a_State r) Granted); [intros; bool_split; apply shape_granted; lia || done|].
    destruct (String.eqb_spec (a_State r) Consumed); [intros; bool_split; apply shape_consumed; lia || done|].
    destruct (String.eqb_spec (a_State r) Rejected); [cbn; intros; apply shape_rejected; lia || done|].
    destruct (String.eqb_spec (a_State r) Expired); [cbn; intros; apply shape_expired; lia || done|].
    destruct (String.eqb_spec (a_State r) Revoked); [cbn; intros; apply shape_revoked; lia || done|done].
  - intros [Hs ? ?|Hs ? ?|Hs ? ?|Hs ?|Hs ?|Hs ?]; rewrite Hs; cbn;
      rewrite ?andb_true_iff, ?Z.ltb_lt, ?Z.eqb_eq; lia || done.
Qed.

(** ** The transition table *)

(** A record is not in two states. *)
Ltac state_clash :=
  match goal with
  | H : a_State ?r = _, H' : a_State ?r = _ |- _ =>
      exfalso; rewrite H in H'; vm_compute in H'; discriminate H'
  end.

(** One constructor per transition that the code accepts *)
Inductive lifecycle_row (p n : ApprovalRecord) : Prop :=
| row_grant g :
    a_State p = Requested -> a_State n = Requested -> a_Grants n = (a_Grants p ++ [g])%list ->
    grant_count n < a_RequiredGrantCount p -> a_UseCount n = a_UseCount p -> lifecycle_row p n
| row_grant_last g :
    a_State p = Requested -> a_State n = Granted -> a_Grants n = (a_Grants p ++ [g])%list ->
    grant_count n = a_RequiredGrantCount p -> a_UseCount n = a_UseCount p -> lifecycle_row p n
| row_dispose :
    a_State p = Requested -> a_State n = Rejected \/ a_State n = Expired \/ a_State n = Revoked ->
    a_Grants n = a_Grants p -> a_UseCount n = a_UseCount p -> lifecycle_row p n
| row_consume :
    a_State p = Granted -> a_State n = Granted -> a_Grants n = a_Grants p ->
    a_UseCount n = a_UseCount p + 1 -> a_UseCount n < a_MaximumUseCount p -> lifecycle_row p n
| row_consume_last :
    a_State p = Granted -> a_State n = Consumed -> a_Grants n = a_Grants p ->
    a_UseCount n = a_UseCount p + 1 -> a_UseCount n = a_MaximumUseCount p -> lifecycle_row p n
| row_expire_unused :
    a_State p = Granted -> a_State n = Expired -> a_Grants n = a_Grants p ->
    a_UseCount p = 0 -> a_UseCount n = 0 -> lifecycle_row p n
| row_revoke :
    a_State p = Granted -> a_State n = Revoked -> a_Grants n = a_Grants p ->
    a_UseCount n = a_UseCount p -> lifecycle_row p n.

(** The rows of contracts/approval/v1/approval-lifecycle-state-machine.md, as far as they speak
    of two records: an operation changes of the grants and of the use count what its row names.
    What a row says of the broker's time and of fresh authority is not a matter of records;
    the service checks it ([approvals_change_only_with_authority], ApprovalBrokerTheorems.v). *)
Inductive contract_row (p n : ApprovalRecord) : Prop :=
| contract_grant g :
    a_State p = Requested -> a_State n = Requested -> a_Grants n = (a_Grants p ++ [g])%list ->
    grant_count n < a_RequiredGrantCount p -> a_UseCount n = a_UseCount p -> contract_row p n
| contract_grant_last g :
    a_State p = Requested -> a_State n = Granted -> a_Grants n = (a_Grants p ++ [g])%list ->
    grant_count n = a_RequiredGrantCount p -> a_UseCount n = a_UseCount p -> contract_row p n
| contract_reject :
    a_State p = Requested -> a_State n = Rejected ->
    a_Grants n = a_Grants p -> a_UseCount n = a_UseCount p -> contract_row p n
| contract_consume :
    a_State p = Granted -> a_State n = Granted -> a_Grants n = a_Grants p ->
    a_UseCount n = a_UseCount p + 1 -> a_UseCount n < a_MaximumUseCount p -> contract_row p n
| contract_consume_last :
    a_State p = Granted -> a_State n = Consumed -> a_Grants n = a_Grants p ->
    a_UseCount n = a_UseCount p + 1 -> a_UseCount n = a_MaximumUseCount p -> contract_row p n
| contract_expire :
    a_State p = Requested \/ a_State p = Granted -> a_State n = Expired ->
    a_Grants n = a_Grants p -> a_UseCount n = a_UseCount p -> contract_row p n
| contract_revoke :
    a_State p = Requested \/ a_State p = Granted -> a_State n = Revoked ->
    a_Grants n = a_Grants p -> a_UseCount n = a_UseCount p -> contract_row p n.

(** A granted approval that was used expires: a row of the contract that the code refuses *)
Definition used_expiry (p n : ApprovalRecord) : Prop :=
  a_State p = Granted /\ a_State n = Expired /\ 0 < a_UseCount p.

Lemma rows_are_contract p n : record_shape p -> lifecycle_row p n <-> contract_row p n /\ ~ used_expiry p n.
Proof.
  intros Hp. pose proof (rs_uses _ Hp) as Hu. unfold used_expiry. split.
  - intros [g Ep En|g Ep En|Ep [En|[En|En]]|Ep En|Ep En|Ep En Hg H1 H2|Ep En];
      (split; [|by intros (E1 & E2 & E3); first [state_clash|lia]]).
    + by apply (contract_grant _ _ g).
    + by apply (contract_grant_last _ _ g).
    + by apply contract_reject.
    + apply contract_expire; tauto.
    + apply contract_revoke; tauto.
    + by apply contract_consume.
    + by apply contract_consume_last.
    + apply contract_expire; [tauto|done|done|lia].
    + apply contract_revoke; tauto.
  - intros [[g Ep En|g Ep En|Ep En|Ep En|Ep En|[Ep|Ep] En Hg Hn|[Ep|Ep] En] Hno].
    + by apply (row_grant _ _ g).
    + by apply (row_grant_last _ _ g).
    + apply row_dispose; tauto.
    + by apply row_consume.
    + by apply row_consume_last.
    + apply row_dispose; tauto.
    + destruct (decide (0 < a_UseCount p)); [by destruct Hno|]. apply row_expire_unused; done || lia.
    + apply row_dispose; tauto.
    + by apply row_revoke.
Qed.

(** The fields a transition keeps *)
Definition same_binding (p n : ApprovalRecord) : Prop :=
  a_SchemaVersion p = a_SchemaVersion n /\ a_ContractVersion p = a_ContractVersion n /\
  a_ApprovalID p = a_ApprovalID n /\ a_OrganizationID p = a_OrganizationID n /\
  a_TenantID p = a_TenantID n /\ a_CaseID p = a_CaseID n /\ a_FingerprintDigest p = a_FingerprintDigest n /\
  a_ManifestDigest p = a_ManifestDigest n /\ a_PolicyDecisionDigest p = a_PolicyDecisionDigest n /\
  a_RequestorActorID p = a_RequestorActorID n /\ a_RequestorRevision p = a_RequestorRevision n /\
  a_RequestorPrincipalID p = a_RequestorPrincipalID n /\ a_ActionOwnerActorID p = a_ActionOwnerActorID n /\
  a_ActionTier p = a_ActionTier n /\ a_RequestedAt p = a_RequestedAt n /\ a_ValidFrom p = a_ValidFrom n /\
  a_ValidUntil p = a_ValidUntil n /\ a_RequiredGrantCount p = a_RequiredGrantCount n /\
  a_MaximumUseCount p = a_MaximumUseCount n.

Lemma sameBinding_iff p n : sameBinding p n = true <-> same_binding p n.
Proof.
  unfold sameBinding, same_binding. rewrite !andb_true_iff, !String.eqb_eq, !Z.eqb_eq. tauto.
Qed.

#[export] Instance same_binding_preorder : PreOrder same_binding.
Proof. split; [intros a | intros a b c]; unfold same_binding; intuition congruence. Qed.

Lemma requested_rows p n : record_shape p -> record_shape n -> same_binding p n ->
  a_State p = Requested ->
  sameGrantPrefix (a_Grants p) (a_Grants n) = true /\ validateRequestedTransition p n = Ok tt <->
  lifecycle_row p n.
Proof.
  intros Hp Hn Hb Hs. pose proof (proj1 (validStateShape_iff p) (rs_state _ Hp)) as Sp.
  assert (Hu : a_UseCount p = 0) by (destruct Sp; done || state_clash).
  assert (Hreq : a_RequiredGrantCount p = a_RequiredGrantCount n) by apply Hb.
  unfold validateRequestedTransition. split.
  - intros [Hpre H].
    destruct (String.eqb_spec (a_State n) Requested) as [E1|N1]; cbn [orb] in H;
    [|destruct (String.eqb_spec (a_State n) Granted) as [E2|N2]; cbn [orb] in H].
    3: { destruct (_ || _ || _) eqn:E; [|done]. apply deny_if_ok in H. bool_split.
         rewrite !orb_true_iff, !String.eqb_eq in E. apply row_dispose; try done.
         - tauto.
         - apply grant_prefix_same; [done|lia].
         - lia. }
    all: apply bind_ok in H as ([] & H1 & H2); apply deny_if_ok in H1, H2; bool_split;
      destruct (grant_prefix_one p n) as [g Hg]; [done|lia|].
    + rewrite E1 in H2. change (String.eqb Requested Granted) with false in H2.
      destruct (Z.eqb_spec (grant_count n) (a_RequiredGrantCount n)); [done|].
      eapply row_grant; try done; [pose proof (rs_count _ Hn); lia|lia].
    + destruct (Z.eqb_spec (grant_count n) (a_RequiredGrantCount n)); [|done].
      eapply row_grant_last; try done; lia.
  - intros [g _ E Hg Hc Hun|g _ E Hg Hc Hun|_ E Hg Hun|E|E|E|E]; try state_clash; rewrite Hg.
    + split; [apply sameGrantPrefix_app; eauto|]. rewrite E. cbn [orb String.eqb].
      change (String.eqb Requested Requested) with true. cbn [orb].
      assert (grant_count n = grant_count p + 1) by (unfold grant_count; rewrite Hg, length_app; cbn; lia).
      destruct (Z.eqb_spec (grant_count n) (grant_count p + 1)), (Z.eqb_spec (a_UseCount n) 0),
        (Z.eqb_spec (grant_count n) (a_RequiredGrantCount n)); cbn; try lia; done.
    + split; [apply sameGrantPrefix_app; eauto|]. rewrite E.
      change (String.eqb Granted Requested) with false. change (String.eqb Granted Granted) with true. cbn [orb].
      assert (grant_count n = grant_count p + 1) by (unfold grant_count; rewrite Hg, length_app; cbn; lia).
      destruct (Z.eqb_spec (grant_count n) (grant_count p + 1)), (Z.eqb_spec (a_UseCount n) 0),
        (Z.eqb_spec (grant_count n) (a_RequiredGrantCount n)); cbn; try lia; done.
    + split; [apply sameGrantPrefix_app; exists []; by rewrite app_nil_r|].
      assert (grant_count n = grant_count p) as -> by (unfold grant_count; by rewrite Hg).
      rewrite Hun, Hu, !Z.eqb_refl. by destruct E as [-> | [-> | ->]].
Qed.

Lemma granted_rows p n : approval_typed p -> record_shape p -> record_shape n -> same_binding p n ->
  a_State p = Granted ->
  sameGrantPrefix (a_Grants p) (a_Grants n) = true /\ validateGrantedTransition p n = Ok tt <->
  lifecycle_row p n.
Proof.
  intros Ht Hp Hn Hb Hs. pose proof (proj1 (validStateShape_iff n) (rs_state _ Hn)) as Sn.
  assert (Hmax : a_MaximumUseCount p = a_MaximumUseCount n) by apply Hb.
  pose proof (rs_uses _ Hp) as Up. pose proof (rs_maximum _ Hp) as Mp. pose proof (rs_uses _ Hn) as Un.
  assert (Hu : u32 (a_UseCount p + 1) = a_UseCount p + 1) by (unfold u32; rewrite Z.mod_small; lia).
  unfold validateGrantedTransition. rewrite Hu. split.
  - intros [Hpre H].
    destruct (String.eqb_spec (a_State n) Granted) as [E1|N1]; cbn [orb] in H;
    [|destruct (String.eqb_spec (a_State n) Consumed) as [E2|N2]; cbn [orb] in H].
    3: { destruct (String.eqb_spec (a_State n) Expired) as [E|_]; cbn [orb] in H;
         [|destruct (String.eqb_spec (a_State n) Revoked) as [E|_]; [|done]];
         apply deny_if_ok in H; bool_split.
         - destruct Sn; try state_clash. apply row_expire_unused; try done; [apply grant_prefix_same; lia || done|lia].
         - apply row_revoke; try done; [apply grant_prefix_same; lia || done|lia]. }
    all: apply bind_ok in H as ([] & H1 & H2); apply deny_if_ok in H1, H2; bool_split;
      assert (Hg : a_Grants n = a_Grants p) by (apply grant_prefix_same; lia || done).
    + rewrite E1 in H2. change (String.eqb Granted Consumed) with false in H2.
      destruct (Z.eqb_spec (a_UseCount n) (a_MaximumUseCount n)); [done|]. apply row_consume; try done; lia.
    + destruct (Z.eqb_spec (a_UseCount n) (a_MaximumUseCount n)); [|done].
      apply row_consume_last; try done; lia.
  - assert (Hc : a_Grants n = a_Grants p -> sameGrantPrefix (a_Grants p) (a_Grants n) = true /\
      (grant_count n =? grant_count p) = true).
    { intros Hg. split; [apply sameGrantPrefix_app; exists []; by rewrite app_nil_r|].
      unfold grant_count. rewrite Hg. apply Z.eqb_refl. }
    intros [g E|g E|E|_ E Hg H1 H2|_ E Hg H1 H2|_ E Hg H1 H2|_ E Hg H1]; try state_clash;
      destruct (Hc Hg) as [-> ->]; (split; [done|]); rewrite E; rewrite ?H1, ?Z.eqb_refl.
    + change (String.eqb Granted Granted) with true. cbn.
      destruct (Z.eqb_spec (a_UseCount p + 1) (a_MaximumUseCount n)); [lia|done].
    + change (String.eqb Consumed Granted) with false. cbn.
      destruct (Z.eqb_spec (a_UseCount p + 1) (a_MaximumUseCount n)); [done|lia].
    + rewrite H2. done.
    + done.
Qed.

(** What [ValidateTransition] asks besides the row *)
Definition next_record (p n : ApprovalRecord) : Prop :=
  ValidateRecord p = Ok tt /\ ValidateRecord n = Ok tt /\ a_Revision n = a_Revision p + 1 /\
  same_binding p n /\
  before (default zero_time (parseTimestamp (a_UpdatedAt n)))
         (default zero_time (parseTimestamp (a_UpdatedAt p))) = false.

Lemma terminal_iff s : terminal s = true <-> s = Rejected \/ s = Expired \/ s = Consumed \/ s = Revoked.
Proof. unfold terminal. rewrite !orb_true_iff, !String.eqb_eq. tauto. Qed.

Lemma revision_step p n : approval_typed p -> approval_typed n -> 1 <= a_Revision n ->
  a_Revision n = u64 (a_Revision p + 1) <-> a_Revision n = a_Revision p + 1.
Proof.
  unfold approval_typed, is_u64, u64. intros (_ & Hp & _) (_ & Hn & _) H1.
  destruct (decide (a_Revision p + 1 = 2 ^ 64)) as [E|E].
  - rewrite E, Z_mod_same_full. lia.
  - rewrite Z.mod_small by lia. done.
Qed.

Lemma row_from_live p n : lifecycle_row p n -> a_State p = Requested \/ a_State p = Granted.
Proof. intros []; tauto. Qed.

Lemma ValidateTransition_rows p n : approval_typed p -> approval_typed n ->
  ValidateTransition p n = Ok tt <-> next_record p n /\ lifecycle_row p n.
Proof.
  intros Htp Htn. unfold ValidateTransition, next_record.
  destruct (ValidateRecord p) as [[]|] eqn:Vp; [|cbn; naive_solver].
  destruct (ValidateRecord n) as [[]|] eqn:Vn; [|cbn; naive_solver].
  pose proof (record_valid_shape _ Htp Vp) as Sp. pose proof (record_valid_shape _ Htn Vn) as Sn.
  rewrite !seq_ok, !deny_if_ok, !negb_false_iff, Z.eqb_eq, sameBinding_iff,
    (revision_step p n Htp Htn (rs_revision _ Sn)). split.
  - intros (_ & _ & Hrev & Hb & Htime & _ & Hpre & H). split; [by split_and!|].
    destruct (String.eqb_spec (a_State p) Requested) as [E|_]; [by apply requested_rows|].
    destruct (String.eqb_spec (a_State p) Granted) as [E|_]; [by apply granted_rows|done].
  - intros [(_ & _ & Hrev & Hb & Htime) Hrow].
    destruct (row_from_live _ _ Hrow) as [E|E].
    + destruct (proj2 (requested_rows p n Sp Sn Hb E) Hrow) as [Hpre Hv]. by rewrite E.
    + destruct (proj2 (granted_rows p n Htp Sp Sn Hb E) Hrow) as [Hpre Hv]. by rewrite E.
Qed.

(** C30. [ValidateTransition] is the contract's transition table, but for one row: it accepts a
    pair of records exactly when both are valid, the second is the next revision of the first
    with every bound field equal and no time regression, and the pair is a row of
    approval-lifecycle-state-machine.md (grant below or at the threshold with one appended
    grant, reject, expire, revoke, consume below or at the maximum) that is not the expiry of a
    granted approval that was used already, which the contract has and the code refuses.
    [lifecycle_row] spells out the rows that are left.  The contract's conditions on the
    broker's time and on fresh authority are not the business of this function. *)
Theorem validate_transition_is_the_table p n : approval_typed p -> approval_typed n ->
  (ValidateTransition p n = Ok tt <-> next_record p n /\ contract_row p n /\ ~ used_expiry p n) /\
  (ValidateTransition p n = Ok tt <-> next_record p n /\ lifecycle_row p n).
Proof.
  intros Htp Htn. rewrite ValidateTransition_rows by done. split; [|done].
  split; intros (Hn & H); (split; [done|]); pose proof (record_valid_shape _ Htp (proj1 Hn)) as Hs; by apply rows_are_contract.
Qed.

(** ** Lifecycles *)

Definition approval_step (p n : ApprovalRecord) : Prop :=
  approval_typed n /\ ValidateTransition p n = Ok tt.

(** A request as it is first stored *)
Definition fresh_request (r : ApprovalRecord) : Prop :=
  approval_typed r /\ ValidateRecord r = Ok tt /\ a_State r = Requested /\ a_Grants r = [] /\ a_UseCount r = 0.

(** Every use stands on a full quorum. *)
Definition quorum (r : ApprovalRecord) : Prop :=
  grant_count r = a_RequiredGrantCount r.

Definition lifecycle_inv (r : ApprovalRecord) : Prop :=
  approval_typed r /\ ValidateRecord r = Ok tt /\
  (0 < a_UseCount r \/ a_State r = Granted \/ a_State r = Consumed -> quorum r).

Lemma approval_step_inv p n : lifecycle_inv p -> approval_step p n -> lifecycle_inv n.
Proof.
  intros (Htp & Vp & Hq) (Htn & [(_ & Vn & _ & Hb & _) Hrow]%ValidateTransition_rows); [|done..].
  split_and!; [done..|]. pose proof (record_valid_shape _ Htn Vn) as Sn.
  pose proof (record_valid_shape _ Htp Vp) as Sp. pose proof (rs_uses _ Sp).
  pose proof (proj1 (validStateShape_iff p) (rs_state _ Sp)) as Shp.
  assert (Hreq : a_RequiredGrantCount p = a_RequiredGrantCount n) by apply Hb.
  unfold quorum in *. intros Hn.
  destruct Hrow as [g Ep En Hg Hc Hu|g Ep En Hg Hc Hu|Ep En Hg Hu|Ep En Hg|Ep En Hg|Ep En Hg|Ep En Hg];
    unfold grant_count in *; rewrite ?Hg in *; try lia; try (rewrite <- Hreq; apply Hq; tauto).
  - destruct Shp; try state_clash. destruct Hn as [?|[?|?]]; [lia|state_clash..].
  - destruct Shp; try state_clash. destruct En as [En|[En|En]]; destruct Hn as [?|[?|?]]; lia || state_clash.
Qed.

Lemma fresh_inv r : fresh_request r -> lifecycle_inv r.
Proof.
  intros (Ht & Hv & Hs & Hg & Hu). split_and!; [done..|]. intros [?|[?|?]]; [lia|state_clash..].
Qed.

Lemma lifecycle_reach_inv p n : fresh_request p -> rtc approval_step p n ->
  lifecycle_inv n /\ same_binding p n.
Proof.
  intros Hf. revert n. apply rtc_ind_r; [split; [by apply fresh_inv|done]|].
  intros y z _ Hstep [Hi Hb]. split; [by eapply approval_step_inv|].
  destruct Hi as (Hty & _ & _), Hstep as (Htz & [(_ & _ & _ & Hb' & _) _]%ValidateTransition_rows); [|done..].
  by etrans.
Qed.

(** C29. No use without a quorum: in every lifecycle that starts from a fresh request, a
    record that is granted, consumed or used at all carries exactly the required number
    of grants, all by distinct actors and distinct principals, none of them the
    requestor's actor or principal; and it never was used more often than the request
    allowed. *)
Theorem approval_use_requires_quorum p n : fresh_request p -> rtc approval_step p n ->
  0 < a_UseCount n \/ a_State n = Granted \/ a_State n = Consumed ->
  Z.of_nat (length (a_Grants n)) = a_RequiredGrantCount p /\
  NoDup (map g_ActorID (a_Grants n)) /\ NoDup (map g_PrincipalID (a_Grants n)) /\
  Forall (fun g => g_ActorID g <> a_RequestorActorID p /\ g_PrincipalID g <> a_RequestorPrincipalID p)
    (a_Grants n) /\
  a_UseCount n <= a_MaximumUseCount p.
Proof.
  intros Hf Hr Hu. destruct (lifecycle_reach_inv p n Hf Hr) as [(Ht & Hv & Hq) Hb].
  pose proof (record_valid_shape _ Ht Hv) as []. unfold same_binding in Hb.
  assert (a_RequiredGrantCount p = a_RequiredGrantCount n) as -> by tauto.
  assert (a_MaximumUseCount p = a_MaximumUseCount n) as -> by tauto.
  assert (a_RequestorActorID p = a_RequestorActorID n) as -> by tauto.
  assert (a_RequestorPrincipalID p = a_RequestorPrincipalID n) as -> by tauto.
  split_and!; try done; [by apply Hq|lia].
Qed.

(** How many transitions a record can still take *)
Definition remaining (r : ApprovalRecord) : Z :=
  if terminal (a_State r) then 0
  else (a_RequiredGrantCount r - grant_count r) + (a_MaximumUseCount r - a_UseCount r) + 1.

Lemma remaining_nonneg r : record_shape r -> 0 <= remaining r.
Proof. intros []. unfold remaining. destruct (terminal _); lia. Qed.

Lemma remaining_step p n : approval_typed p -> approval_step p n -> remaining n < remaining p.
Proof.
  intros Htp (Htn & [(Vp & Vn & _ & Hb & _) Hrow]%ValidateTransition_rows); [|done..].
  pose proof (record_valid_shape _ Htp Vp) as Sp. pose proof (record_valid_shape _ Htn Vn) as Sn.
  assert (a_RequiredGrantCount p = a_RequiredGrantCount n) by apply Hb.
  assert (a_MaximumUseCount p = a_MaximumUseCount n) by apply Hb.
  pose proof (rs_count _ Sp). pose proof (rs_uses _ Sp). unfold remaining.
  destruct Hrow as [g Ep En Hg|g Ep En Hg|Ep En Hg|Ep En Hg|Ep En Hg|Ep En Hg|Ep En Hg];
    [..|destruct En as [En|[En|En]]| | | |]; rewrite Ep, En;
    repeat match goal with |- context [terminal ?s] =>
      let b := eval vm_compute in (terminal s) in change (terminal s) with b end; cbn iota;
    unfold grant_count in *; rewrite ?Hg, ?length_app in *; cbn [length] in *; lia.
Qed.

Lemma remaining_nsteps k p n : approval_typed p -> nsteps approval_step k p n ->
  (k = 0%nat \/ approval_typed n) /\ Z.of_nat k + remaining n <= remaining p.
Proof.
  intros Ht Hn. revert Ht. induction Hn as [x|k x y z Hstep Hrest IH]; intros Ht; [split; [by left|lia]|].
  pose proof (remaining_step _ _ Ht Hstep). destruct Hstep as [Hty _].
  destruct (IH Hty) as [Hz ?]. split; [|lia]. right. destruct Hz as [->|Hz]; [|done].
  by inversion Hrest; subst.
Qed.

(** C36. Every lifecycle ends: from a fresh request at most one transition per required
    grant, one per allowed use and one more are possible, so at most 1017, and a record
    in a terminal state has no transition at all. *)
Theorem approval_lifecycle_terminates k p n : fresh_request p -> nsteps approval_step k p n ->
  Z.of_nat k <= a_RequiredGrantCount p + a_MaximumUseCount p + 1 /\ (k <= 1017)%nat /\
  (terminal (a_State n) = true -> forall m, ~ approval_step n m).
Proof.
  intros (Ht & Hv & Hs & Hg & Hu) Hn. pose proof (record_valid_shape _ Ht Hv) as [].
  destruct (remaining_nsteps k p n Ht Hn) as [Hty Hk].
  assert (Hp : remaining p = a_RequiredGrantCount p + a_MaximumUseCount p + 1).
  { unfold remaining, grant_count. rewrite Hs, Hg, Hu. cbn. lia. }
  assert (Htn : approval_typed n).
  { destruct Hty as [->|?]; [|done]. by inversion Hn; subst. }
  assert (Hlast : forall m, approval_step n m -> 0 <= remaining m).
  { intros m (Htm & [(_ & Vm & _) _]%ValidateTransition_rows); [|done..].
    by apply remaining_nonneg, record_valid_shape. }
  assert (Hn0 : 0 <= remaining n).
  { destruct Hty as [->|_]; [inversion Hn; subst; by apply remaining_nonneg, record_valid_shape|].
    inversion Hn as [|k' x y z Hstep Hrest]; subst; [by apply remaining_nonneg, record_valid_shape|].
    apply nsteps_inv_r in Hn as (y' & Hy & Hlaststep).
    unfold approval_step, ValidateTransition in Hlaststep. destruct Hlaststep as [_ H].
    apply seq_ok in H as [_ H]. apply seq_ok in H as [Vn _]. by apply remaining_nonneg, record_valid_shape. }
  split_and!; [lia|lia|]. intros Hterm m Hstep. pose proof (remaining_step _ _ Htn Hstep).
  pose proof (Hlast m Hstep). unfold remaining in *. rewrite Hterm in *. lia.
Qed.

(** An approval that was used cannot expire: although the contract's table lets
    every granted approval expire, no expired record is a valid successor of a granted
    record with a use on it (such an approval can still be consumed or revoked). *)
Theorem used_approval_cannot_expire p n : approval_typed p -> approval_typed n ->
  a_State p = Granted -> 0 < a_UseCount p -> a_State n = Expired ->
  ValidateTransition p n <> Ok tt.
Proof.
  intros Htp Htn Hp Hu Hn [_ Hrow]%ValidateTransition_rows; [|done..].
  destruct Hrow as [g E1 E2|g E1 E2|E1 E2|E1 E2|E1 E2|E1 E2 _ H0|E1 E2]; lia || state_clash.
Qed.

(** ** A T4 approval, used twice *)

Definition ax_id (n : ascii) : string :=
  "0199a213-1111-7111-8111-11111111111" ++ String n "".
Definition ax_digest : string := "sha256:aaaaaaaaaaaaaaaaaaaaaaaaaaaaaaaaaaaaaaaaaaaaaaaaaaaaaaaaaaaaaaaa".
Definition ax_time (m : string) : string := "2026-08-26T18:" ++ m ++ ":00.000000000Z".

Definition ax_record (state : string) (revision : Z) (grants : list Grant) (uses : Z) (at_minute : string)
  : ApprovalRecord :=
  mkApproval SchemaVersion ContractVersion (ax_id "1") (ax_id "2") (ax_id "3") (ax_id "4") ax_digest ax_digest
    ax_digest (ax_id "5") 1 (ax_id "6") (ax_id "7") "T4" state revision (ax_time "00") (ax_time "00")
    (ax_time "59") 2 grants 2 uses "approval_step" (ax_id "8") 1 ax_digest (ax_id "9") (ax_time at_minute).

Definition ax_grant1 : Grant := mkGrant (ax_id "a") 1 (ax_id "b") 1 (ax_time "01").
Definition ax_grant2 : Grant := mkGrant (ax_id "c") 1 (ax_id "d") 1 (ax_time "02").

Definition ax_requested : ApprovalRecord := ax_record Requested 1 [] 0 "00".
Definition ax_once_granted : ApprovalRecord := ax_record Requested 2 [ax_grant1] 0 "01".
Definition ax_granted : ApprovalRecord := ax_record Granted 3 [ax_grant1; ax_grant2] 0 "02".
Definition ax_used : ApprovalRecord := ax_record Granted 4 [ax_grant1; ax_grant2] 1 "03".

Lemma ax_typed state revision grants uses m :
  0 <= revision < 100 -> 0 <= uses < 100 -> grants ⊆ [ax_grant1; ax_grant2] ->
  approval_typed (ax_record state revision grants uses m).
Proof.
  intros Hr Hu Hg. unfold approval_typed, is_u64, is_u32, is_u8. cbn. split_and!; try lia.
  apply Forall_forall. intros g Hgin%Hg. repeat (apply elem_of_cons in Hgin as [->|Hgin]; [cbn; lia|]).
  by apply elem_of_nil in Hgin.
Qed.

Ltac ax_typed_tac := apply ax_typed; [lia|lia|set_solver].

Lemma ax_fresh : fresh_request ax_requested.
Proof. unfold fresh_request. split; [ax_typed_tac|]. split_and!; vm_compute; reflexivity. Qed.

Lemma ax_step1 : approval_step ax_requested ax_once_granted.
Proof. split; [ax_typed_tac|vm_compute; reflexivity]. Qed.

Lemma ax_step2 : approval_step ax_once_granted ax_granted.
Proof. split; [ax_typed_tac|vm_compute; reflexivity]. Qed.

Lemma ax_step3 : approval_step ax_granted ax_used.
Proof. split; [ax_typed_tac|vm_compute; reflexivity]. Qed.

Lemma ax_steps : nsteps approval_step 3 ax_requested ax_used.
Proof.
  eapply nsteps_l; [exact ax_step1|]. eapply nsteps_l; [exact ax_step2|].
  eapply nsteps_l; [exact ax_step3|apply nsteps_O].
Qed.

Lemma validate_transition_is_the_table_witness : contract_row ax_granted ax_used /\
  ValidateTransition ax_used (ax_record Expired 5 [ax_grant1; ax_grant2] 1 "59") <> Ok tt.
Proof.
  destruct (validate_transition_is_the_table ax_granted ax_used ltac:(ax_typed_tac) ltac:(ax_typed_tac)) as [H _].
  split; [exact (proj1 (proj2 (proj1 H (proj2 ax_step3))))|].
  destruct (validate_transition_is_the_table ax_used (ax_record Expired 5 [ax_grant1; ax_grant2] 1 "59")
    ltac:(ax_typed_tac) ltac:(ax_typed_tac)) as [H' _].
  intros (_ & _ & Hno)%H'. apply Hno. split; [reflexivity|]. split; [reflexivity|]. cbn. lia.
Defined.

Lemma approval_use_requires_quorum_witness :
  a_UseCount ax_used = 1 /\ Z.of_nat (length (a_Grants ax_used)) = a_RequiredGrantCount ax_requested.
Proof.
  split; [reflexivity|].
  apply (approval_use_requires_quorum ax_requested ax_used ax_fresh).
  - eapply rtc_nsteps_2. exact ax_steps.
  - left. reflexivity.
Defined.

Lemma approval_lifecycle_terminates_witness :
  Z.of_nat 3 <= a_RequiredGrantCount ax_requested + a_MaximumUseCount ax_requested + 1.
Proof. exact (proj1 (approval_lifecycle_terminates 3 ax_requested ax_used ax_fresh ax_steps)). Defined.

Definition ax_expired : ApprovalRecord := ax_record Expired 5 [ax_grant1; ax_grant2] 1 "59".

Lemma used_approval_cannot_expire_witness : ValidateTransition ax_used ax_expired <> Ok tt.
Proof.
  apply (used_approval_cannot_expire ax_used ax_expired);
    [ax_typed_tac|ax_typed_tac|reflexivity|reflexivity|reflexivity].
Defined.
