(* ===== verification/ApprovalCodec.v ===== *)
(** * internal/domain/approvallifecycle: canonical.go and the classification of errors

    The canonical text of an approval record, and the decoder, which takes canonical text only. *)

From S2P Require Import Prelude GoStrings GoRegexp GoTime GoJson DomainContract Sha256 Domain GoStruct GoCodec ApprovalLifecycle ApprovalLifecycleFacts.

Local Open Scope string_scope.
Local Open Scope Z_scope.

(** ** errors.go *)

Definition Code (err : go_error Error) : ErrorCode :=
  match errors_as err with
  | Some lifecycleErr => ApprovalLifecycle.Code lifecycleErr
  | None =>
      if errors_is_canceled err then Canceled
      else if errors_is_deadline err then Timeout
      else Unavailable
  end.

Definition Reason (err : go_error Error) : string :=
  match errors_as err with
  | Some lifecycleErr => ApprovalLifecycle.Reason lifecycleErr
  | None => "approval_lifecycle_unavailable"
  end.

(** ** The struct tags *)

Definition grant_codec : codec Grant := struct_codec
  (field "actor_id" str_codec $ field "actor_revision" (uint_codec 64) $ field "principal_id" str_codec $
     field "enrollment_revision" (uint_codec 64) $ field "granted_at" str_codec $ no_fields)
  (fun '(mkGrant a b c d e) => (a, (b, (c, (d, (e, tt))))))
  (fun '(a, (b, (c, (d, (e, _))))) => mkGrant a b c d e)
  ltac:(by intros []) ltac:(by intros (? & ? & ? & ? & ? & [])).

Definition record_fields :=
  (field "schema_version" str_codec $ field "contract_version" str_codec $ field "approval_id" str_codec $ field
     "organization_id" str_codec $ field "tenant_id" str_codec $ field "case_id" str_codec $ field
     "fingerprint_digest" str_codec $ field "manifest_digest" str_codec $ field "policy_decision_digest"
     str_codec $ field "requestor_actor_id" str_codec $ field "requestor_revision" (uint_codec 64) $ field
     "requestor_principal_id" str_codec $ field "action_owner_actor_id" str_codec $ field "action_tier" str_codec $
     field "state" str_codec $ field "revision" (uint_codec 64) $ field "requested_at" str_codec $ field
     "valid_from" str_codec $ field "valid_until" str_codec $ field "required_grant_count" (uint_codec 8) $ field
     "grants" (slice_codec grant_codec) $ field "maximum_use_count" (uint_codec 32) $ field "use_count"
     (uint_codec 32) $ field "reason_code" str_codec $ field "last_actor_id" str_codec $ field
     "last_actor_revision" (uint_codec 64) $ field "last_operation_digest" str_codec $ field "last_event_id"
     str_codec $ field "updated_at" str_codec $ no_fields).

(** The fields of the struct as a tuple *)
Definition record_codec := struct_codec record_fields (fun x => x) (fun x => x) (fun x => eq_refl) (fun x => eq_refl).

(** The grants of a record are a slice; without grants it is nil or empty. *)
Definition grants_slice (nil_grants : bool) (r : ApprovalRecord) : slice Grant :=
  if nil_grants then None else Some (a_Grants r).

Definition record_tuple (nil_grants : bool) (r : ApprovalRecord) :=
  (a_SchemaVersion r, (a_ContractVersion r, (a_ApprovalID r, (a_OrganizationID r, (a_TenantID r, (a_CaseID r,
  (a_FingerprintDigest r, (a_ManifestDigest r, (a_PolicyDecisionDigest r, (a_RequestorActorID r,
  (a_RequestorRevision r, (a_RequestorPrincipalID r, (a_ActionOwnerActorID r, (a_ActionTier r, (a_State r,
  (a_Revision r, (a_RequestedAt r, (a_ValidFrom r, (a_ValidUntil r, (a_RequiredGrantCount r, (grants_slice
  nil_grants r, (a_MaximumUseCount r, (a_UseCount r, (a_ReasonCode r, (a_LastActorID r, (a_LastActorRevision r,
  (a_LastOperationDigest r, (a_LastEventID r, (a_UpdatedAt r, tt))))))))))))))))))))))))))))).

Definition record_of_tuple x : ApprovalRecord :=
  let '(x0, (x1, (x2, (x3, (x4, (x5, (x6, (x7, (x8, (x9, (x10, (x11, (x12, (x13, (x14, (x15, (x16, (x17, (x18, (x19,
  (x20, (x21, (x22, (x23, (x24, (x25, (x26, (x27, (x28, tt))))))))))))))))))))))))))))) := x in
  mkApproval x0 x1 x2 x3 x4 x5 x6 x7 x8 x9 x10 x11 x12 x13 x14 x15 x16 x17 x18 x19 (items x20) x21 x22 x23 x24 x25 x26
    x27 x28.

(** ** canonical.go *)

(** [nil_grants] says that the record has the nil slice of grants. *)
Definition CanonicalRecord (nil_grants : bool) (record : ApprovalRecord) : result Error string :=
  ValidateRecord record ;;
  or_err (canonical_struct (c_type record_codec) (c_to record_codec (record_tuple nil_grants record)))
    (NewError InvalidInput "record_encoding").

Definition DecodeRecord (input : string) : result Error ApprovalRecord :=
  match Canonicalize input with
  | Ok canonical =>
      deny_if (negb (String.eqb input canonical)) (NewError InvalidInput "record_not_canonical") ;;
      match decode_text record_codec canonical with
      | Some x => let record := record_of_tuple x in ValidateRecord record ;; Ok record
      | None => Err (NewError InvalidInput "record_encoding")
      end
  | Err _ => Err (NewError InvalidInput "record_not_canonical")
  end.

(** Whether the decoder left the slice of grants nil: absent or null *)
Definition decoded_nil_grants (canonical : string) : bool :=
  match decode_text record_codec canonical with
  | Some x => let '(_, (_, (_, (_, (_, (_, (_, (_, (_, (_, (_, (_, (_, (_, (_, (_, (_, (_, (_, (_,
      (grants, _))))))))))))))))))))) := x in
      match grants with None => true | Some _ => false end
  | None => false
  end.

Definition Digest (input : string) : string := digest input.

(** ** The round trip *)

(** What a validated record's fields are, for the text of the record *)
Record record_texts (r : ApprovalRecord) : Prop := {
  rt_versions : valid_string (a_SchemaVersion r) = true /\ valid_string (a_ContractVersion r) = true;
  rt_identities : Forall (fun s => valid_string s = true) (record_identities r);
  rt_digests : Forall (fun s => valid_string s = true) (record_digests r);
  rt_times : Forall (fun s => valid_string s = true)
    [a_RequestedAt r; a_ValidFrom r; a_ValidUntil r; a_UpdatedAt r];
  rt_words : Forall (fun s => valid_string s = true) [a_ActionTier r; a_State r; a_ReasonCode r];
  rt_grants : Forall (fun g => Forall (fun s => valid_string s = true)
    [g_ActorID g; g_PrincipalID g; g_GrantedAt g]) (a_Grants r) }.

Lemma forallb_valid (p : string -> bool) l : (forall s, p s = true -> valid_string s = true) ->
  forallb p l = true -> Forall (fun s => valid_string s = true) l.
Proof. rewrite forallb_forall, List.Forall_forall. eauto. Qed.

Lemma record_times_valid r p : record_times r = Some p ->
  Forall (fun s => valid_string s = true) [a_RequestedAt r; a_ValidFrom r; a_ValidUntil r; a_UpdatedAt r].
Proof.
  unfold record_times, parseTimestamp. intros (? & H1 & H)%opt_bind_inv.
  apply opt_bind_inv in H as (? & H2 & H). apply opt_bind_inv in H as (? & H3 & H).
  apply opt_bind_inv in H as (? & H4 & _). repeat constructor; eauto with coh.
Qed.

Lemma validate_grant_texts r t1 t2 g : validate_grant r t1 t2 g = Ok tt ->
  Forall (fun s => valid_string s = true) [g_ActorID g; g_PrincipalID g; g_GrantedAt g].
Proof.
  unfold validate_grant. rewrite seq_ok, !deny_if_ok. intros [H _]. unfold parseTimestamp in H.
  destruct (parse_timestamp (g_GrantedAt g)) as [t|] eqn:Ht; bool_split; [|done].
  repeat constructor; eauto with coh.
Qed.

Lemma tier_valid s : validActionTier s = true -> valid_string s = true.
Proof.
  intros H. apply (word_valid ["T0"; "T1"; "T2"; "T3"; "T4"]); [reflexivity|]. cbn.
  unfold validActionTier in H. by rewrite orb_false_r, !orb_assoc.
Qed.

Lemma state_valid s : validState s = true -> valid_string s = true.
Proof.
  intros H. apply (word_valid [Requested; Granted; Rejected; Expired; Consumed; Revoked]); [reflexivity|].
  cbn [existsb]. unfold validState in H. by rewrite orb_false_r, !orb_assoc.
Qed.

Lemma record_valid_texts r : ValidateRecord r = Ok tt -> record_texts r.
Proof.
  unfold ValidateRecord. rewrite !seq_ok, !deny_if_ok, !negb_false_iff. intros (H1 & H2 & H3 & H).
  destruct (record_times r) as [[t1 t2]|] eqn:Ht; [|done].
  rewrite !seq_ok, !deny_if_ok in H. destruct H as (_ & H5 & H6 & H7 & H8).
  apply for_each_ok in H6. rewrite orb_false_iff, !negb_false_iff, !String.eqb_eq in H1. destruct H1 as [Hs Hc].
  bool_split. split.
  - by rewrite Hs, Hc.
  - apply (forallb_valid uuidPattern); eauto with coh.
  - apply (forallb_valid digestPattern); eauto with coh.
  - by eapply record_times_valid.
  - repeat constructor; [by apply tier_valid|by apply state_valid|eauto with coh].
  - eapply Forall_impl; [exact H6|]. intros g. apply validate_grant_texts.
Qed.

Lemma typed_grant g : is_u64 (g_ActorRevision g) /\ is_u64 (g_EnrollmentRevision g) ->
  Forall (fun s => valid_string s = true) [g_ActorID g; g_PrincipalID g; g_GrantedAt g] -> typed grant_codec g.
Proof.
  intros [Ha He] Ht. rewrite !Forall_cons in Ht. destruct Ht as (? & ? & ? & _).
  apply (typed_uint 64) in Ha, He. destruct g. typed_fields; assumption.
Qed.

Lemma typed_grants nil_grants r : approval_typed r -> record_texts r ->
  typed (slice_codec grant_codec) (grants_slice nil_grants r).
Proof.
  intros (_ & _ & _ & _ & _ & _ & Hg) [_ _ _ _ _ Hs]. destruct nil_grants; [done|].
  apply typed_slice. apply Forall_forall. intros g Hin.
  apply typed_grant; [exact (proj1 (Forall_forall _ _) Hg g Hin)|exact (proj1 (Forall_forall _ _) Hs g Hin)].
Qed.

Lemma typed_record nil_grants r : approval_typed r -> ValidateRecord r = Ok tt ->
  typed record_codec (record_tuple nil_grants r).
Proof.
  intros Ht Hv. pose proof (record_valid_texts r Hv) as Hx. pose proof (typed_grants nil_grants r Ht Hx) as Hg.
  destruct Ht as (H1 & H2 & H3 & H4 & H5 & H6 & _), Hx as [[] Hids Hdigs Htimes Hwords _].
  unfold record_identities in Hids. unfold record_digests in Hdigs.
  repeat match goal with H : Forall _ (_ :: _) |- _ => apply Forall_cons_1 in H as [? H] end.
  apply (typed_uint 64) in H1, H2, H6. apply (typed_uint 8) in H3. apply (typed_uint 32) in H4, H5.
  unfold record_tuple. unfold record_codec. apply typed_struct. unfold record_fields.
  repeat (apply fields_typed_cons; split; cbn [fst snd]); [assumption..|by apply fields_typed_nil].
Qed.

Lemma record_codec_plain : plain_type (c_type record_codec).
Proof. split; vm_compute; reflexivity. Qed.

Lemma record_codec_depth : (type_depth (c_type record_codec) <= 64)%nat.
Proof. vm_compute. lia. Qed.

Lemma record_back nil_grants r : (nil_grants = true -> a_Grants r = []) ->
  record_of_tuple (record_tuple nil_grants r) = r.
Proof. destruct r, nil_grants; cbn; intros H; [|done]. by rewrite (H eq_refl). Qed.

Lemma canonical_decodes nil_grants r bytes : approval_typed r -> (nil_grants = true -> a_Grants r = []) ->
  CanonicalRecord nil_grants r = Ok bytes -> DecodeRecord bytes = Ok r.
Proof.
  intros Ht Hnil H. unfold CanonicalRecord in H. apply seq_ok in H as [Hv H]. apply or_err_ok in H.
  pose proof (typed_record nil_grants r Ht Hv) as Hty. destruct record_codec_plain as [Hp _].
  unfold DecodeRecord.
  rewrite (canonical_struct_fixed _ Hp record_codec_depth _ _ Hty H), String.eqb_refl. cbn [negb deny_if mbind result_bind].
  unfold decode_text. rewrite (decode_canonical_struct _ Hp record_codec_depth _ _ Hty H).
  cbn [mbind option_bind]. rewrite c_of_to, (record_back _ _ Hnil). by rewrite Hv.
Qed.

Lemma typed_grants_inv (gs : slice Grant) : typed (slice_codec grant_codec) gs ->
  Forall (fun g => is_u64 (g_ActorRevision g) /\ is_u64 (g_EnrollmentRevision g)) (items gs).
Proof.
  destruct gs as [l|]; [|constructor]. intros H. apply typed_slice in H. eapply Forall_impl; [exact H|].
  intros [] Hg. unfold grant_codec in Hg. apply typed_struct in Hg.
  repeat (apply fields_typed_cons in Hg as [? Hg]; cbn [fst snd] in * ). cbn.
  split; by apply (typed_uint 64).
Qed.

Lemma decoded_record_typed x : typed record_codec x -> approval_typed (record_of_tuple x).
Proof.
  repeat match goal with x : _ * _ |- _ => destruct x end.
  match goal with x : () |- _ => destruct x end.
  unfold record_codec. intros H. apply typed_struct in H. unfold record_fields in H.
  repeat (apply fields_typed_cons in H as [? H]; cbn [fst snd] in H).
  unfold approval_typed. cbn [record_of_tuple a_RequestorRevision a_Revision a_RequiredGrantCount
    a_MaximumUseCount a_UseCount a_LastActorRevision a_Grants].
  split_and!; try (by apply (typed_uint 64)); try (by apply (typed_uint 32)); try (by apply (typed_uint 8)).
  match goal with H : typed (slice_codec _) _ |- _ => by apply typed_grants_inv in H end.
Qed.

Lemma decode_record_inv bytes r : DecodeRecord bytes = Ok r ->
  ValidateRecord r = Ok tt /\ approval_typed r /\ Canonicalize bytes = Ok bytes.
Proof.
  unfold DecodeRecord. intros H. destruct (Canonicalize bytes) as [c|]; [|done].
  apply seq_ok in H as [Heq H]. apply deny_if_ok, negb_false_iff, String.eqb_eq in Heq as <-.
  destruct (decode_text record_codec bytes) as [x|] eqn:Hx; [|done].
  apply seq_ok in H as [Hv [= <-]]. split_and!; [done| |done].
  apply decoded_record_typed. by eapply decode_text_typed; [apply record_codec_plain|].
Qed.

(** Approval records round trip: the canonical bytes of a record decode to the record, whether
    its empty list of grants was nil or not; and whatever the decoder accepts is a valid record
    whose counters fit their types, from bytes that are a fixed point of [Canonicalize]. *)
Theorem approval_round_trip nil_grants r bytes : approval_typed r -> (nil_grants = true -> a_Grants r = []) ->
  CanonicalRecord nil_grants r = Ok bytes ->
  DecodeRecord bytes = Ok r /\
  (forall input r', DecodeRecord input = Ok r' ->
     ValidateRecord r' = Ok tt /\ approval_typed r' /\ Canonicalize input = Ok input).
Proof. intros Ht Hnil H. split; [by eapply canonical_decodes|apply decode_record_inv]. Qed.

(** ** A worked example *)

Definition ax_bytes : string :=
  match CanonicalRecord false ax_granted with Ok bytes => bytes | Err _ => "" end.

Lemma approval_round_trip_witness : DecodeRecord ax_bytes = Ok ax_granted.
Proof.
  apply (approval_round_trip false ax_granted ax_bytes); [ax_typed_tac|done|vm_compute; reflexivity].
Defined.
