(* ===== verification/TamperAudit.v ===== *)
(** * internal/domain/tamperaudit: the tenant audit chain

    The bounded event, the record that links it into a hash chain and the checkpoint that
    signs a chain head ([types.go]), their validation ([validate.go]), their canonical
    text ([canonical.go]), and the construction and verification of records and
    checkpoints ([chain.go]).  [crypto/ed25519] is a parameter of the checkpoint
    operations. *)

From S2P Require Import Prelude GoStrings GoRegexp GoTime GoBase64 GoJson DomainContract Sha256 Domain GoStruct.

Local Open Scope string_scope.
Local Open Scope Z_scope.

(** ** errors.go *)

Inductive audit_error : Type := ErrInvalidInput | ErrUnsupportedVersion | ErrIntegrity.

(** ** types.go *)

Definition EventSchemaVersion : string := "coh.audit-event/v1".
Definition RecordSchemaVersion : string := "coh.audit-record/v1".
Definition CheckpointSchemaVersion : string := "coh.audit-checkpoint/v1".
Definition ContractVersion : string := "1.0.0".
Definition SignatureAlgorithm : string := "ed25519".
Definition RecordHashDomain : string := "COH-AUDIT-RECORD-V1" ++ String NUL "".
Definition CheckpointDomain : string := "COH-AUDIT-CHECKPOINT-V1" ++ String NUL "".
Definition GenesisHash : string :=
  "sha256:0000000000000000000000000000000000000000000000000000000000000000".
Definition CheckpointRecordLimit : Z := 10000.
Definition OrganizationAuditTenantID : string := "00000000-0000-7000-8000-000000000000".

(** [EvidenceDigests] is a slice: [None] is the nil slice, encoded as [null]. *)
Record Event : Type := mkEvent {
  e_SchemaVersion : string;
  e_ContractVersion : string;
  e_EventID : string;
  e_OrganizationID : string;
  e_TenantID : string;
  e_CaseID : string;
  e_ActorID : string;
  e_ActorRevision : Z;
  e_SourceSchema : string;
  e_Operation : string;
  e_Outcome : string;
  e_ReasonCode : string;
  e_SubjectID : string;
  e_SubjectRevision : Z;
  e_SubjectDigest : string;
  e_EvidenceDigests : option (list string);
  e_OccurredAt : string }.

Record AuditRecord : Type := mkAuditRecord {
  r_SchemaVersion : string;
  r_ContractVersion : string;
  r_OrganizationID : string;
  r_TenantID : string;
  r_Sequence : Z;
  r_Event : Event;
  r_EventDigest : string;
  r_PreviousChainHash : string;
  r_ChainHash : string;
  r_AppendedAt : string }.

Record Checkpoint : Type := mkCheckpoint {
  c_SchemaVersion : string;
  c_ContractVersion : string;
  c_CheckpointID : string;
  c_OrganizationID : string;
  c_TenantID : string;
  c_CoveredFromSequence : Z;
  c_Sequence : Z;
  c_RecordCount : Z;
  c_ChainHash : string;
  c_Reason : string;
  c_SigningKeyID : string;
  c_SigningKeyRevision : Z;
  c_SignatureAlgorithm : string;
  c_CreatedAt : string;
  c_Signature : string }.

Record Head : Type := mkHead {
  h_OrganizationID : string;
  h_TenantID : string;
  h_Sequence : Z;
  h_ChainHash : string;
  h_LastRecordAt : string;
  h_LastCheckpointSequence : Z;
  h_LastCheckpointAt : string }.

(** The unsigned fields hold 64-bit integers. *)
Definition event_typed (e : Event) : Prop := is_u64 (e_ActorRevision e) /\ is_u64 (e_SubjectRevision e).
Definition record_typed (r : AuditRecord) : Prop := is_u64 (r_Sequence r) /\ event_typed (r_Event r).
Definition checkpoint_typed (c : Checkpoint) : Prop :=
  is_u64 (c_CoveredFromSequence c) /\ is_u64 (c_Sequence c) /\ is_u64 (c_RecordCount c) /\
  is_u64 (c_SigningKeyRevision c).
Definition head_typed (h : Head) : Prop := is_u64 (h_Sequence h) /\ is_u64 (h_LastCheckpointSequence h).

(** *** The struct tags *)

Definition event_type : gtype := TStruct [
  ("schema_version", false, TString); ("contract_version", false, TString);
  ("event_id", false, TString); ("organization_id", false, TString);
  ("tenant_id", false, TString); ("case_id", true, TString); ("actor_id", true, TString);
  ("actor_revision", true, TUint 64); ("source_schema", false, TString);
  ("operation", false, TString); ("outcome", false, TString); ("reason_code", false, TString);
  ("subject_id", true, TString); ("subject_revision", true, TUint 64);
  ("subject_digest", true, TString); ("evidence_digests", false, TSlice TString);
  ("occurred_at", true, TString)].

Definition event_val (e : Event) : gval := VStruct [
  VStr (e_SchemaVersion e); VStr (e_ContractVersion e); VStr (e_EventID e);
  VStr (e_OrganizationID e); VStr (e_TenantID e); VStr (e_CaseID e); VStr (e_ActorID e);
  VUint (e_ActorRevision e); VStr (e_SourceSchema e); VStr (e_Operation e); VStr (e_Outcome e);
  VStr (e_ReasonCode e); VStr (e_SubjectID e); VUint (e_SubjectRevision e);
  VStr (e_SubjectDigest e); VSlice (map VStr <$> e_EvidenceDigests e); VStr (e_OccurredAt e)].

Definition record_type : gtype := TStruct [
  ("schema_version", false, TString); ("contract_version", false, TString);
  ("organization_id", false, TString); ("tenant_id", false, TString);
  ("sequence", false, TUint 64); ("event", false, event_type); ("event_digest", false, TString);
  ("previous_chain_hash", false, TString); ("chain_hash", false, TString);
  ("appended_at", false, TString)].

Definition record_val (r : AuditRecord) : gval := VStruct [
  VStr (r_SchemaVersion r); VStr (r_ContractVersion r); VStr (r_OrganizationID r);
  VStr (r_TenantID r); VUint (r_Sequence r); event_val (r_Event r); VStr (r_EventDigest r);
  VStr (r_PreviousChainHash r); VStr (r_ChainHash r); VStr (r_AppendedAt r)].

Definition checkpoint_type : gtype := TStruct [
  ("schema_version", false, TString); ("contract_version", false, TString);
  ("checkpoint_id", false, TString); ("organization_id", false, TString);
  ("tenant_id", false, TString); ("covered_from_sequence", false, TUint 64);
  ("sequence", false, TUint 64); ("record_count", false, TUint 64); ("chain_hash", false, TString);
  ("reason", false, TString); ("signing_key_id", false, TString);
  ("signing_key_revision", false, TUint 64); ("signature_algorithm", false, TString);
  ("created_at", false, TString); ("signature", false, TString)].

Definition checkpoint_val (c : Checkpoint) : gval := VStruct [
  VStr (c_SchemaVersion c); VStr (c_ContractVersion c); VStr (c_CheckpointID c);
  VStr (c_OrganizationID c); VStr (c_TenantID c); VUint (c_CoveredFromSequence c);
  VUint (c_Sequence c); VUint (c_RecordCount c); VStr (c_ChainHash c); VStr (c_Reason c);
  VStr (c_SigningKeyID c); VUint (c_SigningKeyRevision c); VStr (c_SignatureAlgorithm c);
  VStr (c_CreatedAt c); VStr (c_Signature c)].

(** The struct a decoded value fills in *)
Definition strings_of (l : list gval) : list string :=
  map (fun v => match v with VStr s => s | _ => "" end) l.

Definition event_of_val (v : gval) : option Event :=
  match v with
  | VStruct [VStr a; VStr b; VStr c; VStr d; VStr e; VStr f; VStr g; VUint h; VStr i; VStr j;
             VStr k; VStr l; VStr m; VUint n; VStr o; VSlice p; VStr q] =>
      Some (mkEvent a b c d e f g h i j k l m n o (strings_of <$> p) q)
  | _ => None
  end.

Definition record_of_val (v : gval) : option AuditRecord :=
  match v with
  | VStruct [VStr a; VStr b; VStr c; VStr d; VUint e; f; VStr g; VStr h; VStr i; VStr j] =>
      event ← event_of_val f; Some (mkAuditRecord a b c d e event g h i j)
  | _ => None
  end.

Definition checkpoint_of_val (v : gval) : option Checkpoint :=
  match v with
  | VStruct [VStr a; VStr b; VStr c; VStr d; VStr e; VUint f; VUint g; VUint h; VStr i; VStr j;
             VStr k; VUint l; VStr m; VStr n; VStr o] =>
      Some (mkCheckpoint a b c d e f g h i j k l m n o)
  | _ => None
  end.

(** ** validate.go *)

Definition schema_char (c : ascii) : bool := is_lower c || is_digit c || Ascii.eqb c "." || Ascii.eqb c "-".

(** [^coh\.[a-z][a-z0-9.-]*/v[1-9][0-9]*$] *)
Definition schema_regex : regex :=
  r_seq [r_lit "coh."; lower_class; RStar (RChr schema_char); r_lit "/v"; RChr (byte_in 49 57);
         RStar digit_class].
Definition schemaPattern (s : string) : bool := matches schema_regex s.

Definition parseTime (value : string) : result audit_error Time :=
  match parse_timestamp value with Some t => Ok t | None => Err ErrInvalidInput end.

Fixpoint hasDuplicate (values : list string) : bool :=
  match values with
  | a :: ((b :: _) as values') => String.eqb b a || hasDuplicate values'
  | _ => false
  end.

Definition eventIdentity (value : string) : bool := uuidPattern value || digestPattern value.

Definition optional (pattern : string -> bool) (value : string) : bool :=
  String.eqb value "" || pattern value.

Definition ValidateEvent (event : Event) : result audit_error unit :=
  let evidence := default [] (e_EvidenceDigests event) in
  deny_if (negb (String.eqb (e_SchemaVersion event) EventSchemaVersion) ||
           negb (String.eqb (e_ContractVersion event) ContractVersion)) ErrUnsupportedVersion ;;
  deny_if (negb (eventIdentity (e_EventID event)) || negb (uuidPattern (e_OrganizationID event)) ||
           negb (uuidPattern (e_TenantID event))) ErrInvalidInput ;;
  for_each (fun value => deny_if (negb (optional uuidPattern value)) ErrInvalidInput)
    [e_CaseID event; e_ActorID event; e_SubjectID event] ;;
  deny_if ((String.eqb (e_ActorID event) "" && negb (e_ActorRevision event =? 0)) ||
           (negb (String.eqb (e_ActorID event) "") && (e_ActorRevision event =? 0)) ||
           (String.eqb (e_SubjectID event) "" && negb (e_SubjectRevision event =? 0))) ErrInvalidInput ;;
  deny_if (negb (schemaPattern (e_SourceSchema event)) || negb (tokenPattern (e_Operation event)) ||
           negb (tokenPattern (e_Outcome event)) || negb (tokenPattern (e_ReasonCode event)))
    ErrInvalidInput ;;
  deny_if ((negb (String.eqb (e_SubjectDigest event) "") && negb (digestPattern (e_SubjectDigest event))) ||
           (32 <? Z.of_nat (length evidence))) ErrInvalidInput ;;
  deny_if (negb (is_sorted evidence) || hasDuplicate evidence) ErrInvalidInput ;;
  for_each (fun digest => deny_if (negb (digestPattern digest)) ErrInvalidInput) evidence ;;
  if String.eqb (e_OccurredAt event) "" then Ok tt
  else parseTime (e_OccurredAt event) ;; Ok tt.

(** [UUIDv7Time]: the first twelve hexadecimal digits are Unix milliseconds. *)
Fixpoint hex_number (acc : Z) (s : string) : option Z :=
  match s with
  | EmptyString => Some acc
  | String c s' =>
      if Ascii.eqb c "-" then hex_number acc s'
      else v ← hex_val c; hex_number (acc * 16 + v) s'
  end.

Definition unix_epoch : Z := days_of_date 1970 1 1 * nanos_per_day.

Definition UUIDv7Time (value : string) : result audit_error string :=
  deny_if (negb (uuidPattern value)) ErrInvalidInput ;;
  match hex_number 0 (String.substring 0 13 value) with
  | Some millis => Ok (format_timestamp (mkTime (unix_epoch + millis * 1000000) true))
  | None => Err ErrInvalidInput
  end.

Definition ValidateRecord (record : AuditRecord) : result audit_error unit :=
  let event := r_Event record in
  deny_if (negb (String.eqb (r_SchemaVersion record) RecordSchemaVersion) ||
           negb (String.eqb (r_ContractVersion record) ContractVersion)) ErrUnsupportedVersion ;;
  deny_if ((r_Sequence record =? 0) || negb (String.eqb (r_OrganizationID record) (e_OrganizationID event)) ||
           negb (String.eqb (r_TenantID record) (e_TenantID event)) ||
           negb (digestPattern (r_EventDigest record)) || negb (digestPattern (r_PreviousChainHash record)) ||
           negb (digestPattern (r_ChainHash record))) ErrInvalidInput ;;
  ValidateEvent event ;;
  appendedAt ← parseTime (r_AppendedAt record);
  if String.eqb (e_OccurredAt event) "" then Ok tt
  else
    let occurredAt := default zero_time (parse_timestamp (e_OccurredAt event)) in
    deny_if (before appendedAt occurredAt) ErrInvalidInput.

Definition ValidateCheckpoint (checkpoint : Checkpoint) : result audit_error unit :=
  deny_if (negb (String.eqb (c_SchemaVersion checkpoint) CheckpointSchemaVersion) ||
           negb (String.eqb (c_ContractVersion checkpoint) ContractVersion)) ErrUnsupportedVersion ;;
  deny_if (negb (uuidPattern (c_CheckpointID checkpoint)) || negb (uuidPattern (c_OrganizationID checkpoint)) ||
           negb (uuidPattern (c_TenantID checkpoint)) || (c_CoveredFromSequence checkpoint =? 0) ||
           (c_Sequence checkpoint <? c_CoveredFromSequence checkpoint) ||
           negb (c_RecordCount checkpoint =?
                 u64 (u64 (c_Sequence checkpoint - c_CoveredFromSequence checkpoint) + 1)) ||
           (CheckpointRecordLimit <? c_RecordCount checkpoint) ||
           negb (digestPattern (c_ChainHash checkpoint))) ErrInvalidInput ;;
  deny_if (negb (String.eqb (c_Reason checkpoint) "daily") &&
           negb (String.eqb (c_Reason checkpoint) "record_limit") &&
           negb (String.eqb (c_Reason checkpoint) "manual_final")) ErrInvalidInput ;;
  deny_if (negb (tokenPattern (c_SigningKeyID checkpoint)) || (c_SigningKeyRevision checkpoint =? 0) ||
           negb (String.eqb (c_SignatureAlgorithm checkpoint) SignatureAlgorithm)) ErrInvalidInput ;;
  parseTime (c_CreatedAt checkpoint) ;;
  match base64_decode (c_Signature checkpoint) with
  | Some signature =>
      deny_if (negb (len signature =? 64) || contains_any (c_Signature checkpoint) ["="%char]) ErrInvalidInput
  | None => Err ErrInvalidInput
  end.

(** ** canonical.go *)

(** [json.Marshal] cannot fail on these structs. *)
Definition canonical (t : gtype) (v : gval) : result audit_error string :=
  or_err (canonical_struct t v) ErrInvalidInput.

Definition CanonicalEvent (event : Event) : result audit_error string :=
  ValidateEvent event ;; canonical event_type (event_val event).

Definition CanonicalRecord (record : AuditRecord) : result audit_error string :=
  ValidateRecord record ;; canonical record_type (record_val record).

Definition CanonicalCheckpoint (checkpoint : Checkpoint) : result audit_error string :=
  ValidateCheckpoint checkpoint ;; canonical checkpoint_type (checkpoint_val checkpoint).

(** The common start of the two decoders: [input] is its own canonical form *)
Definition is_canonical (input : string) : bool :=
  match Canonicalize input with
  | Ok canonicalBytes => String.eqb input canonicalBytes
  | Err _ => false
  end.

Definition DecodeRecord (input : string) : result audit_error AuditRecord :=
  deny_if (negb (is_canonical input)) ErrInvalidInput ;;
  match v ← decode_struct_text record_type input; record_of_val v with
  | Some record => deny_if (negb (is_ok (ValidateRecord record))) ErrInvalidInput ;; Ok record
  | None => Err ErrInvalidInput
  end.

Definition DecodeCheckpoint (input : string) : result audit_error Checkpoint :=
  deny_if (negb (is_canonical input)) ErrInvalidInput ;;
  match v ← decode_struct_text checkpoint_type input; checkpoint_of_val v with
  | Some checkpoint => deny_if (negb (is_ok (ValidateCheckpoint checkpoint))) ErrInvalidInput ;; Ok checkpoint
  | None => Err ErrInvalidInput
  end.

(** ** chain.go *)

Definition domainMessage (domain canonicalBytes : string) : string :=
  domain ++ string_of_bytes (be_bytes 8 (len canonicalBytes)) ++ canonicalBytes.

Definition set_ChainHash (r : AuditRecord) (hash : string) : AuditRecord :=
  mkAuditRecord (r_SchemaVersion r) (r_ContractVersion r) (r_OrganizationID r) (r_TenantID r)
    (r_Sequence r) (r_Event r) (r_EventDigest r) (r_PreviousChainHash r) hash (r_AppendedAt r).

Definition recordPreimage (record : AuditRecord) : result audit_error string :=
  CanonicalRecord (set_ChainHash record GenesisHash).

Definition BuildRecord (event : Event) (sequence : Z) (previousHash appendedAt : string)
  : result audit_error AuditRecord :=
  eventBytes ← or_err (CanonicalEvent event) ErrInvalidInput;
  deny_if ((sequence =? 0) || negb (digestPattern previousHash)) ErrInvalidInput ;;
  let record := mkAuditRecord RecordSchemaVersion ContractVersion (e_OrganizationID event)
    (e_TenantID event) sequence event (digest eventBytes) previousHash GenesisHash appendedAt in
  ValidateRecord record ;;
  preimage ← recordPreimage record;
  let record := set_ChainHash record (digest (domainMessage RecordHashDomain preimage)) in
  ValidateRecord record ;; Ok record.

Definition VerifyRecord (record : AuditRecord) (expectedSequence : Z) (expectedPreviousHash : string)
  : result audit_error unit :=
  deny_if (negb (is_ok (ValidateRecord record)) || negb (r_Sequence record =? expectedSequence) ||
           negb (String.eqb (r_PreviousChainHash record) expectedPreviousHash)) ErrIntegrity ;;
  eventBytes ← or_err (CanonicalEvent (r_Event record)) ErrIntegrity;
  deny_if (negb (String.eqb (r_EventDigest record) (digest eventBytes))) ErrIntegrity ;;
  preimage ← or_err (recordPreimage record) ErrIntegrity;
  deny_if (negb (String.eqb (r_ChainHash record) (digest (domainMessage RecordHashDomain preimage))))
    ErrIntegrity.

Definition set_Signature (c : Checkpoint) (signature : string) : Checkpoint :=
  mkCheckpoint (c_SchemaVersion c) (c_ContractVersion c) (c_CheckpointID c) (c_OrganizationID c)
    (c_TenantID c) (c_CoveredFromSequence c) (c_Sequence c) (c_RecordCount c) (c_ChainHash c)
    (c_Reason c) (c_SigningKeyID c) (c_SigningKeyRevision c) (c_SignatureAlgorithm c)
    (c_CreatedAt c) signature.

(** [make([]byte, n)] *)
Fixpoint zero_bytes (n : nat) : string :=
  match n with O => "" | S n' => String NUL (zero_bytes n') end.

Definition blank_signature : string := base64_encode (zero_bytes 64).

Definition checkpointMessage (checkpoint : Checkpoint) : result audit_error string :=
  canonicalBytes ← CanonicalCheckpoint (set_Signature checkpoint blank_signature);
  Ok (domainMessage CheckpointDomain canonicalBytes).

Section signatures.
(** [ed25519.Sign(privateKey, message)] and [ed25519.Verify(publicKey, message, signature)] *)
Variable ed25519_Sign : string -> string -> string.
Variable ed25519_Verify : string -> string -> string -> bool.

Definition SignCheckpoint (checkpoint : Checkpoint) (privateKey : string) : result audit_error Checkpoint :=
  let checkpoint := set_Signature checkpoint blank_signature in
  deny_if (negb (len privateKey =? 64) || negb (is_ok (ValidateCheckpoint checkpoint))) ErrInvalidInput ;;
  message ← checkpointMessage checkpoint;
  Ok (set_Signature checkpoint (base64_encode (ed25519_Sign privateKey message))).

Definition VerifyCheckpoint (checkpoint : Checkpoint) (publicKey : string) : result audit_error unit :=
  deny_if (negb (len publicKey =? 32) || negb (is_ok (ValidateCheckpoint checkpoint))) ErrIntegrity ;;
  let signature := default "" (base64_decode (c_Signature checkpoint)) in
  message ← or_err (checkpointMessage checkpoint) ErrIntegrity;
  deny_if (negb (ed25519_Verify publicKey message signature)) ErrIntegrity.
End signatures.
