(* ===== verification/TamperAuditFacts.v ===== *)
(** * What the audit chain guarantees

    Validated events, records and checkpoints are well-typed Go values, so their canonical
    text is injective and decodes back.  From that: a built record verifies, a record is
    determined by its chain hash and a checkpoint by its signed message (or SHA-256 has a
    collision), and a signed checkpoint verifies. *)

From S2P Require Import Prelude GoStrings GoRegexp GoTime GoBase64 GoJson DomainContract Sha256 Domain GoStruct TamperAudit.

Local Open Scope string_scope.
Local Open Scope Z_scope.

(** ** The struct types *)

Lemma event_type_ok : type_ok event_type = true.
Proof. vm_compute. reflexivity. Qed.
Lemma record_type_ok : type_ok record_type = true.
Proof. vm_compute. reflexivity. Qed.
Lemma checkpoint_type_ok : type_ok checkpoint_type = true.
Proof. vm_compute. reflexivity. Qed.

Lemma event_of_val_inv e : event_of_val (event_val e) = Some e.
Proof.
  destruct e as [? ? ? ? ? ? ? ? ? ? ? ? ? ? ? [l|] ?]; [|done]. cbn. do 3 f_equal.
  unfold strings_of. rewrite map_map. apply map_id.
Qed.

Lemma record_of_val_inv r : record_of_val (record_val r) = Some r.
Proof.
  destruct r as [a b c d e ev g h i j]. unfold record_of_val, record_val.
  cbn [r_SchemaVersion r_ContractVersion r_OrganizationID r_TenantID r_Sequence r_Event r_EventDigest
       r_PreviousChainHash r_ChainHash r_AppendedAt].
  by rewrite event_of_val_inv.
Qed.

Lemma checkpoint_of_val_inv c : checkpoint_of_val (checkpoint_val c) = Some c.
Proof. by destruct c. Qed.

(** ** Validated values are well-typed *)

Lemma schema_ascii s : schemaPattern s = true -> valid_string s = true.
Proof.
  intros H. apply ascii_valid. refine (matches_alphabet _ schema_regex _ _ H). vm_compute. reflexivity.
Qed.

Lemma optional_valid p s : (forall s, p s = true -> valid_string s = true) ->
  optional p s = true -> valid_string s = true.
Proof. unfold optional. intros Hp [->%String.eqb_eq|H%Hp]%orb_true_iff; done. Qed.

Lemma parseTime_ok s t : parseTime s = Ok t <-> parse_timestamp s = Some t.
Proof. unfold parseTime. destruct (parse_timestamp s); naive_solver. Qed.

Lemma parseTime_valid s t : parseTime s = Ok t -> valid_string s = true.
Proof. rewrite parseTime_ok. apply parse_timestamp_valid. Qed.

Lemma eventIdentity_valid s : eventIdentity s = true -> valid_string s = true.
Proof. unfold eventIdentity. intros [H|H]%orb_true_iff; [by apply uuid_ascii | by apply digest_ascii]. Qed.

(** What a validated event satisfies *)
Record event_valid (e : Event) : Prop := {
  ev_schema : e_SchemaVersion e = EventSchemaVersion;
  ev_contract : e_ContractVersion e = ContractVersion;
  ev_id : eventIdentity (e_EventID e) = true;
  ev_org : uuidPattern (e_OrganizationID e) = true;
  ev_tenant : uuidPattern (e_TenantID e) = true;
  ev_case : optional uuidPattern (e_CaseID e) = true;
  ev_actor : optional uuidPattern (e_ActorID e) = true;
  ev_subject : optional uuidPattern (e_SubjectID e) = true;
  ev_source : schemaPattern (e_SourceSchema e) = true;
  ev_operation : tokenPattern (e_Operation e) = true;
  ev_outcome : tokenPattern (e_Outcome e) = true;
  ev_reason : tokenPattern (e_ReasonCode e) = true;
  ev_subject_digest : optional digestPattern (e_SubjectDigest e) = true;
  ev_evidence : Forall (fun d => digestPattern d = true) (default [] (e_EvidenceDigests e));
  ev_occurred : e_OccurredAt e = "" \/ is_Some (parse_timestamp (e_OccurredAt e)) }.

Lemma deny_unless_ok {E} b (e : E) : deny_if (negb b) e = Ok tt <-> b = true.
Proof. by destruct b. Qed.

Lemma ValidateEvent_ok e : ValidateEvent e = Ok tt -> event_valid e.
Proof.
  unfold ValidateEvent. rewrite !seq_ok, !deny_if_ok, !for_each_ok, !Forall_cons.
  intros (H1 & H2 & (H3 & H4 & H5 & _) & _ & H6 & H7 & _ & H8 & H9).
  rewrite deny_unless_ok in H3, H4, H5. bool_split.
  rewrite ?String.eqb_eq in *.
  split; try done.
  - unfold optional. destruct (String.eqb (e_SubjectDigest e) ""); [done|]. cbn in *.
    by match goal with H : negb (digestPattern _) = false |- _ => apply negb_false_iff in H end.
  - eapply Forall_impl; [exact H8|]. cbn. intros d. by rewrite deny_unless_ok.
  - destruct (String.eqb_spec (e_OccurredAt e) "") as [->|]; [by left|right].
    unfold parseTime in H9. by destruct (parse_timestamp (e_OccurredAt e)).
Qed.

Lemma occurred_valid e : event_valid e -> valid_string (e_OccurredAt e) = true.
Proof. intros [ ]. destruct ev_occurred0 as [->|[t Ht]]; [done|]. by eapply parse_timestamp_valid. Qed.

Create HintDb audit.
#[export] Hint Resolve uuid_ascii digest_ascii token_ascii schema_ascii eventIdentity_valid optional_valid
  parse_timestamp_valid base64_ascii base64_encode_ascii : audit.

(** A string field whose contents are valid UTF-8 *)
Lemma val_ok_str s : valid_string s = true -> val_ok TString (VStr s) = true.
Proof. done. Qed.

Lemma val_ok_u64 n : is_u64 n -> val_ok (TUint 64) (VUint n) = true.
Proof. apply val_ok_uint. Qed.
#[export] Hint Resolve val_ok_str val_ok_u64 : audit.
#[export] Hint Opaque is_u64 val_ok valid_string : audit.

Lemma event_val_ok e : event_valid e -> event_typed e -> val_ok event_type (event_val e) = true.
Proof.
  intros Hv [Ha Hs]. pose proof (occurred_valid e Hv) as Ho. destruct Hv.
  unfold event_type, event_val. rewrite val_ok_struct.
  val_ok_fields; rewrite ?ev_schema0, ?ev_contract0; eauto with audit.
  destruct (e_EvidenceDigests e) as [l|]; [|done]. cbn in *. apply forallb_forall.
  intros v Hv%in_map_iff. destruct Hv as (d & <- & Hd%list_elem_of_In).
  rewrite Forall_forall in ev_evidence0. by apply digest_ascii, ev_evidence0.
Qed.

(** What a validated record satisfies *)
Record record_valid (r : AuditRecord) : Prop := {
  rv_schema : r_SchemaVersion r = RecordSchemaVersion;
  rv_contract : r_ContractVersion r = ContractVersion;
  rv_sequence : r_Sequence r <> 0;
  rv_org : r_OrganizationID r = e_OrganizationID (r_Event r);
  rv_tenant : r_TenantID r = e_TenantID (r_Event r);
  rv_digest : digestPattern (r_EventDigest r) = true;
  rv_previous : digestPattern (r_PreviousChainHash r) = true;
  rv_hash : digestPattern (r_ChainHash r) = true;
  rv_event : ValidateEvent (r_Event r) = Ok tt;
  rv_appended : exists t, parse_timestamp (r_AppendedAt r) = Some t /\
    (e_OccurredAt (r_Event r) = "" \/
     exists u, parse_timestamp (e_OccurredAt (r_Event r)) = Some u /\ nanos u <= nanos t) }.

Lemma ValidateRecord_ok r : ValidateRecord r = Ok tt <-> record_valid r.
Proof.
  unfold ValidateRecord. rewrite !seq_ok, !deny_if_ok. split.
  - intros (H1 & H2 & H3 & H4). apply bind_ok in H4 as (t & Ht%parseTime_ok & H4).
    bool_split. rewrite ?String.eqb_eq, ?Z.eqb_neq in *. split; try done. exists t. split; [done|].
    destruct (ev_occurred _ (ValidateEvent_ok _ H3)) as [->|[u Hu]]; [by left|right]. exists u.
    rewrite Hu in H4. cbn in H4. split; [done|].
    destruct (String.eqb_spec (e_OccurredAt (r_Event r)) "") as [E|]; [by rewrite E in Hu|].
    apply deny_if_ok in H4. unfold before in H4. lia.
  - intros [-> -> Hseq -> -> Hd Hp Hh Hev (t & Ht & Ho)].
    rewrite !String.eqb_refl, Hd, Hp, Hh, Hev. apply Z.eqb_neq in Hseq. rewrite Hseq.
    split_and!; try done. apply bind_ok. exists t. rewrite parseTime_ok. split; [done|].
    destruct Ho as [->|(u & Hu & Hle)]; [done|]. rewrite Hu. cbn.
    destruct (String.eqb _ _); [done|]. apply deny_if_ok. unfold before. lia.
Qed.

Lemma record_val_ok r : record_valid r -> record_typed r -> val_ok record_type (record_val r) = true.
Proof.
  intros [] [Hs Hev]. pose proof (ValidateEvent_ok _ rv_event0) as Hv.
  destruct rv_appended0 as (t & Ht & _). destruct (Hv).
  unfold record_type, record_val. rewrite val_ok_struct.
  val_ok_fields; rewrite ?rv_schema0, ?rv_contract0, ?rv_org0, ?rv_tenant0; eauto with audit.
  by apply event_val_ok.
Qed.

(** What a validated checkpoint satisfies *)
Record checkpoint_valid (c : Checkpoint) : Prop := {
  cv_schema : c_SchemaVersion c = CheckpointSchemaVersion;
  cv_contract : c_ContractVersion c = ContractVersion;
  cv_id : uuidPattern (c_CheckpointID c) = true;
  cv_org : uuidPattern (c_OrganizationID c) = true;
  cv_tenant : uuidPattern (c_TenantID c) = true;
  cv_from : c_CoveredFromSequence c <> 0;
  cv_sequence : c_CoveredFromSequence c <= c_Sequence c;
  cv_count : c_RecordCount c = u64 (u64 (c_Sequence c - c_CoveredFromSequence c) + 1);
  cv_limit : c_RecordCount c <= CheckpointRecordLimit;
  cv_hash : digestPattern (c_ChainHash c) = true;
  cv_reason : c_Reason c = "daily" \/ c_Reason c = "record_limit" \/ c_Reason c = "manual_final";
  cv_key : tokenPattern (c_SigningKeyID c) = true;
  cv_revision : c_SigningKeyRevision c <> 0;
  cv_algorithm : c_SignatureAlgorithm c = SignatureAlgorithm;
  cv_created : is_Some (parse_timestamp (c_CreatedAt c));
  cv_signature : exists s, base64_decode (c_Signature c) = Some s /\ len s = 64 }.

Lemma ValidateCheckpoint_ok c : ValidateCheckpoint c = Ok tt <-> checkpoint_valid c.
Proof.
  unfold ValidateCheckpoint. rewrite !seq_ok, !deny_if_ok. split.
  - intros (H1 & H2 & H3 & H4 & H5). apply bind_ok in H5 as (t & Ht%parseTime_ok & H5).
    destruct (base64_decode (c_Signature c)) as [s|] eqn:Es; [|done]. apply deny_if_ok in H5.
    bool_split. rewrite ?String.eqb_eq, ?Z.eqb_neq, ?Z.eqb_eq, ?Z.ltb_ge in *. split; try done; [|by exists s].
    destruct (String.eqb_spec (c_Reason c) "daily"); [by left|].
    destruct (String.eqb_spec (c_Reason c) "record_limit"); [by right; left|].
    destruct (String.eqb_spec (c_Reason c) "manual_final"); [by right; right|done].
  - intros [-> -> Hid Ho Ht Hf Hs Hc Hl Hh Hr Hk Hrev -> [t Hcr] (s & Hsig & Hlen)].
    rewrite !String.eqb_refl, Hid, Ho, Ht, <- Hc, Hh, Hk, Z.eqb_refl, Hsig, Hlen.
    rewrite (base64_no_padding _ _ Hsig). apply Z.eqb_neq in Hf, Hrev. rewrite Hf, Hrev.
    apply Z.ltb_ge in Hs, Hl. rewrite Hs, Hl. split_and!; try done.
    + by destruct Hr as [->|[->| ->]].
    + apply bind_ok. exists t. by rewrite parseTime_ok.
Qed.

Lemma checkpoint_val_ok c : checkpoint_valid c -> checkpoint_typed c -> val_ok checkpoint_type (checkpoint_val c) = true.
Proof.
  intros [] (H1 & H2 & H3 & H4). destruct cv_created0 as [t Ht], cv_signature0 as (s & Hsig & _).
  unfold checkpoint_type, checkpoint_val. rewrite val_ok_struct.
  val_ok_fields; rewrite ?cv_schema0, ?cv_contract0, ?cv_algorithm0; eauto with audit.
  by destruct cv_reason0 as [->|[->| ->]].
Qed.

(** ** Canonical text *)

Lemma canonical_ok t v c : canonical t v = Ok c <-> canonical_struct t v = Ok c.
Proof. apply or_err_ok. Qed.

Lemma depth_64 t : (type_depth t <=? 64)%nat = true -> (type_depth t <= 64)%nat.
Proof. apply Nat.leb_le. Qed.

Lemma canonical_text t v c : type_ok t = true -> (type_depth t <=? 64)%nat = true -> val_ok t v = true ->
  canonical t v = Ok c -> is_canonical c = true /\ decode_struct_text t c = Some v.
Proof.
  intros Ht Hd%depth_64 Hv Hc%canonical_ok. unfold is_canonical.
  rewrite (canonical_struct_fixed t Ht Hd v c Hv Hc), String.eqb_refl. split; [done|].
  by apply (decode_canonical_struct t Ht Hd).
Qed.

Lemma canonical_record_valid r c : CanonicalRecord r = Ok c -> record_valid r /\ canonical record_type (record_val r) = Ok c.
Proof. unfold CanonicalRecord. by rewrite seq_ok, ValidateRecord_ok. Qed.

Lemma canonical_event_valid e c : CanonicalEvent e = Ok c -> event_valid e /\ canonical event_type (event_val e) = Ok c.
Proof. unfold CanonicalEvent. rewrite seq_ok. intros [? ?]. split; [by apply ValidateEvent_ok|done]. Qed.

Lemma canonical_checkpoint_valid k c : CanonicalCheckpoint k = Ok c ->
  checkpoint_valid k /\ canonical checkpoint_type (checkpoint_val k) = Ok c.
Proof. unfold CanonicalCheckpoint. by rewrite seq_ok, ValidateCheckpoint_ok. Qed.

Lemma canonical_record_inj r s c : record_typed r -> record_typed s ->
  CanonicalRecord r = Ok c -> CanonicalRecord s = Ok c -> r = s.
Proof.
  intros Hr Hs [Vr Cr]%canonical_record_valid [Vs Cs]%canonical_record_valid.
  rewrite canonical_ok in Cr, Cs.
  pose proof (canonical_struct_inj record_type record_type_ok (depth_64 record_type eq_refl) _ _ _
    (record_val_ok r Vr Hr) (record_val_ok s Vs Hs) Cr Cs) as Heq.
  apply (f_equal record_of_val) in Heq. rewrite !record_of_val_inv in Heq. congruence.
Qed.

Lemma canonical_checkpoint_inj r s c : checkpoint_typed r -> checkpoint_typed s ->
  CanonicalCheckpoint r = Ok c -> CanonicalCheckpoint s = Ok c -> r = s.
Proof.
  intros Hr Hs [Vr Cr]%canonical_checkpoint_valid [Vs Cs]%canonical_checkpoint_valid.
  rewrite canonical_ok in Cr, Cs.
  pose proof (canonical_struct_inj checkpoint_type checkpoint_type_ok (depth_64 checkpoint_type eq_refl) _ _ _
    (checkpoint_val_ok r Vr Hr) (checkpoint_val_ok s Vs Hs) Cr Cs) as Heq.
  apply (f_equal checkpoint_of_val) in Heq. rewrite !checkpoint_of_val_inv in Heq. congruence.
Qed.

Lemma decode_record_canonical r c : record_typed r -> CanonicalRecord r = Ok c -> DecodeRecord c = Ok r.
Proof.
  intros Hr [V C]%canonical_record_valid.
  destruct (canonical_text _ _ _ record_type_ok eq_refl (record_val_ok r V Hr) C) as [Hcan Hdec].
  unfold DecodeRecord. rewrite Hcan, Hdec. cbn [negb deny_if mbind result_bind option_bind].
  rewrite record_of_val_inv. apply ValidateRecord_ok in V. by rewrite V.
Qed.

Lemma decode_checkpoint_canonical k c : checkpoint_typed k -> CanonicalCheckpoint k = Ok c -> DecodeCheckpoint c = Ok k.
Proof.
  intros Hr [V C]%canonical_checkpoint_valid.
  destruct (canonical_text _ _ _ checkpoint_type_ok eq_refl (checkpoint_val_ok k V Hr) C) as [Hcan Hdec].
  unfold DecodeCheckpoint. rewrite Hcan, Hdec. cbn [negb deny_if mbind result_bind option_bind].
  rewrite checkpoint_of_val_inv. apply ValidateCheckpoint_ok in V. by rewrite V.
Qed.

(** ** Records *)

Lemma length_domain_prefix domain c :
  String.length (domain ++ string_of_bytes (be_bytes 8 (len c))) = (String.length domain + 8)%nat.
Proof. by rewrite length_append, length_string_of_bytes, length_be_bytes. Qed.


Lemma domainMessage_inj domain c d : domainMessage domain c = domainMessage domain d -> c = d.
Proof.
  unfold domainMessage. rewrite <- !append_assoc. intros H. apply append_inj_len in H; [tauto|]. by rewrite !length_domain_prefix.
Qed.

Lemma genesis_pattern : digestPattern GenesisHash = true.
Proof. vm_compute. reflexivity. Qed.

Lemma set_ChainHash_idem r h h' : set_ChainHash (set_ChainHash r h) h' = set_ChainHash r h'.
Proof. done. Qed.

Lemma set_ChainHash_valid r h : digestPattern h = true -> record_valid r -> record_valid (set_ChainHash r h).
Proof. by intros Hh []; split. Qed.

Lemma set_ChainHash_typed r h : record_typed r -> record_typed (set_ChainHash r h).
Proof. done. Qed.

(** What [VerifyRecord] establishes *)
Record record_verified (r : AuditRecord) (sequence : Z) (previous : string) : Prop := {
  vr_valid : record_valid r;
  vr_sequence : r_Sequence r = sequence;
  vr_previous : r_PreviousChainHash r = previous;
  vr_event : exists bytes, CanonicalEvent (r_Event r) = Ok bytes /\ r_EventDigest r = digest bytes;
  vr_hash : exists preimage, recordPreimage r = Ok preimage /\
    r_ChainHash r = digest (domainMessage RecordHashDomain preimage) }.

Lemma VerifyRecord_ok r sequence previous :
  VerifyRecord r sequence previous = Ok tt <-> record_verified r sequence previous.
Proof.
  unfold VerifyRecord. rewrite seq_ok, deny_if_ok. split.
  - intros (H1 & H2). apply bind_ok in H2 as (b & Hb%or_err_ok & H2). apply seq_ok in H2 as [H2 H3].
    apply bind_ok in H3 as (p & Hp%or_err_ok & H3). apply deny_if_ok in H2, H3. bool_split.
    rewrite ?String.eqb_eq, ?Z.eqb_eq in *.
    match goal with H : is_ok _ = true |- _ => apply is_ok_true in H as [[] H] end.
    split; try done; [by apply ValidateRecord_ok | by exists b | by exists p].
  - intros [V%ValidateRecord_ok Hs Hp (b & Hb & Hd) (p & Hpre & Hh)].
    rewrite V, Hs, Hp, Hb, Hpre, Z.eqb_refl, !String.eqb_refl. split; [done|].
    cbn [or_err]. apply bind_ok. exists b. split; [done|].
    apply seq_ok. split; [by rewrite Hd, String.eqb_refl|].
    apply bind_ok. exists p. split; [done|]. by rewrite Hh, String.eqb_refl.
Qed.

(** What [BuildRecord] returns *)
Lemma BuildRecord_ok event sequence previous at_ r : BuildRecord event sequence previous at_ = Ok r ->
  record_verified r sequence previous /\ r_Event r = event /\ r_AppendedAt r = at_ /\
  r_OrganizationID r = e_OrganizationID event /\ r_TenantID r = e_TenantID event.
Proof.
  unfold BuildRecord. intros H. apply bind_ok in H as (bytes & Hb%or_err_ok & H).
  apply seq_ok in H as [_ H]. cbv zeta in H. apply seq_ok in H as [V H].
  apply bind_ok in H as (preimage & Hp & H). apply seq_ok in H as [V' H]. injection H as <-.
  rewrite ValidateRecord_ok in V'. split; [|done]. split; try done; [by exists bytes|].
  exists preimage. split; [|done]. unfold recordPreimage in *. by rewrite set_ChainHash_idem.
Qed.

Lemma BuildRecord_typed event sequence previous at_ r : event_typed event -> is_u64 sequence ->
  BuildRecord event sequence previous at_ = Ok r -> record_typed r.
Proof.
  intros He Hs H. apply BuildRecord_ok in H as ([] & Hev & _). unfold record_typed.
  by rewrite vr_sequence0, Hev.
Qed.

(** ** The chain hash determines the record *)

(** The messages hashed into the chain hashes of two records differ and have the same sum. *)
Definition records_collide (r s : AuditRecord) : Prop :=
  exists p q, recordPreimage r = Ok p /\ recordPreimage s = Ok q /\
    sha256_collision (domainMessage RecordHashDomain p) (domainMessage RecordHashDomain q).

Lemma set_ChainHash_inj r s h : set_ChainHash r h = set_ChainHash s h -> r_ChainHash r = r_ChainHash s -> r = s.
Proof. destruct r, s. unfold set_ChainHash. cbn. by intros [= -> -> -> -> -> -> -> -> ->] ->. Qed.

Lemma chain_hash_binds r s sequence sequence' previous previous' : record_typed r -> record_typed s ->
  record_verified r sequence previous -> record_verified s sequence' previous' ->
  r_ChainHash r = r_ChainHash s -> r = s \/ records_collide r s.
Proof.
  intros Hr Hs [_ _ _ _ (p & Hp & Hhp)] [_ _ _ _ (q & Hq & Hhq)] Heq.
  pose proof Heq as Heq'. rewrite Hhp, Hhq in Heq'.
  apply digest_eq in Heq' as [->%domainMessage_inj|Hcol]; [left|right; by exists p, q].
  eapply set_ChainHash_inj; [|exact Heq].
  exact (canonical_record_inj _ _ _ (set_ChainHash_typed r _ Hr) (set_ChainHash_typed s _ Hs) Hp Hq).
Qed.

(** ** An example *)

Definition ex_event : Event :=
  mkEvent EventSchemaVersion ContractVersion "0199a213-0001-7001-8001-000000000001"
    "0199a213-4444-7444-8444-444444444444" "0199a213-5555-7555-8555-555555555555" ""
    "0199a213-6666-7666-8666-666666666666" 3 "coh.approval-lifecycle/v1" "approval.grant" "allowed"
    "quorum_reached" "" 0 "" (Some []) "2026-08-26T17:59:00.000000000Z".

Definition ex_appended : string := "2026-08-26T18:00:00.000000000Z".

Lemma ex_build : is_ok (BuildRecord ex_event 1 GenesisHash ex_appended) = true.
Proof. vm_compute. reflexivity. Qed.

Lemma ex_event_typed : event_typed ex_event.
Proof. split; unfold is_u64; cbn; lia. Qed.

(** A record that [BuildRecord] returns links the event into the chain: [VerifyRecord]
    accepts it at its sequence number and previous hash, it carries the event and the scope
    of the event, and its canonical text decodes back to it. *)
Theorem built_record_verifies event sequence previous at_ r
  (Hevent : event_typed event) (Hsequence : is_u64 sequence)
  (Hbuild : BuildRecord event sequence previous at_ = Ok r) :
  VerifyRecord r sequence previous = Ok tt /\ r_Event r = event /\ r_AppendedAt r = at_ /\
  r_OrganizationID r = e_OrganizationID event /\ r_TenantID r = e_TenantID event /\
  forall text, CanonicalRecord r = Ok text -> DecodeRecord text = Ok r.
Proof.
  pose proof (BuildRecord_typed _ _ _ _ _ Hevent Hsequence Hbuild) as Ht.
  apply BuildRecord_ok in Hbuild as (Hv & He & Ha & Ho & Hn). rewrite VerifyRecord_ok.
  split_and!; try done. intros text. by apply decode_record_canonical.
Qed.

Lemma built_record_verifies_witness :
  exists r, BuildRecord ex_event 1 GenesisHash ex_appended = Ok r /\ VerifyRecord r 1 GenesisHash = Ok tt.
Proof.
  pose proof ex_build as H. apply is_ok_true in H as [r Hr]. exists r. split; [exact Hr|].
  assert (Hone : is_u64 1) by (unfold is_u64; lia).
  exact (proj1 (built_record_verifies ex_event 1 GenesisHash ex_appended r ex_event_typed Hone Hr)).
Defined.

(** ** Checkpoints *)

Lemma set_Signature_valid c s bytes : base64_decode s = Some bytes -> len bytes = 64 ->
  checkpoint_valid c -> checkpoint_valid (set_Signature c s).
Proof. intros Hs Hl []. split; try done. by exists bytes. Qed.

Lemma blank_signature_decodes : base64_decode blank_signature = Some (zero_bytes 64).
Proof. apply base64_round_trip. Qed.

Lemma checkpointMessage_signature c s : checkpointMessage (set_Signature c s) = checkpointMessage c.
Proof. done. Qed.

Lemma checkpointMessage_inj c d m : checkpoint_typed c -> checkpoint_typed d ->
  checkpointMessage c = Ok m -> checkpointMessage d = Ok m ->
  set_Signature c blank_signature = set_Signature d blank_signature.
Proof.
  unfold checkpointMessage. intros Hc Hd H1 H2.
  apply bind_ok in H1 as (b1 & Hb1 & H1), H2 as (b2 & Hb2 & H2). rewrite <- H2 in H1.
  assert (Heq : domainMessage CheckpointDomain b1 = domainMessage CheckpointDomain b2) by (by inv_ok).
  apply domainMessage_inj in Heq. subst b2.
  exact (canonical_checkpoint_inj (set_Signature c blank_signature) (set_Signature d blank_signature) _
    Hc Hd Hb1 Hb2).
Qed.

Section signed.
Variable ed25519_Sign : string -> string -> string.
Variable ed25519_Verify : string -> string -> string -> bool.
Variable public_key : string -> string.

(** A signed checkpoint verifies under the signer's public key and only its signature
    changed, for any signature scheme whose signatures have 64 bytes and verify; and
    what was signed is everything but the signature: two checkpoints with the same signed
    message differ in their signatures only. *)
Theorem signed_checkpoint_verifies checkpoint privateKey signed
  (Hsize : forall message, len (ed25519_Sign privateKey message) = 64)
  (Hpublic : len (public_key privateKey) = 32)
  (Hscheme : forall message,
     ed25519_Verify (public_key privateKey) message (ed25519_Sign privateKey message) = true)
  (Htyped : checkpoint_typed checkpoint)
  (Hsign : SignCheckpoint ed25519_Sign checkpoint privateKey = Ok signed) :
  VerifyCheckpoint ed25519_Verify signed (public_key privateKey) = Ok tt /\
  set_Signature signed (c_Signature checkpoint) = checkpoint /\
  forall other, checkpoint_typed other -> checkpointMessage other = checkpointMessage signed ->
    set_Signature other (c_Signature signed) = signed.
Proof.
  unfold SignCheckpoint in Hsign. cbv zeta in Hsign. apply seq_ok in Hsign as [Hg Hsign].
  apply deny_if_ok in Hg. bool_split. apply bind_ok in Hsign as (m & Hm & [= <-]).
  rewrite checkpointMessage_signature in Hm.
  match goal with H : is_ok _ = true |- _ => apply is_ok_true in H as [[] V%ValidateCheckpoint_ok] end.
  set (s := base64_encode (ed25519_Sign privateKey m)).
  assert (Hs : base64_decode s = Some (ed25519_Sign privateKey m)) by apply base64_round_trip.
  assert (V' : checkpoint_valid (set_Signature checkpoint s))
    by exact (set_Signature_valid _ _ _ Hs (Hsize m) V).
  split_and!; [ | by destruct checkpoint | ].
  - unfold VerifyCheckpoint. rewrite Hpublic. apply ValidateCheckpoint_ok in V'.
    change (set_Signature (set_Signature checkpoint blank_signature) s) with (set_Signature checkpoint s).
    rewrite V'. cbn [is_ok negb orb Z.eqb deny_if mbind result_bind Pos.eqb].
    rewrite checkpointMessage_signature, Hm. cbn [c_Signature set_Signature or_err mbind result_bind].
    by rewrite Hs, Hscheme.
  - intros other Ho Heq. rewrite checkpointMessage_signature, checkpointMessage_signature, Hm in Heq.
    pose proof (checkpointMessage_inj _ _ _ Ho Htyped Heq Hm) as Hb.
    apply (f_equal (fun c => set_Signature c s)) in Hb. exact Hb.
Qed.
End signed.

(** A scheme with these laws, for the examples: a keyed hash whose public key verifies *)
Definition ex_public (privateKey : string) : string := sum256 privateKey.
Definition ex_sign (privateKey message : string) : string := sum256 (ex_public privateKey ++ message) ++ sum256 message.
Definition ex_verify (publicKey message signature : string) : bool :=
  String.eqb signature (sum256 (publicKey ++ message) ++ sum256 message).
Definition ex_private : string := zero_bytes 64.

Lemma ex_sign_size k m : len (ex_sign k m) = 64.
Proof. unfold ex_sign, len. by rewrite length_append, !length_sum256. Qed.

Lemma ex_public_size k : len (ex_public k) = 32.
Proof. unfold ex_public, len. by rewrite length_sum256. Qed.

Lemma ex_scheme k m : ex_verify (ex_public k) m (ex_sign k m) = true.
Proof. apply String.eqb_refl. Qed.

Definition ex_checkpoint : Checkpoint :=
  mkCheckpoint CheckpointSchemaVersion ContractVersion "0199a213-0002-7002-8002-000000000002"
    "0199a213-4444-7444-8444-444444444444" "0199a213-5555-7555-8555-555555555555" 1 3 3 GenesisHash
    "manual_final" "audit-key" 1 SignatureAlgorithm ex_appended "".

Lemma ex_checkpoint_signed : is_ok (SignCheckpoint ex_sign ex_checkpoint ex_private) = true.
Proof. vm_compute. reflexivity. Qed.

Lemma ex_checkpoint_typed : checkpoint_typed ex_checkpoint.
Proof. unfold checkpoint_typed, is_u64; cbn; lia. Qed.

Lemma signed_checkpoint_verifies_witness :
  exists signed, SignCheckpoint ex_sign ex_checkpoint ex_private = Ok signed /\
    VerifyCheckpoint ex_verify signed (ex_public ex_private) = Ok tt.
Proof.
  pose proof ex_checkpoint_signed as H. apply is_ok_true in H as [c Hc]. exists c. split; [exact Hc|].
  exact (proj1 (signed_checkpoint_verifies ex_sign ex_verify ex_public ex_checkpoint ex_private c
    (ex_sign_size _) (ex_public_size _) (ex_scheme _) ex_checkpoint_typed Hc)).
Defined.
