(* ===== verification/AuditLog.v ===== *)
(** * internal/workflow/auditlog: appending to the audit chain and verifying it

    The service of [service.go], [checkpoint.go], [outbox.go], [verify.go] and
    [checkpoint_proof.go], and the guard every storage adapter runs ([guard.go]).  The
    store, the checkpoint signer, the key resolver, the clock and the source of
    identifiers are the interface [AuditPorts]: programs over the state of the world they
    act on, so other writers may change the store between any two calls. *)

From S2P Require Import Prelude GoStrings GoTime GoJson DomainContract Sha256 Domain GoStruct TamperAudit.

Local Open Scope string_scope.
Local Open Scope Z_scope.

(** ** errors.go *)

Inductive log_error : Type := ErrInvalidInput | ErrConflict | ErrUnavailable | ErrIntegrity.

#[export] Instance log_error_eq_dec : EqDecision log_error.
Proof. solve_decision. Defined.

(** An error of a storage adapter: one of this package's, a [StorageError], one of the two
    context errors, or any other. *)
Inductive store_error : Type :=
| LogError (e : log_error)
| StorageFailure (code : StorageErrorCode)
| ContextCanceled
| ContextDeadlineExceeded
| OtherFailure.

Definition StorageCode (err : store_error) : StorageErrorCode :=
  match err with
  | StorageFailure code => code
  | ContextCanceled => StorageCanceled
  | ContextDeadlineExceeded => StorageTimeout
  | LogError _ | OtherFailure => StorageUnavailable
  end.

(** ** types.go *)

Definition readBatchSize : Z := 512.

Record Commit : Type := mkCommit {
  k_IdempotencyKey : string;
  k_RequestDigest : string;
  k_ExpectedHead : Head;
  k_Record : AuditRecord;
  k_Checkpoint : option Checkpoint }.

Record AppendResult : Type := mkAppendResult {
  a_Sequence : Z;
  a_ChainHash : string;
  a_CheckpointID : string;
  a_Replayed : bool }.

Record KeyAuthority : Type := mkKeyAuthority {
  ka_KeyID : string;
  ka_Revision : Z;
  ka_PublicKey : string;
  ka_ValidFrom : Time;
  ka_ValidUntil : Time;
  ka_RevokedAt : option Time }.

Record VerificationReport : Type := mkReport {
  vr_OrganizationID : string;
  vr_TenantID : string;
  vr_RecordCount : Z;
  vr_CheckpointCount : Z;
  vr_HeadSequence : Z;
  vr_HeadHash : string;
  vr_LastCheckpoint : Z;
  vr_UncheckpointedCount : Z }.

Record CheckpointProof : Type := mkProof {
  cp_CheckpointID : string;
  cp_CheckpointDigest : string;
  cp_Sequence : Z;
  cp_SigningKeyRevision : Z;
  cp_ProofDigest : string }.

(** The five ports of the service, and [ed25519.Verify].  [W] is the state of the world. *)
Class AuditPorts (W : Type) : Type := {
  LoadHead : string -> string -> prog W store_error Head;
  CommitAudit : Commit -> prog W store_error AppendResult;
  ReadAuditRecords : string -> string -> Z -> Z -> prog W store_error (list AuditRecord);
  ReadAuditCheckpoints : string -> string -> prog W store_error (list Checkpoint);
  SignAuditCheckpoint : Checkpoint -> prog W store_error Checkpoint;
  ResolveAuditKey : string -> Z -> prog W store_error KeyAuthority;
  ClockNow : W -> Time * W;
  NewAuditID : Time -> prog W store_error string;
  ed25519_Verify : string -> string -> string -> bool }.

(** ** service.go: helpers *)

Definition New (store_nil signer_nil resolver_nil clock_nil ids_nil : bool) : result log_error unit :=
  deny_if (store_nil || signer_nil || resolver_nil || clock_nil || ids_nil) ErrInvalidInput.

Definition formatTime (value : Time) : string := format_timestamp (to_utc value).

Definition mustTime (value : string) : Time := default zero_time (parse_timestamp value).

(** The loop over the runes of [value[7:]] accepts only ASCII, so it is a loop over bytes. *)
Definition validDigest (value : string) : bool :=
  (len value =? len GenesisHash) && String.eqb (String.substring 0 7 value) "sha256:" &&
  str_forallb (fun c =>
      let character := byte_val c in
      negb ((character <? 48) || ((57 <? character) && (character <? 97)) || (102 <? character)))
    (String.substring 7 (String.length value - 7) value).

Definition validateHead (head : Head) (organizationID tenantID : string) : result log_error unit :=
  if h_Sequence head =? 0 then
    if String.eqb (h_OrganizationID head) "" && String.eqb (h_TenantID head) "" &&
       (String.eqb (h_ChainHash head) "" || String.eqb (h_ChainHash head) GenesisHash)
    then Ok tt else Err ErrIntegrity
  else
    deny_if (negb (String.eqb (h_OrganizationID head) organizationID) ||
             negb (String.eqb (h_TenantID head) tenantID) || String.eqb (h_ChainHash head) "" ||
             String.eqb (h_LastRecordAt head) "" || negb (validDigest (h_ChainHash head)) ||
             is_zero (mustTime (h_LastRecordAt head)) ||
             (h_Sequence head <? h_LastCheckpointSequence head)) ErrIntegrity.

Definition normalizeStoreError (err : store_error) : log_error :=
  match err with
  | LogError ErrConflict => ErrConflict
  | LogError ErrIntegrity => ErrIntegrity
  | _ => match StorageCode err with
         | StorageConflict => ErrConflict
         | StorageDenied => ErrIntegrity
         | _ => ErrUnavailable
         end
  end.

(** ** checkpoint.go *)

Definition utc_date (t : Time) : Z * Z * Z := date_of_days (nanos t / nanos_per_day).

Definition crossedUTCDate (lastRecordAt : string) (now : Time) : bool :=
  let last := mustTime lastRecordAt in
  if is_zero last then false
  else
    let '(year, month, day) := utc_date last in
    let '(otherYear, otherMonth, otherDay) := utc_date now in
    negb (year =? otherYear) || negb (month =? otherMonth) || negb (day =? otherDay).

Definition checkpointTarget (head : Head) (record : AuditRecord) (now : Time) : Z * string * string :=
  if (h_LastCheckpointSequence head <? h_Sequence head) && crossedUTCDate (h_LastRecordAt head) now
  then (h_Sequence head, h_ChainHash head, "daily")
  else if CheckpointRecordLimit <=? u64 (r_Sequence record - h_LastCheckpointSequence head)
  then (r_Sequence record, r_ChainHash record, "record_limit")
  else (0, "", "").

Definition sameCheckpointDraft (draft signed : Checkpoint) : bool :=
  let draft := mkCheckpoint (c_SchemaVersion draft) (c_ContractVersion draft) (c_CheckpointID draft)
    (c_OrganizationID draft) (c_TenantID draft) (c_CoveredFromSequence draft) (c_Sequence draft)
    (c_RecordCount draft) (c_ChainHash draft) (c_Reason draft) (c_SigningKeyID signed)
    (c_SigningKeyRevision signed) (c_SignatureAlgorithm signed) (c_CreatedAt draft)
    (c_Signature signed) in
  match CanonicalCheckpoint draft, CanonicalCheckpoint signed with
  | Ok l, Ok r => String.eqb l r
  | _, _ => false
  end.

Definition validAuthority (authority : KeyAuthority) (checkpoint : Checkpoint) (now : Time) : bool :=
  let created := mustTime (c_CreatedAt checkpoint) in
  if negb (String.eqb (ka_KeyID authority) (c_SigningKeyID checkpoint)) ||
     negb (ka_Revision authority =? c_SigningKeyRevision checkpoint) ||
     (len (ka_PublicKey authority) =? 0) || is_zero (ka_ValidFrom authority) ||
     is_zero (ka_ValidUntil authority) || before created (ka_ValidFrom authority) ||
     negb (before created (ka_ValidUntil authority)) || before now created
  then false
  else match ka_RevokedAt authority with
       | None => true
       | Some revoked => before created (to_utc revoked)
       end.

(** [Checkpoint{...}] before it is signed *)
Definition checkpoint_draft (head : Head) (record : AuditRecord) (now : Time) (checkpointID : string)
  (sequence : Z) (chainHash reason : string) : Checkpoint :=
  mkCheckpoint CheckpointSchemaVersion ContractVersion checkpointID (r_OrganizationID record)
    (r_TenantID record) (u64 (h_LastCheckpointSequence head + 1)) sequence
    (u64 (sequence - h_LastCheckpointSequence head)) chainHash reason "" 0 "" (formatTime now) "".

(** ** guard.go *)

Definition checkpoint_required_daily (expected : Head) (record : AuditRecord) : bool :=
  (h_LastCheckpointSequence expected <? h_Sequence expected) &&
  crossedUTCDate (h_LastRecordAt expected) (mustTime (r_AppendedAt record)).

Definition checkpoint_required_limit (expected : Head) (record : AuditRecord) : bool :=
  CheckpointRecordLimit <=? u64 (r_Sequence record - h_LastCheckpointSequence expected).

Definition ValidateCommit (commit : Commit) : result log_error unit :=
  let record := k_Record commit in
  deny_if (String.eqb (k_IdempotencyKey commit) "" ||
           negb (String.eqb (k_IdempotencyKey commit) (e_EventID (r_Event record))) ||
           negb (String.eqb (k_RequestDigest commit) (r_EventDigest record)) ||
           negb (is_ok (ValidateRecord record))) ErrInvalidInput ;;
  let expected := k_ExpectedHead commit in
  let previousHash := if (h_Sequence expected =? 0) && String.eqb (h_ChainHash expected) ""
                      then GenesisHash else h_ChainHash expected in
  deny_if (((0 <? h_Sequence expected) &&
            negb (is_ok (validateHead expected (r_OrganizationID record) (r_TenantID record)))) ||
           negb (r_Sequence record =? u64 (h_Sequence expected + 1)) ||
           negb (is_ok (VerifyRecord record (r_Sequence record) previousHash))) ErrIntegrity ;;
  let daily := checkpoint_required_daily expected record in
  let limit := checkpoint_required_limit expected record in
  match k_Checkpoint commit with
  | None => deny_if (daily || limit) ErrIntegrity
  | Some checkpoint =>
      deny_if (negb (is_ok (ValidateCheckpoint checkpoint)) ||
               negb (String.eqb (c_OrganizationID checkpoint) (r_OrganizationID record)) ||
               negb (String.eqb (c_TenantID checkpoint) (r_TenantID record)) ||
               negb (c_CoveredFromSequence checkpoint =? u64 (h_LastCheckpointSequence expected + 1)))
        ErrIntegrity ;;
      if String.eqb (c_Reason checkpoint) "daily" then
        deny_if (negb daily || negb (c_Sequence checkpoint =? h_Sequence expected) ||
                 negb (String.eqb (c_ChainHash checkpoint) previousHash)) ErrIntegrity
      else if String.eqb (c_Reason checkpoint) "record_limit" then
        deny_if (daily || negb limit || negb (c_Sequence checkpoint =? r_Sequence record) ||
                 negb (c_RecordCount checkpoint =? CheckpointRecordLimit) ||
                 negb (String.eqb (c_ChainHash checkpoint) (r_ChainHash record))) ErrIntegrity
      else if String.eqb (c_Reason checkpoint) "manual_final" then
        deny_if (daily || limit || negb (c_Sequence checkpoint =? r_Sequence record) ||
                 negb (String.eqb (c_ChainHash checkpoint) (r_ChainHash record))) ErrIntegrity
      else Err ErrIntegrity
  end.

(** ** service.go, checkpoint.go, outbox.go: appending *)

Definition maximumAppendAttempts : nat := 4.

(** workflow.OutboxDelivery, with the fields [AppendOutbox] reads *)
Record OutboxDelivery : Type := mkOutboxDelivery {
  o_ID : string;
  o_Case : CaseRef;
  o_Topic : string;
  o_PayloadDigest : string;
  o_LeaseID : string }.

Section service.
Context {W : Type} `{Ports : AuditPorts W}.

Definition checkpointFor (head : Head) (record : AuditRecord) (now : Time)
  : prog W log_error (option Checkpoint) :=
  let '(sequence, chainHash, reason) := checkpointTarget head record now in
  if String.eqb reason "" then mret None
  else
    checkpointID ← map_err (fun _ => ErrUnavailable) (NewAuditID now);
    let draft := checkpoint_draft head record now checkpointID sequence chainHash reason in
    signed ← map_err (fun _ => ErrUnavailable) (SignAuditCheckpoint draft);
    pure (deny_if (negb (sameCheckpointDraft draft signed)) ErrUnavailable) ;;
    authority ← map_err (fun _ => ErrUnavailable)
                  (ResolveAuditKey (c_SigningKeyID signed) (c_SigningKeyRevision signed));
    pure (deny_if (negb (validAuthority authority signed now) ||
                   negb (is_ok (VerifyCheckpoint ed25519_Verify signed (ka_PublicKey authority))))
            ErrUnavailable) ;;
    mret (Some signed).

Definition set_head_ChainHash (h : Head) (hash : string) : Head :=
  mkHead (h_OrganizationID h) (h_TenantID h) (h_Sequence h) hash (h_LastRecordAt h)
    (h_LastCheckpointSequence h) (h_LastCheckpointAt h).

(** The commit [appendAtHead] submits *)
Definition prepareCommit (event : Event) (now : Time) : prog W log_error Commit :=
  head ← map_err normalizeStoreError (LoadHead (e_OrganizationID event) (e_TenantID event));
  pure (validateHead head (e_OrganizationID event) (e_TenantID event)) ;;
  let head := if h_Sequence head =? 0 then set_head_ChainHash head GenesisHash else head in
  record ← pure (or_err (BuildRecord event (u64 (h_Sequence head + 1)) (h_ChainHash head) (formatTime now))
                   ErrInvalidInput);
  checkpoint ← checkpointFor head record now;
  mret (mkCommit (e_EventID event) (r_EventDigest record) head record checkpoint).

(** What [appendAtHead] makes of the answer of the store *)
Definition checkCommitted (commit : Commit) (answer : AppendResult) : result log_error AppendResult :=
  let record := k_Record commit in
  if a_Replayed answer then
    deny_if ((a_Sequence answer =? 0) || negb (validDigest (a_ChainHash answer))) ErrIntegrity ;; Ok answer
  else
    deny_if (negb (a_Sequence answer =? r_Sequence record) ||
             negb (String.eqb (a_ChainHash answer) (r_ChainHash record))) ErrIntegrity ;;
    deny_if (match k_Checkpoint commit with
             | Some checkpoint => negb (String.eqb (a_CheckpointID answer) (c_CheckpointID checkpoint))
             | None => negb (String.eqb (a_CheckpointID answer) "")
             end) ErrIntegrity ;;
    Ok answer.

Definition appendAtHead (event : Event) (now : Time) : prog W log_error AppendResult :=
  commit ← prepareCommit event now;
  answer ← map_err normalizeStoreError (CommitAudit commit);
  pure (checkCommitted commit answer).

Fixpoint append_attempts (attempts : nat) (event : Event) (now : Time) : prog W log_error AppendResult :=
  match attempts with
  | O => pure (Err ErrConflict)
  | S attempts' =>
      r ← attempt (appendAtHead event now);
      match r with
      | Err ErrConflict => append_attempts attempts' event now
      | _ => pure r
      end
  end.

(** [ready]: neither the service nor its store is nil *)
Definition Append (ready : bool) (ctx : context_state) (event : Event) : prog W log_error AppendResult :=
  pure (deny_if (negb ready || negb (is_ok (ValidateEvent event))) ErrInvalidInput) ;;
  pure (deny_if (match ctx with CtxLive => false | _ => true end) ErrUnavailable) ;;
  now ← (fun w => let '(t, w') := ClockNow w in (Ok (to_utc t), w'));
  pure (deny_if (is_zero now || (negb (String.eqb (e_OccurredAt event) "") &&
                                 before now (mustTime (e_OccurredAt event)))) ErrInvalidInput) ;;
  append_attempts maximumAppendAttempts event now.

Definition AppendAuditEvent (ready : bool) (ctx : context_state) (event : Event) : prog W log_error unit :=
  Append ready ctx event ;; mret tt.

Definition outbox_event (delivery : OutboxDelivery) : Event :=
  mkEvent EventSchemaVersion ContractVersion (o_ID delivery) (OrganizationID (o_Case delivery))
    (TenantID (o_Case delivery)) (CaseID (o_Case delivery)) "" 0 "coh.storage-outbox/v1" (o_Topic delivery)
    "allowed" "outbox_delivered" "" 0 (o_PayloadDigest delivery) (Some [o_PayloadDigest delivery]) "".

Definition AppendOutbox (ready : bool) (ctx : context_state) (delivery : OutboxDelivery)
  : prog W log_error AppendResult :=
  let event := outbox_event delivery in
  pure (deny_if (String.eqb (o_LeaseID delivery) "" || negb (is_ok (ValidateEvent event))) ErrInvalidInput) ;;
  Append ready ctx event.

(** ** verify.go *)

(** The loop of [readAllRecords] runs until the store returns a short batch.  [fuel] bounds
    the number of batches; [None] is a loop that is still running. *)
Fixpoint readAllRecords (fuel : nat) (organizationID tenantID : string) (after_ : Z) (records : list AuditRecord)
  : prog W log_error (option (list AuditRecord)) :=
  match fuel with
  | O => mret None
  | S fuel' =>
      batch ← map_err normalizeStoreError (ReadAuditRecords organizationID tenantID after_ readBatchSize);
      match last batch with
      | None => mret (Some records)
      | Some r =>
          pure (deny_if (readBatchSize <? Z.of_nat (length batch)) ErrIntegrity) ;;
          if Z.of_nat (length batch) <? readBatchSize then mret (Some (records ++ batch)%list)
          else readAllRecords fuel' organizationID tenantID (r_Sequence r) (records ++ batch)%list
      end
  end.

(** The loop of [verifyRecords] from the record at [index], after a record whose hash is
    [previousHash] *)
Fixpoint verify_links (organizationID tenantID : string) (index : Z) (previousHash : string)
  (records : list AuditRecord) : result log_error unit :=
  match records with
  | [] => Ok tt
  | record :: records' =>
      deny_if (negb (String.eqb (r_OrganizationID record) organizationID) ||
               negb (String.eqb (r_TenantID record) tenantID) ||
               negb (is_ok (VerifyRecord record (u64 (index + 1)) previousHash))) ErrIntegrity ;;
      verify_links organizationID tenantID (index + 1) (r_ChainHash record) records'
  end.

Definition verifyRecords (records : list AuditRecord) (organizationID tenantID : string)
  : result log_error unit := verify_links organizationID tenantID 0 GenesisHash records.

(** [sort.Slice] by sequence.  The order it leaves equal sequences in is not specified,
    and does not matter: [verifyCheckpoints] refuses a repeated sequence. *)
Fixpoint insert_checkpoint (c : Checkpoint) (l : list Checkpoint) : list Checkpoint :=
  match l with
  | [] => [c]
  | d :: l' => if c_Sequence c <=? c_Sequence d then c :: l else d :: insert_checkpoint c l'
  end.
Definition sort_checkpoints (l : list Checkpoint) : list Checkpoint := foldr insert_checkpoint [] l.

(** The checks of one checkpoint that ask no port *)
Definition checkpoint_in_place (records : list AuditRecord) (organizationID tenantID : string)
  (previousSequence : Z) (seen : list Z) (checkpoint : Checkpoint) : result log_error unit :=
  deny_if (negb (String.eqb (c_OrganizationID checkpoint) organizationID) ||
           negb (String.eqb (c_TenantID checkpoint) tenantID) || (c_Sequence checkpoint =? 0) ||
           (Z.of_nat (length records) <? c_Sequence checkpoint) ||
           negb (c_CoveredFromSequence checkpoint =? u64 (previousSequence + 1)) ||
           negb (c_RecordCount checkpoint =? u64 (c_Sequence checkpoint - previousSequence))) ErrIntegrity ;;
  match records !! Z.to_nat (c_Sequence checkpoint - 1) with
  | Some record =>
      deny_if (bool_decide (c_Sequence checkpoint ∈ seen) ||
               negb (String.eqb (c_ChainHash checkpoint) (r_ChainHash record)) ||
               before (mustTime (c_CreatedAt checkpoint)) (mustTime (r_AppendedAt record))) ErrIntegrity
  | None => Err ErrIntegrity
  end.

(** The first loop of [verifyCheckpoints]; it returns [previousSequence] and the keys of
    [bySequence]. *)
Fixpoint verify_checkpoint_list (records : list AuditRecord) (organizationID tenantID : string)
  (previousSequence : Z) (seen : list Z) (checkpoints : list Checkpoint) : prog W log_error (Z * list Z) :=
  match checkpoints with
  | [] => mret (previousSequence, seen)
  | checkpoint :: checkpoints' =>
      pure (checkpoint_in_place records organizationID tenantID previousSequence seen checkpoint) ;;
      authority ← map_err (fun _ => ErrIntegrity)
                    (ResolveAuditKey (c_SigningKeyID checkpoint) (c_SigningKeyRevision checkpoint));
      now ← (fun w => let '(t, w') := ClockNow w in (Ok (to_utc t), w'));
      pure (deny_if (negb (validAuthority authority checkpoint now) ||
                     negb (is_ok (VerifyCheckpoint ed25519_Verify checkpoint (ka_PublicKey authority))))
              ErrIntegrity) ;;
      verify_checkpoint_list records organizationID tenantID (c_Sequence checkpoint)
        (c_Sequence checkpoint :: seen) checkpoints'
  end.

(** The second loop: from the record at [index] on, every crossing of a date has a
    checkpoint at the record before it. *)
Fixpoint dates_checkpointed (index : Z) (seen : list Z) (records : list AuditRecord) : bool :=
  match records with
  | r1 :: ((r2 :: _) as records') =>
      (negb (crossedUTCDate (r_AppendedAt r1) (mustTime (r_AppendedAt r2))) || bool_decide (index ∈ seen)) &&
      dates_checkpointed (index + 1) seen records'
  | _ => true
  end.

(** It sorts the slice of its caller in place: the sorted slice is returned. *)
Definition verifyCheckpoints (records : list AuditRecord) (checkpoints : list Checkpoint)
  (organizationID tenantID : string) : prog W log_error (list Checkpoint) :=
  let checkpoints := sort_checkpoints checkpoints in
  '(previousSequence, seen) ← verify_checkpoint_list records organizationID tenantID 0 [] checkpoints;
  pure (deny_if (CheckpointRecordLimit <=? u64 (Z.of_nat (length records) - previousSequence)) ErrIntegrity) ;;
  pure (deny_if (negb (dates_checkpointed 1 seen records)) ErrIntegrity) ;;
  mret checkpoints.

Definition verifyDurableHead (records : list AuditRecord) (checkpoints : list Checkpoint)
  (organizationID tenantID : string) : prog W log_error VerificationReport :=
  head ← map_err normalizeStoreError (LoadHead organizationID tenantID);
  let recordCount := Z.of_nat (length records) in
  let checkpointCount := Z.of_nat (length checkpoints) in
  match last records with
  | None =>
      pure (deny_if (negb (is_ok (validateHead head organizationID tenantID))) ErrIntegrity) ;;
      mret (mkReport organizationID tenantID recordCount checkpointCount 0 GenesisHash 0 0)
  | Some r =>
      let lastCheckpoint := match last checkpoints with Some c => c_Sequence c | None => 0 end in
      pure (deny_if (negb (is_ok (validateHead head organizationID tenantID)) ||
                     negb (h_Sequence head =? r_Sequence r) ||
                     negb (String.eqb (h_ChainHash head) (r_ChainHash r)) ||
                     negb (h_LastCheckpointSequence head =? lastCheckpoint)) ErrIntegrity) ;;
      mret (mkReport organizationID tenantID recordCount checkpointCount (r_Sequence r) (r_ChainHash r)
              lastCheckpoint (u64 (r_Sequence r - lastCheckpoint)))
  end.

Definition Verify (fuel : nat) (ready : bool) (ctx : context_state) (organizationID tenantID : string)
  : prog W log_error (option VerificationReport) :=
  pure (deny_if (negb ready || match ctx with CtxNil => true | _ => false end ||
                 String.eqb organizationID "" || String.eqb tenantID "") ErrInvalidInput) ;;
  read ← readAllRecords fuel organizationID tenantID 0 [];
  match read with
  | None => mret None
  | Some records =>
      checkpoints ← map_err normalizeStoreError (ReadAuditCheckpoints organizationID tenantID);
      pure (verifyRecords records organizationID tenantID) ;;
      checkpoints ← verifyCheckpoints records checkpoints organizationID tenantID;
      report ← verifyDurableHead records checkpoints organizationID tenantID;
      mret (Some report)
  end.

(** ** checkpoint_proof.go *)

Definition domainDigest (domainName value : string) : string := digest (domainName ++ value).

Definition CheckpointDigest (checkpoint : Checkpoint) : result audit_error string :=
  canonical ← CanonicalCheckpoint checkpoint; Ok (domainDigest "" canonical).

Definition checkpoint_proof_type : gtype := TStruct [
  ("checkpoint_id", false, TString); ("checkpoint_digest", false, TString);
  ("sequence", false, TUint 64); ("signing_key_revision", false, TUint 64);
  ("audit_head_sequence", false, TUint 64); ("audit_head_hash", false, TString)].

Definition canonicalCheckpointProof (checkpointID checkpointDigest : string)
  (sequence keyRevision headSequence : Z) (headHash : string) : result contract_error string :=
  canonical_struct checkpoint_proof_type (VStruct [VStr checkpointID; VStr checkpointDigest; VUint sequence;
    VUint keyRevision; VUint headSequence; VStr headHash]).

(** The loop over the checkpoints: the first one with the identifier decides. *)
Definition prove_checkpoint (report : VerificationReport) (checkpointID checkpointDigest : string)
  (minimumSequence : Z) (checkpoints : list Checkpoint) : result log_error CheckpointProof :=
  match List.find (fun c => String.eqb (c_CheckpointID c) checkpointID) checkpoints with
  | None => Err ErrIntegrity
  | Some checkpoint =>
      digest ← or_err (CheckpointDigest checkpoint) ErrIntegrity;
      deny_if (negb (String.eqb digest checkpointDigest) || (c_Sequence checkpoint <? minimumSequence) ||
               (vr_HeadSequence report <? c_Sequence checkpoint)) ErrIntegrity ;;
      canonical ← or_err (canonicalCheckpointProof (c_CheckpointID checkpoint) digest (c_Sequence checkpoint)
                            (c_SigningKeyRevision checkpoint) (vr_HeadSequence report) (vr_HeadHash report))
                    ErrIntegrity;
      Ok (mkProof (c_CheckpointID checkpoint) digest (c_Sequence checkpoint) (c_SigningKeyRevision checkpoint)
            (domainDigest ("COH-AUDIT-CHECKPOINT-PROOF-V1" ++ String NUL "") canonical))
  end.

Definition ResolveCheckpointProof (fuel : nat) (ready : bool) (ctx : context_state)
  (organizationID tenantID checkpointID checkpointDigest : string) (minimumSequence : Z)
  : prog W log_error (option CheckpointProof) :=
  pure (deny_if (negb ready || match ctx with CtxNil => true | _ => false end ||
                 String.eqb organizationID "" || String.eqb tenantID "" || String.eqb checkpointID "" ||
                 String.eqb checkpointDigest "" || (minimumSequence =? 0)) ErrInvalidInput) ;;
  verified ← Verify fuel ready ctx organizationID tenantID;
  match verified with
  | None => mret None
  | Some report =>
      checkpoints ← map_err normalizeStoreError (ReadAuditCheckpoints organizationID tenantID);
      proof ← pure (prove_checkpoint report checkpointID checkpointDigest minimumSequence checkpoints);
      mret (Some proof)
  end.
End service.
