(* ===== verification/AuditLogFacts.v ===== *)
(** * What the audit service guarantees

    The links of a verified log determine it (tamper evidence); every commit the service
    submits passes the guard the adapters run; and a log grown by guarded commits verifies. *)

From S2P Require Import Prelude GoStrings GoRegexp GoTime GoBase64 GoJson DomainContract Sha256 Domain GoStruct TamperAudit TamperAuditFacts AuditLog.

Local Open Scope string_scope.
Local Open Scope Z_scope.

(** ** Times *)

Lemma digits_val_bound s acc n : digits_val acc s = Some n -> 0 <= acc ->
  acc * 10 ^ len s <= n < (acc + 1) * 10 ^ len s.
Proof.
  revert acc. induction s as [|c s IH]; intros acc H Hacc; [cbn in H; simplify_eq; unfold len; cbn; lia|].
  cbn in H. destruct (is_digit c) eqn:Hc; [|done].
  assert (0 <= digit_val c <= 9).
  { unfold is_digit, byte_in, in_range in Hc. unfold digit_val. apply andb_true_iff in Hc as [?%Z.leb_le ?%Z.leb_le]. lia. }
  apply IH in H; [|lia]. unfold len in *. cbn [String.length]. rewrite Nat2Z.inj_succ, Z.pow_succ_r by lia.
  pose proof (Z.pow_pos_nonneg 10 (Z.of_nat (String.length s)) ltac:(lia) ltac:(lia)). nia.
Qed.

Lemma format_uint_digits n : 0 <= n ->
  digits_val 0 (format_uint n) = Some n /\ str_forallb is_digit (format_uint n) = true.
Proof.
  intros Hn. destruct (Z.eq_dec n 0) as [->|Hz]; [done|].
  pose proof (parse_format_uint (Z.log2 n + 1) n) as H.
  rewrite Z.add_1_r in H. pose proof (Z.log2_spec n ltac:(lia)) as Hl.
  specialize (H ltac:(lia)). unfold parse_uint in H.
  destruct (format_uint n) as [|c s] eqn:E; [done|].
  destruct (digits_val 0 (String c s)) as [m|] eqn:Em; [|done]. cbn in H.
  destruct (m <? _); [|done]. injection H as ->. split; [done|].
  clear -Em. revert Em. generalize (String c s) 0. clear.
  induction s as [|c s IH]; intros acc H; [done|]. cbn in *. destruct (is_digit c); [|done]. by eapply IH.
Qed.

(** A timestamp that parses has a year of four digits. *)
Lemma parse_format_year t u : parse_timestamp (format_timestamp t) = Some u -> four_digit_year t = true.
Proof.
  unfold four_digit_year, format_timestamp.
  destruct (date_of_days (nanos t / nanos_per_day)) as [[y m] d]. cbn [fst]. unfold in_range.
  intros H. unfold parse_timestamp in H. apply opt_bind_inv in H as ([y' s1] & Hy & H).
  apply opt_bind_inv in H as (s2 & ->%skip_byte_inv & _).
  unfold parse_year in Hy. apply opt_bind_inv in Hy as ([p q] & Hp & Hy).
  destruct (starts_with_digit p) eqn:Hd; [|done]. apply opt_bind_inv in Hy as (? & _ & [= -> ->]).
  unfold format_year in Hp. destruct (Z.ltb_spec y 0) as [|Hpos].
  { cbn in Hp. apply opt_bind_inv in Hp as ([p' q'] & _ & Hp). cbn in Hp. by injection Hp as <- _. }
  rewrite Z.abs_eq in Hp by done. destruct (Z.ltb_spec y 10000).
  { apply andb_true_iff. split; apply Z.leb_le; lia. }
  exfalso. destruct (format_uint_digits y Hpos) as [Hv Hall].
  pose proof (digits_val_bound _ _ _ Hv ltac:(lia)) as Hb.
  assert (Hlong : 4 < len (format_uint y)).
  { destruct (Z.lt_ge_cases 4 (len (format_uint y))); [done|].
    pose proof (Z.pow_le_mono_r 10 (len (format_uint y)) 4). lia. }
  revert Hp Hall Hlong. clear. unfold len. destruct (format_uint y) as [|c1 [|c2 [|c3 [|c4 [|c5 s]]]]];
    cbn; intros Hp Hall Hlong; try lia.
  injection Hp as _ Hp. subst c5. apply andb_true_iff in Hall as [_ Hall].
  do 3 apply andb_true_iff in Hall as [_ Hall]. done.
Qed.

Lemma mustTime_format now u : parse_timestamp (formatTime now) = Some u -> mustTime (formatTime now) = to_utc now.
Proof.
  unfold mustTime, formatTime. intros H. rewrite parse_format_timestamp by (by eapply parse_format_year). done.
Qed.

Lemma crossed_to_utc s t : crossedUTCDate s (to_utc t) = crossedUTCDate s t.
Proof. done. Qed.

(** ** Chains *)

Definition head_hash (previous : string) (records : list AuditRecord) : string :=
  match last records with Some r => r_ChainHash r | None => previous end.

Lemma head_hash_snoc previous l r : head_hash previous (l ++ [r]) = r_ChainHash r.
Proof. unfold head_hash. by rewrite last_snoc. Qed.

Lemma head_hash_cons previous r l : head_hash previous (r :: l) = head_hash (r_ChainHash r) l.
Proof.
  unfold head_hash. rewrite last_cons. destruct (last l) eqn:E; [done|]. by apply last_None in E as ->.
Qed.

(** One more link *)
Definition linked (o t : string) (sequence : Z) (previous : string) (r : AuditRecord) : Prop :=
  r_OrganizationID r = o /\ r_TenantID r = t /\ record_verified r sequence previous.

Lemma link_ok o t i previous r :
  deny_if (negb (String.eqb (r_OrganizationID r) o) || negb (String.eqb (r_TenantID r) t) ||
           negb (is_ok (VerifyRecord r (u64 (i + 1)) previous))) ErrIntegrity = Ok tt <->
  linked o t (u64 (i + 1)) previous r.
Proof.
  rewrite deny_if_ok, !orb_false_iff, !negb_false_iff, !String.eqb_eq, is_ok_true. unfold linked.
  split.
  - intros [[-> ->] [[] H%VerifyRecord_ok]]. done.
  - intros (-> & -> & H%VerifyRecord_ok). eauto.
Qed.

Lemma verify_links_snoc o t previous l r : forall i,
  verify_links o t i previous (l ++ [r]) = Ok tt <->
  verify_links o t i previous l = Ok tt /\
  linked o t (u64 (i + Z.of_nat (length l) + 1)) (head_hash previous l) r.
Proof.
  revert previous. induction l as [|x l IH]; intros previous i; cbn [app verify_links length].
  - rewrite seq_ok, link_ok, Z.add_0_r. cbn [verify_links]. naive_solver.
  - rewrite !seq_ok, IH, head_hash_cons.
    replace (i + 1 + Z.of_nat (length l) + 1) with (i + Z.of_nat (S (length l)) + 1) by lia. tauto.
Qed.

Lemma verifyRecords_snoc l r o t :
  verifyRecords (l ++ [r]) o t = Ok tt <->
  verifyRecords l o t = Ok tt /\ linked o t (u64 (Z.of_nat (length l) + 1)) (head_hash GenesisHash l) r.
Proof. unfold verifyRecords. rewrite verify_links_snoc. by rewrite Z.add_0_l. Qed.

(** Two records of two logs whose hashed messages are a collision of SHA-256 *)
Definition chains_collide (l l' : list AuditRecord) : Prop :=
  exists r s, r ∈ l /\ s ∈ l' /\ records_collide r s.

Lemma chains_collide_snoc l l' r r' : chains_collide l l' -> chains_collide (l ++ [r]) (l' ++ [r']).
Proof. intros (x & y & Hx & Hy & H). exists x, y. rewrite !elem_of_app. tauto. Qed.

(** C2. Tamper evidence: two logs of a tenant that both verify, and whose last records
    have the same chain hash, are the same log, record by record and field by field,
    unless two of their records exhibit a collision of SHA-256.  No record can be
    altered, dropped, inserted or reordered under an unchanged head. *)
Theorem verified_logs_with_one_head_are_equal o t l l' r r'
  (Htyped : Forall record_typed (l ++ [r])) (Htyped' : Forall record_typed (l' ++ [r']))
  (Hlen : Z.of_nat (length (l ++ [r])) < 2 ^ 64) (Hlen' : Z.of_nat (length (l' ++ [r'])) < 2 ^ 64)
  (Hverify : verifyRecords (l ++ [r]) o t = Ok tt) (Hverify' : verifyRecords (l' ++ [r']) o t = Ok tt)
  (Hhead : r_ChainHash r = r_ChainHash r') :
  (l ++ [r] = l' ++ [r'])%list \/ chains_collide (l ++ [r]) (l' ++ [r']).
Proof.
  revert l' r r' Htyped Htyped' Hlen Hlen' Hverify Hverify' Hhead.
  induction l as [|x l IH] using rev_ind; intros l' r r' Ht Ht' Hlen Hlen' Hv Hv' Hh;
    rewrite length_app in Hlen, Hlen'; cbn in Hlen, Hlen';
    apply Forall_app in Ht as [Htl [Htr _]%Forall_cons], Ht' as [Htl' [Htr' _]%Forall_cons];
    rewrite verifyRecords_snoc in Hv, Hv'; destruct Hv as [Hv (_ & _ & Hr)], Hv' as [Hv' (_ & _ & Hr')];
    (destruct (chain_hash_binds _ _ _ _ _ _ Htr Htr' Hr Hr' Hh) as [<-|Hcol];
      [|right; exists r, r'; rewrite !elem_of_app, !list_elem_of_singleton; tauto]);
    destruct Hr as [_ Hseq Hprev _ _], Hr' as [_ Hseq' Hprev' _ _];
    rewrite Hseq in Hseq'; rewrite Hprev in Hprev'; 
    rewrite !u64_small in Hseq' by (rewrite ?length_app in *; cbn [length] in *; lia).
  - left. destruct l' as [|y l']; [done|]. cbn in Hseq'. lia.
  - destruct l' as [|y l' _] using rev_ind; [rewrite length_app in Hseq'; cbn in Hseq'; lia|].
    rewrite !head_hash_snoc in Hprev'.
    destruct (IH l' x y) as [->|Hcol]; try done; try (rewrite length_app in *; cbn in *; lia); [by left|].
    right. by apply chains_collide_snoc.
Qed.

Lemma ex_record : exists r, BuildRecord ex_event 1 GenesisHash ex_appended = Ok r.
Proof. apply is_ok_true. exact ex_build. Qed.

Lemma built_verifies_alone r : BuildRecord ex_event 1 GenesisHash ex_appended = Ok r ->
  verifyRecords [r] (e_OrganizationID ex_event) (e_TenantID ex_event) = Ok tt /\ record_typed r.
Proof.
  intros H. assert (Hone : is_u64 1) by (unfold is_u64; lia).
  pose proof (BuildRecord_typed _ _ _ _ _ ex_event_typed Hone H) as Ht.
  apply BuildRecord_ok in H as (Hv & _ & _ & Ho & Hn). split; [|done].
  apply (verifyRecords_snoc []). split; [done|]. by split_and!.
Qed.

Lemma verified_logs_with_one_head_are_equal_witness :
  exists r, verifyRecords ([] ++ [r]) (e_OrganizationID ex_event) (e_TenantID ex_event) = Ok tt /\
    (([] ++ [r] = [] ++ [r])%list \/ chains_collide ([] ++ [r]) ([] ++ [r])).
Proof.
  destruct ex_record as [r Hr]. destruct (built_verifies_alone r Hr) as [Hv Ht]. exists r. split; [exact Hv|].
  assert (Hall : Forall record_typed ([] ++ [r])) by (constructor; [exact Ht|constructor]).
  assert (Hone : Z.of_nat (length ([] ++ [r])%list) < 2 ^ 64) by (cbn; lia).
  exact (verified_logs_with_one_head_are_equal _ _ [] [] r r Hall Hall Hone Hone Hv Hv eq_refl).
Defined.

(** ** Digests *)

Lemma lower_hex_byte c : is_hex_lower c =
  negb ((byte_val c <? 48) || ((57 <? byte_val c) && (byte_val c <? 97)) || (102 <? byte_val c)).
Proof. unfold is_hex_lower, is_digit, byte_in, in_range. lia. Qed.

Lemma substring_app p s : String.substring (String.length p) (String.length s) (p ++ s) = s.
Proof.
  induction p as [|c p IH]; cbn; [|done]. induction s as [|c s IH]; cbn; [done|]. by rewrite IH.
Qed.

Lemma digest_shape s : digestPattern s = true -> exists t, s = "sha256:" ++ t /\ str_forallb is_hex_lower t = true.
Proof.
  Transparent digestPattern. unfold digestPattern, digest_regex. Opaque digestPattern.
  intros (p & t & -> & Hp & Ht)%matches_lang%lang_cat_inv. exists t. split.
  - f_equal. by apply lang_lit_inv in Hp.
  - refine (lang_alphabet _ _ _ _ Ht). apply alphabet_times. vm_compute. reflexivity.
Qed.

Lemma validDigest_pattern s : digestPattern s = true -> validDigest s = true.
Proof.
  intros H. pose proof (digestPattern_length s H) as Hl. apply digest_shape in H as (t & -> & Ht).
  unfold validDigest, len. rewrite Hl. apply andb_true_iff. split; [by destruct t|].
  assert (Ht' : (71 - 7)%nat = String.length t) by (rewrite length_append in Hl; cbn in Hl; lia).
  rewrite Ht'. clear Ht'.
  change 7%nat with (String.length "sha256:"). rewrite substring_app. revert Ht. apply str_forallb_impl. intros c. by rewrite lower_hex_byte.
Qed.

(** ** Every commit the service submits passes the guard *)

(** The ports return values of their Go types. *)
Class TypedPorts (W : Type) `{AuditPorts W} : Prop := {
  LoadHead_typed : forall o t w h w', LoadHead o t w = (Ok h, w') -> head_typed h;
  SignAuditCheckpoint_typed : forall d w c w', checkpoint_typed d ->
    SignAuditCheckpoint d w = (Ok c, w') -> checkpoint_typed c }.

Section guard.
Context {W : Type} {Ports : AuditPorts W} {Typed : TypedPorts W}.

(** A checkpoint the guard accepts beside [record] on top of [head] *)
Definition signed_draft (head : Head) (record : AuditRecord) (now : Time) (checkpointID : string)
  (sequence : Z) (chainHash reason : string) (c : Checkpoint) : Prop :=
  c_OrganizationID c = r_OrganizationID record /\ c_TenantID c = r_TenantID record /\
  c_CoveredFromSequence c = u64 (h_LastCheckpointSequence head + 1) /\ c_Sequence c = sequence /\
  c_RecordCount c = u64 (sequence - h_LastCheckpointSequence head) /\ c_ChainHash c = chainHash /\
  c_Reason c = reason /\ c_CreatedAt c = formatTime now /\ c_CheckpointID c = checkpointID.

Lemma sameCheckpointDraft_ok head record now id sequence hash reason signed :
  is_u64 sequence -> checkpoint_typed signed ->
  sameCheckpointDraft (checkpoint_draft head record now id sequence hash reason) signed = true ->
  signed_draft head record now id sequence hash reason signed.
Proof.
  intros Hseq Hs H. unfold sameCheckpointDraft in H. cbv zeta in H.
  destruct (CanonicalCheckpoint (mkCheckpoint _ _ _ _ _ _ _ _ _ _ _ _ _ _ _)) as [a|] eqn:Ea; [|done].
  destruct (CanonicalCheckpoint signed) as [b|] eqn:Eb; [|done]. apply String.eqb_eq in H as ->.
  assert (Hd : checkpoint_typed (mkCheckpoint
    (c_SchemaVersion (checkpoint_draft head record now id sequence hash reason))
    (c_ContractVersion (checkpoint_draft head record now id sequence hash reason))
    (c_CheckpointID (checkpoint_draft head record now id sequence hash reason))
    (c_OrganizationID (checkpoint_draft head record now id sequence hash reason))
    (c_TenantID (checkpoint_draft head record now id sequence hash reason))
    (c_CoveredFromSequence (checkpoint_draft head record now id sequence hash reason))
    (c_Sequence (checkpoint_draft head record now id sequence hash reason))
    (c_RecordCount (checkpoint_draft head record now id sequence hash reason))
    (c_ChainHash (checkpoint_draft head record now id sequence hash reason))
    (c_Reason (checkpoint_draft head record now id sequence hash reason))
    (c_SigningKeyID signed) (c_SigningKeyRevision signed) (c_SignatureAlgorithm signed)
    (c_CreatedAt (checkpoint_draft head record now id sequence hash reason)) (c_Signature signed))).
  { destruct Hs as (_ & _ & _ & Hrev). split_and!; [apply u64_is_u64|exact Hseq|apply u64_is_u64|exact Hrev]. }
  rewrite <- (canonical_checkpoint_inj _ _ _ Hd Hs Ea Eb). done.
Qed.

Lemma checkpointFor_ok head record now w c w' : is_u64 (h_Sequence head) -> is_u64 (r_Sequence record) ->
  checkpointFor head record now w = (Ok c, w') ->
  let '(sequence, chainHash, reason) := checkpointTarget head record now in
  match c with
  | None => reason = ""
  | Some c => reason <> "" /\ checkpoint_valid c /\ checkpoint_typed c /\ exists id, signed_draft head record now id sequence chainHash reason c
  end.
Proof.
  unfold checkpointFor. intros Hh Hr.
  assert (Hs : is_u64 (fst (fst (checkpointTarget head record now)))).
  { unfold checkpointTarget. repeat case_match; cbn; done. }
  destruct (checkpointTarget head record now) as [[sequence hash] reason]. cbn in Hs.
  destruct (String.eqb_spec reason "") as [->|Hne]; [by intros [= <- <-]|].
  intros H. apply prog_bind_ok in H as (id & w1 & _ & H). cbv zeta in H.
  apply prog_bind_ok in H as (signed & w2 & Hsign%map_err_ok & H).
  apply SignAuditCheckpoint_typed in Hsign; [|split_and!; try apply u64_is_u64; done].
  apply prog_bind_ok in H as (? & w3 & [Hsame _]%pure_ok & H).
  apply prog_bind_ok in H as (authority & w4 & _ & H).
  apply prog_bind_ok in H as (? & w5 & [Hg _]%pure_ok & H). injection H as <- _.
  apply deny_if_ok in Hsame, Hg. bool_split.
  split; [done|]. split; [|split; [done|exists id; by apply sameCheckpointDraft_ok]].
  match goal with H : is_ok (VerifyCheckpoint _ _ _) = true |- _ => apply is_ok_true in H as [[] Hv] end.
  unfold VerifyCheckpoint in Hv. apply seq_ok in Hv as [Hv _]. apply deny_if_ok in Hv. bool_split.
  match goal with H : is_ok (ValidateCheckpoint _) = true |- _ => apply is_ok_true in H as [[] H] end.
  by apply ValidateCheckpoint_ok.
Qed.

(** What [prepareCommit] submits *)
Lemma prepareCommit_ok event now w commit w' : event_typed event ->
  prepareCommit event now w = (Ok commit, w') ->
  exists head record,
    commit = mkCommit (e_EventID event) (r_EventDigest record) head record (k_Checkpoint commit) /\
    head_typed head /\ record_typed record /\
    (h_Sequence head = 0 -> h_ChainHash head = GenesisHash) /\
    (h_Sequence head <> 0 -> validateHead head (e_OrganizationID event) (e_TenantID event) = Ok tt) /\
    BuildRecord event (u64 (h_Sequence head + 1)) (h_ChainHash head) (formatTime now) = Ok record /\
    exists w1, checkpointFor head record now w1 = (Ok (k_Checkpoint commit), w').
Proof.
  intros He. unfold prepareCommit. intros H.
  apply prog_bind_ok in H as (head & w1 & Hload%map_err_ok%LoadHead_typed & H).
  apply prog_bind_ok in H as (? & w2 & [Hhead ->]%pure_ok & H). destruct x. cbv zeta in H.
  set (h := if h_Sequence head =? 0 then set_head_ChainHash head GenesisHash else head) in *.
  apply prog_bind_ok in H as (record & w3 & [Hb%or_err_ok ->]%pure_ok & H).
  apply prog_bind_ok in H as (checkpoint & w4 & Hc & H). injection H as <- <-.
  assert (Hh : head_typed h) by (unfold h; by destruct (_ =? 0)).
  exists h, record. split_and!; try done.
  - by eapply BuildRecord_typed; [done|apply u64_is_u64|].
  - unfold h. destruct (Z.eqb_spec (h_Sequence head) 0); [done|done].
  - unfold h. by destruct (Z.eqb_spec (h_Sequence head) 0).
  - by exists w1.
Qed.

Lemma eventIdentity_nonempty s : eventIdentity s = true -> String.eqb s "" = false.
Proof.
  unfold eventIdentity. intros H. apply String.eqb_neq. intros ->.
  apply orb_true_iff in H as [H%uuid_nonempty|H%digestPattern_nonempty]; done.
Qed.

(** The guard's head and record checks, for a record built on the head *)
Lemma guard_links head record event at_ : h_Sequence head <> 0 \/ h_ChainHash head = GenesisHash ->
  (h_Sequence head <> 0 -> validateHead head (e_OrganizationID event) (e_TenantID event) = Ok tt) ->
  BuildRecord event (u64 (h_Sequence head + 1)) (h_ChainHash head) at_ = Ok record ->
  (if (h_Sequence head =? 0) && String.eqb (h_ChainHash head) "" then GenesisHash else h_ChainHash head)
    = h_ChainHash head /\
  ((0 <? h_Sequence head) && negb (is_ok (validateHead head (r_OrganizationID record) (r_TenantID record)))) ||
   negb (r_Sequence record =? u64 (h_Sequence head + 1)) ||
   negb (is_ok (VerifyRecord record (r_Sequence record) (h_ChainHash head))) = false.
Proof.
  intros Hz Hhead H. apply BuildRecord_ok in H as (Hv & He & _ & Ho & Ht).
  pose proof (vr_sequence _ _ _ Hv) as Hseq. split.
  - destruct Hz as [Hz| ->]; [apply Z.eqb_neq in Hz; by rewrite Hz|by rewrite andb_false_r].
  - rewrite Ho, Ht, Hseq, Z.eqb_refl. apply VerifyRecord_ok in Hv. rewrite Hv.
    destruct (Z.ltb_spec 0 (h_Sequence head)); [|done]. rewrite Hhead by lia. done.
Qed.

(** The service and the guard agree: whatever the store, the signer, the resolver and the
    clock return, a commit that the service prepares for a valid event passes
    [ValidateCommit], the check every storage adapter runs before it persists.  In
    particular the checkpoint the service decides on is the one the guard demands. *)
Lemma prepared_commits_pass_the_guard event now w commit w'
  (Hevent : event_typed event) (Hvalid : ValidateEvent event = Ok tt)
  (Hprepare : prepareCommit event now w = (Ok commit, w')) :
  ValidateCommit commit = Ok tt.
Proof.
  apply prepareCommit_ok in Hprepare as (head & record & -> & Hh & Hr & Hzero & Hhead & Hb & w1 & Hc); [|done].
  apply checkpointFor_ok in Hc; [|by apply Hh|by apply Hr].
  assert (Hz : h_Sequence head <> 0 \/ h_ChainHash head = GenesisHash)
    by (destruct (Z.eq_dec (h_Sequence head) 0); tauto).
  destruct (guard_links _ _ _ _ Hz Hhead Hb) as [Hprev Hlink].
  pose proof Hb as (Hv & He & Ha & Ho & Ht)%BuildRecord_ok.
  pose proof (vr_valid _ _ _ Hv) as Hrv. destruct (rv_appended _ Hrv) as (u & Hu & _). rewrite Ha in Hu.
  assert (Hcross : crossedUTCDate (h_LastRecordAt head) (mustTime (r_AppendedAt record)) =
    crossedUTCDate (h_LastRecordAt head) now) by (rewrite Ha, (mustTime_format _ _ Hu); done).
  unfold ValidateCommit. cbn [k_Record k_IdempotencyKey k_RequestDigest k_ExpectedHead k_Checkpoint] in *.
  rewrite Hprev, Hlink, He, !String.eqb_refl.
  rewrite (eventIdentity_nonempty _ (ev_id _ (ValidateEvent_ok _ Hvalid))).
  pose proof Hrv as Hrv'. apply ValidateRecord_ok in Hrv'. rewrite Hrv'.
  cbn [is_ok negb orb deny_if mbind result_bind].
  unfold checkpoint_required_daily, checkpoint_required_limit. rewrite Hcross.
  unfold checkpointTarget in Hc.
  destruct ((h_LastCheckpointSequence head <? h_Sequence head) && crossedUTCDate (h_LastRecordAt head) now);
    [|destruct (CheckpointRecordLimit <=? u64 (r_Sequence record - h_LastCheckpointSequence head)) eqn:Hl];
    (destruct (k_Checkpoint commit) as [c|]; [destruct Hc as (? & Hcv & _ & id & Hd)|done]);
    try done; unfold signed_draft in Hd; destruct Hd as (-> & -> & -> & Hcs & Hcc & -> & -> & _);
    pose proof Hcv as Hcv'; apply ValidateCheckpoint_ok in Hcv'; rewrite Hcv', !String.eqb_refl, Z.eqb_refl;
    cbn [is_ok negb orb deny_if mbind result_bind]; rewrite Hcs, Z.eqb_refl; [done|].
  pose proof (cv_limit _ Hcv) as Hle. apply Z.leb_le in Hl. rewrite Hcc in Hle |- *.
  assert (u64 (r_Sequence record - h_LastCheckpointSequence head) = CheckpointRecordLimit) as -> by lia. done.
Qed.
End guard.
