(* ===== verification/AuditStore.v ===== *)
(** * The store of the audit log, and the life of a log

    The contract the storage adapters implement for [auditlog.Store]: guard, replay by
    idempotency key, optimistic comparison of the head, append.  [commit_log] is that
    contract on one tenant's log, [reachable] the logs any interleaving of clients can
    leave, and [log_ports] a world of such logs with a clock and keys.  Every log that timely
    commits can leave verifies; one with a checkpoint that is older than the record it covers
    never does again. *)

From stdpp Require Import sorting.
From S2P Require Import Prelude GoStrings GoRegexp GoTime GoBase64 GoJson DomainContract Sha256 Domain GoStruct TamperAudit TamperAuditFacts AuditLog AuditLogFacts.

Local Open Scope string_scope.
Local Open Scope Z_scope.

(** ** One tenant's log *)

Record Log : Type := mkLog {
  log_head : Head;
  log_records : list AuditRecord;
  log_checkpoints : list Checkpoint;
  log_replays : gmap string (string * AppendResult) }.

Definition zero_head : Head := mkHead "" "" 0 "" "" 0 "".
Definition empty_log : Log := mkLog zero_head [] [] ∅.

#[export] Instance Head_eq_dec : EqDecision Head.
Proof. solve_decision. Defined.

(** The head of an empty log has an empty chain hash or the genesis hash. *)
Definition normal_head (h : Head) : Head :=
  if (h_Sequence h =? 0) && String.eqb (h_ChainHash h) "" then set_head_ChainHash h GenesisHash else h.

Definition same_head (h h' : Head) : bool := bool_decide (normal_head h = normal_head h').

Definition commit_result (commit : Commit) : AppendResult :=
  mkAppendResult (r_Sequence (k_Record commit)) (r_ChainHash (k_Record commit))
    (match k_Checkpoint commit with Some c => c_CheckpointID c | None => "" end) false.

Definition replayed (a : AppendResult) : AppendResult :=
  mkAppendResult (a_Sequence a) (a_ChainHash a) (a_CheckpointID a) true.

Definition optional_checkpoint (c : option Checkpoint) : list Checkpoint :=
  match c with Some c => [c] | None => [] end.

(** The log after a commit that was accepted *)
Definition apply_commit (commit : Commit) (log : Log) : Log :=
  let record := k_Record commit in
  let expected := k_ExpectedHead commit in
  let '(checkpointSequence, checkpointAt) :=
    match k_Checkpoint commit with
    | Some c => (c_Sequence c, c_CreatedAt c)
    | None => (h_LastCheckpointSequence expected, h_LastCheckpointAt expected)
    end in
  mkLog
    (mkHead (r_OrganizationID record) (r_TenantID record) (r_Sequence record) (r_ChainHash record)
       (r_AppendedAt record) checkpointSequence checkpointAt)
    (log_records log ++ [record])
    (log_checkpoints log ++ optional_checkpoint (k_Checkpoint commit))
    (<[k_IdempotencyKey commit := (k_RequestDigest commit, commit_result commit)]> (log_replays log)).

Definition commit_log (commit : Commit) (log : Log) : result store_error AppendResult * Log :=
  match ValidateCommit commit with
  | Err ErrInvalidInput => (Err (StorageFailure StorageInvalidInput), log)
  | Err _ => (Err (StorageFailure StorageDenied), log)
  | Ok _ =>
      match log_replays log !! k_IdempotencyKey commit with
      | Some (digest, answer) =>
          if String.eqb digest (k_RequestDigest commit) then (Ok (replayed answer), log)
          else (Err (StorageFailure StorageConflict), log)
      | None =>
          if same_head (log_head log) (k_ExpectedHead commit)
          then (Ok (commit_result commit), apply_commit commit log)
          else (Err (StorageFailure StorageConflict), log)
      end
  end.

(** ** Logs that clients can leave *)

(** A commit of Go values, for the tenant of the log, stamped by a clock that was set
    ([Append] refuses a zero time) *)
Definition commit_for (o t : string) (commit : Commit) : Prop :=
  record_typed (k_Record commit) /\ is_zero (mustTime (r_AppendedAt (k_Record commit))) = false /\
  (forall c, k_Checkpoint commit = Some c -> checkpoint_typed c) /\
  r_OrganizationID (k_Record commit) = o /\ r_TenantID (k_Record commit) = t.

(** The checkpoint of the commit was not created before the last record it covers. *)
Definition timely (commit : Commit) : Prop := forall c, k_Checkpoint commit = Some c ->
  nanos (mustTime (if c_Sequence c =? r_Sequence (k_Record commit)
                   then r_AppendedAt (k_Record commit) else h_LastRecordAt (k_ExpectedHead commit)))
  <= nanos (mustTime (c_CreatedAt c)).

(** Any sequence of commits by any clients, conflicting and replayed ones included *)
Inductive reachable (o t : string) : Log -> Prop :=
| reach_empty : reachable o t empty_log
| reach_commit log commit answer log' : reachable o t log -> commit_for o t commit -> timely commit ->
    commit_log commit log = (answer, log') -> reachable o t log'.

(** ** The invariant *)

Definition last_sequence (previous : Z) (l : list Checkpoint) : Z :=
  match last l with Some c => c_Sequence c | None => previous end.

Fixpoint checkpoints_in_place (records : list AuditRecord) (o t : string) (previous : Z) (seen : list Z)
  (l : list Checkpoint) : result log_error unit :=
  match l with
  | [] => Ok tt
  | c :: l' =>
      checkpoint_in_place records o t previous seen c ;;
      checkpoints_in_place records o t (c_Sequence c) (c_Sequence c :: seen) l'
  end.

(** The keys of [bySequence] after the loop *)
Fixpoint sequences_seen (seen : list Z) (l : list Checkpoint) : list Z :=
  match l with [] => seen | c :: l' => sequences_seen (c_Sequence c :: seen) l' end.

Definition head_matches (o t : string) (log : Log) : Prop :=
  match last (log_records log) with
  | None => log_head log = zero_head
  | Some r =>
      h_OrganizationID (log_head log) = o /\ h_TenantID (log_head log) = t /\
      h_Sequence (log_head log) = Z.of_nat (length (log_records log)) /\
      h_ChainHash (log_head log) = r_ChainHash r /\ h_LastRecordAt (log_head log) = r_AppendedAt r /\
      h_LastCheckpointSequence (log_head log) = last_sequence 0 (log_checkpoints log)
  end.

Record log_inv (o t : string) (log : Log) : Prop := {
  inv_records : verifyRecords (log_records log) o t = Ok tt;
  inv_typed : Forall record_typed (log_records log);
  inv_stamped : Forall (fun r => is_zero (mustTime (r_AppendedAt r)) = false) (log_records log);
  inv_length : Z.of_nat (length (log_records log)) < 2 ^ 64;
  inv_head : head_matches o t log;
  inv_checkpoints : checkpoints_in_place (log_records log) o t 0 [] (log_checkpoints log) = Ok tt;
  inv_checkpoints_valid : Forall checkpoint_valid (log_checkpoints log);
  inv_increasing : StronglySorted (fun c d => c_Sequence c < c_Sequence d) (log_checkpoints log);
  inv_last : 0 <= last_sequence 0 (log_checkpoints log) <= Z.of_nat (length (log_records log));
  inv_limit : Z.of_nat (length (log_records log)) - last_sequence 0 (log_checkpoints log) < CheckpointRecordLimit;
  inv_dates : dates_checkpointed 1 (sequences_seen [] (log_checkpoints log)) (log_records log) = true }.

(** The part of it that does not depend on when checkpoints are created *)
Record chain_inv (o t : string) (log : Log) : Prop := {
  ch_records : verifyRecords (log_records log) o t = Ok tt;
  ch_length : Z.of_nat (length (log_records log)) < 2 ^ 64;
  ch_head : head_matches o t log;
  ch_last : 0 <= last_sequence 0 (log_checkpoints log) <= Z.of_nat (length (log_records log)) }.

Lemma inv_chain o t log : log_inv o t log -> chain_inv o t log.
Proof. intros []. by split. Qed.

(** *** Lists of checkpoints *)

Lemma sequences_seen_elem seen l x : x ∈ sequences_seen seen l <-> x ∈ seen \/ x ∈ map c_Sequence l.
Proof.
  revert seen. induction l as [|c l IH]; intros seen; cbn; [set_solver|]. rewrite IH. set_solver.
Qed.

Lemma last_sequence_snoc previous l c : last_sequence previous (l ++ [c]) = c_Sequence c.
Proof. unfold last_sequence. by rewrite last_snoc. Qed.

Lemma last_sequence_cons previous c l : last_sequence previous (c :: l) = last_sequence (c_Sequence c) l.
Proof.
  unfold last_sequence. rewrite last_cons. destruct (last l) eqn:E; [done|]. by apply last_None in E as ->.
Qed.

Lemma sequences_seen_snoc seen l c : sequences_seen seen (l ++ [c]) = c_Sequence c :: sequences_seen seen l.
Proof. revert seen. induction l as [|d l IH]; intros seen; [done|]. apply IH. Qed.

Lemma checkpoints_in_place_snoc records o t c l : forall previous seen,
  checkpoints_in_place records o t previous seen (l ++ [c]) = Ok tt <->
  checkpoints_in_place records o t previous seen l = Ok tt /\
  checkpoint_in_place records o t (last_sequence previous l) (sequences_seen seen l) c = Ok tt.
Proof.
  induction l as [|d l IH]; intros previous seen; cbn [app checkpoints_in_place sequences_seen].
  - rewrite seq_ok. cbn. tauto.
  - rewrite !seq_ok, IH, last_sequence_cons. tauto.
Qed.

Lemma checkpoint_in_place_grow records r o t previous seen c :
  checkpoint_in_place records o t previous seen c = Ok tt ->
  checkpoint_in_place (records ++ [r]) o t previous seen c = Ok tt.
Proof.
  unfold checkpoint_in_place. rewrite !seq_ok, !deny_if_ok, !orb_false_iff, length_app, Nat2Z.inj_add.
  intros [Hg H]. rewrite !Z.ltb_ge in *. destruct (records !! _) as [x|] eqn:E; [|done].
  rewrite (lookup_app_l_Some _ _ _ _ E). split; [|done]. cbn [length]. intuition lia.
Qed.

Lemma checkpoints_in_place_grow records r o t l : forall previous seen,
  checkpoints_in_place records o t previous seen l = Ok tt ->
  checkpoints_in_place (records ++ [r]) o t previous seen l = Ok tt.
Proof.
  induction l as [|c l IH]; intros previous seen; [done|]. cbn. rewrite !seq_ok.
  intros [? ?]. split; [by apply checkpoint_in_place_grow | by apply IH].
Qed.

Lemma increasing_last l c : StronglySorted (fun c d => c_Sequence c < c_Sequence d) l -> c ∈ l ->
  c_Sequence c <= last_sequence 0 l.
Proof.
  induction l as [|d l IH] using rev_ind; [intros _ H; by apply not_elem_of_nil in H|].
  rewrite last_sequence_snoc, elem_of_app, list_elem_of_singleton. intros Hs [Hc| ->]; [|done].
  apply StronglySorted_app in Hs as (Hlt & _ & _). specialize (Hlt c d Hc ltac:(by left)). lia.
Qed.

Lemma increasing_snoc l c : StronglySorted (fun c d => c_Sequence c < c_Sequence d) l ->
  (forall d, d ∈ l -> c_Sequence d < c_Sequence c) ->
  StronglySorted (fun c d => c_Sequence c < c_Sequence d) (l ++ [c]).
Proof.
  intros Hs Hc. apply StronglySorted_app. split_and!; [|done|by repeat constructor].
  intros d x Hd ->%list_elem_of_singleton. by apply Hc.
Qed.

Lemma dates_snoc l a b seen : forall i,
  dates_checkpointed i seen ((l ++ [a]) ++ [b]) =
  dates_checkpointed i seen (l ++ [a]) &&
  (negb (crossedUTCDate (r_AppendedAt a) (mustTime (r_AppendedAt b))) ||
   bool_decide (i + Z.of_nat (length l) ∈ seen)).
Proof.
  induction l as [|x l IH]; intros i; cbn [app length].
  - cbn. rewrite Z.add_0_r, andb_true_r. done.
  - specialize (IH (i + 1)). replace (i + Z.of_nat (S (length l))) with (i + 1 + Z.of_nat (length l)) by lia.
    destruct l as [|y l]; cbn [app dates_checkpointed] in *; by rewrite IH, andb_assoc.
Qed.

Lemma dates_mono i seen seen' l : (forall x, x ∈ seen -> x ∈ seen') ->
  dates_checkpointed i seen l = true -> dates_checkpointed i seen' l = true.
Proof.
  intros Hsub. revert i. induction l as [|a [|b l] IH]; intros i; try done.
  cbn [dates_checkpointed]. rewrite !andb_true_iff. intros [H1 H2]. split; [|by apply IH].
  apply orb_true_iff in H1 as [->|H1]; [done|]. apply bool_decide_eq_true in H1.
  apply orb_true_iff. right. apply bool_decide_eq_true. by apply Hsub.
Qed.

(** *** What the guard establishes *)

Definition previous_hash (commit : Commit) : string := h_ChainHash (normal_head (k_ExpectedHead commit)).

Lemma previous_hash_eq h : h_ChainHash (normal_head h) =
  if (h_Sequence h =? 0) && String.eqb (h_ChainHash h) "" then GenesisHash else h_ChainHash h.
Proof. unfold normal_head. by destruct (_ && _). Qed.

(** The checkpoint decision *)
Definition checkpoint_decided (commit : Commit) : Prop :=
  let record := k_Record commit in
  let expected := k_ExpectedHead commit in
  let daily := checkpoint_required_daily expected record in
  let limit := checkpoint_required_limit expected record in
  match k_Checkpoint commit with
  | None => daily = false /\ limit = false
  | Some c =>
      checkpoint_valid c /\ c_OrganizationID c = r_OrganizationID record /\
      c_TenantID c = r_TenantID record /\
      c_CoveredFromSequence c = u64 (h_LastCheckpointSequence expected + 1) /\
      ((daily = true /\ c_Sequence c = h_Sequence expected /\ c_ChainHash c = previous_hash commit) \/
       (daily = false /\ c_Sequence c = r_Sequence record /\ c_ChainHash c = r_ChainHash record))
  end.

Lemma ValidateCommit_ok commit : ValidateCommit commit = Ok tt ->
  record_verified (k_Record commit) (u64 (h_Sequence (k_ExpectedHead commit) + 1)) (previous_hash commit) /\
  k_IdempotencyKey commit = e_EventID (r_Event (k_Record commit)) /\
  k_RequestDigest commit = r_EventDigest (k_Record commit) /\ checkpoint_decided commit.
Proof.
  unfold ValidateCommit. rewrite !seq_ok, !deny_if_ok. intros (H1 & H2 & H3).
  rewrite <- previous_hash_eq in H2, H3. fold (previous_hash commit) in H2, H3.
  rewrite !orb_false_iff, !negb_false_iff in H1. rewrite !orb_false_iff, !negb_false_iff in H2.
  destruct H1 as [[[_ Hk] Hd] _].
  destruct H2 as [[_ Hs] [[] Hv]%is_ok_true]. apply String.eqb_eq in Hk, Hd. apply Z.eqb_eq in Hs.
  rewrite VerifyRecord_ok, Hs in Hv. split_and!; try done. unfold checkpoint_decided.
  destruct (k_Checkpoint commit) as [c|].
  - apply seq_ok in H3 as [Hc H3]. apply deny_if_ok in Hc. rewrite !orb_false_iff, !negb_false_iff in Hc.
    destruct Hc as [[[[[] Hc]%is_ok_true Ho] Ht] Hf]. apply ValidateCheckpoint_ok in Hc.
    apply String.eqb_eq in Ho, Ht. apply Z.eqb_eq in Hf. split_and!; try done.
    repeat case_match; try done; apply deny_if_ok in H3; rewrite !orb_false_iff, ?negb_false_iff in H3;
      rewrite ?Z.eqb_eq, ?String.eqb_eq in H3; tauto.
  - apply deny_if_ok, orb_false_iff in H3. done.
Qed.

(** *** Preservation *)

Section preserve.
Context (o t : string) (log : Log) (commit : Commit).
Hypothesis Hchain : chain_inv o t log.
Hypothesis Hfor : commit_for o t commit.
Hypothesis Hguard : ValidateCommit commit = Ok tt.
Hypothesis Hsame : same_head (log_head log) (k_ExpectedHead commit) = true.

Let n : Z := Z.of_nat (length (log_records log)).
Let p : Z := last_sequence 0 (log_checkpoints log).
Let r : AuditRecord := k_Record commit.
Let h : Head := k_ExpectedHead commit.

Lemma expected_head : h_Sequence h = n /\ h_LastCheckpointSequence h = p /\
  previous_hash commit = head_hash GenesisHash (log_records log) /\
  (forall x, last (log_records log) = Some x -> h_LastRecordAt h = r_AppendedAt x).
Proof.
  apply bool_decide_eq_true in Hsame. unfold previous_hash. fold h in Hsame |- *.
  assert (Hf : forall y, h_Sequence (normal_head y) = h_Sequence y /\
    h_LastCheckpointSequence (normal_head y) = h_LastCheckpointSequence y /\
    h_LastRecordAt (normal_head y) = h_LastRecordAt y).
  { intros y. unfold normal_head. by destruct (_ && _). }
  destruct (Hf h) as (<- & <- & <-). rewrite <- Hsame. destruct (Hf (log_head log)) as (-> & -> & ->).
  pose proof (ch_head _ _ _ Hchain) as Hm. pose proof (ch_last _ _ _ Hchain) as Hl.
  unfold head_matches in Hm. unfold head_hash, n, p.
  destruct (last (log_records log)) as [x|] eqn:E.
  - destruct Hm as (_ & _ & Hs & Hc & Ha & Hp). rewrite Hs, Ha, Hp. split_and!; try done; [|by intros ? [= <-]].
    rewrite previous_hash_eq, Hs, Hc. destruct (Z.eqb_spec (Z.of_nat (length (log_records log))) 0); [|done].
    destruct (log_records log); [done|cbn in *; lia].
  - rewrite Hm. apply last_None in E. rewrite E in Hl |- *. cbn in Hl |- *. split_and!; try done. lia.
Qed.

Lemma commit_record : linked o t (u64 (n + 1)) (head_hash GenesisHash (log_records log)) r /\
  r_Sequence r = n + 1 /\ n + 1 < 2 ^ 64.
Proof.
  destruct expected_head as (Hs & _ & Hp & _).
  destruct (ValidateCommit_ok _ Hguard) as (Hv & _). fold r h in Hv. rewrite Hs, Hp in Hv.
  destruct Hfor as (_ & _ & _ & Ho & Ht). fold r in Ho, Ht.
  pose proof (vr_sequence _ _ _ Hv) as Hseq. pose proof (rv_sequence _ (vr_valid _ _ _ Hv)) as Hnz.
  pose proof (ch_length _ _ _ Hchain) as Hlen. fold n in Hlen. assert (0 <= n) by (unfold n; lia).
  assert (n + 1 < 2 ^ 64).
  { destruct (Z.eq_dec (n + 1) (2 ^ 64)) as [E|]; [|lia]. rewrite Hseq, E in Hnz. by destruct Hnz. }
  split_and!; [|by rewrite Hseq, u64_small by lia|done]. done.
Qed.

(** Where the commit's checkpoint sits *)
Lemma commit_checkpoint c : k_Checkpoint commit = Some c ->
  checkpoint_valid c /\ c_OrganizationID c = o /\ c_TenantID c = t /\ c_CoveredFromSequence c = u64 (p + 1) /\
  c_RecordCount c = u64 (c_Sequence c - p) /\ p < c_Sequence c /\ (c_Sequence c = n \/ c_Sequence c = n + 1) /\
  exists x, (log_records log ++ [r])%list !! Z.to_nat (c_Sequence c - 1) = Some x /\
    c_ChainHash c = r_ChainHash x /\
    r_AppendedAt x = if c_Sequence c =? r_Sequence r then r_AppendedAt r else h_LastRecordAt h.
Proof.
  intros Hc. destruct expected_head as (Hs & Hp & Hh & Hat). destruct commit_record as (_ & Hr & Hn).
  destruct (ValidateCommit_ok _ Hguard) as (_ & _ & _ & Hd). unfold checkpoint_decided in Hd.
  rewrite Hc in Hd. fold r h in Hd. cbv zeta in Hd.
  destruct Hd as (Hv & Ho & Ht & Hf & Hcase). destruct Hfor as (_ & _ & Hct & Hro & Hrt).
  fold r in Hro, Hrt. rewrite Hro in Ho. rewrite Hrt in Ht. rewrite Hp in Hf.
  destruct (Hct c Hc) as (_ & Hcs & _). pose proof (ch_last _ _ _ Hchain) as Hl. fold p n in Hl.
  pose proof (cv_sequence _ Hv) as Hle. rewrite Hf, u64_small in Hle by lia.
  pose proof (cv_count _ Hv) as Hcount. unfold is_u64 in Hcs.
  rewrite Hf, (u64_small (p + 1)), (u64_small (c_Sequence c - (p + 1))) in Hcount by lia.
  replace (c_Sequence c - (p + 1) + 1) with (c_Sequence c - p) in Hcount by lia.
  split_and!; try done; [lia|destruct Hcase as [(_ & -> & _)|(_ & -> & _)]; lia|].
  destruct Hcase as [(_ & Hseq & Hhash)|(_ & Hseq & Hhash)].
  - rewrite Hs in Hseq. rewrite Hh in Hhash. unfold head_hash in Hhash.
    destruct (log_records log) as [|a l _] eqn:E using rev_ind; [unfold n in *; cbn in *; lia|].
    exists a. rewrite last_snoc in Hhash. rewrite Hseq.
    destruct (Z.eqb_spec n (r_Sequence r)); [lia|]. rewrite (Hat a) by (by rewrite last_snoc).
    split_and!; try done. unfold n. rewrite length_app. cbn [length].
    replace (Z.to_nat (Z.of_nat (length l + 1) - 1)) with (length l) by lia.
    rewrite <- app_assoc. by apply list_lookup_middle.
  - exists r. rewrite Hseq, Z.eqb_refl. split_and!; try done. rewrite Hr. unfold n.
    replace (Z.to_nat (Z.of_nat (length (log_records log)) + 1 - 1)) with (length (log_records log)) by lia.
    by apply list_lookup_middle.
Qed.

Lemma last_sequence_app previous l l' : last_sequence previous (l ++ l') = last_sequence (last_sequence previous l) l'.
Proof.
  revert previous. induction l as [|c l IH]; intros previous; [done|].
  cbn [app]. by rewrite !last_sequence_cons, IH.
Qed.

Lemma apply_commit_lists : log_records (apply_commit commit log) = (log_records log ++ [r])%list /\
  log_checkpoints (apply_commit commit log) = (log_checkpoints log ++ optional_checkpoint (k_Checkpoint commit))%list.
Proof. unfold apply_commit. by destruct (k_Checkpoint commit). Qed.

Lemma apply_commit_chain : chain_inv o t (apply_commit commit log).
Proof.
  destruct commit_record as (Hlink & Hseq & Hbound). destruct expected_head as (_ & Hp & _).
  destruct apply_commit_lists as [Hrecords Hcps].
  assert (Hlen : Z.of_nat (length (log_records log ++ [r])) = n + 1) by (rewrite length_app; cbn; unfold n; lia).
  pose proof (ch_last _ _ _ Hchain) as Hl. fold p n in Hl.
  split; rewrite ?Hrecords, ?Hcps, ?Hlen; try done.
  - apply verifyRecords_snoc. split; [apply Hchain|exact Hlink].
  - unfold head_matches. rewrite Hrecords, Hcps, last_snoc, Hlen, last_sequence_app. fold p.
    destruct Hlink as (Ho & Ht & _). unfold apply_commit. fold r h.
    destruct (k_Checkpoint commit) as [c|]; split_and!; done.
  - rewrite last_sequence_app. fold p. destruct (k_Checkpoint commit) as [c|] eqn:Hc; cbn [optional_checkpoint].
    + change (last_sequence p [c]) with (c_Sequence c). destruct (commit_checkpoint c Hc) as (_ & _ & _ & _ & _ & ? & ? & _). lia.
    + change (last_sequence p []) with p. lia.
Qed.

Hypothesis Hinv : log_inv o t log.
Hypothesis Htimely : timely commit.

(** Daily crossings and the record limit never pass without a checkpoint. *)
Lemma commit_frequency :
  n + 1 - last_sequence p (optional_checkpoint (k_Checkpoint commit)) < CheckpointRecordLimit /\
  forall x, last (log_records log) = Some x -> p < n ->
    crossedUTCDate (r_AppendedAt x) (mustTime (r_AppendedAt r)) = true ->
    exists c, k_Checkpoint commit = Some c /\ c_Sequence c = n.
Proof.
  destruct expected_head as (Hs & Hp & _ & Hat). destruct commit_record as (_ & Hr & Hn).
  destruct (ValidateCommit_ok _ Hguard) as (_ & _ & _ & Hd). unfold checkpoint_decided in Hd.
  pose proof (inv_last _ _ _ Hinv) as Hl. fold p n in Hl.
  unfold checkpoint_required_daily, checkpoint_required_limit in Hd. fold r h in Hd.
  rewrite Hs, Hp, Hr, (u64_small (n + 1 - p)) in Hd by lia. cbv zeta in Hd.
  destruct (k_Checkpoint commit) as [c|] eqn:Hc; cbn [optional_checkpoint].
  - change (last_sequence p [c]) with (c_Sequence c). destruct (commit_checkpoint c Hc) as (_ & _ & _ & _ & _ & _ & Hcs & _).
    split; [unfold CheckpointRecordLimit; lia|]. intros x Hx Hlt Hcross. exists c. split; [done|].
    rewrite (Hat x Hx), Hcross in Hd. apply Z.ltb_lt in Hlt. rewrite Hlt in Hd.
    destruct Hd as (_ & _ & _ & _ & [(_ & ? & _)|[? _]]); done.
  - change (last_sequence p []) with p. destruct Hd as [Hday Hlim]. apply Z.leb_gt in Hlim. split; [lia|]. intros x Hx Hlt Hcross.
    apply Z.ltb_lt in Hlt. by rewrite (Hat x Hx), Hcross, Hlt in Hday.
Qed.

Lemma seen_last : 0 < p -> p ∈ sequences_seen [] (log_checkpoints log).
Proof.
  intros Hp. apply sequences_seen_elem. right. unfold p, last_sequence in *.
  destruct (last (log_checkpoints log)) as [c|] eqn:E; [|lia].
  apply (list_elem_of_fmap_2 c_Sequence). by apply last_Some_elem_of.
Qed.

Lemma apply_commit_dates :
  dates_checkpointed 1 (sequences_seen [] (log_checkpoints log ++ optional_checkpoint (k_Checkpoint commit)))
    (log_records log ++ [r]) = true.
Proof.
  destruct commit_frequency as [_ Hf]. pose proof seen_last as Hseen. pose proof (inv_dates _ _ _ Hinv) as Hd.
  pose proof (inv_last _ _ _ Hinv) as Hl. fold p n in Hl.
  assert (Hsub : forall x, x ∈ sequences_seen [] (log_checkpoints log) ->
    x ∈ sequences_seen [] (log_checkpoints log ++ optional_checkpoint (k_Checkpoint commit))).
  { intros x. rewrite !sequences_seen_elem, map_app. set_solver. }
  destruct (log_records log) as [|a l _] eqn:E using rev_ind; [done|].
  rewrite dates_snoc, (dates_mono _ _ _ _ Hsub Hd). cbn [andb].
  destruct (crossedUTCDate _ _) eqn:Hcross; [|done]. apply bool_decide_eq_true.
  assert (Hn : 1 + Z.of_nat (length l) = n) by (unfold n; rewrite length_app; cbn; lia). rewrite Hn.
  destruct (Z.eq_dec p n) as [Heq|Hne].
  - apply Hsub. rewrite <- Heq. apply Hseen. lia.
  - destruct (Hf a) as (c & Hc & Hcn); [by rewrite last_snoc|lia|done|].
    rewrite Hc. cbn [optional_checkpoint]. rewrite sequences_seen_snoc, Hcn. by left.
Qed.

Lemma apply_commit_checkpoints :
  let checkpoints := (log_checkpoints log ++ optional_checkpoint (k_Checkpoint commit))%list in
  checkpoints_in_place (log_records log ++ [r]) o t 0 [] checkpoints = Ok tt /\
  Forall checkpoint_valid checkpoints /\
  StronglySorted (fun c d => c_Sequence c < c_Sequence d) checkpoints /\
  0 <= last_sequence 0 checkpoints <= n + 1.
Proof.
  cbv zeta. pose proof (inv_last _ _ _ Hinv) as Hl. fold p n in Hl.
  pose proof (checkpoints_in_place_grow _ r _ _ _ _ _ (inv_checkpoints _ _ _ Hinv)) as Hgrow.
  destruct (k_Checkpoint commit) as [c|] eqn:Hc; cbn [optional_checkpoint].
  2:{ rewrite app_nil_r. fold p. split_and!; try apply Hinv; try done; lia. }
  destruct (commit_checkpoint c Hc) as (Hv & Ho & Ht & Hf & Hcount & Hp & Hn & x & Hx & Hh & Hat).
  pose proof (Htimely c Hc) as Htime. fold r h in Htime. rewrite <- Hat in Htime.
  assert (Hlt : forall d, d ∈ log_checkpoints log -> c_Sequence d < c_Sequence c).
  { intros d Hd. pose proof (increasing_last _ _ (inv_increasing _ _ _ Hinv) Hd) as H. fold p in H. lia. }
  rewrite checkpoints_in_place_snoc, last_sequence_snoc. fold p.
  split_and!; try lia; [done| |apply Forall_app; split; [apply Hinv|by constructor]
    |apply increasing_snoc; [apply Hinv|done]].
  unfold checkpoint_in_place. rewrite Hx, Hh, Ho, Ht, Hf, Hcount, !String.eqb_refl, !Z.eqb_refl, length_app.
  rewrite seq_ok, !deny_if_ok. cbn [negb orb length]. fold n. split.
  - destruct (Z.eqb_spec (c_Sequence c) 0); [lia|]. cbn [orb].
    destruct (Z.ltb_spec (Z.of_nat (length (log_records log) + 1)) (c_Sequence c)); [unfold n in *; lia|done].
  - rewrite bool_decide_false; [|].
    + unfold before. cbn [orb]. apply Z.ltb_ge. done.
    + rewrite sequences_seen_elem. intros [H|(d & Hd & Hin)%list_elem_of_fmap_1].
      * by apply not_elem_of_nil in H.
      * specialize (Hlt d Hin). lia.
Qed.

Lemma apply_commit_inv : log_inv o t (apply_commit commit log).
Proof.
  destruct commit_record as (Hlink & Hseq & Hbound). destruct commit_frequency as [Hfreq _].
  destruct expected_head as (_ & Hp & _). destruct apply_commit_checkpoints as (Hc1 & Hc2 & Hc3 & Hc4).
  assert (Hlen : Z.of_nat (length (log_records log ++ [r])) = n + 1) by (rewrite length_app; cbn; unfold n; lia).
  destruct apply_commit_lists as [Hrecords Hcps]. pose proof apply_commit_chain as [Hch1 Hch2 Hch3 _].
  split; try done; rewrite ?Hrecords, ?Hcps, ?Hlen; try done.
  - apply Forall_app. split; [apply Hinv|]. constructor; [apply Hfor|constructor].
  - apply Forall_app. split; [apply Hinv|]. constructor; [apply Hfor|constructor].
  - rewrite last_sequence_app. exact Hfreq.
  - exact apply_commit_dates.
Qed.
End preserve.

(** A commit either leaves the log as it is or appends. *)
Lemma commit_log_cases commit log answer log' : commit_log commit log = (answer, log') ->
  (log' = log /\ forall a, answer = Ok a -> a_Replayed a = true) \/
  (ValidateCommit commit = Ok tt /\ same_head (log_head log) (k_ExpectedHead commit) = true /\
   log' = apply_commit commit log).
Proof.
  unfold commit_log. destruct (ValidateCommit commit) as [[]|[]] eqn:Hg;
    try (intros H; apply pair_equal_spec in H as [<- <-]; by left).
  destruct (log_replays log !! _) as [[d a]|].
  - destruct (String.eqb _ _); intros H; apply pair_equal_spec in H as [<- <-]; left; [|done]. split; [done|]. by intros ? [= <-].
  - destruct (same_head _ _) eqn:Hs; intros H; apply pair_equal_spec in H as [<- <-]; [by right|by left].
Qed.

Lemma commit_log_inv o t commit log answer log' : log_inv o t log -> commit_for o t commit -> timely commit ->
  commit_log commit log = (answer, log') -> log_inv o t log'.
Proof.
  intros Hinv Hfor Htime [[-> _]|(Hg & Hs & ->)]%commit_log_cases; [done|].
  apply apply_commit_inv; [by apply inv_chain|done..].
Qed.

Lemma empty_log_inv o t : log_inv o t empty_log.
Proof. split; try done; cbn; try constructor; lia. Qed.

Lemma reachable_inv o t log : reachable o t log -> log_inv o t log.
Proof. induction 1; [apply empty_log_inv | by eapply commit_log_inv]. Qed.

(** *** Commits whose checkpoints may be of any time *)

(** A commit by any client, as the guard and the store accept it *)
Definition guarded_step (o t : string) (log log' : Log) : Prop :=
  exists commit answer, commit_for o t commit /\ commit_log commit log = (answer, log').

Lemma guarded_chain o t log log' : guarded_step o t log log' -> chain_inv o t log -> chain_inv o t log'.
Proof. intros (commit & answer & Hfor & [[-> _]|(Hg & Hs & ->)]%commit_log_cases) Hch; [done|]. by apply apply_commit_chain. Qed.

(** The log holds a checkpoint that is older than the record it covers last. *)
Definition late (log : Log) : Prop := exists c x, c ∈ log_checkpoints log /\
  log_records log !! Z.to_nat (c_Sequence c - 1) = Some x /\
  before (mustTime (c_CreatedAt c)) (mustTime (r_AppendedAt x)) = true.

Lemma guarded_late o t log log' : guarded_step o t log log' -> late log -> late log'.
Proof.
  intros (commit & answer & _ & [[-> _]|(_ & _ & ->)]%commit_log_cases) (c & x & Hc & Hx & Hb); [by exists c, x|].
  exists c, x. destruct (apply_commit_lists log commit) as [-> ->]. split_and!; [|by apply lookup_app_l_Some|done].
  apply elem_of_app. by left.
Qed.

Lemma guarded_steps_late o t log log' : rtc (guarded_step o t) log log' -> chain_inv o t log -> late log ->
  chain_inv o t log' /\ late log'.
Proof.
  induction 1 as [|log1 log2 log3 Hstep _ IH]; [done|]. intros Hch Hl.
  apply IH; [by eapply guarded_chain|by eapply guarded_late].
Qed.

(** ** Reading a log back *)

Lemma records_sequence l o t : verifyRecords l o t = Ok tt -> Z.of_nat (length l) < 2 ^ 64 ->
  forall i r, l !! i = Some r -> record_verified r (Z.of_nat i + 1) (head_hash GenesisHash (take i l)).
Proof.
  induction l as [|x l IH] using rev_ind; [done|]. rewrite verifyRecords_snoc, length_app. cbn [length].
  intros [Hl (_ & _ & Hx)] Hlen i r Hi. rewrite u64_small in Hx by lia.
  apply lookup_snoc_Some in Hi as [[Hlt Hi]|[-> <-]].
  - rewrite take_app_le by lia. apply IH; [done|lia|done].
  - by rewrite take_app_length.
Qed.

Lemma filter_after l o t k : verifyRecords l o t = Ok tt -> Z.of_nat (length l) < 2 ^ 64 ->
  filter (fun r => Z.of_nat k < r_Sequence r) l = drop k l.
Proof.
  intros Hv Hlen.
  assert (H : forall j m, (forall i r, m !! i = Some r -> r_Sequence r = Z.of_nat (j + i) + 1) ->
    filter (fun r => Z.of_nat k < r_Sequence r) m = drop (k - j) m).
  { intros j m. revert j. induction m as [|a m IHm]; intros j Hm; [by rewrite drop_nil|].
    pose proof (Hm 0%nat a eq_refl) as Ha. rewrite filter_cons.
    assert (Hm' : forall i r, m !! i = Some r -> r_Sequence r = Z.of_nat (S j + i) + 1).
    { intros i r Hi. rewrite (Hm (S i) r Hi). f_equal. lia. }
    destruct (decide (Z.of_nat k < r_Sequence a)) as [Hlt|Hge].
    - rewrite (IHm (S j) Hm'). replace (k - S j)%nat with 0%nat by lia.
      replace (k - j)%nat with 0%nat by lia. done.
    - rewrite (IHm (S j) Hm'). replace (k - j)%nat with (S (k - S j)) by lia. done. }
  rewrite (H 0%nat l); [by rewrite Nat.sub_0_r|].
  intros i r Hi. by destruct (records_sequence l o t Hv Hlen i r Hi).
Qed.

(** A world that serves one tenant's log, holds its keys and does not change while it is read *)
Record serves {W} {Ports : AuditPorts W} (w : W) (o t : string) (log : Log) (now : Time) : Prop := {
  sv_head : LoadHead o t w = (Ok (log_head log), w);
  sv_records : forall after_ limit, ReadAuditRecords o t after_ limit w =
    (Ok (take (Z.to_nat limit) (filter (fun r => after_ < r_Sequence r) (log_records log))), w);
  sv_checkpoints : ReadAuditCheckpoints o t w = (Ok (log_checkpoints log), w);
  sv_clock : ClockNow w = (now, w);
  sv_keys : forall c, c ∈ log_checkpoints log ->
    exists a, ResolveAuditKey (c_SigningKeyID c) (c_SigningKeyRevision c) w = (Ok a, w) /\
      validAuthority a c (to_utc now) = true /\
      VerifyCheckpoint ed25519_Verify c (ka_PublicKey a) = Ok tt }.

(** A world that serves the records and the checkpoints of a log *)
Record holds {W} {Ports : AuditPorts W} (w : W) (o t : string) (log : Log) : Prop := {
  ho_records : forall after_ limit, ReadAuditRecords o t after_ limit w =
    (Ok (take (Z.to_nat limit) (filter (fun r => after_ < r_Sequence r) (log_records log))), w);
  ho_checkpoints : ReadAuditCheckpoints o t w = (Ok (log_checkpoints log), w) }.

Lemma serves_holds {W} {Ports : AuditPorts W} (w : W) o t log now : serves w o t log now -> holds w o t log.
Proof. intros []. by split. Qed.

Section read.
Context {W : Type} {Ports : AuditPorts W} (w : W) (o t : string) (log : Log).
Hypothesis Hholds : holds w o t log.
Hypothesis Hchain : chain_inv o t log.

(** One batch of 512 records per round, and one more round when the last batch was full *)
Lemma readAllRecords_all fuel k : (k <= length (log_records log))%nat ->
  (length (log_records log) - k < fuel * 512)%nat ->
  readAllRecords fuel o t (Z.of_nat k) (take k (log_records log)) w = (Ok (Some (log_records log)), w).
Proof.
  revert k. induction fuel as [|fuel IH]; intros k Hk Hfuel; [lia|]. cbn [readAllRecords].
  set (batch := take 512 (drop k (log_records log))).
  assert (Hread : map_err normalizeStoreError (ReadAuditRecords o t (Z.of_nat k) readBatchSize) w = (Ok batch, w)).
  { unfold map_err. rewrite (ho_records _ _ _ _ Hholds).
    rewrite (filter_after _ o t) by apply Hchain. done. }
  unfold mbind at 1, prog_bind at 1. rewrite Hread.
  assert (Hb : length batch = Nat.min 512 (length (log_records log) - k)).
  { unfold batch. by rewrite length_take, length_drop. }
  assert (Hacc : (take k (log_records log) ++ batch)%list = take (k + length batch) (log_records log)).
  { rewrite <- take_take_drop. f_equal. unfold batch at 1. rewrite Hb.
    destruct (Nat.min_spec 512 (length (log_records log) - k)) as [[? ->]|[? ->]]; [done|].
    rewrite !take_ge by (rewrite ?length_drop; lia). done. }
  destruct (last batch) as [x|] eqn:Ex.
  2:{ apply last_None in Ex. assert (length batch = 0%nat) by (by rewrite Ex). rewrite take_ge by lia. done. }
  unfold mbind at 1, prog_bind at 1, pure at 1, deny_if, readBatchSize.
  destruct (Z.ltb_spec 512 (Z.of_nat (length batch))); [lia|].
  destruct (Z.ltb_spec (Z.of_nat (length batch)) 512).
  - rewrite Hacc, take_ge by lia. done.
  - assert (Hx : r_Sequence x = Z.of_nat (k + length batch)).
    { rewrite last_lookup in Ex. unfold batch in Ex. rewrite lookup_take_Some, lookup_drop in Ex.
      destruct Ex as [Ex _]. fold batch in Ex.
      destruct (records_sequence _ o t (ch_records _ _ _ Hchain) (ch_length _ _ _ Hchain) _ _ Ex). lia. }
    rewrite Hx, Hacc. apply IH; lia.
Qed.

Lemma read_all fuel : (length (log_records log) < fuel * 512)%nat ->
  readAllRecords fuel o t 0 [] w = (Ok (Some (log_records log)), w).
Proof. intros H. apply (readAllRecords_all fuel 0); lia. Qed.

(** The list of checkpoints is accepted only when no checkpoint is older than the record it
    covers last, and what is refused is an integrity error. *)
Lemma verify_list_sound records l : forall previous seen v res v',
  verify_checkpoint_list records o t previous seen l v = (res, v') ->
  res = Err ErrIntegrity \/
  (is_ok res = true /\ forall c x, c ∈ l -> records !! Z.to_nat (c_Sequence c - 1) = Some x ->
    before (mustTime (c_CreatedAt c)) (mustTime (r_AppendedAt x)) = false).
Proof.
  induction l as [|c l IH]; intros previous seen v res v'; cbn [verify_checkpoint_list].
  { intros [= <- _]. right. split; [done|]. intros c x H. by apply not_elem_of_nil in H. }
  unfold mbind, prog_bind, pure, map_err. destruct (checkpoint_in_place _ _ _ _ _ c) as [[]|e] eqn:Hc.
  2:{ intros [= <- _]. left. unfold checkpoint_in_place in Hc. apply bind_err in Hc as [[_ <-]%deny_if_err|(? & _ & Hc)]; [done|].
      destruct (records !! _); [by apply deny_if_err in Hc as [_ <-]|by injection Hc as <-]. }
  destruct (ResolveAuditKey _ _ v) as [[a|e] v1]; [|intros [= <- _]; by left]. destruct (ClockNow v1) as [t1 v2].
  destruct (deny_if _ _) as [[]|e] eqn:Hd; [|apply deny_if_err in Hd as [_ <-]; intros [= <- _]; by left].
  intros [->|[Hok H]]%IH; [by left|right]. split; [done|]. intros d x [->|Hin]%elem_of_cons Hx; [|by eapply H].
  unfold checkpoint_in_place in Hc. apply seq_ok in Hc as [_ Hc]. rewrite Hx in Hc. apply deny_if_ok in Hc.
  by apply orb_false_iff in Hc as [_ Hc].
Qed.

Lemma insert_checkpoint_elem c d l : d ∈ insert_checkpoint c l <-> d = c \/ d ∈ l.
Proof.
  induction l as [|x l IH]; cbn; [set_solver|]. destruct (_ <=? _); rewrite !elem_of_cons; [done|]. rewrite IH. tauto.
Qed.

Lemma sort_checkpoints_elem d l : d ∈ sort_checkpoints l <-> d ∈ l.
Proof. induction l as [|c l IH]; [done|]. cbn. rewrite insert_checkpoint_elem, elem_of_cons. by rewrite <- IH. Qed.

(** [Verify] refuses a log with a late checkpoint. *)
Lemma late_refused fuel : late log -> o <> "" -> t <> "" -> (length (log_records log) < fuel * 512)%nat ->
  fst (Verify fuel true CtxLive o t w) = Err ErrIntegrity.
Proof.
  intros (c & x & Hc & Hx & Hb) Ho%String.eqb_neq Ht%String.eqb_neq Hfuel. unfold Verify. rewrite Ho, Ht. cbn [negb orb deny_if].
  unfold mbind at 1, prog_bind at 1, pure at 1. unfold mbind at 1, prog_bind at 1. rewrite (read_all _ Hfuel).
  unfold mbind at 1, prog_bind at 1, map_err. rewrite (ho_checkpoints _ _ _ _ Hholds).
  unfold mbind at 1, prog_bind at 1, pure at 1. rewrite (ch_records _ _ _ Hchain).
  unfold mbind at 1, prog_bind at 1, verifyCheckpoints. cbv zeta. unfold mbind at 1, prog_bind at 1.
  destruct (verify_checkpoint_list _ _ _ _ _ _ w) as [res w'] eqn:Hlist. apply verify_list_sound in Hlist as [->|[_ H]]; [done|].
  rewrite (H c x) in Hb; [done|by apply sort_checkpoints_elem|done].
Qed.
End read.

Section verify.
Context {W : Type} {Ports : AuditPorts W} (w : W) (o t : string) (log : Log) (now : Time).
Hypothesis Hserves : serves w o t log now.
Hypothesis Hinv : log_inv o t log.

Lemma sort_increasing l : StronglySorted (fun c d => c_Sequence c < c_Sequence d) l -> sort_checkpoints l = l.
Proof.
  unfold sort_checkpoints. induction 1 as [|c l Hl IH Hc]; [done|]. cbn [foldr]. rewrite IH.
  destruct l as [|d l]; [done|]. cbn. apply Forall_cons in Hc as [Hc _].
  by destruct (Z.leb_spec (c_Sequence c) (c_Sequence d)); [|lia].
Qed.

Lemma verify_list_ok l : (forall c, c ∈ l -> c ∈ log_checkpoints log) -> forall previous seen,
  checkpoints_in_place (log_records log) o t previous seen l = Ok tt ->
  verify_checkpoint_list (log_records log) o t previous seen l w =
    (Ok (last_sequence previous l, sequences_seen seen l), w).
Proof.
  induction l as [|c l IH]; intros Hsub previous seen H; [done|].
  cbn in H. apply seq_ok in H as [Hc H]. cbn [verify_checkpoint_list sequences_seen].
  destruct (sv_keys _ _ _ _ _ Hserves c) as (a & Ha & Hvalid & Hsig); [apply Hsub; by left|].
  unfold mbind, prog_bind, pure, map_err. rewrite Hc, Ha, (sv_clock _ _ _ _ _ Hserves), Hvalid, Hsig.
  cbn [negb orb is_ok deny_if]. rewrite last_sequence_cons. apply IH; [|done].
  intros d Hd. apply Hsub. by right.
Qed.

Lemma verifyCheckpoints_ok :
  verifyCheckpoints (log_records log) (log_checkpoints log) o t w = (Ok (log_checkpoints log), w).
Proof.
  unfold verifyCheckpoints. rewrite (sort_increasing _ (inv_increasing _ _ _ Hinv)). cbv zeta.
  unfold mbind at 1, prog_bind at 1.
  rewrite verify_list_ok by (try done; apply Hinv). unfold mbind, prog_bind, pure.
  pose proof (inv_last _ _ _ Hinv). pose proof (inv_limit _ _ _ Hinv). pose proof (inv_length _ _ _ Hinv).
  rewrite u64_small by lia. destruct (Z.leb_spec CheckpointRecordLimit
    (Z.of_nat (length (log_records log)) - last_sequence 0 (log_checkpoints log))); [lia|].
  cbn [deny_if]. by rewrite (inv_dates _ _ _ Hinv).
Qed.

Lemma log_head_valid : is_ok (validateHead (log_head log) o t) = true.
Proof.
  pose proof (inv_head _ _ _ Hinv) as Hh. unfold head_matches in Hh.
  destruct (last (log_records log)) as [r|] eqn:E; [|by rewrite Hh].
  destruct Hh as (Ho & Ht & Hs & Hc & Ha & Hp). rewrite last_lookup in E.
  pose proof (records_sequence _ o t (inv_records _ _ _ Hinv) (inv_length _ _ _ Hinv) _ _ E) as [Hv _ _ _ _].
  assert (Hlen : (0 < length (log_records log))%nat).
  { apply lookup_lt_Some in E. lia. }
  pose proof (inv_stamped _ _ _ Hinv) as Hst. rewrite Forall_lookup in Hst. specialize (Hst _ _ E).
  pose proof (inv_last _ _ _ Hinv). destruct (rv_appended _ Hv) as (u & Hu & _).
  unfold validateHead. rewrite Ho, Ht, Hs, Hc, Ha, Hp, !String.eqb_refl, Hst.
  rewrite (validDigest_pattern _ (rv_hash _ Hv)).
  destruct (Z.eqb_spec (Z.of_nat (length (log_records log))) 0); [lia|].
  destruct (Z.ltb_spec (Z.of_nat (length (log_records log))) (last_sequence 0 (log_checkpoints log))); [lia|].
  pose proof (digestPattern_nonempty _ (rv_hash _ Hv)) as Hne. apply String.eqb_neq in Hne. rewrite Hne.
  destruct (String.eqb_spec (r_AppendedAt r) "") as [E'|]; [by rewrite E' in Hu|done].
Qed.

Definition log_report : VerificationReport :=
  let n := Z.of_nat (length (log_records log)) in
  let p := last_sequence 0 (log_checkpoints log) in
  mkReport o t n (Z.of_nat (length (log_checkpoints log))) n (head_hash GenesisHash (log_records log)) p (n - p).

Lemma verifyDurableHead_ok :
  verifyDurableHead (log_records log) (log_checkpoints log) o t w = (Ok log_report, w).
Proof.
  unfold verifyDurableHead, mbind, prog_bind, map_err. rewrite (sv_head _ _ _ _ _ Hserves), log_head_valid.
  pose proof (inv_head _ _ _ Hinv) as Hh. unfold head_matches in Hh. pose proof (inv_last _ _ _ Hinv) as Hl.
  unfold log_report, head_hash. pose proof (inv_length _ _ _ Hinv).
  destruct (last (log_records log)) as [r|] eqn:E.
  - destruct Hh as (_ & _ & Hs & Hc & _ & Hp).
    assert (Hr : r_Sequence r = Z.of_nat (length (log_records log))).
    { rewrite last_lookup in E. pose proof (lookup_lt_Some _ _ _ E).
      destruct (records_sequence _ o t (inv_records _ _ _ Hinv) (inv_length _ _ _ Hinv) _ _ E). lia. }
    fold (last_sequence 0 (log_checkpoints log)).
    rewrite Hs, Hc, Hp, Hr, !Z.eqb_refl, String.eqb_refl, u64_small by lia. done.
  - apply last_None in E. rewrite E in Hl |- *. cbn in Hl |- *.
    replace (last_sequence 0 (log_checkpoints log)) with 0 by lia. done.
Qed.
End verify.

(** [Verify] accepts a log that keeps the invariant. *)
Lemma verify_accepts {W} {Ports : AuditPorts W} (w : W) o t log now fuel : log_inv o t log -> serves w o t log now ->
  o <> "" -> t <> "" -> (length (log_records log) < fuel * 512)%nat ->
  Verify fuel true CtxLive o t w = (Ok (Some (log_report o t log)), w).
Proof.
  intros Hinv Hserves Ho%String.eqb_neq Ht%String.eqb_neq Hfuel. unfold Verify. rewrite Ho, Ht. cbn [negb orb deny_if].
  unfold mbind, prog_bind, pure, map_err.
  rewrite (read_all w o t log (serves_holds _ _ _ _ _ Hserves) (inv_chain _ _ _ Hinv) _ Hfuel).
  rewrite (sv_checkpoints _ _ _ _ _ Hserves), (inv_records _ _ _ Hinv).
  rewrite (verifyCheckpoints_ok w o t log now Hserves Hinv).
  by rewrite (verifyDurableHead_ok w o t log now Hserves Hinv).
Qed.

(** C26. Liveness of verification: a log left by guarded commits of any clients, interleaved
    in any order with conflicts and replays among them, none of which carried a checkpoint
    created before the last record it covers, is accepted by [Verify] when a store serves it
    unchanged and the key resolver knows, at the time of the verification, a valid key for the
    signature of each of its checkpoints: all of its records are read, one batch of 512 at a
    time, and every link, checkpoint, signature, limit and date passes.  The report counts
    exactly the records and checkpoints of the log.  The loop of [readAllRecords] needs one
    round per 512 records, and one more.  A commit with an older checkpoint passes the guard as
    well, and [clock_rollback_breaks_verification] (AuditService.v) shows what becomes of the
    log. *)
Theorem reachable_logs_verify {W} {Ports : AuditPorts W} (w : W) o t log now fuel
  (Hreach : reachable o t log) (Hserves : serves w o t log now)
  (Horganization : o <> "") (Htenant : t <> "")
  (Hfuel : (length (log_records log) < fuel * 512)%nat) :
  Verify fuel true CtxLive o t w = (Ok (Some (log_report o t log)), w).
Proof. eapply verify_accepts; [by apply reachable_inv|done..]. Qed.
