(* ===== verification/AuditService.v ===== *)
(** * The append protocol of the audit service, and a concrete run

    What [Append] does to a store, seen from the store: at most four commits, every one of
    them guarded, and a success only on the store's own word.  And what a clock that steps
    back over midnight makes of the log, for any store, signer and log. *)

From S2P Require Import Prelude GoStrings GoRegexp GoTime GoBase64 GoJson DomainContract Sha256 Domain GoStruct TamperAudit TamperAuditFacts AuditLog AuditLogFacts AuditStore.

Local Open Scope string_scope.
Local Open Scope Z_scope.

(** ** The commits a store sees *)

Definition trace : Type := list (Commit * result store_error AppendResult).

Section traced.
Context {W : Type} {Ports : AuditPorts W}.

(** The same world, with the commits it answered written down *)
Definition keep {E A} (m : prog W E A) : prog (W * trace) E A :=
  fun s => let '(r, w) := m (fst s) in (r, (w, snd s)).

#[export] Instance traced_ports : AuditPorts (W * trace) := {|
  LoadHead o t := keep (LoadHead o t);
  CommitAudit c := fun s =>
    let '(r, w) := CommitAudit c (fst s) in (r, (w, snd s ++ [(c, r)])%list);
  ReadAuditRecords o t after_ limit := keep (ReadAuditRecords o t after_ limit);
  ReadAuditCheckpoints o t := keep (ReadAuditCheckpoints o t);
  SignAuditCheckpoint c := keep (SignAuditCheckpoint c);
  ResolveAuditKey k r := keep (ResolveAuditKey k r);
  ClockNow := fun s => let '(t, w) := ClockNow (fst s) in (t, (w, snd s));
  NewAuditID t := keep (NewAuditID t);
  ed25519_Verify := ed25519_Verify |}.

(** A program over the traced world that only passes the trace on *)
Definition silent {E A} (m : prog W E A) (m' : prog (W * trace) E A) : Prop := forall s, m' s = keep m s.

Lemma silent_bind {E A B} (m : prog W E A) m' (f : A -> prog W E B) f' :
  silent m m' -> (forall a, silent (f a) (f' a)) -> silent (m ≫= f) (m' ≫= f').
Proof.
  intros Hm Hf [w tr]. unfold mbind, prog_bind. rewrite (Hm (w, tr)). unfold keep. cbn [fst snd].
  destruct (m w) as [[a|e] w1]; [|done]. rewrite (Hf a (w1, tr)). done.
Qed.

Lemma silent_map_err {E F A} (g : E -> F) (m : prog W E A) m' : silent m m' -> silent (map_err g m) (map_err g m').
Proof.
  intros Hm [w tr]. unfold map_err. rewrite (Hm (w, tr)). unfold keep. cbn [fst snd].
  by destruct (m w) as [[a|e] w1].
Qed.

Lemma silent_pure {E A} (r : result E A) : silent (pure r) (pure r).
Proof. by intros [w tr]. Qed.

Lemma silent_ret {E A} (a : A) : silent (E := E) (mret a) (mret a).
Proof. by intros [w tr]. Qed.

Lemma silent_keep {E A} (m : prog W E A) : silent m (keep m).
Proof. done. Qed.

Create HintDb silent.
#[local] Hint Resolve silent_bind silent_map_err silent_pure silent_ret silent_keep : silent.

Lemma checkpointFor_silent head record now : silent (checkpointFor head record now) (checkpointFor head record now).
Proof.
  unfold checkpointFor. destruct (checkpointTarget head record now) as [[sequence hash] reason].
  destruct (String.eqb reason ""); [apply silent_ret|].
  apply silent_bind; [apply silent_map_err, silent_keep|]. intros id. cbv zeta.
  apply silent_bind; [apply silent_map_err, silent_keep|]. intros signed.
  apply silent_bind; [apply silent_pure|]. intros _.
  apply silent_bind; [apply silent_map_err, silent_keep|]. intros authority.
  apply silent_bind; [apply silent_pure|]. intros _. apply silent_ret.
Qed.

Lemma prepareCommit_silent event now : silent (prepareCommit event now) (prepareCommit event now).
Proof.
  unfold prepareCommit. apply silent_bind; [apply silent_map_err, silent_keep|]. intros head.
  apply silent_bind; [apply silent_pure|]. intros _. cbv zeta.
  apply silent_bind; [apply silent_pure|]. intros record.
  apply silent_bind; [apply checkpointFor_silent|]. intros c. apply silent_ret.
Qed.

(** What one attempt adds to the trace *)
Definition attempt_result (c : Commit) (answer : result store_error AppendResult) : result log_error AppendResult :=
  match answer with Ok a => checkCommitted c a | Err e => Err (normalizeStoreError e) end.

Lemma appendAtHead_trace event now (w w' : W) (tr tr' : trace) res :
  appendAtHead event now (w, tr) = (res, (w', tr')) ->
  (tr' = tr /\ exists e, res = Err e) \/
  exists c answer (w0 w1 : W), prepareCommit event now w0 = (Ok c, w1) /\ tr' = (tr ++ [(c, answer)])%list /\
    res = attempt_result c answer.
Proof.
  unfold appendAtHead. unfold mbind, prog_bind. rewrite (prepareCommit_silent event now (w, tr)).
  unfold keep at 1. cbn [fst snd]. destruct (prepareCommit event now w) as [[c|e] w1] eqn:Hp.
  2:{ intros H. injection H as <- <- <-. left. eauto. }
  unfold map_err. cbn [CommitAudit traced_ports fst snd].
  destruct (CommitAudit c w1) as [[a|e] w2]; intros H; injection H as <- <- <-; right; eauto 10.
Qed.

(** A prefix of a trace in which every commit was answered with a conflict *)
Definition conflicted (tr : trace) : Prop :=
  Forall (fun entry => exists e, snd entry = Err e /\ normalizeStoreError e = ErrConflict) tr.

Lemma checkCommitted_ok c a a' : checkCommitted c a = Ok a' -> a' = a /\
  (a_Replayed a = false -> a_Sequence a = r_Sequence (k_Record c) /\ a_ChainHash a = r_ChainHash (k_Record c)).
Proof.
  unfold checkCommitted. destruct (a_Replayed a).
  - intros [_ H]%seq_ok. by injection H as ->.
  - intros [H1 [_ H]%seq_ok]%seq_ok. injection H as ->. split; [done|]. intros _.
    apply deny_if_ok, orb_false_iff in H1 as [H1 H2]. apply negb_false_iff in H1, H2.
    by apply Z.eqb_eq in H1; apply String.eqb_eq in H2.
Qed.

Lemma checkCommitted_no_conflict c a : checkCommitted c a <> Err ErrConflict.
Proof.
  unfold checkCommitted. destruct (a_Replayed a); intros H; apply bind_err in H as [H|(? & _ & H)]; try done.
  - by apply deny_if_err in H as [_ H].
  - by apply deny_if_err in H as [_ H].
  - apply bind_err in H as [H|(? & _ & H)]; [|done]. by apply deny_if_err in H as [_ H].
Qed.

(** What the attempts of one append leave in the trace *)
Definition append_traced (event : Event) (now : Time) (attempts : nat) (res : result log_error AppendResult)
  (added : trace) : Prop :=
  (length added <= attempts)%nat /\
  (forall c answer, (c, answer) ∈ added -> exists w0 w1 : W, prepareCommit event now w0 = (Ok c, w1)) /\
  exists before, match res with
    | Ok a => exists c, added = (before ++ [(c, Ok a)])%list /\ conflicted before /\ checkCommitted c a = Ok a
    | Err ErrConflict => added = before /\ conflicted before
    | Err _ => (exists last, added = (before ++ last)%list /\ (length last <= 1)%nat) /\ conflicted before
    end.

Lemma attempts_trace event now attempts : forall (w w' : W) (tr tr' : trace) res,
  append_attempts attempts event now (w, tr) = (res, (w', tr')) ->
  exists added, tr' = (tr ++ added)%list /\ append_traced event now attempts res added.
Proof.
  induction attempts as [|attempts IH]; intros w w' tr tr' res.
  { intros H. unfold append_attempts, pure in H. injection H as <- <- <-. exists []. rewrite app_nil_r. split; [done|]. split; [done|].
    split; [intros ? ? H; by apply not_elem_of_nil in H|]. exists []. split; [done|constructor]. }
  cbn [append_attempts]. unfold mbind, prog_bind, attempt, pure.
  destruct (appendAtHead event now (w, tr)) as [r [w1 tr1]] eqn:Ha. intros H.
  apply appendAtHead_trace in Ha as [(-> & e & ->)|(c & answer & w2 & w3 & Hp & -> & Hr)].
  - destruct (decide (e = ErrConflict)) as [->|Hne].
    + destruct (IH _ _ _ _ _ H) as (added & -> & Hl & Hc & Hb). exists added. split; [done|].
      split; [lia|]. by split.
    + assert (res = Err e /\ tr' = tr) as [-> ->] by (destruct e; simplify_eq; done).
      exists []. rewrite app_nil_r. split; [done|]. split; [cbn; lia|].
      split; [intros ? ? Hn; by apply not_elem_of_nil in Hn|]. exists [].
      destruct e; try done; (split; [exists []; split; [done|cbn; lia]|constructor]).
  - assert (Hdec : r = Err ErrConflict \/ r <> Err ErrConflict) by (destruct r as [a|[]]; naive_solver).
    destruct Hdec as [->|Hne].
    + destruct (IH _ _ _ _ _ H) as (added & -> & Hl & Hc & before & Hb). exists ((c, answer) :: added).
      rewrite <- app_assoc. split; [done|]. split; [cbn; lia|]. split.
      { intros c' answer' [[= -> ->]|Hin]%elem_of_cons; [by exists w2, w3|by eapply Hc]. }
      assert (Hconf : exists e, answer = Err e /\ normalizeStoreError e = ErrConflict).
      { unfold attempt_result in Hr. destruct answer as [a|e]; [by destruct (checkCommitted_no_conflict c a)|].
        exists e. split; [done|congruence]. }
      exists ((c, answer) :: before). assert (Hcons : conflicted before -> conflicted ((c, answer) :: before))
        by (intros; by constructor).
      destruct res as [a|[]]; naive_solver.
    + assert (res = r /\ tr' = (tr ++ [(c, answer)])%list) as [-> ->]
        by (destruct r as [a|[]]; simplify_eq; done).
      exists [(c, answer)]. split; [done|]. split; [cbn; lia|]. split.
      { intros c' answer' [[= -> ->]|Hin]%elem_of_cons; [by exists w2, w3|by apply not_elem_of_nil in Hin]. }
      exists []. subst r. unfold attempt_result in *. destruct answer as [a|e].
      * destruct (checkCommitted c a) as [a'|e] eqn:Hk.
        -- destruct (checkCommitted_ok _ _ _ Hk) as [-> _]. exists c. split; [done|]. split; [constructor|done].
        -- destruct e; try done; (split; [exists [(c, Ok a)]; split; [done|cbn; lia]|constructor]).
      * destruct (normalizeStoreError e); try done;
          (split; [exists [(c, Err e)]; split; [done|cbn; lia]|constructor]).
Qed.
End traced.

(** ** A world of logs *)

Record AuditWorld : Type := mkAuditWorld {
  aw_logs : gmap (string * string) Log;
  aw_now : Time }.

Definition tenant_log (w : AuditWorld) (o t : string) : Log := default empty_log (aw_logs w !! (o, t)).

Section world.
Variable signer : Checkpoint -> result store_error Checkpoint.
Variable resolver : string -> Z -> result store_error KeyAuthority.
Variable ids : Time -> result store_error string.
Variable verify_signature : string -> string -> string -> bool.

(** Stores that keep one log per tenant, with a signer, a key resolver and a clock *)
#[local] Instance log_ports : AuditPorts AuditWorld := {|
  LoadHead o t := fun w => (Ok (log_head (tenant_log w o t)), w);
  CommitAudit c := fun w =>
    let o := r_OrganizationID (k_Record c) in
    let t := r_TenantID (k_Record c) in
    let '(answer, log) := commit_log c (tenant_log w o t) in
    (answer, mkAuditWorld (<[(o, t) := log]> (aw_logs w)) (aw_now w));
  ReadAuditRecords o t after_ limit := fun w =>
    (Ok (take (Z.to_nat limit) (filter (fun r => after_ < r_Sequence r) (log_records (tenant_log w o t)))), w);
  ReadAuditCheckpoints o t := fun w => (Ok (log_checkpoints (tenant_log w o t)), w);
  SignAuditCheckpoint c := pure (signer c);
  ResolveAuditKey k r := pure (resolver k r);
  ClockNow := fun w => (aw_now w, w);
  NewAuditID t := pure (ids t);
  ed25519_Verify := verify_signature |}.
End world.

(** The key of the examples *)
Definition ex_authority : KeyAuthority :=
  mkKeyAuthority "audit-key" 1 (ex_public ex_private)
    (mustTime "2026-01-01T00:00:00.000000000Z") (mustTime "2027-01-01T00:00:00.000000000Z") None.

Definition ex_signer (c : Checkpoint) : result store_error Checkpoint :=
  or_err (SignCheckpoint ex_sign
    (mkCheckpoint (c_SchemaVersion c) (c_ContractVersion c) (c_CheckpointID c) (c_OrganizationID c)
       (c_TenantID c) (c_CoveredFromSequence c) (c_Sequence c) (c_RecordCount c) (c_ChainHash c)
       (c_Reason c) "audit-key" 1 SignatureAlgorithm (c_CreatedAt c) "") ex_private) OtherFailure.

#[export] Instance ex_ports : AuditPorts AuditWorld :=
  log_ports ex_signer (fun _ _ => Ok ex_authority) (fun _ => Ok "0199a213-0009-7009-8009-000000000009") ex_verify.

(** A second event, without a time of its own *)
Definition ex_event2 : Event :=
  mkEvent EventSchemaVersion ContractVersion "0199a213-0003-7003-8003-000000000003"
    "0199a213-4444-7444-8444-444444444444" "0199a213-5555-7555-8555-555555555555" ""
    "" 0 "coh.storage-outbox/v1" "case.updated" "allowed" "outbox_delivered" "" 0 "" None "".

Definition ex_world (now : string) (w : AuditWorld) : AuditWorld := mkAuditWorld (aw_logs w) (mustTime now).
Definition ex_world0 : AuditWorld := mkAuditWorld ∅ (mustTime ex_appended).

Definition run_append (event : Event) (w : AuditWorld) : AuditWorld := snd (Append true CtxLive event w).

(** One event on August 26, one the day after: the second append signs a daily checkpoint. *)
Definition ex_world2 : AuditWorld :=
  run_append ex_event2 (ex_world "2026-08-27T09:00:00.000000000Z" (run_append ex_event ex_world0)).

Example ex_run_verifies :
  match fst (Verify 1 true CtxLive (e_OrganizationID ex_event) (e_TenantID ex_event) ex_world2) with
  | Ok (Some report) => (vr_RecordCount report, vr_LastCheckpoint report, vr_UncheckpointedCount report)
  | _ => (0, 0, 0)
  end = (2, 1, 1).
Proof. vm_compute. reflexivity. Qed.

(** ** The protocol *)

Section protocol.
Context {W : Type} {Ports : AuditPorts W} {Typed : TypedPorts W}.

Lemma prepared_event event now (w w' : W) c : event_typed event -> prepareCommit event now w = (Ok c, w') ->
  r_Event (k_Record c) = event /\ k_IdempotencyKey c = e_EventID event.
Proof.
  intros He H. apply prepareCommit_ok in H as (head & record & -> & _ & _ & _ & _ & Hb & _); [|done].
  apply BuildRecord_ok in Hb as (_ & Hev & _). done.
Qed.

(** Where the commits of an append come from: a clock that was set, and attempts at one reading
    of it *)
Lemma append_prepared ready ctx event (w w' : W) res (commits : trace) :
  Append ready ctx event (w, []) = (res, (w', commits)) ->
  (exists e, res = Err e /\ commits = []) \/
  exists now, ValidateEvent event = Ok tt /\ is_zero now = false /\ append_traced event now maximumAppendAttempts res commits.
Proof.
  unfold Append. unfold mbind, prog_bind, pure. intros H.
  destruct (deny_if (negb ready || _) _) as [[]|e] eqn:Hguard; [|injection H as <- _ <-; left; by exists e].
  destruct (deny_if (match ctx with CtxLive => false | _ => true end) _) as [[]|e]; [|injection H as <- _ <-; left; by exists e].
  cbn [ClockNow traced_ports fst snd] in H. destruct (ClockNow w) as [now w1].
  destruct (deny_if (is_zero _ || _) _) as [[]|e] eqn:Hset; [|injection H as <- _ <-; left; by exists e].
  apply deny_if_ok in Hguard, Hset. bool_split.
  match goal with H : is_ok (ValidateEvent _) = true |- _ => apply is_ok_true in H as [[] Hvalid] end.
  apply attempts_trace in H as (added & -> & Ht). right. by exists (to_utc now).
Qed.


(** C25. The append protocol as the store sees it, for any store, signer, key resolver, clock
    and identifier source: [Append] commits at most four times; every commit it sends is
    about the given event, carries the event's identity as idempotency key and passes
    [ValidateCommit], the guard every storage adapter runs, so the checkpoint the service
    decided on is the one the guard demands; and [Append] succeeds only when the store
    answered the last commit, after conflicts only, with the result [Append] returns, which
    names that commit's sequence and chain hash unless it is a replay. *)
Theorem append_commits_are_guarded ready ctx event (w w' : W) res (commits : trace)
  (Hevent : event_typed event)
  (Happend : Append ready ctx event (w, []) = (res, (w', commits))) :
  (length commits <= maximumAppendAttempts)%nat /\
  (forall c answer, (c, answer) ∈ commits ->
     ValidateCommit c = Ok tt /\ r_Event (k_Record c) = event /\ k_IdempotencyKey c = e_EventID event) /\
  (forall a, res = Ok a -> exists conflicts c, commits = (conflicts ++ [(c, Ok a)])%list /\
     conflicted conflicts /\
     (a_Replayed a = false -> a_Sequence a = r_Sequence (k_Record c) /\ a_ChainHash a = r_ChainHash (k_Record c))).
Proof.
  apply append_prepared in Happend as [(e & -> & ->)|(now & Hvalid & _ & Hlen & Hall & before & Hres)].
  { split_and!; [cbn; lia|intros ? ? H; by apply not_elem_of_nil in H|done]. }
  split; [done|]. split.
  - intros c answer Hin. destruct (Hall c answer Hin) as (w2 & w3 & Hp).
    split; [by eapply prepared_commits_pass_the_guard|by eapply prepared_event].
  - intros a ->. destruct Hres as (c & -> & Hconf & Hk). exists before, c. split; [done|]. split; [done|].
    by apply checkCommitted_ok in Hk as [_ Hk].
Qed.

(** ** A clock that steps back over midnight *)



End protocol.

(** A store that holds a log and answers one commit; the world is its clock. *)
Definition store_ports (log : Log) : AuditPorts Time := {|
  LoadHead o t := fun w => (Ok (log_head log), w);
  CommitAudit c := fun w => (fst (commit_log c log), w);
  ReadAuditRecords o t after_ limit := fun w => (Ok [], w);
  ReadAuditCheckpoints o t := fun w => (Ok [], w);
  SignAuditCheckpoint c := pure (ex_signer c);
  ResolveAuditKey k r := pure (Ok ex_authority);
  ClockNow := fun w => (w, w);
  NewAuditID t := pure (Ok "0199a213-0009-7009-8009-000000000009");
  ed25519_Verify := ex_verify |}.

Lemma ex_signer_typed d c : checkpoint_typed d -> ex_signer d = Ok c -> checkpoint_typed c.
Proof.
  intros (H1 & H2 & H3 & _) H%or_err_ok. unfold SignCheckpoint in H. cbv zeta in H.
  apply seq_ok in H as [_ H]. apply bind_ok in H as (m & _ & H).
  remember (ex_sign ex_private m) as s. injection H as <-. by split_and!.
Qed.

Lemma store_typed log : head_typed (log_head log) -> TypedPorts (H := store_ports log) Time.
Proof.
  intros Hh. split.
  - intros o t w h w' H. injection H as <- _. exact Hh.
  - intros d w c w' Hd H. unfold SignAuditCheckpoint, store_ports in H. apply pure_ok in H as [H _].
    by eapply ex_signer_typed.
Qed.

(** The store of an empty log *)
#[local] Instance fresh_ports : AuditPorts Time := store_ports empty_log.

#[local] Instance fresh_typed : TypedPorts Time.
Proof. apply store_typed. unfold head_typed, is_u64. cbn. lia. Qed.

Lemma append_commits_are_guarded_witness :
  let '(res, (_, commits)) := Append true CtxLive ex_event (mustTime ex_appended, []) in
  is_ok res = true /\ (length commits = 1)%nat /\
  forall c answer, (c, answer) ∈ commits -> ValidateCommit c = Ok tt.
Proof.
  assert (Hrun : (fun s => (is_ok (fst s), length (snd (snd s))))
    (Append true CtxLive ex_event (mustTime ex_appended, [])) = (true, 1%nat)) by (vm_compute; reflexivity).
  pose proof (append_commits_are_guarded true CtxLive ex_event (mustTime ex_appended)) as Hall.
  destruct (Append true CtxLive ex_event (mustTime ex_appended, [])) as [res [w commits]].
  apply pair_equal_spec in Hrun as [Hok Hlen]. split; [exact Hok|]. split; [exact Hlen|].
  intros c answer Hin. exact (proj1 (proj1 (proj2 (Hall w res commits ex_event_typed eq_refl)) c answer Hin)).
Defined.

(** ** Witnesses on the example world *)

Definition ex_org : string := e_OrganizationID ex_event.
Definition ex_tenant : string := e_TenantID ex_event.

(** The first commit, as the service prepares it *)
Definition ex_commit (at_ : string) : option Commit :=
  match fst (prepareCommit ex_event (mustTime at_) ex_world0) with Ok c => Some c | Err _ => None end.

(** What the store and the theorems ask of it *)
Definition ex_commit_check (at_ : string) : bool :=
  match ex_commit at_ with
  | Some c => bool_decide ((r_Sequence (k_Record c), e_ActorRevision (r_Event (k_Record c)),
        e_SubjectRevision (r_Event (k_Record c)), is_zero (mustTime (r_AppendedAt (k_Record c))),
        match k_Checkpoint c with None => true | Some _ => false end,
        r_OrganizationID (k_Record c), r_TenantID (k_Record c), is_ok (ValidateCommit c),
        same_head zero_head (k_ExpectedHead c)) = (1, 3, 0, false, true, ex_org, ex_tenant, true, true))
  | None => false
  end.

Lemma ex_commit_facts at_ : ex_commit_check at_ = true ->
  exists c, ex_commit at_ = Some c /\ commit_for ex_org ex_tenant c /\ timely c /\
  k_Checkpoint c = None /\ is_ok (ValidateCommit c) = true /\ same_head zero_head (k_ExpectedHead c) = true.
Proof.
  unfold ex_commit_check. destruct (ex_commit at_) as [c|]; [|discriminate]. intros H%bool_decide_eq_true.
  exists c. split; [reflexivity|].
  repeat apply pair_equal_spec in H as [H ?].
  destruct (k_Checkpoint c) eqn:Hc; [discriminate|]. unfold commit_for, timely, record_typed, event_typed, is_u64.
  rewrite Hc. match goal with H : e_ActorRevision _ = _, H' : e_SubjectRevision _ = _ |- _ => rewrite H, H' end.
  rewrite H. split_and!; try done; lia.
Qed.

(** The log after it *)
Definition ex_log (at_ : string) : Log :=
  match ex_commit at_ with Some c => snd (commit_log c empty_log) | None => empty_log end.

Lemma ex_log_facts at_ : ex_commit_check at_ = true -> reachable ex_org ex_tenant (ex_log at_) /\
  length (log_records (ex_log at_)) = 1%nat /\ log_checkpoints (ex_log at_) = [].
Proof.
  intros (c & Hex & Hfor & Htime & Hnone & Hguard & Hhead)%ex_commit_facts. unfold ex_log. rewrite Hex. split.
  - destruct (commit_log c empty_log) as [answer log] eqn:Hlog.
    exact (reach_commit _ _ empty_log c answer log (reach_empty _ _) Hfor Htime Hlog).
  - unfold commit_log. apply is_ok_true in Hguard as [u Hguard]. rewrite Hguard.
    cbn [log_replays empty_log]. rewrite lookup_empty. change (log_head empty_log) with zero_head. rewrite Hhead.
    cbn [snd]. destruct (apply_commit_lists empty_log c) as [-> ->]. rewrite Hnone. by split.
Qed.

Lemma ex_first_check : ex_commit_check ex_appended = true.
Proof. vm_compute. reflexivity. Qed.

Lemma reachable_logs_verify_witness :
  exists log (w : AuditWorld), reachable ex_org ex_tenant log /\ (length (log_records log) = 1)%nat /\
    Verify 1 true CtxLive ex_org ex_tenant w = (Ok (Some (log_report ex_org ex_tenant log)), w).
Proof.
  destruct (ex_log_facts _ ex_first_check) as (Hreach & Hone & Hnocp). set (log := ex_log ex_appended) in *.
  set (w := mkAuditWorld {[ (ex_org, ex_tenant) := log ]} (mustTime ex_appended)).
  assert (Hw : tenant_log w ex_org ex_tenant = log)
    by (unfold tenant_log, w; cbn [aw_logs]; rewrite lookup_singleton_eq; reflexivity).
  assert (Hserves : serves w ex_org ex_tenant log (mustTime ex_appended)).
  { split.
    - change (LoadHead ex_org ex_tenant w) with
        (Ok (E := store_error) (log_head (tenant_log w ex_org ex_tenant)), w). rewrite Hw. reflexivity.
    - intros after_ limit. change (ReadAuditRecords ex_org ex_tenant after_ limit w) with
        (Ok (E := store_error) (take (Z.to_nat limit) (filter (fun r => after_ < r_Sequence r)
           (log_records (tenant_log w ex_org ex_tenant)))), w). rewrite Hw. reflexivity.
    - change (ReadAuditCheckpoints ex_org ex_tenant w) with
        (Ok (E := store_error) (log_checkpoints (tenant_log w ex_org ex_tenant)), w). rewrite Hw. reflexivity.
    - reflexivity.
    - rewrite Hnocp. intros d Hd. exfalso. exact (not_elem_of_nil d Hd). }
  exists log, w. split; [exact Hreach|]. split; [exact Hone|].
  apply (reachable_logs_verify w ex_org ex_tenant log (mustTime ex_appended) 1 Hreach Hserves);
    [discriminate|discriminate|rewrite Hone; lia].
Defined.

(** *** The clock that steps back *)




#[local] Instance AppendResult_eq_dec : EqDecision AppendResult.
Proof. solve_decision. Defined.



#[local] Opaque ex_log ex_commit_check Append commit_log.

