(* ===== verification/QueryConnector.v ===== *)
(** * internal/domain/queryconnector: the contract of read-only queries

    The documents connectors and the control plane exchange ([types.go]), their
    validation ([validate.go]), the bounded decoder that turns input into a validated
    document with its canonical bytes and digest ([canonical.go]), and the admission of a
    validated query for execution ([spi.go]).

    The rows of a result page are a type parameter: no code of the package looks into
    one.  They are [map[string]any] in the source, whose numbers become floats, so the
    decoders of the two documents that hold rows are not modelled. *)

From S2P Require Import Prelude GoStrings GoRegexp GoTime GoJson DomainContract Sha256 Domain GoStruct GoCodec.

Local Open Scope string_scope.
Local Open Scope Z_scope.

(** ** errors.go *)

Inductive ErrorCode : Type :=
| InvalidInput | Denied | Unsupported | Canceled | Timeout | Unavailable | Conflict | Internal.

(** The cause an error carries is only printed. *)
Record Error : Type := NewError { err_Code : ErrorCode; err_Reason : string }.

Definition Code (err : go_error Error) : ErrorCode :=
  match errors_as err with
  | Some target => err_Code target
  | None =>
      if errors_is_canceled err then Canceled
      else if errors_is_deadline err then Timeout
      else Unavailable
  end.

Definition Reason (err : go_error Error) : string :=
  match errors_as err with
  | Some target => err_Reason target
  | None => "query_connector_unavailable"
  end.

(** ** types.go *)

Definition ContractVersion : string := "1.0.0".
Definition CapabilitySchemaVersion : string := "coh.query-capability/v1".
Definition QuerySchemaVersion : string := "coh.query-request/v1".
Definition SchemaSchemaVersion : string := "coh.query-schema/v1".
Definition ValidationSchemaVersion : string := "coh.query-validation/v1".
Definition ExecutionSchemaVersion : string := "coh.query-execution/v1".
Definition PollSchemaVersion : string := "coh.query-poll/v1".
Definition PageSchemaVersion : string := "coh.query-page/v1".
Definition CancellationVersion : string := "coh.query-cancellation/v1".
Definition MaximumDocumentBytes : Z := 2 ^ 20.

Record Scope : Type := mkScope {
  s_OrganizationID : string;
  s_TenantID : string;
  s_CaseID : string;
  s_SourceID : string;
  s_ResourceIDs : slice string }.

Record AuthorityBinding : Type := mkAuthorityBinding {
  a_ActorID : string;
  a_AuthorizationDigest : string;
  a_PolicyDecisionDigest : string;
  a_AuditReservationDigest : string }.

Record TimeRange : Type := mkTimeRange { Start : string; End_ : string }.

Record Limits : Type := mkLimits {
  MaximumRows : Z;
  MaximumBytes : Z;
  MaximumDurationMillis : Z;
  MaximumPages : Z;
  MaximumSlices : Z;
  MaximumCostMillionths : Z;
  RequestsPerMinute : Z }.

Record Features : Type := mkFeatures {
  ReadOnly : bool;
  SchemaDiscovery : bool;
  Validation : bool;
  Polling : bool;
  Paging : bool;
  CancellationFeature : bool;
  StatisticsFeature : bool }.

Record CapabilitySnapshot : Type := mkCapabilitySnapshot {
  cap_SchemaVersion : string;
  cap_ContractVersion : string;
  cap_SnapshotID : string;
  cap_SourceID : string;
  cap_AdapterVersion : string;
  cap_ObservedAt : string;
  cap_ValidUntil : string;
  cap_QueryLanguages : slice string;
  cap_Features : Features;
  cap_HardLimits : Limits;
  cap_SourceIdentityDigest : string }.

Record HandleRef : Type := mkHandleRef {
  h_HandleID : string;
  h_Kind : string;
  h_SourceID : string;
  h_OpaqueDigest : string;
  h_IssuedAt : string;
  h_ExpiresAt : string }.

Record SchemaRequest : Type := mkSchemaRequest {
  sr_RequestID : string;
  sr_Scope : Scope;
  sr_Authority : AuthorityBinding;
  sr_CapabilityDigest : string;
  sr_Cursor : option HandleRef;
  sr_Limits : Limits }.

Record SchemaEntry : Type := mkSchemaEntry {
  se_ResourceID : string;
  se_Name : string;
  se_Type : string;
  se_Nullable : bool }.

Record SchemaPage : Type := mkSchemaPage {
  sp_SchemaVersion : string;
  sp_ContractVersion : string;
  sp_RequestID : string;
  sp_SchemaDigest : string;
  sp_Entries : slice SchemaEntry;
  sp_NextCursor : option HandleRef;
  sp_Complete : bool;
  sp_ProvenanceDigest : string }.

Record Query : Type := mkQuery {
  q_SchemaVersion : string;
  q_ContractVersion : string;
  q_QueryID : string;
  q_Scope : Scope;
  q_Authority : AuthorityBinding;
  q_CapabilityDigest : string;
  q_SchemaDigest : string;
  q_Language : string;
  q_NativeText : string;
  q_TimeRange : TimeRange;
  q_Limits : Limits;
  q_RequestedAt : string;
  q_Deadline : string }.

Record ValidationResult : Type := mkValidationResult {
  v_SchemaVersion : string;
  v_ContractVersion : string;
  v_QueryID : string;
  v_Outcome : string;
  v_ReasonCodes : slice string;
  v_ValidatorVersion : string;
  v_CanonicalQueryDigest : string;
  v_ProvenanceDigest : string }.

Record Execution : Type := mkExecution {
  x_SchemaVersion : string;
  x_ContractVersion : string;
  x_QueryID : string;
  x_AttemptID : string;
  x_Handle : HandleRef;
  x_Outcome : string;
  x_StartedAt : string;
  x_ProvenanceDigest : string }.

Record Completeness : Type := mkCompleteness {
  Status : string;
  ReasonCodes : slice string;
  Truncated : bool;
  Partial : bool;
  VendorConfirmed : bool }.

Record Statistics : Type := mkStatistics {
  RowsScanned : Z;
  RowsReturned : Z;
  BytesReturned : Z;
  DurationMillis : Z;
  PagesReturned : Z;
  SlicesCompleted : Z;
  CostMillionths : Z }.

Record ResultPage (Row : Type) : Type := mkResultPage {
  rp_SchemaVersion : string;
  rp_ContractVersion : string;
  rp_QueryID : string;
  rp_AttemptID : string;
  rp_PageNumber : Z;
  rp_Rows : slice Row;
  rp_NextPage : option HandleRef;
  rp_ResultDigest : string;
  rp_Completeness : Completeness;
  rp_Statistics : Statistics;
  rp_ProvenanceDigest : string }.

Record PollResult (Row : Type) : Type := mkPollResult {
  p_SchemaVersion : string;
  p_ContractVersion : string;
  p_QueryID : string;
  p_AttemptID : string;
  p_Outcome : string;
  p_Page : option (ResultPage Row);
  p_Statistics : Statistics;
  p_Completeness : Completeness;
  p_ProvenanceDigest : string }.

Record Cancellation : Type := mkCancellation {
  cn_SchemaVersion : string;
  cn_ContractVersion : string;
  cn_QueryID : string;
  cn_AttemptID : string;
  cn_Outcome : string;
  cn_RequestedAt : string;
  cn_ConfirmedAt : option string;
  cn_ProvenanceDigest : string }.

(** *** The struct tags *)

Definition scope_codec : codec Scope := struct_codec
  (field "organization_id" str_codec $ field "tenant_id" str_codec $ field "case_id" str_codec $
     field "source_id" str_codec $ field "resource_ids" (slice_codec str_codec) $ no_fields)
  (fun '(mkScope a b c d e) => (a, (b, (c, (d, (e, tt))))))
  (fun '(a, (b, (c, (d, (e, _))))) => mkScope a b c d e)
  ltac:(by intros []) ltac:(by intros (? & ? & ? & ? & ? & [])).

Definition authority_codec : codec AuthorityBinding := struct_codec
  (field "actor_id" str_codec $ field "authorization_digest" str_codec $
     field "policy_decision_digest" str_codec $ field "audit_reservation_digest" str_codec $ no_fields)
  (fun '(mkAuthorityBinding a b c d) => (a, (b, (c, (d, tt)))))
  (fun '(a, (b, (c, (d, _)))) => mkAuthorityBinding a b c d)
  ltac:(by intros []) ltac:(by intros (? & ? & ? & ? & [])).

Definition time_range_codec : codec TimeRange := struct_codec
  (field "start" str_codec $ field "end" str_codec $ no_fields)
  (fun '(mkTimeRange a b) => (a, (b, tt)))
  (fun '(a, (b, _)) => mkTimeRange a b)
  ltac:(by intros []) ltac:(by intros (? & ? & [])).

Definition limits_codec : codec Limits := struct_codec
  (field "maximum_rows" (uint_codec 64) $ field "maximum_bytes" (uint_codec 64) $
     field "maximum_duration_millis" (uint_codec 64) $ field "maximum_pages" (uint_codec 32) $
     field "maximum_slices" (uint_codec 32) $ field "maximum_cost_millionths" (uint_codec 64) $
     field "requests_per_minute" (uint_codec 32) $ no_fields)
  (fun '(mkLimits a b c d e f g) => (a, (b, (c, (d, (e, (f, (g, tt))))))))
  (fun '(a, (b, (c, (d, (e, (f, (g, _))))))) => mkLimits a b c d e f g)
  ltac:(by intros []) ltac:(by intros (? & ? & ? & ? & ? & ? & ? & [])).

Definition features_codec : codec Features := struct_codec
  (field "read_only" bool_codec $ field "schema_discovery" bool_codec $ field "validation" bool_codec $
     field "polling" bool_codec $ field "paging" bool_codec $ field "cancellation" bool_codec $
     field "statistics" bool_codec $ no_fields)
  (fun '(mkFeatures a b c d e f g) => (a, (b, (c, (d, (e, (f, (g, tt))))))))
  (fun '(a, (b, (c, (d, (e, (f, (g, _))))))) => mkFeatures a b c d e f g)
  ltac:(by intros []) ltac:(by intros (? & ? & ? & ? & ? & ? & ? & [])).

Definition capability_codec : codec CapabilitySnapshot := struct_codec
  (field "schema_version" str_codec $ field "contract_version" str_codec $
     field "snapshot_id" str_codec $ field "source_id" str_codec $ field "adapter_version" str_codec $
     field "observed_at" str_codec $ field "valid_until" str_codec $
     field "query_languages" (slice_codec str_codec) $ field "features" features_codec $
     field "hard_limits" limits_codec $ field "source_identity_digest" str_codec $ no_fields)
  (fun '(mkCapabilitySnapshot a b c d e f g h i j k) =>
     (a, (b, (c, (d, (e, (f, (g, (h, (i, (j, (k, tt))))))))))))
  (fun '(a, (b, (c, (d, (e, (f, (g, (h, (i, (j, (k, _))))))))))) =>
     mkCapabilitySnapshot a b c d e f g h i j k)
  ltac:(by intros []) ltac:(by intros (? & ? & ? & ? & ? & ? & ? & ? & ? & ? & ? & [])).

Definition handle_codec : codec HandleRef := struct_codec
  (field "handle_id" str_codec $ field "kind" str_codec $ field "source_id" str_codec $
     field "opaque_digest" str_codec $ field "issued_at" str_codec $ field "expires_at" str_codec $ no_fields)
  (fun '(mkHandleRef a b c d e f) => (a, (b, (c, (d, (e, (f, tt)))))))
  (fun '(a, (b, (c, (d, (e, (f, _)))))) => mkHandleRef a b c d e f)
  ltac:(by intros []) ltac:(by intros (? & ? & ? & ? & ? & ? & [])).

Definition schema_entry_codec : codec SchemaEntry := struct_codec
  (field "resource_id" str_codec $ field "name" str_codec $ field "type" str_codec $
     field "nullable" bool_codec $ no_fields)
  (fun '(mkSchemaEntry a b c d) => (a, (b, (c, (d, tt)))))
  (fun '(a, (b, (c, (d, _)))) => mkSchemaEntry a b c d)
  ltac:(by intros []) ltac:(by intros (? & ? & ? & ? & [])).

Definition schema_page_codec : codec SchemaPage := struct_codec
  (field "schema_version" str_codec $ field "contract_version" str_codec $ field "request_id" str_codec $
     field "schema_digest" str_codec $ field "entries" (slice_codec schema_entry_codec) $
     field "next_cursor" (ptr_codec handle_codec) $ field "complete" bool_codec $
     field "provenance_digest" str_codec $ no_fields)
  (fun '(mkSchemaPage a b c d e f g h) => (a, (b, (c, (d, (e, (f, (g, (h, tt)))))))))
  (fun '(a, (b, (c, (d, (e, (f, (g, (h, _)))))))) => mkSchemaPage a b c d e f g h)
  ltac:(by intros []) ltac:(by intros (? & ? & ? & ? & ? & ? & ? & ? & [])).

Definition query_codec : codec Query := struct_codec
  (field "schema_version" str_codec $ field "contract_version" str_codec $ field "query_id" str_codec $
     field "scope" scope_codec $ field "authority" authority_codec $ field "capability_digest" str_codec $
     field "schema_digest" str_codec $ field "language" str_codec $ field "native_text" str_codec $
     field "time_range" time_range_codec $ field "limits" limits_codec $ field "requested_at" str_codec $
     field "deadline" str_codec $ no_fields)
  (fun '(mkQuery a b c d e f g h i j k l m) =>
     (a, (b, (c, (d, (e, (f, (g, (h, (i, (j, (k, (l, (m, tt))))))))))))))
  (fun '(a, (b, (c, (d, (e, (f, (g, (h, (i, (j, (k, (l, (m, _))))))))))))) =>
     mkQuery a b c d e f g h i j k l m)
  ltac:(by intros []) ltac:(by intros (? & ? & ? & ? & ? & ? & ? & ? & ? & ? & ? & ? & ? & [])).

Definition validation_codec : codec ValidationResult := struct_codec
  (field "schema_version" str_codec $ field "contract_version" str_codec $ field "query_id" str_codec $
     field "outcome" str_codec $ field "reason_codes" (slice_codec str_codec) $
     field "validator_version" str_codec $ field "canonical_query_digest" str_codec $
     field "provenance_digest" str_codec $ no_fields)
  (fun '(mkValidationResult a b c d e f g h) => (a, (b, (c, (d, (e, (f, (g, (h, tt)))))))))
  (fun '(a, (b, (c, (d, (e, (f, (g, (h, _)))))))) => mkValidationResult a b c d e f g h)
  ltac:(by intros []) ltac:(by intros (? & ? & ? & ? & ? & ? & ? & ? & [])).

Definition execution_codec : codec Execution := struct_codec
  (field "schema_version" str_codec $ field "contract_version" str_codec $ field "query_id" str_codec $
     field "attempt_id" str_codec $ field "handle" handle_codec $ field "outcome" str_codec $
     field "started_at" str_codec $ field "provenance_digest" str_codec $ no_fields)
  (fun '(mkExecution a b c d e f g h) => (a, (b, (c, (d, (e, (f, (g, (h, tt)))))))))
  (fun '(a, (b, (c, (d, (e, (f, (g, (h, _)))))))) => mkExecution a b c d e f g h)
  ltac:(by intros []) ltac:(by intros (? & ? & ? & ? & ? & ? & ? & ? & [])).

Definition cancellation_codec : codec Cancellation := struct_codec
  (field "schema_version" str_codec $ field "contract_version" str_codec $ field "query_id" str_codec $
     field "attempt_id" str_codec $ field "outcome" str_codec $ field "requested_at" str_codec $
     field "confirmed_at" (ptr_codec str_codec) $ field "provenance_digest" str_codec $ no_fields)
  (fun '(mkCancellation a b c d e f g h) => (a, (b, (c, (d, (e, (f, (g, (h, tt)))))))))
  (fun '(a, (b, (c, (d, (e, (f, (g, (h, _)))))))) => mkCancellation a b c d e f g h)
  ltac:(by intros []) ltac:(by intros (? & ? & ? & ? & ? & ? & ? & ? & [])).

(** ** validate.go *)

Definition reason_char (c : ascii) : bool := is_lower c || is_digit c || Ascii.eqb c "_".

(** [^[a-z][a-z0-9_]{0,63}$] *)
Definition reason_regex : regex := RCat lower_class (r_upto 63 (RChr reason_char)).
Definition reasonPattern (s : string) : bool := matches reason_regex s.

Definition oneOf (value : string) (values : list string) : bool := existsb (String.eqb value) values.

Definition validTimestamp (value : string) : bool :=
  match parse_timestamp value with
  | Some parsed => String.eqb (format_timestamp parsed) value
  | None => false
  end.

Definition validTimes (start end_ : string) : bool :=
  if negb (validTimestamp start) || negb (validTimestamp end_) then false else
  let first := default zero_time (parse_timestamp start) in
  let last := default zero_time (parse_timestamp end_) in
  before first last.

(** The loop of [validReasons] and [validTokens] *)
Fixpoint each_distinct (pattern : string -> bool) (previous : option string) (values : list string) : bool :=
  match values with
  | [] => true
  | value :: values' =>
      if negb (pattern value) || match previous with Some p => String.eqb value p | None => false end
      then false
      else each_distinct pattern (Some value) values'
  end.

Definition validReasons (values : slice string) : bool :=
  if (64 <? Z.of_nat (length (items values))) || negb (is_sorted (items values)) then false
  else each_distinct reasonPattern None (items values).

Definition validTokens (values : slice string) (maximum : Z) : bool :=
  if (Z.of_nat (length (items values)) =? 0) || (maximum <? Z.of_nat (length (items values))) ||
     negb (is_sorted (items values)) then false
  else each_distinct tokenPattern None (items values).

Definition validScope (value : Scope) : bool :=
  uuidPattern (s_OrganizationID value) && uuidPattern (s_TenantID value) &&
  uuidPattern (s_CaseID value) && tokenPattern (s_SourceID value) && validTokens (s_ResourceIDs value) 4096.

Definition validAuthority (value : AuthorityBinding) : bool :=
  uuidPattern (a_ActorID value) && digestPattern (a_AuthorizationDigest value) &&
  digestPattern (a_PolicyDecisionDigest value) && digestPattern (a_AuditReservationDigest value).

Definition validLimits (value : Limits) : bool :=
  (0 <? MaximumRows value) && (0 <? MaximumBytes value) && (0 <? MaximumDurationMillis value) &&
  (0 <? MaximumPages value) && (0 <? MaximumSlices value) && (0 <? MaximumCostMillionths value) &&
  (0 <? RequestsPerMinute value).

Definition validHandle (value : HandleRef) : bool :=
  uuidPattern (h_HandleID value) && oneOf (h_Kind value) ["schema_cursor"; "query_job"; "result_page"] &&
  tokenPattern (h_SourceID value) && digestPattern (h_OpaqueDigest value) &&
  validTimes (h_IssuedAt value) (h_ExpiresAt value).

Definition validCompleteness (value : Completeness) : bool :=
  let reasons := Z.of_nat (length (items (ReasonCodes value))) in
  if negb (oneOf (Status value) ["complete"; "partial"; "unknown"]) || negb (validReasons (ReasonCodes value))
  then false
  else (String.eqb (Status value) "complete" && negb (Partial value) && negb (Truncated value) && (reasons =? 0)) ||
       (String.eqb (Status value) "partial" && Partial value && (0 <? reasons)) ||
       (String.eqb (Status value) "unknown" && negb (VendorConfirmed value) && (0 <? reasons)).

Definition validStatistics (value : Statistics) : bool := RowsReturned value <=? RowsScanned value.

Definition validateCapability (value : CapabilitySnapshot) : result Error unit :=
  deny_if (negb (String.eqb (cap_SchemaVersion value) CapabilitySchemaVersion) ||
           negb (String.eqb (cap_ContractVersion value) ContractVersion) ||
           negb (uuidPattern (cap_SnapshotID value)) || negb (tokenPattern (cap_SourceID value)) ||
           negb (tokenPattern (cap_AdapterVersion value)) || negb (digestPattern (cap_SourceIdentityDigest value)) ||
           negb (validTimes (cap_ObservedAt value) (cap_ValidUntil value)) ||
           negb (validTokens (cap_QueryLanguages value) 32) || negb (validLimits (cap_HardLimits value)) ||
           negb (ReadOnly (cap_Features value)) || negb (Validation (cap_Features value)))
    (NewError InvalidInput "capability_invalid").

Definition validateQuery (value : Query) : result Error unit :=
  deny_if (negb (String.eqb (q_SchemaVersion value) QuerySchemaVersion) ||
           negb (String.eqb (q_ContractVersion value) ContractVersion) ||
           negb (uuidPattern (q_QueryID value)) || negb (validScope (q_Scope value)) ||
           negb (validAuthority (q_Authority value)) ||
           negb (digestPattern (q_CapabilityDigest value)) || negb (digestPattern (q_SchemaDigest value)) ||
           negb (tokenPattern (q_Language value)) || String.eqb (trim_space (q_NativeText value)) "" ||
           (262144 <? len (q_NativeText value)) ||
           negb (validTimes (Start (q_TimeRange value)) (End_ (q_TimeRange value))) ||
           negb (validLimits (q_Limits value)) || negb (validTimes (q_RequestedAt value) (q_Deadline value)))
    (NewError InvalidInput "query_invalid").

Definition validateValidation (value : ValidationResult) : result Error unit :=
  let reasons := Z.of_nat (length (items (v_ReasonCodes value))) in
  deny_if (negb (String.eqb (v_SchemaVersion value) ValidationSchemaVersion) ||
           negb (String.eqb (v_ContractVersion value) ContractVersion) ||
           negb (uuidPattern (v_QueryID value)) || negb (oneOf (v_Outcome value) ["accepted"; "denied"]) ||
           negb (tokenPattern (v_ValidatorVersion value)) || negb (digestPattern (v_CanonicalQueryDigest value)) ||
           negb (digestPattern (v_ProvenanceDigest value)) || negb (validReasons (v_ReasonCodes value)) ||
           (String.eqb (v_Outcome value) "accepted" && negb (reasons =? 0)) ||
           (String.eqb (v_Outcome value) "denied" && (reasons =? 0)))
    (NewError InvalidInput "validation_invalid").

Definition validateExecution (value : Execution) : result Error unit :=
  deny_if (negb (String.eqb (x_SchemaVersion value) ExecutionSchemaVersion) ||
           negb (String.eqb (x_ContractVersion value) ContractVersion) ||
           negb (uuidPattern (x_QueryID value)) || negb (uuidPattern (x_AttemptID value)) ||
           negb (validHandle (x_Handle value)) || negb (oneOf (x_Outcome value) ["queued"; "running"]) ||
           negb (validTimestamp (x_StartedAt value)) || negb (digestPattern (x_ProvenanceDigest value)))
    (NewError InvalidInput "execution_invalid").

Definition validate_schema_entry (entry : SchemaEntry) : result Error unit :=
  deny_if (negb (tokenPattern (se_ResourceID entry)) || negb (tokenPattern (se_Name entry)) ||
           negb (oneOf (se_Type entry) ["string"; "integer"; "boolean"; "timestamp"; "ip"; "bytes"; "object"]))
    (NewError InvalidInput "schema_entry_invalid").

Definition is_nil {A} (p : option A) : bool := match p with None => true | Some _ => false end.

Definition validateSchemaPage (value : SchemaPage) : result Error unit :=
  let entries := items (sp_Entries value) in
  deny_if (negb (String.eqb (sp_SchemaVersion value) SchemaSchemaVersion) ||
           negb (String.eqb (sp_ContractVersion value) ContractVersion) ||
           negb (uuidPattern (sp_RequestID value)) || negb (digestPattern (sp_SchemaDigest value)) ||
           negb (digestPattern (sp_ProvenanceDigest value)) || (Z.of_nat (length entries) =? 0) ||
           (4096 <? Z.of_nat (length entries)) || (sp_Complete value && negb (is_nil (sp_NextCursor value))) ||
           (negb (sp_Complete value) && is_nil (sp_NextCursor value)))
    (NewError InvalidInput "schema_page_invalid") ;;
  for_each validate_schema_entry entries ;;
  match sp_NextCursor value with
  | Some cursor => deny_if (negb (validHandle cursor)) (NewError InvalidInput "schema_cursor_invalid")
  | None => Ok tt
  end.

Definition validatePage {Row} (value : ResultPage Row) : result Error unit :=
  let statistics := rp_Statistics _ value in
  deny_if (negb (String.eqb (rp_SchemaVersion _ value) PageSchemaVersion) ||
           negb (String.eqb (rp_ContractVersion _ value) ContractVersion) ||
           negb (uuidPattern (rp_QueryID _ value)) || negb (uuidPattern (rp_AttemptID _ value)) ||
           (rp_PageNumber _ value =? 0) || (100000 <? Z.of_nat (length (items (rp_Rows _ value)))) ||
           negb (digestPattern (rp_ResultDigest _ value)) || negb (validCompleteness (rp_Completeness _ value)) ||
           negb (validStatistics statistics) || (PagesReturned statistics =? 0) ||
           (SlicesCompleted statistics =? 0) || negb (digestPattern (rp_ProvenanceDigest _ value)))
    (NewError InvalidInput "page_invalid") ;;
  match rp_NextPage _ value with
  | Some handle => deny_if (negb (validHandle handle)) (NewError InvalidInput "page_handle_invalid")
  | None => Ok tt
  end.

Definition validatePoll {Row} (value : PollResult Row) : result Error unit :=
  deny_if (negb (String.eqb (p_SchemaVersion _ value) PollSchemaVersion) ||
           negb (String.eqb (p_ContractVersion _ value) ContractVersion) ||
           negb (uuidPattern (p_QueryID _ value)) || negb (uuidPattern (p_AttemptID _ value)) ||
           negb (oneOf (p_Outcome _ value) ["running"; "completed"; "partial"; "canceled"; "failed"]) ||
           negb (validCompleteness (p_Completeness _ value)) || negb (validStatistics (p_Statistics _ value)) ||
           negb (digestPattern (p_ProvenanceDigest _ value)) ||
           match p_Page _ value with Some page => negb (is_ok (validatePage page)) | None => false end ||
           (String.eqb (p_Outcome _ value) "running" && negb (is_nil (p_Page _ value))))
    (NewError InvalidInput "poll_invalid").

Definition validateCancellation (value : Cancellation) : result Error unit :=
  deny_if (negb (String.eqb (cn_SchemaVersion value) CancellationVersion) ||
           negb (String.eqb (cn_ContractVersion value) ContractVersion) ||
           negb (uuidPattern (cn_QueryID value)) || negb (uuidPattern (cn_AttemptID value)) ||
           negb (oneOf (cn_Outcome value) ["requested"; "confirmed"; "uncertain"]) ||
           negb (validTimestamp (cn_RequestedAt value)) || negb (digestPattern (cn_ProvenanceDigest value)) ||
           negb (Bool.eqb (String.eqb (cn_Outcome value) "confirmed") (negb (is_nil (cn_ConfirmedAt value)))) ||
           match cn_ConfirmedAt value with Some at_ => negb (validTimestamp at_) | None => false end)
    (NewError InvalidInput "cancellation_invalid").

(** ** canonical.go *)

Definition digest_domain (name : string) : string := name ++ String NUL "".
Definition capabilityDigestDomain : string := digest_domain "COH-QUERY-CAPABILITY-V1".
Definition queryDigestDomain : string := digest_domain "COH-QUERY-REQUEST-V1".
Definition validationDigestDomain : string := digest_domain "COH-QUERY-VALIDATION-V1".
Definition executionDigestDomain : string := digest_domain "COH-QUERY-EXECUTION-V1".
Definition schemaDigestDomain : string := digest_domain "COH-QUERY-SCHEMA-PAGE-V1".
Definition cancellationDigestDomain : string := digest_domain "COH-QUERY-CANCELLATION-V1".

(** The fields are private: outside the package a document is the zero document or one
    that [decode] returned. *)
Record validatedDocument (T : Type) : Type := mkDocument {
  value : T;
  bytes : string;
  doc_digest : string }.
Arguments mkDocument {T} _ _ _.
Arguments value {T} _.
Arguments bytes {T} _.
Arguments doc_digest {T} _.

Definition contextError (ctx : context_state) : result Error unit :=
  match ctx with
  | CtxNil => Err (NewError InvalidInput "context_required")
  | CtxLive => Ok tt
  | CtxDeadlineExceeded => Err (NewError Timeout "request_timeout")
  | CtxCanceled => Err (NewError Canceled "request_canceled")
  end.

(** [clone]: [json.Marshal] and back *)
Definition clone {T} (c : codec T) (value : T) : T := remarshal c value.

Definition Value {T} (c : codec T) (document : validatedDocument T) : T := clone c (value document).
Definition CanonicalBytes {T} (document : validatedDocument T) : string := bytes document.
Definition Digest {T} (document : validatedDocument T) : string := doc_digest document.

(** The context is asked before the work and after it: [ctx] and [ctx'] are its answers. *)
Definition decode_document {T} (c : codec T) (domain : string) (validate : T -> result Error unit)
  (ctx ctx' : context_state) (input : string) : result Error (validatedDocument T) :=
  contextError ctx ;;
  deny_if ((len input =? 0) || (MaximumDocumentBytes <? len input)) (NewError InvalidInput "document_size") ;;
  canonical ← or_err (Canonicalize input) (NewError InvalidInput "document_decoding");
  match decode_text c canonical with
  | None => Err (NewError InvalidInput "document_decoding")
  | Some zero =>
      validate zero ;;
      contextError ctx' ;;
      Ok (mkDocument (clone c zero) canonical (digest (domain ++ canonical)))
  end.

Definition DecodeCapability := decode_document capability_codec capabilityDigestDomain validateCapability.
Definition DecodeQuery := decode_document query_codec queryDigestDomain validateQuery.
Definition DecodeValidation := decode_document validation_codec validationDigestDomain validateValidation.
Definition DecodeExecution := decode_document execution_codec executionDigestDomain validateExecution.
Definition DecodeSchemaPage := decode_document schema_page_codec schemaDigestDomain validateSchemaPage.
Definition DecodeCancellation := decode_document cancellation_codec cancellationDigestDomain validateCancellation.

(** ** spi.go *)

Definition AdmitExecution (ctx : context_state) (query : validatedDocument Query)
  (validation : validatedDocument ValidationResult) : result Error unit :=
  contextError ctx ;;
  let queryValue := Value query_codec query in
  let validationValue := Value validation_codec validation in
  deny_if (String.eqb (Digest query) "" || String.eqb (Digest validation) "" ||
           negb (String.eqb (v_Outcome validationValue) "accepted"))
    (NewError Denied "validation_not_accepted") ;;
  deny_if (negb (String.eqb (v_QueryID validationValue) (q_QueryID queryValue)) ||
           negb (String.eqb (v_CanonicalQueryDigest validationValue) (Digest query)))
    (NewError Conflict "validation_query_mismatch").
