(* ===== verification/QueryConnectorFacts.v ===== *)
(** * The query contract: theorems

    A decoded document is exactly what its canonical bytes say, its integers fit their
    fields, and its lists are sorted sets; an accepted validation admits one query. *)

From S2P Require Import Prelude GoStrings GoRegexp GoTime GoJson DomainContract Sha256 Domain GoStruct GoCodec QueryConnector.

Local Open Scope string_scope.
Local Open Scope Z_scope.

(** ** The tags are well-formed *)

Ltac plain_by_computation := split; vm_compute; reflexivity.

Lemma capability_plain : plain_type (c_type capability_codec).
Proof. plain_by_computation. Qed.
Lemma query_plain : plain_type (c_type query_codec).
Proof. plain_by_computation. Qed.
Lemma validation_plain : plain_type (c_type validation_codec).
Proof. plain_by_computation. Qed.
Lemma execution_plain : plain_type (c_type execution_codec).
Proof. plain_by_computation. Qed.
Lemma schema_page_plain : plain_type (c_type schema_page_codec).
Proof. plain_by_computation. Qed.
Lemma cancellation_plain : plain_type (c_type cancellation_codec).
Proof. plain_by_computation. Qed.

Create HintDb documents.
#[export] Hint Resolve capability_plain query_plain validation_plain execution_plain schema_page_plain
  cancellation_plain : documents.

(** ** Decoding *)

Lemma contextError_ok ctx u : contextError ctx = Ok u <-> ctx = CtxLive.
Proof. destruct ctx, u; cbn; naive_solver. Qed.

Section decode.
Context {T : Type} (c : codec T) (domain : string) (validate : T -> result Error unit).
Context (Hplain : plain_type (c_type c)).

Lemma decode_document_inv ctx ctx' input doc : decode_document c domain validate ctx ctx' input = Ok doc ->
  ctx = CtxLive /\ ctx' = CtxLive /\ 0 < len input <= MaximumDocumentBytes /\
  Canonicalize input = Ok (bytes doc) /\ decode_text c (bytes doc) = Some (value doc) /\
  validate (value doc) = Ok tt /\ typed c (value doc) /\
  doc = mkDocument (value doc) (bytes doc) (digest (domain ++ bytes doc)).
Proof.
  unfold decode_document. intros [Hctx H]%seq_ok. apply seq_ok in H as [Hlen H].
  apply bind_ok in H as (canonical & Hcan & H). apply or_err_ok in Hcan.
  destruct (decode_text c canonical) as [zero|] eqn:Hz; [|done].
  apply seq_ok in H as [Hval H]. apply seq_ok in H as [Hctx' [= <-]]. cbn [value bytes].
  pose proof (decode_text_typed c Hplain _ _ Hz) as Hty.
  unfold clone. rewrite (remarshal_id c Hplain zero Hty).
  apply contextError_ok in Hctx, Hctx'. apply deny_if_ok in Hlen. bool_split. unfold len in *.
  split_and!; try done; lia.
Qed.

Lemma decode_document_value ctx ctx' input doc : decode_document c domain validate ctx ctx' input = Ok doc ->
  Value c doc = value doc.
Proof. intros (_ & _ & _ & _ & _ & _ & Hty & _)%decode_document_inv. by apply (remarshal_id c Hplain). Qed.

Lemma decode_document_digest ctx ctx' input doc : decode_document c domain validate ctx ctx' input = Ok doc ->
  Digest doc = digest (domain ++ CanonicalBytes doc).
Proof. intros (_ & _ & _ & _ & _ & _ & _ & ->)%decode_document_inv. done. Qed.

(** Documents are told apart by their canonical bytes, *)
Lemma same_bytes_same_document ctx1 ctx1' input1 doc1 ctx2 ctx2' input2 doc2 :
  decode_document c domain validate ctx1 ctx1' input1 = Ok doc1 ->
  decode_document c domain validate ctx2 ctx2' input2 = Ok doc2 ->
  bytes doc1 = bytes doc2 -> doc1 = doc2.
Proof.
  intros (_ & _ & _ & _ & Hv1 & _ & _ & H1)%decode_document_inv
    (_ & _ & _ & _ & Hv2 & _ & _ & H2)%decode_document_inv Heq.
  rewrite Heq in Hv1. rewrite H1, H2, Heq. f_equal. congruence.
Qed.

(** so by their digests as well, as far as SHA-256 tells messages apart. *)
Lemma same_digest_same_document ctx1 ctx1' input1 doc1 ctx2 ctx2' input2 doc2 :
  decode_document c domain validate ctx1 ctx1' input1 = Ok doc1 ->
  decode_document c domain validate ctx2 ctx2' input2 = Ok doc2 ->
  Digest doc1 = Digest doc2 ->
  doc1 = doc2 \/ sha256_collision (domain ++ CanonicalBytes doc1) (domain ++ CanonicalBytes doc2).
Proof.
  intros H1 H2 Heq. rewrite (decode_document_digest _ _ _ _ H1), (decode_document_digest _ _ _ _ H2) in Heq.
  apply digest_eq in Heq as [Heq|Hcol]; [left|by right].
  apply append_inj_l in Heq. by eapply same_bytes_same_document.
Qed.
End decode.

(** A document [decode] returns is validated, well-typed and determined by its canonical
    bytes: they are the canonical form of the input, its digest is taken over them, [Value]
    returns the decoded value, and within the size bound decoding them again gives the same
    document. *)
Theorem decoded_documents_are_canonical {T} (c : codec T) (domain : string) (validate : T -> result Error unit)
  (Hplain : plain_type (c_type c)) ctx ctx' input doc
  (H : decode_document c domain validate ctx ctx' input = Ok doc) :
  Canonicalize input = Ok (CanonicalBytes doc) /\
  Digest doc = digest (domain ++ CanonicalBytes doc) /\
  typed c (Value c doc) /\ validate (Value c doc) = Ok tt /\
  (len (CanonicalBytes doc) <= MaximumDocumentBytes ->
   decode_document c domain validate CtxLive CtxLive (CanonicalBytes doc) = Ok doc).
Proof.
  pose proof (decode_document_inv c domain validate Hplain _ _ _ _ H)
    as (_ & _ & _ & Hcan & Hv & Hval & Hty & Hdoc).
  rewrite (decode_document_value c domain validate Hplain _ _ _ _ H).
  split_and!; try done; [by rewrite Hdoc|]. unfold CanonicalBytes. intros Hlen.
  destruct (Canonicalize_inv _ _ Hcan) as (v & _ & Hwf & Hbytes).
  assert (Hfix : Canonicalize (bytes doc) = Ok (bytes doc)).
  { rewrite Hbytes in *. rewrite Canonicalize_marshal by (done || by apply json_wf_sort).
    by rewrite (sort_json_idemp 64). }
  assert (Hpos : 0 < len (bytes doc)).
  { rewrite Hbytes. pose proof (marshal_length_pos false 64 (sort_json v) (json_wf_sort _ _ Hwf)).
    unfold len. lia. }
  unfold decode_document. rewrite seq_ok. split; [done|]. rewrite seq_ok, deny_if_ok. split.
  { apply orb_false_iff. rewrite Z.eqb_neq, Z.ltb_ge. lia. }
  rewrite Hfix. cbn [or_err mbind result_bind]. rewrite Hv, seq_ok. split; [done|].
  cbn [contextError mbind result_bind]. unfold clone. rewrite (remarshal_id c Hplain _ Hty). by rewrite <- Hdoc.
Qed.

(** ** Sorted sets *)

(** The loop that compares neighbours finds every repetition of a sorted slice. *)
Lemma each_distinct_iff pattern values : forall previous,
  is_sorted (from_option (fun p => p :: values) values previous) = true ->
  each_distinct pattern previous values = true <->
  Forall (fun v => pattern v = true) values /\ increasing (from_option (fun p => p :: values) values previous).
Proof.
  induction values as [|v values IH]; intros previous Hs; cbn [each_distinct].
  { destruct previous; cbn; (split; [|done]); intros _; (split; [constructor|]); repeat constructor. }
  assert (Hs' : is_sorted (v :: values) = true) by (destruct previous; [by eapply is_sorted_tail|done]).
  specialize (IH (Some v) Hs'). cbn [from_option] in IH.
  destruct (pattern v) eqn:Hv; cbn [negb orb]; [|rewrite Forall_cons; naive_solver].
  rewrite Forall_cons. destruct previous as [p|]; cbn [from_option] in *.
  - destruct (String.eqb_spec v p) as [->|Hne].
    { split; [done|]. intros [_ Hinc]. exfalso. apply StronglySorted_inv in Hinc as [_ Hp].
      inversion_clear Hp. by apply (str_lt_irrefl p). }
    rewrite IH. split; intros [HF Hinc]; (split; [naive_solver|]).
    + constructor; [done|]. cbn in Hs. apply andb_true_iff in Hs as [Hpv _].
      assert (Hlt : str_lt p v).
      { destruct (str_lt_trichotomy p v) as [[|]|]; [done|by subst|]. by apply str_leb_nlt in Hpv. }
      constructor; [done|]. apply StronglySorted_inv in Hinc as [_ Hinc].
      eapply List.Forall_impl; [|exact Hinc]. cbn. intros x. by transitivity v.
    + by apply StronglySorted_inv in Hinc as [? _].
  - rewrite IH. naive_solver.
Qed.

Lemma validTokens_iff values maximum : 0 <= maximum ->
  validTokens values maximum = true <->
  items values <> [] /\ Z.of_nat (length (items values)) <= maximum /\
  Forall (fun v => tokenPattern v = true) (items values) /\ increasing (items values).
Proof.
  intros Hmax. unfold validTokens.
  destruct (Z.eqb_spec (Z.of_nat (length (items values))) 0) as [H0|H0].
  { destruct (items values); [naive_solver|done]. }
  destruct (Z.ltb_spec maximum (Z.of_nat (length (items values)))); [naive_solver lia|].
  assert (items values <> []) by (by destruct (items values)).
  destruct (is_sorted (items values)) eqn:Hs; cbn [orb negb].
  - rewrite (each_distinct_iff tokenPattern (items values) None Hs). cbn [from_option]. naive_solver.
  - split; [done|]. intros (_ & _ & _ & Hinc%increasing_is_sorted). congruence.
Qed.

Lemma validReasons_iff values :
  validReasons values = true <->
  Z.of_nat (length (items values)) <= 64 /\
  Forall (fun v => reasonPattern v = true) (items values) /\ increasing (items values).
Proof.
  unfold validReasons.
  destruct (Z.ltb_spec 64 (Z.of_nat (length (items values)))); [naive_solver lia|].
  destruct (is_sorted (items values)) eqn:Hs; cbn [orb negb].
  - rewrite (each_distinct_iff reasonPattern (items values) None Hs). cbn [from_option]. naive_solver.
  - split; [done|]. intros (_ & _ & Hinc%increasing_is_sorted). congruence.
Qed.

(** ** Capabilities *)

Definition limits_fit (l : Limits) : Prop :=
  0 < MaximumRows l < 2 ^ 64 /\ 0 < MaximumBytes l < 2 ^ 64 /\ 0 < MaximumDurationMillis l < 2 ^ 64 /\
  0 < MaximumPages l < 2 ^ 32 /\ 0 < MaximumSlices l < 2 ^ 32 /\ 0 < MaximumCostMillionths l < 2 ^ 64 /\
  0 < RequestsPerMinute l < 2 ^ 32.

Lemma limits_fit_typed l : typed limits_codec l -> validLimits l = true -> limits_fit l.
Proof.
  destruct l. unfold typed, validLimits, limits_fit. intros Ht Hv. cbn -[Z.pow] in Ht, Hv |- *. bool_split.
  repeat match goal with H : (_ <? _) = true |- _ => apply Z.ltb_lt in H end. lia.
Qed.

Lemma typed_hard_limits c : typed capability_codec c -> typed limits_codec (cap_HardLimits c).
Proof.
  destruct c as [? ? ? ? ? ? ? ? ? hard ?]. destruct hard.
  unfold typed. cbn -[Z.pow valid_string]. intros H. bool_split. rewrite !andb_true_iff. split_and!; done.
Qed.

Lemma validTimes_inv start end_ : validTimes start end_ = true ->
  exists s e, parse_timestamp start = Some s /\ parse_timestamp end_ = Some e /\
    start = format_timestamp s /\ end_ = format_timestamp e /\ nanos s < nanos e.
Proof.
  unfold validTimes, validTimestamp. intros H.
  destruct (parse_timestamp start) as [s|]; [|done]. destruct (parse_timestamp end_) as [e|];
    [|by rewrite orb_true_r in H].
  destruct (String.eqb_spec (format_timestamp s) start); [|done].
  destruct (String.eqb_spec (format_timestamp e) end_); [|done].
  exists s, e. cbn in H. apply Z.ltb_lt in H. done.
Qed.

(** A decoded capability is well-formed: its hard limits are positive and fit their
    machine integers, its languages are a sorted set of at most 32 tokens, and its validity is
    a proper interval of canonical timestamps. *)
Theorem decoded_capability_is_well_formed ctx ctx' input doc
  (H : DecodeCapability ctx ctx' input = Ok doc) :
  let capability := Value capability_codec doc in
  limits_fit (cap_HardLimits capability) /\
  Z.of_nat (length (items (cap_QueryLanguages capability))) <= 32 /\
  increasing (items (cap_QueryLanguages capability)) /\
  ReadOnly (cap_Features capability) = true /\
  exists observed expires, parse_timestamp (cap_ObservedAt capability) = Some observed /\
    parse_timestamp (cap_ValidUntil capability) = Some expires /\
    cap_ObservedAt capability = format_timestamp observed /\
    cap_ValidUntil capability = format_timestamp expires /\ nanos observed < nanos expires.
Proof.
  cbn zeta. rewrite (decode_document_value _ _ _ capability_plain _ _ _ _ H).
  apply (decode_document_inv _ _ _ capability_plain) in H as (_ & _ & _ & _ & _ & Hval & Hty & _).
  unfold validateCapability in Hval. apply deny_if_ok in Hval. bool_split.
  match goal with H : validTokens _ _ = true |- _ => apply validTokens_iff in H as (_ & ? & _ & ?); [|lia] end.
  split_and!; try done; [by apply limits_fit_typed, H2; apply typed_hard_limits|by apply validTimes_inv].
Qed.

(** ** Admission *)

(** C33. An admitted execution runs the validated query and no other: the validation was an
    acceptance without reasons, it names the query's identifier, and any other decoded query
    it would admit is the same document, or the two canonical texts are a SHA-256
    collision. *)
Theorem admission_binds_the_query ctx1 ctx1' input query ctx2 ctx2' decision validation ctx
  (Hq : DecodeQuery ctx1 ctx1' input = Ok query)
  (Hv : DecodeValidation ctx2 ctx2' decision = Ok validation)
  (H : AdmitExecution ctx query validation = Ok tt) :
  v_Outcome (Value validation_codec validation) = "accepted" /\
  items (v_ReasonCodes (Value validation_codec validation)) = [] /\
  v_QueryID (Value validation_codec validation) = q_QueryID (Value query_codec query) /\
  validateQuery (Value query_codec query) = Ok tt /\
  forall ctx3 ctx3' other_input other ctx',
    DecodeQuery ctx3 ctx3' other_input = Ok other -> AdmitExecution ctx' other validation = Ok tt ->
    other = query \/
    sha256_collision (queryDigestDomain ++ CanonicalBytes other) (queryDigestDomain ++ CanonicalBytes query).
Proof.
  assert (Hadmit : forall c q, AdmitExecution c q validation = Ok tt ->
    v_Outcome (Value validation_codec validation) = "accepted" /\
    v_QueryID (Value validation_codec validation) = q_QueryID (Value query_codec q) /\
    v_CanonicalQueryDigest (Value validation_codec validation) = Digest q).
  { unfold AdmitExecution. cbn zeta. intros c q [_ Hq']%seq_ok. apply seq_ok in Hq' as [H1 H2].
    apply deny_if_ok in H1, H2. bool_split. by rewrite !String.eqb_eq in *. }
  destruct (Hadmit _ _ H) as (Hout & Hid & Hdig).
  pose proof (decode_document_inv _ _ _ query_plain _ _ _ _ Hq) as (_ & _ & _ & _ & _ & Hqv & _ & _).
  pose proof (decode_document_inv _ _ _ validation_plain _ _ _ _ Hv) as (_ & _ & _ & _ & _ & Hvv & _ & _).
  rewrite (decode_document_value _ _ _ query_plain _ _ _ _ Hq) in *.
  rewrite (decode_document_value _ _ _ validation_plain _ _ _ _ Hv) in *.
  split_and!; try done.
  - unfold validateValidation in Hvv. apply deny_if_ok in Hvv. bool_split.
    rewrite Hout in *. cbn [String.eqb Ascii.eqb Bool.eqb andb] in *. bool_split.
    match goal with H : (Z.of_nat _ =? 0) = true |- _ => apply Z.eqb_eq in H end.
    by destruct (items _).
  - intros ctx3 ctx3' other_input other ctx' Ho Ha. destruct (Hadmit _ _ Ha) as (_ & _ & Hdig').
    eapply (same_digest_same_document query_codec); [exact query_plain|exact Ho|exact Hq|congruence].
Qed.

(** ** A worked example *)

Definition ex_digest : string := digest "x".

Definition ex_scope : Scope :=
  mkScope "0199a213-4444-7444-8444-444444444444" "0199a213-5555-7555-8555-555555555555"
    "0199a213-6666-7666-8666-666666666666" "siem" (Some ["alerts"; "events"]).
Definition ex_authority : AuthorityBinding :=
  mkAuthorityBinding "0199a213-7777-7777-8777-777777777777" ex_digest ex_digest ex_digest.
Definition ex_limits : Limits := mkLimits 1000 65536 30000 4 2 500 60.

Definition ex_capability : CapabilitySnapshot :=
  mkCapabilitySnapshot CapabilitySchemaVersion ContractVersion "0199a213-0001-7001-8001-000000000001" "siem"
    "adapter-1" "2026-08-26T17:00:00.000000000Z" "2026-08-26T18:00:00.000000000Z" (Some ["kql"; "spl"])
    (mkFeatures true true true true true true true) ex_limits ex_digest.

Definition ex_query : Query :=
  mkQuery QuerySchemaVersion ContractVersion "0199a213-0002-7002-8002-000000000002" ex_scope ex_authority
    ex_digest ex_digest "spl" "index=alerts" (mkTimeRange "2026-08-26T16:00:00.000000000Z" "2026-08-26T17:00:00.000000000Z")
    ex_limits "2026-08-26T17:10:00.000000000Z" "2026-08-26T17:20:00.000000000Z".

(** The text a client sends: what [json.Marshal] prints *)
Definition text_of {T} (c : codec T) (x : T) : string := marshal true (encode (c_type c) (c_to c x)).

Definition get_document {T} (c : codec T) (r : result Error (validatedDocument T)) : validatedDocument T :=
  match r with Ok doc => doc | Err _ => mkDocument (c_zero c) "" "" end.

Lemma get_document_ok {T} (c : codec T) r : is_ok r = true -> r = Ok (get_document c r).
Proof. by destruct r. Qed.

Definition ex_capability_document : validatedDocument CapabilitySnapshot :=
  get_document capability_codec (DecodeCapability CtxLive CtxLive (text_of capability_codec ex_capability)).
Definition ex_query_document : validatedDocument Query :=
  get_document query_codec (DecodeQuery CtxLive CtxLive (text_of query_codec ex_query)).

Definition ex_validation : ValidationResult :=
  mkValidationResult ValidationSchemaVersion ContractVersion "0199a213-0002-7002-8002-000000000002" "accepted"
    (Some []) "validator-1" (Digest ex_query_document) ex_digest.
Definition ex_validation_document : validatedDocument ValidationResult :=
  get_document validation_codec (DecodeValidation CtxLive CtxLive (text_of validation_codec ex_validation)).

Lemma ex_capability_decodes :
  DecodeCapability CtxLive CtxLive (text_of capability_codec ex_capability) = Ok ex_capability_document.
Proof. apply get_document_ok. vm_compute. reflexivity. Qed.

Lemma ex_query_decodes : DecodeQuery CtxLive CtxLive (text_of query_codec ex_query) = Ok ex_query_document.
Proof. apply get_document_ok. vm_compute. reflexivity. Qed.

Lemma ex_validation_decodes :
  DecodeValidation CtxLive CtxLive (text_of validation_codec ex_validation) = Ok ex_validation_document.
Proof. apply get_document_ok. vm_compute. reflexivity. Qed.

Lemma decoded_documents_are_canonical_witness :
  decode_document query_codec queryDigestDomain validateQuery CtxLive CtxLive (CanonicalBytes ex_query_document)
  = Ok ex_query_document.
Proof.
  apply (decoded_documents_are_canonical query_codec queryDigestDomain validateQuery query_plain _ _ _ _ ex_query_decodes).
  vm_compute. discriminate.
Defined.

Lemma decoded_capability_is_well_formed_witness :
  limits_fit (cap_HardLimits (Value capability_codec ex_capability_document)).
Proof. apply (decoded_capability_is_well_formed _ _ _ _ ex_capability_decodes). Defined.

Lemma admission_binds_the_query_witness :
  v_QueryID (Value validation_codec ex_validation_document) = q_QueryID (Value query_codec ex_query_document).
Proof.
  apply (admission_binds_the_query _ _ _ _ _ _ _ _ CtxLive ex_query_decodes ex_validation_decodes).
  vm_compute. reflexivity.
Defined.
