(* ===== verification/SchemaCache.v ===== *)
(** * internal/domain/schemacache: the single-flight schema cache

    [Cache] keeps validated schema pages under a key of tenant, source, resources and
    capability, bounded in number and bytes, evicting the least recently used; concurrent
    callers of one key share one load ([cache.go]).

    The cache is shared by goroutines under one mutex.  Its state is the [Cache] struct, the
    flights callers point to (a heap of [flight] structs) and the loads under way; each
    critical section of the code is one operation here.  What a goroutine does between two
    critical sections ([validateRequest], the checks of [load]) reads nothing another
    goroutine writes and is a pure function.  The loader and the clock are what they return. *)

From S2P Require Import Prelude GoStrings GoRegexp GoTime GoJson DomainContract Sha256 Domain GoStruct GoCodec QueryConnector.

Local Open Scope string_scope.
Local Open Scope Z_scope.

(** ** errors.go *)

Inductive ErrorCode : Type :=
| InvalidInput | Denied | Canceled | Timeout | Unavailable | Conflict | Internal.

(** The cause an error carries is only printed. *)
Record Error : Type := newError { err_Code : ErrorCode; err_Reason : string }.

Definition Code (err : go_error Error) : ErrorCode :=
  match errors_as err with
  | Some target => err_Code target
  | None =>
      if errors_is_canceled err then Canceled
      else if errors_is_deadline err then Timeout
      else Unavailable
  end.

Definition Reason (err : go_error Error) : string :=
  match errors_as err with
  | Some target => err_Reason target
  | None => "schema_cache_unavailable"
  end.

Definition mapLoaderError (err : go_error QueryConnector.Error) : Error :=
  match QueryConnector.Code err with
  | QueryConnector.InvalidInput => newError InvalidInput "loader_invalid"
  | QueryConnector.Denied | QueryConnector.Unsupported => newError Denied "loader_denied"
  | QueryConnector.Canceled => newError Canceled "loader_canceled"
  | QueryConnector.Timeout => newError Timeout "loader_timeout"
  | QueryConnector.Conflict => newError Conflict "loader_conflict"
  | QueryConnector.Internal => newError Internal "loader_internal"
  | QueryConnector.Unavailable => newError Unavailable "loader_unavailable"
  end.

Definition contextError (ctx : context_state) : result Error unit :=
  match ctx with
  | CtxNil => Err (newError InvalidInput "context_required")
  | CtxDeadlineExceeded => Err (newError Timeout "request_timeout")
  | CtxCanceled => Err (newError Canceled "request_canceled")
  | CtxLive => Ok tt
  end.

(** ** types.go *)

Definition ContractVersion : string := "1.0.0".
Definition SchemaVersion : string := "coh.schema-cache-entry/v1".
Definition MaximumConfiguredEntries : Z := 4096.
Definition MaximumConfiguredBytes : Z := 256 * 2 ^ 20.
Definition MaximumConfiguredTTL : Z := 3600 * second.
Definition MaximumLoadTimeout : Z := 120 * second.

Record Config : Type := mkConfig {
  MaximumEntries : Z;
  MaximumTotalBytes : Z;
  MaximumEntryBytes : Z;
  TTL : Z;
  LoadTimeout : Z }.

Definition ValidatedCapability : Type := validatedDocument CapabilitySnapshot.
Definition ValidatedSchemaPage : Type := validatedDocument SchemaPage.

Record Request : Type := mkRequest {
  SchemaRequest_ : SchemaRequest;
  Capability : ValidatedCapability }.

Record Snapshot : Type := mkSnapshot {
  sn_page : ValidatedSchemaPage;
  sn_identityDigest : string;
  sn_cachedAt : Time;
  sn_expiresAt : Time;
  sn_hit : bool }.

Record Invalidation : Type := mkInvalidation {
  i_OrganizationID : string;
  i_TenantID : string;
  i_SourceID : string;
  i_CapabilityDigest : string;
  i_AdapterVersion : string;
  i_SchemaVersion : string }.

(** ** cache.go *)

Definition resourceDigestDomain : string := "COH-SCHEMA-CACHE-RESOURCE-SCOPE-V1" ++ String NUL "".
Definition identityDigestDomain : string := "COH-SCHEMA-CACHE-ENTRY-V1" ++ String NUL "".

Record cacheKey : Type := mkKey {
  organizationID : string;
  tenantID : string;
  sourceID : string;
  resourceDigest : string;
  capabilityDigest : string;
  adapterVersion : string;
  schemaVersion : string }.

#[export] Instance cacheKey_eq_dec : EqDecision cacheKey.
Proof. solve_decision. Defined.

(** The fields in the order [less] compares them *)
Definition key_fields (key : cacheKey) : list string :=
  [organizationID key; tenantID key; sourceID key; resourceDigest key; capabilityDigest key;
   adapterVersion key; schemaVersion key].

#[export] Instance cacheKey_countable : Countable cacheKey.
Proof.
  refine (inj_countable key_fields
    (fun l => match l with [a; b; c; d; e; f; g] => Some (mkKey a b c d e f g) | _ => None end) _).
  by intros [].
Defined.

Record entry : Type := mkEntry {
  e_key : cacheKey;
  e_page : ValidatedSchemaPage;
  e_identityDigest : string;
  e_cachedAt : Time;
  e_expiresAt : Time;
  e_bytes : Z;
  e_access : Z }.

(** [done] is a channel that is only ever closed. *)
Record flight : Type := mkFlight {
  f_done : bool;
  f_key : cacheKey;
  f_request : Request;
  f_invalidated : bool;
  f_result : result Error Snapshot }.

(** [flights] maps a key to the address of a flight. *)
Record Cache : Type := mkCache {
  config : Config;
  entries : gmap cacheKey entry;
  flights : gmap cacheKey nat;
  totalBytes : Z;
  sequence : Z }.

(** The cache, the flights by address, and the running [load] goroutines: the address of
    their flight and the [capabilityExpiry] they were started with *)
Record world : Type := mkWorld {
  cache : Cache;
  heap : list flight;
  loads : gmap nat Time }.

Definition New (config : Config) (loader_nil clock_nil : bool) : result Error Cache :=
  deny_if ((MaximumEntries config <=? 0) || (MaximumTotalBytes config <=? 0) || (MaximumEntryBytes config <=? 0) ||
           (MaximumTotalBytes config <? MaximumEntryBytes config) || (TTL config <=? 0) ||
           (LoadTimeout config <=? 0) || (MaximumConfiguredEntries <? MaximumEntries config) ||
           (MaximumConfiguredBytes <? MaximumTotalBytes config) ||
           (QueryConnector.MaximumDocumentBytes <? MaximumEntryBytes config) ||
           (MaximumConfiguredTTL <? TTL config) || (MaximumLoadTimeout <? LoadTimeout config) ||
           loader_nil || clock_nil)
    (newError InvalidInput "configuration_invalid") ;;
  Ok (mkCache config ∅ ∅ 0 0).

Definition set_entries (c : Cache) (entries : gmap cacheKey entry) (totalBytes : Z) : Cache :=
  mkCache (config c) entries (flights c) totalBytes (sequence c).
Definition set_flights (c : Cache) (flights : gmap cacheKey nat) : Cache :=
  mkCache (config c) (entries c) flights (totalBytes c) (sequence c).

Definition snapshot (cached : entry) (hit : bool) : Snapshot :=
  mkSnapshot (e_page cached) (e_identityDigest cached) (e_cachedAt cached) (e_expiresAt cached) hit.

(** *** Keys *)

Fixpoint less_fields (left right : list string) : bool :=
  match left, right with
  | l :: left', r :: right' => if String.eqb l r then less_fields left' right' else String.ltb l r
  | _, _ => false
  end.
Definition less (key other : cacheKey) : bool := less_fields (key_fields key) (key_fields other).

Definition matches_key (target : Invalidation) (key : cacheKey) : bool :=
  String.eqb (i_OrganizationID target) (organizationID key) && String.eqb (i_TenantID target) (tenantID key) &&
  String.eqb (i_SourceID target) (sourceID key) &&
  (String.eqb (i_CapabilityDigest target) "" || String.eqb (i_CapabilityDigest target) (capabilityDigest key)) &&
  (String.eqb (i_AdapterVersion target) "" || String.eqb (i_AdapterVersion target) (adapterVersion key)) &&
  (String.eqb (i_SchemaVersion target) "" || String.eqb (i_SchemaVersion target) (schemaVersion key)).

(** *** Removing entries

    A [range] over the map that deletes as it goes; the order of the map does not matter
    (see [drop_where_entries]). *)
Definition drop_where (p : cacheKey -> entry -> bool) (c : Cache) : Cache :=
  foldl (fun c kv =>
    if p (fst kv) (snd kv)
    then set_entries c (delete (fst kv) (entries c)) (totalBytes c - e_bytes (snd kv))
    else c) c (map_to_list (entries c)).

Definition removeExpiredLocked (now : Time) (c : Cache) : Cache :=
  drop_where (fun _ cached => negb (before now (e_expiresAt cached))) c.

(** The inner loop of [enforceCapacityLocked] *)
Definition select_oldest (best : option (cacheKey * entry)) (candidate : cacheKey * entry)
  : option (cacheKey * entry) :=
  match best with
  | None => Some candidate
  | Some (selected, oldest) =>
      if (e_access (snd candidate) <? e_access oldest) ||
         ((e_access (snd candidate) =? e_access oldest) && less (fst candidate) selected)
      then Some candidate else best
  end.
Definition oldest_entry (entries : gmap cacheKey entry) : option (cacheKey * entry) :=
  foldl select_oldest None (map_to_list entries).

Definition over_capacity (c : Cache) : bool :=
  (MaximumEntries (config c) <? Z.of_nat (size (entries c))) || (MaximumTotalBytes (config c) <? totalBytes c).

(** The outer loop; every round removes an entry, so a round per entry is enough
    ([enforce_rounds_enough]). *)
Fixpoint enforce_rounds (fuel : nat) (c : Cache) : Cache :=
  match fuel with
  | O => c
  | S fuel =>
      if over_capacity c then
        match oldest_entry (entries c) with
        | None => c
        | Some (selected, oldest) =>
            enforce_rounds fuel (set_entries c (delete selected (entries c)) (totalBytes c - e_bytes oldest))
        end
      else c
  end.

Definition enforceCapacityLocked (now : Time) (c : Cache) : Cache :=
  let c := removeExpiredLocked now c in
  enforce_rounds (S (size (entries c))) c.

(** *** Digests *)

Definition digestValue {T} (domain : string) (c : codec T) (x : T) : result Error string :=
  canonical ← or_err (canonical_struct (c_type c) (c_to c x)) (newError Internal "canonicalization_failed");
  Ok (digest (domain ++ canonical)).

Record identity_record : Type := mkIdentity {
  id_SchemaVersion : string; id_ContractVersion : string; id_OrganizationID : string; id_TenantID : string;
  id_SourceID : string; id_ResourceDigest : string; id_CapabilityDigest : string; id_AdapterVersion : string;
  id_ConnectorSchemaVersion : string; id_PageDigest : string; id_VendorSchema : string;
  id_ProvenanceDigest : string; id_CachedAt : string; id_ExpiresAt : string }.

Definition identity_codec : codec identity_record := struct_codec
  (field "schema_version" str_codec $ field "contract_version" str_codec $ field "organization_id" str_codec $
     field "tenant_id" str_codec $ field "source_id" str_codec $ field "resource_digest" str_codec $
     field "capability_digest" str_codec $ field "adapter_version" str_codec $
     field "connector_schema_version" str_codec $ field "page_digest" str_codec $
     field "vendor_schema_digest" str_codec $ field "provenance_digest" str_codec $
     field "cached_at" str_codec $ field "expires_at" str_codec $ no_fields)
  (fun '(mkIdentity a b c d e f g h i j k l m n) =>
     (a, (b, (c, (d, (e, (f, (g, (h, (i, (j, (k, (l, (m, (n, tt)))))))))))))))
  (fun '(a, (b, (c, (d, (e, (f, (g, (h, (i, (j, (k, (l, (m, (n, _)))))))))))))) =>
     mkIdentity a b c d e f g h i j k l m n)
  ltac:(by intros []) ltac:(by intros (? & ? & ? & ? & ? & ? & ? & ? & ? & ? & ? & ? & ? & ? & [])).

Definition entryIdentity (key : cacheKey) (page : ValidatedSchemaPage) (cachedAt expiresAt : Time)
  : result Error string :=
  let value := Value schema_page_codec page in
  digestValue identityDigestDomain identity_codec
    (mkIdentity SchemaVersion ContractVersion (organizationID key) (tenantID key) (sourceID key)
       (resourceDigest key) (capabilityDigest key) (adapterVersion key) (schemaVersion key) (Digest page)
       (sp_SchemaDigest value) (sp_ProvenanceDigest value) (format_timestamp cachedAt) (format_timestamp expiresAt)).

(** *** Requests *)

Fixpoint hasDuplicate (values : list string) : bool :=
  match values with
  | a :: ((b :: _) as values') => String.eqb b a || hasDuplicate values'
  | _ => false
  end.

Definition validScope (scope : Scope) : bool :=
  let resources := items (s_ResourceIDs scope) in
  uuidPattern (s_OrganizationID scope) && uuidPattern (s_TenantID scope) && uuidPattern (s_CaseID scope) &&
  tokenPattern (s_SourceID scope) && (0 <? Z.of_nat (length resources)) &&
  (Z.of_nat (length resources) <=? 4096) && is_sorted resources &&
  negb (existsb (fun value => negb (tokenPattern value)) resources) && negb (hasDuplicate resources).

Definition validAuthority (authority : AuthorityBinding) : bool :=
  uuidPattern (a_ActorID authority) && digestPattern (a_AuthorizationDigest authority) &&
  digestPattern (a_PolicyDecisionDigest authority) && digestPattern (a_AuditReservationDigest authority).

Definition validLimits (limits : Limits) : bool :=
  (0 <? MaximumRows limits) && (0 <? MaximumBytes limits) && (0 <? MaximumDurationMillis limits) &&
  (0 <? MaximumPages limits) && (0 <? MaximumSlices limits) && (0 <? MaximumCostMillionths limits) &&
  (0 <? RequestsPerMinute limits).

Definition validateRequest (request : Request) (now : Time) : result Error (cacheKey * Time) :=
  let value := Value capability_codec (Capability request) in
  let schema := SchemaRequest_ request in
  let scope := sr_Scope schema in
  deny_if (String.eqb (Digest (Capability request)) "" || negb (uuidPattern (sr_RequestID schema)) ||
           negb (validScope scope) || negb (validAuthority (sr_Authority schema)) ||
           negb (is_nil (sr_Cursor schema)) || negb (validLimits (sr_Limits schema)) ||
           negb (digestPattern (sr_CapabilityDigest schema)) ||
           negb (String.eqb (sr_CapabilityDigest schema) (Digest (Capability request))) ||
           negb (String.eqb (cap_SourceID value) (s_SourceID scope)) ||
           negb (ReadOnly (cap_Features value)) || negb (SchemaDiscovery (cap_Features value)))
    (newError InvalidInput "request_invalid") ;;
  match parse_timestamp (cap_ObservedAt value), parse_timestamp (cap_ValidUntil value) with
  | Some observedAt, Some validUntil =>
      deny_if (before now observedAt) (newError Denied "capability_not_current") ;;
      deny_if (negb (before now validUntil)) (newError Denied "capability_stale") ;;
      resourceDigest ← digestValue resourceDigestDomain (slice_codec str_codec) (s_ResourceIDs scope);
      Ok (mkKey (s_OrganizationID scope) (s_TenantID scope) (s_SourceID scope) resourceDigest
            (Digest (Capability request)) (cap_AdapterVersion value) SchemaSchemaVersion, validUntil)
  | _, _ => Err (newError Denied "capability_not_current")
  end.

(** *** Get *)

(** The zero [snapshot] and [err] of a new flight; nobody reads them before [done] is closed. *)
Definition unanswered : result Error Snapshot := Err (newError Internal "").

(** A caller of [Get] has its answer, or waits on a flight. *)
Inductive get_answer : Type :=
| Hit (answer : Snapshot)
| Waiting (pending : nat).

(** The critical section, and [go cache.load(pending, capabilityExpiry)] *)
Definition get_locked (now : Time) (key : cacheKey) (capabilityExpiry : Time) (request : Request) (w : world)
  : get_answer * world :=
  let c := removeExpiredLocked now (cache w) in
  match entries c !! key with
  | Some cached =>
      let seq := u64 (sequence c + 1) in
      let cached := mkEntry (e_key cached) (e_page cached) (e_identityDigest cached) (e_cachedAt cached)
                      (e_expiresAt cached) (e_bytes cached) seq in
      (Hit (snapshot cached true),
       mkWorld (mkCache (config c) (<[key := cached]> (entries c)) (flights c) (totalBytes c) seq)
         (heap w) (loads w))
  | None =>
      match flights c !! key with
      | Some pending => (Waiting pending, mkWorld c (heap w) (loads w))
      | None =>
          let pending := length (heap w) in
          let new := mkFlight false key request false unanswered in
          (Waiting pending,
           mkWorld (set_flights c (<[key := pending]> (flights c))) (heap w ++ [new])
             (<[pending := capabilityExpiry]> (loads w)))
      end
  end.

Definition Get (ctx : context_state) (clock : Time) (request : Request) : prog world Error get_answer :=
  pure (contextError ctx) ;;
  key_expiry ← pure (validateRequest request (to_utc clock));
  atomically (get_locked (to_utc clock) (fst key_expiry) (snd key_expiry) request).

(** [wait], when the context says [ctx] as the select returns; [None] while it blocks *)
Definition wait (ctx : context_state) (pending : flight) : option (result Error Snapshot) :=
  match contextError ctx with
  | Err e => Some (Err e)
  | Ok _ => if f_done pending then Some (f_result pending) else None
  end.

(** *** load *)

Definition close_flight (pending : flight) (answer : result Error Snapshot) : flight :=
  mkFlight true (f_key pending) (f_request pending) (f_invalidated pending) answer.

Definition finish (address : nat) (pending : flight) (answer : result Error Snapshot) (w : world) : world :=
  mkWorld (set_flights (cache w) (delete (f_key pending) (flights (cache w))))
    (<[address := close_flight pending answer]> (heap w)) (delete address (loads w)).

(** What [load] computes before it takes the lock: the error it finishes with, or the entry
    it stores, less its access number *)
Definition load_checks (cfg : Config) (pending : flight) (capabilityExpiry : Time)
  (loaded : result (go_error QueryConnector.Error) ValidatedSchemaPage) (clock : Time) : result Error entry :=
  match loaded with
  | Err err => Err (mapLoaderError err)
  | Ok page =>
      let value := Value schema_page_codec page in
      let request := SchemaRequest_ (f_request pending) in
      deny_if (String.eqb (Digest page) "" || negb (String.eqb (sp_RequestID value) (sr_RequestID request)) ||
               negb (sp_Complete value) || negb (is_nil (sp_NextCursor value)))
        (newError Denied "schema_incomplete_or_mismatched") ;;
      let allowed := items (s_ResourceIDs (sr_Scope request)) in
      for_each (fun schemaEntry =>
          deny_if (negb (existsb (String.eqb (se_ResourceID schemaEntry)) allowed))
            (newError Denied "schema_scope_widened"))
        (items (sp_Entries value)) ;;
      let size := len (CanonicalBytes page) in
      deny_if ((size <=? 0) || (MaximumEntryBytes cfg <? size)) (newError Denied "schema_entry_too_large") ;;
      let now := to_utc clock in
      let expiresAt := time_add now (TTL cfg) in
      let expiresAt := if before capabilityExpiry expiresAt then capabilityExpiry else expiresAt in
      deny_if (negb (before now expiresAt)) (newError Denied "capability_stale") ;;
      identity ← entryIdentity (f_key pending) page now expiresAt;
      Ok (mkEntry (f_key pending) page identity now expiresAt size 0)
  end.

(** The critical section at the end of [load] *)
Definition load_locked (address : nat) (pending : flight) (cached : entry) (w : world) : world :=
  let c := set_flights (cache w) (delete (f_key pending) (flights (cache w))) in
  if f_invalidated pending then
    mkWorld c (<[address := close_flight pending (Err (newError Conflict "load_invalidated"))]> (heap w))
      (delete address (loads w))
  else
    let seq := u64 (sequence c + 1) in
    let cached := mkEntry (e_key cached) (e_page cached) (e_identityDigest cached) (e_cachedAt cached)
                    (e_expiresAt cached) (e_bytes cached) seq in
    let c := mkCache (config c) (<[f_key pending := cached]> (entries c)) (flights c)
               (totalBytes c + e_bytes cached) seq in
    mkWorld (enforceCapacityLocked (e_cachedAt cached) c)
      (<[address := close_flight pending (Ok (snapshot cached false))]> (heap w)) (delete address (loads w)).

(** The goroutine of the flight at [address], from the loader's answer on *)
Definition load (address : nat) (loaded : result (go_error QueryConnector.Error) ValidatedSchemaPage)
  (clock : Time) (w : world) : world :=
  match heap w !! address, loads w !! address with
  | Some pending, Some capabilityExpiry =>
      match load_checks (config (cache w)) pending capabilityExpiry loaded clock with
      | Err e => finish address pending (Err e) w
      | Ok cached => load_locked address pending cached w
      end
  | _, _ => w
  end.

(** *** Invalidate *)

Definition invalid_target (target : Invalidation) : bool :=
  negb (uuidPattern (i_OrganizationID target)) || negb (uuidPattern (i_TenantID target)) ||
  negb (tokenPattern (i_SourceID target)) ||
  (negb (String.eqb (i_CapabilityDigest target) "") && negb (digestPattern (i_CapabilityDigest target))) ||
  (negb (String.eqb (i_AdapterVersion target) "") && negb (tokenPattern (i_AdapterVersion target))) ||
  (negb (String.eqb (i_SchemaVersion target) "") && negb (String.eqb (i_SchemaVersion target) SchemaSchemaVersion)).

Definition invalidate_flight (pending : flight) : flight :=
  mkFlight (f_done pending) (f_key pending) (f_request pending) true (f_result pending).

(** The second loop: the pending flights of matching keys *)
Definition invalidate_flights (target : Invalidation) (flights : gmap cacheKey nat) (heap : list flight)
  : list flight :=
  foldl (fun heap kv =>
    if matches_key target (fst kv) then alter invalidate_flight (snd kv) heap else heap)
    heap (map_to_list flights).

Definition Invalidate (ctx : context_state) (target : Invalidation) : prog world Error unit :=
  pure (contextError ctx) ;;
  pure (deny_if (invalid_target target) (newError InvalidInput "invalidation_invalid")) ;;
  atomically (fun w =>
    (tt, mkWorld (drop_where (fun key _ => matches_key target key) (cache w))
           (invalidate_flights target (flights (cache w)) (heap w)) (loads w))).
