(* ===== verification/SchemaCacheFacts.v ===== *)
(** * The schema cache: accounting, eviction and the invariant

    What [removeExpiredLocked] and [enforceCapacityLocked] do to the entries, whatever the
    order in which Go walks the map: the byte count stays exact, eviction ends, brings the
    cache within its bounds, takes the least recently used entries and no more than needed.
    Callers of [Get], loads that finish and invalidations interleave freely under the mutex:
    a [step] is one critical section.  The invariant of the reachable states gives the
    theorems of SchemaCacheTheorems.v. *)

From S2P Require Import Prelude GoStrings GoRegexp GoTime GoJson DomainContract Sha256 Domain GoStruct GoCodec QueryConnector QueryConnectorFacts SchemaCache.

Local Open Scope string_scope.
Local Open Scope Z_scope.

(** ** Bytes *)

Definition bytes_of_entries (m : gmap cacheKey entry) : Z := map_fold (fun _ e acc => e_bytes e + acc) 0 m.

Lemma bytes_empty : bytes_of_entries ∅ = 0.
Proof. apply map_fold_empty. Qed.

Lemma bytes_insert m k e : m !! k = None -> bytes_of_entries (<[k := e]> m) = e_bytes e + bytes_of_entries m.
Proof. intros Hk. apply (map_fold_insert_L (fun _ e acc => e_bytes e + acc) 0); [lia|done]. Qed.

Lemma bytes_delete m k e : m !! k = Some e -> bytes_of_entries (delete k m) = bytes_of_entries m - e_bytes e.
Proof.
  intros Hk. rewrite <- (insert_delete_id m k e Hk) at 2.
  rewrite bytes_insert by apply lookup_delete_eq. lia.
Qed.

Lemma bytes_nonneg m : (forall k e, m !! k = Some e -> 0 <= e_bytes e) -> 0 <= bytes_of_entries m.
Proof.
  induction m as [|k e m Hk IH] using map_ind; intros H; [by rewrite bytes_empty|].
  rewrite bytes_insert by done. pose proof (H k e (lookup_insert_eq m k e)).
  assert (0 <= bytes_of_entries m); [|lia]. apply IH. intros k' e' Hk'. apply (H k').
  rewrite lookup_insert_ne; [done|]. by intros <-; rewrite Hk in Hk'.
Qed.

Lemma bytes_lookup_le m k e : (forall k e, m !! k = Some e -> 0 <= e_bytes e) -> m !! k = Some e ->
  e_bytes e <= bytes_of_entries m.
Proof.
  intros H Hk. assert (0 <= bytes_of_entries (delete k m)); [|rewrite (bytes_delete _ _ _ Hk) in *; lia].
  apply bytes_nonneg. intros k' e' Hk'. apply lookup_delete_Some in Hk' as [_ Hk']. eauto.
Qed.

(** ** Operations that only remove entries *)

(** The byte count moves with the entries, and nothing else of the cache changes. *)
Record shrinks (c c' : Cache) : Prop := {
  sh_entries : entries c' ⊆ entries c;
  sh_bytes : totalBytes c' - bytes_of_entries (entries c') = totalBytes c - bytes_of_entries (entries c);
  sh_config : config c' = config c;
  sh_flights : flights c' = flights c;
  sh_sequence : sequence c' = sequence c }.

#[export] Instance shrinks_preorder : PreOrder shrinks.
Proof.
  split.
  - intros c. by split.
  - intros c1 c2 c3 [] []. split; [by etrans|lia|congruence..].
Qed.

Lemma shrinks_delete c k e : entries c !! k = Some e ->
  shrinks c (set_entries c (delete k (entries c)) (totalBytes c - e_bytes e)).
Proof.
  intros Hk. split; cbn; try done; [apply delete_subseteq|]. rewrite (bytes_delete _ _ _ Hk). lia.
Qed.

Lemma drop_fold (p : cacheKey -> entry -> bool) (l : list (cacheKey * entry)) : forall c, NoDup l.*1 -> (forall k e, (k, e) ∈ l -> entries c !! k = Some e) ->
  let c' := foldl (fun c kv =>
    if p (fst kv) (snd kv)
    then set_entries c (delete (fst kv) (entries c)) (totalBytes c - e_bytes (snd kv))
    else c) c l in
  shrinks c c' /\
  forall k e, entries c' !! k = Some e <-> entries c !! k = Some e /\ ~ ((k, e) ∈ l /\ p k e = true).
Proof.
  induction l as [|[k e] l IH]; intros c Hnd Hl; cbn [foldl fst snd].
  { split; [done|]. intros k e. rewrite elem_of_nil. naive_solver. }
  cbn in Hnd. apply NoDup_cons in Hnd as [Hk Hnd].
  assert (Hck : entries c !! k = Some e) by (apply Hl; by left).
  destruct (p k e) eqn:Hp.
  - destruct (IH (set_entries c (delete k (entries c)) (totalBytes c - e_bytes e)) Hnd) as [Hsh Hat].
    { intros k' e' Hin. cbn. rewrite lookup_delete_ne; [apply Hl; by right|].
      intros <-. apply Hk. by apply (list_elem_of_fmap_2 fst) in Hin. }
    split; [etrans; [by apply shrinks_delete|done]|]. intros k' e'. rewrite Hat. cbn [entries set_entries].
    rewrite lookup_delete_Some, elem_of_cons. split; [|naive_solver].
    intros [[Hne Hc] Hno]. split; [done|]. intros [[[= <- <-]|Hin] Hp']; [done|]. by apply Hno.
  - destruct (IH c Hnd) as [Hsh Hat]; [intros k' e' Hin; apply Hl; by right|]. split; [done|].
    intros k' e'. rewrite Hat, elem_of_cons. split; [|naive_solver].
    intros [Hc Hno]. split; [done|]. intros [[[= -> ->]|Hin] Hp']; [congruence|]. by apply Hno.
Qed.

Lemma drop_where_shrinks p c : shrinks c (drop_where p c).
Proof.
  apply (drop_fold p (map_to_list (entries c)) c); [apply NoDup_fst_map_to_list|].
  intros k e. by rewrite elem_of_map_to_list.
Qed.

Lemma drop_where_entries p c k e :
  entries (drop_where p c) !! k = Some e <-> entries c !! k = Some e /\ p k e = false.
Proof.
  unfold drop_where. rewrite (proj2 (drop_fold p (map_to_list (entries c)) c (NoDup_fst_map_to_list _) ltac:(
    intros k' e'; by rewrite elem_of_map_to_list)) k e).
  rewrite elem_of_map_to_list. destruct (p k e); naive_solver.
Qed.

Lemma removeExpired_shrinks now c : shrinks c (removeExpiredLocked now c).
Proof. apply drop_where_shrinks. Qed.

Lemma removeExpired_entries now c k e :
  entries (removeExpiredLocked now c) !! k = Some e <->
  entries c !! k = Some e /\ before now (e_expiresAt e) = true.
Proof. unfold removeExpiredLocked. rewrite drop_where_entries, negb_false_iff. done. Qed.

(** ** The order of eviction *)

Lemma less_fields_irrefl l : less_fields l l = false.
Proof. induction l as [|s l IH]; cbn; [done|]. by rewrite String.eqb_refl. Qed.

Lemma less_fields_trans l1 : forall l2 l3, length l1 = length l2 -> length l2 = length l3 ->
  less_fields l1 l2 = true -> less_fields l2 l3 = true -> less_fields l1 l3 = true.
Proof.
  induction l1 as [|a l1 IH]; intros [|b l2] [|c l3]; try done. intros [= H12] [= H23]. cbn.
  destruct (String.eqb_spec a b) as [->|Hab]; [|rewrite str_ltb_lt];
    (destruct (String.eqb_spec b c) as [->|Hbc]; [|rewrite str_ltb_lt]); intros H1 H2; try done.
  - by apply (IH l2).
  - by destruct (String.eqb_spec a c); [|apply str_ltb_lt].
  - assert (str_lt a c) by (by transitivity b).
    destruct (String.eqb_spec a c) as [->|]; [by destruct (str_lt_irrefl c)|by apply str_ltb_lt].
Qed.

Lemma less_fields_total l1 : forall l2, length l1 = length l2 ->
  l1 = l2 \/ less_fields l1 l2 = true \/ less_fields l2 l1 = true.
Proof.
  induction l1 as [|a l1 IH]; intros [|b l2]; try done; [by left|]. intros [= Hlen]. cbn.
  rewrite (String.eqb_sym b a). destruct (String.eqb_spec a b) as [->|Hab].
  - destruct (IH l2 Hlen) as [->|[]]; auto.
  - rewrite !str_ltb_lt. destruct (str_lt_trichotomy a b) as [[]|]; auto. done.
Qed.

(** [older (k, e) (k', e')]: the first is evicted before the second *)
Definition older (x y : cacheKey * entry) : Prop :=
  e_access (snd x) < e_access (snd y) \/
  e_access (snd x) = e_access (snd y) /\ less (fst x) (fst y) = true.

Lemma older_irrefl x : ~ older x x.
Proof. intros [?|[_ H]]; [lia|]. unfold less in H. by rewrite less_fields_irrefl in H. Qed.

#[export] Instance older_trans : Transitive older.
Proof.
  intros x y z [H1|[H1 L1]] [H2|[H2 L2]]; try (by left; lia). right. split; [lia|].
  by apply (less_fields_trans _ (key_fields (fst y))).
Qed.

Lemma older_total x y : (e_access (snd x) = e_access (snd y) /\ fst x = fst y) \/ older x y \/ older y x.
Proof.
  destruct (Z.lt_trichotomy (e_access (snd x)) (e_access (snd y))) as [?|[?|?]];
    [by right; left; left| |by right; right; left].
  destruct (less_fields_total (key_fields (fst x)) (key_fields (fst y)) eq_refl) as [Heq|[Hl|Hl]].
  - left. split; [done|]. destruct x as [[] ?], y as [[] ?]. cbn in *. by injection Heq as -> -> -> -> -> -> ->.
  - right; left; right. done.
  - right; right; right. done.
Qed.

Lemma not_older_trans x y z : ~ older x y -> ~ older y z -> ~ older x z.
Proof.
  intros Hxy Hyz Hxz. destruct (older_total x y) as [[Ha Hk]|[|Hyx]]; [|done|].
  - apply Hyz. unfold older in *. by rewrite <- Ha, <- Hk.
  - apply Hyz. by transitivity x.
Qed.

Lemma select_oldest_spec best x :
  exists r, select_oldest best x = Some r /\ (best = Some r \/ x = r) /\
    ~ older x r /\ forall b, best = Some b -> ~ older b r.
Proof.
  destruct best as [[k e]|]; cbn; [|exists x; split_and!; auto using older_irrefl; done].
  destruct (_ || _) eqn:Hb.
  - exists x. split_and!; auto using older_irrefl. intros b [= <-] Ho.
    apply (older_irrefl x). transitivity (k, e); [|done]. unfold older. cbn.
    apply orb_true_iff in Hb as [?%Z.ltb_lt|[?%Z.eqb_eq ?]%andb_true_iff]; [by left|by right].
  - exists (k, e). split_and!; auto; [|intros b [= <-]; apply older_irrefl].
    apply orb_false_iff in Hb as [?%Z.ltb_ge Hb]. intros [?|[Heq Hl]]; cbn in *; [lia|].
    apply Z.eqb_eq in Heq. by rewrite Heq, Hl in Hb.
Qed.

Lemma oldest_fold l : forall best,
  match foldl select_oldest best l with
  | None => best = None /\ l = []
  | Some y => (best = Some y \/ y ∈ l) /\ forall x, (best = Some x \/ x ∈ l) -> ~ older x y
  end.
Proof.
  induction l as [|x l IH]; intros best; cbn [foldl].
  { destruct best; [|done]. split; [by left|]. intros x [[= ->]|[]%elem_of_nil]. apply older_irrefl. }
  destruct (select_oldest_spec best x) as (r & Hr & Hin & Hxr & Hbr).
  specialize (IH (select_oldest best x)). rewrite Hr in *.
  destruct (foldl select_oldest (Some r) l) as [y|]; [|naive_solver].
  destruct IH as [Hy Hmin]. assert (Hry : ~ older r y) by (apply Hmin; by left). split.
  - destruct Hy as [[= ->]|Hy]; [destruct Hin as [Hb| ->]; [by left|right; by left]|right; by right].
  - intros z [Hz|[->|Hz]%elem_of_cons]; [|by eapply not_older_trans|apply Hmin; by right].
    eapply not_older_trans; [by apply Hbr|done].
Qed.

Lemma oldest_entry_spec m :
  match oldest_entry m with
  | None => m = ∅
  | Some (k, e) => m !! k = Some e /\ forall k' e', m !! k' = Some e' -> k' <> k -> older (k, e) (k', e')
  end.
Proof.
  unfold oldest_entry. pose proof (oldest_fold (map_to_list m) None) as H.
  destruct (foldl select_oldest None (map_to_list m)) as [[k e]|].
  - destruct H as [[?|Hin] Hmin]; [done|]. apply elem_of_map_to_list in Hin. split; [done|].
    intros k' e' Hk' Hne. destruct (older_total (k, e) (k', e')) as [[_ ?]|[|Ho]]; [by destruct Hne|done|].
    exfalso. eapply Hmin; [right|exact Ho]. by apply elem_of_map_to_list.
  - destruct H as [_ H]. by apply map_to_list_empty_iff.
Qed.

(** ** Eviction *)

(** What [New] checked *)
Definition config_ok (cfg : Config) : Prop :=
  0 < MaximumEntries cfg <= MaximumConfiguredEntries /\
  0 < MaximumEntryBytes cfg <= MaximumTotalBytes cfg /\ MaximumTotalBytes cfg <= MaximumConfiguredBytes /\
  0 < TTL cfg <= MaximumConfiguredTTL.

Definition accounted (c : Cache) : Prop :=
  totalBytes c = bytes_of_entries (entries c) /\
  forall k e, entries c !! k = Some e -> 0 < e_bytes e <= MaximumEntryBytes (config c).

Lemma accounted_shrinks c c' : shrinks c c' -> accounted c -> accounted c'.
Proof.
  intros [Hsub Hb Hcfg _ _] [Ht He]. split; [lia|]. rewrite Hcfg. intros k e Hk. apply (He k).
  by eapply lookup_weaken.
Qed.

Lemma over_capacity_false c : over_capacity c = false <->
  Z.of_nat (size (entries c)) <= MaximumEntries (config c) /\ totalBytes c <= MaximumTotalBytes (config c).
Proof. unfold over_capacity. rewrite orb_false_iff, !Z.ltb_ge. done. Qed.

(** Eviction from [c] to [c']: what is left is younger than what is gone, and the entry
    evicted last had to go. *)
Record evicts (c c' : Cache) : Prop := {
  ev_shrinks : shrinks c c';
  ev_lru : forall k e k' e', entries c !! k = Some e -> entries c' !! k = None ->
    entries c' !! k' = Some e' -> older (k, e) (k', e');
  ev_needed : c' = c \/ exists k e, entries c !! k = Some e /\ entries c' !! k = None /\
    over_capacity (set_entries c' (<[k := e]> (entries c')) (totalBytes c' + e_bytes e)) = true }.

Lemma evicts_refl c : evicts c c.
Proof. split; [done|congruence|by left]. Qed.

Lemma evicts_step c c' k e : entries c !! k = Some e -> over_capacity c = true ->
  (forall k' e', entries c !! k' = Some e' -> k' <> k -> older (k, e) (k', e')) ->
  evicts (set_entries c (delete k (entries c)) (totalBytes c - e_bytes e)) c' -> evicts c c'.
Proof.
  intros Hk Hover Hold [Hsh Hlru Hneed]. pose proof (sh_entries _ _ Hsh) as Hsub. cbn in Hsub.
  split; [etrans; [by apply shrinks_delete|done]| |].
  - intros k1 e1 k2 e2 H1 Hgone H2.
    assert (Hk2 : k2 <> k).
    { intros ->. pose proof (lookup_weaken _ _ _ _ H2 Hsub) as H. by rewrite lookup_delete_eq in H. }
    destruct (decide (k1 = k)) as [->|Hne].
    + replace e1 with e by congruence. apply Hold; [|done].
      pose proof (lookup_weaken _ _ _ _ H2 Hsub) as H. by rewrite lookup_delete_ne in H by done.
    + eapply Hlru; [|done|done]. cbn. by rewrite lookup_delete_ne.
  - right. destruct Hneed as [->|(k1 & e1 & H1 & H2 & H3)].
    + exists k, e. cbn. split_and!; [done|apply lookup_delete_eq|]. rewrite insert_delete_eq, insert_id by done.
      unfold over_capacity in *. cbn. by replace (totalBytes c - e_bytes e + e_bytes e) with (totalBytes c) by lia.
    + exists k1, e1. cbn in H1. apply lookup_delete_Some in H1 as [_ H1]. done.
Qed.

Lemma enforce_rounds_spec fuel : forall c, config_ok (config c) -> accounted c ->
  (size (entries c) < fuel)%nat -> evicts c (enforce_rounds fuel c) /\ over_capacity (enforce_rounds fuel c) = false.
Proof.
  induction fuel as [|fuel IH]; intros c Hcfg Hacc Hf; [lia|]. cbn [enforce_rounds].
  destruct (over_capacity c) eqn:Hover; [|split; [apply evicts_refl|done]].
  pose proof (oldest_entry_spec (entries c)) as Hold. destruct (oldest_entry (entries c)) as [[k e]|].
  - destruct Hold as [Hk Hold]. set (c1 := set_entries c (delete k (entries c)) (totalBytes c - e_bytes e)).
    assert (Hsh : shrinks c c1) by (by apply shrinks_delete).
    destruct (IH c1) as [Hev Hcap]; [done|by eapply accounted_shrinks| |].
    + cbn. rewrite map_size_delete_Some; [|done]. pose proof (map_size_ne_0_lookup_2 (entries c) k ltac:(done)). lia.
    + split; [by eapply evicts_step|done].
  - exfalso. destruct Hacc as [Ht _]. rewrite Hold, bytes_empty in Ht. apply not_false_iff_true in Hover.
    apply Hover, over_capacity_false. rewrite Hold, map_size_empty, Ht.
    unfold config_ok, MaximumConfiguredEntries in Hcfg. lia.
Qed.

(** More rounds than entries change nothing: the loop of the code ends. *)
Lemma enforce_rounds_enough fuel : forall c extra, (size (entries c) < fuel)%nat ->
  enforce_rounds (fuel + extra) c = enforce_rounds fuel c.
Proof.
  induction fuel as [|fuel IH]; intros c extra Hf; [lia|]. cbn [enforce_rounds Nat.add].
  destruct (over_capacity c); [|done]. pose proof (oldest_entry_spec (entries c)) as Hold.
  destruct (oldest_entry (entries c)) as [[k e]|]; [|done]. destruct Hold as [Hk _]. apply IH. cbn.
  rewrite map_size_delete_Some by done. pose proof (map_size_ne_0_lookup_2 (entries c) k ltac:(done)). lia.
Qed.

(** The youngest entry stays, since it fits on its own. *)
Lemma youngest_stays c c' k e : config_ok (config c) -> accounted c -> evicts c c' ->
  entries c !! k = Some e -> (forall k' e', entries c !! k' = Some e' -> k' <> k -> older (k', e') (k, e)) ->
  entries c' !! k = Some e.
Proof.
  intros Hcfg Hacc [Hsh Hlru Hneed] Hk Hyoung. pose proof (accounted_shrinks _ _ Hsh Hacc) as Hacc'.
  pose proof (sh_entries _ _ Hsh) as Hsub.
  destruct (entries c' !! k) as [e1|] eqn:Hk'.
  { by rewrite (lookup_weaken _ _ _ _ Hk' Hsub) in Hk. }
  exfalso.
  assert (Hempty : entries c' = ∅).
  { apply map_empty. intros k2. apply eq_None_not_Some. intros [e2 H2].
    assert (k2 <> k) by congruence. pose proof (lookup_weaken _ _ _ _ H2 Hsub) as H2c.
    apply (older_irrefl (k, e)). transitivity (k2, e2); [by apply Hlru|by apply Hyoung]. }
  destruct Hneed as [->|(k1 & e1 & H1 & _ & Hover)]; [congruence|].
  apply not_false_iff_true in Hover. apply Hover, over_capacity_false. cbn.
  destruct Hacc' as [Ht _]. rewrite Ht, Hempty, bytes_empty, (sh_config _ _ Hsh), insert_empty, map_size_singleton.
  destruct Hacc as [_ Hb]. specialize (Hb k1 e1 H1). unfold config_ok in Hcfg. lia.
Qed.

(** ** The schema cache: what every interleaving keeps *)

(** ** The steps *)

(** A document is made by the decoder or is the zero document: its fields are private. *)
Definition real_capability (doc : ValidatedCapability) : Prop :=
  doc = mkDocument (c_zero capability_codec) "" "" \/
  exists ctx ctx' input, DecodeCapability ctx ctx' input = Ok doc.

Inductive step : world -> world -> Prop :=
| step_get ctx clock request answer w w' :
    real_capability (Capability request) -> Get ctx clock request w = (Ok answer, w') -> step w w'
| step_load address loaded clock w :
    is_Some (loads w !! address) -> step w (load address loaded clock w)
| step_invalidate ctx target w w' :
    Invalidate ctx target w = (Ok tt, w') -> step w w'.

(** Reachable in [n] steps from a cache [New] returned *)
Definition reachable (n : nat) (w : world) : Prop :=
  exists cfg c, New cfg false false = Ok c /\ nsteps step n (mkWorld c [] ∅) w.

(** ** The invariant *)

Definition resources (request : Request) : slice string := s_ResourceIDs (sr_Scope (SchemaRequest_ request)).

Definition flight_real (f : flight) (expiry : Time) : Prop :=
  real_capability (Capability (f_request f)) /\
  exists now, validateRequest (f_request f) now = Ok (f_key f, expiry).

Definition page_in_scope (page : ValidatedSchemaPage) (request : Request) : Prop :=
  Forall (fun e => se_ResourceID e ∈ items (resources request)) (items (sp_Entries (Value schema_page_codec page))).

(** The same load, first seen or hit *)
Definition same_load (s s' : Snapshot) : Prop :=
  sn_page s = sn_page s' /\ sn_identityDigest s = sn_identityDigest s' /\ sn_cachedAt s = sn_cachedAt s' /\
  sn_expiresAt s = sn_expiresAt s'.

(** The snapshot is what the flight at [a], of that key, ended with, within its scope and its
    capability. *)
Definition loaded_by (cfg : Config) (h : list flight) (a : nat) (k : cacheKey) (s : Snapshot) : Prop :=
  exists f expiry, h !! a = Some f /\ f_key f = k /\ flight_real f expiry /\
    (f_done f = true /\ exists s0, f_result f = Ok s0 /\ same_load s0 s) /\
    page_in_scope (sn_page s) (f_request f) /\ nanos (sn_expiresAt s) <= nanos expiry /\
    nanos (sn_cachedAt s) < nanos (sn_expiresAt s) <= nanos (sn_cachedAt s) + TTL cfg.

Definition loaded_for (cfg : Config) (h : list flight) (k : cacheKey) (s : Snapshot) : Prop := exists a, loaded_by cfg h a k s.

Record cache_inv (n : nat) (w : world) : Prop := {
  ci_config : config_ok (config (cache w));
  ci_accounted : accounted (cache w);
  ci_entries : forall k e, entries (cache w) !! k = Some e ->
    e_key e = k /\ e_bytes e = len (CanonicalBytes (e_page e)) /\
    loaded_for (config (cache w)) (heap w) k (snapshot e true);
  ci_disjoint : forall k e, entries (cache w) !! k = Some e -> flights (cache w) !! k = None;
  ci_flights : forall k a, flights (cache w) !! k = Some a <->
    exists f, heap w !! a = Some f /\ f_key f = k /\ f_done f = false;
  ci_loads : forall a expiry, loads w !! a = Some expiry ->
    exists f, heap w !! a = Some f /\ f_done f = false /\ flight_real f expiry;
  ci_pending : forall a f, heap w !! a = Some f -> f_done f = false -> is_Some (loads w !! a);
  ci_results : forall a f s, heap w !! a = Some f -> f_done f = true -> f_result f = Ok s ->
    f_invalidated f = false /\ loaded_by (config (cache w)) (heap w) a (f_key f) s;
  ci_sequence : 0 <= sequence (cache w) <= Z.of_nat n;
  ci_access : Z.of_nat n < 2 ^ 64 -> forall k e, entries (cache w) !! k = Some e ->
    e_access e <= sequence (cache w) }.

(** Flights keep their key and their request for ever, and stay invalidated; what they ended
    with stays. *)
Definition heap_le (h h' : list flight) : Prop := forall a f, h !! a = Some f ->
  exists f', h' !! a = Some f' /\ f_key f' = f_key f /\ f_request f' = f_request f /\
    (f_invalidated f = true -> f_invalidated f' = true) /\
    (f_done f = true -> f_done f' = true /\ f_result f' = f_result f).

#[export] Instance heap_le_preorder : PreOrder heap_le.
Proof.
  split; [intros h a f Hf; by exists f|].
  intros h1 h2 h3 H12 H23 a f Hf. destruct (H12 a f Hf) as (f2 & Hf2 & Hk2 & Hr2 & Hi2 & Hd2).
  destruct (H23 a f2 Hf2) as (f3 & Hf3 & Hk3 & Hr3 & Hi3 & Hd3). exists f3. split_and!; [congruence..|auto|].
  intros [Hd Hr]%Hd2. apply Hd3 in Hd as [? ?]. split; congruence.
Qed.

Lemma heap_le_app h l : heap_le h (h ++ l).
Proof. intros a f Hf. exists f. split; [by apply lookup_app_l_Some|done]. Qed.

Lemma heap_le_insert h a f f' : h !! a = Some f -> f_key f' = f_key f -> f_request f' = f_request f ->
  f_invalidated f' = f_invalidated f -> f_done f = false -> heap_le h (<[a := f']> h).
Proof.
  intros Ha Hk Hr Hi Hd b g Hg. destruct (decide (b = a)) as [->|Hne].
  - exists f'. rewrite list_lookup_insert_eq by (by eapply lookup_lt_Some). replace g with f in * by congruence. split_and!; congruence.
  - exists g. by rewrite list_lookup_insert_ne.
Qed.

Lemma flight_real_same f f' expiry : f_key f' = f_key f -> f_request f' = f_request f ->
  flight_real f expiry -> flight_real f' expiry.
Proof. unfold flight_real. by intros -> ->. Qed.

Lemma loaded_by_mono cfg h h' a k s : heap_le h h' -> loaded_by cfg h a k s -> loaded_by cfg h' a k s.
Proof.
  intros Hle (f & exp & Hf & Hk & Hreal & [Hd (s0 & Hs0 & Hsame)] & Hscope & Hexp & Hlo & Hhi).
  destruct (Hle a f Hf) as (f' & Hf' & Hk' & Hr' & _ & Hdone). destruct (Hdone Hd) as [Hd' Hres].
  exists f', exp. split_and!; [done|congruence|by eapply flight_real_same|done|exists s0; by rewrite Hres|by rewrite Hr'|done..].
Qed.

Lemma loaded_for_mono cfg h h' k s : heap_le h h' -> loaded_for cfg h k s -> loaded_for cfg h' k s.
Proof. intros Hle [a Ha]. exists a. by eapply loaded_by_mono. Qed.

(** ** Removing entries keeps the invariant *)

Lemma bytes_mono m' : forall m, m' ⊆ m -> (forall k e, m !! k = Some e -> 0 <= e_bytes e) ->
  bytes_of_entries m' <= bytes_of_entries m.
Proof.
  induction m' as [|k e m1 Hk IH] using map_ind; intros m Hsub Hpos.
  { rewrite bytes_empty. by apply bytes_nonneg. }
  assert (Hm : m !! k = Some e) by (eapply lookup_weaken; [apply lookup_insert_eq|done]).
  rewrite bytes_insert by done. assert (bytes_of_entries m1 <= bytes_of_entries (delete k m));
    [|rewrite (bytes_delete _ _ _ Hm) in *; lia].
  apply IH.
  - apply map_subseteq_spec. intros k1 e1 H1. assert (k1 <> k) by congruence.
    rewrite lookup_delete_ne by done. eapply lookup_weaken; [|done]. by rewrite lookup_insert_ne.
  - intros k1 e1 [_ H1]%lookup_delete_Some. eauto.
Qed.

Lemma shrinks_capacity c c' : shrinks c c' -> accounted c -> over_capacity c = false -> over_capacity c' = false.
Proof.
  intros Hsh Hacc Hcap. pose proof (accounted_shrinks _ _ Hsh Hacc) as [Ht' _].
  rewrite over_capacity_false in *. destruct Hsh as [Hsub _ -> _ _], Hacc as [Ht Hb].
  pose proof (map_subseteq_size _ _ Hsub).
  assert (bytes_of_entries (entries c') <= bytes_of_entries (entries c)); [|lia].
  apply bytes_mono; [done|]. intros k e Hk. specialize (Hb k e Hk). lia.
Qed.

Lemma inv_shrinks n w c : cache_inv n w -> shrinks (cache w) c -> cache_inv n (mkWorld c (heap w) (loads w)).
Proof.
  intros [] Hsh. pose proof Hsh as [Hsub _ Hcfg Hfl Hseq].
  split; cbn [cache heap loads]; rewrite ?Hcfg, ?Hfl, ?Hseq; try done.
  - by eapply accounted_shrinks.
  - intros k e Hk. apply ci_entries0. by eapply lookup_weaken.
  - intros k e Hk. eapply ci_disjoint0. by eapply lookup_weaken.
  - intros Hn k e Hk. eapply ci_access0; [done|]. by eapply lookup_weaken.
Qed.

Lemma inv_more n w : cache_inv n w -> cache_inv (S n) w.
Proof. intros []. split; try done; [lia|]. intros Hn. apply ci_access0. lia. Qed.

(** ** Get *)

Lemma u64_le x : 0 <= x -> 0 <= u64 x <= x.
Proof. intros. unfold u64. split; [by apply Z.mod_pos_bound|by apply Z.mod_le]. Qed.

Definition touched (e : entry) (seq : Z) : entry :=
  mkEntry (e_key e) (e_page e) (e_identityDigest e) (e_cachedAt e) (e_expiresAt e) (e_bytes e) seq.

Lemma bytes_touched m k e seq : m !! k = Some e -> bytes_of_entries (<[k := touched e seq]> m) = bytes_of_entries m.
Proof.
  intros Hk. rewrite <- insert_delete_eq, bytes_insert by apply lookup_delete_eq.
  rewrite (bytes_delete _ _ _ Hk). cbn. lia.
Qed.

Lemma inv_touch n w k e : cache_inv n w -> entries (cache w) !! k = Some e ->
  let c := cache w in let seq := u64 (sequence c + 1) in
  cache_inv (S n) (mkWorld (mkCache (config c) (<[k := touched e seq]> (entries c)) (flights c) (totalBytes c) seq)
    (heap w) (loads w)).
Proof.
  intros [] Hk c seq. pose proof (u64_le (sequence c + 1) ltac:(subst c; lia)) as Hseq.
  assert (Hlook : forall k' e', <[k := touched e seq]> (entries c) !! k' = Some e' ->
    exists e0, entries c !! k' = Some e0 /\ (e' = e0 \/ e' = touched e0 seq)).
  { intros k' e' [[<- <-]|[Hne Hk']]%lookup_insert_Some; [by exists e; auto|by exists e'; auto]. }
  split; cbn [cache heap loads config entries flights totalBytes sequence]; try done.
  - destruct ci_accounted0 as [Ht Hb]. split; cbn; [by rewrite bytes_touched|].
    intros k' e' (e0 & He0 & [->| ->])%Hlook; exact (Hb k' e0 He0).
  - intros k' e' (e0 & He0 & [->| ->])%Hlook; exact (ci_entries0 k' e0 He0).
  - intros k' e' (e0 & He0 & _)%Hlook. by eapply ci_disjoint0.
  - fold c seq in ci_sequence0. subst c. lia.
  - intros Hn. subst seq. rewrite u64_small in * by (subst c; lia).
    intros k' e' (e0 & He0 & [->| ->])%Hlook; cbn; [|lia].
    pose proof (ci_access0 ltac:(lia) k' e0 He0). subst c. lia.
Qed.

Lemma inv_new_flight n w k request expiry now : cache_inv n w ->
  entries (cache w) !! k = None -> flights (cache w) !! k = None ->
  real_capability (Capability request) -> validateRequest request now = Ok (k, expiry) ->
  let a := length (heap w) in
  cache_inv (S n) (mkWorld (set_flights (cache w) (<[k := a]> (flights (cache w))))
    (heap w ++ [mkFlight false k request false unanswered]) (<[a := expiry]> (loads w))).
Proof.
  intros [] He Hf Hreal Hval a. set (new := mkFlight false k request false unanswered).
  assert (Hfresh : heap w !! a = None) by (apply lookup_ge_None_2; done).
  assert (Hnew : (heap w ++ [new])%list !! a = Some new) by (by apply list_lookup_middle).
  assert (Hlook : forall b f, (heap w ++ [new])%list !! b = Some f <-> heap w !! b = Some f \/ b = a /\ f = new).
  { intros b f. rewrite lookup_app_Some, list_lookup_singleton_Some. split.
    - intros [?|[? [? ?]]]; [by left|right]. subst a. split; [lia|done].
    - intros [?|[-> ->]]; [by left|right]. subst a. split_and!; [lia|lia|done]. }
  split; cbn [cache heap loads set_flights config entries flights totalBytes sequence]; try done.
  - intros k' e Hk'. destruct (ci_entries0 k' e Hk') as (? & ? & ?). split_and!; [done..|].
    eapply loaded_for_mono; [apply heap_le_app|done].
  - intros k' e Hk'. rewrite lookup_insert_ne by congruence. by eapply ci_disjoint0.
  - intros k' b. rewrite lookup_insert_Some, (ci_flights0 k' b). setoid_rewrite Hlook. split.
    + intros [[<- <-]|[Hne (f & ? & ? & ?)]]; [by exists new; auto|by exists f; auto].
    + intros (f & [Hfl|[-> ->]] & <- & Hd); [|by left]. right. split; [|by exists f].
      intros Heq. rewrite Heq in Hf. pose proof (proj2 (ci_flights0 (f_key f) b) ltac:(by exists f)). congruence.
  - intros b exp [[<- <-]|[Hne Hb]]%lookup_insert_Some.
    + exists new. split_and!; [done..|]. split; [done|]. by exists now.
    + destruct (ci_loads0 b exp Hb) as (f & ? & ? & ?). exists f. split_and!; [|done..]. apply Hlook. by left.
  - intros b f [Hfl|[-> ->]]%Hlook Hd; [|by rewrite lookup_insert_eq].
    rewrite lookup_insert_ne by congruence. by eapply ci_pending0.
  - intros b f s [Hfl|[-> ->]]%Hlook Hd Hres; [|done].
    destruct (ci_results0 b f s Hfl Hd Hres). split; [done|]. eapply loaded_by_mono; [apply heap_le_app|done].
  - lia.
  - intros Hn. apply ci_access0. lia.
Qed.

Lemma Get_inv ctx clock request w answer w' : Get ctx clock request w = (Ok answer, w') ->
  ctx = CtxLive /\ exists key expiry, validateRequest request (to_utc clock) = Ok (key, expiry) /\
    get_locked (to_utc clock) key expiry request w = (answer, w').
Proof.
  unfold Get. intros H. apply prog_bind_ok in H as ([] & w1 & H1 & H). apply pure_ok in H1 as [H1 ->].
  apply prog_bind_ok in H as ([key expiry] & w2 & H2 & H). apply pure_ok in H2 as [H2 ->].
  rewrite atomically_ok in H. split; [by destruct ctx|]. by exists key, expiry.
Qed.

Lemma inv_get n w ctx clock request answer w' : cache_inv n w -> real_capability (Capability request) ->
  over_capacity (cache w) = false -> Get ctx clock request w = (Ok answer, w') ->
  cache_inv (S n) w' /\ over_capacity (cache w') = false.
Proof.
  intros Hinv Hreal Hcap (_ & key & expiry & Hval & H)%Get_inv. unfold get_locked in H.
  pose proof (removeExpired_shrinks (to_utc clock) (cache w)) as Hsh.
  pose proof (inv_shrinks n w _ Hinv Hsh) as Hinv1.
  apply (shrinks_capacity _ _ Hsh (ci_accounted _ _ Hinv)) in Hcap.
  destruct (entries (removeExpiredLocked _ _) !! key) as [cached|] eqn:He.
  - injection H as _ <-. split; [by apply (inv_touch n _ key cached Hinv1)|].
    rewrite over_capacity_false in *. cbn. by rewrite map_size_insert_Some.
  - destruct (flights (removeExpiredLocked _ _) !! key) as [pending|] eqn:Hf.
    + injection H as _ <-. split; [by apply inv_more|done].
    + injection H as _ <-. split; [|done].
      by apply (inv_new_flight n (mkWorld (removeExpiredLocked (to_utc clock) (cache w)) (heap w) (loads w))
        key request expiry (to_utc clock)).
Qed.

(** ** load *)

Lemma load_checks_inv cfg f expiry loaded clock cached : load_checks cfg f expiry loaded clock = Ok cached ->
  e_key cached = f_key f /\ 0 < e_bytes cached <= MaximumEntryBytes cfg /\
  e_bytes cached = len (CanonicalBytes (e_page cached)) /\ page_in_scope (e_page cached) (f_request f) /\
  nanos (e_expiresAt cached) <= nanos expiry /\ e_cachedAt cached = to_utc clock /\
  nanos (e_cachedAt cached) < nanos (e_expiresAt cached) <= nanos (e_cachedAt cached) + TTL cfg.
Proof.
  unfold load_checks. destruct loaded as [page|]; [|done]. cbn zeta. intros [_ H]%seq_ok.
  apply seq_ok in H as [Hscope H]. apply seq_ok in H as [Hsize H]. apply seq_ok in H as [Hfresh H].
  apply bind_ok in H as (identity & _ & [= <-]). cbn [e_key e_bytes e_page e_expiresAt e_cachedAt].
  apply deny_if_ok in Hsize, Hfresh. bool_split. apply Z.leb_gt in H. apply Z.ltb_ge in H0. split_and!; try done.
  - apply for_each_ok in Hscope. unfold page_in_scope. eapply Forall_impl; [exact Hscope|]. cbn beta.
    intros e He. apply deny_if_ok in He. bool_split. apply existsb_exists in He as (x & Hx & ->%String.eqb_eq).
    by apply list_elem_of_In.
  - unfold before in *. destruct (Z.ltb_spec (nanos expiry) (nanos (time_add (to_utc clock) (TTL cfg)))); lia.
  - unfold before in Hfresh. by apply Z.ltb_lt.
  - unfold before. destruct (Z.ltb_spec (nanos expiry) (nanos (time_add (to_utc clock) (TTL cfg)))); cbn in *; lia.
Qed.

Lemma inv_finish n w a f expiry answer : cache_inv n w -> heap w !! a = Some f -> loads w !! a = Some expiry ->
  (forall s, answer = Ok s -> f_invalidated f = false /\
     loaded_by (config (cache w)) (<[a := close_flight f answer]> (heap w)) a (f_key f) s) ->
  cache_inv n (finish a f answer w).
Proof.
  intros [] Hf Hload Hanswer. unfold finish.
  destruct (ci_loads0 a expiry Hload) as (f0 & Hf0 & Hopen & _). replace f0 with f in * by congruence.
  set (closed := close_flight f answer).
  assert (Hle : heap_le (heap w) (<[a := closed]> (heap w))) by (by eapply heap_le_insert).
  assert (Hlook : forall b g, <[a := closed]> (heap w) !! b = Some g <->
    b <> a /\ heap w !! b = Some g \/ b = a /\ g = closed).
  { intros b g. pose proof (lookup_lt_Some _ _ _ Hf). destruct (decide (b = a)) as [->|Hne].
    - rewrite list_lookup_insert_eq by done. naive_solver.
    - rewrite list_lookup_insert_ne by done. naive_solver. }
  split; cbn [cache heap loads set_flights config entries flights totalBytes sequence]; try done.
  - intros k e Hk. destruct (ci_entries0 k e Hk) as (? & ? & ?). split_and!; [done..|].
    by eapply loaded_for_mono.
  - intros k e Hk. apply lookup_delete_None. right. by eapply ci_disjoint0.
  - intros k b. rewrite lookup_delete_Some, ci_flights0. setoid_rewrite Hlook. split.
    + intros [Hne (g & Hg & Hgk & Hgd)]. exists g. split_and!; [|done..]. left. split; [|done].
      intros ->. apply Hne. congruence.
    + intros (g & [[Hne Hg]|[-> ->]] & Hgk & Hgd); [|done]. split; [|by exists g].
      intros Heq. apply Hne. pose proof (proj2 (ci_flights0 k b) ltac:(by exists g)).
      pose proof (proj2 (ci_flights0 k a) ltac:(by exists f)). congruence.
  - intros b exp [Hne Hb]%lookup_delete_Some. destruct (ci_loads0 b exp Hb) as (g & ? & ? & ?).
    exists g. split_and!; [|done..]. apply Hlook. by left.
  - intros b g [[Hne Hg]|[-> ->]]%Hlook Hd; [|done]. rewrite lookup_delete_ne by done. by eapply ci_pending0.
  - intros b g s [[Hne Hg]|[-> ->]]%Hlook Hd Hres.
    + destruct (ci_results0 b g s Hg Hd Hres). split; [done|]. by eapply loaded_by_mono.
    + by apply Hanswer.
Qed.

Lemma enforceCapacity_spec now c : config_ok (config c) -> accounted c ->
  evicts (removeExpiredLocked now c) (enforceCapacityLocked now c) /\
  over_capacity (enforceCapacityLocked now c) = false.
Proof.
  intros Hcfg Hacc. pose proof (removeExpired_shrinks now c) as Hsh.
  apply enforce_rounds_spec; [by rewrite (sh_config _ _ Hsh)|by eapply accounted_shrinks|lia].
Qed.

Lemma enforceCapacity_shrinks now c : config_ok (config c) -> accounted c -> shrinks c (enforceCapacityLocked now c).
Proof.
  intros Hcfg Hacc. etrans; [apply removeExpired_shrinks|]. by apply (enforceCapacity_spec now c).
Qed.

(** The cache with a new entry, before the capacity is enforced *)
Definition store_entry (c : Cache) (k : cacheKey) (e : entry) : Cache :=
  let seq := u64 (sequence c + 1) in
  mkCache (config c) (<[k := touched e seq]> (entries c)) (flights c) (totalBytes c + e_bytes e) seq.

Lemma inv_store n w k e : cache_inv n w -> entries (cache w) !! k = None -> flights (cache w) !! k = None ->
  e_key e = k -> 0 < e_bytes e <= MaximumEntryBytes (config (cache w)) ->
  e_bytes e = len (CanonicalBytes (e_page e)) ->
  loaded_for (config (cache w)) (heap w) k (snapshot e true) ->
  cache_inv (S n) (mkWorld (store_entry (cache w) k e) (heap w) (loads w)).
Proof.
  intros [] He Hf Hkey Hb Hlen Hloaded. pose proof (u64_le (sequence (cache w) + 1) ltac:(lia)) as Hseq.
  unfold store_entry. split; cbn [cache heap loads config entries flights totalBytes sequence]; try done.
  - destruct ci_accounted0 as [Ht Hacc]. split; cbn; [rewrite bytes_insert by done; cbn; lia|].
    intros k' e' [[<- <-]|[Hne Hk']]%lookup_insert_Some; [done|by eapply Hacc].
  - intros k' e' [[<- <-]|[Hne Hk']]%lookup_insert_Some; [done|by apply ci_entries0].
  - intros k' e' [[<- <-]|[Hne Hk']]%lookup_insert_Some; [done|by eapply ci_disjoint0].
  - lia.
  - intros Hn. rewrite u64_small in * by lia.
    intros k' e' [[<- <-]|[Hne Hk']]%lookup_insert_Some; cbn; [lia|].
    pose proof (ci_access0 ltac:(lia) k' e' Hk'). lia.
Qed.

Lemma load_locked_stores a f cached w : f_invalidated f = false -> e_key cached = f_key f ->
  let w1 := finish a f (Ok (snapshot cached false)) w in
  load_locked a f cached w =
  mkWorld (enforceCapacityLocked (e_cachedAt cached) (store_entry (cache w1) (f_key f) cached)) (heap w1) (loads w1).
Proof. intros Hinv Hk. unfold load_locked. by rewrite Hinv. Qed.

(** A load that passes its checks stores an entry of its flight's key, which no entry has. *)
Lemma inv_load_stores n w a f expiry cached loaded clock : cache_inv n w -> f_invalidated f = false ->
  heap w !! a = Some f -> loads w !! a = Some expiry ->
  load_checks (config (cache w)) f expiry loaded clock = Ok cached ->
  let w1 := finish a f (Ok (snapshot cached false)) w in
  entries (cache w) !! f_key f = None /\
  cache_inv (S n) (mkWorld (store_entry (cache w1) (f_key f) cached) (heap w1) (loads w1)).
Proof.
  intros Hinv Hflag Hf Hload Hchecks w1.
  apply load_checks_inv in Hchecks as (Hk & Hb & Hlen & Hscope & Hexp & Hat & Hlo & Hhi).
  destruct (ci_loads _ _ Hinv a expiry Hload) as (f0 & Hf0 & Hopen & Hreal). replace f0 with f in * by congruence.
  pose proof (proj2 (ci_flights _ _ Hinv (f_key f) a) ltac:(by exists f)) as Hfl.
  assert (He : entries (cache w) !! f_key f = None).
  { apply eq_None_not_Some. intros [e He]. rewrite (ci_disjoint _ _ Hinv _ _ He) in Hfl. done. }
  assert (Hloaded : forall hit, loaded_by (config (cache w)) (heap w1) a (f_key f) (snapshot cached hit)).
  { intros hit. eexists _, expiry. split; [apply list_lookup_insert_eq; by eapply lookup_lt_Some|].
    split_and!; try done. by exists (snapshot cached false). }
  split; [done|]. apply inv_store; try done.
  - eapply inv_finish; [done..|]. intros s [= <-]. split; [done|apply Hloaded].
  - apply lookup_delete_eq.
  - exists a. apply Hloaded.
Qed.

Lemma inv_load n w a loaded clock : cache_inv n w -> over_capacity (cache w) = false ->
  is_Some (loads w !! a) ->
  cache_inv (S n) (load a loaded clock w) /\ over_capacity (cache (load a loaded clock w)) = false.
Proof.
  intros Hinv Hcap [expiry Hload]. destruct (ci_loads _ _ Hinv a expiry Hload) as (f & Hf & _).
  unfold load. rewrite Hf, Hload.
  destruct (load_checks (config (cache w)) f expiry loaded clock) as [cached|e] eqn:Hchecks.
  2: { split; [|done]. apply inv_more. by eapply inv_finish. }
  destruct (f_invalidated f) eqn:Hflag.
  { unfold load_locked. rewrite Hflag. split; [|done]. apply inv_more. by eapply inv_finish. }
  destruct (inv_load_stores n w a f expiry cached loaded clock Hinv Hflag Hf Hload Hchecks) as [_ Hst].
  rewrite (load_locked_stores a f cached w Hflag (proj1 (load_checks_inv _ _ _ _ _ _ Hchecks))).
  split; [|apply enforceCapacity_spec; apply Hst].
  refine (inv_shrinks _ _ _ Hst (enforceCapacity_shrinks _ _ _ _)); apply Hst.
Qed.

(** ** Invalidate *)

Lemma Invalidate_inv ctx target w w' : Invalidate ctx target w = (Ok tt, w') ->
  ctx = CtxLive /\ invalid_target target = false /\
  w' = mkWorld (drop_where (fun key _ => matches_key target key) (cache w))
         (invalidate_flights target (flights (cache w)) (heap w)) (loads w).
Proof.
  unfold Invalidate. intros H. apply prog_bind_ok in H as ([] & w1 & H1 & H). apply pure_ok in H1 as [H1 ->].
  apply prog_bind_ok in H as ([] & w2 & H2 & H). apply pure_ok in H2 as [H2 ->].
  rewrite atomically_ok in H. injection H as <-. apply deny_if_ok in H2. split_and!; [by destruct ctx|done..].
Qed.

Definition flagged (f : flight) (b : bool) : flight :=
  mkFlight (f_done f) (f_key f) (f_request f) (f_invalidated f || b) (f_result f).

Lemma invalidate_fold target (l : list (cacheKey * nat)) : forall (h : list flight) (a : nat),
  foldl (fun heap kv => if matches_key target (fst kv) then alter invalidate_flight (snd kv) heap else heap) h l !! a
  = (fun f => flagged f (existsb (fun kv => matches_key target (fst kv) && Nat.eqb (snd kv) a) l)) <$> h !! a.
Proof.
  induction l as [|[k b] l IH]; intros h a; cbn [foldl fst snd existsb].
  { destruct (h !! a) as [[]|]; cbn; [|done]. unfold flagged. cbn. by rewrite orb_false_r. }
  rewrite IH. destruct (matches_key target k); cbn [andb orb]; [|done].
  destruct (Nat.eqb_spec b a) as [->|Hne].
  - rewrite list_lookup_alter_eq. destruct (h !! a) as [[]|]; [|done]. cbn. unfold flagged. cbn.
    by rewrite orb_true_r.
  - by rewrite list_lookup_alter_ne.
Qed.

Lemma invalidate_flights_lookup target fl h a : exists b,
  invalidate_flights target fl h !! a = (fun f => flagged f b) <$> h !! a /\
  (b = true <-> exists k, fl !! k = Some a /\ matches_key target k = true).
Proof.
  unfold invalidate_flights. eexists. split; [apply invalidate_fold|].
  rewrite existsb_exists. split.
  - intros ([k b] & Hin%list_elem_of_In & [Hm Hb%Nat.eqb_eq]%andb_true_iff). cbn in Hb. subst b.
    apply elem_of_map_to_list in Hin. by exists k.
  - intros (k & Hk & Hm). exists (k, a). split; [by apply list_elem_of_In, elem_of_map_to_list|].
    cbn. by rewrite Hm, Nat.eqb_refl.
Qed.

Lemma inv_invalidate n w ctx target w' : cache_inv n w -> over_capacity (cache w) = false ->
  Invalidate ctx target w = (Ok tt, w') -> cache_inv (S n) w' /\ over_capacity (cache w') = false.
Proof.
  intros Hinv Hcap (_ & _ & ->)%Invalidate_inv.
  pose proof (drop_where_shrinks (fun key _ => matches_key target key) (cache w)) as Hsh.
  split; [|by eapply shrinks_capacity; [done|apply Hinv|]].
  apply (inv_shrinks n w _) in Hsh; [|done]. apply inv_more in Hsh.
  set (h' := invalidate_flights target (flights (cache w)) (heap w)).
  assert (Hlook : forall a g, h' !! a = Some g <-> exists f b, heap w !! a = Some f /\ g = flagged f b /\
     (b = true <-> exists k, flights (cache w) !! k = Some a /\ matches_key target k = true)).
  { intros a g. destruct (invalidate_flights_lookup target (flights (cache w)) (heap w) a) as (b & Heq & Hb).
    subst h'. rewrite Heq. destruct (heap w !! a) as [f|]; cbn; [|naive_solver]. split; [intros [= <-]; eauto|].
    intros (f' & b' & [= <-] & -> & Hb'). by replace b' with b by (destruct b, b'; naive_solver). }
  assert (Hle : heap_le (heap w) h').
  { intros a f Hf. destruct (invalidate_flights_lookup target (flights (cache w)) (heap w) a) as (b & Heq & _).
    exists (flagged f b). subst h'. rewrite Heq, Hf. split_and!; [done..| |done]. by intros Hi; cbn; rewrite Hi. }
  destruct Hsh. cbn [cache heap loads] in *. split; cbn [cache heap loads]; try done.
  - intros k e Hk. destruct (ci_entries0 k e Hk) as (? & ? & ?). split_and!; [done..|]. by eapply loaded_for_mono.
  - intros k a. rewrite ci_flights0. setoid_rewrite Hlook. split.
    + intros (f & Hf & Hk & Hd). destruct (invalidate_flights_lookup target (flights (cache w)) (heap w) a) as (b & _ & Hb).
      exists (flagged f b). split_and!; [|done..]. by exists f, b.
    + intros (g & (f & b & Hf & -> & _) & Hk & Hd). by exists f.
  - intros a exp Ha. destruct (ci_loads0 a exp Ha) as (f & Hf & Hd & Hreal).
    destruct (invalidate_flights_lookup target (flights (cache w)) (heap w) a) as (b & Heq & _).
    exists (flagged f b). subst h'. rewrite Heq, Hf. split_and!; done.
  - intros a g (f & b & Hf & -> & _)%Hlook Hd. by eapply ci_pending0.
  - intros a g s (f & b & Hf & -> & Hb)%Hlook Hd Hres. destruct (ci_results0 a f s Hf Hd Hres) as [Hflag ?].
    split; [|by eapply loaded_by_mono]. cbn. rewrite Hflag. cbn. apply not_true_iff_false. rewrite Hb.
    intros (k & Hk & _). apply (ci_flights _ _ Hinv) in Hk as (f' & Hf' & _ & Hd').
    replace f' with f in Hd' by congruence. cbn in Hd. congruence.
Qed.

(** ** Every reachable state *)

Lemma New_ok cfg ln cn c : New cfg ln cn = Ok c -> config_ok cfg /\ c = mkCache cfg ∅ ∅ 0 0.
Proof.
  unfold New. intros [H [= <-]]%seq_ok. split; [|done]. apply deny_if_ok in H. bool_split.
  unfold config_ok. rewrite ?Z.leb_gt, ?Z.ltb_ge in *. lia.
Qed.

Lemma inv_initial cfg c : New cfg false false = Ok c ->
  cache_inv 0 (mkWorld c [] ∅) /\ over_capacity (cache (mkWorld c [] ∅)) = false.
Proof.
  intros [Hcfg ->]%New_ok. split.
  - split; cbn [cache heap loads config entries flights totalBytes sequence]; try done; try lia.
    all: try (intros *; by rewrite lookup_empty).
    intros k a. rewrite lookup_empty. split; [done|]. by intros (f & Hf & _).
  - rewrite over_capacity_false. cbn. rewrite map_size_empty. unfold config_ok in Hcfg. lia.
Qed.

Lemma step_inv n w w' : cache_inv n w -> over_capacity (cache w) = false -> step w w' ->
  cache_inv (S n) w' /\ over_capacity (cache w') = false.
Proof.
  intros Hinv Hcap Hstep. destruct Hstep as [ctx clock request answer w w' Hreal H|a loaded clock w H|ctx target w w' H].
  - by eapply inv_get.
  - by apply inv_load.
  - by eapply inv_invalidate.
Qed.

Lemma cache_reachable_inv n w : reachable n w -> cache_inv n w /\ over_capacity (cache w) = false.
Proof.
  intros (cfg & c & Hnew & Hsteps).
  remember (mkWorld c [] ∅) as w0 eqn:Hw0.
  assert (Hgen : forall m, cache_inv m w0 /\ over_capacity (cache w0) = false ->
    cache_inv (m + n) w /\ over_capacity (cache w) = false).
  { clear Hw0 Hnew. induction Hsteps as [w|n w w1 w2 Hstep _ IH]; intros m [Hinv Hcap].
    - by rewrite Nat.add_0_r.
    - rewrite <- Nat.add_succ_comm. apply IH. by apply (step_inv m w). }
  apply (Hgen 0%nat). subst. by eapply inv_initial.
Qed.
