(* ===== verification/SchemaCacheTheorems.v ===== *)
(** * The schema cache: theorems, and a run

    What the invariant of every interleaving means for the callers of [Get] and [Invalidate]:
    isolation of scopes, bounds, eviction of the oldest, and loads that end.
    A miss that loads a page, and a second call that hits it. *)

From S2P Require Import Prelude GoStrings GoRegexp GoTime GoJson DomainContract Sha256 Domain GoStruct GoCodec QueryConnector QueryConnectorFacts SchemaCache SchemaCacheFacts.

Local Open Scope string_scope.
Local Open Scope Z_scope.

(** ** One key, one scope *)

(** The two packages check a scope in different words. *)
Lemma hasDuplicate_iff l : is_sorted l = true -> hasDuplicate l = false <-> increasing l.
Proof. exact (adjacent_equal_iff l). Qed.

(** The cache accepts exactly the scopes the query contract accepts. *)
Lemma scope_checks_agree (scope : Scope) : validScope scope = QueryConnector.validScope scope.
Proof.
  apply eq_true_iff_eq. unfold validScope, QueryConnector.validScope.
  rewrite !andb_true_iff, validTokens_iff by lia. rewrite Z.ltb_lt, Z.leb_le, !negb_true_iff.
  set (l := items (s_ResourceIDs scope)).
  assert (Htok : existsb (fun value => negb (tokenPattern value)) l = false <->
    Forall (fun v => tokenPattern v = true) l).
  { rewrite <- not_true_iff_false, existsb_exists, List.Forall_forall. setoid_rewrite negb_true_iff. split.
    - intros H x Hx. apply not_false_iff_true. eauto.
    - intros H (x & Hx & Hf). specialize (H x Hx). congruence. }
  rewrite Htok. assert (Hne : 0 < Z.of_nat (length l) <-> l <> []) by (destruct l; cbn; naive_solver lia).
  rewrite Hne. split.
  - intros ((((((((? & ?) & ?) & ?) & ?) & ?) & Hs) & ?) & Hd). apply (hasDuplicate_iff l Hs) in Hd. tauto.
  - intros ((((? & ?) & ?) & ?) & ? & ? & ? & Hinc). pose proof (increasing_is_sorted l Hinc) as Hs.
    apply (hasDuplicate_iff l Hs) in Hinc. tauto.
Qed.

Definition capability_expiry (request : Request) : option Time :=
  parse_timestamp (cap_ValidUntil (Value capability_codec (Capability request))).

Lemma validateRequest_inv request now key expiry : validateRequest request now = Ok (key, expiry) ->
  let scope := sr_Scope (SchemaRequest_ request) in
  validScope scope = true /\ Digest (Capability request) <> "" /\
  capability_expiry request = Some expiry /\ before now expiry = true /\
  organizationID key = s_OrganizationID scope /\ tenantID key = s_TenantID scope /\
  sourceID key = s_SourceID scope /\ capabilityDigest key = Digest (Capability request) /\
  digestValue resourceDigestDomain (slice_codec str_codec) (resources request) = Ok (resourceDigest key).
Proof.
  unfold validateRequest. cbn zeta. intros [Hin H]%seq_ok. apply deny_if_ok in Hin. bool_split.
  unfold capability_expiry. destruct (parse_timestamp (cap_ObservedAt _)) as [observedAt|]; [|done].
  destruct (parse_timestamp (cap_ValidUntil _)) as [validUntil|]; [|done].
  apply seq_ok in H as [_ H]. apply seq_ok in H as [Hstale H]. apply deny_if_ok in Hstale.
  apply bind_ok in H as (d & Hd & [= <- <-]). bool_split. split_and!; try done. by apply String.eqb_neq.
Qed.

(** The messages behind the two digests of a key *)
Definition canonical_resources (request : Request) : string :=
  match canonical_struct (c_type (slice_codec str_codec)) (c_to (slice_codec str_codec) (resources request)) with
  | Ok c => c
  | Err _ => ""
  end.
Definition resource_message (request : Request) : string := resourceDigestDomain ++ canonical_resources request.
Definition capability_message (request : Request) : string :=
  capabilityDigestDomain ++ CanonicalBytes (Capability request).

Lemma resources_typed request : validScope (sr_Scope (SchemaRequest_ request)) = true ->
  typed (slice_codec str_codec) (resources request).
Proof.
  rewrite scope_checks_agree. unfold QueryConnector.validScope. rewrite !andb_true_iff.
  intros [_ Htok]. apply validTokens_iff in Htok as (_ & _ & Htok & _); [|lia]. unfold typed, resources.
  destruct (s_ResourceIDs _) as [l|]; [|done]. cbn in *. induction Htok as [|x l Hx Hl IH]; [done|].
  cbn. by rewrite (token_ascii x Hx), IH.
Qed.

Lemma digestValue_ok {T} domain (c : codec T) x h : digestValue domain c x = Ok h ->
  exists canonical, canonical_struct (c_type c) (c_to c x) = Ok canonical /\ h = digest (domain ++ canonical).
Proof.
  intros (canonical & Hc & [= <-])%bind_ok. apply or_err_ok in Hc. by exists canonical.
Qed.

Lemma same_key_same_resources r1 now1 e1 r2 now2 e2 key :
  validateRequest r1 now1 = Ok (key, e1) -> validateRequest r2 now2 = Ok (key, e2) ->
  resources r1 = resources r2 \/ sha256_collision (resource_message r1) (resource_message r2).
Proof.
  intros (Hs1 & _ & _ & _ & _ & _ & _ & _ & H1)%validateRequest_inv
    (Hs2 & _ & _ & _ & _ & _ & _ & _ & H2)%validateRequest_inv.
  apply digestValue_ok in H1 as (c1 & Hc1 & H1), H2 as (c2 & Hc2 & H2).
  unfold resource_message, canonical_resources. rewrite Hc1, Hc2.
  rewrite H2 in H1. symmetry in H1. apply digest_eq in H1 as [Heq|Hcol]; [left|by right].
  apply append_inj_l in Heq. subst c2.
  pose proof (canonical_struct_inj (c_type (slice_codec str_codec)) eq_refl ltac:(vm_compute; lia) _ _ c1
    (resources_typed r1 Hs1) (resources_typed r2 Hs2) Hc1 Hc2) as Heq.
  apply (f_equal (c_of (slice_codec str_codec))) in Heq. rewrite !c_of_to in Heq. congruence.
Qed.

Lemma real_decoded doc : real_capability doc -> Digest doc <> "" ->
  exists ctx ctx' input, DecodeCapability ctx ctx' input = Ok doc.
Proof. intros [->|H]; done. Qed.

Lemma same_key_same_capability r1 now1 e1 r2 now2 e2 key :
  real_capability (Capability r1) -> real_capability (Capability r2) ->
  validateRequest r1 now1 = Ok (key, e1) -> validateRequest r2 now2 = Ok (key, e2) ->
  e1 = e2 \/ sha256_collision (capability_message r1) (capability_message r2).
Proof.
  intros Hr1 Hr2 (_ & Hd1 & He1 & _ & _ & _ & _ & H1 & _)%validateRequest_inv
    (_ & Hd2 & He2 & _ & _ & _ & _ & H2 & _)%validateRequest_inv.
  destruct (real_decoded _ Hr1 Hd1) as (? & ? & ? & Hdec1), (real_decoded _ Hr2 Hd2) as (? & ? & ? & Hdec2).
  destruct (same_digest_same_document capability_codec capabilityDigestDomain validateCapability capability_plain
    _ _ _ _ _ _ _ _ Hdec1 Hdec2 ltac:(congruence)) as [Heq|Hcol]; [left|by right].
  unfold capability_expiry in *. rewrite Heq in He1. congruence.
Qed.

(** ** Serving *)

(** The flight at [a] ended with [s], and [s] may be shown to [request]: the flight's request
    named the same tenant and source; the entries of [s] are about resources of [request]
    only, and it does not outlive the capability of [request] -- or the messages of the
    flight's request and of [request] are a SHA-256 collision. *)
Definition serves_by (h : list flight) (a : nat) (request : Request) (s : Snapshot) : Prop :=
  exists f, h !! a = Some f /\ (f_done f = true /\ exists s0, f_result f = Ok s0 /\ same_load s0 s) /\
    let scope := sr_Scope (SchemaRequest_ request) in
    organizationID (f_key f) = s_OrganizationID scope /\ tenantID (f_key f) = s_TenantID scope /\
    sourceID (f_key f) = s_SourceID scope /\
    (page_in_scope (sn_page s) request \/
     sha256_collision (resource_message (f_request f)) (resource_message request)) /\
    ((exists until, capability_expiry request = Some until /\ nanos (sn_expiresAt s) <= nanos until) \/
     sha256_collision (capability_message (f_request f)) (capability_message request)).

Definition serves (h : list flight) (request : Request) (s : Snapshot) : Prop := exists a, serves_by h a request s.

Lemma loaded_by_serves cfg h a key s request now expiry : real_capability (Capability request) ->
  validateRequest request now = Ok (key, expiry) -> loaded_by cfg h a key s -> serves_by h a request s.
Proof.
  intros Hreal Hval (f & exp & Hf & <- & [Hfreal (now0 & Hfval)] & Hdone & Hscope & Hexp & _).
  pose proof (validateRequest_inv _ _ _ _ Hval) as (_ & _ & Huntil & _ & Ho & Ht & Hsrc & _).
  exists f. cbn zeta. split_and!; try apply Hdone; try done.
  - destruct (same_key_same_resources _ _ _ _ _ _ _ Hfval Hval) as [Heq|]; [left|by right].
    unfold page_in_scope in *. by rewrite <- Heq.
  - destruct (same_key_same_capability _ _ _ _ _ _ _ Hfreal Hreal Hfval Hval) as [<-|]; [left|by right].
    by exists exp.
Qed.

Lemma steps_inv n w w' : cache_inv n w -> over_capacity (cache w) = false -> rtc step w w' ->
  exists m, cache_inv m w' /\ over_capacity (cache w') = false.
Proof.
  intros Hinv Hcap Hsteps. revert n Hinv Hcap. induction Hsteps as [|w w1 w2 Hstep _ IH]; intros n Hinv Hcap.
  - by exists n.
  - destruct (step_inv n w w1 Hinv Hcap Hstep). by eapply IH.
Qed.

(** A flight is never forgotten: its key and request stay, and so does its result. *)
Lemma step_heap n w w' : cache_inv n w -> step w w' -> heap_le (heap w) (heap w').
Proof.
  intros Hinv Hstep. destruct Hstep as [ctx clock request answer w w' _ H|a loaded clock w _|ctx target w w' H].
  - apply Get_inv in H as (_ & key & expiry & _ & H). unfold get_locked in H.
    destruct (entries _ !! key); [by injection H as _ <-|].
    destruct (flights _ !! key); injection H as _ <-; [done|apply heap_le_app].
  - unfold load. destruct (heap w !! a) as [f|] eqn:Hf; [|done]. destruct (loads w !! a) as [exp|] eqn:Hl; [|done].
    destruct (ci_loads _ _ Hinv a exp Hl) as (? & ? & Hopen & _). simplify_eq.
    destruct (load_checks _ _ _ _ _); [unfold load_locked; destruct (f_invalidated f)|]; by eapply heap_le_insert.
  - apply Invalidate_inv in H as (_ & _ & ->). intros a f Hf. cbn [heap].
    destruct (invalidate_flights_lookup target (flights (cache w)) (heap w) a) as (b & Heq & _).
    exists (flagged f b). rewrite Heq, Hf. split_and!; [done..| |done]. by intros Hi; cbn; rewrite Hi.
Qed.

Lemma steps_heap n w w' : cache_inv n w -> over_capacity (cache w) = false -> rtc step w w' ->
  heap_le (heap w) (heap w').
Proof.
  intros Hinv Hcap Hsteps. revert n Hinv Hcap. induction Hsteps as [w|w w1 w2 Hstep _ IH]; intros n Hinv Hcap; [done|].
  destruct (step_inv n w w1 Hinv Hcap Hstep). etrans; [by eapply step_heap|by eapply IH].
Qed.

(** C28. Whatever [Get] answers in a reachable state may be shown to the caller: a hit is
    unexpired, is what a flight ended with and serves the request; a caller that waits on a
    flight, its own or one it joined, can only ever be handed the snapshot that flight ended
    with, and it serves the caller's request, however the cache runs on. *)
Theorem get_serves_only_the_requested_scope n w ctx clock request answer w'
  (Hw : reachable n w) (Hreal : real_capability (Capability request))
  (H : Get ctx clock request w = (Ok answer, w')) :
  match answer with
  | Hit s => sn_hit s = true /\ before (to_utc clock) (sn_expiresAt s) = true /\ serves (heap w') request s
  | Waiting a =>
      forall w'' f s ctx', rtc step w' w'' -> heap w'' !! a = Some f -> wait ctx' f = Some (Ok s) ->
        serves_by (heap w'') a request s
  end.
Proof.
  apply cache_reachable_inv in Hw as [Hinv Hcap].
  pose proof (inv_get n w ctx clock request answer w' Hinv Hreal Hcap H) as [Hinv' Hcap'].
  pose proof (Get_inv _ _ _ _ _ _ H) as (_ & key & expiry & Hval & Hlocked).
  destruct answer as [s|a].
  - unfold get_locked in Hlocked. destruct (entries _ !! key) as [cached|] eqn:He.
    2: { by destruct (flights _ !! key). }
    injection Hlocked as <- <-. cbn. split; [done|].
    apply removeExpired_entries in He as [He Hfresh]. split; [done|].
    destruct (ci_entries _ _ Hinv key cached He) as (_ & _ & [a Ha]).
    exists a. by eapply loaded_by_serves.
  - assert (Hpending : exists f, heap w' !! a = Some f /\ f_key f = key).
    { unfold get_locked in Hlocked. destruct (entries _ !! key); [done|].
      destruct (flights _ !! key) as [b|] eqn:Hf; injection Hlocked as <- <-; cbn [heap].
      - rewrite (sh_flights _ _ (removeExpired_shrinks _ (cache w))) in Hf.
        apply (ci_flights _ _ Hinv) in Hf as (f & ? & ? & _). by exists f.
      - eexists. split; [by apply list_lookup_middle|done]. }
    intros w'' f s ctx' Hsteps Hf Hwait. destruct Hpending as (f0 & Hf0 & Hk0).
    destruct (steps_inv (S n) w' w'' Hinv' Hcap' Hsteps) as (m & Hm & _).
    destruct (steps_heap _ w' w'' Hinv' Hcap' Hsteps a f0 Hf0) as (f' & Hf' & Hk' & _). replace f' with f in * by congruence.
    unfold wait in Hwait. destruct (contextError ctx') eqn:Hctx; [|done].
    destruct (f_done f) eqn:Hdone; [|done]. injection Hwait as Hres.
    eapply loaded_by_serves; [done|done|]. rewrite <- Hk0, <- Hk'.
    by apply (ci_results _ _ Hm a f s).
Qed.

(** C27. Every reachable state of the cache is sound: the byte count is the sum of the
    entries' sizes, entries and bytes are within the configured bounds, no key has both an
    entry and a flight, the flights of the map are exactly the unfinished ones (so one load
    per key), and each has a running load. *)
Theorem schema_cache_is_sound n w (Hw : reachable n w) :
  let c := cache w in
  totalBytes c = bytes_of_entries (entries c) /\
  Z.of_nat (size (entries c)) <= MaximumEntries (config c) /\ 0 <= totalBytes c <= MaximumTotalBytes (config c) /\
  (forall k e, entries c !! k = Some e -> flights c !! k = None /\
     0 < e_bytes e <= MaximumEntryBytes (config c) /\ e_bytes e = len (CanonicalBytes (e_page e))) /\
  (forall k a, flights c !! k = Some a <-> exists f, heap w !! a = Some f /\ f_key f = k /\ f_done f = false) /\
  (forall a, is_Some (loads w !! a) <-> exists f, heap w !! a = Some f /\ f_done f = false).
Proof.
  apply cache_reachable_inv in Hw as [Hinv Hcap]. cbn zeta. apply over_capacity_false in Hcap as [Hsize Htotal].
  destruct (ci_accounted _ _ Hinv) as [Ht Hb]. split_and!; try done.
  - rewrite Ht. apply bytes_nonneg. intros k e Hk. specialize (Hb k e Hk). lia.
  - intros k e Hk. split; [by eapply (ci_disjoint _ _ Hinv)|]. split; [by eapply Hb|].
    by apply (ci_entries _ _ Hinv k e).
  - apply Hinv.
  - intros a. split; [intros [expiry Ha]|intros (f & Hf & Hd); by eapply (ci_pending _ _ Hinv)].
    destruct (ci_loads _ _ Hinv a expiry Ha) as (f & ? & ? & _). by exists f.
Qed.

(** A load that passes its checks is stored and answered: the flight's waiters get its
    snapshot, the new entry is in the cache, and what left the cache to make room had expired,
    or was used less recently than everything that stayed and had to go. *)
Theorem load_stores_and_evicts_the_oldest n w a f expiry loaded clock cached
  (Hw : reachable n w) (Hn : Z.of_nat n + 1 < 2 ^ 64)
  (Hf : heap w !! a = Some f) (Hload : loads w !! a = Some expiry) (Hlive : f_invalidated f = false)
  (Hchecks : load_checks (config (cache w)) f expiry loaded clock = Ok cached) :
  let w' := load a loaded clock w in
  let stored := touched cached (sequence (cache w) + 1) in
  let before_eviction := removeExpiredLocked (to_utc clock)
    (store_entry (set_flights (cache w) (delete (f_key f) (flights (cache w)))) (f_key f) cached) in
  entries (cache w') !! f_key f = Some stored /\
  (exists f', heap w' !! a = Some f' /\ wait CtxLive f' = Some (Ok (snapshot stored false))) /\
  flights (cache w') !! f_key f = None /\ over_capacity (cache w') = false /\
  evicts before_eviction (cache w').
Proof.
  apply cache_reachable_inv in Hw as [Hinv Hcap]. cbn zeta.
  destruct (inv_load_stores n w a f expiry cached loaded clock Hinv Hlive Hf Hload Hchecks) as [Hfree Hst].
  pose proof (inv_load n w a loaded clock Hinv Hcap ltac:(by eexists)) as [Hinv' Hcap'].
  pose proof (load_checks_inv _ _ _ _ _ _ Hchecks) as (Hk & Hb & _ & _ & _ & Hat & Hlo & _).
  unfold load in *. rewrite Hf, Hload, Hchecks in *.
  rewrite (load_locked_stores a f cached w Hlive Hk), Hat in *. cbn [cache heap loads] in *.
  set (w1 := finish a f (Ok (snapshot cached false)) w) in *.
  set (c2 := store_entry (cache w1) (f_key f) cached) in *.
  pose proof (ci_config _ _ Hst) as Hcfg. pose proof (ci_accounted _ _ Hst) as Hacc. cbn [cache] in Hcfg, Hacc.
  destruct (enforceCapacity_spec (to_utc clock) c2 Hcfg Hacc) as [Hev _].
  pose proof (removeExpired_shrinks (to_utc clock) c2) as Hsh.
  pose proof (ci_sequence _ _ Hinv) as Hseq.
  assert (Hu : u64 (sequence (cache w) + 1) = sequence (cache w) + 1) by (apply u64_small; lia).
  assert (Hnew : entries c2 !! f_key f = Some (touched cached (sequence (cache w) + 1))).
  { cbn. rewrite Hu. apply lookup_insert_eq. }
  split_and!; try done.
  - apply (youngest_stays _ _ _ _ ltac:(by rewrite (sh_config _ _ Hsh)) ltac:(by eapply accounted_shrinks) Hev).
    + apply removeExpired_entries. split; [done|]. cbn. unfold before. apply Z.ltb_lt. exact Hlo.
    + intros k' e' [Hk' _]%removeExpired_entries Hne. left. cbn in *. rewrite lookup_insert_ne in Hk' by done.
      pose proof (ci_access _ _ Hinv ltac:(lia) k' e' Hk'). lia.
  - eexists. split; [apply list_lookup_insert_eq; by eapply lookup_lt_Some|]. done.
  - rewrite (sh_flights _ _ (enforceCapacity_shrinks _ _ Hcfg Hacc)). cbn. apply lookup_delete_eq.
Qed.

(** After an invalidation no entry of a matching key is left, and a load that was under
    way for a matching key never surfaces: however the cache runs on, its waiters never get a
    snapshot and its end leaves the entries as they are. *)
Theorem invalidated_loads_never_surface n w ctx target w'
  (Hw : reachable n w) (H : Invalidate ctx target w = (Ok tt, w')) :
  (forall k e, entries (cache w') !! k = Some e -> entries (cache w) !! k = Some e /\ matches_key target k = false) /\
  (forall k a w'', flights (cache w) !! k = Some a -> matches_key target k = true -> rtc step w' w'' ->
     exists f, heap w'' !! a = Some f /\ f_key f = k /\ (forall ctx' s, wait ctx' f <> Some (Ok s)) /\
       forall loaded clock, entries (cache (load a loaded clock w'')) = entries (cache w'')).
Proof.
  apply cache_reachable_inv in Hw as [Hinv Hcap].
  destruct (inv_invalidate n w ctx target w' Hinv Hcap H) as [Hinv' Hcap'].
  apply Invalidate_inv in H as (_ & _ & ->). split.
  { intros k e Hk. cbn [cache] in Hk. by rewrite drop_where_entries in Hk. }
  intros k a w'' Hfl Hm Hsteps. pose proof (proj1 (ci_flights _ _ Hinv k a) Hfl) as (f0 & Hf0 & Hk0 & Hd0).
  destruct (invalidate_flights_lookup target (flights (cache w)) (heap w) a) as (b & Heq & Hb).
  rewrite (proj2 Hb) in Heq by (by exists k). rewrite Hf0 in Heq. cbn [fmap option_fmap option_map] in Heq.
  destruct (steps_heap _ _ _ Hinv' Hcap' Hsteps a _ Heq) as (f & Hf & Hk & _ & Hi & _).
  assert (Hflag : f_invalidated f = true) by (apply Hi; cbn; by rewrite orb_true_r).
  exists f. split_and!; [done|cbn in Hk; congruence| |].
  - intros ctx' s. unfold wait. destruct (contextError ctx'); [|done]. destruct (f_done f) eqn:Hdone; [|done].
    intros [= Hres]. destruct (steps_inv _ _ _ Hinv' Hcap' Hsteps) as (m & Hm' & _).
    destruct (ci_results _ _ Hm' a f s Hf Hdone Hres). congruence.
  - intros loaded clock. unfold load. rewrite Hf. destruct (loads w'' !! a); [|done].
    destruct (load_checks _ _ _ _ _); [|done]. unfold load_locked. by rewrite Hflag.
Qed.

(** Eviction ends: in a cache whose bytes are accounted for, a round per entry and one
    more are all the loop ever runs, and it leaves the cache within its bounds. *)
Theorem eviction_terminates now c extra (Hcfg : config_ok (config c)) (Hacc : accounted c) :
  let c' := removeExpiredLocked now c in
  enforce_rounds (S (size (entries c')) + extra) c' = enforceCapacityLocked now c /\
  over_capacity (enforceCapacityLocked now c) = false /\ shrinks c (enforceCapacityLocked now c).
Proof.
  cbn zeta. split_and!.
  - apply enforce_rounds_enough. lia.
  - by apply enforceCapacity_spec.
  - by apply enforceCapacity_shrinks.
Qed.

Lemma enforceCapacity_flights now c : flights (enforceCapacityLocked now c) = flights c.
Proof.
  unfold enforceCapacityLocked. rewrite <- (sh_flights _ _ (removeExpired_shrinks now c)).
  generalize (removeExpiredLocked now c) as c'. intros c'. generalize (S (size (entries c'))) as fuel. intros fuel.
  revert c'. induction fuel as [|fuel IH]; intros c'; [done|]. cbn. destruct (over_capacity c'); [|done].
  destruct (oldest_entry (entries c')) as [[]|]; [|done]. by rewrite IH.
Qed.

Lemma load_closes w a f expiry loaded clock : heap w !! a = Some f -> loads w !! a = Some expiry ->
  flights (cache (load a loaded clock w)) = delete (f_key f) (flights (cache w)) /\
  exists answer, heap (load a loaded clock w) !! a = Some (close_flight f answer).
Proof.
  intros Hf Hload. unfold load. rewrite Hf, Hload. pose proof (lookup_lt_Some _ _ _ Hf).
  destruct (load_checks _ _ _ _ _); [unfold load_locked; destruct (f_invalidated f)|]; cbn [cache heap];
    rewrite ?enforceCapacity_flights; (split; [done|]); eexists; by apply list_lookup_insert_eq.
Qed.

(** Nobody waits for ever on a loader that answers: in every reachable state the load of
    an unfinished flight can end, and whatever the loader and the clock say, it closes the
    flight with a result and frees the key for the next caller. *)
Theorem unfinished_flights_can_finish n w a f loaded clock
  (Hw : reachable n w) (Hf : heap w !! a = Some f) (Hopen : f_done f = false) :
  step w (load a loaded clock w) /\
  flights (cache (load a loaded clock w)) !! f_key f = None /\
  exists f', heap (load a loaded clock w) !! a = Some f' /\ wait CtxLive f' = Some (f_result f').
Proof.
  apply cache_reachable_inv in Hw as [Hinv Hcap]. destruct (ci_pending _ _ Hinv a f Hf Hopen) as [expiry Hload].
  destruct (load_closes w a f expiry loaded clock Hf Hload) as (Hfl & answer & Hclosed). split_and!.
  - constructor. by exists expiry.
  - rewrite Hfl. apply lookup_delete_eq.
  - by exists (close_flight f answer).
Qed.

(** ** The schema cache: a run, and the theorems at it *)

Definition ex_config : Config := mkConfig 2 65536 32768 (600 * second) (30 * second).
Definition ex_request : Request :=
  mkRequest (mkSchemaRequest "0199a213-0003-7003-8003-000000000003" ex_scope ex_authority
    (Digest ex_capability_document) None ex_limits) ex_capability_document.

Definition ex_page : SchemaPage :=
  mkSchemaPage SchemaSchemaVersion QueryConnector.ContractVersion "0199a213-0003-7003-8003-000000000003" ex_digest
    (Some [mkSchemaEntry "alerts" "severity" "integer" false; mkSchemaEntry "events" "host" "string" true])
    None true ex_digest.
Definition ex_page_document : validatedDocument SchemaPage :=
  get_document schema_page_codec (DecodeSchemaPage CtxLive CtxLive (text_of schema_page_codec ex_page)).

Definition ex_time (s : string) : Time := default zero_time (parse_timestamp s).
Definition ex_at_0 : Time := ex_time "2026-08-26T17:10:00.000000000Z".
Definition ex_at_1 : Time := ex_time "2026-08-26T17:10:02.000000000Z".
Definition ex_at_2 : Time := ex_time "2026-08-26T17:15:00.000000000Z".

Definition ex_key : cacheKey :=
  match validateRequest ex_request ex_at_0 with
  | Ok (key, _) => key
  | Err _ => mkKey "" "" "" "" "" "" ""
  end.
Definition ex_expiry : Time := ex_time "2026-08-26T18:00:00.000000000Z".

Lemma ex_valid_0 : validateRequest ex_request ex_at_0 = Ok (ex_key, ex_expiry).
Proof. vm_compute. reflexivity. Qed.

Lemma ex_valid_2 : validateRequest ex_request ex_at_2 = Ok (ex_key, ex_expiry).
Proof. vm_compute. reflexivity. Qed.

Lemma ex_real : real_capability (Capability ex_request).
Proof. right. exists CtxLive, CtxLive, (text_of capability_codec ex_capability). exact ex_capability_decodes. Qed.

Definition ex_flight : flight := mkFlight false ex_key ex_request false unanswered.

Definition ex_world_0 : world := mkWorld (mkCache ex_config ∅ ∅ 0 0) [] ∅.
Definition ex_world_1 : world :=
  mkWorld (mkCache ex_config ∅ {[ ex_key := 0%nat ]} 0 0) [ex_flight] {[ 0%nat := ex_expiry ]}.

Definition ex_cached : entry :=
  match load_checks ex_config ex_flight ex_expiry (Ok ex_page_document) ex_at_1 with
  | Ok e => e
  | Err _ => mkEntry ex_key ex_page_document "" zero_time zero_time 0 0
  end.

Lemma ex_checks : load_checks ex_config ex_flight ex_expiry (Ok ex_page_document) ex_at_1 = Ok ex_cached.
Proof. vm_compute. reflexivity. Qed.

Lemma Get_run clock request key expiry w : validateRequest request (to_utc clock) = Ok (key, expiry) ->
  Get CtxLive clock request w =
  (Ok (fst (get_locked (to_utc clock) key expiry request w)), snd (get_locked (to_utc clock) key expiry request w)).
Proof.
  intros Hval. unfold Get, pure, atomically, mbind, prog_bind. cbn [contextError]. rewrite Hval. cbn [fst snd].
  by destruct (get_locked _ _ _ _ _).
Qed.

Lemma ex_get_1 : Get CtxLive ex_at_0 ex_request ex_world_0 = (Ok (Waiting 0), ex_world_1).
Proof. rewrite (Get_run ex_at_0 ex_request ex_key ex_expiry) by exact ex_valid_0. reflexivity. Qed.

Definition ex_world_2 : world := load 0 (Ok ex_page_document) ex_at_1 ex_world_1.

Lemma ex_new : New ex_config false false = Ok (mkCache ex_config ∅ ∅ 0 0).
Proof. reflexivity. Qed.

Lemma ex_reachable_1 : reachable 1 ex_world_1.
Proof.
  exists ex_config, (mkCache ex_config ∅ ∅ 0 0). split; [exact ex_new|]. econstructor; [|constructor].
  exact (step_get CtxLive ex_at_0 ex_request (Waiting 0) _ _ ex_real ex_get_1).
Qed.

Lemma ex_reachable_2 : reachable 2 ex_world_2.
Proof.
  exists ex_config, (mkCache ex_config ∅ ∅ 0 0). split; [exact ex_new|].
  econstructor; [exact (step_get CtxLive ex_at_0 ex_request (Waiting 0) _ _ ex_real ex_get_1)|].
  econstructor; [|constructor]. apply (step_load 0 (Ok ex_page_document) ex_at_1 ex_world_1). by exists ex_expiry.
Qed.

(** The second call finds the page. *)
Definition ex_answer : get_answer * world := get_locked (to_utc ex_at_2) ex_key ex_expiry ex_request ex_world_2.
Definition ex_snapshot : Snapshot := snapshot ex_cached true.

Lemma ex_get_2 : Get CtxLive ex_at_2 ex_request ex_world_2 = (Ok (Hit ex_snapshot), snd ex_answer).
Proof.
  rewrite (Get_run ex_at_2 ex_request ex_key ex_expiry) by exact ex_valid_2. fold ex_answer.
  assert (fst ex_answer = Hit ex_snapshot) as -> by (vm_compute; reflexivity). done.
Qed.

Lemma get_serves_only_the_requested_scope_witness :
  before (to_utc ex_at_2) (sn_expiresAt ex_snapshot) = true /\ serves (heap (snd ex_answer)) ex_request ex_snapshot.
Proof.
  destruct (get_serves_only_the_requested_scope 2 ex_world_2 CtxLive ex_at_2 ex_request (Hit ex_snapshot)
    (snd ex_answer) ex_reachable_2 ex_real ex_get_2) as (_ & Hfresh & Hserves).
  split; [exact Hfresh|exact Hserves].
Defined.

Lemma schema_cache_is_sound_witness : totalBytes (cache ex_world_2) = bytes_of_entries (entries (cache ex_world_2)).
Proof. exact (proj1 (schema_cache_is_sound 2 ex_world_2 ex_reachable_2)). Defined.

Lemma load_stores_and_evicts_the_oldest_witness :
  entries (cache ex_world_2) !! ex_key = Some (touched ex_cached 1).
Proof.
  exact (proj1 (load_stores_and_evicts_the_oldest 1 ex_world_1 0 ex_flight ex_expiry (Ok ex_page_document) ex_at_1
    ex_cached ex_reachable_1 ltac:(lia) eq_refl eq_refl eq_refl ex_checks)).
Defined.

Definition ex_target : Invalidation :=
  mkInvalidation (s_OrganizationID ex_scope) (s_TenantID ex_scope) (s_SourceID ex_scope) "" "" "".

Lemma ex_invalidate : exists w', Invalidate CtxLive ex_target ex_world_1 = (Ok tt, w').
Proof.
  assert (Hvalid : invalid_target ex_target = false) by (vm_compute; reflexivity).
  unfold Invalidate, pure, atomically, mbind, prog_bind. cbn [contextError]. rewrite Hvalid. cbn [deny_if].
  by eexists.
Qed.

Lemma invalidated_loads_never_surface_witness :
  exists w' f, Invalidate CtxLive ex_target ex_world_1 = (Ok tt, w') /\ heap w' !! 0%nat = Some f /\
    forall ctx s, wait ctx f <> Some (Ok s).
Proof.
  destruct ex_invalidate as [w' H].
  destruct (proj2 (invalidated_loads_never_surface 1 ex_world_1 CtxLive ex_target w' ex_reachable_1 H)
    ex_key 0%nat w' eq_refl ltac:(vm_compute; reflexivity) (rtc_refl step w')) as (f & Hf & _ & Hw & _).
  exists w', f. split_and!; [exact H|exact Hf|exact Hw].
Defined.

Lemma eviction_terminates_witness :
  over_capacity (enforceCapacityLocked ex_at_2 (cache ex_world_2)) = false.
Proof.
  destruct (cache_reachable_inv 2 ex_world_2 ex_reachable_2) as [Hinv _].
  exact (proj1 (proj2 (eviction_terminates ex_at_2 (cache ex_world_2) 0 (ci_config _ _ Hinv) (ci_accounted _ _ Hinv)))).
Defined.

Lemma unfinished_flights_can_finish_witness :
  flights (cache (load 0 (Err ECanceled) ex_at_1 ex_world_1)) !! ex_key = None.
Proof.
  exact (proj1 (proj2 (unfinished_flights_can_finish 1 ex_world_1 0 ex_flight (Err ECanceled) ex_at_1
    ex_reachable_1 eq_refl eq_refl))).
Defined.
