(* ===== verification/Storage.v ===== *)
(** * internal/workflow: the storage contract and its guard

    The records, transactions, outbox messages and migrations every component stores through
    ([storage_types.go]), their validation ([storage_validate.go]), the classification of
    errors ([storage_errors.go]) and the guard that wraps every driver ([storage_guard.go],
    [storage_ports.go]).  A driver is any implementation of [StorageDriver]: programs over the
    state of the world it stores in.  A context is what [ctx.Err()] says in a state of the
    world, so it may end during a call. *)

From S2P Require Import Prelude GoStrings GoRegexp GoTime GoJson DomainContract Sha256 Domain.

Local Open Scope string_scope.
Local Open Scope Z_scope.

(** ** storage_types.go *)

Definition StorageContractVersion : string := "coh.storage/v1".

Definition MutationPut : string := "put".
Definition MutationDelete : string := "delete".

Record RecordKey : Type := mkRecordKey { rk_Case : CaseRef; rk_Kind : string; rk_ID : string }.

#[export] Instance RecordKey_eq_dec : EqDecision RecordKey.
Proof. solve_decision. Defined.

#[export] Instance RecordKey_countable : Countable RecordKey.
Proof.
  by refine (inj_countable' (fun k => (rk_Case k, rk_Kind k, rk_ID k))
    (fun '(c, k, i) => mkRecordKey c k i) _); intros [].
Defined.

Record MetadataRecord : Type := mkMetadataRecord {
  mr_Key : RecordKey; mr_Schema : string; mr_Revision : Z; mr_Canonical : string; mr_Digest : string }.

Record Mutation : Type := mkMutation {
  mu_Kind : string; mu_Key : RecordKey; mu_ExpectedRevision : Z; mu_Record : option MetadataRecord }.

Record OutboxMessage : Type := mkOutboxMessage {
  om_ID : string; om_Case : CaseRef; om_Topic : string; om_PayloadRef : string; om_PayloadDigest : string }.

Record Transaction : Type := mkTransaction {
  tx_ContractVersion : string; tx_IdempotencyKey : string; tx_Mutations : list Mutation;
  tx_Outbox : list OutboxMessage }.

Record CommitResult : Type := mkCommitResult {
  cr_IdempotencyKey : string; cr_CommitSequence : Z; cr_Replayed : bool;
  cr_RecordVersions : gmap string Z; cr_OutboxIDs : list string }.

Record OutboxClaim : Type := mkOutboxClaim {
  oc_OrganizationID : string; oc_TenantID : string; oc_WorkerID : string; oc_Limit : Z; oc_LeaseUntil : Time }.

Record OutboxDelivery : Type := mkOutboxDelivery { od_Message : OutboxMessage; od_LeaseID : string }.

Definition OutboxDelivered : string := "delivered".
Definition OutboxRetry : string := "retry".
Definition OutboxDeadLetter : string := "dead_letter".

Record OutboxSettlement : Type := mkOutboxSettlement {
  os_OrganizationID : string; os_TenantID : string; os_MessageID : string; os_LeaseID : string;
  os_Outcome : string; os_EvidenceDigest : string }.

Definition MigrationApply : string := "apply".
Definition MigrationRollback : string := "rollback".

Record MigrationPlan : Type := mkMigrationPlan {
  mp_ContractVersion : string; mp_Component : string; mp_Version : Z; mp_Checksum : string;
  mp_BackupDigest : string; mp_Direction : string }.

Definition MigrationPending : string := "pending".
Definition MigrationInProgress : string := "in_progress".
Definition MigrationApplied : string := "applied".
Definition MigrationRolledBack : string := "rolled_back".

Record MigrationResult : Type := mkMigrationResult {
  mg_Component : string; mg_Version : Z; mg_Checksum : string; mg_State : string;
  mg_ResumeDigest : string; mg_Replayed : bool }.

(** ** storage_errors.go *)

(** An error a driver can return: a [StorageError] with its cause, one of the two context
    errors, or any other error wrapping none, one or several *)
Inductive storage_error : Type :=
| StorageError (code : StorageErrorCode) (operation field detail : string) (cause : option storage_error)
| ContextCanceled
| ContextDeadlineExceeded
| OtherError (wrapped : list storage_error).

Definition NewStorageError : StorageErrorCode -> string -> string -> string -> option storage_error -> storage_error :=
  StorageError.

(** [errors.As(err, &storageErr)] *)
Fixpoint as_storage_error (err : storage_error) : option StorageErrorCode :=
  match err with
  | StorageError code _ _ _ _ => Some code
  | ContextCanceled | ContextDeadlineExceeded => None
  | OtherError l =>
      (fix go (l : list storage_error) :=
        match l with
        | [] => None
        | x :: l' => match as_storage_error x with Some code => Some code | None => go l' end
        end) l
  end.

(** [errors.Is(err, target)] for a context error, which the first argument recognises *)
Fixpoint is_context_error (target : storage_error -> bool) (err : storage_error) : bool :=
  target err ||
  match err with
  | StorageError _ _ _ _ (Some cause) => is_context_error target cause
  | OtherError l => existsb (is_context_error target) l
  | _ => false
  end.

Definition is_canceled : storage_error -> bool :=
  is_context_error (fun err => match err with ContextCanceled => true | _ => false end).
Definition is_deadline_exceeded : storage_error -> bool :=
  is_context_error (fun err => match err with ContextDeadlineExceeded => true | _ => false end).

Definition StorageCode (err : storage_error) : StorageErrorCode :=
  match as_storage_error err with
  | Some code => code
  | None =>
      if is_canceled err then StorageCanceled
      else if is_deadline_exceeded err then StorageTimeout
      else StorageUnavailable
  end.

Definition storageContextError (operation : string) (err : storage_error) : storage_error :=
  if is_deadline_exceeded err
  then NewStorageError StorageTimeout operation "context" "operation timed out" (Some err)
  else NewStorageError StorageCanceled operation "context" "operation canceled" (Some err).

Definition normalizeStorageError (operation : string) (err : storage_error) : storage_error :=
  if is_canceled err || is_deadline_exceeded err then storageContextError operation err
  else match as_storage_error err with
       | Some _ => err
       | None => NewStorageError StorageUnavailable operation "driver" "storage driver failed" None
       end.

(** ** storage_validate.go *)

Definition maxTransactionMutations : Z := 256.
Definition maxTransactionOutbox : Z := 256.

Definition domainKinds : list string :=
  ["action"; "approval"; "artifact_manifest"; "case"; "claim"; "evidence"; "finding"; "model"; "query";
   "risk"; "roe"; "run"; "skill"; "task"; "timeline_event"; "vulnerability"; "memory"; "retrieval";
   "subagent_dag"; "case_lifecycle"; "custody_record"; "redaction_record"; "evidence_lifecycle";
   "evidence_artifact_set"; "lifecycle_custody_set"; "lifecycle_disposition"].

Definition invalid (operation field detail : string) : storage_error :=
  NewStorageError StorageInvalidInput operation field detail None.

Definition denied (operation field detail : string) : storage_error :=
  NewStorageError StorageDenied operation field detail None.

Definition validateCase (operation field : string) (value : CaseRef) (optionalCase : bool) : result storage_error unit :=
  deny_if (negb (uuidPattern (OrganizationID value)) || negb (uuidPattern (TenantID value)))
    (invalid operation field "organization and tenant must be UUIDv7 identifiers") ;;
  if String.eqb (CaseID value) "" && optionalCase then Ok tt
  else deny_if (negb (uuidPattern (CaseID value))) (invalid operation field "case must be a UUIDv7 identifier").

Definition validateRecordKey (operation field : string) (key : RecordKey) : result storage_error unit :=
  let optionalCase := String.eqb (rk_Kind key) "model" || String.eqb (rk_Kind key) "skill" ||
                      String.eqb (rk_Kind key) "memory" in
  validateCase operation (field ++ ".case") (rk_Case key) optionalCase ;;
  deny_if (negb (existsb (String.eqb (rk_Kind key)) domainKinds) || negb (uuidPattern (rk_ID key)))
    (invalid operation field "kind and record UUID are invalid") ;;
  deny_if (String.eqb (rk_Kind key) "case" && negb (String.eqb (CaseID (rk_Case key)) (rk_ID key)))
    (denied operation field "case record must be self-bound").

Definition validateDigest (operation field value : string) : result storage_error unit :=
  deny_if (negb (digestPattern value)) (invalid operation field "expected a sha256 digest").

(** [object[name]]; [None] for an absent name, which compares like null *)
Definition member (name : string) (object : list (string * json)) : option json :=
  snd <$> find (fun kv => String.eqb (fst kv) name) object.

(** [object[name] != want], an [any] against a string *)
Definition differs (object : list (string * json)) (name want : string) : bool :=
  match member name object with
  | Some (JStr s) => negb (String.eqb s want)
  | _ => true
  end.

Definition validateRecordEnvelope (record : MetadataRecord) : result storage_error unit :=
  match DecodeUnique (mr_Canonical record) with
  | Ok (JObj object) =>
      let key := mr_Key record in
      deny_if (differs object "schema" (mr_Schema record) || differs object "kind" (rk_Kind key) ||
               differs object "id" (rk_ID key) || differs object "organization_id" (OrganizationID (rk_Case key)) ||
               differs object "tenant_id" (TenantID (rk_Case key)))
        (denied "record" "canonical" "record envelope identity differs from key") ;;
      (if String.eqb (CaseID (rk_Case key)) "" then
         deny_if match member "case_id" object with None | Some JNull => false | Some _ => true end
           (denied "record" "canonical.case_id" "catalog record must use null case identity")
       else
         deny_if (differs object "case_id" (CaseID (rk_Case key)))
           (denied "record" "canonical.case_id" "record case identity differs from key")) ;;
      deny_if match member "revision" object with
              | Some (JNum revision) => negb (String.eqb revision (format_uint (mr_Revision record)))
              | _ => true
              end
        (denied "record" "canonical.revision" "record revision differs from envelope")
  | _ => Err (denied "record" "canonical" "record envelope is invalid")
  end.

Definition ValidateMetadataRecord (record : MetadataRecord) : result storage_error unit :=
  validateRecordKey "record" "key" (mr_Key record) ;;
  deny_if (negb (String.eqb (mr_Schema record) "coh.domain/v1") || (mr_Revision record =? 0))
    (invalid "record" "schema" "schema and positive revision are required") ;;
  validateDigest "record" "digest" (mr_Digest record) ;;
  deny_if match Canonicalize (mr_Canonical record) with
          | Ok canonical => negb (String.eqb canonical (mr_Canonical record))
          | Err _ => true
          end
    (denied "record" "canonical" "record is not exact COH-CJ-1 canonical JSON") ;;
  deny_if (negb (String.eqb (mr_Digest record) (digest (mr_Canonical record))))
    (denied "record" "digest" "record digest does not match canonical bytes") ;;
  validateRecordEnvelope record.

Definition validOpaque (value : string) (minimum maximum : Z) : bool :=
  valid_string value && (minimum <=? len value) && (len value <=? maximum) && String.eqb (trim_space value) value.

Definition recordKeyString (key : RecordKey) : string :=
  OrganizationID (rk_Case key) ++ "/" ++ TenantID (rk_Case key) ++ "/" ++ CaseID (rk_Case key) ++ "/" ++
  rk_Kind key ++ "/" ++ rk_ID key.

Fixpoint hasDuplicate (values : list string) : bool :=
  match values with
  | a :: ((b :: _) as values') => String.eqb b a || hasDuplicate values'
  | _ => false
  end.

(** The digits of a positive number in front of [digits]; a number below [10 ^ fuel] ends in time. *)
Fixpoint itoa_digits (fuel : nat) (value : Z) (digits : string) : string :=
  match fuel with
  | O => digits
  | S fuel =>
      if 0 <? value then itoa_digits fuel (value / 10) (String (byte_of (48 + value mod 10)) digits) else digits
  end.

(** Indexes of transactions are below 256. *)
Definition itoa (value : Z) : string := if value =? 0 then "0" else itoa_digits 20 value "".

Definition validateMutation (operation field : string) (mutation : Mutation) : result storage_error unit :=
  validateRecordKey operation (field ++ ".key") (mu_Key mutation) ;;
  if String.eqb (mu_Kind mutation) MutationPut then
    match mu_Record mutation with
    | Some record =>
        deny_if (negb (bool_decide (mr_Key record = mu_Key mutation)) ||
                 negb (mr_Revision record =? u64 (mu_ExpectedRevision mutation + 1)))
          (invalid operation field "put record must match key and next revision") ;;
        ValidateMetadataRecord record
    | None => Err (invalid operation field "put record must match key and next revision")
    end
  else if String.eqb (mu_Kind mutation) MutationDelete then
    deny_if (match mu_Record mutation with Some _ => true | None => false end ||
             (mu_ExpectedRevision mutation =? 0))
      (invalid operation field "delete requires an existing expected revision and no record")
  else Err (invalid operation (field ++ ".kind") "unsupported mutation kind").

Definition validateOutboxMessage (operation field : string) (message : OutboxMessage) : result storage_error unit :=
  deny_if (negb (uuidPattern (om_ID message)) || negb (tokenPattern (om_Topic message)))
    (invalid operation field "message UUID and topic are invalid") ;;
  validateCase operation (field ++ ".case") (om_Case message) false ;;
  deny_if (negb (validOpaque (om_PayloadRef message) 1 1024))
    (invalid operation (field ++ ".payload_ref") "bounded immutable reference is required") ;;
  validateDigest operation (field ++ ".payload_digest") (om_PayloadDigest message).

(** [for index, value := range values { ... }], stopping at the first error *)
Fixpoint for_index {E A} (f : Z -> A -> result E unit) (index : Z) (l : list A) : result E unit :=
  match l with
  | [] => Ok tt
  | x :: l' => f index x ;; for_index f (index + 1) l'
  end.

Definition in_scope (organizationID tenantID : string) (c : CaseRef) : bool :=
  String.eqb (OrganizationID c) organizationID && String.eqb (TenantID c) tenantID.

Definition ValidateTransaction (transaction : Transaction) : result storage_error unit :=
  let operation := "transact" in
  deny_if (negb (String.eqb (tx_ContractVersion transaction) StorageContractVersion))
    (invalid operation "contract_version" "unsupported storage contract") ;;
  deny_if (negb (validOpaque (tx_IdempotencyKey transaction) 1 256))
    (invalid operation "idempotency_key" "bounded UTF-8 key is required") ;;
  match tx_Mutations transaction with
  | [] => Err (invalid operation "transaction" "mutation or outbox count is outside bounds")
  | first :: _ =>
      deny_if ((maxTransactionMutations <? Z.of_nat (length (tx_Mutations transaction))) ||
               (maxTransactionOutbox <? Z.of_nat (length (tx_Outbox transaction))))
        (invalid operation "transaction" "mutation or outbox count is outside bounds") ;;
      let organizationID := OrganizationID (rk_Case (mu_Key first)) in
      let tenantID := TenantID (rk_Case (mu_Key first)) in
      for_index (fun index mutation =>
        let field := "mutations[" ++ itoa index ++ "]" in
        validateMutation operation field mutation ;;
        deny_if (negb (in_scope organizationID tenantID (rk_Case (mu_Key mutation))))
          (denied operation (field ++ ".key") "transaction crosses organization or tenant scope"))
        0 (tx_Mutations transaction) ;;
      let keys := map (fun mutation => recordKeyString (mu_Key mutation)) (tx_Mutations transaction) in
      deny_if (negb (is_sorted keys) || hasDuplicate keys)
        (invalid operation "mutations" "mutations must be uniquely sorted by record key") ;;
      for_index (fun index message =>
        let field := "outbox[" ++ itoa index ++ "]" in
        validateOutboxMessage operation field message ;;
        deny_if (negb (in_scope organizationID tenantID (om_Case message)))
          (denied operation (field ++ ".case") "transaction crosses organization or tenant scope"))
        0 (tx_Outbox transaction) ;;
      let outboxIDs := map om_ID (tx_Outbox transaction) in
      deny_if (negb (is_sorted outboxIDs) || hasDuplicate outboxIDs)
        (invalid operation "outbox" "outbox messages must be uniquely sorted by ID")
  end.

Definition ValidateOutboxClaim (claim : OutboxClaim) : result storage_error unit :=
  deny_if (negb (uuidPattern (oc_OrganizationID claim)) || negb (uuidPattern (oc_TenantID claim)) ||
           negb (tokenPattern (oc_WorkerID claim)))
    (invalid "claim_outbox" "scope" "organization, tenant, and worker are invalid") ;;
  deny_if ((oc_Limit claim =? 0) || (256 <? oc_Limit claim) || is_zero (oc_LeaseUntil claim) ||
           negb (is_utc (oc_LeaseUntil claim)))
    (invalid "claim_outbox" "lease" "limit and UTC lease deadline are required").

Definition ValidateOutboxSettlement (settlement : OutboxSettlement) : result storage_error unit :=
  deny_if (negb (uuidPattern (os_OrganizationID settlement)) || negb (uuidPattern (os_TenantID settlement)))
    (invalid "settle_outbox" "scope" "organization and tenant must be UUIDv7 identifiers") ;;
  deny_if (negb (uuidPattern (os_MessageID settlement)) || negb (uuidPattern (os_LeaseID settlement)))
    (invalid "settle_outbox" "identity" "message and lease must be UUIDv7 identifiers") ;;
  deny_if (negb (existsb (String.eqb (os_Outcome settlement)) [OutboxDelivered; OutboxRetry; OutboxDeadLetter]))
    (invalid "settle_outbox" "outcome" "unsupported outbox outcome") ;;
  if negb (String.eqb (os_EvidenceDigest settlement) "")
  then validateDigest "settle_outbox" "evidence_digest" (os_EvidenceDigest settlement)
  else Ok tt.

Definition ValidateMigrationPlan (plan : MigrationPlan) : result storage_error unit :=
  deny_if (negb (String.eqb (mp_ContractVersion plan) StorageContractVersion) ||
           negb (tokenPattern (mp_Component plan)) || (mp_Version plan =? 0))
    (invalid "migrate" "plan" "contract, component, and version are required") ;;
  validateDigest "migrate" "checksum" (mp_Checksum plan) ;;
  validateDigest "migrate" "backup_digest" (mp_BackupDigest plan) ;;
  deny_if (negb (String.eqb (mp_Direction plan) MigrationApply) &&
           negb (String.eqb (mp_Direction plan) MigrationRollback))
    (invalid "migrate" "direction" "unsupported migration direction").

(** ** storage_ports.go and storage_guard.go *)

Inductive done_reason : Type := DoneCanceled | DoneDeadlineExceeded.

(** A context: nil, or what [ctx.Err()] says in a state of the world *)
Definition context (W : Type) : Type := option (W -> option done_reason).

Definition done_error (reason : done_reason) : storage_error :=
  match reason with DoneCanceled => ContextCanceled | DoneDeadlineExceeded => ContextDeadlineExceeded end.

Definition ctx_err {W} (ctx : context W) (w : W) : option storage_error :=
  match ctx with Some err => done_error <$> err w | None => None end.

(** The [Repository] interface that drivers implement.  The context a driver gets is part of
    the world it acts on. *)
Class StorageDriver (W : Type) : Type := {
  driver_Get : RecordKey -> prog W storage_error MetadataRecord;
  driver_Transact : Transaction -> prog W storage_error CommitResult;
  driver_ClaimOutbox : OutboxClaim -> prog W storage_error (list OutboxDelivery);
  driver_SettleOutbox : OutboxSettlement -> prog W storage_error unit;
  driver_MigrationStatus : string -> prog W storage_error MigrationResult;
  driver_Migrate : MigrationPlan -> prog W storage_error MigrationResult }.

Definition validateCommitResult (transaction : Transaction) (value : CommitResult) : result storage_error unit :=
  deny_if (negb (String.eqb (cr_IdempotencyKey value) (tx_IdempotencyKey transaction)) ||
           (cr_CommitSequence value =? 0))
    (denied "transact" "result" "driver returned an invalid commit identity") ;;
  deny_if (negb (Nat.eqb (size (cr_RecordVersions value)) (length (tx_Mutations transaction))) ||
           negb (Nat.eqb (length (cr_OutboxIDs value)) (length (tx_Outbox transaction))))
    (denied "transact" "result" "driver returned an incomplete commit result") ;;
  for_each (fun mutation =>
      let want := if String.eqb (mu_Kind mutation) MutationDelete then 0
                  else u64 (mu_ExpectedRevision mutation + 1) in
      deny_if match cr_RecordVersions value !! recordKeyString (mu_Key mutation) with
              | Some version => negb (version =? want)
              | None => true
              end
        (denied "transact" "result.record_versions" "driver returned a different revision"))
    (tx_Mutations transaction) ;;
  deny_if (negb (is_sorted (cr_OutboxIDs value)) || hasDuplicate (cr_OutboxIDs value))
    (denied "transact" "result.outbox_ids" "outbox identities are not uniquely sorted") ;;
  for_each (fun ids =>
      deny_if (negb (String.eqb (fst ids) (om_ID (snd ids))))
        (denied "transact" "result.outbox_ids" "outbox identity differs from transaction"))
    (combine (cr_OutboxIDs value) (tx_Outbox transaction)).

Definition validateMigrationResult (value : MigrationResult) : result storage_error unit :=
  deny_if (negb (tokenPattern (mg_Component value)))
    (invalid "migration_result" "identity" "component is invalid") ;;
  if String.eqb (mg_State value) MigrationPending && (mg_Version value =? 0) &&
     String.eqb (mg_Checksum value) "" && String.eqb (mg_ResumeDigest value) ""
  then Ok tt
  else
    deny_if (mg_Version value =? 0)
      (invalid "migration_result" "version" "positive migration version is required") ;;
    validateDigest "migration_result" "checksum" (mg_Checksum value) ;;
    (if negb (String.eqb (mg_ResumeDigest value) "")
     then validateDigest "migration_result" "resume_digest" (mg_ResumeDigest value) else Ok tt) ;;
    deny_if (negb (existsb (String.eqb (mg_State value))
                [MigrationPending; MigrationInProgress; MigrationApplied; MigrationRolledBack]))
      (invalid "migration_result" "state" "unsupported migration state").

Section guard.
Context {W : Type} {driver : StorageDriver W}.
Local Notation storage A := (prog W storage_error A).

Definition contextReady (ctx : context W) (operation : string) : storage unit := fun w =>
  match ctx with
  | None => (Err (invalid operation "context" "context is required"), w)
  | Some _ =>
      match ctx_err ctx w with
      | Some err => (Err (storageContextError operation err), w)
      | None => (Ok tt, w)
      end
  end.

(** The call of the driver and [finishDriverCall] on its error *)
Definition finishDriverCall {A} (ctx : context W) (operation : string) (call : storage A) : storage A := fun w =>
  let '(answer, w) := call w in
  match ctx_err ctx w with
  | Some contextErr => (Err (storageContextError operation contextErr), w)
  | None =>
      match answer with
      | Ok value => (Ok value, w)
      | Err err => (Err (normalizeStorageError operation err), w)
      end
  end.

(** [guardedStorage].  Cloning a value the caller cannot share with the driver is the value. *)
Definition Get (ctx : context W) (key : RecordKey) : storage MetadataRecord :=
  contextReady ctx "get" ;;
  pure (validateRecordKey "get" "key" key) ;;
  record ← finishDriverCall ctx "get" (driver_Get key);
  pure (deny_if (negb (bool_decide (mr_Key record = key)))
    (denied "get" "result.key" "driver returned a different record identity")) ;;
  pure (or_err (ValidateMetadataRecord record) (denied "get" "result" "driver returned an invalid record")) ;;
  mret record.

Definition Transact (ctx : context W) (transaction : Transaction) : storage CommitResult :=
  contextReady ctx "transact" ;;
  pure (ValidateTransaction transaction) ;;
  value ← finishDriverCall ctx "transact" (driver_Transact transaction);
  pure (validateCommitResult transaction value) ;;
  mret value.

Definition ClaimOutbox (ctx : context W) (claim : OutboxClaim) : storage (list OutboxDelivery) :=
  let operation := "claim_outbox" in
  contextReady ctx operation ;;
  pure (ValidateOutboxClaim claim) ;;
  deliveries ← finishDriverCall ctx operation (driver_ClaimOutbox claim);
  pure (deny_if (oc_Limit claim <? Z.of_nat (length deliveries))
    (denied operation "result" "driver exceeded the claim limit")) ;;
  pure (for_index (fun index delivery =>
      or_err (validateOutboxMessage operation ("result[" ++ itoa index ++ "].message") (od_Message delivery))
        (denied operation "result" "driver returned an invalid outbox message") ;;
      deny_if (negb (uuidPattern (od_LeaseID delivery)) ||
               negb (in_scope (oc_OrganizationID claim) (oc_TenantID claim) (om_Case (od_Message delivery))))
        (denied operation "result" "driver returned an invalid lease or cross-scope message"))
    0 deliveries) ;;
  let ids := map (fun delivery => om_ID (od_Message delivery)) deliveries in
  pure (deny_if (negb (is_sorted ids) || hasDuplicate ids)
    (denied operation "result" "driver returned unsorted or duplicate messages")) ;;
  mret deliveries.

Definition SettleOutbox (ctx : context W) (settlement : OutboxSettlement) : storage unit :=
  contextReady ctx "settle_outbox" ;;
  pure (ValidateOutboxSettlement settlement) ;;
  finishDriverCall ctx "settle_outbox" (driver_SettleOutbox settlement).

Definition MigrationStatus (ctx : context W) (component : string) : storage MigrationResult :=
  let operation := "migration_status" in
  contextReady ctx operation ;;
  pure (deny_if (negb (tokenPattern component)) (invalid operation "component" "component is invalid")) ;;
  value ← finishDriverCall ctx operation (driver_MigrationStatus component);
  pure (deny_if (negb (is_ok (validateMigrationResult value)) || negb (String.eqb (mg_Component value) component))
    (denied operation "result" "driver returned an invalid migration status")) ;;
  mret value.

Definition Migrate (ctx : context W) (plan : MigrationPlan) : storage MigrationResult :=
  let operation := "migrate" in
  contextReady ctx operation ;;
  pure (ValidateMigrationPlan plan) ;;
  value ← finishDriverCall ctx operation (driver_Migrate plan);
  pure (deny_if (negb (is_ok (validateMigrationResult value)) ||
                 negb (String.eqb (mg_Component value) (mp_Component plan)) ||
                 negb (mg_Version value =? mp_Version plan) ||
                 negb (String.eqb (mg_Checksum value) (mp_Checksum plan)))
    (denied operation "result" "driver returned a migration result for different inputs")) ;;
  pure (deny_if ((String.eqb (mp_Direction plan) MigrationApply &&
                  negb (String.eqb (mg_State value) MigrationApplied)) ||
                 (String.eqb (mp_Direction plan) MigrationRollback &&
                  negb (String.eqb (mg_State value) MigrationRolledBack)))
    (denied operation "result.state" "driver returned an incompatible migration state")) ;;
  mret value.
End guard.

(** [GuardStorage]; a nil driver is [None]. *)
Definition GuardStorage {W} (driver : option (StorageDriver W)) : result storage_error (StorageDriver W) :=
  match driver with
  | None => Err (NewStorageError StorageInvalidInput "guard" "driver" "driver is required" None)
  | Some driver => Ok driver
  end.
