(* ===== verification/StorageFacts.v ===== *)
(** * The storage guard: theorems

    Whatever a driver does, the guard sends it only valid transactions, hands back only sealed
    records and complete commit results, and fails only with classified errors. *)

From S2P Require Import Prelude GoStrings GoRegexp GoTime GoJson DomainContract Sha256 Domain Storage.

Local Open Scope string_scope.
Local Open Scope Z_scope.

(** ** Errors are classified *)

Definition classified (err : storage_error) : Prop := exists code, as_storage_error err = Some code.

(** A check that fails only with classified errors *)
Definition classifies {A} (r : result storage_error A) : Prop := forall err, r = Err err -> classified err.

Create HintDb storage.

Lemma classified_new code operation field detail cause :
  classified (NewStorageError code operation field detail cause).
Proof. by exists code. Qed.

Lemma classifies_deny b err : classified err -> classifies (deny_if b err).
Proof. intros Hc e [_ <-]%deny_if_err. done. Qed.

Lemma classifies_bind {A B} (m : result storage_error A) (f : A -> result storage_error B) :
  classifies m -> (forall a, classifies (f a)) -> classifies (m ≫= f).
Proof. intros Hm Hf e [H|(a & _ & H)]%bind_err; [by apply Hm|by eapply Hf]. Qed.

Lemma classifies_ok {A} (a : A) : classifies (Ok a).
Proof. by intros ?. Qed.

Lemma classifies_err {A} err : classified err -> classifies (A := A) (Err err).
Proof. by intros H e [= <-]. Qed.

Lemma classifies_or_err {E A} (m : result E A) err : classified err -> classifies (or_err m err).
Proof. destruct m; [by intros _ ?|]. by intros H err' [= <-]. Qed.

Lemma classifies_for_each {A} (f : A -> result storage_error unit) l :
  (forall x, classifies (f x)) -> classifies (for_each f l).
Proof. intros Hf. induction l; cbn; [apply classifies_ok|by apply classifies_bind]. Qed.

Lemma classifies_for_index {A} (f : Z -> A -> result storage_error unit) l :
  (forall i x, classifies (f i x)) -> forall i, classifies (for_index f i l).
Proof. intros Hf. induction l; intros i; cbn; [apply classifies_ok|by apply classifies_bind]. Qed.

Lemma classified_invalid operation field detail : classified (invalid operation field detail).
Proof. apply classified_new. Qed.

Lemma classified_denied operation field detail : classified (denied operation field detail).
Proof. apply classified_new. Qed.

#[local] Hint Resolve classified_new classified_invalid classified_denied classifies_ok : storage.

(** Walks through a check; what it calls is in the hint database. *)
Ltac classify :=
  cbv zeta;
  repeat first
    [ solve [auto 1 with storage nocore] | apply classifies_deny | apply classifies_err | apply classifies_or_err
    | apply classifies_for_each; intros; cbv zeta | apply classifies_for_index; intros; cbv zeta
    | apply classifies_bind; [|intros] | case_match ].

Lemma validateCase_classifies operation field value optional : classifies (validateCase operation field value optional).
Proof. unfold validateCase. classify. Qed.
#[local] Hint Resolve validateCase_classifies : storage.

Lemma validateRecordKey_classifies operation field key : classifies (validateRecordKey operation field key).
Proof. unfold validateRecordKey. classify. Qed.
#[local] Hint Resolve validateRecordKey_classifies : storage.

Lemma validateDigest_classifies operation field value : classifies (validateDigest operation field value).
Proof. unfold validateDigest. classify. Qed.
#[local] Hint Resolve validateDigest_classifies : storage.

Lemma ValidateMetadataRecord_classifies record : classifies (ValidateMetadataRecord record).
Proof. unfold ValidateMetadataRecord, validateRecordEnvelope. cbv zeta. classify. Qed.
#[local] Hint Resolve ValidateMetadataRecord_classifies : storage.

Lemma validateMutation_classifies operation field m : classifies (validateMutation operation field m).
Proof. unfold validateMutation. classify. Qed.
#[local] Hint Resolve validateMutation_classifies : storage.

Lemma validateOutboxMessage_classifies operation field m : classifies (validateOutboxMessage operation field m).
Proof. unfold validateOutboxMessage. classify. Qed.
#[local] Hint Resolve validateOutboxMessage_classifies : storage.

Lemma ValidateTransaction_classifies tx : classifies (ValidateTransaction tx).
Proof. unfold ValidateTransaction. classify. Qed.

Lemma validateCommitResult_classifies tx value : classifies (validateCommitResult tx value).
Proof. unfold validateCommitResult. classify. Qed.

Lemma context_error_classified operation err : classified (storageContextError operation err).
Proof. unfold storageContextError. destruct (is_deadline_exceeded err); apply classified_new. Qed.

Lemma normalized_classified operation err : classified (normalizeStorageError operation err).
Proof.
  unfold normalizeStorageError. destruct (_ || _); [apply context_error_classified|].
  destruct (as_storage_error err) eqn:E; [by exists s|apply classified_new].
Qed.

(** Programs that fail only with classified errors *)
Definition prog_classifies {W A} (m : prog W storage_error A) : Prop :=
  forall w err w', m w = (Err err, w') -> classified err.

Lemma prog_classifies_bind {W A B} (m : prog W storage_error A) (f : A -> prog W storage_error B) :
  prog_classifies m -> (forall a, prog_classifies (f a)) -> prog_classifies (m ≫= f).
Proof.
  intros Hm Hf w err w'. unfold mbind, prog_bind. destruct (m w) as [[a|e] w1] eqn:E.
  - apply Hf.
  - intros [= -> ->]. by eapply Hm.
Qed.

Lemma prog_classifies_pure {W A} (r : result storage_error A) : classifies r -> prog_classifies (W := W) (pure r).
Proof. intros H w err w' [= ->]. by apply H. Qed.

Lemma prog_classifies_ret {W A} (a : A) : prog_classifies (W := W) (mret a).
Proof. intros w err w'. done. Qed.

Lemma contextReady_classifies {W} (ctx : context W) operation : prog_classifies (contextReady ctx operation).
Proof.
  intros w err w'. unfold contextReady. destruct ctx as [f|]; [|intros [= <- _]; apply classified_invalid].
  destruct (ctx_err _ w); [|done]. intros [= <- _]. apply context_error_classified.
Qed.

Lemma finishDriverCall_classifies {W A} (ctx : context W) operation (call : prog W storage_error A) :
  prog_classifies (finishDriverCall ctx operation call).
Proof.
  intros w err w'. unfold finishDriverCall. destruct (call w) as [[a|e] w1]; destruct (ctx_err ctx w1);
    intros [= <- _]; first [apply context_error_classified | apply normalized_classified].
Qed.

Lemma finishDriverCall_ok {W A} (ctx : context W) operation (call : prog W storage_error A) w a w' :
  finishDriverCall ctx operation call w = (Ok a, w') -> call w = (Ok a, w').
Proof.
  unfold finishDriverCall. destruct (call w) as [[b|e] w1]; destruct (ctx_err ctx w1); done.
Qed.

Lemma contextReady_ok {W} (ctx : context W) operation w u w' :
  contextReady ctx operation w = (Ok u, w') -> w' = w.
Proof.
  unfold contextReady. destruct ctx as [f|]; [|done]. destruct (ctx_err _ w); [done|]. by intros [= _ ->].
Qed.

(** ** Keys *)

Lemma validateCase_ok operation field value optional :
  validateCase operation field value optional = Ok tt <->
  uuidPattern (OrganizationID value) = true /\ uuidPattern (TenantID value) = true /\
  (CaseID value = "" /\ optional = true \/ uuidPattern (CaseID value) = true).
Proof.
  unfold validateCase. rewrite seq_ok, deny_if_ok, orb_false_iff, !negb_false_iff.
  destruct (String.eqb_spec (CaseID value) "") as [E|E]; destruct optional; cbn [andb];
    rewrite ?deny_if_ok, ?negb_false_iff; intuition congruence.
Qed.

(** What validation says of the identifiers of a key *)
Definition key_shape (key : RecordKey) : Prop :=
  uuidPattern (OrganizationID (rk_Case key)) = true /\ uuidPattern (TenantID (rk_Case key)) = true /\
  (CaseID (rk_Case key) = "" \/ uuidPattern (CaseID (rk_Case key)) = true) /\
  uuidPattern (rk_ID key) = true.

Lemma validateRecordKey_ok operation field key : validateRecordKey operation field key = Ok tt -> key_shape key.
Proof.
  unfold validateRecordKey. cbv zeta. rewrite !seq_ok, validateCase_ok, !deny_if_ok.
  intros ((Ho & Ht & Hc) & Hk & _). bool_split. split_and!; tauto.
Qed.

Lemma uuid_head s : uuidPattern s = true -> exists c s', s = String c s' /\ c <> "/"%char.
Proof.
  intros H. pose proof (uuidPattern_length s H) as Hlen. destruct s as [|c s]; [done|].
  exists c, s. split; [done|]. intros ->.
  assert (Hh : forall n, alphabet_in (fun c => negb (Ascii.eqb c "/")) (r_times n hex_class) = true)
    by (intros n; by apply alphabet_times; vm_compute).
  assert (Ha : alphabet_in (fun c => negb (Ascii.eqb c "/")) uuid_regex = true).
  { unfold uuid_regex. cbn [r_seq alphabet_in]. rewrite !Hh. vm_compute. reflexivity. }
  by pose proof (matches_alphabet _ _ _ Ha H).
Qed.

(** Two valid keys with one text are one key: the identifiers have a fixed length and the case
    identifier, when it is not empty, does not begin with the separator. *)
Lemma recordKeyString_inj k k' : key_shape k -> key_shape k' -> recordKeyString k = recordKeyString k' -> k = k'.
Proof.
  intros (Ho & Ht & Hc & Hi) (Ho' & Ht' & Hc' & Hi') H.
  destruct k as [[o t c] kind i], k' as [[o' t' c'] kind' i']. unfold recordKeyString in H. cbn in *.
  apply uuidPattern_length in Ho, Ht, Hi, Ho', Ht', Hi'.
  apply append_inj_len in H as [-> H]; [|congruence]. injection H as H.
  apply append_inj_len in H as [-> H]; [|congruence]. injection H as H.
  assert (Hcase : c = c' /\ kind ++ "/" ++ i = kind' ++ "/" ++ i').
  { destruct Hc as [->|Hc], Hc' as [->|Hc'].
    - by injection H.
    - apply uuid_head in Hc' as (x & s & -> & Hx). injection H as <- _. done.
    - apply uuid_head in Hc as (x & s & -> & Hx). injection H as -> _. done.
    - apply append_inj_len in H as [-> H]; [|apply uuidPattern_length in Hc, Hc'; congruence].
      by injection H. }
  destruct Hcase as [-> Hkind].
  assert (Hlen : String.length kind = String.length kind').
  { apply (f_equal String.length) in Hkind. rewrite !length_append in Hkind. cbn in Hkind. lia. }
  apply append_inj_len in Hkind as [-> Hkind]; [|done]. by injection Hkind as ->.
Qed.

(** ** Valid transactions *)

Lemma for_index_ok {E A} (f : Z -> A -> result E unit) (P : A -> Prop) l :
  (forall i x, f i x = Ok tt -> P x) -> forall i, for_index f i l = Ok tt -> Forall P l.
Proof.
  intros Hf. induction l as [|x l IH]; intros i; cbn; [constructor|]. rewrite seq_ok. intros [Hx Hl].
  constructor; eauto.
Qed.

(** A stored record is the canonical document of its key, sealed by its digest. *)
Record record_sealed (r : MetadataRecord) : Prop := {
  sealed_key : key_shape (mr_Key r);
  sealed_revision : mr_Revision r <> 0;
  sealed_canonical : Canonicalize (mr_Canonical r) = Ok (mr_Canonical r);
  sealed_digest : mr_Digest r = digest (mr_Canonical r);
  sealed_envelope : validateRecordEnvelope r = Ok tt }.

Lemma record_valid_sealed r : ValidateMetadataRecord r = Ok tt -> record_sealed r.
Proof.
  unfold ValidateMetadataRecord. rewrite !seq_ok, !deny_if_ok. intros (Hk & Hs & _ & Hc & Hd & He).
  apply orb_false_iff in Hs as [_ Hrev%Z.eqb_neq].
  destruct (Canonicalize (mr_Canonical r)) as [c|] eqn:E; [|done].
  apply negb_false_iff, String.eqb_eq in Hc, Hd. subst c. split; try done. by eapply validateRecordKey_ok.
Qed.

(** A put stores the next revision of its key; a delete names an existing one. *)
Definition mutation_sound (m : Mutation) : Prop :=
  key_shape (mu_Key m) /\
  ((mu_Kind m = MutationPut /\ exists r, mu_Record m = Some r /\ mr_Key r = mu_Key m /\
      mr_Revision r = mu_ExpectedRevision m + 1 /\ record_sealed r) \/
   (mu_Kind m = MutationDelete /\ mu_Record m = None /\ mu_ExpectedRevision m <> 0)).

Lemma next_revision_exact n r : is_u64 n -> r = u64 (n + 1) -> r <> 0 -> r = n + 1.
Proof.
  unfold is_u64, u64. intros Hn -> H. destruct (decide (n + 1 = 2 ^ 64)) as [E|E].
  - by rewrite E, Z_mod_same_full in H.
  - apply Z.mod_small. lia.
Qed.

Lemma validateMutation_ok operation field m : is_u64 (mu_ExpectedRevision m) ->
  validateMutation operation field m = Ok tt -> mutation_sound m.
Proof.
  intros Hu. unfold validateMutation. rewrite seq_ok. intros [Hk%validateRecordKey_ok H]. split; [done|].
  destruct (String.eqb_spec (mu_Kind m) MutationPut) as [E|_].
  - left. split; [done|]. destruct (mu_Record m) as [r|]; [|done]. apply seq_ok in H as [H Hv].
    apply deny_if_ok in H. bool_split. apply bool_decide_eq_true in H. apply record_valid_sealed in Hv.
    match goal with H : (_ =? _) = true |- _ => apply Z.eqb_eq in H end.
    exists r. split_and!; try done. apply next_revision_exact; [done|done|apply Hv].
  - destruct (String.eqb_spec (mu_Kind m) MutationDelete) as [E|_]; [|done]. right.
    apply deny_if_ok in H. bool_split. destruct (mu_Record m); [done|]. split_and!; [done|done|by apply Z.eqb_neq].
Qed.

(** One tenant, distinct keys in order, sound mutations, distinct outbox messages *)
Record transaction_sound (tx : Transaction) : Prop := {
  ts_nonempty : tx_Mutations tx <> [];
  ts_mutations : Forall mutation_sound (tx_Mutations tx);
  ts_keys : NoDup (map mu_Key (tx_Mutations tx));
  ts_tenant : exists organization tenant,
    Forall (fun m => OrganizationID (rk_Case (mu_Key m)) = organization /\ TenantID (rk_Case (mu_Key m)) = tenant)
      (tx_Mutations tx) /\
    Forall (fun m => OrganizationID (om_Case m) = organization /\ TenantID (om_Case m) = tenant) (tx_Outbox tx);
  ts_outbox : NoDup (map om_ID (tx_Outbox tx)) }.

Definition transaction_typed (tx : Transaction) : Prop :=
  Forall (fun m => is_u64 (mu_ExpectedRevision m)) (tx_Mutations tx).

Lemma in_scope_true o t c : negb (in_scope o t c) = false -> OrganizationID c = o /\ TenantID c = t.
Proof. unfold in_scope. rewrite negb_false_iff, andb_true_iff, !String.eqb_eq. done. Qed.

Lemma unique_sorted l : negb (is_sorted l) || hasDuplicate l = false -> NoDup l.
Proof.
  rewrite orb_false_iff, negb_false_iff. intros [Hs Hd]. apply increasing_nodup. by apply adjacent_equal_iff.
Qed.

Lemma for_index_forall {E A} (f : Z -> A -> result E unit) l i :
  for_index f i l = Ok tt -> Forall (fun x => exists j, f j x = Ok tt) l.
Proof. apply for_index_ok. eauto. Qed.

Lemma ValidateTransaction_sound tx : transaction_typed tx -> ValidateTransaction tx = Ok tt -> transaction_sound tx.
Proof.
  intros Hty. unfold ValidateTransaction. cbv zeta. rewrite !seq_ok. intros (_ & _ & H).
  destruct (tx_Mutations tx) as [|m0 ms] eqn:Hms; [done|]. rewrite !seq_ok, !deny_if_ok in H.
  destruct H as (_ & Hmut & Hkeys & Hout & Hids).
  assert (Hne : tx_Mutations tx <> []) by (by rewrite Hms).
  apply for_index_forall in Hmut, Hout. rewrite <- Hms in *. clear Hms ms.
  assert (Hm : Forall (fun m => mutation_sound m /\ OrganizationID (rk_Case (mu_Key m)) = OrganizationID (rk_Case (mu_Key m0)) /\
    TenantID (rk_Case (mu_Key m)) = TenantID (rk_Case (mu_Key m0))) (tx_Mutations tx)).
  { apply Forall_forall. intros m Hin.
    destruct (proj1 (Forall_forall _ _) Hmut m Hin) as [i [Hv Hs]%seq_ok].
    apply deny_if_ok, in_scope_true in Hs. split; [|done].
    eapply validateMutation_ok; [|done]. exact (proj1 (Forall_forall _ _) Hty m Hin). }
  apply unique_sorted in Hkeys, Hids. split; [done| | | |done].
  - eapply Forall_impl; [exact Hm|]. by intros m (? & _).
  - rewrite <- (map_map mu_Key recordKeyString) in Hkeys. by apply NoDup_fmap_1 in Hkeys.
  - exists (OrganizationID (rk_Case (mu_Key m0))), (TenantID (rk_Case (mu_Key m0))). split.
    + eapply Forall_impl; [exact Hm|]. by intros m (_ & ?).
    + eapply Forall_impl; [exact Hout|]. intros m (i & [_ Hs]%seq_ok). by apply deny_if_ok, in_scope_true in Hs.
Qed.

(** ** Complete commit results *)

Definition committed_version (m : Mutation) : Z :=
  if String.eqb (mu_Kind m) MutationDelete then 0 else u64 (mu_ExpectedRevision m + 1).

Record commit_matches (tx : Transaction) (value : CommitResult) : Prop := {
  cm_idempotency : cr_IdempotencyKey value = tx_IdempotencyKey tx;
  cm_sequence : cr_CommitSequence value <> 0;
  cm_versions : forall key version, key_shape key ->
    cr_RecordVersions value !! recordKeyString key = Some version <->
    exists m, m ∈ tx_Mutations tx /\ mu_Key m = key /\ version = committed_version m;
  cm_outbox : cr_OutboxIDs value = map om_ID (tx_Outbox tx) }.

Lemma combine_same (ids : list string) (messages : list OutboxMessage) : length ids = length messages ->
  Forall (fun p => negb (String.eqb (fst p) (om_ID (snd p))) = false) (combine ids messages) ->
  ids = map om_ID messages.
Proof.
  revert messages. induction ids as [|i ids IH]; intros [|m messages] Hlen; try done. cbn.
  intros [Hi Hrest]%Forall_cons. apply negb_false_iff, String.eqb_eq in Hi. cbn in Hi. f_equal; [done|].
  apply IH; [by injection Hlen|done].
Qed.

Section versions.
Context (l : list Mutation) (versions : gmap string Z).
Context (Hnodup : NoDup (map (fun m => recordKeyString (mu_Key m)) l)) (Hsize : size versions = length l).
Context (Hall : Forall (fun m => versions !! recordKeyString (mu_Key m) = Some (committed_version m)) l).

(** As many entries as mutations, so no others *)
Lemma versions_exact : versions = list_to_map (map (fun m => (recordKeyString (mu_Key m), committed_version m)) l).
Proof.
  symmetry. set (pairs := map _ l).
  assert (Hfst : NoDup (map fst pairs)) by (subst pairs; by rewrite map_map).
  apply map_subseteq_size_eq.
  - apply map_subseteq_spec. intros i x Hi. apply elem_of_list_to_map in Hi; [|exact Hfst].
    subst pairs. apply list_elem_of_fmap in Hi as (m & [= -> ->] & Hm). exact (proj1 (Forall_forall _ _) Hall m Hm).
  - rewrite Hsize, map_size_list_to_map by exact Hfst. subst pairs. by rewrite length_map.
Qed.

Lemma versions_lookup key version : Forall (fun m => key_shape (mu_Key m)) l -> key_shape key ->
  versions !! recordKeyString key = Some version <->
  exists m, m ∈ l /\ mu_Key m = key /\ version = committed_version m.
Proof.
  intros Hshape Hkey. split.
  - rewrite versions_exact at 1. intros Hi.
    apply elem_of_list_to_map in Hi; [|change (NoDup (map fst (map (fun m => (recordKeyString (mu_Key m),
      committed_version m)) l))); by rewrite map_map].
    apply list_elem_of_fmap in Hi as (m & [= Ht ->] & Hm). exists m. split_and!; [done| |done].
    symmetry. apply recordKeyString_inj; [done| |done]. exact (proj1 (Forall_forall _ _) Hshape m Hm).
  - intros (m & Hm & <- & ->). exact (proj1 (Forall_forall _ _) Hall m Hm).
Qed.
End versions.

Lemma validateCommitResult_ok tx value : transaction_sound tx ->
  NoDup (map (fun m => recordKeyString (mu_Key m)) (tx_Mutations tx)) ->
  validateCommitResult tx value = Ok tt -> commit_matches tx value.
Proof.
  intros Hs Hnodup. unfold validateCommitResult. rewrite !seq_ok, !deny_if_ok, !for_each_ok.
  intros (Hid & Hsize & Hver & _ & Hout). apply orb_false_iff in Hid as [Hid Hseq], Hsize as [Hsize Hlen].
  apply negb_false_iff in Hid, Hsize, Hlen. apply Nat.eqb_eq in Hsize, Hlen.
  assert (Hall : Forall (fun m => cr_RecordVersions value !! recordKeyString (mu_Key m) = Some (committed_version m))
    (tx_Mutations tx)).
  { eapply Forall_impl; [exact Hver|]. intros m Hm. apply deny_if_ok in Hm.
    destruct (cr_RecordVersions value !! _); [|done]. apply negb_false_iff, Z.eqb_eq in Hm. by rewrite Hm. }
  split.
  - by apply String.eqb_eq.
  - by apply Z.eqb_neq.
  - intros key version Hkey. apply versions_lookup; try done.
    eapply Forall_impl; [exact (ts_mutations _ Hs)|]. by intros m [? _].
  - apply combine_same; [done|]. eapply Forall_impl; [exact Hout|]. intros p Hp. by apply deny_if_ok in Hp.
Qed.

(** ** The guard *)

Section guard.
Context {W : Type} {driver : StorageDriver W}.

Lemma Transact_ok ctx tx w value w' : Transact ctx tx w = (Ok value, w') ->
  ValidateTransaction tx = Ok tt /\ driver_Transact tx w = (Ok value, w') /\ validateCommitResult tx value = Ok tt.
Proof.
  unfold Transact. intros ([] & w1 & Hc & H)%prog_bind_ok. apply contextReady_ok in Hc as ->.
  apply prog_bind_ok in H as ([] & w2 & [Hv ->]%pure_ok & H).
  apply prog_bind_ok in H as (v & w3 & Hd%finishDriverCall_ok & H).
  apply prog_bind_ok in H as ([] & w4 & [Hr ->]%pure_ok & H). injection H as -> ->. done.
Qed.

Lemma Transact_refuses ctx tx w : ValidateTransaction tx <> Ok tt -> exists err, Transact ctx tx w = (Err err, w).
Proof.
  intros Hv. unfold Transact, mbind, prog_bind at 1. destruct (contextReady ctx "transact" w) as [[[]|e] w1] eqn:Hc.
  - apply contextReady_ok in Hc as ->. unfold pure. destruct (ValidateTransaction tx) as [[]|e] eqn:E; [done|].
    exists e. unfold prog_bind. done.
  - exists e. revert Hc. unfold contextReady. destruct ctx; [|by intros [= <- <-]].
    destruct (ctx_err _ w); [by intros [= <- <-]|done].
Qed.

Lemma Transact_classifies ctx tx : prog_classifies (Transact ctx tx).
Proof.
  unfold Transact. apply prog_classifies_bind; [apply contextReady_classifies|intros _].
  apply prog_classifies_bind; [apply prog_classifies_pure, ValidateTransaction_classifies|intros _].
  apply prog_classifies_bind; [apply finishDriverCall_classifies|intros value].
  apply prog_classifies_bind; [apply prog_classifies_pure, validateCommitResult_classifies|intros _].
  apply prog_classifies_ret.
Qed.

Lemma Get_ok ctx key w r w' : Get ctx key w = (Ok r, w') ->
  driver_Get key w = (Ok r, w') /\ mr_Key r = key /\ ValidateMetadataRecord r = Ok tt.
Proof.
  unfold Get. intros ([] & w1 & Hc & H)%prog_bind_ok. apply contextReady_ok in Hc as ->.
  apply prog_bind_ok in H as ([] & w2 & [Hv ->]%pure_ok & H).
  apply prog_bind_ok in H as (v & w3 & Hd%finishDriverCall_ok & H).
  apply prog_bind_ok in H as ([] & w4 & [Hk ->]%pure_ok & H).
  apply prog_bind_ok in H as ([] & w5 & [Hr ->]%pure_ok & H). injection H as -> ->.
  apply deny_if_ok, negb_false_iff, bool_decide_eq_true in Hk. by apply or_err_ok in Hr.
Qed.

Lemma Get_classifies ctx key : prog_classifies (Get ctx key).
Proof.
  unfold Get. apply prog_classifies_bind; [apply contextReady_classifies|intros _].
  apply prog_classifies_bind; [apply prog_classifies_pure, validateRecordKey_classifies|intros _].
  apply prog_classifies_bind; [apply finishDriverCall_classifies|intros value].
  apply prog_classifies_bind; [apply prog_classifies_pure, classifies_deny, classified_denied|intros _].
  apply prog_classifies_bind; [apply prog_classifies_pure, classifies_or_err, classified_denied|intros _].
  apply prog_classifies_ret.
Qed.

(** The guard is fail-closed over any driver and any context, which may end during a call:
    a transaction reaches the driver only when it is sound (one tenant, distinct keys, every
    put the sealed canonical record of its key at the next revision), a success is the driver's
    own answer with exactly the revisions and outbox messages of the transaction, a read
    returns the driver's sealed record of the requested key, and every error is classified. *)
Theorem guarded_storage_fails_closed (ctx : context W) tx key w : transaction_typed tx ->
  (forall value w', Transact ctx tx w = (Ok value, w') ->
     driver_Transact tx w = (Ok value, w') /\ transaction_sound tx /\ commit_matches tx value) /\
  (ValidateTransaction tx <> Ok tt -> exists err, Transact ctx tx w = (Err err, w)) /\
  (forall r w', Get ctx key w = (Ok r, w') -> driver_Get key w = (Ok r, w') /\ mr_Key r = key /\ record_sealed r) /\
  (forall err w', Transact ctx tx w = (Err err, w') \/ Get ctx key w = (Err err, w') -> classified err).
Proof.
  intros Hty. split_and!.
  - intros value w' (Hv & Hd & Hr)%Transact_ok. pose proof (ValidateTransaction_sound tx Hty Hv) as Hs.
    split_and!; [done..|]. apply validateCommitResult_ok; [done| |done].
    unfold ValidateTransaction in Hv. rewrite !seq_ok in Hv. destruct Hv as (_ & _ & Hv).
    destruct (tx_Mutations tx); [done|]. cbv zeta in Hv. rewrite !seq_ok, !deny_if_ok in Hv.
    destruct Hv as (_ & _ & Hkeys & _). by apply unique_sorted.
  - apply Transact_refuses.
  - intros r w' (Hd & Hk & Hv)%Get_ok. split_and!; [done..|]. by apply record_valid_sealed.
  - intros err w' [H|H]; [by eapply Transact_classifies|by eapply Get_classifies].
Qed.
End guard.
