(* ===== verification/Authority.v ===== *)
(** * The authority values that components hand to each other

    [policy.ActorAuthority] and [policy.Decision] (internal/policy/evaluator.go), the signed
    action manifest (internal/domain/actionmanifest/types.go) and the approval fingerprint
    (internal/policy/approvalfingerprint/types.go), as data.  Pointers to strings are options,
    slices are [slice]s: nil and empty differ in JSON. *)

From S2P Require Import Prelude GoStrings GoTime GoJson Domain GoStruct GoCodec.

Local Open Scope string_scope.
Local Open Scope Z_scope.

(** ** internal/policy *)

Record ActorAuthority : Type := mkActorAuthority {
  aa_ActorID : string; aa_OrganizationID : string; aa_TenantID : string; aa_CaseID : string;
  aa_Revision : Z; aa_Active : bool; aa_Roles : slice string; aa_Permissions : slice string }.

Record Decision : Type := mkDecision {
  d_SchemaVersion : string; d_ContractVersion : string; d_EvaluationID : string; d_DecisionDigest : string;
  d_InputDigest : string; d_Outcome : string; d_ReasonCode : string; d_Phase : string;
  d_ManifestDigest : string; d_PolicyDigest : string; d_PolicyRevision : Z; d_BundleID : string;
  d_SignerKeyID : string; d_SignerKeyRevision : Z; d_ActorID : string; d_ActorRevision : Z;
  d_ApprovalRequired : bool; d_EvaluatedAt : string; d_AuditOrganizationID : string;
  d_AuditTenantID : string; d_AuditCaseID : string }.

(** ** internal/domain/actionmanifest *)

Record Tool : Type := mkTool { t_Name : string; t_Version : string; t_Digest : string }.

Record Manifest : Type := mkManifest {
  m_SchemaVersion : string; m_ContractVersion : string; m_ManifestID : string; m_WorkflowTaskID : string;
  m_OrganizationID : string; m_TenantID : string; m_CaseID : string; m_RequestorActorID : string;
  m_ActionOwnerActorID : string; m_ActionType : string; m_Operation : string; m_ActionTier : string;
  m_TargetDigests : slice string; m_ExclusionDigests : slice string; m_ArgumentsDigest : string;
  m_Tool : Tool; m_PayloadDigest : string; m_PolicyDigest : string; m_PolicyRevision : Z;
  m_ROEDigest : option string; m_CredentialClass : string; m_CredentialReferenceDigest : option string;
  m_ExecutionZone : string; m_IsolationProfileDigest : string; m_ValidFrom : string; m_ValidUntil : string;
  m_ManifestNonce : string; m_MaximumUseCount : Z; m_RollbackDigest : option string;
  m_SafetyWatchActorID : option string }.

Record SignerAuthority : Type := mkSignerAuthority {
  sa_ActorID : string; sa_KeyID : string; sa_KeyRevision : Z; sa_Active : bool; sa_PublicKey : string }.

Record VerifiedEnvelope : Type := mkVerifiedEnvelope {
  ve_ManifestDigest : string; ve_SignerActorID : string; ve_SignerKeyRevision : Z; ve_KeyID : string;
  ve_manifest : Manifest; ve_manifestBytes : string; ve_envelopeBytes : string }.

Definition CanonicalManifestBytes (verified : VerifiedEnvelope) : string := ve_manifestBytes verified.
Definition CanonicalEnvelopeBytes (verified : VerifiedEnvelope) : string := ve_envelopeBytes verified.

(** ** internal/policy/approvalfingerprint *)

Record Fingerprint : Type := mkFingerprint {
  f_SchemaVersion : string; f_ContractVersion : string; f_FingerprintDigest : string; f_ManifestDigest : string;
  f_PolicyDecisionDigest : string; f_OrganizationID : string; f_TenantID : string; f_CaseID : string;
  f_RequestorActorID : string; f_ActionOwnerActorID : string; f_PolicyDigest : string; f_PolicyRevision : Z;
  f_ROEDigest : option string; f_ValidFrom : string; f_ValidUntil : string; f_MaximumUseCount : Z }.

Definition FingerprintSchemaVersion : string := "coh.approval-fingerprint/v1".
Definition FingerprintContractVersion : string := "1.0.0".

(** [Fingerprint{}] *)
Definition zero_fingerprint : Fingerprint :=
  mkFingerprint "" "" "" "" "" "" "" "" "" "" "" 0 None "" "" 0.

(** ** As JSON *)

(** A [[]string]: nil is null *)
Definition json_strings (values : slice string) : json :=
  match values with Some l => JArr (map JStr l) | None => JNull end.

(** A [*string]: nil is null *)
Definition json_opt (value : option string) : json :=
  match value with Some s => JStr s | None => JNull end.

(** No tags: the names of the Go fields *)
Definition actor_json (a : ActorAuthority) : json :=
  JObj [("ActorID", JStr (aa_ActorID a)); ("OrganizationID", JStr (aa_OrganizationID a));
        ("TenantID", JStr (aa_TenantID a)); ("CaseID", JStr (aa_CaseID a));
        ("Revision", json_uint (aa_Revision a)); ("Active", JBool (aa_Active a));
        ("Roles", json_strings (aa_Roles a)); ("Permissions", json_strings (aa_Permissions a))].

(** The three audit fields are tagged ["-"]. *)
Definition decision_json (d : Decision) : json :=
  JObj [("schema_version", JStr (d_SchemaVersion d)); ("contract_version", JStr (d_ContractVersion d));
        ("evaluation_id", JStr (d_EvaluationID d)); ("decision_digest", JStr (d_DecisionDigest d));
        ("input_digest", JStr (d_InputDigest d)); ("outcome", JStr (d_Outcome d));
        ("reason_code", JStr (d_ReasonCode d)); ("phase", JStr (d_Phase d));
        ("manifest_digest", JStr (d_ManifestDigest d)); ("policy_digest", JStr (d_PolicyDigest d));
        ("policy_revision", json_uint (d_PolicyRevision d)); ("bundle_id", JStr (d_BundleID d));
        ("signer_key_id", JStr (d_SignerKeyID d)); ("signer_key_revision", json_uint (d_SignerKeyRevision d));
        ("actor_id", JStr (d_ActorID d)); ("actor_revision", json_uint (d_ActorRevision d));
        ("approval_required", JBool (d_ApprovalRequired d)); ("evaluated_at", JStr (d_EvaluatedAt d))].

Definition fingerprint_json (f : Fingerprint) : json :=
  JObj [("schema_version", JStr (f_SchemaVersion f)); ("contract_version", JStr (f_ContractVersion f));
        ("fingerprint_digest", JStr (f_FingerprintDigest f)); ("manifest_digest", JStr (f_ManifestDigest f));
        ("policy_decision_digest", JStr (f_PolicyDecisionDigest f));
        ("organization_id", JStr (f_OrganizationID f)); ("tenant_id", JStr (f_TenantID f));
        ("case_id", JStr (f_CaseID f)); ("requestor_actor_id", JStr (f_RequestorActorID f));
        ("action_owner_actor_id", JStr (f_ActionOwnerActorID f)); ("policy_digest", JStr (f_PolicyDigest f));
        ("policy_revision", json_uint (f_PolicyRevision f)); ("roe_digest", json_opt (f_ROEDigest f));
        ("valid_from", JStr (f_ValidFrom f)); ("valid_until", JStr (f_ValidUntil f));
        ("maximum_use_count", json_uint (f_MaximumUseCount f))].
