(* ===== verification/ApprovalBroker.v ===== *)
(** * internal/broker: the approval service

    The only component that writes approvals: it checks the authority of the caller
    ([approval_authority.go]), verifies the fingerprint of the action through its verifier,
    builds the next record of the lifecycle and commits it to the metadata store under an
    optimistic revision, with its outbox message ([approval_service.go],
    [approval_transition.go], [approval_commit.go], [approval_encoding.go],
    [approval_errors.go], [approval_id.go]); every refusal is audited first
    ([approval_commit.go], [approval_audit_adapter.go]).

    The store is any [MetadataStore]; the guard of Storage.v over any driver is one.  The
    verifier, the audit sink, the clock and the source of random bytes are [BrokerPorts]. *)

From S2P Require Import Prelude GoStrings GoRegexp GoTime GoJson DomainContract Sha256 Domain GoStruct GoCodec Storage Authority TamperAudit ApprovalLifecycle ApprovalCodec.

Local Open Scope string_scope.
Local Open Scope Z_scope.

(** ** approval_types.go *)

Record approvalVerifiedProof : Type := mkVerifiedProof { vp_Fingerprint : Fingerprint; vp_ActionTier : string }.

Record approvalProof : Type := mkProof {
  pf_Fingerprint : Fingerprint; pf_Manifest : VerifiedEnvelope; pf_Signer : SignerAuthority;
  pf_Decision : Decision }.

Record approvalPrincipalAuthority : Type := mkPrincipal {
  pa_ActorID : string; pa_ActorRevision : Z; pa_PrincipalID : string; pa_IdentityKind : string;
  pa_EnrollmentRevision : Z; pa_Enrolled : bool }.

Record approvalGrantAuthority : Type := mkGrantAuthority {
  ga_Actor : ActorAuthority; ga_Principal : approvalPrincipalAuthority }.

Record approvalRequestCommand : Type := mkRequestCommand {
  rc_ApprovalID : string; rc_IdempotencyKey : string; rc_Requestor : ActorAuthority;
  rc_Principal : approvalPrincipalAuthority; rc_approvalProof : approvalProof }.

Record approvalTransitionCommand : Type := mkTransitionCommand {
  tc_ApprovalID : string; tc_IdempotencyKey : string; tc_ExpectedRevision : Z; tc_Case : CaseRef;
  tc_Actor : ActorAuthority; tc_Principal : option approvalPrincipalAuthority;
  tc_GrantAuthorities : list approvalGrantAuthority; tc_ReasonCode : string;
  tc_approvalProof : option approvalProof }.

Record approvalResult : Type := mkResult { ar_Record : ApprovalRecord; ar_Replayed : bool }.

(** [newApprovalServiceWithDependencies], told which dependency is nil *)
Definition newApprovalServiceWithDependencies (store_nil verifier_nil audit_nil clock_nil random_nil : bool)
  : result Error unit :=
  deny_if (store_nil || verifier_nil || audit_nil || clock_nil || random_nil)
    (NewError InvalidInput "service_configuration").

(** ** approval_authority.go *)

Fixpoint adjacent_distinct_tokens (previous : option string) (values : list string) : bool :=
  match values with
  | [] => true
  | value :: values' =>
      if negb (tokenPattern value) ||
         match previous with Some p => String.eqb p value | None => false end
      then false
      else adjacent_distinct_tokens (Some value) values'
  end.

Definition sortedUniqueTokens (values : list string) : bool :=
  if negb (is_sorted values) then false else adjacent_distinct_tokens None values.

Definition contains (values : list string) (expected : string) : bool :=
  let index := SearchStrings values expected in
  Nat.ltb index (length values) && String.eqb (nth index values "") expected.

Definition validateActor (actor : ActorAuthority) (organizationID tenantID caseID permission : string)
  : result Error unit :=
  deny_if (negb (uuidPattern (aa_ActorID actor)) || negb (uuidPattern (aa_OrganizationID actor)) ||
           negb (uuidPattern (aa_TenantID actor)) || negb (uuidPattern (aa_CaseID actor)) ||
           (aa_Revision actor =? 0))
    (NewError InvalidInput "actor_authority") ;;
  deny_if (negb (String.eqb (aa_OrganizationID actor) organizationID) ||
           negb (String.eqb (aa_TenantID actor) tenantID) || negb (String.eqb (aa_CaseID actor) caseID))
    (NewError Denied "actor_scope_mismatch") ;;
  deny_if (negb (aa_Active actor)) (NewError Denied "actor_revoked") ;;
  deny_if (negb (sortedUniqueTokens (items (aa_Roles actor))) ||
           negb (sortedUniqueTokens (items (aa_Permissions actor))))
    (NewError InvalidInput "actor_authority") ;;
  deny_if (negb (contains (items (aa_Permissions actor)) permission)) (NewError Denied "permission_denied").

Definition validateRequestorPrincipal (actor : ActorAuthority) (authority : approvalPrincipalAuthority)
  : result Error unit :=
  deny_if (negb (uuidPattern (pa_PrincipalID authority)) ||
           negb (String.eqb (pa_ActorID authority) (aa_ActorID actor)) ||
           negb (pa_ActorRevision authority =? aa_Revision actor) || (pa_EnrollmentRevision authority =? 0) ||
           negb (pa_Enrolled authority) ||
           (negb (String.eqb (pa_IdentityKind authority) "human") &&
            negb (String.eqb (pa_IdentityKind authority) "service")))
    (NewError Denied "requestor_enrollment").

Definition validateApproverPrincipal (actor : ActorAuthority) (authority : approvalPrincipalAuthority)
  (record : ApprovalRecord) : result Error unit :=
  validateActor actor (a_OrganizationID record) (a_TenantID record) (a_CaseID record) "approval.decide" ;;
  deny_if (negb (uuidPattern (pa_PrincipalID authority)) ||
           negb (String.eqb (pa_ActorID authority) (aa_ActorID actor)) ||
           negb (pa_ActorRevision authority =? aa_Revision actor) || (pa_EnrollmentRevision authority =? 0) ||
           negb (pa_Enrolled authority) || negb (String.eqb (pa_IdentityKind authority) "human") ||
           negb (contains (items (aa_Roles actor)) "approver"))
    (NewError Denied "approver_ineligible") ;;
  deny_if (String.eqb (aa_ActorID actor) (a_RequestorActorID record) ||
           String.eqb (pa_PrincipalID authority) (a_RequestorPrincipalID record))
    (NewError Denied "self_approval").

Definition validCommand (approvalID idempotencyKey reasonCode : string) (expectedRevision : Z) : result Error unit :=
  deny_if (negb (uuidPattern approvalID) || (expectedRevision =? 0) || negb (tokenPattern reasonCode) ||
           negb (valid_string idempotencyKey) || (len idempotencyKey =? 0) || (256 <? len idempotencyKey) ||
           negb (String.eqb (trim_space idempotencyKey) idempotencyKey))
    (NewError InvalidInput "command_invalid").

(** ** approval_errors.go *)

Definition contextError {W} (ctx : context W) (w : W) : result Error unit :=
  match ctx with
  | None => Err (NewError InvalidInput "context_required")
  | Some err =>
      match err w with
      | Some DoneDeadlineExceeded => Err (NewError Timeout "request_timeout")
      | Some DoneCanceled => Err (NewError Canceled "request_canceled")
      | None => Ok tt
      end
  end.

Definition mapStorageError (err : storage_error) : Error :=
  match StorageCode err with
  | StorageInvalidInput => NewError InvalidInput "storage_input"
  | StorageDenied => NewError Denied "storage_denied"
  | StorageNotFound => NewError NotFound "approval_not_found"
  | StorageConflict => NewError Conflict "optimistic_conflict"
  | StorageCanceled => NewError Canceled "request_canceled"
  | StorageTimeout => NewError Timeout "request_timeout"
  | StorageUnavailable => NewError Unavailable "storage_unavailable"
  end.

(** ** approval_id.go *)

(** The byte at [index] becomes [f] of it. *)
Definition set_byte (index : nat) (f : Z -> Z) (value : string) : string :=
  String.string_of_list_ascii (alter (fun c => byte_of (f (byte_val c))) index (String.list_ascii_of_string value)).

(** [time.Time.UnixMilli] *)
Definition UnixMilli (now : Time) : Z := (nanos now - unix_epoch) / 1000000.

(** [newID], given the 16 bytes [io.ReadFull] read; a byte keeps the low bits of a number. *)
Definition newID (now : Time) (value : string) : string :=
  let milliseconds := u64 (UnixMilli now) in
  let value := set_byte 0 (fun _ => Z.shiftr milliseconds 40) value in
  let value := set_byte 1 (fun _ => Z.shiftr milliseconds 32) value in
  let value := set_byte 2 (fun _ => Z.shiftr milliseconds 24) value in
  let value := set_byte 3 (fun _ => Z.shiftr milliseconds 16) value in
  let value := set_byte 4 (fun _ => Z.shiftr milliseconds 8) value in
  let value := set_byte 5 (fun _ => milliseconds) value in
  let value := set_byte 6 (fun b => Z.lor (Z.land b 15) 112) value in
  let value := set_byte 8 (fun b => Z.lor (Z.land b 63) 128) value in
  let encoded := hex_encode value in
  String.substring 0 8 encoded ++ "-" ++ String.substring 8 4 encoded ++ "-" ++ String.substring 12 4 encoded ++
  "-" ++ String.substring 16 4 encoded ++ "-" ++ String.substring 20 12 encoded.

(** ** approval_encoding.go *)

Record metadataEnvelope : Type := mkEnvelope {
  en_Schema : string; en_Kind : string; en_ID : string; en_OrganizationID : string; en_TenantID : string;
  en_CaseID : string; en_Revision : Z; en_CreatedAt : string; en_Data : option json }.

(** Every field but the raw message *)
Definition envelope_fields :=
  (field "schema" str_codec $ field "kind" str_codec $ field "id" str_codec $
   field "organization_id" str_codec $ field "tenant_id" str_codec $ field "case_id" str_codec $
   field "revision" (uint_codec 64) $ field "created_at" str_codec $ no_fields).

(** Their tuple, as the struct without the raw message *)
Definition envelope_codec :=
  struct_codec envelope_fields (fun x => x) (fun x => x) (fun x => eq_refl) (fun x => eq_refl).

Definition envelope_tuple (e : metadataEnvelope) :=
  (en_Schema e, (en_Kind e, (en_ID e, (en_OrganizationID e, (en_TenantID e, (en_CaseID e, (en_Revision e,
  (en_CreatedAt e, tt)))))))).

(** [json.Marshal(envelope)]: a raw message is printed as the value it holds. *)
Definition envelope_json (e : metadataEnvelope) : json :=
  JObj (encode_fields (fc_fields envelope_fields) (fc_to envelope_fields (envelope_tuple e)) ++
        [("data", default JNull (en_Data e))])%list.

(** The key of an object that fills the raw message: of all nine fields it selects the last. *)
Definition selects_data (key : string) : bool :=
  match select_field (fc_fields envelope_fields ++ [("data", false, TString)])%list key with
  | Some index => Nat.eqb index (length (fc_fields envelope_fields))
  | None => false
  end.

(** [decoder.Decode(&envelope)]: the last member for the raw message wins, the others are
    decoded into the other fields. *)
Definition decode_envelope (value : json) : option metadataEnvelope :=
  match value with
  | JObj object =>
      let raw := List.filter (fun kv => selects_data (fst kv)) object in
      let others := List.filter (fun kv => negb (selects_data (fst kv))) object in
      v ← decode (JObj others) (c_type envelope_codec) (zero_val (c_type envelope_codec));
      '(schema, (kind, (id, (organizationID, (tenantID, (caseID, (revision, (createdAt, _)))))))) ←
        c_of envelope_codec v;
      Some (mkEnvelope schema kind id organizationID tenantID caseID revision createdAt (snd <$> last raw))
  | JNull => Some (mkEnvelope "" "" "" "" "" "" 0 "" None)
  | _ => None
  end.

Definition recordKey (organizationID tenantID caseID approvalID : string) : RecordKey :=
  mkRecordKey (mkCaseRef organizationID tenantID caseID) "approval" approvalID.

Definition metadataRecord (nil_grants : bool) (record : ApprovalRecord) : result Error MetadataRecord :=
  data ← CanonicalRecord nil_grants record;
  raw ← or_err (read_value data) (NewError InvalidInput "record_encoding");
  let envelope := mkEnvelope "coh.domain/v1" "approval" (a_ApprovalID record) (a_OrganizationID record)
    (a_TenantID record) (a_CaseID record) (a_Revision record) (a_RequestedAt record) (Some raw) in
  canonical ← or_err (Canonicalize (marshal true (envelope_json envelope)))
    (NewError InvalidInput "record_encoding");
  let key := recordKey (a_OrganizationID record) (a_TenantID record) (a_CaseID record) (a_ApprovalID record) in
  let metadata := mkMetadataRecord key "coh.domain/v1" (a_Revision record) canonical (ApprovalCodec.Digest canonical) in
  or_err (ValidateMetadataRecord metadata) (NewError InvalidInput "metadata_encoding") ;;
  Ok metadata.

(** The store returns canonical text only ([ValidateMetadataRecord]), in which the raw message
    is the canonical text of its value and nothing follows the envelope.  The second component
    says that the decoded slice of grants is nil. *)
Definition decodeMetadata (record : MetadataRecord) : result Error (ApprovalRecord * bool) :=
  let invalid := NewError Denied "stored_record_invalid" in
  value ← or_err (read_value (mr_Canonical record)) invalid;
  match decode_envelope value with
  | None => Err invalid
  | Some envelope =>
      deny_if (negb (String.eqb (en_Schema envelope) "coh.domain/v1") ||
               negb (String.eqb (en_Kind envelope) "approval")) invalid ;;
      match en_Data envelope with
      | None => Err invalid
      | Some raw =>
          canonical ← or_err (Canonicalize (marshal false raw)) invalid;
          record' ← or_err (DecodeRecord canonical) invalid;
          deny_if (negb (String.eqb (a_ApprovalID record') (rk_ID (mr_Key record))) ||
                   negb (a_Revision record' =? mr_Revision record)) invalid ;;
          Ok (record', decoded_nil_grants canonical)
      end
  end.

(** [operationDigest], on the JSON of its argument *)
Definition operationDigest (value : json) : result Error string :=
  canonical ← or_err (Canonicalize (marshal true value)) (NewError InvalidInput "operation_encoding");
  Ok (digest canonical).

(** ** approval_service.go: what an operation is bound to *)

Definition principal_json (p : approvalPrincipalAuthority) : json :=
  JObj [("actor_id", JStr (pa_ActorID p)); ("actor_revision", json_uint (pa_ActorRevision p));
        ("principal_id", JStr (pa_PrincipalID p)); ("identity_kind", JStr (pa_IdentityKind p));
        ("enrollment_revision", json_uint (pa_EnrollmentRevision p)); ("enrolled", JBool (pa_Enrolled p))].

Definition grant_authority_json (g : approvalGrantAuthority) : json :=
  JObj [("actor", actor_json (ga_Actor g)); ("principal", principal_json (ga_Principal g))].

Record proofMaterial : Type := mkProofMaterial {
  pm_Fingerprint : Fingerprint; pm_EnvelopeDigest : string; pm_SignerActorID : string; pm_SignerKeyID : string;
  pm_SignerKeyRevision : Z; pm_SignerActive : bool; pm_SignerKeyDigest : string; pm_Decision : Decision }.

Definition proof_json (p : proofMaterial) : json :=
  JObj [("fingerprint", fingerprint_json (pm_Fingerprint p)); ("envelope_digest", JStr (pm_EnvelopeDigest p));
        ("signer_actor_id", JStr (pm_SignerActorID p)); ("signer_key_id", JStr (pm_SignerKeyID p));
        ("signer_key_revision", json_uint (pm_SignerKeyRevision p)); ("signer_active", JBool (pm_SignerActive p));
        ("signer_key_digest", JStr (pm_SignerKeyDigest p)); ("decision", decision_json (pm_Decision p))].

Record operationMaterial : Type := mkOperationMaterial {
  op_Operation : string; op_ApprovalID : string; op_IdempotencyKey : string; op_ExpectedRevision : Z;
  op_ReasonCode : string; op_Actor : ActorAuthority; op_Principal : option approvalPrincipalAuthority;
  op_GrantAuthorities : list approvalGrantAuthority; op_Proof : option proofMaterial }.

(** The last three fields are [omitempty]. *)
Definition operation_json (m : operationMaterial) : json :=
  JObj ([("operation", JStr (op_Operation m)); ("approval_id", JStr (op_ApprovalID m));
         ("idempotency_key", JStr (op_IdempotencyKey m));
         ("expected_revision", json_uint (op_ExpectedRevision m)); ("reason_code", JStr (op_ReasonCode m));
         ("actor", actor_json (op_Actor m))] ++
        match op_Principal m with Some p => [("principal", principal_json p)] | None => [] end ++
        match op_GrantAuthorities m with
        | [] => []
        | l => [("grant_authorities", JArr (map grant_authority_json l))]
        end ++
        match op_Proof m with Some p => [("proof", proof_json p)] | None => [] end)%list.

Definition makeProofMaterial (proof : approvalProof) : proofMaterial :=
  mkProofMaterial (pf_Fingerprint proof) (digest (CanonicalEnvelopeBytes (pf_Manifest proof)))
    (sa_ActorID (pf_Signer proof)) (sa_KeyID (pf_Signer proof)) (sa_KeyRevision (pf_Signer proof))
    (sa_Active (pf_Signer proof)) (digest (sa_PublicKey (pf_Signer proof))) (pf_Decision proof).

Definition requiredGrantCount (actionTier : string) : Z := if String.eqb actionTier "T4" then 2 else 1.

Definition formatTime (value : Time) : string := format_timestamp (to_utc value).

Definition proofFingerprint (proof : option approvalProof) : Fingerprint :=
  match proof with None => zero_fingerprint | Some proof => pf_Fingerprint proof end.

(** ** approval_commit.go: small helpers *)

Definition safeUUID (value : string) : string := if uuidPattern value then value else "".
Definition safeDigest (value : string) : string := if digestPattern value then value else "".

(** The loop writes the digits of a number below [10 ^ fuel] from the right. *)
Definition uintText (value : Z) : string := if value =? 0 then "0" else itoa_digits 20 value "".

(** The event of a refused operation *)
Definition refusal_event (eventID operation approvalID : string) (actor : ActorAuthority)
  (fingerprint : Fingerprint) (revision : Z) (resultErr : Error) (now : Time) : Event :=
  let outcome :=
    match ApprovalLifecycle.Code resultErr with
    | InvalidInput => "invalid"
    | Canceled => "canceled"
    | Timeout => "timeout"
    | Unavailable => "unavailable"
    | _ => "denied"
    end in
  let actorID := safeUUID (aa_ActorID actor) in
  mkEvent SchemaVersion ContractVersion eventID operation outcome (ApprovalLifecycle.Reason resultErr)
    (safeUUID approvalID) (safeUUID (f_OrganizationID fingerprint)) (safeUUID (f_TenantID fingerprint))
    (safeUUID (f_CaseID fingerprint)) (safeDigest (f_FingerprintDigest fingerprint)) actorID
    (if String.eqb actorID "" then 0 else aa_Revision actor) revision (formatTime now).

(** ** approval_transition.go: pure parts *)

Definition validateTransitionActor (operation : string) (actor : ActorAuthority) (record : ApprovalRecord)
  : result Error unit :=
  let permission := if String.eqb operation "consume" then "action.request"
                    else if String.eqb operation "expire" then "service.invoke"
                    else "approval.decide" in
  validateActor actor (a_OrganizationID record) (a_TenantID record) (a_CaseID record) permission ;;
  deny_if (String.eqb operation "grant" && String.eqb (aa_ActorID actor) (a_RequestorActorID record))
    (NewError Denied "self_approval") ;;
  deny_if (String.eqb operation "consume" && negb (String.eqb (aa_ActorID actor) (a_ActionOwnerActorID record)))
    (NewError Denied "action_owner_mismatch").

(** The loop over the grants, [authorities] being as long *)
Definition validate_grant_authority (record : ApprovalRecord) (grant : Grant) (authority : approvalGrantAuthority)
  : result Error unit :=
  deny_if (negb (String.eqb (aa_ActorID (ga_Actor authority)) (g_ActorID grant)) ||
           negb (String.eqb (pa_PrincipalID (ga_Principal authority)) (g_PrincipalID grant)) ||
           (aa_Revision (ga_Actor authority) <? g_ActorRevision grant) ||
           (pa_EnrollmentRevision (ga_Principal authority) <? g_EnrollmentRevision grant))
    (NewError Denied "approver_authority_changed") ;;
  validateApproverPrincipal (ga_Actor authority) (ga_Principal authority) record.

Definition validateGrantAuthorities (authorities : list approvalGrantAuthority) (record : ApprovalRecord)
  : result Error unit :=
  deny_if (negb (Nat.eqb (length authorities) (length (a_Grants record))) ||
           negb (Z.of_nat (length authorities) =? a_RequiredGrantCount record))
    (NewError Denied "approver_enrollment_incomplete") ;;
  for_each (fun '(grant, authority) => validate_grant_authority record grant authority)
    (combine (a_Grants record) authorities).

Definition fingerprintMatches (value : Fingerprint) (record : ApprovalRecord) : bool :=
  let left := f_FingerprintDigest value ++ f_ManifestDigest value ++ f_PolicyDecisionDigest value ++
    f_OrganizationID value ++ f_TenantID value ++ f_CaseID value ++ f_RequestorActorID value ++
    f_ActionOwnerActorID value ++ f_ValidFrom value ++ f_ValidUntil value ++ uintText (f_MaximumUseCount value) in
  let right := a_FingerprintDigest record ++ a_ManifestDigest record ++ a_PolicyDecisionDigest record ++
    a_OrganizationID record ++ a_TenantID record ++ a_CaseID record ++ a_RequestorActorID record ++
    a_ActionOwnerActorID record ++ a_ValidFrom record ++ a_ValidUntil record ++
    uintText (a_MaximumUseCount record) in
  String.eqb left right.

Definition fingerprintFromRecord (record : ApprovalRecord) : Fingerprint :=
  mkFingerprint FingerprintSchemaVersion FingerprintContractVersion (a_FingerprintDigest record)
    (a_ManifestDigest record) (a_PolicyDecisionDigest record) (a_OrganizationID record) (a_TenantID record)
    (a_CaseID record) (a_RequestorActorID record) (a_ActionOwnerActorID record) "" 0 None (a_ValidFrom record)
    (a_ValidUntil record) (a_MaximumUseCount record).

Definition set_State (r : ApprovalRecord) (state : string) : ApprovalRecord :=
  mkApproval (a_SchemaVersion r) (a_ContractVersion r) (a_ApprovalID r) (a_OrganizationID r) (a_TenantID r)
    (a_CaseID r) (a_FingerprintDigest r) (a_ManifestDigest r) (a_PolicyDecisionDigest r) (a_RequestorActorID r)
    (a_RequestorRevision r) (a_RequestorPrincipalID r) (a_ActionOwnerActorID r) (a_ActionTier r) state
    (a_Revision r) (a_RequestedAt r) (a_ValidFrom r) (a_ValidUntil r) (a_RequiredGrantCount r) (a_Grants r)
    (a_MaximumUseCount r) (a_UseCount r) (a_ReasonCode r) (a_LastActorID r) (a_LastActorRevision r)
    (a_LastOperationDigest r) (a_LastEventID r) (a_UpdatedAt r).

Definition set_Grants (r : ApprovalRecord) (grants : list Grant) : ApprovalRecord :=
  mkApproval (a_SchemaVersion r) (a_ContractVersion r) (a_ApprovalID r) (a_OrganizationID r) (a_TenantID r)
    (a_CaseID r) (a_FingerprintDigest r) (a_ManifestDigest r) (a_PolicyDecisionDigest r) (a_RequestorActorID r)
    (a_RequestorRevision r) (a_RequestorPrincipalID r) (a_ActionOwnerActorID r) (a_ActionTier r) (a_State r)
    (a_Revision r) (a_RequestedAt r) (a_ValidFrom r) (a_ValidUntil r) (a_RequiredGrantCount r) grants
    (a_MaximumUseCount r) (a_UseCount r) (a_ReasonCode r) (a_LastActorID r) (a_LastActorRevision r)
    (a_LastOperationDigest r) (a_LastEventID r) (a_UpdatedAt r).

Definition set_UseCount (r : ApprovalRecord) (uses : Z) : ApprovalRecord :=
  mkApproval (a_SchemaVersion r) (a_ContractVersion r) (a_ApprovalID r) (a_OrganizationID r) (a_TenantID r)
    (a_CaseID r) (a_FingerprintDigest r) (a_ManifestDigest r) (a_PolicyDecisionDigest r) (a_RequestorActorID r)
    (a_RequestorRevision r) (a_RequestorPrincipalID r) (a_ActionOwnerActorID r) (a_ActionTier r) (a_State r)
    (a_Revision r) (a_RequestedAt r) (a_ValidFrom r) (a_ValidUntil r) (a_RequiredGrantCount r) (a_Grants r)
    (a_MaximumUseCount r) uses (a_ReasonCode r) (a_LastActorID r) (a_LastActorRevision r)
    (a_LastOperationDigest r) (a_LastEventID r) (a_UpdatedAt r).

(** [next := current] and the assignments of [transition] before [applyTransition] *)
Definition next_of (current : ApprovalRecord) (reasonCode : string) (actor : ActorAuthority)
  (operation_digest eventID : string) (now : Time) : ApprovalRecord :=
  mkApproval (a_SchemaVersion current) (a_ContractVersion current) (a_ApprovalID current)
    (a_OrganizationID current) (a_TenantID current) (a_CaseID current) (a_FingerprintDigest current)
    (a_ManifestDigest current) (a_PolicyDecisionDigest current) (a_RequestorActorID current)
    (a_RequestorRevision current) (a_RequestorPrincipalID current) (a_ActionOwnerActorID current)
    (a_ActionTier current) (a_State current) (u64 (a_Revision current + 1)) (a_RequestedAt current)
    (a_ValidFrom current) (a_ValidUntil current) (a_RequiredGrantCount current) (a_Grants current)
    (a_MaximumUseCount current) (a_UseCount current) reasonCode (aa_ActorID actor) (aa_Revision actor)
    operation_digest eventID (formatTime now).

Definition applyTransition (operation : string) (command : approvalTransitionCommand) (next : ApprovalRecord)
  (now : Time) : ApprovalRecord :=
  if String.eqb operation "grant" then
    match tc_Principal command with
    | Some principal =>
        let next := set_Grants next (a_Grants next ++
          [mkGrant (aa_ActorID (tc_Actor command)) (aa_Revision (tc_Actor command)) (pa_PrincipalID principal)
             (pa_EnrollmentRevision principal) (formatTime now)])%list in
        if grant_count next =? a_RequiredGrantCount next then set_State next Granted else next
    | None => next
    end
  else if String.eqb operation "reject" then set_State next Rejected
  else if String.eqb operation "expire" then set_State next Expired
  else if String.eqb operation "consume" then
    let next := set_UseCount next (u32 (a_UseCount next + 1)) in
    if a_UseCount next =? a_MaximumUseCount next then set_State next Consumed else next
  else if String.eqb operation "revoke" then set_State next Revoked
  else next.

(** ** The service *)

(** [workflow.MetadataStore] *)
Class MetadataStore (W : Type) : Type := {
  store_Get : context W -> RecordKey -> prog W storage_error MetadataRecord;
  store_Transact : context W -> Transaction -> prog W storage_error CommitResult }.

(** What [GuardStorage] makes of a driver *)
#[export] Instance guarded_store {W} {driver : StorageDriver W} : MetadataStore W :=
  {| store_Get := Get; store_Transact := Transact |}.

(** The other dependencies.  No error of theirs is looked at; the context of the audit sink is
    detached from the caller's. *)
Class BrokerPorts (W : Type) : Type := {
  verifyApproval : context W -> approvalProof -> prog W unit approvalVerifiedProof;
  AppendApprovalLifecycleEvent : Event -> prog W unit unit;
  BrokerNow : W -> Time * W;
  ReadRandom : prog W unit string }.

(** [if x, err := r; err != nil { return refuse(err) }], then the rest *)
Definition check {W A B} (r : result Error A) (refuse : Error -> prog W Error B) (rest : A -> prog W Error B)
  : prog W Error B :=
  match r with Ok a => rest a | Err err => refuse err end.

Section service.
Context {W : Type} {store : MetadataStore W} {ports : BrokerPorts W}.
Local Notation service A := (prog W Error A).

Definition now : service Time := atomically (fun w => let '(t, w) := BrokerNow w in (to_utc t, w)).

Definition newEventID (now : Time) : service string :=
  if is_zero now then pure (Err (NewError Unavailable "event_identity_unavailable"))
  else
    value ← map_err (fun _ => NewError Unavailable "event_identity_unavailable") ReadRandom;
    mret (newID now value).

(** Every error that reaches [failure] is one of the package, and not nil. *)
Definition failure {A} (operation approvalID : string) (actor : ActorAuthority) (fingerprint : Fingerprint)
  (revision : Z) (resultErr : Error) (now : Time) : service A :=
  let unavailable := NewError Unavailable "audit_unavailable" in
  eventID ← map_err (fun _ => unavailable) (newEventID now);
  let event := refusal_event eventID operation approvalID actor fingerprint revision resultErr now in
  pure (or_err (ValidateEvent event) unavailable) ;;
  map_err (fun _ => unavailable) (AppendApprovalLifecycleEvent event) ;;
  pure (Err resultErr).

Definition approval_transaction (operation idempotencyKey : string) (expectedRevision : Z)
  (record : ApprovalRecord) (metadata : MetadataRecord) : Transaction :=
  mkTransaction StorageContractVersion idempotencyKey
    [mkMutation MutationPut (mr_Key metadata) expectedRevision (Some metadata)]
    [mkOutboxMessage (a_LastEventID record) (rk_Case (mr_Key metadata)) ("approval." ++ operation)
       ("record:approval:" ++ a_ApprovalID record ++ ":" ++ uintText (a_Revision record)) (mr_Digest metadata)].

Definition commit (ctx : context W) (operation idempotencyKey : string) (expectedRevision : Z)
  (nil_grants : bool) (record : ApprovalRecord) (actor : ActorAuthority) (fingerprint : Fingerprint) (now : Time)
  : service approvalResult :=
  let refuse err := failure operation (a_ApprovalID record) actor fingerprint expectedRevision err now in
  check (metadataRecord nil_grants record) refuse (fun metadata =>
  answer ← attempt (store_Transact ctx (approval_transaction operation idempotencyKey expectedRevision record metadata));
  match answer with
  | Err err => refuse (mapStorageError err)
  | Ok value => mret (mkResult record (cr_Replayed value))
  end).

(** [contextError(ctx)], asked now *)
Definition context_ready (ctx : context W) : service (result Error unit) := fun w => (Ok (contextError ctx w), w).

Definition request_record (command : approvalRequestCommand) (actionTier operation_digest eventID : string)
  (now : Time) : ApprovalRecord :=
  let fingerprint := pf_Fingerprint (rc_approvalProof command) in
  mkApproval SchemaVersion ContractVersion (rc_ApprovalID command) (f_OrganizationID fingerprint)
    (f_TenantID fingerprint) (f_CaseID fingerprint) (f_FingerprintDigest fingerprint)
    (f_ManifestDigest fingerprint) (f_PolicyDecisionDigest fingerprint) (f_RequestorActorID fingerprint)
    (aa_Revision (rc_Requestor command)) (pa_PrincipalID (rc_Principal command))
    (f_ActionOwnerActorID fingerprint) actionTier Requested 1 (formatTime now) (f_ValidFrom fingerprint)
    (f_ValidUntil fingerprint) (requiredGrantCount actionTier) [] (f_MaximumUseCount fingerprint) 0
    "approval_requested" (aa_ActorID (rc_Requestor command)) (aa_Revision (rc_Requestor command))
    operation_digest eventID (formatTime now).

Definition request_material (command : approvalRequestCommand) : operationMaterial :=
  mkOperationMaterial "request" (rc_ApprovalID command) (rc_IdempotencyKey command) 0 "approval_requested"
    (rc_Requestor command) (Some (rc_Principal command)) [] (Some (makeProofMaterial (rc_approvalProof command))).

(** The part of [requestApproval] for an identifier that is not stored yet *)
Definition create_request (ctx : context W) (command : approvalRequestCommand) (now : Time) (digest : string)
  : service approvalResult :=
  let proof := rc_approvalProof command in
  let fingerprint := pf_Fingerprint proof in
  let requestor := rc_Requestor command in
  let refuse err := failure "request" (rc_ApprovalID command) requestor fingerprint 0 err now in
  verified ← attempt (verifyApproval ctx proof);
  check match verified with
        | Ok verified =>
            deny_if (negb (String.eqb (f_FingerprintDigest (vp_Fingerprint verified))
                             (f_FingerprintDigest fingerprint)))
              (NewError Denied "fingerprint_authority") ;;
            Ok (vp_ActionTier verified)
        | Err _ => Err (NewError Denied "fingerprint_authority")
        end refuse (fun actionTier =>
  eventID ← attempt (newEventID now);
  check eventID refuse (fun eventID =>
  commit ctx "request" (rc_IdempotencyKey command) 0 false
    (request_record command actionTier digest eventID now) requestor fingerprint now)).

Definition requestApproval (ctx : context W) (command : approvalRequestCommand) : service approvalResult :=
  now ← now;
  let fingerprint := pf_Fingerprint (rc_approvalProof command) in
  let requestor := rc_Requestor command in
  let refuse revision err := failure "request" (rc_ApprovalID command) requestor fingerprint revision err now in
  ready ← context_ready ctx;
  check ready (refuse 0) (fun _ =>
  check (validCommand (rc_ApprovalID command) (rc_IdempotencyKey command) "approval_requested" 1) (refuse 0) (fun _ =>
  check (validateActor requestor (f_OrganizationID fingerprint) (f_TenantID fingerprint) (f_CaseID fingerprint)
           "action.request") (refuse 0) (fun _ =>
  check (deny_if (negb (String.eqb (aa_ActorID requestor) (f_RequestorActorID fingerprint)))
           (NewError Denied "requestor_binding")) (refuse 0) (fun _ =>
  check (validateRequestorPrincipal requestor (rc_Principal command)) (refuse 0) (fun _ =>
  check (operationDigest (operation_json (request_material command))) (refuse 0) (fun digest =>
  let key := recordKey (f_OrganizationID fingerprint) (f_TenantID fingerprint) (f_CaseID fingerprint)
    (rc_ApprovalID command) in
  stored ← attempt (store_Get ctx key);
  match stored with
  | Ok stored =>
      match decodeMetadata stored with
      | Ok (record, _) =>
          if String.eqb (a_LastOperationDigest record) digest then mret (mkResult record true)
          else refuse (mr_Revision stored) (NewError Conflict "approval_exists")
      | Err _ => refuse (mr_Revision stored) (NewError Conflict "approval_exists")
      end
  | Err getErr =>
      match StorageCode getErr with
      | StorageNotFound => create_request ctx command now digest
      | _ => refuse 0 (mapStorageError getErr)
      end
  end)))))).

Definition verifyProof (ctx : context W) (proof : option approvalProof) (record : ApprovalRecord) : service unit :=
  match proof with
  | None => pure (Err (NewError InvalidInput "fingerprint_proof_required"))
  | Some proof =>
      verified ← attempt (verifyApproval ctx proof);
      pure match verified with
           | Ok verified =>
               deny_if (negb (String.eqb (vp_ActionTier verified) (a_ActionTier record)) ||
                        negb (fingerprintMatches (vp_Fingerprint verified) record))
                 (NewError Denied "fingerprint_authority")
           | Err _ => Err (NewError Denied "fingerprint_authority")
           end
  end.

Definition validateOperation (ctx : context W) (operation : string) (command : approvalTransitionCommand)
  (record : ApprovalRecord) (now : Time) : service unit :=
  match parse_timestamp (a_ValidFrom record), parse_timestamp (a_ValidUntil record) with
  | Some validFrom, Some validUntil =>
      let state := a_State record in
      let current := negb (before now validFrom) && before now validUntil in
      if String.eqb operation "grant" then
        pure (deny_if (negb (String.eqb state Requested) || negb current) (NewError Denied "approval_not_current")) ;;
        match tc_Principal command with
        | None => pure (Err (NewError InvalidInput "approver_authority_required"))
        | Some principal =>
            pure (validateApproverPrincipal (tc_Actor command) principal record) ;;
            verifyProof ctx (tc_approvalProof command) record
        end
      else if String.eqb operation "reject" then
        pure (deny_if (negb (String.eqb state Requested)) (NewError Denied "transition_denied"))
      else if String.eqb operation "expire" then
        pure (deny_if ((negb (String.eqb state Requested) && negb (String.eqb state Granted)) ||
                       before now validUntil) (NewError Denied "expiration_not_due"))
      else if String.eqb operation "consume" then
        pure (deny_if (negb (String.eqb state Granted) || negb current) (NewError Denied "approval_not_current")) ;;
        pure (validateGrantAuthorities (tc_GrantAuthorities command) record) ;;
        verifyProof ctx (tc_approvalProof command) record
      else if String.eqb operation "revoke" then
        pure (deny_if (negb (String.eqb state Requested) && negb (String.eqb state Granted))
          (NewError Denied "transition_denied"))
      else pure (Err (NewError InvalidInput "operation_invalid"))
  | _, _ => pure (Err (NewError Denied "stored_record_invalid"))
  end.

Definition transition_material (operation : string) (command : approvalTransitionCommand) : operationMaterial :=
  mkOperationMaterial operation (tc_ApprovalID command) (tc_IdempotencyKey command) (tc_ExpectedRevision command)
    (tc_ReasonCode command) (tc_Actor command) (tc_Principal command) (tc_GrantAuthorities command)
    (makeProofMaterial <$> tc_approvalProof command).

(** The part of [transition] after the replay: from the record that was read to the commit *)
Definition advance (ctx : context W) (operation : string) (command : approvalTransitionCommand) (now : Time)
  (digest : string) (current : ApprovalRecord) (nil_grants : bool) : service approvalResult :=
  let actor := tc_Actor command in
  let fingerprint := fingerprintFromRecord current in
  let refuse err :=
    failure operation (tc_ApprovalID command) actor fingerprint (a_Revision current) err now in
  check (deny_if (negb (a_Revision current =? tc_ExpectedRevision command)) (NewError Conflict "stale_revision"))
    refuse (fun _ =>
  check (validateTransitionActor operation actor current) refuse (fun _ =>
  allowed ← attempt (validateOperation ctx operation command current now);
  check allowed refuse (fun _ =>
  eventID ← attempt (newEventID now);
  check eventID refuse (fun eventID =>
  let next := applyTransition operation command
    (next_of current (tc_ReasonCode command) actor digest eventID now) now in
  check (ValidateTransition current next) refuse (fun _ =>
  commit ctx operation (tc_IdempotencyKey command) (a_Revision current)
    (nil_grants && negb (String.eqb operation "grant")) next actor fingerprint now))))).

Definition transition (ctx : context W) (operation : string) (command : approvalTransitionCommand)
  : service approvalResult :=
  now ← now;
  let actor := tc_Actor command in
  let expected := tc_ExpectedRevision command in
  let refuse err :=
    failure operation (tc_ApprovalID command) actor (proofFingerprint (tc_approvalProof command)) expected err now in
  ready ← context_ready ctx;
  check ready refuse (fun _ =>
  check (validCommand (tc_ApprovalID command) (tc_IdempotencyKey command) (tc_ReasonCode command) expected) refuse (fun _ =>
  check (operationDigest (operation_json (transition_material operation command))) refuse (fun digest =>
  let key := recordKey (OrganizationID (tc_Case command)) (TenantID (tc_Case command)) (CaseID (tc_Case command))
    (tc_ApprovalID command) in
  stored ← attempt (store_Get ctx key);
  match stored with
  | Err err => refuse (mapStorageError err)
  | Ok stored =>
      check (decodeMetadata stored) refuse (fun '(current, nil_grants) =>
      if String.eqb (a_LastOperationDigest current) digest && (a_Revision current =? u64 (expected + 1))
      then mret (mkResult current true)
      else advance ctx operation command now digest current nil_grants)
  end))).

Definition grantApproval (ctx : context W) := transition ctx "grant".
Definition rejectApproval (ctx : context W) := transition ctx "reject".
Definition expireApproval (ctx : context W) := transition ctx "expire".
Definition consumeApproval (ctx : context W) := transition ctx "consume".
Definition revokeApproval (ctx : context W) := transition ctx "revoke".
End service.

(** ** approval_audit_adapter.go *)

Definition lifecycle_audit_event (source : Event) : TamperAudit.Event :=
  TamperAudit.mkEvent TamperAudit.EventSchemaVersion TamperAudit.ContractVersion (e_EventID source)
    (e_OrganizationID source) (e_TenantID source) (e_CaseID source) (e_ActorID source) (e_ActorRevision source)
    SchemaVersion (e_Operation source) (e_Outcome source) (e_ReasonCode source) (e_ApprovalID source)
    (e_RecordRevision source) (e_FingerprintDigest source) (Some []) (e_OccurredAt source).

Definition newDurableApprovalAuditSink {A} (appender : option A) : result Error A :=
  match appender with
  | None => Err (NewError InvalidInput "audit_dependencies")
  | Some appender => Ok appender
  end.

(** [durableApprovalAuditSink.AppendApprovalLifecycleEvent], over the appender of the sink *)
Definition append_lifecycle_event {W E} (AppendAuditEvent : TamperAudit.Event -> prog W E unit) (source : Event)
  : prog W Error unit :=
  let unavailable := NewError Unavailable "audit_unavailable" in
  pure (or_err (ValidateEvent source) unavailable) ;;
  let event := lifecycle_audit_event source in
  pure (or_err (TamperAudit.ValidateEvent event) unavailable) ;;
  map_err (fun _ => unavailable) (AppendAuditEvent event).
