(* ===== verification/ApprovalBrokerFacts.v ===== *)
(** * The approval service: its records, and what its checks mean

    A record the service commits is the record it reads back, and a stored record it reads is
    a valid approval.
    The binary search of [contains] finds exactly the members of a sorted set of tokens, and
    the authority checks of [approval_authority.go] and [approval_transition.go], which are
    programs, mean the plain conditions [entitled], [eligible] and [still_eligible]. *)

From S2P Require Import Prelude GoStrings GoRegexp GoTime GoJson DomainContract Sha256 Domain GoStruct GoCodec Storage StorageFacts Authority TamperAudit ApprovalLifecycle ApprovalLifecycleFacts ApprovalCodec ApprovalBroker.

Local Open Scope string_scope.
Local Open Scope Z_scope.

(** ** The envelope *)

Lemma envelope_sorted e : sort_json (envelope_json e) =
  JObj [("case_id", JStr (en_CaseID e)); ("created_at", JStr (en_CreatedAt e));
        ("data", sort_json (default JNull (en_Data e))); ("id", JStr (en_ID e)); ("kind", JStr (en_Kind e));
        ("organization_id", JStr (en_OrganizationID e)); ("revision", json_uint (en_Revision e));
        ("schema", JStr (en_Schema e)); ("tenant_id", JStr (en_TenantID e))].
Proof. by destruct e. Qed.

Lemma decode_sorted_envelope schema kind id o t c revision created data :
  decode_envelope (JObj [("case_id", JStr c); ("created_at", JStr created); ("data", data); ("id", JStr id);
    ("kind", JStr kind); ("organization_id", JStr o); ("revision", JNum revision); ("schema", JStr schema);
    ("tenant_id", JStr t)]) =
  (n ← parse_uint 64 revision; Some (mkEnvelope schema kind id o t c n created (Some data))).
Proof. cbn -[parse_uint]. by destruct (parse_uint 64 revision). Qed.

Lemma envelope_back e raw : en_Data e = Some raw -> is_u64 (en_Revision e) -> sort_json raw = raw ->
  decode_envelope (sort_json (envelope_json e)) = Some e.
Proof.
  intros Hd Hu Hs. rewrite envelope_sorted, Hd. cbn [default from_option id]. rewrite Hs. unfold json_uint.
  rewrite decode_sorted_envelope, parse_format_uint by done. destruct e. cbn in *. by subst.
Qed.

Lemma canonical_marshal html v c : json_wf 64 v = true -> Canonicalize (marshal html v) = Ok c ->
  c = marshal false (sort_json v).
Proof.
  intros Hwf H. assert (Hlen : len (marshal html v) <= MaxInputBytes).
  { pose proof H as H0. unfold Canonicalize in H0. apply bind_ok in H0 as (w & Hd & _).
    unfold DecodeUnique in Hd. apply seq_ok in Hd as [Hd _]. apply deny_if_ok in Hd. bool_split. lia. }
  rewrite Canonicalize_marshal in H by done. by injection H.
Qed.

(** The members of the envelope are well-formed. *)
Lemma envelope_wf e raw : en_Data e = Some raw -> json_wf 63 raw = true ->
  Forall (fun s => valid_string s = true)
    [en_Schema e; en_Kind e; en_ID e; en_OrganizationID e; en_TenantID e; en_CaseID e; en_CreatedAt e] ->
  json_wf 64 (envelope_json e) = true.
Proof.
  intros Hd Hraw Hall.
  repeat match goal with H : Forall _ (_ :: _) |- _ => apply Forall_cons_1 in H as [? H] end.
  destruct e. cbn in Hd. subst. unfold envelope_json. cbn -[json_wf bool_decide json_uint format_uint] in *.
  cbn [json_wf]. apply andb_true_iff. split; [|by vm_compute].
  cbn [forallb fst snd]. rewrite !andb_true_iff. split_and!; try done; first [by apply format_uint_canonical | done].
Qed.

(** ** Records *)

Lemma CanonicalRecord_ok nil_grants r data : approval_typed r -> CanonicalRecord nil_grants r = Ok data ->
  ValidateRecord r = Ok tt /\ exists raw, json_wf 63 raw = true /\ json_wf 64 raw = true /\ sort_json raw = raw /\
    data = marshal false raw /\ Canonicalize data = Ok data /\
    decode_text record_codec data = Some (record_tuple nil_grants r).
Proof.
  intros Ht H. unfold CanonicalRecord in H. apply seq_ok in H as [Hv H]. apply or_err_ok in H. split; [done|].
  pose proof (typed_record nil_grants r Ht Hv) as Hty. destruct record_codec_plain as [Hp _].
  assert (Hdepth : (type_depth (c_type record_codec) <= 63)%nat) by (vm_compute; lia).
  pose proof (encode_wf _ _ 63 Hp Hty Hdepth) as Hwf.
  exists (sort_json (encode (c_type record_codec) (c_to record_codec (record_tuple nil_grants r)))).
  destruct (canonical_struct_inv _ Hp record_codec_depth _ _ Hty H) as [Hdata _]. split_and!.
  - by apply json_wf_sort.
  - apply json_wf_sort. exact (encode_wf _ _ 64 Hp Hty record_codec_depth).
  - by apply (sort_json_idemp 63).
  - done.
  - exact (canonical_struct_fixed _ Hp record_codec_depth _ _ Hty H).
  - unfold decode_text. rewrite (decode_canonical_struct _ Hp record_codec_depth _ _ Hty H).
    cbn [mbind option_bind]. apply c_of_to.
Qed.

(** The parts of a metadata record the service builds *)
Lemma metadataRecord_ok nil_grants r m : approval_typed r -> metadataRecord nil_grants r = Ok m ->
  ValidateRecord r = Ok tt /\ ValidateMetadataRecord m = Ok tt /\
  mr_Key m = recordKey (a_OrganizationID r) (a_TenantID r) (a_CaseID r) (a_ApprovalID r) /\
  mr_Revision m = a_Revision r /\
  exists data raw, CanonicalRecord nil_grants r = Ok data /\ data = marshal false raw /\ sort_json raw = raw /\
    let e := mkEnvelope "coh.domain/v1" "approval" (a_ApprovalID r) (a_OrganizationID r) (a_TenantID r) (a_CaseID r)
      (a_Revision r) (a_RequestedAt r) (Some raw) in
    json_wf 64 (envelope_json e) = true /\ mr_Canonical m = marshal false (sort_json (envelope_json e)).
Proof.
  intros Ht H. unfold metadataRecord in H. apply bind_ok in H as (data & Hdata & H).
  destruct (CanonicalRecord_ok _ _ _ Ht Hdata) as (Hv & raw & Hwf & Hwf64 & Hsort & -> & _ & _).
  rewrite read_value_marshal in H by done. cbn [or_err mbind result_bind] in H.
  apply bind_ok in H as (canonical & Hcan & H). apply or_err_ok in Hcan. cbv zeta in H.
  apply seq_ok in H as [Hm [= <-]]. apply or_err_ok in Hm. cbn [mr_Key mr_Revision mr_Canonical].
  split_and!; try done. exists (marshal false raw), raw. do 3 (split; [done|]). cbv zeta.
  set (e := mkEnvelope _ _ _ _ _ _ _ _ _) in *.
  assert (He : json_wf 64 (envelope_json e) = true).
  { destruct (record_valid_texts r Hv) as [_ Hids _ Htimes _ _]. apply (envelope_wf e raw); [done|done|].
    unfold record_identities in Hids.
    repeat match goal with H : Forall _ (_ :: _) |- _ => apply Forall_cons_1 in H as [? H] end.
    repeat constructor; done. }
  split; [done|]. by apply canonical_marshal in Hcan.
Qed.

(** What the service commits, it reads back. *)
Lemma metadata_back nil_grants r m : approval_typed r -> (nil_grants = true -> a_Grants r = []) ->
  metadataRecord nil_grants r = Ok m -> decodeMetadata m = Ok (r, nil_grants).
Proof.
  intros Ht Hnil H.
  destruct (metadataRecord_ok _ _ _ Ht H) as (Hv & _ & Hkey & Hrev & data & raw & Hdata & Hraw & Hsort & Hwf & Hcan).
  destruct (CanonicalRecord_ok _ _ _ Ht Hdata) as (_ & _ & _ & _ & _ & _ & Hfix & Hdec).
  pose proof (canonical_decodes _ _ _ Ht Hnil Hdata) as Hrec.
  unfold decodeMetadata. rewrite Hcan, read_value_marshal by (by apply json_wf_sort). cbn [or_err mbind result_bind].
  erewrite (envelope_back _ raw); [|done|by apply Ht|done]. cbn [en_Schema en_Kind en_Data].
  rewrite !String.eqb_refl. cbn [negb orb deny_if mbind result_bind].
  rewrite <- Hraw, Hfix. cbn [or_err mbind result_bind]. rewrite Hrec. cbn [or_err mbind result_bind].
  rewrite Hkey, Hrev. cbn [recordKey rk_ID]. rewrite String.eqb_refl, Z.eqb_refl. cbn [negb orb deny_if mbind result_bind].
  unfold decoded_nil_grants. rewrite Hdec. by destruct nil_grants.
Qed.

(** What the service reads is a valid, well-typed approval of the key's revision. *)
Lemma decodeMetadata_ok m r nil_grants : decodeMetadata m = Ok (r, nil_grants) ->
  approval_typed r /\ ValidateRecord r = Ok tt /\ a_ApprovalID r = rk_ID (mr_Key m) /\ a_Revision r = mr_Revision m /\
  (nil_grants = true -> a_Grants r = []).
Proof.
  unfold decodeMetadata. intros (value & _ & H)%bind_ok. destruct (decode_envelope value) as [e|]; [|done].
  apply seq_ok in H as [_ H]. destruct (en_Data e) as [raw|]; [|done].
  apply bind_ok in H as (c & _ & H). apply bind_ok in H as (r' & Hr & H). apply or_err_ok in Hr.
  apply seq_ok in H as [Hid [= <- <-]]. apply deny_if_ok in Hid. bool_split.
  destruct (decode_record_inv _ _ Hr) as (Hv & Ht & _). split_and!; [done|done|by apply String.eqb_eq|by apply Z.eqb_eq|].
  unfold DecodeRecord in Hr. destruct (Canonicalize c) as [c'|]; [|done]. apply seq_ok in Hr as [Heq Hr].
  apply deny_if_ok, negb_false_iff, String.eqb_eq in Heq as <-. unfold decoded_nil_grants.
  destruct (decode_text record_codec c) as [x|]; [|done]. apply seq_ok in Hr as [_ [= <-]].
  repeat match goal with x : _ * _ |- _ => destruct x end. destruct u. destruct s16; [done|]. by intros _.
Qed.

(** ** The approval service: what its checks mean *)

(** ** Sorted sets of tokens *)

Lemma adjacent_distinct_tokens_ok values previous : adjacent_distinct_tokens previous values = true ->
  adjacent_equal (match previous with Some p => p :: values | None => values end) = false /\
  Forall (fun v => tokenPattern v = true) values.
Proof.
  revert previous. induction values as [|v values IH]; intros previous; cbn [adjacent_distinct_tokens].
  { intros _. by destruct previous. }
  destruct (negb (tokenPattern v) || _) eqn:E; [done|]. apply orb_false_iff in E as [Ht%negb_false_iff Hp].
  intros [Ha Hf]%IH. split; [|by constructor].
  destruct previous as [p|]; [|done]. cbn [adjacent_equal]. apply orb_false_iff. split; [|done].
  by rewrite String.eqb_sym.
Qed.

Lemma sortedUniqueTokens_ok values : sortedUniqueTokens values = true ->
  increasing values /\ Forall (fun v => tokenPattern v = true) values.
Proof.
  unfold sortedUniqueTokens. destruct (is_sorted values) eqn:Hs; [|done]. cbn.
  intros [Ha Hf]%adjacent_distinct_tokens_ok. split; [|done]. by apply adjacent_equal_iff.
Qed.

Lemma contains_in values expected : increasing values -> contains values expected = true <-> In expected values.
Proof. intros H. by apply search_found. Qed.

(** ** Authority *)

(** An active actor of the scope that holds the permission *)
Record entitled (actor : ActorAuthority) (organizationID tenantID caseID permission : string) : Prop := {
  en_active : aa_Active actor = true;
  en_organization : aa_OrganizationID actor = organizationID;
  en_tenant : aa_TenantID actor = tenantID;
  en_case : aa_CaseID actor = caseID;
  en_identity : uuidPattern (aa_ActorID actor) = true /\ aa_Revision actor <> 0;
  en_roles : increasing (items (aa_Roles actor));
  en_permission : In permission (items (aa_Permissions actor)) }.

Lemma validateActor_ok actor o t c permission : validateActor actor o t c permission = Ok tt ->
  entitled actor o t c permission.
Proof.
  unfold validateActor. rewrite !seq_ok, !deny_if_ok. intros (Hid & Hscope & Hactive & Hsets & Hperm). bool_split.
  destruct (sortedUniqueTokens_ok (items (aa_Roles actor))) as [Hroles _]; [done|].
  destruct (sortedUniqueTokens_ok (items (aa_Permissions actor))) as [Hp _]; [done|].
  split; try done; try by apply String.eqb_eq.
  - split; [done|by apply Z.eqb_neq].
  - by apply contains_in.
Qed.

(** A person who may approve the action of the record: entitled to decide, an approver, an
    enrolled human, and not the one who requested it *)
Record eligible (actor : ActorAuthority) (principal : approvalPrincipalAuthority) (r : ApprovalRecord) : Prop := {
  el_entitled : entitled actor (a_OrganizationID r) (a_TenantID r) (a_CaseID r) "approval.decide";
  el_role : In "approver" (items (aa_Roles actor));
  el_human : pa_IdentityKind principal = "human";
  el_enrolled : pa_Enrolled principal = true /\ pa_EnrollmentRevision principal <> 0;
  el_bound : pa_ActorID principal = aa_ActorID actor /\ pa_ActorRevision principal = aa_Revision actor;
  el_other : aa_ActorID actor <> a_RequestorActorID r /\ pa_PrincipalID principal <> a_RequestorPrincipalID r }.

Lemma validateApproverPrincipal_ok actor principal r : validateApproverPrincipal actor principal r = Ok tt ->
  eligible actor principal r.
Proof.
  unfold validateApproverPrincipal. rewrite !seq_ok, !deny_if_ok. intros (Ha%validateActor_ok & Hp & Hother).
  bool_split. split; try done; try by apply String.eqb_eq.
  - apply contains_in; [apply Ha|done].
  - split; [done|by apply Z.eqb_neq].
  - split; [by apply String.eqb_eq|by apply Z.eqb_eq].
  - split; by apply String.eqb_neq.
Qed.

(** The approver behind a recorded grant, as the authority of now shows it *)
Record still_eligible (r : ApprovalRecord) (g : Grant) (authority : approvalGrantAuthority) : Prop := {
  se_actor : aa_ActorID (ga_Actor authority) = g_ActorID g;
  se_principal : pa_PrincipalID (ga_Principal authority) = g_PrincipalID g;
  se_revisions : g_ActorRevision g <= aa_Revision (ga_Actor authority) /\
    g_EnrollmentRevision g <= pa_EnrollmentRevision (ga_Principal authority);
  se_eligible : eligible (ga_Actor authority) (ga_Principal authority) r }.

Lemma validateGrantAuthorities_ok authorities r : validateGrantAuthorities authorities r = Ok tt ->
  Z.of_nat (length (a_Grants r)) = a_RequiredGrantCount r /\ Forall2 (still_eligible r) (a_Grants r) authorities.
Proof.
  unfold validateGrantAuthorities. rewrite seq_ok, deny_if_ok. intros [Hlen Hall]. bool_split.
  apply Nat.eqb_eq in H. apply Z.eqb_eq in H0. split; [lia|]. apply for_each_ok in Hall. clear H0.
  revert authorities H Hall. induction (a_Grants r) as [|g grants IH]; intros [|a l] Hlen; try done; cbn [combine].
  intros Hall. inversion_clear Hall as [|? ? Hg Hrest]. constructor; [|apply IH; [by injection Hlen|done]].
  unfold validate_grant_authority in Hg. rewrite seq_ok, deny_if_ok in Hg. destruct Hg as [Hg He%validateApproverPrincipal_ok].
  bool_split. split; try done; try by apply String.eqb_eq. split; by apply Z.ltb_ge.
Qed.
