(* ===== verification/ApprovalBrokerRuns.v ===== *)
(** * The approval service: what a call does

    Every call of the service, over any store and ports, leaves one of a few traces: a refusal
    that is audited and sends nothing, a replay, or one transaction with a checked transition. *)

From S2P Require Import Prelude GoStrings GoRegexp GoTime GoJson DomainContract Sha256 Domain GoStruct GoCodec Storage StorageFacts Authority TamperAudit ApprovalLifecycle ApprovalLifecycleFacts ApprovalCodec ApprovalBroker ApprovalBrokerFacts.

Local Open Scope string_scope.
Local Open Scope Z_scope.

(** ** Reason codes

    Every error of the service carries a reason code that an audit event accepts. *)

Definition coded {A} (r : result Error A) : Prop :=
  forall err, r = Err err -> tokenPattern (ApprovalLifecycle.Reason err) = true.

Lemma coded_ok {A} (a : A) : coded (Ok a).
Proof. by intros ?. Qed.

Lemma coded_err {A} err : tokenPattern (ApprovalLifecycle.Reason err) = true -> coded (A := A) (Err err).
Proof. by intros H e [= <-]. Qed.

Lemma coded_deny b err : tokenPattern (ApprovalLifecycle.Reason err) = true -> coded (deny_if b err).
Proof. intros H e [_ <-]%deny_if_err. done. Qed.

Lemma coded_or_err {E A} (m : result E A) err : tokenPattern (ApprovalLifecycle.Reason err) = true -> coded (or_err m err).
Proof. destruct m; [by intros _ ?|]. by intros H e' [= <-]. Qed.

Lemma coded_bind {A B} (m : result Error A) (f : A -> result Error B) :
  coded m -> (forall a, coded (f a)) -> coded (m ≫= f).
Proof. intros Hm Hf e [H|(a & _ & H)]%bind_err; [by apply Hm|by eapply Hf]. Qed.

Lemma coded_for_each {A} (f : A -> result Error unit) l : (forall x, coded (f x)) -> coded (for_each f l).
Proof. intros Hf. induction l; cbn; [apply coded_ok|by apply coded_bind]. Qed.

Create HintDb coded.
#[local] Hint Resolve coded_ok : coded.

(** Walks through a check; what it calls is in the hint database. *)
Ltac code :=
  cbv zeta;
  repeat first
    [ solve [auto 1 with coded nocore] | apply coded_deny; vm_compute; reflexivity
    | apply coded_err; vm_compute; reflexivity | apply coded_or_err; vm_compute; reflexivity
    | apply coded_for_each; intros; cbv zeta | apply coded_bind; [|intros] | case_match ].

Lemma validate_grant_coded r t1 t2 g : coded (validate_grant r t1 t2 g).
Proof. unfold validate_grant. code. Qed.
#[local] Hint Resolve validate_grant_coded : coded.

Lemma ValidateRecord_coded r : coded (ValidateRecord r).
Proof. unfold ValidateRecord. code. Qed.
#[local] Hint Resolve ValidateRecord_coded : coded.

Lemma ValidateTransition_coded p n : coded (ValidateTransition p n).
Proof. unfold ValidateTransition, validateRequestedTransition, validateGrantedTransition. code. Qed.

Lemma validateActor_coded actor o t c permission : coded (validateActor actor o t c permission).
Proof. unfold validateActor. code. Qed.
#[local] Hint Resolve validateActor_coded : coded.

Lemma validateApproverPrincipal_coded actor p r : coded (validateApproverPrincipal actor p r).
Proof. unfold validateApproverPrincipal. code. Qed.
#[local] Hint Resolve validateApproverPrincipal_coded : coded.

Lemma validateRequestorPrincipal_coded actor p : coded (validateRequestorPrincipal actor p).
Proof. unfold validateRequestorPrincipal. code. Qed.

Lemma validateTransitionActor_coded operation actor r : coded (validateTransitionActor operation actor r).
Proof. unfold validateTransitionActor. code. Qed.

Lemma validateGrantAuthorities_coded l r : coded (validateGrantAuthorities l r).
Proof. unfold validateGrantAuthorities, validate_grant_authority. code. Qed.

Lemma validCommand_coded id key reason revision : coded (validCommand id key reason revision).
Proof. unfold validCommand. code. Qed.

Lemma contextError_coded {W} (ctx : context W) w : coded (contextError ctx w).
Proof. unfold contextError. code. Qed.

Lemma operationDigest_coded v : coded (operationDigest v).
Proof. unfold operationDigest. code. Qed.

Lemma CanonicalRecord_coded nil_grants r : coded (CanonicalRecord nil_grants r).
Proof. unfold CanonicalRecord. code. Qed.
#[local] Hint Resolve CanonicalRecord_coded : coded.

Lemma metadataRecord_coded nil_grants r : coded (metadataRecord nil_grants r).
Proof. unfold metadataRecord. code. Qed.

Lemma decodeMetadata_coded m : coded (decodeMetadata m).
Proof. unfold decodeMetadata. code. Qed.

Lemma mapStorageError_coded err : tokenPattern (ApprovalLifecycle.Reason (mapStorageError err)) = true.
Proof. unfold mapStorageError. destruct (StorageCode err); vm_compute; reflexivity. Qed.

#[local] Hint Resolve ValidateTransition_coded validateRequestorPrincipal_coded validateTransitionActor_coded
  validateGrantAuthorities_coded validCommand_coded contextError_coded operationDigest_coded metadataRecord_coded
  decodeMetadata_coded mapStorageError_coded : coded.

(** The reason code of an error some check returned *)
Ltac reason_code :=
  match goal with
  | H : ?r = Err ?e |- tokenPattern (ApprovalLifecycle.Reason ?e) = true =>
      refine ((_ : coded r) e H); solve [assumption | code]
  | |- tokenPattern (ApprovalLifecycle.Reason (mapStorageError _)) = true => apply mapStorageError_coded
  | |- tokenPattern (ApprovalLifecycle.Reason ?e) = true => is_var e; assumption
  | |- _ => vm_compute; reflexivity
  end.

(** ** Traces *)

Inductive broker_event : Type :=
| Got (key : RecordKey) (answer : result storage_error MetadataRecord)
| Verified (proof : approvalProof) (answer : result unit approvalVerifiedProof)
| Sent (tx : Transaction) (answer : result storage_error CommitResult)
| Audited (event : Event) (answer : result unit unit).

(** A world whose state tells which calls its store and ports have answered *)
Class Observed (W : Type) {store : MetadataStore W} {ports : BrokerPorts W} : Type := {
  trace : W -> list broker_event;
  trace_get : forall ctx key w r w', store_Get ctx key w = (r, w') -> trace w' = (trace w ++ [Got key r])%list;
  trace_transact : forall ctx tx w r w', store_Transact ctx tx w = (r, w') -> trace w' = (trace w ++ [Sent tx r])%list;
  trace_verify : forall ctx p w r w', verifyApproval ctx p w = (r, w') -> trace w' = (trace w ++ [Verified p r])%list;
  trace_audit : forall e w r w', AppendApprovalLifecycleEvent e w = (r, w') -> trace w' = (trace w ++ [Audited e r])%list;
  trace_now : forall w, trace (snd (BrokerNow w)) = trace w;
  trace_random : forall w r w', ReadRandom w = (r, w') -> trace w' = trace w }.

Definition audit_unavailable : Error := NewError Unavailable "audit_unavailable".

(** A time the clock showed *)
Definition clocked {W} {ports : BrokerPorts W} (t : Time) : Prop := exists w, t = to_utc (fst (BrokerNow w)).

(** What [failure] leaves: one audited event about the operation and its error; or the answer
    [audit_unavailable], because the sink did not take that event, no identifier could be
    drawn, or the event is not valid, and then no event about the call was accepted *)
Inductive refusal {W} {ports : BrokerPorts W} (operation approvalID : string) (actor : ActorAuthority) (err : Error)
  : list broker_event -> Error -> Prop :=
| refusal_audited eventID fingerprint revision t event : clocked t ->
    event = refusal_event eventID operation approvalID actor fingerprint revision err t ->
    ValidateEvent event = Ok tt ->
    refusal operation approvalID actor err [Audited event (Ok tt)] err
| refusal_lost eventID fingerprint revision t event u w w' : clocked t ->
    event = refusal_event eventID operation approvalID actor fingerprint revision err t ->
    ValidateEvent event = Ok tt -> AppendApprovalLifecycleEvent event w = (Err u, w') ->
    refusal operation approvalID actor err [Audited event (Err u)] audit_unavailable
| refusal_unnamed t w u w' : newEventID t w = (Err u, w') -> clocked t ->
    refusal operation approvalID actor err [] audit_unavailable
| refusal_invalid eventID fingerprint revision t w w' : newEventID t w = (Ok eventID, w') -> clocked t ->
    ValidateEvent (refusal_event eventID operation approvalID actor fingerprint revision err t) <> Ok tt ->
    refusal operation approvalID actor err [] audit_unavailable.

(** No write and no audit event *)
Definition quiet (event : broker_event) : Prop :=
  match event with Got _ _ | Verified _ _ => True | _ => False end.

(** The verification a transition needs: the verifier answered so when it was asked *)
Definition proven {W} {ports : BrokerPorts W} (proof : option approvalProof) (cur : ApprovalRecord) (events : list broker_event) : Prop :=
  exists p verified, proof = Some p /\ events = [Verified p (Ok verified)] /\
    (exists ctx w w', verifyApproval ctx p w = (Ok verified, w')) /\
    vp_ActionTier verified = a_ActionTier cur /\ fingerprintMatches (vp_Fingerprint verified) cur = true.

Definition in_window (cur : ApprovalRecord) (now : Time) : Prop :=
  exists from until, parse_timestamp (a_ValidFrom cur) = Some from /\ parse_timestamp (a_ValidUntil cur) = Some until /\
    before now from = false /\ before now until = true.

Inductive authorized {W} {ports : BrokerPorts W} (command : approvalTransitionCommand) (cur : ApprovalRecord) (now : Time)
  : string -> list broker_event -> Prop :=
| authorized_grant principal events : a_State cur = Requested -> in_window cur now ->
    tc_Principal command = Some principal -> validateApproverPrincipal (tc_Actor command) principal cur = Ok tt ->
    proven (tc_approvalProof command) cur events -> authorized command cur now "grant" events
| authorized_consume events : a_State cur = Granted -> in_window cur now ->
    validateGrantAuthorities (tc_GrantAuthorities command) cur = Ok tt ->
    proven (tc_approvalProof command) cur events -> authorized command cur now "consume" events
| authorized_reject : a_State cur = Requested -> authorized command cur now "reject" []
| authorized_expire until : a_State cur = Requested \/ a_State cur = Granted ->
    parse_timestamp (a_ValidUntil cur) = Some until -> before now until = false ->
    authorized command cur now "expire" []
| authorized_revoke : a_State cur = Requested \/ a_State cur = Granted -> authorized command cur now "revoke" [].

(** The transaction of a transition, from the record that was read *)
Record planned {W} {ports : BrokerPorts W} (operation : string) (command : approvalTransitionCommand) (stored : MetadataRecord)
  (cur next : ApprovalRecord) (nil_grants : bool) (tx : Transaction) (verification : list broker_event) : Prop := {
  pl_decoded : decodeMetadata stored = Ok (cur, nil_grants);
  pl_revision : a_Revision cur = tc_ExpectedRevision command;
  pl_actor : validateTransitionActor operation (tc_Actor command) cur = Ok tt;
  pl_next : exists opdigest eventID now, clocked now /\ authorized command cur now operation verification /\
    next = applyTransition operation command
      (next_of cur (tc_ReasonCode command) (tc_Actor command) opdigest eventID now) now;
  pl_step : ValidateTransition cur next = Ok tt;
  pl_tx : exists metadata, metadataRecord (nil_grants && negb (String.eqb operation "grant")) next = Ok metadata /\
    tx = approval_transaction operation (tc_IdempotencyKey command) (a_Revision cur) next metadata }.

Definition transition_key (command : approvalTransitionCommand) : RecordKey :=
  recordKey (OrganizationID (tc_Case command)) (TenantID (tc_Case command)) (CaseID (tc_Case command))
    (tc_ApprovalID command).

Inductive transition_run {W} {ports : BrokerPorts W} (operation : string) (command : approvalTransitionCommand)
  : list broker_event -> result Error approvalResult -> Prop :=
| transition_refused reads approvalID after err e :
    Forall quiet reads -> tokenPattern (ApprovalLifecycle.Reason err) = true ->
    refusal operation approvalID (tc_Actor command) err after e ->
    transition_run operation command (reads ++ after) (Err e)
| transition_replayed stored cur nil_grants :
    decodeMetadata stored = Ok (cur, nil_grants) ->
    operationDigest (operation_json (transition_material operation command)) = Ok (a_LastOperationDigest cur) ->
    a_Revision cur = u64 (tc_ExpectedRevision command + 1) ->
    transition_run operation command [Got (transition_key command) (Ok stored)] (Ok (mkResult cur true))
| transition_committed stored cur next nil_grants tx verification value :
    planned operation command stored cur next nil_grants tx verification ->
    transition_run operation command
      ([Got (transition_key command) (Ok stored)] ++ verification ++ [Sent tx (Ok value)])
      (Ok (mkResult next (cr_Replayed value)))
| transition_lost stored cur next nil_grants tx verification err after e :
    planned operation command stored cur next nil_grants tx verification ->
    refusal operation (a_ApprovalID next) (tc_Actor command) (mapStorageError err) after e ->
    transition_run operation command
      ([Got (transition_key command) (Ok stored)] ++ verification ++ [Sent tx (Err err)] ++ after) (Err e).

(** The transaction of a request *)
Record requested {W} {ports : BrokerPorts W} (command : approvalRequestCommand) (verified : approvalVerifiedProof) (record : ApprovalRecord)
  (tx : Transaction) : Prop := {
  rq_command : validCommand (rc_ApprovalID command) (rc_IdempotencyKey command) "approval_requested" 1 = Ok tt;
  rq_actor : let f := pf_Fingerprint (rc_approvalProof command) in
    validateActor (rc_Requestor command) (f_OrganizationID f) (f_TenantID f) (f_CaseID f) "action.request" = Ok tt;
  rq_requestor : aa_ActorID (rc_Requestor command) = f_RequestorActorID (pf_Fingerprint (rc_approvalProof command));
  rq_principal : validateRequestorPrincipal (rc_Requestor command) (rc_Principal command) = Ok tt;
  rq_verified : exists ctx w w', verifyApproval ctx (rc_approvalProof command) w = (Ok verified, w');
  rq_fingerprint : f_FingerprintDigest (vp_Fingerprint verified) =
    f_FingerprintDigest (pf_Fingerprint (rc_approvalProof command));
  rq_record : exists opdigest eventID now, clocked now /\
    operationDigest (operation_json (request_material command)) = Ok opdigest /\
    record = request_record command (vp_ActionTier verified) opdigest eventID now;
  rq_tx : exists metadata, metadataRecord false record = Ok metadata /\
    tx = approval_transaction "request" (rc_IdempotencyKey command) 0 record metadata }.

Definition request_key (command : approvalRequestCommand) : RecordKey :=
  let f := pf_Fingerprint (rc_approvalProof command) in
  recordKey (f_OrganizationID f) (f_TenantID f) (f_CaseID f) (rc_ApprovalID command).

Inductive request_run {W} {ports : BrokerPorts W} (command : approvalRequestCommand) : list broker_event -> result Error approvalResult -> Prop :=
| request_refused reads approvalID after err e :
    Forall quiet reads -> tokenPattern (ApprovalLifecycle.Reason err) = true ->
    refusal "request" approvalID (rc_Requestor command) err after e ->
    request_run command (reads ++ after) (Err e)
| request_replayed stored cur nil_grants :
    decodeMetadata stored = Ok (cur, nil_grants) ->
    operationDigest (operation_json (request_material command)) = Ok (a_LastOperationDigest cur) ->
    request_run command [Got (request_key command) (Ok stored)] (Ok (mkResult cur true))
| request_committed missing verified record tx value :
    StorageCode missing = StorageNotFound -> requested command verified record tx ->
    request_run command
      [Got (request_key command) (Err missing); Verified (rc_approvalProof command) (Ok verified); Sent tx (Ok value)]
      (Ok (mkResult record (cr_Replayed value)))
| request_lost missing verified record tx err after e :
    StorageCode missing = StorageNotFound -> requested command verified record tx ->
    refusal "request" (a_ApprovalID record) (rc_Requestor command) (mapStorageError err) after e ->
    request_run command
      ([Got (request_key command) (Err missing); Verified (rc_approvalProof command) (Ok verified); Sent tx (Err err)] ++ after)
      (Err e).

(** ** Every call leaves such a trace *)

Section runs.
Context {W : Type} {store : MetadataStore W} {ports : BrokerPorts W} {observed : Observed W}.

(** The program ran from [w] to [w'] and left [events]. *)
Definition left (w w' : W) (events : list broker_event) : Prop := trace w' = (trace w ++ events)%list.

Lemma left_none w : left w w [].
Proof. unfold left. by rewrite app_nil_r. Qed.

Lemma left_app w1 w2 w3 l l' : left w1 w2 l -> left w2 w3 l' -> left w1 w3 (l ++ l').
Proof. unfold left. intros H H'. by rewrite H', H, app_assoc. Qed.

Lemma now_left w r w' : now w = (r, w') -> left w w' [] /\ exists t, r = Ok t /\ clocked t.
Proof.
  unfold now, atomically. pose proof (trace_now w) as Ht.
  assert (Hc : clocked (to_utc (fst (BrokerNow w)))) by (by exists w).
  destruct (BrokerNow w) as [t' w1]. cbn in Ht, Hc. intros [= <- <-].
  unfold left. rewrite Ht, app_nil_r. split; [done|]. by exists (to_utc t').
Qed.

Lemma newEventID_left t w r w' : newEventID t w = (r, w') -> left w w' [].
Proof.
  unfold newEventID. destruct (is_zero t); [intros [= _ <-]; apply left_none|].
  unfold mbind, prog_bind, map_err. destruct (ReadRandom w) as [[v|u] w1] eqn:E; apply trace_random in E;
    intros [= _ <-]; unfold left; by rewrite E, app_nil_r.
Qed.

Lemma newEventID_coded t w r w' : newEventID t w = (r, w') -> coded r.
Proof.
  unfold newEventID. destruct (is_zero t); [intros [= <- _]; by apply coded_err|].
  unfold mbind, prog_bind, map_err. destruct (ReadRandom w) as [[v|u] w1]; intros [= <- _];
    [apply coded_ok|by apply coded_err].
Qed.

Lemma failure_run {A} operation approvalID actor fingerprint revision err t w (res : result Error A) w' : clocked t ->
  failure operation approvalID actor fingerprint revision err t w = (res, w') ->
  exists e events, res = Err e /\ left w w' events /\ refusal operation approvalID actor err events e.
Proof.
  intros Hclock. unfold failure, mbind, prog_bind, map_err, pure.
  destruct (newEventID t w) as [[eventID|u] w1] eqn:Hid; pose proof (newEventID_left _ _ _ _ Hid) as Hl.
  2:{ intros [= <- <-]. exists audit_unavailable, []. split_and!; [done|done|by eapply refusal_unnamed]. }
  set (event := refusal_event _ _ _ _ _ _ _ _). destruct (ValidateEvent event) as [[]|u] eqn:Hv; cbn [or_err].
  2:{ intros [= <- <-]. exists audit_unavailable, []. split_and!; [done|done|]. apply (refusal_invalid _ _ _ _ eventID fingerprint revision t w w1); [done|done|].
      fold event. by rewrite Hv. }
  destruct (AppendApprovalLifecycleEvent event w1) as [[[]|u] w2] eqn:Ha; pose proof (trace_audit _ _ _ _ Ha) as Ht;
    intros [= <- <-]; (eexists _, _; split_and!; [done|exact (left_app _ _ _ _ _ Hl Ht)|]).
  - by econstructor.
  - by econstructor.
Qed.

Lemma commit_run ctx operation idempotencyKey expected nil_grants record actor fingerprint t w res w' : clocked t ->
  commit ctx operation idempotencyKey expected nil_grants record actor fingerprint t w = (res, w') ->
  (exists e err events, res = Err e /\ left w w' events /\ tokenPattern (ApprovalLifecycle.Reason err) = true /\
     refusal operation (a_ApprovalID record) actor err events e) \/
  exists metadata tx, metadataRecord nil_grants record = Ok metadata /\
    tx = approval_transaction operation idempotencyKey expected record metadata /\
    ((exists value, res = Ok (mkResult record (cr_Replayed value)) /\ left w w' [Sent tx (Ok value)]) \/
     exists err e events, res = Err e /\ left w w' ([Sent tx (Err err)] ++ events) /\
       refusal operation (a_ApprovalID record) actor (mapStorageError err) events e).
Proof.
  intros Hclock. unfold commit, check. destruct (metadataRecord nil_grants record) as [metadata|err] eqn:Hm.
  2:{ intros (e & events & H1 & H2 & H3)%failure_run; [|done]. left. exists e, err, events.
      split_and!; [done|done|by eapply metadataRecord_coded|done]. }
  unfold mbind, prog_bind, attempt. set (tx := approval_transaction _ _ _ _ _).
  destruct (store_Transact ctx tx w) as [answer w1] eqn:Htx. apply trace_transact in Htx. intros H. right.
  exists metadata, tx. split_and!; [done|done|]. destruct answer as [value|err].
  - injection H as <- <-. left. by exists value.
  - apply failure_run in H as (e & events & He & Hleft & Hr); [|done]. right. exists err, e, events.
    split_and!; [done|exact (left_app _ _ _ _ _ Htx Hleft)|done].
Qed.

Lemma verifyProof_run ctx proof cur w r w' : verifyProof ctx proof cur w = (r, w') ->
  exists events, left w w' events /\ Forall quiet events /\ coded r /\ (r = Ok tt -> proven proof cur events).
Proof.
  unfold verifyProof. destruct proof as [p|].
  2:{ intros [= <- <-]. exists []. split_and!; [apply left_none|done|by apply coded_err|done]. }
  unfold mbind, prog_bind, attempt, pure. destruct (verifyApproval ctx p w) as [answer w1] eqn:Hv.
  pose proof Hv as Hcall. apply trace_verify in Hv. intros [= <- <-]. exists [Verified p answer].
  split_and!; [done|by repeat constructor|destruct answer; code|].
  destruct answer as [verified|u]; [|done]. rewrite deny_if_ok. intros H. bool_split.
  exists p, verified. split_and!; [done|done|by exists ctx, w, w1|by apply String.eqb_eq|done].
Qed.

Lemma pure_run {E A} (r : result E A) w r' w' : pure r w = (r', w') -> r' = r /\ left w w' [].
Proof. intros [= <- <-]. split; [done|apply left_none]. Qed.

(** A check that calls nothing, then the rest *)
Lemma pure_then {E A} (r : result E unit) (m : prog W E A) w r' w' : (pure r ;; m) w = (r', w') ->
  (exists e, r = Err e /\ r' = Err e /\ left w w' []) \/ r = Ok tt /\ m w = (r', w').
Proof.
  unfold mbind, prog_bind, pure. destruct r as [[]|e]; [by right|]. intros [= <- <-]. left.
  exists e. split_and!; [done|done|apply left_none].
Qed.

(** What an operation leaves when it is refused before any check called out *)
Lemma silent_refusal command cur t operation err w w' : left w w' [] ->
  tokenPattern (ApprovalLifecycle.Reason err) = true ->
  exists events, left w w' events /\ Forall quiet events /\ coded (A := unit) (Err err) /\
    (Err err = Ok tt -> authorized command cur t operation events).
Proof. intros Hl Hr. exists []. split_and!; [done|done|by apply coded_err|done]. Qed.

Lemma validateOperation_run ctx operation command cur t w r w' :
  validateOperation ctx operation command cur t w = (r, w') ->
  exists events, left w w' events /\ Forall quiet events /\ coded r /\
    (r = Ok tt -> authorized command cur t operation events).
Proof.
  unfold validateOperation.
  destruct (parse_timestamp (a_ValidFrom cur)) as [from|] eqn:Hfrom.
  2:{ intros [-> Hl]%pure_run. by apply silent_refusal. }
  destruct (parse_timestamp (a_ValidUntil cur)) as [until|] eqn:Huntil.
  2:{ intros [-> Hl]%pure_run. by apply silent_refusal. }
  cbv zeta.
  assert (Hwin : negb (negb (before t from) && before t until) = false -> in_window cur t).
  { rewrite negb_false_iff, andb_true_iff, negb_true_iff. intros [? ?]. by exists from, until. }
  destruct (String.eqb_spec operation "grant") as [->|_].
  { intros [(e & [_ <-]%deny_if_err & -> & Hl)|[Hs H]]%pure_then; [by apply silent_refusal|].
    apply deny_if_ok, orb_false_iff in Hs as [Hs%negb_false_iff%String.eqb_eq Hw%Hwin].
    destruct (tc_Principal command) as [principal|] eqn:Hp; [|apply pure_run in H as [-> Hl]; by apply silent_refusal].
    apply pure_then in H as [(e & He & -> & Hl)|[Ha H]].
    { apply silent_refusal; [done|by eapply validateApproverPrincipal_coded]. }
    apply verifyProof_run in H as (events & Hl & Hq & Hc & Hok). exists events. split_and!; [done..|].
    intros Hr. econstructor; eauto. }
  destruct (String.eqb_spec operation "reject") as [->|_].
  { intros [-> Hl]%pure_run. exists []. split_and!; [done|done|code|].
    intros Hs%deny_if_ok%negb_false_iff%String.eqb_eq. by constructor. }
  destruct (String.eqb_spec operation "expire") as [->|_].
  { intros [-> Hl]%pure_run. exists []. split_and!; [done|done|code|].
    intros [Hs Ht]%deny_if_ok%orb_false_iff. econstructor; [|done|done].
    apply andb_false_iff in Hs as [Hs%negb_false_iff%String.eqb_eq|Hs%negb_false_iff%String.eqb_eq]; tauto. }
  destruct (String.eqb_spec operation "consume") as [->|_].
  { intros [(e & [_ <-]%deny_if_err & -> & Hl)|[Hs H]]%pure_then; [by apply silent_refusal|].
    apply deny_if_ok, orb_false_iff in Hs as [Hs%negb_false_iff%String.eqb_eq Hw%Hwin].
    apply pure_then in H as [(e & He & -> & Hl)|[Ha H]].
    { apply silent_refusal; [done|by eapply validateGrantAuthorities_coded]. }
    apply verifyProof_run in H as (events & Hl & Hq & Hc & Hok). exists events. split_and!; [done..|].
    intros Hr. econstructor; eauto. }
  destruct (String.eqb_spec operation "revoke") as [->|_].
  { intros [-> Hl]%pure_run. exists []. split_and!; [done|done|code|].
    intros Hs%deny_if_ok. constructor.
    apply andb_false_iff in Hs as [Hs%negb_false_iff%String.eqb_eq|Hs%negb_false_iff%String.eqb_eq]; tauto. }
  intros [-> Hl]%pure_run. by apply silent_refusal.
Qed.

(** A refusal after reads *)
Lemma refused_after operation command w w1 w2 reads approvalID fingerprint revision err t
  (res : result Error approvalResult) : clocked t ->
  failure operation approvalID (tc_Actor command) fingerprint revision err t w1 = (res, w2) ->
  left w w1 reads -> Forall quiet reads -> tokenPattern (ApprovalLifecycle.Reason err) = true ->
  exists events, left w w2 events /\ transition_run operation command events res.
Proof.
  intros Hclock (e & after & -> & Hl' & Hr)%failure_run Hl Hq Hcode; [|done]. exists (reads ++ after)%list.
  split; [by eapply left_app|by eapply transition_refused].
Qed.

Lemma request_refused_after command w w1 w2 reads approvalID fingerprint revision err t
  (res : result Error approvalResult) : clocked t ->
  failure "request" approvalID (rc_Requestor command) fingerprint revision err t w1 = (res, w2) ->
  left w w1 reads -> Forall quiet reads -> tokenPattern (ApprovalLifecycle.Reason err) = true ->
  exists events, left w w2 events /\ request_run command events res.
Proof.
  intros Hclock (e & after & -> & Hl' & Hr)%failure_run Hl Hq Hcode; [|done]. exists (reads ++ after)%list.
  split; [by eapply left_app|by eapply request_refused].
Qed.

Ltac refuse :=
  lazymatch goal with
  | |- exists events, _ /\ transition_run _ _ _ _ => eapply refused_after
  | |- exists events, _ /\ request_run _ _ _ => eapply request_refused_after
  end; [eassumption|eassumption|eassumption|first [eassumption|constructor]|reason_code].

Lemma applyTransition_id operation command next t : a_ApprovalID (applyTransition operation command next t) = a_ApprovalID next.
Proof. unfold applyTransition. repeat (case_match; try done). Qed.

(** A check, then the rest: a refusal, or the rest *)
Lemma advance_runs ctx operation command t opdigest stored cur nil_grants w w1 res w' : clocked t ->
  left w w1 [Got (transition_key command) (Ok stored)] -> decodeMetadata stored = Ok (cur, nil_grants) ->
  advance ctx operation command t opdigest cur nil_grants w1 = (res, w') ->
  exists events, left w w' events /\ transition_run operation command events res.
Proof.
  intros Hclock Hl Hdec H. assert (Hq : Forall quiet [Got (transition_key command) (Ok stored)]) by (by repeat constructor).
  unfold advance in H. unfold check at 1 in H.
  destruct (deny_if _ _) as [[]|err] eqn:Hrev; [|refuse].
  apply deny_if_ok, negb_false_iff, Z.eqb_eq in Hrev.
  unfold check at 1 in H. destruct (validateTransitionActor _ _ _) as [[]|err] eqn:Hactor; [|refuse].
  unfold mbind at 1, prog_bind at 1, attempt at 1 in H.
  destruct (validateOperation ctx operation command cur t w1) as [allowed w2] eqn:Hval.
  apply validateOperation_run in Hval as (verification & Hl2 & Hq2 & Hcode & Hauth).
  pose proof (left_app _ _ _ _ _ Hl Hl2) as Hl3. assert (Hq3 : Forall quiet ([Got (transition_key command) (Ok stored)] ++ verification))
    by (by apply Forall_app).
  unfold check at 1 in H. destruct allowed as [[]|err]; [|specialize (Hcode err eq_refl); refuse].
  unfold mbind at 1, prog_bind at 1, attempt at 1 in H. destruct (newEventID t w2) as [id w3] eqn:Hid.
  pose proof (newEventID_coded _ _ _ _ Hid) as Hidc. apply newEventID_left in Hid.
  pose proof (left_app _ _ _ _ _ Hl3 Hid) as Hl4. rewrite app_nil_r in Hl4.
  unfold check at 1 in H. destruct id as [eventID|err]; [|specialize (Hidc err eq_refl); refuse].
  unfold check at 1 in H. set (next := applyTransition _ _ _ _) in *.
  destruct (ValidateTransition cur next) as [[]|err] eqn:Hstep; [|refuse].
  apply commit_run in H as [(e & err & events & -> & Hl5 & Hcode' & Hr)|(metadata & tx & Hm & Htx & Hrest)]; [| |done].
  { eexists. split; [exact (left_app _ _ _ _ _ Hl4 Hl5)|]. by eapply transition_refused. }
  assert (Hplan : planned operation command stored cur next nil_grants tx verification).
  { split; try done; [|by exists metadata]. exists opdigest, eventID, t. split_and!; [done|by apply Hauth|done]. }
  destruct Hrest as [(value & -> & Hl5)|(err & e & events & -> & Hl5 & Hr)].
  - eexists. split; [exact (left_app _ _ _ _ _ Hl4 Hl5)|]. rewrite <- app_assoc. by eapply transition_committed.
  - eexists. split; [exact (left_app _ _ _ _ _ Hl4 Hl5)|]. rewrite <- app_assoc. by eapply transition_lost.
Qed.

Lemma transition_runs ctx operation command w res w' : transition ctx operation command w = (res, w') ->
  exists events, left w w' events /\ transition_run operation command events res.
Proof.
  intros H. unfold transition in H. unfold mbind at 1, prog_bind at 1 in H.
  destruct (now w) as [r w1] eqn:Hnow. apply now_left in Hnow as (Hnow & t & -> & Hclock). unfold mbind at 1, prog_bind at 1 in H. unfold context_ready in H. unfold check at 1 in H.
  destruct (contextError ctx w1) as [[]|err] eqn:Hctx; [|refuse].
  unfold check at 1 in H. destruct (validCommand _ _ _ _) as [[]|err] eqn:Hcmd; [|refuse].
  unfold check at 1 in H. destruct (operationDigest _) as [opdigest|err] eqn:Hop; [|refuse].
  unfold mbind at 1, prog_bind at 1, attempt at 1 in H. fold (transition_key command) in H.
  destruct (store_Get ctx (transition_key command) w1) as [answer w2] eqn:Hget. apply trace_get in Hget.
  pose proof (left_app _ _ _ _ _ Hnow Hget) as Hl. cbn [app] in Hl. clear Hnow Hget.
  assert (Hq : Forall quiet [Got (transition_key command) answer]) by (by repeat constructor).
  destruct answer as [stored|err]; [|refuse].
  unfold check at 1 in H. destruct (decodeMetadata stored) as [[cur nil_grants]|err] eqn:Hdec; [|refuse].
  destruct (String.eqb (a_LastOperationDigest cur) opdigest && (a_Revision cur =? u64 (tc_ExpectedRevision command + 1))) eqn:Hrep.
  { apply andb_true_iff in Hrep as [Hd%String.eqb_eq Hr%Z.eqb_eq]. injection H as <- <-.
    eexists. split; [exact Hl|]. eapply transition_replayed; [done|by rewrite Hd|done]. }
  by eapply advance_runs.
Qed.

(** What [requestApproval] has checked before it looks for the record *)
Record request_checked (command : approvalRequestCommand) : Prop := {
  ck_command : validCommand (rc_ApprovalID command) (rc_IdempotencyKey command) "approval_requested" 1 = Ok tt;
  ck_actor : let f := pf_Fingerprint (rc_approvalProof command) in
    validateActor (rc_Requestor command) (f_OrganizationID f) (f_TenantID f) (f_CaseID f) "action.request" = Ok tt;
  ck_requestor : aa_ActorID (rc_Requestor command) = f_RequestorActorID (pf_Fingerprint (rc_approvalProof command));
  ck_principal : validateRequestorPrincipal (rc_Requestor command) (rc_Principal command) = Ok tt }.

Lemma create_runs ctx command t opdigest missing w w1 res w' : clocked t ->
  left w w1 [Got (request_key command) (Err missing)] -> StorageCode missing = StorageNotFound ->
  operationDigest (operation_json (request_material command)) = Ok opdigest -> request_checked command ->
  create_request ctx command t opdigest w1 = (res, w') ->
  exists events, left w w' events /\ request_run command events res.
Proof.
  intros Hclock Hl Hmissing Hop [Hcmd Hactor Hreq Hprin] H. unfold create_request in H.
  unfold mbind at 1, prog_bind at 1, attempt at 1 in H. set (proof := rc_approvalProof command) in *.
  destruct (verifyApproval ctx proof w1) as [answer w2] eqn:Hver. pose proof Hver as Hcall. apply trace_verify in Hver.
  pose proof (left_app _ _ _ _ _ Hl Hver) as Hl2. cbn [app] in Hl2.
  assert (Hq : Forall quiet [Got (request_key command) (Err missing); Verified proof answer]) by (by repeat constructor).
  destruct answer as [verified|u]; [|cbn [check] in H; refuse].
  destruct (String.eqb_spec (f_FingerprintDigest (vp_Fingerprint verified)) (f_FingerprintDigest (pf_Fingerprint proof)))
    as [Hf|_]; cbn [negb deny_if mbind result_bind check] in H; [|refuse].
  unfold mbind at 1, prog_bind at 1, attempt at 1 in H. destruct (newEventID t w2) as [id w3] eqn:Hid.
  pose proof (newEventID_coded _ _ _ _ Hid) as Hidc. apply newEventID_left in Hid.
  pose proof (left_app _ _ _ _ _ Hl2 Hid) as Hl3. rewrite app_nil_r in Hl3.
  unfold check at 1 in H. destruct id as [eventID|err]; [|specialize (Hidc err eq_refl); refuse].
  apply commit_run in H as [(e & err & events & -> & Hl4 & Hcode' & Hr)|(metadata & tx & Hm & Htx & Hrest)]; [| |done].
  { eexists. split; [exact (left_app _ _ _ _ _ Hl3 Hl4)|]. by eapply request_refused. }
  assert (Hrequested : requested command verified (request_record command (vp_ActionTier verified) opdigest eventID t) tx).
  { split; try done; [by exists ctx, w1, w2|by exists opdigest, eventID, t|by exists metadata]. }
  destruct Hrest as [(value & -> & Hl4)|(err & e & events & -> & Hl4 & Hr)];
    (eexists; split; [exact (left_app _ _ _ _ _ Hl3 Hl4)|]).
  - by eapply request_committed.
  - by eapply request_lost.
Qed.

Lemma request_runs ctx command w res w' : requestApproval ctx command w = (res, w') ->
  exists events, left w w' events /\ request_run command events res.
Proof.
  intros H. unfold requestApproval in H. unfold mbind at 1, prog_bind at 1 in H.
  destruct (now w) as [r w1] eqn:Hnow. apply now_left in Hnow as (Hnow & t & -> & Hclock). unfold mbind at 1, prog_bind at 1 in H. unfold context_ready in H.
  unfold check at 1 in H. destruct (contextError ctx w1) as [[]|err] eqn:Hctx; [|refuse].
  unfold check at 1 in H. destruct (validCommand _ _ _ _) as [[]|err] eqn:Hcmd; [|refuse].
  unfold check at 1 in H. destruct (validateActor _ _ _ _ _) as [[]|err] eqn:Hactor; [|refuse].
  unfold check at 1 in H. destruct (deny_if _ _) as [[]|err] eqn:Hreq; [|refuse].
  apply deny_if_ok, negb_false_iff, String.eqb_eq in Hreq.
  unfold check at 1 in H. destruct (validateRequestorPrincipal _ _) as [[]|err] eqn:Hprin; [|refuse].
  unfold check at 1 in H. destruct (operationDigest _) as [opdigest|err] eqn:Hop; [|refuse].
  unfold mbind at 1, prog_bind at 1, attempt at 1 in H. change (recordKey _ _ _ _) with (request_key command) in H.
  destruct (store_Get ctx (request_key command) w1) as [answer w2] eqn:Hget. apply trace_get in Hget.
  pose proof (left_app _ _ _ _ _ Hnow Hget) as Hl. cbn [app] in Hl. clear Hnow Hget.
  assert (Hq : Forall quiet [Got (request_key command) answer]) by (by repeat constructor).
  destruct answer as [stored|missing].
  { destruct (decodeMetadata stored) as [[cur nil_grants]|err] eqn:Hdec; [|refuse].
    destruct (String.eqb_spec (a_LastOperationDigest cur) opdigest) as [<-|_]; [|refuse].
    injection H as <- <-. eexists. split; [exact Hl|]. by eapply request_replayed. }
  destruct (StorageCode missing) eqn:Hmissing; try refuse.
  eapply create_runs; [done..| |done]. by split.
Qed.
End runs.
