(* ===== verification/ApprovalBrokerTheorems.v ===== *)
(** * The approval service: the audit of refusals, and the properties of its calls

    Event identifiers are UUIDv7 values whatever bytes were drawn, so the event of a refusal
    is valid and no refusal goes unaudited while the clock, the random source and the sink
    work.
    Over any store and any ports: what a call does ([broker_calls_are_one_checked_step]), whose
    authority a change needs ([approvals_change_only_with_authority]), that refusals are
    audited while the ports work ([broker_refusals_are_audited]), and where the durable audit
    sink loses them ([unscoped_refusals_are_lost]). *)

From S2P Require Import Prelude GoStrings GoRegexp GoTime GoJson DomainContract Sha256 Domain GoStruct GoCodec Storage StorageFacts Authority TamperAudit ApprovalLifecycle ApprovalLifecycleFacts ApprovalCodec ApprovalBroker ApprovalBrokerFacts ApprovalBrokerRuns.

Local Open Scope string_scope.
Local Open Scope Z_scope.

(** ** Identifiers *)

(** A statement about one byte holds when it holds of all 256. *)
Lemma every_byte (P : ascii -> bool) : forallb P all_bytes = true -> forall c, P c = true.
Proof. intros H c. rewrite forallb_forall in H. apply H, all_bytes_complete. Qed.

Lemma hex_high c : is_hex_lower (hex_digit (byte_val c / 16)) = true.
Proof. apply hex_digit_lower, nibbles. Qed.

Lemma hex_low c : is_hex_lower (hex_digit (byte_val c mod 16)) = true.
Proof. apply hex_digit_lower, nibbles. Qed.

(** The version nibble that [newID] writes *)
Lemma version_digit c : hex_digit (byte_val (byte_of (Z.lor (Z.land (byte_val c) 15) 112)) / 16) = "7"%char.
Proof.
  apply Ascii.eqb_eq, (every_byte (fun c => Ascii.eqb (hex_digit (byte_val (byte_of (Z.lor (Z.land (byte_val c) 15) 112)) / 16)) "7")).
  vm_compute. reflexivity.
Qed.

(** The variant bits that [newID] writes *)
Lemma variant_digit c :
  existsb (Ascii.eqb (hex_digit (byte_val (byte_of (Z.lor (Z.land (byte_val c) 63) 128)) / 16))) ["8"; "9"; "a"; "b"]%char = true.
Proof.
  apply (every_byte (fun c =>
    existsb (Ascii.eqb (hex_digit (byte_val (byte_of (Z.lor (Z.land (byte_val c) 63) 128)) / 16))) ["8"; "9"; "a"; "b"]%char)).
  vm_compute. reflexivity.
Qed.

Lemma lang_chr_cat p r c s : p c = true -> lang r s -> lang (RCat (RChr p) r) (String c s).
Proof. intros Hc Hr. exact (lang_cat _ _ _ _ (lang_chr p c Hc) Hr). Qed.

Lemma lang_cat_assoc r1 r2 r3 s : lang (RCat r1 (RCat r2 r3)) s -> lang (RCat (RCat r1 r2) r3) s.
Proof.
  intros (s1 & s2 & -> & H1 & (s3 & s4 & -> & H2 & H3)%lang_cat_inv)%lang_cat_inv.
  rewrite <- GoStrings.append_assoc. apply lang_cat; [by apply lang_cat|done].
Qed.

Lemma lang_eps_cat r s : lang r s -> lang (RCat REps r) s.
Proof. intros H. exact (lang_cat _ _ "" s lang_eps H). Qed.

(** Walks a word along a sequence of character classes *)
Ltac spell :=
  repeat first [ apply lang_cat_assoc | apply lang_eps_cat | apply lang_chr_cat; [first [apply hex_high | apply hex_low | apply variant_digit | reflexivity]|]
               | apply lang_chr; first [apply hex_high | apply hex_low | reflexivity] ].

#[local] Transparent uuidPattern.

(** Sixteen bytes make an identifier that the packages accept. *)
Lemma newID_uuid now value : String.length value = 16%nat -> uuidPattern (newID now value) = true.
Proof.
  intros Hlen.
  do 16 (destruct value as [|? value]; [discriminate Hlen|]). destruct value; [|discriminate Hlen].
  unfold newID. generalize (u64 (UnixMilli now)). intros ms.
  apply (matches_lang uuid_regex). unfold uuid_regex.
  cbv [set_byte String.list_ascii_of_string String.string_of_list_ascii alter list_alter hex_encode String.substring String.append].
  rewrite version_digit. cbn [r_seq r_times r_lit mk_cat hex_class one_of]. spell.
Qed.

#[local] Opaque uuidPattern.

(** ** The event of a refusal *)

Definition lifecycle_operations : list string := ["request"; "grant"; "reject"; "expire"; "consume"; "revoke"].

Lemma safeUUID_ok s : negb (String.eqb (safeUUID s) "") && negb (uuidPattern (safeUUID s)) = false.
Proof. unfold safeUUID. destruct (uuidPattern s) eqn:E; [|done]. by rewrite E, andb_false_r. Qed.

Lemma safeDigest_ok s : negb (String.eqb (safeDigest s) "") && negb (digestPattern (safeDigest s)) = false.
Proof. unfold safeDigest. destruct (digestPattern s) eqn:E; [|done]. by rewrite E, andb_false_r. Qed.

Lemma refusal_event_valid eventID operation approvalID actor fingerprint revision err t :
  uuidPattern eventID = true -> operation ∈ lifecycle_operations ->
  tokenPattern (ApprovalLifecycle.Reason err) = true -> four_digit_year (to_utc t) = true ->
  ValidateEvent (refusal_event eventID operation approvalID actor fingerprint revision err t) = Ok tt.
Proof.
  intros Hid Hop Hreason Hyear. unfold ValidateEvent, refusal_event. rewrite !seq_ok, !deny_if_ok. cbn [e_SchemaVersion
    e_ContractVersion e_EventID e_Operation e_Outcome e_ReasonCode e_OccurredAt e_ApprovalID e_OrganizationID
    e_TenantID e_CaseID e_ActorID e_FingerprintDigest e_ActorRevision existsb].
  rewrite Hid, Hreason, !safeUUID_ok, safeDigest_ok. split_and!; try done.
  - by apply negb_false_iff, bool_decide_eq_true.
  - by destruct (ApprovalLifecycle.Code err).
  - unfold parseTimestamp, formatTime. by rewrite parse_format_timestamp.
  - cbn. by destruct (String.eqb (safeUUID (aa_ActorID actor)) "").
Qed.

(** ** Refusals while the ports work *)

(** A clock that shows a year the layout can print, a random source that answers, and a sink
    that takes every valid event *)
Record working_ports {W} (ports : BrokerPorts W) : Prop := {
  wp_clock : forall w, is_zero (to_utc (fst (BrokerNow w))) = false /\ four_digit_year (to_utc (fst (BrokerNow w))) = true;
  wp_random : forall w, exists value w', ReadRandom w = (Ok value, w') /\ String.length value = 16%nat;
  wp_sink : forall event w, ValidateEvent event = Ok tt -> exists w', AppendApprovalLifecycleEvent event w = (Ok tt, w') }.

Section audited.
Context {W : Type} {store : MetadataStore W} {ports : BrokerPorts W} {observed : Observed W}.
Hypothesis works : working_ports ports.

Lemma working_id t w : clocked t -> exists eventID w', newEventID t w = (Ok eventID, w') /\ uuidPattern eventID = true.
Proof.
  intros [w0 ->]. unfold newEventID. destruct (wp_clock _ works w0) as [-> _].
  destruct (wp_random _ works w) as (value & w' & Hr & Hlen). exists (newID (to_utc (fst (BrokerNow w0))) value), w'.
  unfold mbind, prog_bind, map_err. rewrite Hr. split; [done|by apply newID_uuid].
Qed.

(** The one event a refusal leaves *)
Definition audited_refusal (operation : string) (actor : ActorAuthority) (e : Error) (events : list broker_event) : Prop :=
  exists event, events = [Audited event (Ok tt)] /\ ValidateEvent event = Ok tt /\
    e_Operation event = operation /\ e_ReasonCode event = ApprovalLifecycle.Reason e /\
    e_ActorID event = safeUUID (aa_ActorID actor).

Lemma refusal_works operation approvalID actor err events e : operation ∈ lifecycle_operations ->
  tokenPattern (ApprovalLifecycle.Reason err) = true -> refusal operation approvalID actor err events e ->
  e = err /\ audited_refusal operation actor e events.
Proof.
  intros Hop Hcode [eventID fp revision t event _ Hev Hv|eventID fp revision t event u w w' _ _ Hv Ha|t w u w' Hid Hc|eventID fp revision t w w' Hid Hc Hv].
  - split; [done|]. exists event. rewrite Hev in *. by split_and!.
  - destruct (wp_sink _ works event w Hv) as [w'' H]. congruence.
  - destruct (working_id t w Hc) as (id & w'' & H & _). congruence.
  - destruct (working_id t w Hc) as (id & w'' & H & Huuid). assert (id = eventID) as -> by congruence.
    exfalso. apply Hv. pose proof Hc as [w0 ->]. apply refusal_event_valid; [done..|].
    destruct (wp_clock _ works w0) as [_ Hy]. done.
Qed.
End audited.

(** ** The approval service: its properties *)

(** The verifier accepted the proof of the command as one of the record's action. *)
Definition proof_accepted {W} {ports : BrokerPorts W} (command : approvalTransitionCommand) (cur : ApprovalRecord) (events : list broker_event) : Prop :=
  exists p verified, tc_approvalProof command = Some p /\ In (Verified p (Ok verified)) events /\
    (exists ctx w w', verifyApproval ctx p w = (Ok verified, w')) /\
    vp_ActionTier verified = a_ActionTier cur /\ fingerprintMatches (vp_Fingerprint verified) cur = true.

(** What an operation needs, in the state and at the time it is carried out *)
Inductive warranted {W} {ports : BrokerPorts W} (command : approvalTransitionCommand) (cur : ApprovalRecord) (now : Time) (events : list broker_event)
  : string -> Prop :=
| warranted_grant principal : a_State cur = Requested -> in_window cur now ->
    tc_Principal command = Some principal -> eligible (tc_Actor command) principal cur ->
    proof_accepted command cur events -> warranted command cur now events "grant"
| warranted_consume : a_State cur = Granted -> in_window cur now ->
    entitled (tc_Actor command) (a_OrganizationID cur) (a_TenantID cur) (a_CaseID cur) "action.request" ->
    aa_ActorID (tc_Actor command) = a_ActionOwnerActorID cur ->
    Z.of_nat (length (a_Grants cur)) = a_RequiredGrantCount cur ->
    Forall2 (still_eligible cur) (a_Grants cur) (tc_GrantAuthorities command) ->
    proof_accepted command cur events -> warranted command cur now events "consume"
| warranted_reject : a_State cur = Requested ->
    entitled (tc_Actor command) (a_OrganizationID cur) (a_TenantID cur) (a_CaseID cur) "approval.decide" ->
    warranted command cur now events "reject"
| warranted_expire until : a_State cur = Requested \/ a_State cur = Granted ->
    parse_timestamp (a_ValidUntil cur) = Some until -> before now until = false ->
    entitled (tc_Actor command) (a_OrganizationID cur) (a_TenantID cur) (a_CaseID cur) "service.invoke" ->
    warranted command cur now events "expire"
| warranted_revoke : a_State cur = Requested \/ a_State cur = Granted ->
    entitled (tc_Actor command) (a_OrganizationID cur) (a_TenantID cur) (a_CaseID cur) "approval.decide" ->
    warranted command cur now events "revoke".

Lemma validateTransitionActor_ok operation actor r : validateTransitionActor operation actor r = Ok tt ->
  entitled actor (a_OrganizationID r) (a_TenantID r) (a_CaseID r)
    (if String.eqb operation "consume" then "action.request"
     else if String.eqb operation "expire" then "service.invoke" else "approval.decide") /\
  (operation = "consume" -> aa_ActorID actor = a_ActionOwnerActorID r).
Proof.
  unfold validateTransitionActor. cbv zeta. rewrite !seq_ok, !deny_if_ok. intros (Ha%validateActor_ok & _ & Hc).
  split; [done|]. intros ->. cbn in Hc. by apply negb_false_iff, String.eqb_eq in Hc.
Qed.

Lemma proven_accepted {W} {ports : BrokerPorts W} command cur verification events : proven (tc_approvalProof command) cur verification ->
  verification ⊆ events -> proof_accepted command cur events.
Proof.
  intros (p & verified & Hp & -> & Hcall & Htier & Hf) Hsub. exists p, verified. split_and!; try done.
  apply list_elem_of_In, Hsub, list_elem_of_here.
Qed.

Lemma authorized_warranted {W} {ports : BrokerPorts W} operation command cur now verification events :
  validateTransitionActor operation (tc_Actor command) cur = Ok tt ->
  authorized command cur now operation verification -> verification ⊆ events ->
  warranted command cur now events operation.
Proof.
  intros [Ha Howner]%validateTransitionActor_ok Hauth Hsub.
  destruct Hauth as [principal v Hs Hw Hp Hprin%validateApproverPrincipal_ok Hproof
    |v Hs Hw Hg%validateGrantAuthorities_ok Hproof|Hs|until Hs Hu Hb|Hs]; cbn in Ha.
  - econstructor; [done..|]. by eapply proven_accepted.
  - destruct Hg. constructor; [done|done|done|by apply Howner|done|done|]. by eapply proven_accepted.
  - by constructor.
  - by econstructor.
  - by constructor.
Qed.

Section theorems.
Context {W : Type} {store : MetadataStore W} {ports : BrokerPorts W} {observed : Observed W}.

Lemma transition_leaves ctx operation command w : exists events,
  trace (snd (transition ctx operation command w)) = (trace w ++ events)%list /\
  transition_run operation command events (fst (transition ctx operation command w)).
Proof. destruct (transition ctx operation command w) as [res w'] eqn:H. by apply transition_runs in H. Qed.

Lemma request_leaves ctx request w : exists events,
  trace (snd (requestApproval ctx request w)) = (trace w ++ events)%list /\
  request_run request events (fst (requestApproval ctx request w)).
Proof. destruct (requestApproval ctx request w) as [res w'] eqn:H. by apply request_runs in H. Qed.

Lemma quiet_not_sent reads tx answer : Forall quiet reads -> ~ In (Sent tx answer) reads.
Proof. intros H Hin. rewrite List.Forall_forall in H. by apply (H _ Hin). Qed.

Lemma refusal_not_sent operation approvalID actor err after e tx answer :
  refusal operation approvalID actor err after e -> ~ In (Sent tx answer) after.
Proof. intros [] Hin; cbn in Hin; naive_solver. Qed.

Lemma planned_quiet operation command stored cur next nil_grants tx verification :
  planned operation command stored cur next nil_grants tx verification -> Forall quiet verification.
Proof.
  intros [_ _ _ (d & i & t & _ & Hauth & _) _ _].
  assert (Hproven : forall proof events, proven proof cur events -> Forall quiet events)
    by (intros proof events (p & v & _ & -> & _); by repeat constructor).
  destruct Hauth; first [by constructor | by eapply Hproven].
Qed.

Lemma quiet_not_audited reads event answer : Forall quiet reads -> ~ In (Audited event answer) reads.
Proof. intros H Hin. rewrite List.Forall_forall in H. by apply (H _ Hin). Qed.

(** How many transactions are among the events *)
Definition sendings (events : list broker_event) : nat :=
  length (List.filter (fun event => match event with Sent _ _ => true | _ => false end) events).

Lemma sendings_app l k : sendings (l ++ k)%list = (sendings l + sendings k)%nat.
Proof. unfold sendings. by rewrite List.filter_app, length_app. Qed.

Lemma unsent l : (forall tx answer, ~ In (Sent tx answer) l) -> sendings l = 0%nat.
Proof.
  unfold sendings. induction l as [|event l IH]; [done|]. intros H. cbn. destruct event as [| |tx answer|]; try (apply IH; intros tx' answer' Hin; by eapply H, or_intror).
  destruct (H tx answer). by left.
Qed.

Lemma transition_sendings operation command events res : transition_run operation command events res -> (sendings events <= 1)%nat.
Proof.
  intros [reads approvalID after err e Hq _ Hr|stored cur ng _ _ _|stored cur next ng tx verification value Hp
    |stored cur next ng tx verification err after e Hp Hr]; rewrite ?sendings_app.
  - rewrite (unsent reads), (unsent after); [lia|..]; intros tx answer; [by eapply refusal_not_sent|by apply quiet_not_sent].
  - cbn. lia.
  - rewrite (unsent verification) by (intros tx' answer'; by eapply quiet_not_sent, planned_quiet). cbn. lia.
  - rewrite (unsent verification), (unsent after); [cbn; lia|..]; intros tx' answer';
      [by eapply refusal_not_sent|by eapply quiet_not_sent, planned_quiet].
Qed.

Lemma request_sendings command events res : request_run command events res -> (sendings events <= 1)%nat.
Proof.
  intros [reads approvalID after err e Hq _ Hr|stored cur ng _ _|missing verified record tx value _ _
    |missing verified record tx err after e _ _ Hr]; rewrite ?sendings_app.
  - rewrite (unsent reads), (unsent after); [lia|..]; intros tx answer; [by eapply refusal_not_sent|by apply quiet_not_sent].
  - cbn. lia.
  - cbn. lia.
  - rewrite (unsent after); [cbn; lia|]. intros tx' answer'. by eapply refusal_not_sent.
Qed.

(** C22. Refinement of the service's calls to their one step, over any store and any ports.
    A call that is refused has sent nothing: it has only read and verified, and then either one
    valid event about the operation and the error that is returned was accepted by the audit
    sink, or that event was not accepted, no identifier could be drawn for it or it would not
    be valid, and the caller is told audit_unavailable.  A call that succeeds either replays a
    stored record that carries the digest of exactly this operation and sent nothing, or has
    sent exactly one transaction, built from the record it read and checked by the lifecycle's
    transition rules, with the verification the operation needs before it.  A commit that fails
    is the only transaction of its call, which ends as a refusal with the storage error. *)
Theorem broker_calls_are_one_checked_step ctx operation command request w :
  (exists events, trace (snd (transition ctx operation command w)) = (trace w ++ events)%list /\
     transition_run operation command events (fst (transition ctx operation command w)) /\ (sendings events <= 1)%nat) /\
  (exists events, trace (snd (requestApproval ctx request w)) = (trace w ++ events)%list /\
     request_run request events (fst (requestApproval ctx request w)) /\ (sendings events <= 1)%nat).
Proof.
  destruct (transition_leaves ctx operation command w) as (events & Hl & Hrun).
  destruct (request_leaves ctx request w) as (events' & Hl' & Hrun').
  split; eexists; (split_and!; [eassumption..|]); [by eapply transition_sendings|by eapply request_sendings].
Qed.

(** The plan behind a sent transaction *)
Lemma sent_planned operation command events res tx answer : transition_run operation command events res ->
  In (Sent tx answer) events ->
  exists stored cur next nil_grants verification after,
    planned operation command stored cur next nil_grants tx verification /\
    events = ([Got (transition_key command) (Ok stored)] ++ verification ++ [Sent tx answer] ++ after)%list.
Proof.
  intros Hrun Hin. destruct Hrun as [reads approvalID after err e Hq _ Hr|stored cur ng Hd Ho Hrev
    |stored cur next ng tx' verification value Hp|stored cur next ng tx' verification err after e Hp Hr].
  - apply in_app_iff in Hin as [Hin|Hin]; [by eapply quiet_not_sent in Hin|by eapply refusal_not_sent in Hin].
  - by destruct Hin as [|[]].
  - pose proof (quiet_not_sent _ tx answer (planned_quiet _ _ _ _ _ _ _ _ Hp)) as Hq.
    rewrite !in_app_iff in Hin. destruct Hin as [[|[]]|[Hin|[Hin|[]]]]; [done|done|]. injection Hin as -> ->.
    by exists stored, cur, next, ng, verification, [].
  - pose proof (quiet_not_sent _ tx answer (planned_quiet _ _ _ _ _ _ _ _ Hp)) as Hq.
    rewrite !in_app_iff in Hin. destruct Hin as [[|[]]|[Hin|[[Hin|[]]|Hin]]]; [done|done| |by eapply refusal_not_sent in Hin].
    injection Hin as -> ->.
    by exists stored, cur, next, ng, verification, after.
Qed.

Lemma sent_requested command events res tx answer : request_run command events res -> In (Sent tx answer) events ->
  exists verified record, requested command verified record tx.
Proof.
  intros Hrun Hin. destruct Hrun as [reads approvalID after err e Hq _ Hr|stored cur ng Hd Ho
    |missing verified record tx' value _ Hr|missing verified record tx' err after e _ Hr Hafter].
  - apply in_app_iff in Hin as [Hin|Hin]; [by eapply quiet_not_sent in Hin|by eapply refusal_not_sent in Hin].
  - by destruct Hin as [|[]].
  - destruct Hin as [|[|[Hin|[]]]]; [done|done|]. injection Hin as -> _. by exists verified, record.
  - apply in_app_iff in Hin as [[|[|[Hin|[]]]]|Hin]; [done|done| |by eapply refusal_not_sent in Hin].
    injection Hin as -> _. by exists verified, record.
Qed.

(** A stored approval changes only under authority: when a transition sends a
    transaction, it has read a record of the approval in a state and at a time (on the
    service's clock) that allow the operation, and its actor is active, of the record's tenant
    and case and holds the operation's permission.  A grant needs an enrolled human approver
    other than the requestor; a use needs the action's owner, the full quorum, and every
    approver behind it still eligible now; both need an accepted proof of the action. *)
Theorem approvals_change_only_with_authority ctx operation command w events tx answer :
  trace (snd (transition ctx operation command w)) = (trace w ++ events)%list -> In (Sent tx answer) events ->
  exists stored cur nil_grants now, In (Got (transition_key command) (Ok stored)) events /\
    decodeMetadata stored = Ok (cur, nil_grants) /\ a_Revision cur = tc_ExpectedRevision command /\
    clocked now /\ warranted command cur now events operation.
Proof.
  destruct (transition_leaves ctx operation command w) as (events' & -> & Hrun). intros ->%app_inv_head Hin.
  destruct (sent_planned _ _ _ _ _ _ Hrun Hin) as (stored & cur & next & ng & verification & after & Hp & Hev).
  destruct Hp as [Hdec Hrev Hactor (opdigest & eventID & t & Hclock & Hauth & _) _ _].
  exists stored, cur, ng, t. rewrite Hev. split_and!; [by left|done|done|done|].
  eapply authorized_warranted; [done|done|]. set_solver.
Qed.

Lemma transition_refusal_works operation command events e : working_ports ports ->
  operation ∈ lifecycle_operations -> transition_run operation command events (Err e) ->
  exists before after, events = (before ++ after)%list /\ audited_refusal operation (tc_Actor command) e after /\
    forall event answer, ~ In (Audited event answer) before.
Proof.
  intros Hw Hop Hrun. inversion Hrun as [reads id after err e' Hq Hcode Hr| | |stored cur next ng tx v err after e' Hp Hr]; subst.
  - destruct (refusal_works Hw _ _ _ _ _ _ Hop Hcode Hr) as [-> Ha]. exists reads, after. split_and!; [done|done|].
    intros event answer. by apply quiet_not_audited.
  - destruct (refusal_works Hw _ _ _ _ _ _ Hop (mapStorageError_coded err) Hr) as [-> Ha].
    exists ([Got (transition_key command) (Ok stored)] ++ v ++ [Sent tx (Err err)])%list, after.
    split_and!; [by rewrite <- !app_assoc|done|]. intros event answer. rewrite !in_app_iff.
    intros [[|[]]|[Hin|[|[]]]]; try done.
    by apply (quiet_not_audited _ event answer (planned_quiet _ _ _ _ _ _ _ _ Hp)).
Qed.

Lemma request_refusal_works command events e : working_ports ports -> request_run command events (Err e) ->
  exists before after, events = (before ++ after)%list /\ audited_refusal "request" (rc_Requestor command) e after /\
    forall event answer, ~ In (Audited event answer) before.
Proof.
  intros Hw Hrun. assert (Hop : "request" ∈ lifecycle_operations) by (by apply list_elem_of_here).
  inversion Hrun as [reads id after err e' Hq Hcode Hr| | |missing verified record tx err after e' Hm Hp Hr]; subst.
  - destruct (refusal_works Hw _ _ _ _ _ _ Hop Hcode Hr) as [-> Ha]. exists reads, after. split_and!; [done|done|].
    intros event answer. by apply quiet_not_audited.
  - destruct (refusal_works Hw _ _ _ _ _ _ Hop (mapStorageError_coded err) Hr) as [-> Ha].
    exists [Got (request_key command) (Err missing); Verified (rc_approvalProof command) (Ok verified); Sent tx (Err err)], after.
    split_and!; [done|done|]. cbn. naive_solver.
Qed.

(** C23. While the clock, the random source and the audit sink work, every refusal is
    audited: a call that returns an error has, as its last act, appended exactly one event,
    which is valid and names the operation, the caller and the reason code of that very
    error.  So identifiers drawn from any sixteen bytes are UUIDv7 values and every error of
    the service carries a reason code that events accept. *)
Theorem broker_refusals_are_audited ctx operation command request w e : working_ports ports ->
  operation ∈ lifecycle_operations ->
  (fst (transition ctx operation command w) = Err e ->
   exists before after, trace (snd (transition ctx operation command w)) = (trace w ++ before ++ after)%list /\
     audited_refusal operation (tc_Actor command) e after /\ forall event answer, ~ In (Audited event answer) before) /\
  (fst (requestApproval ctx request w) = Err e ->
   exists before after, trace (snd (requestApproval ctx request w)) = (trace w ++ before ++ after)%list /\
     audited_refusal "request" (rc_Requestor request) e after /\ forall event answer, ~ In (Audited event answer) before).
Proof.
  intros Hw Hop. split; intros He.
  - destruct (transition_leaves ctx operation command w) as (events & -> & Hrun). rewrite He in Hrun.
    destruct (transition_refusal_works _ _ _ _ Hw Hop Hrun) as (b & a & -> & Ha). by exists b, a.
  - destruct (request_leaves ctx request w) as (events & -> & Hrun). rewrite He in Hrun.
    destruct (request_refusal_works _ _ _ Hw Hrun) as (b & a & -> & Ha). by exists b, a.
Qed.
End theorems.

(** ** The durable sink *)

(** The ports of a service whose sink is the adapter of [approval_audit_adapter.go] over an
    appender of audit events *)
Definition durable_ports {W E} (verify : context W -> approvalProof -> prog W unit approvalVerifiedProof)
  (AppendAuditEvent : TamperAudit.Event -> prog W E unit) (clock : W -> Time * W) (random : prog W unit string)
  : BrokerPorts W :=
  {| verifyApproval := verify; BrokerNow := clock; ReadRandom := random;
     AppendApprovalLifecycleEvent event := map_err (fun _ => tt) (append_lifecycle_event AppendAuditEvent event) |}.

Section durable.
Context {W E : Type} {store : MetadataStore W} (verify : context W -> approvalProof -> prog W unit approvalVerifiedProof)
  (AppendAuditEvent : TamperAudit.Event -> prog W E unit) (clock : W -> Time * W) (random : prog W unit string).

#[local] Instance sink_ports : BrokerPorts W := durable_ports verify AppendAuditEvent clock random.

(** An event without an organization does not reach the appender. *)
Lemma unscoped_event_lost event w : e_OrganizationID event = "" ->
  exists err, append_lifecycle_event AppendAuditEvent event w = (Err err, w).
Proof.
  intros Ho. unfold append_lifecycle_event, mbind, prog_bind, pure.
  destruct (or_err (ValidateEvent event) _) as [[]|err]; [|by exists err].
  assert (Hv : TamperAudit.ValidateEvent (lifecycle_audit_event event) = Err ErrInvalidInput).
  { unfold TamperAudit.ValidateEvent, lifecycle_audit_event. cbn [TamperAudit.e_OrganizationID TamperAudit.e_SchemaVersion
      TamperAudit.e_ContractVersion TamperAudit.e_EventID TamperAudit.e_TenantID]. rewrite Ho.
    change (uuidPattern "") with false. cbn. by rewrite orb_true_r. }
  rewrite Hv. by eexists.
Qed.

Lemma unscoped_failure_lost {A} operation approvalID actor revision err t w :
  failure (A := A) operation approvalID actor zero_fingerprint revision err t w =
  (Err audit_unavailable, snd (newEventID t w)).
Proof.
  unfold failure, mbind, prog_bind, map_err, pure. destruct (newEventID t w) as [[eventID|u] w1]; [|done].
  set (event := refusal_event _ _ _ _ _ _ _ _). destruct (ValidateEvent event) as [[]|u]; [|done]. cbn [or_err].
  destruct (unscoped_event_lost event w1 eq_refl) as [e He]. cbn [AppendApprovalLifecycleEvent sink_ports durable_ports].
  unfold map_err. by rewrite He.
Qed.

(** A gap between the service and its durable sink: the refusal event of a transition is
    scoped by the fingerprint of the proof it carries, which the operations that need no proof
    (reject, expire, revoke) do not have before the record is read, and the sink refuses an
    event without an organization.  So a well-formed command about an approval that cannot be
    read is answered with [audit_unavailable] instead of the storage error, and nothing reaches
    the audit log, however well its appender works. *)
Theorem unscoped_refusals_are_lost ctx operation command w missing w2 opdigest :
  tc_approvalProof command = None -> contextError ctx (snd (clock w)) = Ok tt ->
  validCommand (tc_ApprovalID command) (tc_IdempotencyKey command) (tc_ReasonCode command)
    (tc_ExpectedRevision command) = Ok tt ->
  operationDigest (operation_json (transition_material operation command)) = Ok opdigest ->
  store_Get ctx (transition_key command) (snd (clock w)) = (Err missing, w2) ->
  transition ctx operation command w = (Err audit_unavailable, snd (newEventID (to_utc (fst (clock w))) w2)).
Proof.
  intros Hproof Hctx Hcmd Hop Hget. unfold transition. rewrite Hproof. unfold mbind, prog_bind, now, atomically.
  cbn [BrokerNow sink_ports durable_ports]. destruct (clock w) as [t w1]. cbn [fst snd] in *.
  unfold context_ready. rewrite Hctx, Hcmd. cbn [check]. rewrite Hop. cbn [check].
  unfold mbind, prog_bind, attempt. fold (transition_key command). rewrite Hget. apply unscoped_failure_lost.
Qed.
End durable.
