(* ===== verification/ApprovalBrokerStore.v ===== *)
(** * The approval service: what the store can hold

    Calls of the service interleave freely: each reads the record of a key, plans a
    transaction from what it read, and commits it later if the stored revision is still the
    one it read.  Whatever they do, the stored record is an approval that went through its
    lifecycle, so it is granted or used only under its quorum. *)

From S2P Require Import Prelude GoStrings GoRegexp GoTime GoJson DomainContract Sha256 Domain GoStruct GoCodec Storage StorageFacts Authority TamperAudit ApprovalLifecycle ApprovalLifecycleFacts ApprovalCodec ApprovalBroker ApprovalBrokerFacts ApprovalBrokerRuns.

Local Open Scope string_scope.
Local Open Scope Z_scope.

(** ** The next record *)

Lemma applyTransition_kept operation command next t :
  let n := applyTransition operation command next t in
  a_Revision n = a_Revision next /\ a_RequiredGrantCount n = a_RequiredGrantCount next /\
  a_MaximumUseCount n = a_MaximumUseCount next /\ a_RequestorRevision n = a_RequestorRevision next /\
  a_LastActorRevision n = a_LastActorRevision next /\ a_ApprovalID n = a_ApprovalID next /\
  a_OrganizationID n = a_OrganizationID next /\ a_TenantID n = a_TenantID next /\ a_CaseID n = a_CaseID next /\
  a_ActionTier n = a_ActionTier next.
Proof. cbv zeta. unfold applyTransition. repeat (case_match; try done). Qed.

(** The Go types of a command's counters *)
Definition command_typed (command : approvalTransitionCommand) : Prop :=
  is_u64 (aa_Revision (tc_Actor command)) /\
  from_option (fun p => is_u64 (pa_EnrollmentRevision p)) True (tc_Principal command).

Definition request_typed (command : approvalRequestCommand) : Prop :=
  is_u64 (aa_Revision (rc_Requestor command)) /\
  is_u32 (f_MaximumUseCount (pf_Fingerprint (rc_approvalProof command))).

Lemma u32_is_u32 z : is_u32 (u32 z).
Proof. unfold is_u32, u32. apply Z.mod_pos_bound. lia. Qed.

Lemma u64_bounded z : is_u64 (u64 z).
Proof. unfold is_u64, u64. apply Z.mod_pos_bound. lia. Qed.

Lemma applyTransition_uses operation command next t : is_u32 (a_UseCount next) ->
  is_u32 (a_UseCount (applyTransition operation command next t)).
Proof. intros H. unfold applyTransition. repeat (case_match; try done); apply u32_is_u32. Qed.

Lemma applyTransition_grants operation command next t :
  let n := applyTransition operation command next t in
  (a_Grants n = a_Grants next /\ (operation <> "grant" \/ tc_Principal command = None)) \/
  exists principal, operation = "grant" /\ tc_Principal command = Some principal /\
    a_Grants n = (a_Grants next ++ [mkGrant (aa_ActorID (tc_Actor command)) (aa_Revision (tc_Actor command))
      (pa_PrincipalID principal) (pa_EnrollmentRevision principal) (formatTime t)])%list.
Proof.
  cbv zeta. unfold applyTransition. destruct (String.eqb_spec operation "grant") as [->|Hne].
  - destruct (tc_Principal command) as [p|]; [right; exists p|left; eauto]. split_and!; [done..|]. by case_match.
  - left. split; [|by left]. repeat (case_match; try done).
Qed.

Lemma next_typed operation command cur opdigest eventID t : approval_typed cur -> command_typed command ->
  approval_typed (applyTransition operation command
    (next_of cur (tc_ReasonCode command) (tc_Actor command) opdigest eventID t) t).
Proof.
  intros (H1 & H2 & H3 & H4 & H5 & H6 & H7) [Ha Hp]. set (next := next_of _ _ _ _ _ _).
  destruct (applyTransition_kept operation command next t) as (E1 & E2 & E3 & E4 & E5 & _).
  unfold approval_typed. rewrite E1, E2, E3, E4, E5. split_and!; try done.
  - apply u64_bounded.
  - by apply applyTransition_uses.
  - destruct (applyTransition_grants operation command next t) as [[-> _]|(p & _ & Hsome & ->)]; [done|].
    rewrite Hsome in Hp. apply Forall_app. split; [done|]. constructor; [by split|constructor].
Qed.

(** ** Planned transactions *)

(** A put of the record [next] under [key], at the revision after [expected] *)
Definition puts (key : RecordKey) (expected : Z) (next : ApprovalRecord) (metadata : MetadataRecord)
  (tx : Transaction) : Prop :=
  (exists nil_grants, metadataRecord nil_grants next = Ok metadata /\ (nil_grants = true -> a_Grants next = [])) /\
  tx_Mutations tx = [mkMutation MutationPut key expected (Some metadata)].

Definition approval_key (r : ApprovalRecord) : RecordKey :=
  recordKey (a_OrganizationID r) (a_TenantID r) (a_CaseID r) (a_ApprovalID r).

Lemma planned_puts {W} {ports : BrokerPorts W} operation command stored cur next nil_grants tx verification : command_typed command ->
  planned operation command stored cur next nil_grants tx verification ->
  approval_step cur next /\ approval_key next = approval_key cur /\
  exists metadata, puts (approval_key cur) (a_Revision cur) next metadata tx.
Proof.
  intros Hty [Hdec Hrev _ (opdigest & eventID & t & _ & Hauth & Hnext) Hstep (metadata & Hm & Htx)].
  destruct (decodeMetadata_ok _ _ _ Hdec) as (Ht & Hv & _ & _ & Hnil).
  assert (Htn : approval_typed next) by (rewrite Hnext; by apply next_typed).
  set (next0 := next_of cur (tc_ReasonCode command) (tc_Actor command) opdigest eventID t) in *.
  pose proof (applyTransition_kept operation command next0 t) as (_ & _ & _ & _ & _ & Hid & Ho & Htn' & Hc & _).
  assert (Hkey : approval_key next = approval_key cur) by (unfold approval_key; by rewrite Hnext, Hid, Ho, Htn', Hc).
  split_and!; [done|done|]. exists metadata. split.
  - eexists. split; [exact Hm|]. intros [Hn Hop]%andb_true_iff.
    apply negb_true_iff, String.eqb_neq in Hop. rewrite Hnext.
    destruct (applyTransition_grants operation command next0 t) as [[-> _]|(p & ? & _)]; [by apply Hnil|done].
  - rewrite Htx. destruct (metadataRecord_ok _ _ _ Htn Hm) as (_ & _ & Hk & _). unfold approval_transaction. cbn.
    by rewrite Hk, <- Hkey.
Qed.

(** A request as the service first stores it *)
Definition first_record (r : ApprovalRecord) : Prop :=
  fresh_request r /\ a_Revision r = 1 /\ a_RequiredGrantCount r = requiredGrantCount (a_ActionTier r).

Lemma required_count_typed tier : is_u8 (requiredGrantCount tier).
Proof. unfold requiredGrantCount, is_u8. destruct (String.eqb tier "T4"); lia. Qed.

Lemma requested_puts {W} {ports : BrokerPorts W} command verified record tx : request_typed command ->
  requested command verified record tx ->
  first_record record /\ approval_key record = request_key command /\
  exists metadata, puts (approval_key record) 0 record metadata tx.
Proof.
  intros [Hr Hu] [_ _ _ _ _ _ (opdigest & eventID & t & _ & _ & Hrec) (metadata & Hm & Htx)].
  assert (Hty : approval_typed record).
  { rewrite Hrec. unfold approval_typed, is_u64, is_u32 in *. cbn. split_and!; try lia; [|by constructor].
    apply required_count_typed. }
  destruct (metadataRecord_ok _ _ _ Hty Hm) as (Hv & _ & Hk & _). split_and!.
  - split; [split; [done|split; [done|by rewrite Hrec]]|by rewrite Hrec].
  - by rewrite Hrec.
  - exists metadata. split; [by exists false|]. rewrite Htx. unfold approval_transaction. cbn. by rewrite Hk.
Qed.

(** ** Interleaved calls on one key *)

(** The versions stored under the key, newest first, and the transactions that calls have
    planned and not yet committed *)
Record approval_world : Type := mkApprovalWorld {
  aw_history : list MetadataRecord; aw_pending : list Transaction }.

Definition approval_init : approval_world := mkApprovalWorld [] [].

Definition stored_revision (history : list MetadataRecord) : Z :=
  match history with [] => 0 | m :: _ => mr_Revision m end.

(** A call reads and plans ([request_runs] and [transition_runs] say it plans nothing else);
    the store commits a put whose expected revision is the stored one. *)
Inductive approval_world_step {W} {ports : BrokerPorts W} (key : RecordKey) (w : approval_world) : approval_world -> Prop :=
| step_request command verified record tx :
    aw_history w = [] -> request_typed command -> request_key command = key ->
    requested command verified record tx ->
    approval_world_step key w (mkApprovalWorld (aw_history w) (tx :: aw_pending w))
| step_transition operation command stored older cur next nil_grants tx verification :
    aw_history w = stored :: older -> command_typed command -> transition_key command = key ->
    planned operation command stored cur next nil_grants tx verification ->
    approval_world_step key w (mkApprovalWorld (aw_history w) (tx :: aw_pending w))
| step_store tx expected metadata :
    tx ∈ aw_pending w -> tx_Mutations tx = [mkMutation MutationPut key expected (Some metadata)] ->
    expected = stored_revision (aw_history w) ->
    approval_world_step key w (mkApprovalWorld (metadata :: aw_history w) (aw_pending w)).

(** A history is the stored form of a lifecycle, one version per step. *)
Inductive lifecycle_history (key : RecordKey) : list MetadataRecord -> ApprovalRecord -> ApprovalRecord -> Prop :=
| history_first r m tx : first_record r -> approval_key r = key -> puts key 0 r m tx ->
    lifecycle_history key [m] r r
| history_next first cur next m0 older m tx : lifecycle_history key (m0 :: older) first cur ->
    approval_step cur next -> approval_key next = key -> puts key (a_Revision cur) next m tx ->
    lifecycle_history key (m :: m0 :: older) first next.

Lemma puts_metadata key expected r m tx : approval_typed r -> puts key expected r m tx ->
  mr_Revision m = a_Revision r /\ exists nil_grants, decodeMetadata m = Ok (r, nil_grants).
Proof.
  intros Ht [(nil_grants & Hm & Hnil) _]. destruct (metadataRecord_ok _ _ _ Ht Hm) as (_ & _ & _ & Hrev & _).
  split; [done|]. exists nil_grants. by apply metadata_back.
Qed.

Lemma approval_step_revision p n : approval_typed p -> approval_step p n -> a_Revision n = a_Revision p + 1.
Proof. intros Hp [Hn [(_ & _ & Hrev & _) _]%ValidateTransition_rows]; done. Qed.

Lemma history_facts key l first r : lifecycle_history key l first r ->
  first_record first /\ rtc approval_step first r /\ approval_typed r /\ approval_key r = key /\
  a_Revision r = Z.of_nat (length l) /\ stored_revision l = a_Revision r /\
  exists m older, l = m :: older /\ exists nil_grants, decodeMetadata m = Ok (r, nil_grants).
Proof.
  induction 1 as [r m tx Hfirst Hkey Hputs|first cur next m0 older m tx Hh IH Hstep Hkey Hputs].
  - pose proof Hfirst as ((Ht & _) & Hone & _). destruct (puts_metadata _ _ _ _ _ Ht Hputs) as (Hrev & Hdec).
    split_and!; try done. by exists m, [].
  - destruct IH as (Hfirst & Hrtc & Ht & _ & Hlen & Hst & _).
    pose proof Hstep as [Htn _]. destruct (puts_metadata _ _ _ _ _ Htn Hputs) as (Hrev & Hdec).
    pose proof (approval_step_revision _ _ Ht Hstep) as Hnext. split_and!; try done.
    + by eapply rtc_r.
    + cbn [length] in *. lia.
    + by exists m, (m0 :: older).
Qed.

(** A transaction in flight: a request for an empty key, or a step from some stored version *)
Inductive in_flight (key : RecordKey) (history : list MetadataRecord) (tx : Transaction) : Prop :=
| flight_request r m : first_record r -> approval_key r = key -> puts key 0 r m tx -> in_flight key history tx
| flight_step newer stored older first cur next m : history = (newer ++ stored :: older)%list ->
    lifecycle_history key (stored :: older) first cur -> approval_step cur next -> approval_key next = key ->
    puts key (a_Revision cur) next m tx -> in_flight key history tx.

Record approvals_inv (key : RecordKey) (w : approval_world) : Prop := {
  wi_history : aw_history w = [] \/ exists first r, lifecycle_history key (aw_history w) first r;
  wi_pending : Forall (in_flight key (aw_history w)) (aw_pending w) }.

Lemma in_flight_grow key history m tx : in_flight key history tx -> in_flight key (m :: history) tx.
Proof.
  intros [r m' H1 H2 H3|newer stored older first cur next m' -> Hh Hs Hk Hp]; [by eapply flight_request|].
  by eapply (flight_step _ _ _ (m :: newer)).
Qed.

Lemma puts_unique key key' expected expected' r m m' tx : puts key expected r m tx ->
  tx_Mutations tx = [mkMutation MutationPut key' expected' (Some m')] -> expected' = expected /\ m' = m.
Proof. intros [_ H] H'. rewrite H in H'. by injection H'. Qed.

(** Committing a transaction in flight, at the revision it expects, is the next step. *)
Lemma store_step key w tx expected metadata : approvals_inv key w -> tx ∈ aw_pending w ->
  tx_Mutations tx = [mkMutation MutationPut key expected (Some metadata)] ->
  expected = stored_revision (aw_history w) ->
  exists first r, lifecycle_history key (metadata :: aw_history w) first r.
Proof.
  intros [Hh Hp] Hin Hmut Hexp. rewrite Forall_forall in Hp.
  destruct (Hp tx Hin) as [r m Hfirst Hkey Hputs|newer stored older first cur next m Hhist Hlife Hstep Hkey Hputs];
    destruct (puts_unique _ _ _ _ _ _ _ _ Hputs Hmut) as [-> ->].
  - assert (Hempty : aw_history w = []).
    { destruct Hh as [|(first & r0 & Hr)]; [done|]. apply history_facts in Hr as (_ & _ & _ & _ & Hlen & Hst & m' & o & Hl & _).
      rewrite Hl in *. cbn [length] in *. lia. }
    rewrite Hempty. exists r, r. by eapply history_first.
  - apply history_facts in Hlife as Hfacts. destruct Hfacts as (_ & _ & _ & _ & Hlen & _).
    assert (Hnewer : newer = []).
    { destruct Hh as [Hnil|(first' & r' & Hr)]; [by rewrite Hnil in Hhist; destruct newer|].
      apply history_facts in Hr as (_ & _ & _ & _ & Hlen' & Hst & _). rewrite <- Hexp in Hst.
      rewrite Hhist, length_app in Hlen'. destruct newer; [done|]. cbn [length] in *. lia. }
    subst newer. cbn [app] in Hhist. rewrite Hhist. exists first, next. by eapply history_next.
Qed.

Lemma approvals_step_inv {W} {ports : BrokerPorts W} key w w' : approvals_inv key w -> approval_world_step key w w' -> approvals_inv key w'.
Proof.
  intros Hinv Hstep. pose proof Hinv as [Hh Hp].
  destruct Hstep as [command verified record tx Hempty Hty Hkey Hreq
    |operation command stored older cur next nil_grants tx verification Hhist Hty Hkey Hplan|tx expected m Hin Hmut Hexp].
  - split; [done|]. constructor; [|done].
    destruct (requested_puts _ _ _ _ Hty Hreq) as (Hfirst & Hk & m & Hputs). rewrite Hkey in Hk. rewrite Hk in Hputs.
    by eapply flight_request.
  - split; [done|]. constructor; [|done].
    destruct Hh as [Hnil|(first & r & Hr)]; [by rewrite Hnil in Hhist|]. rewrite Hhist in Hr.
    destruct (history_facts _ _ _ _ Hr) as (_ & _ & _ & Hk & _ & _ & m & o & [= <- <-] & n & Hdec).
    destruct (planned_puts _ _ _ _ _ _ _ _ Hty Hplan) as (Hs & Hkn & m & Hputs).
    destruct Hplan as [Hdec' _ _ _ _ _]. rewrite Hdec in Hdec'. injection Hdec' as <- _.
    rewrite Hk in *. by eapply (flight_step _ _ _ []).
  - destruct (store_step _ _ _ _ _ Hinv Hin Hmut Hexp) as (first & r & Hr). split; [right; by exists first, r|].
    cbn. eapply Forall_impl; [exact Hp|]. intros. by apply in_flight_grow.
Qed.

Lemma approvals_reach_inv {W} {ports : BrokerPorts W} key w : rtc (approval_world_step key) approval_init w -> approvals_inv key w.
Proof.
  revert w. apply rtc_ind_r; [split; [by left|constructor]|]. intros y z _ Hs Hy. by eapply approvals_step_inv.
Qed.

(** C17. However calls of the approval service interleave, lose races or stop between reading
    and committing, the record stored under a key decodes to an approval of that key that went
    through the lifecycle from a fresh request, one revision per step; when it is granted,
    consumed or used at all it carries the grants its action tier requires (two for T4, one
    otherwise), by distinct actors and distinct principals other than the requestor's, and it
    was not used more often than requested. *)
Theorem stored_approvals_are_earned {W} {ports : BrokerPorts W} key w m older :
  rtc (approval_world_step key) approval_init w -> aw_history w = m :: older ->
  exists first r nil_grants, decodeMetadata m = Ok (r, nil_grants) /\ approval_key r = key /\
    a_Revision r = Z.of_nat (length (aw_history w)) /\
    fresh_request first /\ rtc approval_step first r /\ a_UseCount r <= a_MaximumUseCount first /\
    (0 < a_UseCount r \/ a_State r = Granted \/ a_State r = Consumed ->
     Z.of_nat (length (a_Grants r)) = requiredGrantCount (a_ActionTier r) /\
     NoDup (map g_ActorID (a_Grants r)) /\ NoDup (map g_PrincipalID (a_Grants r)) /\
     Forall (fun g => g_ActorID g <> a_RequestorActorID r /\ g_PrincipalID g <> a_RequestorPrincipalID r)
       (a_Grants r)).
Proof.
  intros [[Hnil|(first & r & Hr)] _]%approvals_reach_inv Hw; [congruence|].
  destruct (history_facts _ _ _ _ Hr) as ((Hfresh & _ & Hreq) & Hrtc & Ht & Hk & Hlen & _ & m' & o & Hl & n & Hdec).
  assert (m' = m) as -> by congruence. exists first, r, n.
  destruct (lifecycle_reach_inv first r Hfresh Hrtc) as [(_ & Hv & Hq) Hb].
  pose proof (record_valid_shape _ Ht Hv) as Hs. unfold same_binding in Hb.
  assert (Hcount : a_RequiredGrantCount r = requiredGrantCount (a_ActionTier r)) by (destruct_and! Hb; congruence).
  assert (Hmax : a_MaximumUseCount first = a_MaximumUseCount r) by tauto.
  split_and!; try done; [destruct Hs; lia|]. intros Hu%Hq. unfold quorum, grant_count in Hu.
  split_and!; [congruence|apply Hs|apply Hs|apply Hs].
Qed.
