(* ===== verification/ApprovalBrokerExample.v ===== *)
(** * The approval service: a concrete world

    A store in memory behind the guard, a verifier that accepts a proof, a fixed clock and
    random source and a sink that accepts every event, as inputs for the theorems about
    storage and the service. *)

From S2P Require Import Prelude GoStrings GoRegexp GoTime GoJson DomainContract Sha256 Domain GoStruct GoCodec Storage StorageFacts Authority TamperAudit ApprovalLifecycle ApprovalLifecycleFacts ApprovalCodec ApprovalBroker ApprovalBrokerFacts ApprovalBrokerRuns ApprovalBrokerTheorems ApprovalBrokerStore.

Local Open Scope string_scope.
Local Open Scope Z_scope.

Record bx_world : Type := mkBxWorld { bx_stored : option MetadataRecord; bx_trace : list broker_event }.

Definition bx_log (event : broker_event) (w : bx_world) : bx_world :=
  mkBxWorld (bx_stored w) (bx_trace w ++ [event])%list.

Definition bx_missing : storage_error := NewStorageError StorageNotFound "get" "key" "record was not found" None.

(** The driver: one record, replaced by a put *)
Definition bx_put (tx : Transaction) : option MetadataRecord :=
  match tx_Mutations tx with m :: _ => mu_Record m | [] => None end.

Definition bx_commit (tx : Transaction) : CommitResult :=
  mkCommitResult (tx_IdempotencyKey tx) 1 false
    (list_to_map (map (fun m => (recordKeyString (mu_Key m),
       if String.eqb (mu_Kind m) MutationDelete then 0 else u64 (mu_ExpectedRevision m + 1))) (tx_Mutations tx)))
    (map om_ID (tx_Outbox tx)).

#[export] Instance bx_driver : StorageDriver bx_world := {|
  driver_Get key w := (match bx_stored w with Some r => Ok r | None => Err bx_missing end, w);
  driver_Transact tx w := (Ok (bx_commit tx), mkBxWorld (bx_put tx) (bx_trace w));
  driver_ClaimOutbox claim w := (Ok [], w);
  driver_SettleOutbox settlement w := (Ok tt, w);
  driver_MigrationStatus component w := (Err (OtherError []), w);
  driver_Migrate plan w := (Err (OtherError []), w) |}.

(** The guard over the driver, its answers logged *)
#[export] Instance bx_store : MetadataStore bx_world | 0 := {|
  store_Get ctx key w := let '(r, w') := Get ctx key w in (r, mkBxWorld (bx_stored w') (bx_trace w ++ [Got key r])%list);
  store_Transact ctx tx w := let '(r, w') := Transact ctx tx w in (r, mkBxWorld (bx_stored w') (bx_trace w ++ [Sent tx r])%list) |}.

Definition bx_verified (p : approvalProof) : approvalVerifiedProof := mkVerifiedProof (pf_Fingerprint p) "T2".

Definition bx_now : Time := default zero_time (parse_timestamp (ax_time "10")).

#[export] Instance bx_ports : BrokerPorts bx_world := {|
  verifyApproval ctx p w := (Ok (bx_verified p), bx_log (Verified p (Ok (bx_verified p))) w);
  AppendApprovalLifecycleEvent event w := (Ok tt, bx_log (Audited event (Ok tt)) w);
  BrokerNow w := (bx_now, w);
  ReadRandom w := (Ok "0123456789abcdef", w) |}.

#[export] Instance bx_observed : Observed bx_world.
Proof.
  refine {| trace := bx_trace |}; cbn.
  - intros ctx key w r w'. by destruct (Get ctx key w) as [r0 w0]; intros [= <- <-].
  - intros ctx tx w r w'. by destruct (Transact ctx tx w) as [r0 w0]; intros [= <- <-].
  - by intros ctx p w r w' [= <- <-].
  - by intros e w r w' [= <- <-].
  - done.
  - by intros w r w' [= _ <-].
Defined.

Definition bx_ctx : context bx_world := Some (fun _ => None).

(** ** A request, a grant and a rejection *)

Definition bx_actor (id : ascii) (roles permissions : list string) : ActorAuthority :=
  mkActorAuthority (ax_id id) (ax_id "2") (ax_id "3") (ax_id "4") 1 true (Some roles) (Some permissions).

Definition bx_requestor : ActorAuthority := bx_actor "5" ["analyst"] ["action.request"].
Definition bx_approver : ActorAuthority := bx_actor "a" ["approver"] ["approval.decide"].

Definition bx_principal (actor : ascii) (principal : ascii) : approvalPrincipalAuthority :=
  mkPrincipal (ax_id actor) 1 (ax_id principal) "human" 1 true.

Definition bx_fingerprint : Fingerprint :=
  mkFingerprint FingerprintSchemaVersion FingerprintContractVersion ax_digest ax_digest ax_digest (ax_id "2")
    (ax_id "3") (ax_id "4") (ax_id "5") (ax_id "5") ax_digest 1 None (ax_time "10") (ax_time "59") 1.

Definition bx_manifest : Manifest :=
  mkManifest "" "" "" "" "" "" "" "" "" "" "" "" None None "" (mkTool "" "" "") "" "" 0 None "" None "" "" "" "" "" 0
    None None.

Definition bx_proof : approvalProof :=
  mkProof bx_fingerprint (mkVerifiedEnvelope ax_digest (ax_id "5") 1 "key" bx_manifest "" "")
    (mkSignerAuthority (ax_id "5") "key" 1 true "")
    (mkDecision "" "" "" "" "" "" "" "" "" "" 0 "" "" 0 "" 0 true "" "" "" "").

Definition bx_request : approvalRequestCommand :=
  mkRequestCommand (ax_id "1") "request-one" bx_requestor (bx_principal "5" "6") bx_proof.

Definition bx_command (expected : Z) (reason : string) : approvalTransitionCommand :=
  mkTransitionCommand (ax_id "1") "transition-one" expected (mkCaseRef (ax_id "2") (ax_id "3") (ax_id "4"))
    bx_approver (Some (bx_principal "a" "b")) [] reason (Some bx_proof).

Definition bx_empty : bx_world := mkBxWorld None [].
Definition bx_requested : bx_world := snd (requestApproval bx_ctx bx_request bx_empty).
Definition bx_granted : bx_world := snd (transition bx_ctx "grant" (bx_command 1 "approval_granted") bx_requested).

Definition is_sent (event : broker_event) : bool := match event with Sent _ _ => true | _ => false end.

(** A call that succeeds with [n] events in the trace *)
Definition succeeds_with (n : nat) (run : result Error approvalResult * bx_world) : bool :=
  is_ok (fst run) && Nat.eqb (length (bx_trace (snd run))) n.

Lemma bx_request_runs : succeeds_with 3 (requestApproval bx_ctx bx_request bx_empty) = true.
Proof. vm_compute. reflexivity. Qed.

(** The request is stored, after a read and a verification. *)
Lemma bx_request_ok : is_ok (fst (requestApproval bx_ctx bx_request bx_empty)) = true /\
  length (bx_trace bx_requested) = 3%nat.
Proof.
  pose proof bx_request_runs as H. apply andb_true_iff in H as [H1 H2]. apply Nat.eqb_eq in H2. exact (conj H1 H2).
Qed.

(** The grant of the stored request is sent. *)
Lemma bx_grant_ok : existsb is_sent (skipn 3 (bx_trace bx_granted)) = true.
Proof. vm_compute. reflexivity. Qed.

#[local] Opaque requestApproval transition.

Lemma bx_requested_plan : exists verified record tx, requested bx_request verified record tx.
Proof.
  destruct bx_request_ok as [Hok Hlen].
  destruct (request_leaves bx_ctx bx_request bx_empty) as (events & Hl & Hrun). fold bx_requested in Hl. cbn [trace bx_observed bx_trace bx_empty app] in Hl. rewrite Hl in Hlen.
  revert Hok Hlen Hrun. generalize (fst (requestApproval bx_ctx bx_request bx_empty)). intros res Hok Hlen Hrun.
  destruct Hrun as [|stored cur ng Hdec Ho|missing verified record tx v Hm Hr|];
    [discriminate Hok|discriminate Hlen|exact (ex_intro _ verified (ex_intro _ record (ex_intro _ tx Hr)))|discriminate Hok].
Qed.

(** ** Witnesses *)

(** The deletion of a record, which needs no digest to evaluate *)
Definition bx_deletion : Transaction :=
  mkTransaction StorageContractVersion "delete-one"
    [mkMutation MutationDelete (recordKey (ax_id "2") (ax_id "3") (ax_id "4") (ax_id "1")) 3 None] [].

Lemma bx_deleted : is_ok (fst (Transact bx_ctx bx_deletion bx_empty)) = true.
Proof. vm_compute. reflexivity. Qed.

Lemma is_ok_pair {W E A} (p : result E A * W) : is_ok (fst p) = true -> exists a, p = (Ok a, snd p).
Proof. destruct p as [[a|e] w]; [by exists a|done]. Qed.

Lemma guarded_storage_fails_closed_witness : exists value,
  transaction_sound bx_deletion /\ commit_matches bx_deletion value.
Proof.
  destruct (guarded_storage_fails_closed bx_ctx bx_deletion (request_key bx_request) bx_empty) as (H & _).
  { constructor; [|constructor]. split; [discriminate|reflexivity]. }
  destruct (is_ok_pair _ bx_deleted) as [value Hv]. exists value.
  destruct (H _ _ Hv) as (_ & Hs & Hc). exact (conj Hs Hc).
Defined.

Lemma stored_approvals_are_earned_witness : exists m w first r nil_grants,
  rtc (approval_world_step (request_key bx_request)) approval_init w /\ aw_history w = [m] /\
  decodeMetadata m = Ok (r, nil_grants) /\ rtc approval_step first r.
Proof.
  destruct bx_requested_plan as (verified & record & tx & Hr).
  assert (Hty : request_typed bx_request) by (split; unfold is_u64, is_u32; cbn; lia).
  destruct (requested_puts _ _ _ _ Hty Hr) as (_ & Hk & m & _ & Hmut). rewrite Hk in Hmut.
  assert (Hreach : rtc (approval_world_step (request_key bx_request)) approval_init (mkApprovalWorld [m] [tx])).
  { eapply rtc_l; [by eapply step_request|]. eapply rtc_l; [|apply rtc_refl].
    apply (step_store _ (mkApprovalWorld [] [tx]) tx 0 m); [apply list_elem_of_here|done|done]. }
  destruct (stored_approvals_are_earned (request_key bx_request) _ m [] Hreach eq_refl) as (first & r & ng & Hdec & _ & _ & _ & Hs & _).
  exists m, (mkApprovalWorld [m] [tx]), first, r, ng. exact (conj Hreach (conj eq_refl (conj Hdec Hs))).
Defined.

(** The grant of the stored request sends its one transaction. *)
Lemma broker_calls_are_one_checked_step_witness :
  let command := bx_command 1 "approval_granted" in
  exists events, bx_trace bx_granted = (bx_trace bx_requested ++ events)%list /\
    transition_run "grant" command events (fst (transition bx_ctx "grant" command bx_requested)) /\ sendings events = 1%nat.
Proof.
  intros command.
  destruct (broker_calls_are_one_checked_step bx_ctx "grant" command bx_request bx_requested) as [(events & Hl & Hrun & Hone) _].
  exists events. cbn [trace bx_observed] in Hl. split; [exact Hl|]. split; [exact Hrun|].
  pose proof bx_grant_ok as Hg. unfold bx_granted in Hg. fold command in Hg.
  rewrite Hl, <- (proj2 bx_request_ok), skipn_app, skipn_all, Nat.sub_diag in Hg. cbn [app skipn] in Hg.
  apply Nat.le_antisymm; [exact Hone|]. unfold sendings. clear - Hg. induction events as [|event events IH]; [discriminate Hg|].
  destruct event; cbn in *; [apply IH; exact Hg|apply IH; exact Hg|apply le_n_S, Nat.le_0_l|apply IH; exact Hg].
Defined.

Lemma approvals_change_only_with_authority_witness :
  let command := bx_command 1 "approval_granted" in
  exists events stored cur nil_grants now, In (Got (transition_key command) (Ok stored)) events /\
    decodeMetadata stored = Ok (cur, nil_grants) /\ warranted command cur now events "grant".
Proof.
  intros command.
  destruct (transition_leaves bx_ctx "grant" command bx_requested) as (events & Hl & _). cbn [trace bx_observed] in Hl.
  assert (Hsent : exists tx answer, In (Sent tx answer) events).
  { pose proof bx_grant_ok as Hg. unfold bx_granted in Hg. fold command in Hg.
    rewrite Hl, <- (proj2 bx_request_ok), skipn_app, skipn_all, Nat.sub_diag in Hg. cbn [app] in Hg.
    apply existsb_exists in Hg as ([| |tx answer|] & Hin & Hs); try discriminate Hs. exists tx, answer. exact Hin. }
  destruct Hsent as (tx & answer & Hin).
  destruct (approvals_change_only_with_authority bx_ctx "grant" command bx_requested events tx answer)
    as (stored & cur & ng & now & H1 & H2 & _ & _ & H3); [exact Hl|exact Hin|].
  exists events, stored, cur, ng, now. exact (conj H1 (conj H2 H3)).
Defined.

Lemma bx_working : working_ports bx_ports.
Proof.
  split; cbn.
  - intros _. vm_compute. by split.
  - intros w. by exists "0123456789abcdef", w.
  - intros event w _. by eexists.
Qed.

Lemma broker_refusals_are_audited_witness : exists event,
  bx_trace (snd (transition bx_ctx "grant" (bx_command 0 "approval_granted") bx_empty)) = [Audited event (Ok tt)] /\
  ValidateEvent event = Ok tt /\ e_ReasonCode event = "command_invalid".
Proof.
  destruct (broker_refusals_are_audited bx_ctx "grant" (bx_command 0 "approval_granted") bx_request bx_empty
    (NewError InvalidInput "command_invalid") bx_working) as [H _]; [set_solver|].
  destruct H as (before & after & Ht & (event & -> & Hv & _ & Hr & _) & _); [vm_compute; reflexivity|].
  exists event. split_and!; [|done|done]. cbn [trace bx_observed] in Ht. rewrite Ht.
  assert (Hlen : length (bx_trace (snd (transition bx_ctx "grant" (bx_command 0 "approval_granted") bx_empty))) = 1%nat)
    by (vm_compute; reflexivity).
  rewrite Ht in Hlen. cbn in Hlen. rewrite length_app in Hlen. cbn in Hlen. destruct before; [done|cbn in Hlen; lia].
Defined.

(** A rejection carries no proof. *)
Definition bx_rejection : approvalTransitionCommand :=
  mkTransitionCommand (ax_id "1") "reject-one" 1 (mkCaseRef (ax_id "2") (ax_id "3") (ax_id "4"))
    bx_approver None [] "approval_rejected" None.

(** An appender that accepts every event *)
Definition bx_append (event : TamperAudit.Event) : prog bx_world unit unit := mret tt.

Definition bx_durable : BrokerPorts bx_world :=
  durable_ports (fun _ p => mret (bx_verified p)) bx_append (fun w => (bx_now, w)) (mret "0123456789abcdef").

Lemma unscoped_refusals_are_lost_witness :
  fst (transition (ports := bx_durable) bx_ctx "reject" bx_rejection bx_empty) = Err audit_unavailable.
Proof.
  unfold bx_durable.
  rewrite (unscoped_refusals_are_lost (fun _ p => mret (bx_verified p)) bx_append (fun w => (bx_now, w))
    (mret "0123456789abcdef") bx_ctx "reject" bx_rejection bx_empty bx_missing
    (bx_log (Got (transition_key bx_rejection) (Err bx_missing)) bx_empty)
    (match operationDigest (operation_json (transition_material "reject" bx_rejection)) with Ok d => d | Err _ => "" end));
    [reflexivity|reflexivity|reflexivity|vm_compute; reflexivity|vm_compute; reflexivity|vm_compute; reflexivity].
Defined.
