(* ===== verification/Policy.v ===== *)
(** * internal/policy: decisions and their audit

    The digest of a decision ([decision.go]), the data of the package ([evaluator.go]), its
    errors and the durable audit sink ([audit_adapter.go]).  Evaluation itself is behind the
    [Evaluator] port: it runs the embedded OPA engine. *)

From S2P Require Import Prelude GoStrings GoRegexp GoTime GoJson DomainContract Sha256 Domain GoStruct GoCodec Authority TamperAudit.

Local Open Scope string_scope.
Local Open Scope Z_scope.

(** ** evaluator.go *)

Definition SchemaVersion : string := "coh.policy-decision/v1".
Definition ContractVersion : string := "1.0.0".
Definition IntentCreated : string := "intent_created".
Definition PreDispatch : string := "pre_dispatch".

Record RuntimeAuthority : Type := mkRuntimeAuthority {
  ra_DataRoute : string; ra_ValidatorState : string; ra_ToolRegistered : bool; ra_TargetsAuthorized : bool;
  ra_TenantAuthorized : bool; ra_DataRouteAuthorized : bool; ra_CapabilityFieldsKnown : bool;
  ra_EmergencyStopActive : bool }.

Record BundleAuthority : Type := mkBundleAuthority {
  ba_KeyID : string; ba_KeyRevision : Z; ba_Algorithm : string; ba_Active : bool; ba_PublicKey : string }.

Record Request : Type := mkRequest {
  pr_EvaluationID : string; pr_Phase : string; pr_Manifest : VerifiedEnvelope; pr_Actor : ActorAuthority;
  pr_Runtime : RuntimeAuthority }.

Record Activation : Type := mkActivation {
  ac_BundleID : string; ac_PolicyDigest : string; ac_PolicyRevision : Z; ac_SignerKeyID : string;
  ac_SignerKeyRevision : Z; ac_ActivatedAt : string }.

Record AuditEvent : Type := mkAuditEvent {
  pe_Kind : string; pe_Activation : option Activation; pe_Decision : option Decision; pe_EventID : string;
  pe_OrganizationID : string; pe_TenantID : string; pe_CaseID : string; pe_ActorID : string;
  pe_ActorRevision : Z; pe_OccurredAt : string }.

(** ** errors.go *)

Inductive ErrorCode : Type := InvalidInput | Denied | Unavailable | Canceled | Timeout.

Record Error : Type := NewError { Code : ErrorCode; Reason : string }.

(** ** decision.go *)

(** The fields of a decision that are in its JSON; the audit scope is not. *)
Definition decision_fields :=
  (field "schema_version" str_codec $ field "contract_version" str_codec $ field "evaluation_id" str_codec $
   field "decision_digest" str_codec $ field "input_digest" str_codec $ field "outcome" str_codec $
   field "reason_code" str_codec $ field "phase" str_codec $ field "manifest_digest" str_codec $
   field "policy_digest" str_codec $ field "policy_revision" (uint_codec 64) $ field "bundle_id" str_codec $
   field "signer_key_id" str_codec $ field "signer_key_revision" (uint_codec 64) $ field "actor_id" str_codec $
   field "actor_revision" (uint_codec 64) $ field "approval_required" bool_codec $ field "evaluated_at" str_codec $
   no_fields).

Definition decision_codec :=
  struct_codec decision_fields (fun x => x) (fun x => x) (fun x => eq_refl) (fun x => eq_refl).

Definition decision_tuple (d : Decision) :=
  (d_SchemaVersion d, (d_ContractVersion d, (d_EvaluationID d, (d_DecisionDigest d, (d_InputDigest d,
  (d_Outcome d, (d_ReasonCode d, (d_Phase d, (d_ManifestDigest d, (d_PolicyDigest d, (d_PolicyRevision d,
  (d_BundleID d, (d_SignerKeyID d, (d_SignerKeyRevision d, (d_ActorID d, (d_ActorRevision d,
  (d_ApprovalRequired d, (d_EvaluatedAt d, tt)))))))))))))))))).

Definition CanonicalDecisionBytes (decision : Decision) : result contract_error string :=
  canonical_struct (c_type decision_codec) (c_to decision_codec (decision_tuple decision)).

(** [decision.DecisionDigest = value] *)
Definition set_DecisionDigest (d : Decision) (value : string) : Decision :=
  mkDecision (d_SchemaVersion d) (d_ContractVersion d) (d_EvaluationID d) value (d_InputDigest d) (d_Outcome d)
    (d_ReasonCode d) (d_Phase d) (d_ManifestDigest d) (d_PolicyDigest d) (d_PolicyRevision d) (d_BundleID d)
    (d_SignerKeyID d) (d_SignerKeyRevision d) (d_ActorID d) (d_ActorRevision d) (d_ApprovalRequired d)
    (d_EvaluatedAt d) (d_AuditOrganizationID d) (d_AuditTenantID d) (d_AuditCaseID d).

Definition FinalizeDecision (decision : Decision) : result Error Decision :=
  let decision := set_DecisionDigest decision "" in
  canonical ← or_err (CanonicalDecisionBytes decision) (NewError InvalidInput "policy_decision_encoding");
  Ok (set_DecisionDigest decision (digest canonical)).

(** The error of [CanonicalDecisionBytes] would be one of another package; the size of the
    decision grew by its digest only.  No caller distinguishes it. *)
Definition VerifyDecisionDigest (decision : Decision) : result Error string :=
  let refused := NewError Denied "policy_decision_digest" in
  finalized ← or_err (FinalizeDecision decision) refused;
  deny_if (negb (String.eqb (d_DecisionDigest decision) (d_DecisionDigest finalized))) refused ;;
  or_err (CanonicalDecisionBytes finalized) (NewError Unavailable "policy_unavailable").

(** ** audit_adapter.go *)

(** [slices.Compact] *)
Fixpoint compact (l : list string) : list string :=
  match l with
  | a :: ((b :: _) as l') => if String.eqb a b then compact l' else a :: compact l'
  | l => l
  end.

Fixpoint insert_sorted (x : string) (l : list string) : list string :=
  match l with
  | [] => [x]
  | y :: l' => if String.leb x y then x :: y :: l' else y :: insert_sorted x l'
  end.

(** [slices.Sort]: equal strings cannot be told apart, so any sorting algorithm will do. *)
Definition sort_strings : list string -> list string := foldr insert_sorted [].

(** The digests that are not empty, as a sorted set *)
Definition evidence_set (digests : list string) : list string :=
  compact (sort_strings (List.filter (fun d => negb (String.eqb d "")) digests)).

Definition NewDurableAuditSink {A} (appender : option A) : result Error A :=
  match appender with
  | None => Err (NewError InvalidInput "audit_dependencies")
  | Some appender => Ok appender
  end.

(** The event with its subject filled in *)
Definition policy_audit_event (source : AuditEvent) : result Error TamperAudit.Event :=
  let event schema outcome reason subject revision subject_digest evidence :=
    TamperAudit.mkEvent TamperAudit.EventSchemaVersion TamperAudit.ContractVersion (pe_EventID source)
      (pe_OrganizationID source) (pe_TenantID source) (pe_CaseID source) (pe_ActorID source)
      (pe_ActorRevision source) schema (pe_Kind source) outcome reason subject revision subject_digest
      (Some evidence) (pe_OccurredAt source) in
  if String.eqb (pe_Kind source) "policy_activation" then
    match pe_Activation source, pe_Decision source with
    | Some a, None =>
        Ok (event "coh.opa-policy-bundle/v1" "allowed" "policy_activated" (ac_BundleID a) (ac_PolicyRevision a)
              (ac_PolicyDigest a) [])
    | _, _ => Err (NewError InvalidInput "audit_event")
    end
  else if String.eqb (pe_Kind source) "policy_evaluation" then
    match pe_Decision source, pe_Activation source with
    | Some d, None =>
        Ok (event SchemaVersion (d_Outcome d) (d_ReasonCode d) (d_BundleID d) (d_PolicyRevision d)
              (d_DecisionDigest d) (evidence_set [d_InputDigest d; d_ManifestDigest d; d_PolicyDigest d]))
    | _, _ => Err (NewError InvalidInput "audit_event")
    end
  else Err (NewError InvalidInput "audit_event").

(** [DurableAuditSink.AppendPolicyEvent], over the appender of the sink *)
Definition AppendPolicyEvent {W E} (AppendAuditEvent : TamperAudit.Event -> prog W E unit) (source : AuditEvent)
  : prog W Error unit :=
  let unavailable := NewError Unavailable "audit_unavailable" in
  event ← pure (policy_audit_event source);
  pure (or_err (TamperAudit.ValidateEvent event) unavailable) ;;
  map_err (fun _ => unavailable) (AppendAuditEvent event).
