(* ===== verification/ActionManifestFacts.v ===== *)
(** * Signed action manifests: facts

    What validation means, what a verified envelope promises, and that its digest and its
    bytes determine the manifest. *)

From S2P Require Import Prelude GoStrings GoRegexp GoTime GoBase64 GoJson DomainContract Sha256 Domain GoStruct GoCodec Authority ActionManifest.

Local Open Scope string_scope.
Local Open Scope Z_scope.

(** ** The codecs *)

Lemma manifest_plain : plain_type (c_type manifest_codec).
Proof. split; vm_compute; reflexivity. Qed.

Lemma envelope_plain : plain_type (c_type envelope_codec).
Proof. split; vm_compute; reflexivity. Qed.

Lemma manifest_depth : (type_depth (c_type manifest_codec) <= 64)%nat.
Proof. apply Nat.leb_le. vm_compute. reflexivity. Qed.

(** ** Validation *)

Lemma distinct_digests_ok values previous : distinct_digests previous values = true ->
  adjacent_equal (match previous with Some p => p :: values | None => values end) = false /\
  Forall (fun v => digestPattern v = true) values.
Proof.
  revert previous. induction values as [|v values IH]; intros previous; cbn [distinct_digests].
  { intros _. by destruct previous. }
  destruct (negb (digestPattern v) || _) eqn:E; [done|]. apply orb_false_iff in E as [Ht%negb_false_iff Hp].
  intros [Ha Hf]%IH. split; [|by constructor].
  destruct previous as [p|]; [|done]. cbn [adjacent_equal]. by apply orb_false_iff.
Qed.

Lemma validDigestSet_ok values minimum maximum : validDigestSet values minimum maximum = true ->
  minimum <= Z.of_nat (length values) <= maximum /\ increasing values /\
  Forall (fun v => digestPattern v = true) values.
Proof.
  unfold validDigestSet. destruct (_ || _) eqn:E; [done|]. bool_split. intros [Ha Hf]%distinct_digests_ok.
  split_and!; [lia|lia| |done]. by apply adjacent_equal_iff.
Qed.

Lemma setsOverlap_false left right : increasing right -> setsOverlap left right = false ->
  forall x, In x left -> ~ In x right.
Proof.
  intros Hs H x Hl Hr. apply not_true_iff_false in H. apply H, existsb_exists.
  exists x. split; [done|]. by apply search_found.
Qed.

(** What a valid manifest promises beyond the shape of its fields *)
Record action_sound (m : Manifest) : Prop := {
  as_scope : uuidPattern (m_OrganizationID m) = true /\ uuidPattern (m_TenantID m) = true /\
    uuidPattern (m_CaseID m) = true;
  as_actors : uuidPattern (m_RequestorActorID m) = true /\ uuidPattern (m_ActionOwnerActorID m) = true;
  as_targets : items (m_TargetDigests m) <> [] /\ increasing (items (m_TargetDigests m)) /\
    forall target, In target (items (m_TargetDigests m)) -> ~ In target (items (m_ExclusionDigests m));
  as_policy : digestPattern (m_PolicyDigest m) = true /\ m_PolicyRevision m <> 0;
  as_roe : from_option (fun d => digestPattern d = true) True (m_ROEDigest m);
  as_window : exists from until, parse_timestamp (m_ValidFrom m) = Some from /\
    parse_timestamp (m_ValidUntil m) = Some until /\ after until from = true /\ time_sub until from <= MaximumValidity;
  as_uses : 1 <= m_MaximumUseCount m <= 1000;
  as_tier : validTier (m_ActionTier m) = true;
  as_rollback : m_ActionTier m = "T2" \/ m_ActionTier m = "T3" \/ m_ActionTier m = "T4" -> m_RollbackDigest m <> None;
  as_destructive : m_ActionTier m = "T4" ->
    m_ROEDigest m <> None /\ m_SafetyWatchActorID m <> None /\ m_MaximumUseCount m = 1 }.

Lemma is_nil_false {A} (o : option A) : is_nil o = false -> o <> None.
Proof. by destruct o. Qed.

Lemma targets_ok targets exclusions :
  negb (validDigestSet targets 1 256) || negb (validDigestSet exclusions 0 256) || setsOverlap targets exclusions = false ->
  targets <> [] /\ increasing targets /\ forall target, In target targets -> ~ In target exclusions.
Proof.
  rewrite !orb_false_iff, !negb_false_iff. intros [[(Hlen & Hinc & _)%validDigestSet_ok (_ & Hinc' & _)%validDigestSet_ok] Ho].
  split_and!; [intros ->; cbn in Hlen; lia|done|by apply setsOverlap_false].
Qed.

Lemma tier_ok m : (let tier := m_ActionTier m in
  if String.eqb tier "T2" || String.eqb tier "T3" then
    deny_if (is_nil (m_RollbackDigest m)) (contractError InvalidInput "manifest_safety")
  else if String.eqb tier "T4" then
    deny_if (is_nil (m_ROEDigest m) || is_nil (m_RollbackDigest m) ||
             is_nil (m_SafetyWatchActorID m) || negb (m_MaximumUseCount m =? 1))
      (contractError InvalidInput "manifest_safety")
  else Ok tt) = Ok tt ->
  (m_ActionTier m = "T2" \/ m_ActionTier m = "T3" \/ m_ActionTier m = "T4" -> m_RollbackDigest m <> None) /\
  (m_ActionTier m = "T4" -> m_ROEDigest m <> None /\ m_SafetyWatchActorID m <> None /\ m_MaximumUseCount m = 1).
Proof.
  cbv zeta. intros H. split.
  - intros [Ht|[Ht|Ht]]; rewrite Ht in H; cbn [String.eqb Ascii.eqb orb Bool.eqb] in H; rewrite deny_if_ok in H; bool_split;
      by apply is_nil_false.
  - intros Ht. rewrite Ht in H. cbn [String.eqb Ascii.eqb orb Bool.eqb] in H. rewrite deny_if_ok in H. bool_split.
    split_and!; [by apply is_nil_false..|by apply Z.eqb_eq].
Qed.

Lemma Validate_sound m : 0 <= m_MaximumUseCount m -> Validate m = Ok tt -> action_sound m.
Proof.
  intros Hpos. unfold Validate. cbv zeta. rewrite !seq_ok, !deny_if_ok.
  intros (_ & Hscope & Haction & Htargets%targets_ok & _ & _ & Hpolicy & Hdigest & _ & _ & Htime & _ & Huse & _ & Htier%tier_ok).
  destruct (parse_timestamp (m_ValidFrom m)) as [from|] eqn:Hf; [|done].
  destruct (parse_timestamp (m_ValidUntil m)) as [until|] eqn:Hu; [|done]. bool_split. destruct Htier.
  split; try done.
  - split; [done|by apply Z.eqb_neq].
  - by destruct (m_ROEDigest m).
  - exists from, until. split_and!; try done. lia.
  - lia.
Qed.

(** ** Decoding *)

Lemma canonicalize_ok input c : canonicalize input = Ok c ->
  Canonicalize input = Ok c /\ 0 < len input <= MaximumInputBytes.
Proof.
  unfold canonicalize. intros [Hlen Hc]%seq_ok. apply or_err_ok in Hc. apply deny_if_ok in Hlen. bool_split.
  split; [done|]. unfold len in *. lia.
Qed.

Lemma decodeManifest_ok input m : decodeManifest input = Ok m ->
  decode_text manifest_codec input = Some m /\ typed manifest_codec m.
Proof.
  unfold decodeManifest. intros (v & _ & H)%bind_ok. apply seq_ok in H as [_ H].
  destruct (decode_text manifest_codec input) as [m'|] eqn:E; [|done]. injection H as <-.
  split; [done|]. by apply (decode_text_typed _ manifest_plain) in E.
Qed.

Lemma Decode_ok ctx ctx' input vm : Decode ctx ctx' input = Ok vm ->
  Canonicalize input = Ok (vm_bytes vm) /\ decode_text manifest_codec (vm_bytes vm) = Some (vm_manifest vm) /\
  typed manifest_codec (vm_manifest vm) /\ Validate (vm_manifest vm) = Ok tt /\ vm_Digest vm = digest (vm_bytes vm).
Proof.
  unfold Decode. intros [_ H]%seq_ok. apply bind_ok in H as (c & [Hc _]%canonicalize_ok & H).
  apply seq_ok in H as [_ H]. apply bind_ok in H as (m & [Hm Ht]%decodeManifest_ok & H).
  by apply seq_ok in H as [Hv [= <-]].
Qed.

(** ** Verified envelopes *)

(** The manifest of the envelope is the one decoded from its bytes. *)
Record verified_by (ed25519_Verify : string -> string -> string -> bool) (authority : SignerAuthority)
  (v : VerifiedEnvelope) (signature : string) : Prop := {
  vb_typed : typed manifest_codec (ve_manifest v);
  vb_valid : Validate (ve_manifest v) = Ok tt;
  vb_bytes : canonical_struct (c_type manifest_codec) (c_to manifest_codec (ve_manifest v)) = Ok (ve_manifestBytes v);
  vb_digest : ve_ManifestDigest v = digest (ve_manifestBytes v);
  vb_signer : sa_Active authority = true /\ sa_ActorID authority = m_RequestorActorID (ve_manifest v) /\
    ve_SignerActorID v = m_RequestorActorID (ve_manifest v) /\ sa_KeyID authority = ve_KeyID v /\
    sa_KeyRevision authority = ve_SignerKeyRevision v;
  vb_signature : len signature = SignatureSize /\ len (sa_PublicKey authority) = PublicKeySize /\
    ed25519_Verify (sa_PublicKey authority) (SignatureDomain ++ ve_manifestBytes v) signature = true }.

Lemma Verify_ok ed25519_Verify ctx input authority v : Verify ed25519_Verify ctx input authority = Ok v ->
  exists envelope signature, canonicalize input = Ok (ve_envelopeBytes v) /\
    decode_text envelope_codec (ve_envelopeBytes v) = Some envelope /\ ve_manifest v = ev_Manifest envelope /\
    base64_decode (ev_Signature envelope) = Some signature /\ verified_by ed25519_Verify authority v signature.
Proof.
  unfold Verify. intros [_ H]%seq_ok. apply bind_ok in H as (c & Hc & H).
  destruct (decode_text envelope_codec c) as [envelope|] eqn:He; [|done].
  apply seq_ok in H as [_ H]. apply seq_ok in H as [_ H]. apply bind_ok in H as (vm & Hd%Decode_ok & H).
  destruct Hd as (Hcan & Hdec & Hty & Hval & Hdig). apply seq_ok in H as [_ H]. apply seq_ok in H as [Hauth H].
  destruct (base64_decode (ev_Signature envelope)) as [signature|] eqn:Hsig; [|done].
  apply seq_ok in H as [Hlen H]. apply seq_ok in H as [Hver H]. apply seq_ok in H as [_ [= <-]].
  apply deny_if_ok in Hauth, Hlen, Hver.
  rewrite !orb_false_iff, !negb_false_iff, !String.eqb_eq, !Z.eqb_eq in Hauth.
  destruct Hauth as (((((Hs & Hact) & Ha) & Hk) & Hr) & Hp).
  apply negb_false_iff, Z.eqb_eq in Hlen. apply negb_false_iff in Hver. exists envelope, signature. cbn.
  pose proof (decode_text_typed _ envelope_plain _ _ He) as Htyped.
  assert (Hme : typed manifest_codec (ev_Manifest envelope)).
  { destruct envelope. unfold envelope_codec in Htyped. apply typed_struct in Htyped. rewrite !fields_typed_cons in Htyped.
    by destruct Htyped as (_ & _ & Hm & _). }
  assert (Hsame : vm_manifest vm = ev_Manifest envelope).
  { pose proof (decode_canonical_struct _ (proj1 manifest_plain) manifest_depth _ _ Hme Hcan) as Hback.
    unfold decode_text in Hdec. rewrite Hback in Hdec. cbn [mbind option_bind] in Hdec. rewrite c_of_to in Hdec. congruence. }
  rewrite Hsame in *. split_and!; try done. split; cbn; try done. by rewrite Ha.
Qed.

(** The bytes determine the manifest, *)
Lemma same_bytes_same_manifest ed1 ed2 a1 a2 v1 v2 s1 s2 : verified_by ed1 a1 v1 s1 -> verified_by ed2 a2 v2 s2 ->
  ve_manifestBytes v1 = ve_manifestBytes v2 -> ve_manifest v1 = ve_manifest v2.
Proof.
  intros H1 H2 Heq. pose proof (vb_bytes _ _ _ _ H1) as B1. pose proof (vb_bytes _ _ _ _ H2) as B2. rewrite <- Heq in B2.
  pose proof (canonical_struct_inj _ (proj1 manifest_plain) manifest_depth _ _ _ (vb_typed _ _ _ _ H1) (vb_typed _ _ _ _ H2) B1 B2)
    as Hv. apply (f_equal (c_of manifest_codec)) in Hv. rewrite !c_of_to in Hv. by injection Hv.
Qed.

(** and verifying the envelope bytes again gives the manifest again. *)
Lemma verified_again ed ed' ctx ctx' input authority authority' v v' :
  Verify ed ctx input authority = Ok v -> Verify ed' ctx' (ve_envelopeBytes v) authority' = Ok v' ->
  ve_envelopeBytes v' = ve_envelopeBytes v /\ ve_manifest v' = ve_manifest v /\ ve_manifestBytes v' = ve_manifestBytes v.
Proof.
  intros (e & s & Hc & Hd & Hm & _ & Hb)%Verify_ok (e' & s' & Hc' & Hd' & Hm' & _ & Hb')%Verify_ok.
  apply canonicalize_ok in Hc as [Hc _]. apply canonicalize_ok in Hc' as [Hc' [_ Hlen]].
  rewrite (canonicalize_idempotent _ _ Hc) in Hc'; [|unfold MaximumInputBytes, MaxInputBytes in *; lia]. injection Hc' as Heq.
  assert (Hsame : ve_manifest v' = ve_manifest v) by (rewrite <- Heq in Hd'; congruence). split_and!; [done|done|].
  pose proof (vb_bytes _ _ _ _ Hb) as B. pose proof (vb_bytes _ _ _ _ Hb') as B'. rewrite Hsame in B'. congruence.
Qed.

Lemma manifest_uses_typed m : typed manifest_codec m -> 0 <= m_MaximumUseCount m < 2 ^ 32 /\ 0 <= m_PolicyRevision m < 2 ^ 64.
Proof.
  intros H. destruct m. unfold manifest_codec in H. apply typed_struct in H.
  do 18 (apply fields_typed_cons, proj2 in H; cbn [snd] in H).
  apply fields_typed_cons in H as [Hr H]. cbn [snd] in H. do 8 (apply fields_typed_cons, proj2 in H; cbn [snd] in H).
  apply fields_typed_cons, proj1 in H. split; by apply typed_uint.
Qed.

(** C20. What a verified envelope promises, whatever [ed25519.Verify] is: the manifest is valid (a
    scoped action with a non-empty set of targets disjoint from the exclusions, a window of at
    most a day, and for a destructive T4 action rules of engagement, a rollback, a safety watch
    and a single use), its canonical bytes are signed under the domain by the active key of
    the requestor, its digest is the hash of those bytes, and any other verified envelope with
    that digest has the same manifest, or the two texts are a SHA-256 collision. *)
Theorem verified_manifests_are_signed_and_bound ed25519_Verify ctx input authority v
  (H : Verify ed25519_Verify ctx input authority = Ok v) :
  action_sound (ve_manifest v) /\
  (exists signature, verified_by ed25519_Verify authority v signature) /\
  (forall ctx' input' authority' v', Verify ed25519_Verify ctx' input' authority' = Ok v' ->
     ve_ManifestDigest v' = ve_ManifestDigest v ->
     ve_manifest v' = ve_manifest v \/ sha256_collision (ve_manifestBytes v') (ve_manifestBytes v)).
Proof.
  apply Verify_ok in H as (envelope & signature & _ & _ & _ & _ & Hv). split_and!.
  - apply Validate_sound; [|by eapply vb_valid]. destruct (manifest_uses_typed _ (vb_typed _ _ _ _ Hv)). lia.
  - by exists signature.
  - intros ctx' input' authority' v' (e' & s' & _ & _ & _ & _ & Hv')%Verify_ok Hd.
    rewrite (vb_digest _ _ _ _ Hv), (vb_digest _ _ _ _ Hv') in Hd. apply digest_eq in Hd as [Hd|Hc]; [left|by right].
    by eapply same_bytes_same_manifest.
Qed.
