(* ===== verification/ApprovalFingerprint.v ===== *)
(** * internal/policy/approvalfingerprint: the identity of what is approved

    A fingerprint binds an approval to the exact bytes of a verified manifest and of a policy
    decision.  The engine ([fingerprint.go]) re-verifies the signed envelope, checks the
    decision against the manifest, and audits every attempt; [decode.go] reads a fingerprint,
    [audit_adapter.go] is the durable sink.  The last section is the adapter through which the
    approval service calls the engine ([internal/broker/approval_fingerprint.go]). *)

From S2P Require Import Prelude GoStrings GoRegexp GoTime GoJson DomainContract Sha256 Domain GoStruct GoCodec Authority TamperAudit Policy ActionManifest Storage ApprovalBroker.

Local Open Scope string_scope.
Local Open Scope Z_scope.

(** ** types.go *)

Definition HashDomain : string := "COH-APPROVAL-FINGERPRINT-V1" ++ String NUL "".

Record AuditEvent : Type := mkAuditEvent {
  fe_Operation : string; fe_Outcome : string; fe_ReasonCode : string; fe_FingerprintDigest : string;
  fe_ManifestDigest : string; fe_PolicyDecisionDigest : string; fe_OccurredAt : string; fe_EventID : string;
  fe_OrganizationID : string; fe_TenantID : string; fe_CaseID : string; fe_ActorID : string;
  fe_ActorRevision : Z }.

Definition fingerprint_codec : codec Fingerprint := struct_codec
  (field "schema_version" str_codec $ field "contract_version" str_codec $ field "fingerprint_digest" str_codec $
   field "manifest_digest" str_codec $ field "policy_decision_digest" str_codec $
   field "organization_id" str_codec $ field "tenant_id" str_codec $ field "case_id" str_codec $
   field "requestor_actor_id" str_codec $ field "action_owner_actor_id" str_codec $
   field "policy_digest" str_codec $ field "policy_revision" (uint_codec 64) $
   field "roe_digest" (ptr_codec str_codec) $ field "valid_from" str_codec $ field "valid_until" str_codec $
   field "maximum_use_count" (uint_codec 32) $ no_fields)
  (fun '(mkFingerprint a b c d e f g h i j k l m n o p) =>
     (a, (b, (c, (d, (e, (f, (g, (h, (i, (j, (k, (l, (m, (n, (o, (p, tt)))))))))))))))))
  (fun '(a, (b, (c, (d, (e, (f, (g, (h, (i, (j, (k, (l, (m, (n, (o, (p, _)))))))))))))))) =>
     mkFingerprint a b c d e f g h i j k l m n o p)
  ltac:(by intros [])
  ltac:(by intros (? & ? & ? & ? & ? & ? & ? & ? & ? & ? & ? & ? & ? & ? & ? & ? & [])).

Definition New {A B} (audit : option A) (clock : option B) : result Policy.Error (A * B) :=
  match audit, clock with
  | Some audit, Some clock => Ok (audit, clock)
  | _, _ => Err (Policy.NewError Policy.InvalidInput "fingerprint_dependencies")
  end.

(** ** decode.go *)

Definition maximumInputBytes : Z := 16 * 1024.

Definition contextError (ctx : context_state) : result Policy.Error unit :=
  match ctx with
  | CtxNil => Err (Policy.NewError Policy.InvalidInput "context_required")
  | CtxLive => Ok tt
  | CtxDeadlineExceeded => Err (Policy.NewError Policy.Timeout "request_timeout")
  | CtxCanceled => Err (Policy.NewError Policy.Canceled "request_canceled")
  end.

Definition validateFingerprint (value : Fingerprint) : result Policy.Error unit :=
  let invalid := Policy.NewError Policy.InvalidInput "fingerprint_contract" in
  deny_if (negb (String.eqb (f_SchemaVersion value) FingerprintSchemaVersion) ||
           negb (String.eqb (f_ContractVersion value) FingerprintContractVersion) ||
           negb (digestPattern (f_FingerprintDigest value)) || negb (digestPattern (f_ManifestDigest value)) ||
           negb (digestPattern (f_PolicyDecisionDigest value)) || negb (uuidPattern (f_OrganizationID value)) ||
           negb (uuidPattern (f_TenantID value)) || negb (uuidPattern (f_CaseID value)) ||
           negb (uuidPattern (f_RequestorActorID value)) || negb (uuidPattern (f_ActionOwnerActorID value)) ||
           negb (digestPattern (f_PolicyDigest value)) || (f_PolicyRevision value =? 0) ||
           match f_ROEDigest value with Some roe => negb (digestPattern roe) | None => false end ||
           (f_MaximumUseCount value =? 0) || (1000 <? f_MaximumUseCount value)) invalid ;;
  deny_if match parse_timestamp (f_ValidFrom value), parse_timestamp (f_ValidUntil value) with
          | Some from, Some until => negb (after until from)
          | _, _ => true
          end invalid.

Definition Decode (ctx : context_state) (input : string) : result Policy.Error Fingerprint :=
  let invalid := Policy.NewError Policy.InvalidInput "fingerprint_contract" in
  contextError ctx ;;
  deny_if ((len input =? 0) || (maximumInputBytes <? len input)) invalid ;;
  canonical ← or_err (Canonicalize input) invalid;
  match decode_text fingerprint_codec canonical with
  | None => Err invalid
  | Some fingerprint => validateFingerprint fingerprint ;; Ok fingerprint
  end.

(** ** fingerprint.go *)

Definition validatePolicyDecision (decision : Decision) (manifest : Manifest) (manifestDigest : string) (now : Time)
  : result Policy.Error unit :=
  let deny := Policy.NewError Policy.Denied in
  deny_if (negb (String.eqb (d_SchemaVersion decision) Policy.SchemaVersion) ||
           negb (String.eqb (d_ContractVersion decision) Policy.ContractVersion) ||
           negb (uuidPattern (d_EvaluationID decision)) || negb (uuidPattern (d_BundleID decision)) ||
           negb (uuidPattern (d_ActorID decision)) || (d_ActorRevision decision =? 0) ||
           negb (digestPattern (d_DecisionDigest decision)) || negb (digestPattern (d_InputDigest decision)) ||
           negb (digestPattern (d_ManifestDigest decision)) || negb (digestPattern (d_PolicyDigest decision)) ||
           negb (tokenPattern (d_ReasonCode decision)) || negb (tokenPattern (d_SignerKeyID decision)) ||
           (d_SignerKeyRevision decision =? 0))
    (Policy.NewError Policy.InvalidInput "policy_decision_contract") ;;
  deny_if (negb (String.eqb (d_Outcome decision) "allowed")) (deny "policy_not_allowed") ;;
  deny_if (negb (String.eqb (d_Phase decision) IntentCreated)) (deny "policy_phase") ;;
  deny_if (negb (d_ApprovalRequired decision)) (deny "approval_not_required") ;;
  deny_if (negb (String.eqb (d_ManifestDigest decision) manifestDigest)) (deny "manifest_binding") ;;
  deny_if (negb (String.eqb (d_PolicyDigest decision) (m_PolicyDigest manifest)) ||
           negb (d_PolicyRevision decision =? m_PolicyRevision manifest)) (deny "policy_binding") ;;
  deny_if (negb (String.eqb (d_ActorID decision) (m_RequestorActorID manifest))) (deny "actor_binding") ;;
  deny_if match parse_timestamp (d_EvaluatedAt decision), parse_timestamp (m_ValidFrom manifest),
                parse_timestamp (m_ValidUntil manifest) with
          | Some evaluatedAt, Some from, Some until =>
              before evaluatedAt from || negb (before evaluatedAt until) || after evaluatedAt now
          | _, _, _ => true
          end (deny "policy_time").

(** Eight bytes, most significant first *)
Definition length_prefix (s : string) : string := string_of_bytes (be_bytes 8 (len s)).

Definition fingerprint_preimage (manifestBytes decisionBytes : string) : string :=
  HashDomain ++ length_prefix manifestBytes ++ manifestBytes ++ length_prefix decisionBytes ++ decisionBytes.

Definition fingerprintDigest (manifestBytes decisionBytes : string) : string :=
  digest (fingerprint_preimage manifestBytes decisionBytes).

Definition derive (verified : VerifiedEnvelope) (decision : Decision) (now : Time) : result Policy.Error Fingerprint :=
  let manifest := ve_manifest verified in
  let manifestBytes := CanonicalManifestBytes verified in
  deny_if ((len manifestBytes =? 0) || negb (digestPattern (ve_ManifestDigest verified)))
    (Policy.NewError Policy.InvalidInput "manifest_binding") ;;
  validatePolicyDecision decision manifest (ve_ManifestDigest verified) now ;;
  decisionBytes ← VerifyDecisionDigest decision;
  let validFrom := default zero_time (parse_timestamp (m_ValidFrom manifest)) in
  let validUntil := default zero_time (parse_timestamp (m_ValidUntil manifest)) in
  deny_if (before now validFrom || negb (before now validUntil))
    (Policy.NewError Policy.Denied "manifest_not_current") ;;
  Ok (mkFingerprint FingerprintSchemaVersion FingerprintContractVersion (fingerprintDigest manifestBytes decisionBytes)
        (ve_ManifestDigest verified) (d_DecisionDigest decision) (m_OrganizationID manifest) (m_TenantID manifest)
        (m_CaseID manifest) (m_RequestorActorID manifest) (m_ActionOwnerActorID manifest) (m_PolicyDigest manifest)
        (m_PolicyRevision manifest) (m_ROEDigest manifest) (m_ValidFrom manifest) (m_ValidUntil manifest)
        (m_MaximumUseCount manifest)).

Definition sameFingerprint (left right : Fingerprint) : bool :=
  let canonical f := canonical_struct (c_type fingerprint_codec) (c_to fingerprint_codec f) in
  match canonical left, canonical right with
  | Ok leftCanonical, Ok rightCanonical => String.eqb leftCanonical rightCanonical
  | _, _ => false
  end.

(** The JSON of an event with the identifier cleared *)
Definition omit_empty (name value : string) : list (string * json) :=
  if String.eqb value "" then [] else [(name, JStr value)].

Definition audit_event_json (event : AuditEvent) : json :=
  JObj ([("operation", JStr (fe_Operation event)); ("outcome", JStr (fe_Outcome event));
         ("reason_code", JStr (fe_ReasonCode event))] ++
        omit_empty "fingerprint_digest" (fe_FingerprintDigest event) ++
        omit_empty "manifest_digest" (fe_ManifestDigest event) ++
        omit_empty "policy_decision_digest" (fe_PolicyDecisionDigest event) ++
        [("occurred_at", JStr (fe_OccurredAt event)); ("event_id", JStr "")] ++
        omit_empty "organization_id" (fe_OrganizationID event) ++ omit_empty "tenant_id" (fe_TenantID event) ++
        omit_empty "case_id" (fe_CaseID event) ++ omit_empty "actor_id" (fe_ActorID event) ++
        (if fe_ActorRevision event =? 0 then [] else [("actor_revision", json_uint (fe_ActorRevision event))]))%list.

Definition auditEventDigest (event : AuditEvent) : string := digest (marshal true (audit_event_json event)).

(** The result when there was an error is the zero fingerprint, or the derived one that did not
    match the candidate. *)
Definition auditEvent (operation : string) (fingerprint : Fingerprint) (resultErr : option Policy.Error) (now : Time)
  (verified : VerifiedEnvelope) (decision : Decision) : AuditEvent :=
  let '(outcome, reason) :=
    match resultErr with
    | None => ("allowed", if String.eqb operation "verify" then "fingerprint_verified" else "fingerprint_built")
    | Some err =>
        (match Policy.Code err with
         | Policy.InvalidInput => "invalid"
         | Policy.Canceled => "canceled"
         | Policy.Timeout => "timeout"
         | Policy.Unavailable => "unavailable"
         | Policy.Denied => "denied"
         end, Policy.Reason err)
    end in
  let manifest := ve_manifest verified in
  let occurredAt := if String.eqb (d_EvaluatedAt decision) "" then format_timestamp now else d_EvaluatedAt decision in
  let event eventID :=
    mkAuditEvent operation outcome reason (f_FingerprintDigest fingerprint) (f_ManifestDigest fingerprint)
      (f_PolicyDecisionDigest fingerprint) occurredAt eventID (m_OrganizationID manifest) (m_TenantID manifest)
      (m_CaseID manifest) (d_ActorID decision) (d_ActorRevision decision) in
  event (auditEventDigest (event "")).

(** The ports of the engine.  [EngineLooks] is what the caller's context says, look by look,
    during a call that begins in a state of the world; [ed25519] is the signature check. *)
Class EnginePorts (W : Type) : Type := {
  EngineNow : W -> Time * W;
  AppendApprovalFingerprintEvent : AuditEvent -> prog W unit unit;
  EngineLooks : context W -> W -> nat -> context_state;
  engine_ed25519 : string -> string -> string -> bool }.

Section engine.
Context {W : Type} {ports : EnginePorts W}.

(** The derived fingerprint, and the error when there is one *)
Definition evaluate (ctx : nat -> context_state) (operation : string) (candidate : Fingerprint)
  (manifest : VerifiedEnvelope) (authority : SignerAuthority) (decision : Decision) (now : Time)
  : Fingerprint * option Policy.Error :=
  let ready :=
    contextError (ctx 0%nat) ;;
    deny_if (is_zero now) (Policy.NewError Policy.Unavailable "clock_unavailable") ;;
    (if String.eqb operation "verify" then validateFingerprint candidate else Ok tt) in
  match ready with
  | Err err => (zero_fingerprint, Some err)
  | Ok _ =>
      match ActionManifest.Verify engine_ed25519 (fun n => ctx (S n)) (CanonicalEnvelopeBytes manifest) authority with
      | Err _ => (zero_fingerprint, Some (Policy.NewError Policy.Denied "manifest_authority"))
      | Ok fresh =>
          if negb (String.eqb (ve_ManifestDigest fresh) (ve_ManifestDigest manifest))
          then (zero_fingerprint, Some (Policy.NewError Policy.Denied "manifest_authority"))
          else
            match derive fresh decision now with
            | Err err => (zero_fingerprint, Some err)
            | Ok result =>
                if String.eqb operation "verify" && negb (sameFingerprint candidate result)
                then (result, Some (Policy.NewError Policy.Denied "fingerprint_mismatch"))
                else (result, None)
            end
      end
  end.

Definition perform (ctx : context W) (operation : string) (candidate : Fingerprint) (manifest : VerifiedEnvelope)
  (authority : SignerAuthority) (decision : Decision) : prog W Policy.Error Fingerprint := fun w =>
  let '(clock, w) := EngineNow w in
  let now := to_utc clock in
  let '(result, resultErr) := evaluate (EngineLooks ctx w) operation candidate manifest authority decision now in
  let event := auditEvent operation result resultErr now manifest decision in
  match AppendApprovalFingerprintEvent event w with
  | (Err _, w) => (Err (Policy.NewError Policy.Unavailable "audit_unavailable"), w)
  | (Ok _, w) => (match resultErr with Some err => Err err | None => Ok result end, w)
  end.

Definition Build (ctx : context W) (manifest : VerifiedEnvelope) (authority : SignerAuthority) (decision : Decision)
  : prog W Policy.Error Fingerprint := perform ctx "build" zero_fingerprint manifest authority decision.

Definition Verify (ctx : context W) (candidate : Fingerprint) (manifest : VerifiedEnvelope)
  (authority : SignerAuthority) (decision : Decision) : prog W Policy.Error Fingerprint :=
  perform ctx "verify" candidate manifest authority decision.

(** ** internal/broker/approval_fingerprint.go

    The adapter of the approval service: the tier comes from the envelope of the proof.  The
    service does not look at the error. *)
Definition engine_verifyApproval (ctx : context W) (proof : approvalProof) : prog W unit approvalVerifiedProof :=
  verified ← map_err (fun _ => tt)
    (Verify ctx (pf_Fingerprint proof) (pf_Manifest proof) (pf_Signer proof) (pf_Decision proof));
  mret (mkVerifiedProof verified (m_ActionTier (ve_manifest (pf_Manifest proof)))).
End engine.

(** ** audit_adapter.go *)

Definition NewDurableAuditSink {A} (appender : option A) : result Policy.Error A :=
  match appender with
  | None => Err (Policy.NewError Policy.InvalidInput "audit_dependencies")
  | Some appender => Ok appender
  end.

Definition fingerprint_audit_event (source : AuditEvent) : TamperAudit.Event :=
  TamperAudit.mkEvent TamperAudit.EventSchemaVersion TamperAudit.ContractVersion (fe_EventID source)
    (fe_OrganizationID source) (fe_TenantID source) (fe_CaseID source) (fe_ActorID source) (fe_ActorRevision source)
    FingerprintSchemaVersion (fe_Operation source) (fe_Outcome source) (fe_ReasonCode source) "" 0
    (fe_FingerprintDigest source)
    (Some (evidence_set [fe_FingerprintDigest source; fe_ManifestDigest source; fe_PolicyDecisionDigest source]))
    (fe_OccurredAt source).

(** [DurableAuditSink.AppendApprovalFingerprintEvent], over the appender of the sink *)
Definition append_fingerprint_event {W E} (AppendAuditEvent : TamperAudit.Event -> prog W E unit) (source : AuditEvent)
  : prog W Policy.Error unit :=
  let unavailable := Policy.NewError Policy.Unavailable "audit_unavailable" in
  let event := fingerprint_audit_event source in
  pure (or_err (TamperAudit.ValidateEvent event) unavailable) ;;
  map_err (fun _ => unavailable) (AppendAuditEvent event).
