(* ===== verification/ApprovalFingerprintFacts.v ===== *)
(** * Approval fingerprints: facts and theorems

    A fingerprint is exact: verification returns the candidate itself, and its digest
    determines the manifest and the decision. *)

From S2P Require Import Prelude GoStrings GoRegexp GoTime GoBase64 GoJson DomainContract Sha256 Domain GoStruct GoCodec Authority TamperAudit Policy ActionManifest ActionManifestFacts Storage ApprovalBroker ApprovalFingerprint.

Local Open Scope string_scope.
Local Open Scope Z_scope.

(** ** The length prefix *)

Definition be_value (l : list Z) : Z := fold_left (fun n b => n * 256 + b) l 0.

Lemma be_value_bytes k n : 0 <= n -> be_value (be_bytes k n) = n mod 2 ^ (8 * Z.of_nat k).
Proof.
  revert n. induction k as [|k IH]; intros n Hn; [by rewrite Z.mod_1_r|].
  cbn [be_bytes]. unfold be_value in *. rewrite fold_left_app. cbn [fold_left].
  rewrite IH by (by apply Z.shiftr_nonneg). rewrite Z.shiftr_div_pow2 by lia.
  change 255 with (Z.ones 8). rewrite Z.land_ones by lia. change (2 ^ 8) with 256.
  replace (8 * Z.of_nat (S k)) with (8 + 8 * Z.of_nat k) by lia. rewrite Z.pow_add_r by lia. change (2 ^ 8) with 256.
  rewrite (Z.rem_mul_r n 256 (2 ^ (8 * Z.of_nat k))) by lia. lia.
Qed.

Lemma be_bytes_range k n : Forall (fun b => 0 <= b < 256) (be_bytes k n).
Proof.
  revert n. induction k as [|k IH]; intros n; cbn [be_bytes]; [constructor|]. apply Forall_app. split; [done|].
  constructor; [|constructor]. change 255 with (Z.ones 8). rewrite Z.land_ones by lia. by apply Z.mod_pos_bound.
Qed.

Lemma string_of_bytes_inj l l' : Forall (fun b => 0 <= b < 256) l -> Forall (fun b => 0 <= b < 256) l' ->
  string_of_bytes l = string_of_bytes l' -> l = l'.
Proof.
  intros Hl. revert l'. induction Hl as [|b l Hb Hl IH]; intros [|b' l'] Hl' H; try done.
  inversion_clear Hl' as [|? ? Hb' Hrest]. injection H as Hc H. f_equal; [|by apply IH].
  apply (f_equal byte_val) in Hc. by rewrite !byte_val_of in Hc.
Qed.

Lemma length_prefix_inj s t : len s < 2 ^ 64 -> len t < 2 ^ 64 -> length_prefix s = length_prefix t ->
  String.length s = String.length t.
Proof.
  unfold length_prefix, len. intros Hs Ht H%string_of_bytes_inj; [|apply be_bytes_range..].
  apply (f_equal be_value) in H. rewrite !be_value_bytes in H by lia.
  change (2 ^ (8 * Z.of_nat 8)) with (2 ^ 64) in H. rewrite !Z.mod_small in H by lia. lia.
Qed.

Lemma length_length_prefix s : String.length (length_prefix s) = 8%nat.
Proof. unfold length_prefix. by rewrite length_string_of_bytes, length_be_bytes. Qed.

Lemma fingerprint_preimage_inj m d m' d' : len m < 2 ^ 64 -> len m' < 2 ^ 64 ->
  fingerprint_preimage m d = fingerprint_preimage m' d' -> m = m' /\ d = d'.
Proof.
  unfold fingerprint_preimage. intros Hm Hm' H%append_inj_l.
  apply append_inj_len in H as [Hp H]; [|by rewrite !length_length_prefix].
  apply append_inj_len in H as [-> H]; [|by apply length_prefix_inj].
  apply append_inj_len in H as [_ ->]; [done|by rewrite !length_length_prefix].
Qed.

(** ** Decisions *)

Lemma decision_plain : plain_type (c_type decision_codec).
Proof. split; vm_compute; reflexivity. Qed.

Lemma decision_depth : (type_depth (c_type decision_codec) <= 64)%nat.
Proof. apply Nat.leb_le. vm_compute. reflexivity. Qed.

Lemma fingerprint_plain : plain_type (c_type fingerprint_codec).
Proof. split; vm_compute; reflexivity. Qed.

Lemma fingerprint_depth : (type_depth (c_type fingerprint_codec) <= 64)%nat.
Proof. apply Nat.leb_le. vm_compute. reflexivity. Qed.

(** The Go types of a decision's counters *)
Definition decision_counters (d : Decision) : Prop :=
  is_u64 (d_PolicyRevision d) /\ is_u64 (d_SignerKeyRevision d) /\ is_u64 (d_ActorRevision d).

(** The decision that allows to ask for an approval of the manifest *)
Record decision_for (d : Decision) (m : Manifest) (manifestDigest : string) (now : Time) : Prop := {
  df_allowed : d_Outcome d = "allowed" /\ d_Phase d = IntentCreated /\ d_ApprovalRequired d = true;
  df_manifest : d_ManifestDigest d = manifestDigest;
  df_policy : d_PolicyDigest d = m_PolicyDigest m /\ d_PolicyRevision d = m_PolicyRevision m;
  df_actor : d_ActorID d = m_RequestorActorID m;
  df_digest : digestPattern (d_DecisionDigest d) = true;
  df_time : exists evaluated from until, parse_timestamp (d_EvaluatedAt d) = Some evaluated /\
    parse_timestamp (m_ValidFrom m) = Some from /\ parse_timestamp (m_ValidUntil m) = Some until /\
    before evaluated from = false /\ before evaluated until = true /\ after evaluated now = false;
  df_typed : decision_counters d -> typed decision_codec (decision_tuple d) }.

(** Walks down the fields of a struct *)
Ltac typed_tuple :=
  apply typed_struct; repeat (apply fields_typed_cons; split; [cbn [fst snd]|cbn [snd]]); [..|by apply fields_typed_nil].

Lemma validatePolicyDecision_ok d m manifestDigest now : validatePolicyDecision d m manifestDigest now = Ok tt ->
  decision_for d m manifestDigest now.
Proof.
  unfold validatePolicyDecision. cbv zeta. rewrite !seq_ok, !deny_if_ok.
  intros (Hshape & Hout & Hphase & Hreq & Hman & Hpol & Hactor & Htime).
  apply negb_false_iff in Hout, Hphase, Hreq, Hman, Hactor.
  apply String.eqb_eq in Hout, Hphase, Hman, Hactor. apply orb_false_iff in Hpol as [Hpol Hrev].
  apply negb_false_iff, String.eqb_eq in Hpol. apply negb_false_iff, Z.eqb_eq in Hrev.
  destruct (parse_timestamp (d_EvaluatedAt d)) as [ev|] eqn:He; [|done].
  destruct (parse_timestamp (m_ValidFrom m)) as [from|] eqn:Hf; [|done].
  destruct (parse_timestamp (m_ValidUntil m)) as [until|] eqn:Hu; [|done].
  rewrite !orb_false_iff, !negb_false_iff in Htime. rewrite !orb_false_iff, !negb_false_iff, !String.eqb_eq in Hshape.
  destruct Hshape as ((((((((((((Hs & Hc) & Hid) & Hb) & Ha) & _) & Hdd) & Hi) & Hmd) & Hpd) & Hr) & Hk) & _).
  destruct Htime as [[Ht1 Ht2] Ht3]. split; try done.
  - by exists ev, from, until.
  - intros (Hc1 & Hc2 & Hc3). unfold decision_tuple. typed_tuple; try (by apply typed_uint).
    all: try (apply typed_str; first [apply uuid_ascii; assumption | apply digest_ascii; assumption
      | apply token_ascii; assumption | eapply parse_timestamp_valid; eassumption | by rewrite ?Hs, ?Hc, ?Hout, ?Hphase]).
    done.
Qed.

(** ** Derived fingerprints *)

(** The bytes of a decision with its digest checked *)
Lemma VerifyDecisionDigest_ok d bytes : VerifyDecisionDigest d = Ok bytes ->
  CanonicalDecisionBytes d = Ok bytes /\
  exists blank, CanonicalDecisionBytes (set_DecisionDigest d "") = Ok blank /\ d_DecisionDigest d = digest blank.
Proof.
  unfold VerifyDecisionDigest. intros (f & Hf%or_err_ok & H)%bind_ok.
  unfold FinalizeDecision in Hf. apply bind_ok in Hf as (blank & Hb%or_err_ok & [= <-]).
  apply seq_ok in H as [Hd H%or_err_ok]. apply deny_if_ok, negb_false_iff, String.eqb_eq in Hd. cbn in Hd.
  assert (Hsame : set_DecisionDigest (set_DecisionDigest d "") (digest blank) = d) by (rewrite <- Hd; by destruct d).
  rewrite Hsame in H. split; [done|]. by exists blank.
Qed.

(** The fingerprint of a verified manifest and a decision about it *)
Record derived (v : VerifiedEnvelope) (d : Decision) (now : Time) (f : Fingerprint) : Prop := {
  dv_decision : decision_for d (ve_manifest v) (ve_ManifestDigest v) now;
  dv_current : exists from until, parse_timestamp (m_ValidFrom (ve_manifest v)) = Some from /\
    parse_timestamp (m_ValidUntil (ve_manifest v)) = Some until /\ before now from = false /\ before now until = true;
  dv_digest : exists decisionBytes, CanonicalDecisionBytes d = Ok decisionBytes /\
    f_FingerprintDigest f = fingerprintDigest (ve_manifestBytes v) decisionBytes;
  dv_fields : let m := ve_manifest v in
    f = mkFingerprint FingerprintSchemaVersion FingerprintContractVersion (f_FingerprintDigest f)
      (ve_ManifestDigest v) (d_DecisionDigest d) (m_OrganizationID m) (m_TenantID m) (m_CaseID m)
      (m_RequestorActorID m) (m_ActionOwnerActorID m) (m_PolicyDigest m) (m_PolicyRevision m) (m_ROEDigest m)
      (m_ValidFrom m) (m_ValidUntil m) (m_MaximumUseCount m) }.

Lemma derive_ok v d now f : derive v d now = Ok f -> derived v d now f.
Proof.
  unfold derive. cbv zeta. intros [_ H]%seq_ok. apply seq_ok in H as [Hd%validatePolicyDecision_ok H].
  apply bind_ok in H as (bytes & [Hb _]%VerifyDecisionDigest_ok & H). apply seq_ok in H as [Ht [= <-]].
  pose proof (df_time _ _ _ _ Hd) as (ev & from & until & _ & Hf & Hu & _). apply deny_if_ok in Ht.
  rewrite Hf, Hu in Ht. cbn [default from_option] in Ht. apply orb_false_iff in Ht as [Ht1 Ht2%negb_false_iff].
  split; [done|by exists from, until|by exists bytes|done].
Qed.

(** ** Verification *)

(** The Go types of a fingerprint's counters *)
Definition fingerprint_counters (f : Fingerprint) : Prop := is_u64 (f_PolicyRevision f) /\ is_u32 (f_MaximumUseCount f).

(** The shape of a valid fingerprint *)
Record fingerprint_shape (f : Fingerprint) : Prop := {
  fs_versions : f_SchemaVersion f = FingerprintSchemaVersion /\ f_ContractVersion f = FingerprintContractVersion;
  fs_digests : digestPattern (f_FingerprintDigest f) = true /\ digestPattern (f_ManifestDigest f) = true /\
    digestPattern (f_PolicyDecisionDigest f) = true /\ digestPattern (f_PolicyDigest f) = true;
  fs_ids : uuidPattern (f_OrganizationID f) = true /\ uuidPattern (f_TenantID f) = true /\ uuidPattern (f_CaseID f) = true;
  fs_actors : uuidPattern (f_RequestorActorID f) = true /\ uuidPattern (f_ActionOwnerActorID f) = true;
  fs_roe : from_option (fun d => digestPattern d = true) True (f_ROEDigest f);
  fs_window : exists from until, parse_timestamp (f_ValidFrom f) = Some from /\
    parse_timestamp (f_ValidUntil f) = Some until /\ after until from = true;
  fs_counts : f_PolicyRevision f <> 0 /\ f_MaximumUseCount f <> 0 /\ f_MaximumUseCount f <= 1000 }.

Lemma validateFingerprint_ok f : validateFingerprint f = Ok tt -> fingerprint_shape f.
Proof.
  unfold validateFingerprint. cbv zeta. rewrite seq_ok, !deny_if_ok. intros [H Ht].
  rewrite !orb_false_iff, !negb_false_iff, !String.eqb_eq, !Z.eqb_neq in H.
  destruct H as ((((((((((((((Hs & Hc) & Hd1) & Hd2) & Hd3) & Hi1) & Hi2) & Hi3) & Hi4) & Hi5) & Hd4) & Hr) & Hroe) & Hu1) & Hu2).
  destruct (parse_timestamp (f_ValidFrom f)) as [from|] eqn:Hf; [|done].
  destruct (parse_timestamp (f_ValidUntil f)) as [until|] eqn:Hu; [|done]. apply negb_false_iff in Ht.
  split; try done.
  - destruct (f_ROEDigest f) as [roe|]; [|done]. by apply negb_false_iff in Hroe.
  - by exists from, until.
  - split_and!; [done|done|]. by apply Z.ltb_ge.
Qed.

Lemma fingerprint_shape_typed f : fingerprint_counters f -> fingerprint_shape f -> typed fingerprint_codec f.
Proof.
  intros [Hr Hu] [[Hs Hc] (Hd1 & Hd2 & Hd3 & Hd4) (Hi1 & Hi2 & Hi3) [Hi4 Hi5] Hroe (from & until & Hf & Hun & _) _].
  destruct f as [x0 x1 x2 x3 x4 x5 x6 x7 x8 x9 x10 x11 roe x13 x14 x15]. cbn [f_SchemaVersion f_ContractVersion f_FingerprintDigest
    f_ManifestDigest f_PolicyDecisionDigest f_OrganizationID f_TenantID f_CaseID f_RequestorActorID f_ActionOwnerActorID
    f_PolicyDigest f_PolicyRevision f_ROEDigest f_ValidFrom f_ValidUntil f_MaximumUseCount] in *. subst.
  unfold fingerprint_codec. typed_tuple;
    try (apply typed_uint; assumption);
    try (apply typed_str;
         first [apply uuid_ascii; assumption | apply digest_ascii; assumption | eapply parse_timestamp_valid; eassumption | reflexivity]).
  destruct roe as [roe|]; [|done]. by apply digest_ascii in Hroe.
Qed.

(** A derived fingerprint is valid, because its manifest is. *)
Lemma derived_shape ed authority v signature d now f : verified_by ed authority v signature -> derived v d now f ->
  fingerprint_counters f /\ fingerprint_shape f.
Proof.
  intros Hv Hd. pose proof (manifest_uses_typed _ (vb_typed _ _ _ _ Hv)) as [Hu Hr].
  pose proof (Validate_sound _ (proj1 Hu) (vb_valid _ _ _ _ Hv)) as Hs. pose proof (dv_decision _ _ _ _ Hd) as Hdec.
  destruct (dv_digest _ _ _ _ Hd) as (bytes & _ & Hdig). rewrite (dv_fields _ _ _ _ Hd).
  destruct Hs as [Hscope Hactors _ (Hp & Hpr) Hroe (from & until & Hf & Hun & Haft & _) Huses _ _ _].
  split; [by split|]. split; cbn; try done.
  - split_and!; [|rewrite (vb_digest _ _ _ _ Hv); apply digest_pattern|by eapply df_digest|done].
    rewrite Hdig. apply digest_pattern.
  - by exists from, until.
  - split_and!; [done|lia|lia].
Qed.

(** Two well-typed fingerprints with the same canonical text are equal. *)
Lemma sameFingerprint_eq f g : typed fingerprint_codec f -> typed fingerprint_codec g -> sameFingerprint f g = true -> f = g.
Proof.
  unfold sameFingerprint. intros Hf Hg.
  destruct (canonical_struct _ (c_to fingerprint_codec f)) as [c|] eqn:E; [|done].
  destruct (canonical_struct _ (c_to fingerprint_codec g)) as [c'|] eqn:E'; [|done]. intros ->%String.eqb_eq.
  pose proof (canonical_struct_inj _ (proj1 fingerprint_plain) fingerprint_depth _ _ _ Hf Hg E E') as H.
  apply (f_equal (c_of fingerprint_codec)) in H. rewrite !c_of_to in H. by injection H.
Qed.

(** What a successful evaluation of a verification establishes *)
Lemma evaluate_verified {W} {ports : EnginePorts W} ctx candidate manifest authority decision now f :
  fingerprint_counters candidate -> evaluate ctx "verify" candidate manifest authority decision now = (f, None) ->
  f = candidate /\ fingerprint_shape f /\
  exists fresh, ActionManifest.Verify engine_ed25519 (fun n => ctx (S n)) (ve_envelopeBytes manifest) authority = Ok fresh /\
    ve_ManifestDigest fresh = ve_ManifestDigest manifest /\ derived fresh decision now f.
Proof.
  intros Hc. unfold evaluate. cbv zeta. cbn [String.eqb Ascii.eqb Bool.eqb andb].
  destruct (contextError (ctx 0%nat) ;; _) as [[]|err] eqn:Hready; [|done].
  apply seq_ok in Hready as [_ Hready]. apply seq_ok in Hready as [_ Hshape%validateFingerprint_ok].
  destruct (ActionManifest.Verify _ _ _ _) as [fresh|err] eqn:Hv; [|done].
  destruct (String.eqb_spec (ve_ManifestDigest fresh) (ve_ManifestDigest manifest)) as [Hd|]; [|done]. cbn [negb].
  destruct (derive fresh decision now) as [result|err] eqn:Hder; [|done].
  destruct (sameFingerprint candidate result) eqn:Hsame; [|done]. cbn [negb]. intros [= <-].
  pose proof (derive_ok _ _ _ _ Hder) as Hdv. pose proof (Verify_ok _ _ _ _ _ Hv) as (e & s & _ & _ & _ & _ & Hvb).
  assert (Heq : candidate = result).
  { apply sameFingerprint_eq; [by apply fingerprint_shape_typed| |done].
    destruct (derived_shape _ _ _ _ _ _ _ Hvb Hdv). by apply fingerprint_shape_typed. }
  subst. split_and!; [done|done|]. by exists fresh.
Qed.

(** ** The digest *)

Lemma canonical_decision_inj d d' now now' m m' dm dm' bytes : decision_counters d -> decision_counters d' ->
  decision_for d m dm now -> decision_for d' m' dm' now' ->
  CanonicalDecisionBytes d = Ok bytes -> CanonicalDecisionBytes d' = Ok bytes -> decision_tuple d = decision_tuple d'.
Proof.
  intros Hc Hc' Hd Hd' Hb Hb'. pose proof (df_typed _ _ _ _ Hd Hc) as Ht. pose proof (df_typed _ _ _ _ Hd' Hc') as Ht'.
  pose proof (canonical_struct_inj _ (proj1 decision_plain) decision_depth _ _ _ Ht Ht' Hb Hb') as H.
  apply (f_equal (c_of decision_codec)) in H. rewrite !c_of_to in H. by apply (inj Some) in H.
Qed.

Lemma verified_bytes_bound ed authority v signature : verified_by ed authority v signature -> len (ve_manifestBytes v) < 2 ^ 64.
Proof.
  intros H. destruct (canonical_struct_inv _ (proj1 manifest_plain) manifest_depth _ _ (vb_typed _ _ _ _ H) (vb_bytes _ _ _ _ H))
    as [_ Hlen]. unfold MaxInputBytes in Hlen. lia.
Qed.

(** C19. The fingerprint of an approval identifies what is approved: two fingerprints with the same digest, derived
    by the engine at any two times from verified envelopes, come from the same manifest and
    from decisions that agree in every encoded field, and are equal; or the two texts that were
    hashed for these two fingerprints are themselves a SHA-256 collision.  The length prefixes
    make the hashed text unambiguous; the canonical texts determine their values. *)
Theorem fingerprint_binds_action_and_decision ed25519 ctx ctx' input input' authority authority' v v' d d' now now' f f' :
  ActionManifest.Verify ed25519 ctx input authority = Ok v -> ActionManifest.Verify ed25519 ctx' input' authority' = Ok v' ->
  decision_counters d -> decision_counters d' -> derive v d now = Ok f -> derive v' d' now' = Ok f' ->
  f_FingerprintDigest f = f_FingerprintDigest f' ->
  (ve_manifest v = ve_manifest v' /\ decision_tuple d = decision_tuple d' /\ f = f') \/
  exists bytes bytes', CanonicalDecisionBytes d = Ok bytes /\ CanonicalDecisionBytes d' = Ok bytes' /\
    sha256_collision (fingerprint_preimage (ve_manifestBytes v) bytes) (fingerprint_preimage (ve_manifestBytes v') bytes').
Proof.
  intros (e & s & _ & _ & _ & _ & Hv)%Verify_ok (e' & s' & _ & _ & _ & _ & Hv')%Verify_ok Hc Hc' Hd%derive_ok Hd'%derive_ok Heq.
  destruct (dv_digest _ _ _ _ Hd) as (b & Hb & Hf). destruct (dv_digest _ _ _ _ Hd') as (b' & Hb' & Hf').
  rewrite Hf, Hf' in Heq. apply digest_eq in Heq as [Heq|Hcol]; [left|right; by exists b, b'].
  apply fingerprint_preimage_inj in Heq as [Hm ->]; [|by eapply verified_bytes_bound..].
  pose proof (same_bytes_same_manifest _ _ _ _ _ _ _ _ Hv Hv' Hm) as Hman.
  pose proof (canonical_decision_inj _ _ _ _ _ _ _ _ _ Hc Hc' (dv_decision _ _ _ _ Hd) (dv_decision _ _ _ _ Hd') Hb Hb') as Htuple.
  split_and!; [done|done|]. rewrite (dv_fields _ _ _ _ Hd), (dv_fields _ _ _ _ Hd'), Hf, Hf', Hman, Hm.
  rewrite (vb_digest _ _ _ _ Hv), (vb_digest _ _ _ _ Hv'), Hm. pose proof (f_equal (fun t => fst (snd (snd (snd t)))) Htuple) as Hdd. cbn in Hdd. by rewrite Hdd.
Qed.
