(* ===== verification/ApprovalBinding.v ===== *)
(** * What an approval is of

    The approval service over the fingerprint engine: the concatenations the service compares
    are unambiguous, so a record that changes is the record of exactly the signed manifest and
    the policy decision the engine has verified for that call. *)

From S2P Require Import Prelude GoStrings GoRegexp GoTime GoBase64 GoJson DomainContract Sha256 Domain GoStruct GoCodec Authority TamperAudit Policy ActionManifest ActionManifestFacts Storage StorageFacts ApprovalLifecycle ApprovalLifecycleFacts ApprovalCodec ApprovalBroker ApprovalBrokerFacts ApprovalBrokerRuns ApprovalBrokerTheorems ApprovalFingerprint ApprovalFingerprintFacts.

Local Open Scope string_scope.
Local Open Scope Z_scope.

(** ** Decimal text *)

Lemma itoa_digits_acc fuel v acc : itoa_digits fuel v acc = itoa_digits fuel v "" ++ acc.
Proof.
  revert v acc. induction fuel as [|fuel IH]; intros v acc; [done|]. cbn [itoa_digits].
  destruct (0 <? v); [|done]. by rewrite IH, (IH _ (String _ "")), append_assoc.
Qed.

Lemma append_snoc_inj s s' c c' : s ++ String c "" = s' ++ String c' "" -> s = s' /\ c = c'.
Proof.
  intros H. assert (Hl : String.length s = String.length s').
  { apply (f_equal String.length) in H. rewrite !length_append in H. cbn in H. lia. }
  apply append_inj_len in H as [-> [= ->]]; [|done]. done.
Qed.

Lemma decimal_digit_inj a b : byte_of (48 + a mod 10) = byte_of (48 + b mod 10) -> a mod 10 = b mod 10.
Proof.
  pose proof (Z.mod_pos_bound a 10 eq_refl). pose proof (Z.mod_pos_bound b 10 eq_refl).
  intros H1%(f_equal byte_val). rewrite !byte_val_of in H1 by lia. lia.
Qed.

Lemma itoa_digits_inj fuel v w : 0 <= v < 10 ^ Z.of_nat fuel -> 0 <= w < 10 ^ Z.of_nat fuel ->
  itoa_digits fuel v "" = itoa_digits fuel w "" -> v = w.
Proof.
  revert v w. induction fuel as [|fuel IH]; intros v w Hv Hw; [cbn in *; lia|].
  rewrite Nat2Z.inj_succ, Z.pow_succ_r in Hv, Hw by lia. cbn [itoa_digits].
  destruct (Z.ltb_spec 0 v), (Z.ltb_spec 0 w); rewrite 1?itoa_digits_acc, 1?(itoa_digits_acc _ (w / 10)); intros Heq.
  - apply append_snoc_inj in Heq as [Hq%IH Hr%decimal_digit_inj];
      [|split; [apply Z.div_pos; lia|apply Z.div_lt_upper_bound; lia]..].
    rewrite (Z.div_mod v 10), (Z.div_mod w 10) by lia. lia.
  - by destruct (itoa_digits fuel (v / 10) "").
  - by destruct (itoa_digits fuel (w / 10) "").
  - lia.
Qed.

Lemma uintText_inj v w : 0 < v < 10 ^ 20 -> 0 < w < 10 ^ 20 -> uintText v = uintText w -> v = w.
Proof.
  unfold uintText. intros Hv Hw. destruct (Z.eqb_spec v 0), (Z.eqb_spec w 0); try lia. apply itoa_digits_inj; cbn; lia.
Qed.

(** ** The comparison of a fingerprint with a record *)

(** The fields of a record the service compares, as the fingerprint has them *)
Record fingerprint_of_record (f : Fingerprint) (r : ApprovalRecord) : Prop := {
  fr_fingerprint : f_FingerprintDigest f = a_FingerprintDigest r;
  fr_manifest : f_ManifestDigest f = a_ManifestDigest r;
  fr_decision : f_PolicyDecisionDigest f = a_PolicyDecisionDigest r;
  fr_organization : f_OrganizationID f = a_OrganizationID r;
  fr_tenant : f_TenantID f = a_TenantID r;
  fr_case : f_CaseID f = a_CaseID r;
  fr_requestor : f_RequestorActorID f = a_RequestorActorID r;
  fr_owner : f_ActionOwnerActorID f = a_ActionOwnerActorID r;
  fr_from : f_ValidFrom f = a_ValidFrom r;
  fr_until : f_ValidUntil f = a_ValidUntil r;
  fr_uses : f_MaximumUseCount f = a_MaximumUseCount r }.

(** The same widths on the record's side *)
Lemma valid_record_widths r : approval_typed r -> ValidateRecord r = Ok tt ->
  Forall (fun d => digestPattern d = true) [a_FingerprintDigest r; a_ManifestDigest r; a_PolicyDecisionDigest r] /\
  Forall (fun i => uuidPattern i = true)
    [a_OrganizationID r; a_TenantID r; a_CaseID r; a_RequestorActorID r; a_ActionOwnerActorID r] /\
  (exists from until, parse_timestamp (a_ValidFrom r) = Some from /\ parse_timestamp (a_ValidUntil r) = Some until) /\
  0 < a_MaximumUseCount r <= 1000.
Proof.
  intros (_ & _ & _ & Hu & _) H. unfold ValidateRecord in H. apply seq_ok in H as [_ H]. apply seq_ok in H as [Hi H].
  apply seq_ok in H as [Hd H]. destruct (record_times r) as [[req upd]|] eqn:Ht; [|done]. apply seq_ok in H as [Hc _].
  apply deny_if_ok, negb_false_iff in Hi, Hd. apply deny_if_ok in Hc. rewrite !orb_false_iff in Hc.
  rewrite forallb_forall in Hi, Hd. unfold record_times, parseTimestamp in Ht.
  destruct (parse_timestamp (a_RequestedAt r)); [|done]. destruct (parse_timestamp (a_ValidFrom r)) as [from|]; [|done].
  destruct (parse_timestamp (a_ValidUntil r)) as [until|]; [|done]. unfold is_u32 in Hu. split_and!.
  - repeat constructor; apply Hd; cbn; tauto.
  - repeat constructor; apply Hi; cbn; tauto.
  - by exists from, until.
  - destruct Hc as (((_ & Hc) & _) & _). apply Z.eqb_neq in Hc. lia.
  - destruct Hc as ((_ & Hc) & _). by apply Z.ltb_ge in Hc.
Qed.

(** Splits an equation of concatenations at a part of fixed width *)
Ltac split_width H E lemma :=
  apply append_inj_len in H as [E H]; [|by rewrite !lemma by assumption].

Lemma fingerprintMatches_eq f r : fingerprint_counters f -> fingerprint_shape f -> approval_typed r ->
  ValidateRecord r = Ok tt -> fingerprintMatches f r = true -> fingerprint_of_record f r.
Proof.
  intros [_ Hu] [_ (Hd1 & Hd2 & Hd3 & _) (Hi1 & Hi2 & Hi3) (Hi4 & Hi5) _ (from & until & Hf & Hun & _) (_ & Hu0 & Hu1)] Ht Hv.
  destruct (valid_record_widths r Ht Hv) as (Hd & Hi & (from' & until' & Hf' & Hun') & Hm).
  repeat match goal with H : Forall _ (_ :: _) |- _ => apply Forall_cons_1 in H as [? H] end.
  unfold fingerprintMatches. cbv zeta. intros Heq%String.eqb_eq.
  split_width Heq E1 digestPattern_length. split_width Heq E2 digestPattern_length. split_width Heq E3 digestPattern_length.
  split_width Heq E4 uuidPattern_length. split_width Heq E5 uuidPattern_length. split_width Heq E6 uuidPattern_length.
  split_width Heq E7 uuidPattern_length. split_width Heq E8 uuidPattern_length.
  apply (timestamp_prefix _ _ _ _ _ _ Hf Hf') in Heq as [E9 Heq].
  apply (timestamp_prefix _ _ _ _ _ _ Hun Hun') in Heq as [E10 Heq].
  unfold is_u32 in Hu. apply uintText_inj in Heq; [|lia..]. by split.
Qed.

(** ** The service over the engine *)

(** The verifier of the service is the adapter over an engine: what it answers, the engine
    answers in some state of the engine's own world. *)
Class EngineBacked (W WE : Type) {ports : BrokerPorts W} {engine : EnginePorts WE} : Prop :=
  engine_answers : forall ctx p w verified w', verifyApproval ctx p w = (Ok verified, w') ->
    exists ctx' we we', engine_verifyApproval ctx' p we = (Ok verified, we').

(** An envelope [actionmanifest.Verify] returned: its fields are not exported, so every envelope
    but the zero one is. *)
Definition genuine (v : VerifiedEnvelope) : Prop :=
  exists ed25519 looks input authority, ActionManifest.Verify ed25519 looks input authority = Ok v.

(** The approval is of the action in the proof: the envelope is signed now by the active key of
    its requestor, its manifest is sound, the decision allows it, and the record repeats it. *)
Record approves {WE} {engine : EnginePorts WE} (r : ApprovalRecord) (p : approvalProof) (m : Manifest) : Prop := {
  av_signed : exists looks signature fresh now,
    ActionManifest.Verify engine_ed25519 looks (ve_envelopeBytes (pf_Manifest p)) (pf_Signer p) = Ok fresh /\
    ve_manifest fresh = m /\ verified_by engine_ed25519 (pf_Signer p) fresh signature /\
    derived fresh (pf_Decision p) now (pf_Fingerprint p) /\
    a_ManifestDigest r = digest (ve_manifestBytes fresh);
  av_sound : action_sound m;
  av_fingerprint : a_FingerprintDigest r = f_FingerprintDigest (pf_Fingerprint p);
  av_decision : a_PolicyDecisionDigest r = d_DecisionDigest (pf_Decision p);
  av_scope : a_OrganizationID r = m_OrganizationID m /\ a_TenantID r = m_TenantID m /\ a_CaseID r = m_CaseID m;
  av_actors : a_RequestorActorID r = m_RequestorActorID m /\ a_ActionOwnerActorID r = m_ActionOwnerActorID m;
  av_window : a_ValidFrom r = m_ValidFrom m /\ a_ValidUntil r = m_ValidUntil m;
  av_uses : a_MaximumUseCount r = m_MaximumUseCount m;
  av_tier : genuine (pf_Manifest p) -> a_ActionTier r = m_ActionTier m }.

(** What the adapter answers *)
Lemma engine_verifyApproval_ok {WE} {engine : EnginePorts WE} ctx p we verified we' :
  fingerprint_counters (pf_Fingerprint p) -> engine_verifyApproval ctx p we = (Ok verified, we') ->
  vp_Fingerprint verified = pf_Fingerprint p /\ vp_ActionTier verified = m_ActionTier (ve_manifest (pf_Manifest p)) /\
  fingerprint_shape (pf_Fingerprint p) /\
  exists looks fresh now,
    ActionManifest.Verify engine_ed25519 looks (ve_envelopeBytes (pf_Manifest p)) (pf_Signer p) = Ok fresh /\
    derived fresh (pf_Decision p) now (pf_Fingerprint p).
Proof.
  intros Hc. unfold engine_verifyApproval, mbind, prog_bind, map_err, Verify, perform.
  destruct (EngineNow we) as [t w1]. destruct (evaluate _ _ _ _ _ _ _) as [f err] eqn:He.
  destruct (AppendApprovalFingerprintEvent _ w1) as [[[]|u] w2]; [|done]. destruct err as [err|]; [done|].
  intros [= <- _]. cbn. destruct (evaluate_verified _ _ _ _ _ _ _ Hc He) as (-> & Hs & fresh & Hv & _ & Hd).
  split_and!; [done|done|done|]. by eexists _, fresh, _.
Qed.

(** A record that repeats a fingerprint the engine verified approves its action. *)
Lemma verified_approves {W WE} {ports : BrokerPorts W} {engine : EnginePorts WE} {backed : EngineBacked W WE}
  ctx p w verified w' r : fingerprint_counters (pf_Fingerprint p) -> verifyApproval ctx p w = (Ok verified, w') ->
  (vp_Fingerprint verified = pf_Fingerprint p -> fingerprint_shape (pf_Fingerprint p) -> fingerprint_of_record (pf_Fingerprint p) r) ->
  vp_ActionTier verified = a_ActionTier r -> exists m, approves r p m.
Proof.
  intros Hc (ctx' & we & we' & He)%engine_answers Hr Htier.
  destruct (engine_verifyApproval_ok _ _ _ _ _ Hc He) as (Hf & Ht & Hs & looks & fresh & now & Hv & Hd).
  destruct (Hr Hf Hs) as [E1 E2 E3 E4 E5 E6 E7 E8 E9 E10 E11]. clear Hr.
  pose proof (Verify_ok _ _ _ _ _ Hv) as (e & s & _ & _ & _ & _ & Hb).
  pose proof (dv_fields _ _ _ _ Hd) as Hfields. cbv zeta in Hfields. rewrite Hfields in E2, E3, E4, E5, E6, E7, E8, E9, E10, E11.
  cbn in E2, E3, E4, E5, E6, E7, E8, E9, E10, E11. exists (ve_manifest fresh). split; try done.
  - exists looks, s, fresh, now. split_and!; [done|done|done|done|]. rewrite <- E2. by apply (vb_digest _ _ _ _ Hb).
  - apply Validate_sound; [|by eapply vb_valid]. destruct (manifest_uses_typed _ (vb_typed _ _ _ _ Hb)). lia.
  - intros (ed & l & i & a & Hg). destruct (verified_again _ _ _ _ _ _ _ _ _ Hg Hv) as (_ & -> & _). congruence.
Qed.

Section composition.
Context {W WE : Type} {store : MetadataStore W} {ports : BrokerPorts W} {observed : Observed W}
  {engine : EnginePorts WE} {backed : EngineBacked W WE}.

Lemma proven_approves proof cur events : (forall p, proof = Some p -> fingerprint_counters (pf_Fingerprint p)) ->
  approval_typed cur -> ValidateRecord cur = Ok tt -> proven proof cur events ->
  exists p m, proof = Some p /\ approves cur p m.
Proof.
  intros Hc Ht Hv (p & verified & -> & _ & (ctx & w & w' & Hcall) & Htier & Hmatch). specialize (Hc p eq_refl).
  destruct (verified_approves ctx p w verified w' cur Hc Hcall) as [m Hm]; [|done|by exists p, m].
  intros Hf Hs. rewrite Hf in Hmatch. by apply fingerprintMatches_eq.
Qed.

Lemma requested_approves command verified record tx : fingerprint_counters (pf_Fingerprint (rc_approvalProof command)) ->
  requested command verified record tx -> exists m, approves record (rc_approvalProof command) m.
Proof.
  intros Hc [_ _ _ _ (ctx & w & w' & Hcall) _ (opdigest & eventID & now & _ & _ & ->) _].
  eapply verified_approves; [done|done| |done]. by intros _ _.
Qed.

(** C18. Composition of the approval service with the fingerprint engine, whatever
    [ed25519.Verify] is: a request, a grant or a use that sends a transaction is about an
    action whose envelope the engine has just verified again.  The manifest is sound and signed
    by the active key of its requestor, the policy decision in the proof allows it, and the
    approval record carries its digest, its tenant and case, its actors, its window and its use
    count; its tier too, unless the proof's envelope did not come from a verification.  So an
    approval cannot be granted or used for another action than the one that was signed. *)
Theorem approvals_are_of_signed_actions ctx operation command request w events tx answer :
  In (Sent tx answer) events ->
  (operation = "grant" \/ operation = "consume" ->
   (forall p, tc_approvalProof command = Some p -> fingerprint_counters (pf_Fingerprint p)) ->
   trace (snd (transition ctx operation command w)) = (trace w ++ events)%list ->
   exists stored cur nil_grants p m, In (Got (transition_key command) (Ok stored)) events /\
     decodeMetadata stored = Ok (cur, nil_grants) /\ tc_approvalProof command = Some p /\ approves cur p m) /\
  (fingerprint_counters (pf_Fingerprint (rc_approvalProof request)) ->
   trace (snd (requestApproval ctx request w)) = (trace w ++ events)%list ->
   exists record metadata m, metadataRecord false record = Ok metadata /\
     tx = approval_transaction "request" (rc_IdempotencyKey request) 0 record metadata /\
     approves record (rc_approvalProof request) m).
Proof.
  intros Hin. split.
  - intros Hop Hc. destruct (transition_leaves ctx operation command w) as (events' & -> & Hrun). intros ->%app_inv_head.
    destruct (sent_planned _ _ _ _ _ _ Hrun Hin) as (stored & cur & next & ng & verification & after & Hp & Hev).
    destruct Hp as [Hdec _ _ (opdigest & eventID & t & _ & Hauth & _) _ _].
    destruct (decodeMetadata_ok _ _ _ Hdec) as (Ht & Hv & _). exists stored, cur, ng.
    assert (Hproven : proven (tc_approvalProof command) cur verification) by (destruct Hop as [-> | ->]; by inversion Hauth).
    destruct (proven_approves _ _ _ Hc Ht Hv Hproven) as (p & m & Hp & Hm). exists p, m. rewrite Hev. split_and!; [by left|done..].
  - intros Hc. destruct (request_leaves ctx request w) as (events' & -> & Hrun). intros ->%app_inv_head.
    destruct (sent_requested _ _ _ _ _ Hrun Hin) as (verified & record & Hr). destruct (rq_tx _ _ _ _ Hr) as (metadata & Hm & Htx).
    destruct (requested_approves _ _ _ _ Hc Hr) as [m Ha]. by exists record, metadata, m.
Qed.
End composition.
