(* ===== verification/PreDispatch.v ===== *)
(** * internal/broker: the pre-dispatch gate

    The last authority check before a consequential action leaves: the gate verifies the
    signed manifest again, asks for a fresh policy decision, has the rules of engagement
    verified, uses up one use of the approval and audits the result ([predispatch_gate.go],
    [predispatch_validate.go], [predispatch_audit.go], [predispatch_types.go]).

    The policy evaluator, the approval service, the verifier of rules of engagement, the audit
    log and the clock are [GatePorts]. *)

From S2P Require Import Prelude GoStrings GoRegexp GoTime GoJson DomainContract Sha256 Domain GoStruct GoCodec Authority TamperAudit Policy ActionManifest Storage ApprovalLifecycle ApprovalCodec ApprovalBroker.

Local Open Scope string_scope.
Local Open Scope Z_scope.

(** ** predispatch_types.go *)

Definition preDispatchSchemaVersion : string := "coh.pre-dispatch/v1".

Record signedROEExpectation : Type := mkROEExpectation {
  re_Digest : string; re_OrganizationID : string; re_TenantID : string; re_CaseID : string; re_VerifyAt : string }.

Record verifiedROEProof : Type := mkROEProof {
  rp_Digest : string; rp_OrganizationID : string; rp_TenantID : string; rp_CaseID : string; rp_Revision : Z;
  rp_ValidFrom : string; rp_ValidUntil : string; rp_VerifiedAt : string; rp_SignerKeyID : string;
  rp_SignerKeyRevision : Z; rp_SignatureAlgorithm : string; rp_SignerActive : bool }.

Record preDispatchCommand : Type := mkPreDispatchCommand {
  pd_SignedManifest : string; pd_ManifestSigner : SignerAuthority; pd_EvaluationID : string;
  pd_PolicyActor : ActorAuthority; pd_Runtime : RuntimeAuthority; pd_PolicySigner : BundleAuthority;
  pd_Approval : approvalTransitionCommand; pd_Fingerprint : Fingerprint; pd_IntentDecision : Decision }.

Record preDispatchAuthority : Type := mkPreDispatchAuthority {
  au_Manifest : VerifiedEnvelope; au_PreDispatchDecision : Decision; au_Approval : ApprovalRecord;
  au_ROE : option verifiedROEProof; au_AuditEventID : string }.

(** [newPreDispatchGate], told which dependency is nil *)
Definition newPreDispatchGate (evaluator_nil approval_nil roe_nil audit_nil clock_nil : bool) : result Error unit :=
  deny_if (evaluator_nil || approval_nil || roe_nil || audit_nil || clock_nil)
    (NewError InvalidInput "predispatch_dependencies").

(** The ports of the gate.  An error of the evaluator is what [policy.Code] and
    [policy.Reason] say of it; no other error is looked at, but those of the approval service.
    [GateLooks] is what the caller's context says, look by look, while the manifest is
    verified. *)
Class GatePorts (W : Type) : Type := {
  Evaluate : context W -> Policy.Request -> BundleAuthority -> prog W Policy.Error Decision;
  gate_consumeApproval : context W -> approvalTransitionCommand -> prog W Error approvalResult;
  verifySignedROE : context W -> signedROEExpectation -> prog W unit verifiedROEProof;
  gate_AppendAuditEvent : TamperAudit.Event -> prog W unit unit;
  GateNow : W -> Time * W;
  GateLooks : context W -> W -> nat -> context_state;
  gate_ed25519 : string -> string -> string -> bool }.

(** ** predispatch_validate.go *)

Definition validatePreDispatchDecision (decision : Decision) (request : Policy.Request) (signer : BundleAuthority)
  (startedAt finishedAt : Time) : result Error unit :=
  let manifest := ve_manifest (pr_Manifest request) in
  deny_if (is_zero finishedAt || before finishedAt startedAt) (NewError Unavailable "predispatch_clock") ;;
  or_err (VerifyDecisionDigest decision) (NewError Denied "policy_decision_digest") ;;
  deny_if (negb (ba_Active signer) || negb (String.eqb (ba_Algorithm signer) "ed25519") || (ba_KeyRevision signer =? 0) ||
           negb (tokenPattern (ba_KeyID signer)) || negb (len (ba_PublicKey signer) =? 32) ||
           negb (String.eqb (d_EvaluationID decision) (pr_EvaluationID request)) ||
           negb (String.eqb (d_Phase decision) PreDispatch) || negb (String.eqb (d_Outcome decision) "allowed") ||
           negb (d_ApprovalRequired decision) ||
           negb (String.eqb (d_ManifestDigest decision) (ve_ManifestDigest (pr_Manifest request))) ||
           negb (String.eqb (d_ActorID decision) (aa_ActorID (pr_Actor request))) ||
           negb (d_ActorRevision decision =? aa_Revision (pr_Actor request)) ||
           negb (String.eqb (d_PolicyDigest decision) (m_PolicyDigest manifest)) ||
           negb (d_PolicyRevision decision =? m_PolicyRevision manifest) ||
           negb (String.eqb (d_SignerKeyID decision) (ba_KeyID signer)) ||
           negb (d_SignerKeyRevision decision =? ba_KeyRevision signer) ||
           negb (String.eqb (d_AuditOrganizationID decision) (m_OrganizationID manifest)) ||
           negb (String.eqb (d_AuditTenantID decision) (m_TenantID manifest)) ||
           negb (String.eqb (d_AuditCaseID decision) (m_CaseID manifest)))
    (NewError Denied "policy_decision_binding") ;;
  deny_if match parse_timestamp (d_EvaluatedAt decision) with
          | Some evaluatedAt => before evaluatedAt startedAt || after evaluatedAt finishedAt
          | None => true
          end (NewError Denied "policy_decision_stale").

Definition validatePolicyActor (actor : ActorAuthority) (manifest : Manifest) : result Error unit :=
  deny_if (negb (String.eqb (aa_ActorID actor) (m_RequestorActorID manifest)))
    (NewError Denied "actor_scope_mismatch") ;;
  validateActor actor (m_OrganizationID manifest) (m_TenantID manifest) (m_CaseID manifest) "action.request".

Definition sameOptionalDigest (left right : option string) : bool :=
  match left, right with
  | None, None => true
  | Some l, Some r => String.eqb l r
  | _, _ => false
  end.

Definition validateApprovalInputs (command : preDispatchCommand) (verified : VerifiedEnvelope) : result Error unit :=
  let manifest := ve_manifest verified in
  let fingerprint := pd_Fingerprint command in
  let intent := pd_IntentDecision command in
  let unbound := NewError Denied "approval_binding" in
  or_err (VerifyDecisionDigest intent) unbound ;;
  deny_if (negb (String.eqb (d_Phase intent) IntentCreated) || negb (String.eqb (d_Outcome intent) "allowed") ||
           negb (d_ApprovalRequired intent) ||
           negb (String.eqb (d_ManifestDigest intent) (ve_ManifestDigest verified)) ||
           negb (String.eqb (d_PolicyDigest intent) (m_PolicyDigest manifest)) ||
           negb (d_PolicyRevision intent =? m_PolicyRevision manifest) ||
           negb (String.eqb (d_ActorID intent) (m_RequestorActorID manifest))) unbound ;;
  deny_if (aa_Revision (pd_PolicyActor command) <? d_ActorRevision intent) (NewError Denied "identity_state_stale") ;;
  deny_if (negb (String.eqb (f_ManifestDigest fingerprint) (ve_ManifestDigest verified)) ||
           negb (String.eqb (f_OrganizationID fingerprint) (m_OrganizationID manifest)) ||
           negb (String.eqb (f_TenantID fingerprint) (m_TenantID manifest)) ||
           negb (String.eqb (f_CaseID fingerprint) (m_CaseID manifest)) ||
           negb (String.eqb (f_RequestorActorID fingerprint) (m_RequestorActorID manifest)) ||
           negb (String.eqb (f_ActionOwnerActorID fingerprint) (m_ActionOwnerActorID manifest)) ||
           negb (String.eqb (f_PolicyDigest fingerprint) (m_PolicyDigest manifest)) ||
           negb (f_PolicyRevision fingerprint =? m_PolicyRevision manifest) ||
           negb (sameOptionalDigest (f_ROEDigest fingerprint) (m_ROEDigest manifest)) ||
           negb (String.eqb (f_ValidFrom fingerprint) (m_ValidFrom manifest)) ||
           negb (String.eqb (f_ValidUntil fingerprint) (m_ValidUntil manifest)) ||
           negb (f_MaximumUseCount fingerprint =? m_MaximumUseCount manifest) ||
           negb (String.eqb (f_PolicyDecisionDigest fingerprint) (d_DecisionDigest intent))) unbound.

(** What the proof must be of *)
Definition roe_expectation (digest : string) (manifest : Manifest) (verifyAt : Time) : signedROEExpectation :=
  mkROEExpectation digest (m_OrganizationID manifest) (m_TenantID manifest) (m_CaseID manifest) (formatTime verifyAt).

Definition roe_acceptable (expected : signedROEExpectation) (verifyAt : Time) (proof : verifiedROEProof)
  : result Error unit :=
  deny_if (negb (String.eqb (rp_Digest proof) (re_Digest expected)) ||
           negb (String.eqb (rp_OrganizationID proof) (re_OrganizationID expected)) ||
           negb (String.eqb (rp_TenantID proof) (re_TenantID expected)) ||
           negb (String.eqb (rp_CaseID proof) (re_CaseID expected)) || (rp_Revision proof =? 0) ||
           negb (String.eqb (rp_VerifiedAt proof) (re_VerifyAt expected)) || negb (rp_SignerActive proof) ||
           (rp_SignerKeyRevision proof =? 0) || negb (tokenPattern (rp_SignerKeyID proof)) ||
           negb (String.eqb (rp_SignatureAlgorithm proof) "ed25519") ||
           match parse_timestamp (rp_ValidFrom proof), parse_timestamp (rp_ValidUntil proof) with
           | Some validFrom, Some validUntil =>
               before validUntil validFrom || same_instant validUntil validFrom || before verifyAt validFrom ||
               negb (before verifyAt validUntil)
           | _, _ => true
           end)
    (NewError Denied "roe_authority").

Definition validateConsumedApproval (record : ApprovalRecord) (command : preDispatchCommand) (manifest : Manifest)
  : result Error unit :=
  let refused := NewError Denied "approval_authority" in
  let approval := pd_Approval command in
  or_err (ApprovalLifecycle.ValidateRecord record) refused ;;
  deny_if (negb (String.eqb (a_ApprovalID record) (tc_ApprovalID approval)) ||
           negb (String.eqb (a_OrganizationID record) (m_OrganizationID manifest)) ||
           negb (String.eqb (a_TenantID record) (m_TenantID manifest)) ||
           negb (String.eqb (a_CaseID record) (m_CaseID manifest)) ||
           negb (String.eqb (a_ManifestDigest record) (f_ManifestDigest (pd_Fingerprint command))) ||
           negb (String.eqb (a_FingerprintDigest record) (f_FingerprintDigest (pd_Fingerprint command))) ||
           negb (String.eqb (a_PolicyDecisionDigest record) (d_DecisionDigest (pd_IntentDecision command))) ||
           negb (String.eqb (a_RequestorActorID record) (m_RequestorActorID manifest)) ||
           negb (String.eqb (a_ActionOwnerActorID record) (m_ActionOwnerActorID manifest)) ||
           negb (String.eqb (a_ActionTier record) (m_ActionTier manifest)) || (a_UseCount record =? 0) ||
           (a_MaximumUseCount record <? a_UseCount record) ||
           negb (a_MaximumUseCount record =? f_MaximumUseCount (pd_Fingerprint command))) refused ;;
  deny_if (negb (a_Revision record =? u64 (tc_ExpectedRevision approval + 1)) ||
           negb (String.eqb (a_LastActorID record) (m_ActionOwnerActorID manifest)) ||
           negb (a_LastActorRevision record =? aa_Revision (tc_Actor approval))) refused.

Definition mapManifestError (err : ActionManifest.ContractError) : Error :=
  match ActionManifest.Code err with
  | ActionManifest.InvalidInput => NewError InvalidInput "manifest_authority"
  | ActionManifest.Canceled => NewError Canceled "request_canceled"
  | ActionManifest.Timeout => NewError Timeout "request_timeout"
  | ActionManifest.Denied => NewError Denied "manifest_authority"
  end.

Definition mapPolicyError (err : Policy.Error) : Error :=
  match Policy.Code err with
  | Policy.InvalidInput => NewError InvalidInput (Policy.Reason err)
  | Policy.Denied => NewError Denied (Policy.Reason err)
  | Policy.Canceled => NewError Canceled (Policy.Reason err)
  | Policy.Timeout => NewError Timeout (Policy.Reason err)
  | Policy.Unavailable => NewError Unavailable (Policy.Reason err)
  end.

Definition lifecycleOutcome (err : Error) : string :=
  match ApprovalLifecycle.Code err with
  | InvalidInput => "invalid"
  | Denied => "denied"
  | Canceled => "canceled"
  | Timeout => "timeout"
  | _ => "unavailable"
  end.

(** ** predispatch_audit.go *)

Definition preDispatchAuditDomain : string := "COH-PRE-DISPATCH-AUDIT-V1" ++ String NUL "".

Definition preDispatchAuditEvent (manifest : Manifest) (decision : Decision) (approval : ApprovalRecord)
  (roe : option verifiedROEProof) (outcome reason : string) : result audit_error TamperAudit.Event :=
  let evidence := compact (sort_strings ([d_DecisionDigest decision; a_FingerprintDigest approval;
    a_ManifestDigest approval; a_PolicyDecisionDigest approval] ++
    match roe with Some roe => [rp_Digest roe] | None => [] end)%list) in
  let event eventID :=
    TamperAudit.mkEvent TamperAudit.EventSchemaVersion TamperAudit.ContractVersion eventID (m_OrganizationID manifest)
      (m_TenantID manifest) (m_CaseID manifest) (m_ActionOwnerActorID manifest) (a_LastActorRevision approval)
      preDispatchSchemaVersion "authorize" outcome reason (m_ManifestID manifest) (a_Revision approval)
      (a_ManifestDigest approval) (Some evidence) (d_EvaluatedAt decision) in
  let event := event (digest (preDispatchAuditDomain ++ marshal true (encode event_type (event_val (event ""))))) in
  TamperAudit.ValidateEvent event ;;
  Ok event.

(** ** predispatch_gate.go *)

Definition validateApprovalCommand (command : approvalTransitionCommand) (manifest : Manifest) : result Error unit :=
  deny_if (negb (String.eqb (OrganizationID (tc_Case command)) (m_OrganizationID manifest)) ||
           negb (String.eqb (TenantID (tc_Case command)) (m_TenantID manifest)) ||
           negb (String.eqb (CaseID (tc_Case command)) (m_CaseID manifest)) ||
           negb (String.eqb (aa_ActorID (tc_Actor command)) (m_ActionOwnerActorID manifest)))
    (NewError Denied "approval_scope_mismatch").

Definition consequentialTier (tier : string) : bool :=
  String.eqb tier "T2" || String.eqb tier "T3" || String.eqb tier "T4".

(** [consume := command.Approval; consume.approvalProof = &proof] *)
Definition consume_command (command : preDispatchCommand) (verified : VerifiedEnvelope) : approvalTransitionCommand :=
  let approval := pd_Approval command in
  mkTransitionCommand (tc_ApprovalID approval) (tc_IdempotencyKey approval) (tc_ExpectedRevision approval)
    (tc_Case approval) (tc_Actor approval) (tc_Principal approval) (tc_GrantAuthorities approval)
    (tc_ReasonCode approval)
    (Some (mkProof (pd_Fingerprint command) verified (pd_ManifestSigner command) (pd_IntentDecision command))).

Section gate.
Context {W : Type} {ports : GatePorts W}.
Local Notation gate A := (prog W Error A).

Definition gate_now : gate Time := atomically (fun w => let '(t, w) := GateNow w in (to_utc t, w)).

Definition context_check (ctx : context W) : gate unit := fun w => (contextError ctx w, w).

Definition verifyROE (ctx : context W) (manifest : Manifest) (verifyAt : Time) : gate (option verifiedROEProof) :=
  match m_ROEDigest manifest with
  | None => if String.eqb (m_ActionTier manifest) "T4" then pure (Err (NewError Denied "roe_required")) else mret None
  | Some digest =>
      let expected := roe_expectation digest manifest verifyAt in
      answer ← attempt (verifySignedROE ctx expected);
      match answer with
      | Err _ => context_check ctx ;; pure (Err (NewError Denied "roe_authority"))
      | Ok proof => pure (roe_acceptable expected verifyAt proof) ;; mret (Some proof)
      end
  end.

(** The event is appended under a context detached from the caller's. *)
Definition record_event {A} (event : result audit_error TamperAudit.Event) (rest : TamperAudit.Event -> gate A) : gate A :=
  event ← pure (or_err event (NewError Unavailable "audit_event_invalid"));
  map_err (fun _ => NewError Unavailable "audit_unavailable") (gate_AppendAuditEvent event) ;;
  rest event.

Definition recordTerminal {A} (manifest : Manifest) (decision : Decision) (record : ApprovalRecord)
  (roe : option verifiedROEProof) (resultErr : Error) : gate A :=
  record_event (preDispatchAuditEvent manifest decision record roe (lifecycleOutcome resultErr)
                  (ApprovalLifecycle.Reason resultErr)) (fun _ => pure (Err resultErr)).

(** From the fresh decision on: rules of engagement, approval, audit *)
Definition dispatch (ctx : context W) (command : preDispatchCommand) (verified : VerifiedEnvelope) (decision : Decision)
  : gate preDispatchAuthority :=
  let manifest := ve_manifest verified in
  roeAt ← gate_now;
  pure (deny_if (is_zero roeAt) (NewError Unavailable "predispatch_clock")) ;;
  roe ← verifyROE ctx manifest roeAt;
  pure (validateApprovalCommand (pd_Approval command) manifest) ;;
  pure (validateApprovalInputs command verified) ;;
  result ← gate_consumeApproval ctx (consume_command command verified);
  let record := ar_Record result in
  if ar_Replayed result
  then recordTerminal manifest decision record roe (NewError Denied "approval_replayed")
  else
    pure (validateConsumedApproval record command manifest) ;;
    ready ← context_ready ctx;
    match ready with
    | Err err => recordTerminal manifest decision record roe err
    | Ok _ =>
        record_event (preDispatchAuditEvent manifest decision record roe "allowed" "predispatch_authorized")
          (fun event => mret (mkPreDispatchAuthority verified decision record roe (TamperAudit.e_EventID event)))
    end.

Definition authorize (ctx : context W) (command : preDispatchCommand) : gate preDispatchAuthority :=
  context_check ctx ;;
  startedAt ← gate_now;
  pure (deny_if (is_zero startedAt) (NewError Unavailable "predispatch_clock")) ;;
  verified ← map_err mapManifestError (fun w =>
    (ActionManifest.Verify gate_ed25519 (GateLooks ctx w) (pd_SignedManifest command) (pd_ManifestSigner command), w));
  let manifest := ve_manifest verified in
  pure (deny_if (negb (consequentialTier (m_ActionTier manifest))) (NewError Denied "action_not_consequential")) ;;
  pure (validatePolicyActor (pd_PolicyActor command) manifest) ;;
  let request := Policy.mkRequest (pd_EvaluationID command) PreDispatch verified (pd_PolicyActor command) (pd_Runtime command) in
  answer ← attempt (Evaluate ctx request (pd_PolicySigner command));
  finishedAt ← gate_now;
  match answer with
  | Err err => pure (Err (mapPolicyError err))
  | Ok decision =>
      pure (validatePreDispatchDecision decision request (pd_PolicySigner command) startedAt finishedAt) ;;
      dispatch ctx command verified decision
  end.
End gate.
