(* ===== verification/PreDispatchFacts.v ===== *)
(** * The pre-dispatch gate: its properties

    What an authority to dispatch is made of, over any ports, and, with the approval service
    and the fingerprint engine behind the gate, that it is one counted use of an approval of
    exactly the signed action. *)

From S2P Require Import Prelude GoStrings GoRegexp GoTime GoJson DomainContract Sha256 Domain GoStruct GoCodec Authority TamperAudit Policy ActionManifest ActionManifestFacts Storage StorageFacts ApprovalLifecycle ApprovalLifecycleFacts ApprovalCodec ApprovalBroker ApprovalBrokerFacts ApprovalBrokerRuns ApprovalBrokerTheorems ApprovalFingerprint ApprovalFingerprintFacts ApprovalBinding PreDispatch.

Local Open Scope string_scope.
Local Open Scope Z_scope.

(** ** The parts of an authority *)

(** A policy decision made for this dispatch, between two looks at the clock *)
Record fresh_decision (request : Policy.Request) (signer : BundleAuthority) (started finished : Time) (d : Decision) : Prop := {
  fd_digest : exists blank, CanonicalDecisionBytes (set_DecisionDigest d "") = Ok blank /\ d_DecisionDigest d = digest blank;
  fd_allowed : d_Phase d = PreDispatch /\ d_Outcome d = "allowed" /\ d_ApprovalRequired d = true;
  fd_request : d_EvaluationID d = pr_EvaluationID request /\ d_ManifestDigest d = ve_ManifestDigest (pr_Manifest request) /\
    d_ActorID d = aa_ActorID (pr_Actor request) /\ d_ActorRevision d = aa_Revision (pr_Actor request);
  fd_policy : d_PolicyDigest d = m_PolicyDigest (ve_manifest (pr_Manifest request)) /\
    d_PolicyRevision d = m_PolicyRevision (ve_manifest (pr_Manifest request));
  fd_signer : ba_Active signer = true /\ d_SignerKeyID d = ba_KeyID signer /\ d_SignerKeyRevision d = ba_KeyRevision signer;
  fd_time : exists evaluated, parse_timestamp (d_EvaluatedAt d) = Some evaluated /\
    nanos started <= nanos evaluated <= nanos finished }.

Lemma validatePreDispatchDecision_ok d request signer started finished :
  validatePreDispatchDecision d request signer started finished = Ok tt -> fresh_decision request signer started finished d.
Proof.
  unfold validatePreDispatchDecision. cbv zeta. intros [_ H]%seq_ok. apply bind_ok in H as (bytes & Hd%or_err_ok & H).
  apply VerifyDecisionDigest_ok in Hd as [_ Hd]. apply seq_ok in H as [Hb Ht]. apply deny_if_ok in Hb, Ht.
  rewrite !orb_false_iff, !negb_false_iff, !String.eqb_eq, !Z.eqb_eq in Hb.
  destruct (parse_timestamp (d_EvaluatedAt d)) as [evaluated|] eqn:He; [|done]. unfold before, after in Ht.
  apply orb_false_iff in Ht as [Ht1%Z.ltb_ge Ht2%Z.ltb_ge]. decompose [and] Hb. split; try done.
  exists evaluated. done.
Qed.

(** The rules of engagement of the manifest hold; a destructive action has some. *)
Definition engaged (m : Manifest) (at_time : Time) (roe : option verifiedROEProof) : Prop :=
  match m_ROEDigest m with
  | None => roe = None /\ m_ActionTier m <> "T4"
  | Some d => exists proof from until, roe = Some proof /\ rp_Digest proof = d /\
      rp_OrganizationID proof = m_OrganizationID m /\ rp_TenantID proof = m_TenantID m /\ rp_CaseID proof = m_CaseID m /\
      rp_SignerActive proof = true /\ rp_VerifiedAt proof = formatTime at_time /\
      parse_timestamp (rp_ValidFrom proof) = Some from /\ parse_timestamp (rp_ValidUntil proof) = Some until /\
      before at_time from = false /\ before at_time until = true
  end.

Lemma verifyROE_ok {W} {ports : GatePorts W} ctx m at_time w roe w' :
  verifyROE ctx m at_time w = (Ok roe, w') -> engaged m at_time roe.
Proof.
  unfold verifyROE, engaged. destruct (m_ROEDigest m) as [d|].
  2:{ destruct (String.eqb_spec (m_ActionTier m) "T4"); intros H; [by apply pure_ok in H as [? _]|]. by injection H as <- _. }
  intros (answer & w1 & Ha & H)%prog_bind_ok. destruct answer as [proof|u].
  2:{ apply prog_bind_ok in H as (? & ? & _ & [? _]%pure_ok). done. }
  apply prog_bind_ok in H as ([] & w2 & [Hp ->]%pure_ok & [= <- _]). apply deny_if_ok in Hp.
  destruct (parse_timestamp (rp_ValidFrom proof)) as [from|] eqn:Hf; [|by rewrite orb_true_r in Hp].
  destruct (parse_timestamp (rp_ValidUntil proof)) as [until|] eqn:Hu; [|by rewrite orb_true_r in Hp].
  rewrite !orb_false_iff, !negb_false_iff, !String.eqb_eq in Hp. decompose [and] Hp. by exists proof, from, until.
Qed.

(** The record the approval service returned is of this action and this use. *)
Lemma validateConsumedApproval_ok record command m : validateConsumedApproval record command m = Ok tt ->
  ApprovalLifecycle.ValidateRecord record = Ok tt /\ a_ApprovalID record = tc_ApprovalID (pd_Approval command) /\
  a_Revision record = u64 (tc_ExpectedRevision (pd_Approval command) + 1) /\ a_LastActorID record = m_ActionOwnerActorID m.
Proof.
  unfold validateConsumedApproval. cbv zeta. intros (u & Hv%or_err_ok & H)%bind_ok. apply seq_ok in H as [H1 H2].
  apply deny_if_ok in H1, H2. rewrite !orb_false_iff in H1. rewrite !orb_false_iff in H2. destruct u.
  decompose [and] H1. decompose [and] H2.
  repeat match goal with H : negb _ = false |- _ => apply negb_false_iff in H end.
  split_and!; [done|by apply String.eqb_eq|by apply Z.eqb_eq|by apply String.eqb_eq].
Qed.

(** ** What an authority to dispatch is made of *)

Definition evaluation_request (command : preDispatchCommand) (verified : VerifiedEnvelope) : Policy.Request :=
  Policy.mkRequest (pd_EvaluationID command) PreDispatch verified (pd_PolicyActor command) (pd_Runtime command).

Definition hears {W} {ports : GatePorts W} (t : Time) : Prop := exists w, t = to_utc (fst (GateNow w)).

Record dispatch_authority {W} {ports : GatePorts W} (ctx : context W) (command : preDispatchCommand)
  (a : preDispatchAuthority) (w' : W) : Prop := {
  da_signed : exists looks,
    ActionManifest.Verify gate_ed25519 looks (pd_SignedManifest command) (pd_ManifestSigner command) = Ok (au_Manifest a);
  da_tier : consequentialTier (m_ActionTier (ve_manifest (au_Manifest a))) = true;
  da_actor : aa_ActorID (pd_PolicyActor command) = m_RequestorActorID (ve_manifest (au_Manifest a)) /\
    let m := ve_manifest (au_Manifest a) in
    entitled (pd_PolicyActor command) (m_OrganizationID m) (m_TenantID m) (m_CaseID m) "action.request";
  da_decision : exists started finished w1 w2, hears started /\ hears finished /\
    Evaluate ctx (evaluation_request command (au_Manifest a)) (pd_PolicySigner command) w1 = (Ok (au_PreDispatchDecision a), w2) /\
    fresh_decision (evaluation_request command (au_Manifest a)) (pd_PolicySigner command) started finished (au_PreDispatchDecision a);
  da_roe : exists roeAt, hears roeAt /\ engaged (ve_manifest (au_Manifest a)) roeAt (au_ROE a);
  da_used : exists w1 w2, gate_consumeApproval ctx (consume_command command (au_Manifest a)) w1 =
      (Ok (mkResult (au_Approval a) false), w2) /\
    validateConsumedApproval (au_Approval a) command (ve_manifest (au_Manifest a)) = Ok tt;
  da_audited : exists event w1, gate_AppendAuditEvent event w1 = (Ok tt, w') /\ TamperAudit.e_EventID event = au_AuditEventID a /\
    preDispatchAuditEvent (ve_manifest (au_Manifest a)) (au_PreDispatchDecision a) (au_Approval a) (au_ROE a)
      "allowed" "predispatch_authorized" = Ok event }.

Section gate.
Context {W : Type} {ports : GatePorts W}.

Lemma gate_now_hears w t w' : gate_now w = (Ok t, w') -> hears t.
Proof. unfold gate_now, atomically. intros H. exists w. destruct (GateNow w) as [t' w1]. by injection H as <- _. Qed.

Lemma recordTerminal_fails {A} m d r roe err w (a : A) w' : recordTerminal m d r roe err w <> (Ok a, w').
Proof.
  unfold recordTerminal, record_event. intros (event & w1 & _ & H)%prog_bind_ok.
  apply prog_bind_ok in H as ([] & w2 & _ & [? _]%pure_ok). done.
Qed.

(** From the fresh decision on *)
Lemma dispatch_ok ctx command verified decision w a w' : dispatch ctx command verified decision w = (Ok a, w') ->
  au_Manifest a = verified /\ au_PreDispatchDecision a = decision /\
  (exists roeAt, hears roeAt /\ engaged (ve_manifest verified) roeAt (au_ROE a)) /\
  (exists w1 w2, gate_consumeApproval ctx (consume_command command verified) w1 = (Ok (mkResult (au_Approval a) false), w2) /\
     validateConsumedApproval (au_Approval a) command (ve_manifest verified) = Ok tt) /\
  exists event w1, gate_AppendAuditEvent event w1 = (Ok tt, w') /\ TamperAudit.e_EventID event = au_AuditEventID a /\
    preDispatchAuditEvent (ve_manifest verified) decision (au_Approval a) (au_ROE a) "allowed" "predispatch_authorized" = Ok event.
Proof.
  unfold dispatch. intros (roeAt & w1 & Hnow%gate_now_hears & H)%prog_bind_ok.
  apply prog_bind_ok in H as ([] & w2 & _ & H). apply prog_bind_ok in H as (roe & w3 & Hroe%verifyROE_ok & H).
  apply prog_bind_ok in H as ([] & w4 & _ & H). apply prog_bind_ok in H as ([] & w5 & _ & H).
  apply prog_bind_ok in H as (result & w6 & Hc & H). destruct result as [record [|]]; cbn [ar_Record ar_Replayed] in H.
  { by apply recordTerminal_fails in H. }
  apply prog_bind_ok in H as ([] & w7 & [Hv ->]%pure_ok & H). apply prog_bind_ok in H as (ready & w8 & _ & H).
  destruct ready as [u|err]; [|by apply recordTerminal_fails in H].
  unfold record_event in H. apply prog_bind_ok in H as (event & w9 & [He%or_err_ok ->]%pure_ok & H).
  apply prog_bind_ok in H as ([] & w10 & Ha%map_err_ok & [= <- <-]).
  cbn [au_Manifest au_PreDispatchDecision au_ROE au_Approval au_AuditEventID].
  split; [reflexivity|]. split; [reflexivity|]. split; [exists roeAt; exact (conj Hnow Hroe)|].
  split; [exists w5, w6; exact (conj Hc Hv)|]. exists event, w8. exact (conj Ha (conj eq_refl He)).
Qed.

(** An authority to dispatch stands on every check, for any ports and contexts: the
    envelope verified now, the tier is consequential, the requestor's authority is current and in scope, the
    evaluator allowed this very manifest between two looks at the clock, with an intact digest
    and under the active policy key, the rules of engagement (required for T4) were verified
    and are in force, the approval service reported a new use that is not a replay and whose
    record passes the gate's comparison, and, last, the audit log accepted the event that
    names the authority. *)
Theorem dispatch_stands_on_every_check ctx command w a w' : authorize ctx command w = (Ok a, w') ->
  dispatch_authority ctx command a w'.
Proof.
  unfold authorize. intros ([] & w0 & _ & H)%prog_bind_ok. apply prog_bind_ok in H as (started & w1 & Hs%gate_now_hears & H).
  apply prog_bind_ok in H as ([] & w2 & _ & H). apply prog_bind_ok in H as (verified & w3 & Hv%map_err_ok & H).
  injection Hv as Hv ->. apply prog_bind_ok in H as ([] & w4 & [Ht ->]%pure_ok & H).
  apply prog_bind_ok in H as ([] & w5 & [Ha ->]%pure_ok & H). apply prog_bind_ok in H as (answer & w6 & He & H).
  apply prog_bind_ok in H as (finished & w7 & Hf%gate_now_hears & H).
  destruct answer as [decision|err]; [|by apply pure_ok in H as [? _]].
  apply prog_bind_ok in H as ([] & w8 & [Hd%validatePreDispatchDecision_ok ->]%pure_ok & H).
  apply dispatch_ok in H as (Hm & Hdd & Hroe & Hused & Haud). subst verified decision.
  apply deny_if_ok, negb_false_iff in Ht. unfold validatePolicyActor in Ha. apply seq_ok in Ha as [Hr Ha%validateActor_ok].
  apply deny_if_ok, negb_false_iff, String.eqb_eq in Hr.
  unfold attempt in He. destruct (Evaluate ctx _ _ _) as [r w6'] eqn:Hev in He. injection He as -> ->.
  split; [by eexists|exact Ht|exact (conj Hr Ha)| |exact Hroe|exact Hused|exact Haud].
  exists started, finished, w3, w6. exact (conj Hs (conj Hf (conj Hev Hd))).
Qed.
End gate.

(** ** With the approval service behind the gate *)

Section composition.
Context {W WE : Type} {store : MetadataStore W} {ports : BrokerPorts W} {observed : Observed W}
  {engine : EnginePorts WE} {backed : EngineBacked W WE} {gate : GatePorts W}.

(** The gate's consumer is the service. *)
Hypothesis consumer_is_the_service : forall ctx command w,
  gate_consumeApproval ctx command w = consumeApproval ctx command w.

(** A use that is not a replay is a committed transition. *)
Lemma fresh_use_committed command events record : transition_run "consume" command events (Ok (mkResult record false)) ->
  exists stored cur nil_grants tx verification value, cr_Replayed value = false /\
    planned "consume" command stored cur record nil_grants tx verification /\
    events = ([Got (transition_key command) (Ok stored)] ++ verification ++ [Sent tx (Ok value)])%list.
Proof.
  intros Hrun. inversion Hrun as [| |stored cur next ng tx verification value Hp Hev Hres|]; subst.
  by exists stored, cur, ng, tx, verification, value.
Qed.

(** One use more, within the bound *)
Lemma consumed_use command stored cur record nil_grants tx verification :
  planned "consume" command stored cur record nil_grants tx verification ->
  a_UseCount record = a_UseCount cur + 1 /\ a_Grants record = a_Grants cur.
Proof.
  intros [Hdec _ _ (opdigest & eventID & now & _ & _ & ->) _ _].
  destruct (decodeMetadata_ok _ _ _ Hdec) as (Ht & Hv & _). pose proof (record_valid_shape _ Ht Hv) as Hs.
  destruct (rs_uses _ Hs), (rs_maximum _ Hs). unfold applyTransition. cbn [String.eqb Ascii.eqb Bool.eqb].
  assert (Hu : u32 (a_UseCount cur + 1) = a_UseCount cur + 1) by (unfold u32; apply Z.mod_small; lia).
  destruct (_ =? _); cbn; by rewrite Hu.
Qed.

(** End to end: when the gate, over the approval service and the fingerprint engine,
    authorizes a dispatch, the service has read the approval in the granted state and
    committed its next record, which counts exactly one use more (and the store did not
    report a replay of an earlier transaction).  The use was warranted: by the action's owner,
    inside the window, with the full quorum of approvers who are still eligible.  And the
    approval is of exactly the manifest that was signed and that the authority carries. *)
Theorem dispatch_is_one_use_of_a_signed_approval ctx command w a w' :
  fingerprint_counters (pd_Fingerprint command) -> authorize ctx command w = (Ok a, w') ->
  let consume := consume_command command (au_Manifest a) in
  exists w1 w2 events stored cur nil_grants tx value now p,
    consumeApproval ctx consume w1 = (Ok (mkResult (au_Approval a) false), w2) /\
    trace w2 = (trace w1 ++ events)%list /\ In (Sent tx (Ok value)) events /\ cr_Replayed value = false /\
    In (Got (transition_key consume) (Ok stored)) events /\ decodeMetadata stored = Ok (cur, nil_grants) /\
    ValidateTransition cur (au_Approval a) = Ok tt /\ a_UseCount (au_Approval a) = a_UseCount cur + 1 /\
    warranted consume cur now events "consume" /\
    tc_approvalProof consume = Some p /\ approves cur p (ve_manifest (au_Manifest a)) /\
    a_ActionTier cur = m_ActionTier (ve_manifest (au_Manifest a)).
Proof.
  intros Hc H consume. apply dispatch_stands_on_every_check in H as [(looks & Hsigned) _ _ _ _ (w1 & w2 & Hused & _) _].
  rewrite consumer_is_the_service in Hused. fold consume in Hused.
  destruct (transition_leaves ctx "consume" consume w1) as (events & Htrace & Hrun).
  change (transition ctx "consume" consume w1) with (consumeApproval ctx consume w1) in Htrace, Hrun.
  rewrite Hused in Htrace, Hrun. cbn [fst snd] in Htrace, Hrun.
  destruct (fresh_use_committed _ _ _ Hrun) as (stored & cur & ng & tx & verification & value & Hrep & Hp & Hev).
  pose proof (consumed_use _ _ _ _ _ _ _ Hp) as [Huse _].
  destruct Hp as [Hdec _ Hactor (opdigest & eventID & now & _ & Hauth & _) Hstep _].
  destruct (decodeMetadata_ok _ _ _ Hdec) as (Ht & Hv & _).
  assert (Hproven : proven (tc_approvalProof consume) cur verification) by (by inversion Hauth).
  destruct (proven_approves (WE := WE) (tc_approvalProof consume) cur verification) as (p & m & Hproof & Hm); [|done..|].
  { intros p [= <-]. exact Hc. }
  assert (Hpm : pf_Manifest p = au_Manifest a) by (by injection Hproof as <-).
  assert (Hg : genuine (pf_Manifest p)) by (rewrite Hpm; by exists gate_ed25519, looks, (pd_SignedManifest command), (pd_ManifestSigner command)).
  assert (Hsame : m = ve_manifest (au_Manifest a)).
  { destruct (av_signed _ _ _ Hm) as (looks' & s & fresh & t & Hfresh & <- & _). rewrite Hpm in Hfresh.
    by destruct (verified_again _ _ _ _ _ _ _ _ _ Hsigned Hfresh) as (_ & -> & _). }
  subst m. exists w1, w2, events, stored, cur, ng, tx, value, now, p.
  split_and!; try done; try (by eapply av_tier).
  - rewrite Hev. apply in_or_app. right. apply in_or_app. right. by left.
  - rewrite Hev. by left.
  - eapply authorized_warranted; [exact Hactor|exact Hauth|]. rewrite Hev. set_solver.
Qed.
End composition.
