(* ===== verification/PreDispatchExample.v ===== *)
(** * A signed action: its fingerprint, its approval and its dispatch

    A manifest in a signed envelope, a policy decision about it and their fingerprint, with a
    toy signature scheme, as inputs for the theorems about manifests, fingerprints and the
    approvals of signed actions.
    A granted approval of that action in the store, and a
    gate over the service that uses it. *)

From S2P Require Import Prelude GoStrings GoRegexp GoTime GoBase64 GoJson DomainContract Sha256 Domain GoStruct GoCodec Authority TamperAudit Policy ActionManifest ActionManifestFacts Storage StorageFacts ApprovalLifecycle ApprovalLifecycleFacts ApprovalCodec ApprovalBroker ApprovalBrokerFacts ApprovalBrokerRuns ApprovalBrokerTheorems ApprovalBrokerStore ApprovalBrokerExample ApprovalFingerprint ApprovalFingerprintFacts ApprovalBinding PreDispatch PreDispatchFacts.

Local Open Scope string_scope.
Local Open Scope Z_scope.

(** ** A signed envelope *)

Definition hx_manifest : Manifest :=
  mkManifest ManifestSchemaVersion ActionManifest.ContractVersion (ax_id "1") (ax_id "2") (ax_id "2") (ax_id "3")
    (ax_id "4") (ax_id "5") (ax_id "5") "isolate" "isolate.host" "T2" (Some [ax_digest]) (Some []) ax_digest
    (mkTool "edr" "1.0" ax_digest) ax_digest ax_digest 1 None "none" None "zone" ax_digest (ax_time "10") (ax_time "59")
    (base64_encode "0123456789abcdef0123456789abcdef") 1 (Some ax_digest) None.

Definition hx_key : string := "abcdefghijklmnopqrstuvwxyz012345".

(** A signature is the key, twice. *)
Definition hx_ed25519 (key message signature : string) : bool := String.eqb signature (key ++ key).

Definition hx_manifest_digest : string := "sha256:917e5f1df9b9b6f8273aa6f616823630c118448861f0e7f6783bb06281045dbe".

Definition hx_input : string :=
  marshal true (encode (c_type ActionManifest.envelope_codec) (c_to ActionManifest.envelope_codec
    (ActionManifest.mkEnvelope EnvelopeSchemaVersion ActionManifest.ContractVersion hx_manifest hx_manifest_digest
       (ax_id "5") 1 "key" "ed25519" (base64_encode (hx_key ++ hx_key))))).

Definition hx_signer : SignerAuthority := mkSignerAuthority (ax_id "5") "key" 1 true hx_key.

Definition hx_live : nat -> context_state := fun _ => CtxLive.

(** What a computation returns, or a default *)
Definition ok_or {E A} (d : A) (r : result E A) : A := match r with Ok a => a | Err _ => d end.

Definition hx_envelope : VerifiedEnvelope :=
  ok_or (mkVerifiedEnvelope "" "" 0 "" hx_manifest "" "") (ActionManifest.Verify hx_ed25519 hx_live hx_input hx_signer).

(** ** A decision and the fingerprint *)

Definition hx_decision : Decision :=
  mkDecision Policy.SchemaVersion Policy.ContractVersion (ax_id "1")
    "sha256:831d2d252f18d5251a3fc48b28917866279579325fbb7b5f45a53c5b256d78b5" ax_digest "allowed"
    "policy_allowed" IntentCreated hx_manifest_digest ax_digest 1 (ax_id "1") "key" 1 (ax_id "5") 1 true (ax_time "10")
    "" "" "".

Definition hx_fingerprint : Fingerprint :=
  mkFingerprint FingerprintSchemaVersion FingerprintContractVersion
    "sha256:9892f097022be501cfde77d1a3a4a60703805bec7b24509d94118df53de7a884" hx_manifest_digest
    (d_DecisionDigest hx_decision) (ax_id "2") (ax_id "3") (ax_id "4") (ax_id "5") (ax_id "5") ax_digest 1 None
    (ax_time "10") (ax_time "59") 1.

#[export] Instance hx_engine : EnginePorts unit := {|
  EngineNow w := (bx_now, w);
  AppendApprovalFingerprintEvent event w := (Ok tt, w);
  EngineLooks ctx w := hx_live;
  engine_ed25519 := hx_ed25519 |}.

(** ** The service over the engine *)

Definition hx_proof : approvalProof := mkProof hx_fingerprint hx_envelope hx_signer hx_decision.

Definition hx_request : approvalRequestCommand :=
  mkRequestCommand (ax_id "1") "request-one" bx_requestor (bx_principal "5" "6") hx_proof.

(** The verifier asks the engine; its answers are logged. *)
Definition hx_ports : BrokerPorts bx_world := {|
  verifyApproval ctx p w := let '(r, _) := engine_verifyApproval None p tt in (r, bx_log (Verified p r) w);
  AppendApprovalLifecycleEvent event w := (Ok tt, bx_log (Audited event (Ok tt)) w);
  BrokerNow w := (bx_now, w);
  ReadRandom w := (Ok "0123456789abcdef", w) |}.

Definition hx_observed : Observed bx_world (ports := hx_ports).
Proof.
  refine (Build_Observed _ _ hx_ports bx_trace _ _ _ _ _ _); cbn.
  - intros ctx key w r w'. by destruct (Get ctx key w) as [r0 w0]; intros [= <- <-].
  - intros ctx tx w r w'. by destruct (Transact ctx tx w) as [r0 w0]; intros [= <- <-].
  - intros ctx p w r w'. by destruct (engine_verifyApproval None p tt) as [r0 w0]; intros [= <- <-].
  - by intros e w r w' [= <- <-].
  - done.
  - by intros w r w' [= _ <-].
Defined.

Lemma hx_backed : EngineBacked bx_world unit (ports := hx_ports).
Proof.
  intros ctx p w verified w'. cbn. destruct (engine_verifyApproval None p tt) as [r we] eqn:E. intros [= -> _].
  by exists None, tt, we.
Qed.

Definition hx_final : bx_world := snd (requestApproval (ports := hx_ports) bx_ctx hx_request bx_empty).

Lemma hx_sent : existsb is_sent (bx_trace hx_final) = true.
Proof. vm_compute. reflexivity. Qed.

Lemma hx_derives : is_ok (v ← or_err (ActionManifest.Verify hx_ed25519 hx_live hx_input hx_signer)
    (Policy.NewError Policy.Denied ""); derive v hx_decision bx_now) = true.
Proof. vm_compute. reflexivity. Qed.

#[local] Opaque ActionManifest.Verify derive requestApproval.

Lemma hx_verified : exists v f, ActionManifest.Verify hx_ed25519 hx_live hx_input hx_signer = Ok v /\
  derive v hx_decision bx_now = Ok f.
Proof.
  pose proof hx_derives as H. destruct (ActionManifest.Verify hx_ed25519 hx_live hx_input hx_signer) as [v|err]; [|discriminate H].
  cbn [or_err mbind result_bind] in H. destruct (derive v hx_decision bx_now) as [f|err] eqn:Hf; [|discriminate H].
  exists v, f. exact (conj eq_refl Hf).
Qed.

(** ** Witnesses *)

Lemma verified_manifests_are_signed_and_bound_witness : exists v signature,
  verified_by hx_ed25519 hx_signer v signature /\ action_sound (ve_manifest v).
Proof.
  destruct hx_verified as (v & f & Hv & _).
  destruct (verified_manifests_are_signed_and_bound hx_ed25519 hx_live hx_input hx_signer v Hv) as (Hs & [signature Hb] & _).
  exact (ex_intro _ v (ex_intro _ signature (conj Hb Hs))).
Defined.

Lemma hx_counters : decision_counters hx_decision.
Proof. unfold decision_counters, is_u64. cbn. lia. Qed.

Lemma fingerprint_binds_action_and_decision_witness : exists v f,
  derive v hx_decision bx_now = Ok f /\ ((ve_manifest v = ve_manifest v /\
    decision_tuple hx_decision = decision_tuple hx_decision /\ f = f) \/
  exists bytes bytes', CanonicalDecisionBytes hx_decision = Ok bytes /\ CanonicalDecisionBytes hx_decision = Ok bytes' /\
    sha256_collision (fingerprint_preimage (ve_manifestBytes v) bytes) (fingerprint_preimage (ve_manifestBytes v) bytes')).
Proof.
  destruct hx_verified as (v & f & Hv & Hf). exists v, f. split; [exact Hf|].
  exact (fingerprint_binds_action_and_decision hx_ed25519 hx_live hx_live hx_input hx_input hx_signer hx_signer v v
    hx_decision hx_decision bx_now bx_now f f Hv Hv hx_counters hx_counters Hf Hf eq_refl).
Defined.

Lemma approvals_are_of_signed_actions_witness : exists record m, approves (engine := hx_engine) record hx_proof m.
Proof.
  pose proof hx_sent as H. apply existsb_exists in H as ([| |tx answer|] & Hin & Hs); try discriminate Hs.
  destruct (approvals_are_of_signed_actions (observed := hx_observed) (backed := hx_backed) bx_ctx "grant" bx_rejection
    hx_request bx_empty (bx_trace hx_final) tx answer Hin) as [_ Happ].
  destruct Happ as (record & metadata & m & _ & _ & H); [split; unfold is_u64, is_u32; cbn; lia|reflexivity|].
  exists record, m. exact H.
Defined.

(** ** The pre-dispatch gate: a concrete dispatch *)

(** The approval of the action, granted by one approver *)
Definition dx_granted : ApprovalRecord :=
  mkApproval ApprovalLifecycle.SchemaVersion ApprovalLifecycle.ContractVersion (ax_id "1") (ax_id "2") (ax_id "3") (ax_id "4")
    (f_FingerprintDigest hx_fingerprint) hx_manifest_digest (d_DecisionDigest hx_decision) (ax_id "5") 1 (ax_id "6")
    (ax_id "5") "T2" Granted 2 (ax_time "10") (ax_time "10") (ax_time "59") 1
    [mkGrant (ax_id "a") 1 (ax_id "b") 1 (ax_time "10")] 1 0 "approval_granted" (ax_id "a") 1 ax_digest (ax_id "9")
    (ax_time "10").

Definition dx_world : bx_world := mkBxWorld (Some (ok_or (mkMetadataRecord (request_key hx_request) "" 0 "" "")
  (metadataRecord false dx_granted))) [].

(** The decision the evaluator makes for the dispatch *)
Definition dx_decision : Decision :=
  mkDecision Policy.SchemaVersion Policy.ContractVersion (ax_id "e")
    "sha256:141bfaaefdfa50918f5b42a771a948cc7f865d891e957d99ecea34e2c5817a47" ax_digest "allowed"
    "policy_allowed" PreDispatch hx_manifest_digest ax_digest 1 (ax_id "1") "key" 1 (ax_id "5") 1 true (ax_time "10")
    (ax_id "2") (ax_id "3") (ax_id "4").

#[export] Instance dx_gate : GatePorts bx_world := {|
  Evaluate ctx request signer w := (Ok dx_decision, w);
  gate_consumeApproval ctx command w := consumeApproval (ports := hx_ports) ctx command w;
  verifySignedROE ctx expected w := (Err tt, w);
  gate_AppendAuditEvent event w := (Ok tt, w);
  GateNow w := (bx_now, w);
  GateLooks ctx w := hx_live;
  gate_ed25519 := hx_ed25519 |}.

Definition dx_approval : approvalTransitionCommand :=
  mkTransitionCommand (ax_id "1") "consume-one" 2 (mkCaseRef (ax_id "2") (ax_id "3") (ax_id "4")) bx_requestor None
    [mkGrantAuthority bx_approver (bx_principal "a" "b")] "approval_used" None.

Definition dx_command : preDispatchCommand :=
  mkPreDispatchCommand hx_input hx_signer (ax_id "e") bx_requestor
    (mkRuntimeAuthority "" "" true true true true true false) (mkBundleAuthority "key" 1 "ed25519" true hx_key)
    dx_approval hx_fingerprint hx_decision.

Lemma dx_authorized : is_ok (fst (authorize bx_ctx dx_command dx_world)) = true.
Proof. vm_compute. reflexivity. Qed.

#[local] Opaque authorize.

Lemma dx_authority : exists a w', authorize bx_ctx dx_command dx_world = (Ok a, w').
Proof. destruct (is_ok_pair _ dx_authorized) as [a Ha]. exists a. eexists. exact Ha. Qed.

(** ** Witnesses *)

Lemma dispatch_stands_on_every_check_witness : exists a w', dispatch_authority bx_ctx dx_command a w'.
Proof.
  destruct dx_authority as (a & w' & H). exists a, w'. exact (dispatch_stands_on_every_check bx_ctx dx_command dx_world a w' H).
Defined.

Lemma dispatch_is_one_use_of_a_signed_approval_witness : exists a cur p,
  a_UseCount (au_Approval a) = a_UseCount cur + 1 /\ approves cur p (ve_manifest (au_Manifest a)).
Proof.
  destruct dx_authority as (a & w' & H).
  destruct (dispatch_is_one_use_of_a_signed_approval (observed := hx_observed) (backed := hx_backed) (gate := dx_gate)
    (fun _ _ _ => eq_refl) bx_ctx dx_command dx_world a w')
    as (w1 & w2 & events & stored & cur & ng & tx & value & now & p & _ & _ & _ & _ & _ & _ & _ & Hu & _ & _ & Hm & _);
    [split; unfold is_u64, is_u32; cbn; lia|exact H|].
  exists a, cur, p. exact (conj Hu Hm).
Defined.
