(* ===== verification/EStop.v ===== *)
(** * internal/domain/estop: the contract of emergency stops

    Commands, authorities, the state of an active stop, the acknowledgements of controls and
    the decisions that are audited: their data ([types.go]), validation ([validate.go]),
    decoding and digests ([contract.go]) and errors ([errors.go]). *)

From S2P Require Import Prelude GoStrings GoTime GoJson DomainContract Sha256 Domain GoStruct Storage.

Local Open Scope string_scope.
Local Open Scope Z_scope.

(** ** types.go *)

Definition ContractVersion : string := "1.0.0".
Definition CommandSchemaVersion : string := "coh.estop-command/v1".
Definition StateSchemaVersion : string := "coh.estop-state/v1".
Definition AckSchemaVersion : string := "coh.estop-control-ack/v1".
Definition DecisionSchemaVersion : string := "coh.estop-decision/v1".
Definition MaximumInputBytes : Z := 32 * 1024.
Definition MaximumAuthorityAge : Z := 30 * second.
Definition LeaseRejectObjective : Z := second.
Definition EgressCutObjective : Z := 2 * second.
Definition WorkflowSignalObjective : Z := 5 * second.
Definition TerminationObjective : Z := 10 * second.

Record Scope : Type := mkScope {
  sc_Kind : string; sc_OrganizationID : string; sc_TenantID : string; sc_CaseID : string }.

#[export] Instance Scope_eq_dec : EqDecision Scope.
Proof. solve_decision. Defined.

Record Command : Type := mkCommand {
  cm_SchemaVersion : string; cm_ContractVersion : string; cm_RequestID : string; cm_IdempotencyKey : string;
  cm_Scope : Scope; cm_ActorID : string; cm_ReasonCode : string }.

Record Authority : Type := mkAuthority {
  at_Scope : Scope; at_ActorID : string; at_ActorRevision : Z; at_ActorActive : bool; at_AuthorizationAllowed : bool;
  at_AuthorizationDecisionDigest : string; at_PolicyAllowed : bool; at_PolicyDecisionDigest : string;
  at_ObservedAt : Time }.

Record State : Type := mkState {
  st_SchemaVersion : string; st_ContractVersion : string; st_Scope : Scope; st_Epoch : Z; st_Active : bool;
  st_RequestID : string; st_RequestDigest : string; st_ActorID : string; st_ActorRevision : Z;
  st_ReasonCode : string; st_AuthorizationDecisionDigest : string; st_PolicyDecisionDigest : string;
  st_ActivatedAt : Time }.

#[export] Instance State_eq_dec : EqDecision State.
Proof. solve_decision. Defined.

Record ControlRequest : Type := mkControlRequest { cq_Scope : Scope; cq_Epoch : Z; cq_ActivatedAt : Time }.

Record Acknowledgement : Type := mkAck {
  ak_SchemaVersion : string; ak_ContractVersion : string; ak_Scope : Scope; ak_Epoch : Z; ak_ControlID : string;
  ak_ControlKind : string; ak_Outcome : string; ak_ReasonCode : string; ak_EvidenceDigest : string;
  ak_StartedAt : Time; ak_CompletedAt : Time; ak_ElapsedNanos : Z; ak_ObjectiveNanos : Z }.

#[export] Instance Acknowledgement_eq_dec : EqDecision Acknowledgement.
Proof. solve_decision. Defined.

Record Decision : Type := mkDecision {
  dc_SchemaVersion : string; dc_ContractVersion : string; dc_Event : string; dc_Outcome : string;
  dc_ReasonCode : string; dc_RequestID : string; dc_Scope : Scope; dc_Epoch : Z; dc_ActorID : string;
  dc_ActorRevision : Z; dc_ControlID : string; dc_ControlKind : string; dc_ControlOutcome : string;
  dc_EvidenceDigest : string; dc_AuthorizationDecisionDigest : string; dc_PolicyDecisionDigest : string;
  dc_ActivatedAt : Time; dc_OccurredAt : Time; dc_ElapsedNanos : Z; dc_ObjectiveNanos : Z;
  dc_DecisionDigest : string }.

Record Result : Type := mkResult { rs_State : State; rs_Acknowledgements : list Acknowledgement; rs_AuditPending : bool }.

Record AuditRecord : Type := mkAuditRecord { ar_ID : string; ar_Decision : Decision; ar_Delivered : bool }.

Definition zero_scope : Scope := mkScope "" "" "" "".
Definition zero_state : State := mkState "" "" zero_scope 0 false "" "" "" 0 "" "" "" zero_time.
Definition zero_decision : Decision :=
  mkDecision "" "" "" "" "" "" zero_scope 0 "" 0 "" "" "" "" "" "" zero_time zero_time 0 0 "".
Definition zero_audit : AuditRecord := mkAuditRecord "" zero_decision false.

(** ** errors.go *)

Inductive ErrorCode : Type := InvalidInput | Denied | NotFound | Conflict | Canceled | Timeout | Unavailable.

Record Error : Type := NewError { err_Code : ErrorCode; err_Reason : string }.

Definition Code (err : go_error Error) : ErrorCode :=
  match errors_as err with
  | Some stopErr => err_Code stopErr
  | None => if errors_is_canceled err then Canceled else if errors_is_deadline err then Timeout else Unavailable
  end.

Definition Reason (err : go_error Error) : string :=
  match errors_as err with
  | Some stopErr => err_Reason stopErr
  | None => "estop_unavailable"
  end.

Definition ContextError {W} (ctx : context W) (w : W) : result Error unit :=
  match ctx with
  | None => Err (NewError InvalidInput "context_required")
  | Some err =>
      match err w with
      | Some DoneDeadlineExceeded => Err (NewError Timeout "request_timeout")
      | Some DoneCanceled => Err (NewError Canceled "request_canceled")
      | None => Ok tt
      end
  end.

(** ** validate.go

    The loops range over the runes of a string; a rune that is not ASCII is not in any of the
    tested ranges, so looking at the bytes gives the same answer. *)

Definition hex_lower (c : ascii) : bool := is_digit c || byte_in 97 102 c.

(** The character at [index], with the loop's test *)
Definition uuid_character (index : nat) (character : ascii) : bool :=
  if Nat.eqb index 8 || Nat.eqb index 13 || Nat.eqb index 18 || Nat.eqb index 23
  then Ascii.eqb character "-" else hex_lower character.

Fixpoint all_indexed (test : nat -> ascii -> bool) (index : nat) (s : string) : bool :=
  match s with
  | EmptyString => true
  | String c s' => test index c && all_indexed test (S index) s'
  end.

Definition char_at (index : nat) (s : string) : ascii := default NUL (String.get index s).

Definition validUUID (value : string) : bool :=
  if negb (len value =? 36) || negb (Ascii.eqb (char_at 14 value) "7") ||
     negb (existsb (Ascii.eqb (char_at 19 value)) ["8"; "9"; "a"; "b"]%char)
  then false else all_indexed uuid_character 0 value.

Definition validDigest (value : string) : bool :=
  if negb (len value =? 71) || negb (String.prefix "sha256:" value) then false
  else all_indexed (fun _ => hex_lower) 0 (String.substring 7 64 value).

Definition token_character (c : ascii) : bool :=
  is_lower c || is_digit c || Ascii.eqb c "_" || Ascii.eqb c "." || Ascii.eqb c "-".

Definition validToken (value : string) : bool :=
  if String.eqb value "" || (128 <? len value) || negb (is_lower (char_at 0 value)) then false
  else all_indexed (fun _ => token_character) 0 value.

(** [strings.ToValidUTF8(value, "") == value] says that the text is valid UTF-8. *)
Definition validOpaque (value : string) (minimum maximum : Z) : bool :=
  (minimum <=? len value) && (len value <=? maximum) && valid_string value && negb (contains_any value [CR; LF; TAB]).

Definition validReason (value : string) : bool :=
  existsb (String.eqb value)
    ["operator_emergency"; "safety_watch_expired"; "runner_heartbeat_lost"; "policy_emergency"; "incident_containment"].

Definition validControlOutcome (value : string) : bool :=
  String.eqb value "applied" || String.eqb value "failed" || String.eqb value "timeout".

(** The objective in nanoseconds, when the kind has one *)
Definition ControlObjective (kind : string) : option Z :=
  if String.eqb kind "credential" || String.eqb kind "lease" then Some LeaseRejectObjective
  else if String.eqb kind "egress" then Some EgressCutObjective
  else if String.eqb kind "remote_job" || String.eqb kind "workflow" then Some WorkflowSignalObjective
  else if String.eqb kind "cooperative" then Some TerminationObjective
  else None.

Definition validControlKind (value : string) : bool :=
  match ControlObjective value with Some _ => true | None => false end.

Definition ValidateScope (scope : Scope) : result Error unit :=
  deny_if (negb (validUUID (sc_OrganizationID scope)) || negb (validUUID (sc_TenantID scope)))
    (NewError InvalidInput "scope_invalid") ;;
  if String.eqb (sc_Kind scope) "global" then
    deny_if (negb (String.eqb (sc_CaseID scope) "")) (NewError InvalidInput "global_scope_invalid")
  else if String.eqb (sc_Kind scope) "case" then
    deny_if (negb (validUUID (sc_CaseID scope))) (NewError InvalidInput "case_scope_invalid")
  else Err (NewError InvalidInput "scope_kind_invalid").

Definition ValidateCommand (command : Command) : result Error unit :=
  deny_if (negb (String.eqb (cm_SchemaVersion command) CommandSchemaVersion) ||
           negb (String.eqb (cm_ContractVersion command) ContractVersion))
    (NewError Denied "unsupported_command_contract") ;;
  deny_if (negb (validUUID (cm_RequestID command)) || negb (validOpaque (cm_IdempotencyKey command) 1 128) ||
           negb (validUUID (cm_ActorID command)) || negb (validReason (cm_ReasonCode command)))
    (NewError InvalidInput "command_identity_invalid") ;;
  ValidateScope (cm_Scope command).

Definition ValidateAuthority (authority : Authority) (now : Time) : result Error unit :=
  ValidateScope (at_Scope authority) ;;
  deny_if (negb (validUUID (at_ActorID authority)) || (at_ActorRevision authority =? 0) ||
           negb (validDigest (at_AuthorizationDecisionDigest authority)) ||
           negb (validDigest (at_PolicyDecisionDigest authority)) || is_zero (at_ObservedAt authority) || is_zero now)
    (NewError InvalidInput "authority_invalid") ;;
  deny_if (negb (at_ActorActive authority)) (NewError Denied "actor_revoked") ;;
  deny_if (negb (at_AuthorizationAllowed authority)) (NewError Denied "authorization_denied") ;;
  deny_if (negb (at_PolicyAllowed authority)) (NewError Denied "policy_denied") ;;
  let observed := to_utc (at_ObservedAt authority) in
  deny_if (after observed (time_add now (5 * second)) || (MaximumAuthorityAge <? time_sub now observed))
    (NewError Denied "authority_stale").

Definition ValidateState (state : State) : result Error unit :=
  deny_if (negb (String.eqb (st_SchemaVersion state) StateSchemaVersion) ||
           negb (String.eqb (st_ContractVersion state) ContractVersion) ||
           negb (is_ok (ValidateScope (st_Scope state))) || (st_Epoch state =? 0) || negb (st_Active state) ||
           negb (validUUID (st_RequestID state)) || negb (validDigest (st_RequestDigest state)) ||
           negb (validUUID (st_ActorID state)) || (st_ActorRevision state =? 0) ||
           negb (validReason (st_ReasonCode state)) || negb (validDigest (st_AuthorizationDecisionDigest state)) ||
           negb (validDigest (st_PolicyDecisionDigest state)) || is_zero (st_ActivatedAt state))
    (NewError InvalidInput "state_invalid").

Definition ValidateAcknowledgement (ack : Acknowledgement) : result Error unit :=
  deny_if (negb (String.eqb (ak_SchemaVersion ack) AckSchemaVersion) ||
           negb (String.eqb (ak_ContractVersion ack) ContractVersion) || negb (is_ok (ValidateScope (ak_Scope ack))) ||
           (ak_Epoch ack =? 0) || negb (validToken (ak_ControlID ack)) || negb (validControlKind (ak_ControlKind ack)) ||
           negb (validControlOutcome (ak_Outcome ack)) || negb (validToken (ak_ReasonCode ack)) ||
           is_zero (ak_StartedAt ack) || is_zero (ak_CompletedAt ack) ||
           before (ak_CompletedAt ack) (ak_StartedAt ack) || (ak_ElapsedNanos ack <? 0) || (ak_ObjectiveNanos ack <=? 0))
    (NewError InvalidInput "control_ack_invalid") ;;
  deny_if (String.eqb (ak_Outcome ack) "applied" && negb (validDigest (ak_EvidenceDigest ack)))
    (NewError InvalidInput "control_evidence_invalid") ;;
  deny_if (negb (String.eqb (ak_Outcome ack) "applied") && negb (String.eqb (ak_EvidenceDigest ack) ""))
    (NewError InvalidInput "control_evidence_invalid").

(** ** contract.go *)

(** *** The struct tags *)

Definition scope_type : gtype := TStruct [
  ("kind", false, TString); ("organization_id", false, TString); ("tenant_id", false, TString); ("case_id", true, TString)].

Definition scope_val (s : Scope) : gval :=
  VStruct [VStr (sc_Kind s); VStr (sc_OrganizationID s); VStr (sc_TenantID s); VStr (sc_CaseID s)].

Definition command_type : gtype := TStruct [
  ("schema_version", false, TString); ("contract_version", false, TString); ("request_id", false, TString);
  ("idempotency_key", false, TString); ("scope", false, scope_type); ("actor_id", false, TString);
  ("reason_code", false, TString)].

Definition command_val (c : Command) : gval := VStruct [
  VStr (cm_SchemaVersion c); VStr (cm_ContractVersion c); VStr (cm_RequestID c); VStr (cm_IdempotencyKey c);
  scope_val (cm_Scope c); VStr (cm_ActorID c); VStr (cm_ReasonCode c)].

Definition command_of_val (v : gval) : option Command :=
  match v with
  | VStruct [VStr a; VStr b; VStr c; VStr d; VStruct [VStr k; VStr o; VStr t; VStr cs]; VStr e; VStr f] =>
      Some (mkCommand a b c d (mkScope k o t cs) e f)
  | _ => None
  end.

Definition DecodeCommand (input : string) : result Error Command :=
  let invalid := NewError InvalidInput "command_decoding" in
  deny_if ((len input =? 0) || (MaximumInputBytes <? len input)) invalid ;;
  canonical ← or_err (Canonicalize input) invalid;
  match v ← decode_struct_text command_type canonical; command_of_val v with
  | None => Err invalid
  | Some command => ValidateCommand command ;; Ok command
  end.

Definition CommandDigest (command : Command) : result Error string :=
  ValidateCommand command ;;
  canonical ← or_err (canonical_struct command_type (command_val command)) (NewError InvalidInput "command_encoding");
  Ok (digest canonical).

(** [t.Format(time.RFC3339Nano)] in UTC: the fraction without its trailing zeros *)
Fixpoint drop_zeros (digits : list ascii) : list ascii :=
  match digits with
  | c :: rest => if Ascii.eqb c "0" then drop_zeros rest else digits
  | [] => []
  end.

Definition fraction (n : Z) : string :=
  match drop_zeros (rev (String.list_ascii_of_string (pad_digits 9 n))) with
  | [] => ""
  | digits => String "." (String.string_of_list_ascii (rev digits))
  end.

Definition format_rfc3339 (t : Time) : string :=
  let whole := format_timestamp t in
  String.substring 0 (String.length whole - 11) whole ++ fraction (nanos t mod second) ++ "Z".

(** The year of the instant *)
Definition year (t : Time) : Z := let '(y, _, _) := date_of_days (nanos t / nanos_per_day) in y.

Definition omit_text (name value : string) : list (string * json) := if String.eqb value "" then [] else [(name, JStr value)].
Definition omit_int (name : string) (value : Z) : list (string * json) := if value =? 0 then [] else [(name, json_int value)].

(** [omitempty] has no effect on the times, which are structs. *)
Definition decision_json (d : Decision) : json :=
  JObj ([("schema_version", JStr (dc_SchemaVersion d)); ("contract_version", JStr (dc_ContractVersion d));
         ("event", JStr (dc_Event d)); ("outcome", JStr (dc_Outcome d)); ("reason_code", JStr (dc_ReasonCode d))] ++
        omit_text "request_id" (dc_RequestID d) ++ [("scope", encode scope_type (scope_val (dc_Scope d)))] ++
        omit_int "epoch" (dc_Epoch d) ++ omit_text "actor_id" (dc_ActorID d) ++
        omit_int "actor_revision" (dc_ActorRevision d) ++ omit_text "control_id" (dc_ControlID d) ++
        omit_text "control_kind" (dc_ControlKind d) ++ omit_text "control_outcome" (dc_ControlOutcome d) ++
        omit_text "evidence_digest" (dc_EvidenceDigest d) ++
        omit_text "authorization_decision_digest" (dc_AuthorizationDecisionDigest d) ++
        omit_text "policy_decision_digest" (dc_PolicyDecisionDigest d) ++
        [("activated_at", JStr (format_rfc3339 (dc_ActivatedAt d))); ("occurred_at", JStr (format_rfc3339 (dc_OccurredAt d)))] ++
        omit_int "elapsed_nanos" (dc_ElapsedNanos d) ++ omit_int "objective_nanos" (dc_ObjectiveNanos d) ++
        [("decision_digest", JStr (dc_DecisionDigest d))])%list.

(** [json.Marshal] fails on a time outside the years 0 to 9999, and then there are no bytes. *)
Definition decision_bytes (d : Decision) : string :=
  if (0 <=? year (dc_ActivatedAt d)) && (year (dc_ActivatedAt d) <=? 9999) && (0 <=? year (dc_OccurredAt d)) &&
     (year (dc_OccurredAt d) <=? 9999)
  then marshal true (decision_json d) else "".

Definition set_digest (d : Decision) (schema contract value : string) : Decision :=
  mkDecision schema contract (dc_Event d) (dc_Outcome d) (dc_ReasonCode d) (dc_RequestID d) (dc_Scope d) (dc_Epoch d)
    (dc_ActorID d) (dc_ActorRevision d) (dc_ControlID d) (dc_ControlKind d) (dc_ControlOutcome d) (dc_EvidenceDigest d)
    (dc_AuthorizationDecisionDigest d) (dc_PolicyDecisionDigest d) (dc_ActivatedAt d) (dc_OccurredAt d)
    (dc_ElapsedNanos d) (dc_ObjectiveNanos d) value.

Definition FinalizeDecision (decision : Decision) : Decision :=
  let blank := set_digest decision DecisionSchemaVersion ContractVersion "" in
  set_digest blank DecisionSchemaVersion ContractVersion (digest (decision_bytes blank)).

Example rfc3339_fraction :
  map format_rfc3339 (omap parse_timestamp ["2026-08-26T18:10:05.120000000Z"; "2026-08-26T18:10:05.000000000Z"]) =
  ["2026-08-26T18:10:05.12Z"; "2026-08-26T18:10:05Z"].
Proof. vm_compute. reflexivity. Qed.
