(* ===== verification/EStopController.v ===== *)
(** * internal/broker/estop: activation, containment and the guard

    The controller activates an emergency stop in its store, audits it from the store's
    outbox, and runs every containment control at once, each against its objective
    ([controller.go], [errors.go], [types.go]); [guard.go] is the check every capability
    broker asks, and the recovery of audits that were not delivered.

    A goroutine is a [routine]: the calls it makes, one by one.  Goroutines are run by a
    schedule, which says whose call is next; theorems are about every schedule. *)

From S2P Require Import Prelude GoStrings GoRegexp GoTime GoJson DomainContract Sha256 Domain GoStruct Storage EStop.

Local Open Scope string_scope.
Local Open Scope Z_scope.

(** ** Goroutines *)

Inductive routine (W A : Type) : Type :=
| Return (a : A)
| Call {B : Type} (call : W -> B * W) (rest : B -> routine W A).
Arguments Return {W A} _.
Arguments Call {W A B} _ _.

Fixpoint routine_then {W A B} (m : routine W A) (f : A -> routine W B) : routine W B :=
  match m with
  | Return a => f a
  | Call call rest => Call call (fun b => routine_then (rest b) f)
  end.

#[export] Instance routine_ret W : MRet (routine W) := fun A a => Return a.
#[export] Instance routine_bind W : MBind (routine W) := fun A B f m => routine_then m f.

(** One call *)
Definition calls {W B} (call : W -> B * W) : routine W B := Call call Return.

(** Running one alone, to its end *)
Fixpoint run_alone {W A} (m : routine W A) (w : W) : A * W :=
  match m with
  | Return a => (a, w)
  | Call call rest => let '(b, w') := call w in run_alone (rest b) w'
  end.

(** The next call of goroutine [n], if there is one *)
Definition advance_at {W A} (state : list (routine W A) * W) (n : nat) : list (routine W A) * W :=
  let '(pool, w) := state in
  match pool !! n with
  | Some (Call call rest) => let '(b, w') := call w in (<[n := rest b]> pool, w')
  | _ => state
  end.

(** The rest of the goroutines, one after the other *)
Fixpoint finish {W A} (pool : list (routine W A)) (w : W) : list A * W :=
  match pool with
  | [] => ([], w)
  | m :: pool' =>
      let '(a, w1) := run_alone m w in
      let '(rest, w2) := finish pool' w1 in (a :: rest, w2)
  end.

(** All of them, interleaved as the schedule says while it lasts: every interleaving is the
    one of some schedule. *)
Definition run_pool {W A} (schedule : list nat) (pool : list (routine W A)) (w : W) : list A * W :=
  let '(pool, w) := fold_left advance_at schedule (pool, w) in finish pool w.

(** ** types.go *)

Record ActivationCandidate : Type := mkCandidate {
  ca_Command : Command; ca_Authority : Authority; ca_RequestDigest : string; ca_ActivatedAt : Time }.

Record ActivationRecord : Type := mkActivationRecord { ac_State : State; ac_Decision : Decision; ac_AuditID : string }.

Inductive ActivationResult : Type := ActivationNew | ActivationReplay | ActivationConflict.

Inductive ControlRecordResult : Type := ControlNew | ControlReplay | ControlConflict.

Class Store (W : Type) : Type := {
  store_Activate : context W -> ActivationCandidate -> prog W (go_error Error) (ActivationRecord * ActivationResult);
  store_Effective : context W -> string -> string -> string -> prog W (go_error Error) (State * bool);
  store_ReserveAudit : context W -> Decision -> prog W (go_error Error) AuditRecord;
  store_RecordControl : context W -> State -> Acknowledgement -> Decision ->
    prog W (go_error Error) (AuditRecord * ControlRecordResult);
  store_PendingAudits : context W -> Z -> prog W (go_error Error) (list AuditRecord);
  store_MarkAuditDelivered : context W -> string -> prog W (go_error Error) unit }.

(** What the race of a control against its deadline ended in: what [Apply] answered, or
    nothing when the deadline was first; whether the deadline had passed when the context was
    cancelled; and the time it took. *)
Record race : Type := mkRace {
  rc_answer : option (result (go_error Error) string); rc_deadline_passed : bool; rc_elapsed : Z }.

Record Control (W : Type) : Type := mkControl {
  ct_ID : string; ct_Kind : string; ct_Apply : ControlRequest -> Z -> W -> race * W }.
Arguments mkControl {W} _ _ _.
Arguments ct_ID {W} _.
Arguments ct_Kind {W} _.
Arguments ct_Apply {W} _ _ _.

(** The other dependencies; [AuditDeadline] is the context of an audit delivery, detached from
    the caller's and with a deadline of its own. *)
Class StopPorts (W : Type) : Type := {
  StopNow : W -> Time * W;
  AppendEmergencyStopDecision : Decision -> prog W unit unit;
  AuditDeadline : W -> option done_reason }.

(** ** errors.go *)

Definition brokerError (code : ErrorCode) (reason : string) : go_error Error := EOwn (NewError code reason).

Definition normalizeContext {W} (ctx : context W) (w : W) : option (go_error Error) :=
  match ContextError ctx w with Ok _ => None | Err err => Some (EOwn err) end.

Definition normalizeStoreError {W} (ctx : context W) (err : go_error Error) (w : W) : go_error Error :=
  match normalizeContext ctx w with
  | Some contextErr => contextErr
  | None =>
      match Code err with
      | Denied | NotFound | Conflict => err
      | _ => brokerError Unavailable "estop_store_unavailable"
      end
  end.

Definition outcome (err : option (go_error Error)) (allowedReason : string) : string * string :=
  match err with
  | None => ("allowed", allowedReason)
  | Some err =>
      (match Code err with
       | InvalidInput => "invalid"
       | Denied | NotFound | Conflict => "denied"
       | Canceled => "canceled"
       | Timeout => "timeout"
       | Unavailable => "unavailable"
       end, Reason err)
  end.

(** [errors.Is(err, context.DeadlineExceeded)] looks through every error. *)
Definition controlError (err : go_error Error) (deadline_passed : bool) : string * string :=
  if deadline_passed || errors_is_deadline err then ("timeout", "control_timeout") else ("failed", "control_failed").

(** A context without its cancellation *)
Definition without_cancel {W} : context W := Some (fun _ => None).

Definition nonNilContext {W} (ctx : context W) : context W :=
  match ctx with None => without_cancel | Some _ => ctx end.

(** ** controller.go *)

Definition controlIDPattern : string -> bool := tokenPattern.

Definition requiredKinds : list string := ["credential"; "egress"; "remote_job"; "workflow"; "cooperative"].

(** The first loop: identities seen so far *)
Fixpoint check_controls {W} (identities : list string) (controls : list (Control W)) : result Error unit :=
  match controls with
  | [] => Ok tt
  | control :: controls' =>
      let invalid := NewError InvalidInput "control_configuration_invalid" in
      deny_if (negb (controlIDPattern (ct_ID control)) || existsb (String.eqb (ct_ID control)) identities) invalid ;;
      deny_if (negb (validControlKind (ct_Kind control)) || String.eqb (ct_Kind control) "lease") invalid ;;
      check_controls (ct_ID control :: identities) controls'
  end.

Fixpoint insert_by {A} (key : A -> string) (x : A) (l : list A) : list A :=
  match l with
  | [] => [x]
  | y :: l' => if String.ltb (key x) (key y) then x :: y :: l' else y :: insert_by key x l'
  end.

(** [sort.Slice] by a key; the keys it is used with are distinct. *)
Definition sort_by {A} (key : A -> string) : list A -> list A := foldr (insert_by key) [].

(** The controls of the controller; no control is nil. *)
Definition NewWithDependencies {W} (store_nil audit_nil clock_nil : bool) (controls : list (Control W))
  : result Error (list (Control W)) :=
  deny_if (store_nil || audit_nil || clock_nil) (NewError InvalidInput "controller_configuration_invalid") ;;
  check_controls [] controls ;;
  deny_if (negb (forallb (fun kind => existsb (fun control => String.eqb (ct_Kind control) kind) controls) requiredKinds))
    (NewError InvalidInput "required_control_missing") ;;
  Ok (sort_by ct_ID controls).

Definition validateAuthority (command : Command) (authority : Authority) (now : Time) : result Error unit :=
  ValidateAuthority authority now ;;
  deny_if (negb (bool_decide (cm_Scope command = at_Scope authority)) ||
           negb (String.eqb (cm_ActorID command) (at_ActorID authority)))
    (NewError Denied "authority_scope_mismatch").

Definition activationDecision (command : Command) (authority : Authority) (state : State) (err : option (go_error Error))
  (now : Time) : Decision :=
  let '(result, reason) := outcome err "stop_activated" in
  let redacted := match err with
                  | Some err => match Code err with InvalidInput => true | _ => false end
                  | None => false
                  end in
  let kept value := if redacted : bool then "" else value in
  FinalizeDecision (mkDecision "" "" "activation" result reason (cm_RequestID command) (cm_Scope command) (st_Epoch state)
    (kept (cm_ActorID command)) (at_ActorRevision authority) "" "" "" "" (kept (at_AuthorizationDecisionDigest authority))
    (kept (at_PolicyDecisionDigest authority)) (st_ActivatedAt state) now 0 0 "").

Definition controlDecision (state : State) (ack : Acknowledgement) : Decision :=
  let outcomeValue := if String.eqb (ak_Outcome ack) "applied" then "allowed" else "unavailable" in
  FinalizeDecision (mkDecision "" "" "control_ack" outcomeValue (ak_ReasonCode ack) (st_RequestID state) (st_Scope state)
    (st_Epoch state) (st_ActorID state) (st_ActorRevision state) (ak_ControlID ack) (ak_ControlKind ack) (ak_Outcome ack)
    (ak_EvidenceDigest ack) (st_AuthorizationDecisionDigest state) (st_PolicyDecisionDigest state)
    (st_ActivatedAt state) (ak_CompletedAt ack) (ak_ElapsedNanos ack) (ak_ObjectiveNanos ack) "").

Definition newAuditRecord (decision : Decision) : AuditRecord := mkAuditRecord (dc_DecisionDigest decision) decision false.

Section controller.
Context {W : Type} {store : Store W} {ports : StopPorts W}.
Local Notation answer := (Result * Decision * option (go_error Error))%type.

Definition stop_now : routine W Time := calls (fun w => let '(t, w) := StopNow w in (to_utc t, w)).

(** The error, if the audit could not be delivered *)
Definition deliverAudit (record : AuditRecord) : routine W bool :=
  appended ← calls (AppendEmergencyStopDecision (ar_Decision record));
  match appended with
  | Err _ => mret false
  | Ok _ =>
      marked ← calls (store_MarkAuditDelivered (Some AuditDeadline) (ar_ID record));
      mret (match marked with Ok _ => true | Err _ => false end)
  end.

Definition recordDenied (ctx : context W) (command : Command) (authority : Authority) (resultErr : go_error Error)
  (now : Time) : routine W answer :=
  let nothing pending := mkResult zero_state [] pending in
  let decision := activationDecision command authority zero_state (Some resultErr) now in
  reserved ← calls (store_ReserveAudit without_cancel decision);
  match reserved with
  | Err err =>
      storeErr ← calls (fun w => (normalizeStoreError (nonNilContext ctx) err w, w));
      mret (nothing false, activationDecision command authority zero_state (Some storeErr) now, Some storeErr)
  | Ok record =>
      delivered ← deliverAudit record;
      if delivered : bool then mret (nothing false, decision, Some resultErr)
      else mret (nothing true, decision, Some (brokerError Unavailable "audit_delivery_pending"))
  end.

(** The acknowledgement of one control, from what the race ended in *)
Definition acknowledge (state : State) (control : Control W) (objective : Z) (startedWall completed : Time) (r : race)
  : Acknowledgement * option (go_error Error) :=
  let applyErr := match rc_answer r with
                  | None => Some EDeadlineExceeded
                  | Some (Err err) => Some err
                  | Some (Ok _) => None
                  end in
  let evidenceDigest := match rc_answer r with Some (Ok evidence) => evidence | _ => "" end in
  let '(outcomeValue, reason, evidenceDigest) :=
    if objective <? rc_elapsed r then ("timeout", "control_timeout", "")
    else match applyErr with
         | Some err => (controlError err (rc_deadline_passed r), "")
         | None => ("applied", "control_applied", evidenceDigest)
         end in
  let ack o why evidence := mkAck AckSchemaVersion ContractVersion (st_Scope state) (st_Epoch state) (ct_ID control)
    (ct_Kind control) o why evidence startedWall completed (rc_elapsed r) objective in
  match ValidateAcknowledgement (ack outcomeValue reason evidenceDigest) with
  | Ok _ => (ack outcomeValue reason evidenceDigest, applyErr)
  | Err err => (ack "failed" "control_evidence_invalid" "", Some (EOwn err))
  end.

Definition applyControl (state : State) (control : Control W)
  : routine W (Acknowledgement * bool * option (go_error Error)) :=
  let objective := default 0 (ControlObjective (ct_Kind control)) in
  startedWall ← stop_now;
  r ← calls (ct_Apply control (mkControlRequest (st_Scope state) (st_Epoch state) (st_ActivatedAt state)) objective);
  completed ← stop_now;
  let '(ack, applyErr) := acknowledge state control objective startedWall completed r in
  recorded ← calls (store_RecordControl without_cancel state ack (controlDecision state ack));
  match recorded with
  | Err _ | Ok (_, ControlConflict) => mret (ack, false, Some (brokerError Unavailable "control_record_unavailable"))
  | Ok (audit, result) =>
      auditPending ← match result with
                     | ControlNew => delivered ← deliverAudit audit; mret (negb delivered)
                     | _ => mret false
                     end;
      let failed := negb (String.eqb (ak_Outcome ack) "applied") || match applyErr with Some _ => true | None => false end in
      mret (ack, auditPending, if failed then Some (brokerError Unavailable (ak_ReasonCode ack)) else None)
  end.

Definition applyControls (schedule : list nat) (controls : list (Control W)) (state : State)
  : routine W (list Acknowledgement * bool * option (go_error Error)) :=
  done ← calls (run_pool schedule (map (applyControl state) controls));
  let acks := sort_by ak_ControlID (map (fun r => fst (fst r)) done) in
  let anyPending := existsb (fun r => snd (fst r)) done in
  let anyFailure := existsb (fun r => match snd r with Some _ => true | None => false end) done in
  mret (acks, anyPending, if anyFailure then Some (brokerError Unavailable "containment_incomplete") else None).

Definition Activate (schedule : list nat) (controls : list (Control W)) (ctx : context W) (command : Command)
  (authority : Authority) : routine W answer :=
  now ← stop_now;
  ready ← calls (fun w => (normalizeContext ctx w, w));
  let checked := match ready with
                 | Some err => Some err
                 | None =>
                     match ValidateCommand command ;; validateAuthority command authority now with
                     | Err err => Some (EOwn err)
                     | Ok _ => None
                     end
                 end in
  match checked with
  | Some err => recordDenied ctx command authority err now
  | None =>
      let digest := match CommandDigest command with Ok digest => digest | Err _ => "" end in
      activated ← calls (store_Activate ctx (mkCandidate command authority digest now));
      match activated with
      | Err err =>
          normal ← calls (fun w => (normalizeStoreError ctx err w, w));
          recordDenied ctx command authority normal now
      | Ok (_, ActivationConflict) => recordDenied ctx command authority (brokerError Conflict "activation_conflict") now
      | Ok (record, ActivationReplay) => mret (mkResult (ac_State record) [] false, ac_Decision record, None)
      | Ok (record, ActivationNew) =>
          delivered ← deliverAudit (mkAuditRecord (ac_AuditID record) (ac_Decision record) false);
          '(acks, controlPending, controlErr) ← applyControls schedule controls (ac_State record);
          let auditPending := negb delivered || controlPending in
          let result := mkResult (ac_State record) acks auditPending in
          mret (result, ac_Decision record,
                match controlErr with
                | Some err => Some err
                | None => if auditPending then Some (brokerError Unavailable "audit_delivery_pending") else None
                end)
      end
  end.

(** ** guard.go *)

Definition Check (ctx : context W) (organizationID tenantID caseID : string) : routine W (State * option (go_error Error)) :=
  ready ← calls (fun w => (normalizeContext ctx w, w));
  let probe := ValidateScope (mkScope "global" organizationID tenantID "") ;;
    (if String.eqb caseID "" then Ok tt else ValidateScope (mkScope "case" organizationID tenantID caseID)) in
  match ready, probe with
  | Some err, _ => mret (zero_state, Some err)
  | None, Err err => mret (zero_state, Some (EOwn err))
  | None, Ok _ =>
      effective ← calls (store_Effective ctx organizationID tenantID caseID);
      match effective with
      | Err err =>
          normal ← calls (fun w => (normalizeStoreError ctx err w, w));
          mret (zero_state, Some normal)
      | Ok (state, true) => mret (state, Some (brokerError Denied "emergency_stop_active"))
      | Ok (_, false) => mret (zero_state, None)
      end
  end.

Definition Allow (ctx : context W) (organizationID tenantID caseID : string) : routine W (option (go_error Error)) :=
  '(_, err) ← Check ctx organizationID tenantID caseID; mret err.

(** The loop over the pending records *)
Fixpoint deliver_all (delivered : Z) (records : list AuditRecord) : routine W (Z * option (go_error Error)) :=
  match records with
  | [] => mret (delivered, None)
  | record :: records' =>
      sent ← deliverAudit record;
      if sent : bool then deliver_all (delivered + 1) records'
      else mret (delivered, Some (brokerError Unavailable "audit_delivery_pending"))
  end.

Definition RecoverAudit (ctx : context W) (limit : Z) : routine W (Z * option (go_error Error)) :=
  ready ← calls (fun w => (normalizeContext ctx w, w));
  match ready with
  | Some err => mret (0, Some err)
  | None =>
      pending ← calls (store_PendingAudits ctx limit);
      match pending with
      | Err err =>
          normal ← calls (fun w => (normalizeStoreError ctx err w, w));
          mret (0, Some normal)
      | Ok records => deliver_all 0 records
      end
  end.
End controller.
