(* ===== verification/EStopStore.v ===== *)
(** * internal/broker/estop: the store in memory

    [memory_store.go]: the states of the scopes, the requests that were answered, the recorded
    acknowledgements and the outbox of audits, behind one mutex, so that every method is one
    atomic step. *)

From S2P Require Import Prelude GoStrings GoRegexp GoTime GoJson DomainContract Sha256 Domain GoStruct Storage Policy EStop EStopController.

Local Open Scope string_scope.
Local Open Scope Z_scope.

Record replayRecord : Type := mkReplay { rp_digest : string; rp_record : ActivationRecord }.

Record controlRecord : Type := mkControlRecord { cr_ack : Acknowledgement; cr_auditID : string }.

Record MemoryStore : Type := mkMemory {
  ms_epoch : Z; ms_states : gmap string State; ms_requests : gmap string replayRecord;
  ms_controls : gmap string controlRecord; ms_audits : gmap string AuditRecord; ms_auditOrder : list string }.

Definition NewMemoryStore : MemoryStore := mkMemory 0 ∅ ∅ ∅ ∅ [].

Definition NULs : string := String NUL "".

Definition scopeKey (scope : Scope) : string :=
  sc_OrganizationID scope ++ NULs ++ sc_TenantID scope ++ NULs ++ sc_Kind scope ++ NULs ++ sc_CaseID scope.

Definition requestKey (command : Command) : string :=
  sc_OrganizationID (cm_Scope command) ++ NULs ++ sc_TenantID (cm_Scope command) ++ NULs ++ cm_ActorID command ++ NULs ++
  cm_IdempotencyKey command.

Definition putAudit (store : MemoryStore) (record : AuditRecord) : MemoryStore :=
  match ms_audits store !! ar_ID record with
  | Some _ => store
  | None =>
      mkMemory (ms_epoch store) (ms_states store) (ms_requests store) (ms_controls store)
        (<[ar_ID record := record]> (ms_audits store)) (sort_strings (ms_auditOrder store ++ [ar_ID record])%list)
  end.

(** The state an activation writes *)
Definition activation_state (epoch : Z) (candidate : ActivationCandidate) : State :=
  let command := ca_Command candidate in
  let authority := ca_Authority candidate in
  mkState StateSchemaVersion ContractVersion (cm_Scope command) epoch true (cm_RequestID command)
    (ca_RequestDigest candidate) (cm_ActorID command) (at_ActorRevision authority) (cm_ReasonCode command)
    (at_AuthorizationDecisionDigest authority) (at_PolicyDecisionDigest authority) (ca_ActivatedAt candidate).

(** The critical section of [Activate] *)
Definition activate_locked (store : MemoryStore) (candidate : ActivationCandidate)
  : result (go_error Error) (ActivationRecord * ActivationResult) * MemoryStore :=
  let command := ca_Command candidate in
  let none := mkActivationRecord zero_state zero_decision "" in
  match ms_requests store !! requestKey command with
  | Some previous =>
      if String.eqb (rp_digest previous) (ca_RequestDigest candidate)
      then (Ok (rp_record previous, ActivationReplay), store)
      else (Ok (none, ActivationConflict), store)
  | None =>
      let key := scopeKey (cm_Scope command) in
      if match ms_states store !! key with Some current => st_Active current | None => false end
      then (Err (brokerError Conflict "stop_already_active"), store)
      else
        let epoch := u64 (ms_epoch store + 1) in
        let state := activation_state epoch candidate in
        let decision := activationDecision command (ca_Authority candidate) state None (ca_ActivatedAt candidate) in
        let audit := newAuditRecord decision in
        let record := mkActivationRecord state decision (ar_ID audit) in
        let store := mkMemory epoch (<[key := state]> (ms_states store))
          (<[requestKey command := mkReplay (ca_RequestDigest candidate) record]> (ms_requests store))
          (ms_controls store) (ms_audits store) (ms_auditOrder store) in
        (Ok (record, ActivationNew), putAudit store audit)
  end.

Definition effective_locked (store : MemoryStore) (organizationID tenantID caseID : string) : State * bool :=
  let find scope := match ms_states store !! scopeKey scope with
                    | Some state => (state, st_Active state)
                    | None => (zero_state, false)
                    end in
  let '(state, active) := find (mkScope "global" organizationID tenantID "") in
  if active : bool then (state, true)
  else if String.eqb caseID "" then (zero_state, false)
  else find (mkScope "case" organizationID tenantID caseID).

Definition record_locked (store : MemoryStore) (state : State) (ack : Acknowledgement) (decision : Decision)
  : result (go_error Error) (AuditRecord * ControlRecordResult) * MemoryStore :=
  match ms_states store !! scopeKey (st_Scope state) with
  | Some current =>
      if bool_decide (current = state) then
        let key := scopeKey (st_Scope state) ++ NULs ++ ak_ControlID ack in
        match ms_controls store !! key with
        | Some previous =>
            if bool_decide (cr_ack previous = ack)
            then (Ok (default zero_audit (ms_audits store !! cr_auditID previous), ControlReplay), store)
            else (Ok (zero_audit, ControlConflict), store)
        | None =>
            let audit := newAuditRecord decision in
            let store := mkMemory (ms_epoch store) (ms_states store) (ms_requests store)
              (<[key := mkControlRecord ack (ar_ID audit)]> (ms_controls store)) (ms_audits store) (ms_auditOrder store) in
            (Ok (audit, ControlNew), putAudit store audit)
        end
      else (Err (brokerError Conflict "stop_state_stale"), store)
  | None => (Err (brokerError Conflict "stop_state_stale"), store)
  end.

(** The loop of [PendingAudits]: [limit] more records *)
Fixpoint pending_audits (audits : gmap string AuditRecord) (limit : nat) (order : list string) : list AuditRecord :=
  match limit, order with
  | S limit', id :: order' =>
      let record := default zero_audit (audits !! id) in
      if ar_Delivered record then pending_audits audits limit order'
      else record :: pending_audits audits limit' order'
  | _, _ => []
  end.

Definition mark_locked (store : MemoryStore) (id : string) : result (go_error Error) unit * MemoryStore :=
  match ms_audits store !! id with
  | None => (Err (brokerError NotFound "audit_record_not_found"), store)
  | Some record =>
      (Ok tt, mkMemory (ms_epoch store) (ms_states store) (ms_requests store) (ms_controls store)
        (<[id := mkAuditRecord (ar_ID record) (ar_Decision record) true]> (ms_audits store)) (ms_auditOrder store))
  end.

(** A world that holds the store *)
Class HasMemory (W : Type) : Type := {
  memory : W -> MemoryStore;
  set_memory : MemoryStore -> W -> W;
  memory_set : forall m w, memory (set_memory m w) = m }.

(** [ctx.Err()] before the lock is taken; no method is given a nil context. *)
Definition stop_ctx_err {W} (ctx : context W) (w : W) : option (go_error Error) :=
  match ctx with
  | None => None
  | Some err => (fun reason => match reason with DoneCanceled => ECanceled | DoneDeadlineExceeded => EDeadlineExceeded end) <$> err w
  end.

(** Refused by the context, or the critical section *)
Definition locked {W A} {has : HasMemory W} (ctx : context W) (section : MemoryStore -> result (go_error Error) A * MemoryStore)
  : prog W (go_error Error) A := fun w =>
  match stop_ctx_err ctx w with
  | Some err => (Err err, w)
  | None => let '(r, m) := section (memory w) in (r, set_memory m w)
  end.

#[export] Instance memory_store {W} {has : HasMemory W} : Store W := {|
  store_Activate ctx candidate := locked ctx (fun m => activate_locked m candidate);
  store_Effective ctx organizationID tenantID caseID :=
    locked ctx (fun m => (Ok (effective_locked m organizationID tenantID caseID), m));
  store_ReserveAudit ctx decision :=
    locked ctx (fun m => (Ok (newAuditRecord decision), putAudit m (newAuditRecord decision)));
  store_RecordControl ctx state ack decision := locked ctx (fun m => record_locked m state ack decision);
  store_PendingAudits ctx limit := locked ctx (fun m =>
    (if (limit <=? 0) || (1024 <? limit) then Err (brokerError InvalidInput "audit_limit_invalid")
     else Ok (pending_audits (ms_audits m) (Z.to_nat limit) (ms_auditOrder m)), m));
  store_MarkAuditDelivered ctx id := locked ctx (fun m => mark_locked m id) |}.
