(* ===== verification/EStopFacts.v ===== *)
(** * Emergency stops: facts and theorems

    A stop is final: what a store promises ([StopStore]) is enough for the guard to refuse
    everything under an active stop, whatever happens meanwhile.  An activation that reports
    success has contained: every control was applied in time, with evidence, and recorded. *)

From S2P Require Import Prelude GoStrings GoRegexp GoTime GoJson DomainContract Sha256 Domain GoStruct Storage Policy EStop EStopController EStopStore.

Local Open Scope string_scope.
Local Open Scope Z_scope.

(** ** Goroutines amid others *)

Section amid.
Context {W : Type} (env : W -> W -> Prop).

(** A run during which the environment may act before every call and at the end *)
Fixpoint runs_amid {A} (m : routine W A) (w : W) (a : A) (w' : W) : Prop :=
  match m with
  | Return x => a = x /\ rtc env w w'
  | Call call rest => exists w1, rtc env w w1 /\ runs_amid (rest (fst (call w1))) (snd (call w1)) a w'
  end.

Lemma amid_bind {A B} (m : routine W A) (f : A -> routine W B) w b w' :
  runs_amid (m ≫= f) w b w' -> exists a w1, runs_amid m w a w1 /\ runs_amid (f a) w1 b w'.
Proof.
  revert w. induction m as [a|C call rest IH]; intros w H.
  - exists a, w. split; [by split|done].
  - destruct H as (w1 & He & Hr). apply IH in Hr as (a & w3 & Hm & Hf). exists a, w3. split; [by exists w1|done].
Qed.

Lemma amid_calls {B} (call : W -> B * W) w b w' : runs_amid (calls call) w b w' ->
  exists w1 w2, rtc env w w1 /\ call w1 = (b, w2) /\ rtc env w2 w'.
Proof. intros (w1 & He & -> & Hr). exists w1, (snd (call w1)). split_and!; [done| |done]. by destruct (call w1). Qed.

Lemma amid_ret {A} (a b : A) w w' : runs_amid (mret a) w b w' -> b = a /\ rtc env w w'.
Proof. done. Qed.
End amid.

Lemma run_alone_bind {W A B} (m : routine W A) (f : A -> routine W B) w :
  run_alone (m ≫= f) w = let '(a, w') := run_alone m w in run_alone (f a) w'.
Proof.
  revert w. induction m as [a|C call rest IH]; intros w; [done|]. cbn. destruct (call w) as [c w1]. apply IH.
Qed.

(** ** What a goroutine can return, whatever the others do *)

Fixpoint may_return {W A} (m : routine W A) (a : A) : Prop :=
  match m with
  | Return x => a = x
  | Call call rest => exists w, may_return (rest (fst (call w))) a
  end.

Lemma may_bind {W A B} (m : routine W A) (f : A -> routine W B) b : may_return (m ≫= f) b ->
  exists a, may_return m a /\ may_return (f a) b.
Proof.
  induction m as [a|C call rest IH]; intros H; [by exists a|].
  destruct H as (w & Hr). apply IH in Hr as (a & Hm & Hf). exists a. split; [by exists w|done].
Qed.

Lemma may_calls {W B} (call : W -> B * W) b : may_return (calls call) b -> exists w w', call w = (b, w').
Proof. intros (w & ->). exists w, (snd (call w)). by destruct (call w). Qed.

Lemma run_alone_may {W A} (m : routine W A) w a w' : run_alone m w = (a, w') -> may_return m a.
Proof.
  revert w. induction m as [x|C call rest IH]; intros w; cbn; [by intros [= -> _]|].
  intros H. exists w. destruct (call w) as [c w1]. by eapply IH.
Qed.

Lemma finish_may {W A} (pool : list (routine W A)) w results w' : finish pool w = (results, w') ->
  Forall2 may_return pool results.
Proof.
  revert w results w'. induction pool as [|m pool IH]; intros w results w'; cbn; [intros [= <- _]; constructor|].
  destruct (run_alone m w) as [a w1] eqn:Hm. destruct (finish pool w1) as [rest w2] eqn:Hf.
  intros [= <- _]. constructor; [by eapply run_alone_may|by eapply IH].
Qed.

(** What is left of a goroutine after some calls returns what the goroutine may return. *)
Lemma advance_may {W A} (pool : list (routine W A)) w n pool' w' results : advance_at (pool, w) n = (pool', w') ->
  Forall2 may_return pool' results -> Forall2 may_return pool results.
Proof.
  unfold advance_at. destruct (pool !! n) as [[a|B call rest]|] eqn:Hn; [by intros [= -> ->]| |by intros [= -> ->]].
  destruct (call w) as [b w1] eqn:Hc. intros [= <- <-] H. apply Forall2_same_length_lookup in H as [Hlen H].
  rewrite length_insert in Hlen. apply Forall2_same_length_lookup. split; [done|]. intros i m r Hm Hr.
  destruct (decide (i = n)) as [->|Hne].
  - rewrite Hn in Hm. injection Hm as <-. exists w. rewrite Hc.
    apply (H n); [|done]. apply list_lookup_insert_eq. by eapply lookup_lt_Some.
  - apply (H i); [|done]. by rewrite list_lookup_insert_ne.
Qed.

Lemma run_pool_may {W A} schedule (pool : list (routine W A)) w results w' :
  run_pool schedule pool w = (results, w') -> Forall2 may_return pool results.
Proof.
  unfold run_pool. revert pool w. induction schedule as [|n schedule IH]; intros pool w; cbn [fold_left].
  - apply finish_may.
  - destruct (advance_at (pool, w) n) as [pool1 w1] eqn:Ha. intros H. eapply advance_may; [done|by eapply IH].
Qed.

(** ** Containment *)

Lemma insert_by_in {A} (key : A -> string) x l y : In y (insert_by key x l) <-> y = x \/ In y l.
Proof.
  induction l as [|z l IH]; cbn; [naive_solver|]. destruct (String.ltb (key x) (key z)); cbn; [naive_solver|].
  rewrite IH. tauto.
Qed.

Lemma sort_by_in {A} (key : A -> string) l y : In y (sort_by key l) <-> In y l.
Proof. induction l as [|x l IH]; [done|]. cbn [sort_by foldr]. rewrite insert_by_in. cbn. unfold sort_by in IH. naive_solver. Qed.

(** The control was applied within its objective, with evidence, and the store has recorded it. *)
Record contained {W} {store : Store W} (state : State) (control : Control W) (ack : Acknowledgement) : Prop := {
  kc_identity : ak_ControlID ack = ct_ID control /\ ak_ControlKind ack = ct_Kind control /\
    ak_Scope ack = st_Scope state /\ ak_Epoch ack = st_Epoch state;
  kc_applied : ak_Outcome ack = "applied" /\ validDigest (ak_EvidenceDigest ack) = true;
  kc_in_time : exists objective, ControlObjective (ct_Kind control) = Some objective /\
    0 <= ak_ElapsedNanos ack <= objective;
  kc_answered : exists request objective w r w', ct_Apply control request objective w = (r, w') /\
    request = mkControlRequest (st_Scope state) (st_Epoch state) (st_ActivatedAt state) /\
    rc_answer r = Some (Ok (ak_EvidenceDigest ack));
  kc_recorded : exists audit result w w',
    store_RecordControl without_cancel state ack (controlDecision state ack) w = (Ok (audit, result), w') /\
    result <> ControlConflict }.

Lemma ValidateAcknowledgement_ok ack : ValidateAcknowledgement ack = Ok tt ->
  validControlKind (ak_ControlKind ack) = true /\ 0 <= ak_ElapsedNanos ack /\
  (ak_Outcome ack = "applied" -> validDigest (ak_EvidenceDigest ack) = true).
Proof.
  unfold ValidateAcknowledgement. rewrite !seq_ok, !deny_if_ok. intros (H & He & _).
  rewrite !orb_false_iff, !negb_false_iff in H. destruct H as ((((((((((((_ & _) & _) & _) & _) & Hk) & _) & _) & _) & _) & _) & Hn) & _).
  split_and!; [done|by apply Z.ltb_ge|]. intros Ho. rewrite Ho in He. cbn in He. by apply negb_false_iff in He.
Qed.

Lemma acknowledge_applied {W} state (control : Control W) objective started completed r ack :
  acknowledge state control objective started completed r = (ack, None) -> ak_Outcome ack = "applied" ->
  ValidateAcknowledgement ack = Ok tt /\ ak_ControlID ack = ct_ID control /\ ak_ControlKind ack = ct_Kind control /\
  ak_Scope ack = st_Scope state /\ ak_Epoch ack = st_Epoch state /\ ak_ElapsedNanos ack = rc_elapsed r /\
  rc_elapsed r <= objective /\ rc_answer r = Some (Ok (ak_EvidenceDigest ack)).
Proof.
  unfold acknowledge. destruct (rc_answer r) as [[evidence|err]|]; cbv beta iota zeta.
  - destruct (Z.ltb_spec objective (rc_elapsed r)); destruct (ValidateAcknowledgement _) as [[]|e] eqn:Hv; intros [= <-] Ho; try done.
  - destruct (objective <? rc_elapsed r); [|destruct (controlError _ _)]; by destruct (ValidateAcknowledgement _).
  - destruct (objective <? rc_elapsed r); [|destruct (controlError _ _)]; by destruct (ValidateAcknowledgement _).
Qed.

Section containment.
Context {W : Type} {store : Store W} {ports : StopPorts W}.

Lemma applyControl_contained state (control : Control W) ack pending :
  may_return (applyControl state control) (ack, pending, None) -> contained state control ack.
Proof.
  unfold applyControl. intros (started & _ & H)%may_bind. apply may_bind in H as (r & Hr%may_calls & H).
  apply may_bind in H as (completed & _ & H). destruct Hr as (w & w' & Hr).
  set (objective := default 0 (ControlObjective (ct_Kind control))) in *.
  destruct (acknowledge _ _ _ _ _ _) as [a applyErr] eqn:Hack. apply may_bind in H as (recorded & Hrec%may_calls & H).
  destruct Hrec as (wr & wr' & Hrec). destruct recorded as [[audit result]|e]; [|discriminate H].
  assert (Hconf : result <> ControlConflict) by (intros ->; discriminate H).
  assert (Hend : exists p, may_return (W := W) (mret (a, p,
    if negb (String.eqb (ak_Outcome a) "applied") || match applyErr with Some _ => true | None => false end
    then Some (brokerError Unavailable (ak_ReasonCode a)) else None)) (ack, pending, None)).
  { destruct result; [apply may_bind in H as (p & _ & H); by exists p|by exists false|done]. }
  destruct Hend as (p & Hend). cbn in Hend. injection Hend as <- <- Hfail.
  destruct (String.eqb_spec (ak_Outcome ack) "applied") as [Ho|]; [|done]. destruct applyErr; [done|].
  destruct (acknowledge_applied _ _ _ _ _ _ _ Hack Ho) as (Hv & H1 & H2 & H3 & H4 & H5 & H6 & H7).
  destruct (ValidateAcknowledgement_ok _ Hv) as (Hkind & Hpos & Hev). split; try done.
  - split; [done|by apply Hev].
  - rewrite H2 in Hkind. unfold validControlKind in Hkind. subst objective.
    destruct (ControlObjective (ct_Kind control)) as [objective|]; [|done]. exists objective. cbn in H6. split; [done|lia].
  - by eexists _, objective, w, r, w'.
  - by exists audit, result, wr, wr'.
Qed.

Lemma applyControls_contained schedule controls state acks pending :
  may_return (applyControls (store := store) schedule controls state) (acks, pending, None) ->
  forall control, In control controls -> exists ack, In ack acks /\ contained state control ack.
Proof.
  unfold applyControls. intros (results & (w & w' & Hrun%run_pool_may)%may_calls & H)%may_bind control Hin. cbn in H.
  injection H as -> -> Hok. destruct (existsb _ results) eqn:Hfail; [done|]. clear Hok.
  change (map (applyControl state) controls) with (applyControl state <$> controls) in Hrun.
  rewrite Forall2_fmap_l in Hrun. apply list_elem_of_In, list_elem_of_lookup in Hin as [i Hi].
  destruct (Forall2_lookup_l _ _ _ _ _ Hrun Hi) as ([[ack p] err] & Hres & Hmay). apply list_elem_of_lookup_2, list_elem_of_In in Hres.
  assert (err = None) as ->.
  { destruct err as [err|]; [|done]. apply not_true_iff_false in Hfail. exfalso. apply Hfail, existsb_exists.
    by exists (ack, p, Some err). }
  exists ack. split; [|by eapply applyControl_contained]. apply sort_by_in, in_map_iff. by exists (ack, p, None).
Qed.

Lemma recordDenied_fails ctx command authority err now result decision :
  ~ may_return (recordDenied ctx command authority err now) (result, decision, None).
Proof.
  unfold recordDenied. intros (reserved & _ & H)%may_bind. destruct reserved as [record|e].
  - apply may_bind in H as (delivered & _ & H). by destruct delivered.
  - by apply may_bind in H as (storeErr & _ & H).
Qed.

(** The digest the store gets *)
Definition command_digest (command : Command) : string := match CommandDigest command with Ok digest => digest | Err _ => "" end.

(** An activation that returns no error: the store replayed it, or it is new and contained. *)
Lemma Activate_may schedule controls ctx command authority result decision :
  may_return (Activate schedule controls ctx command authority) (result, decision, None) ->
  exists now, ValidateCommand command = Ok tt /\ validateAuthority command authority now = Ok tt /\
  exists record answer w w',
    store_Activate ctx (mkCandidate command authority (command_digest command) now) w = (Ok (record, answer), w') /\
    rs_State result = ac_State record /\ decision = ac_Decision record /\ rs_AuditPending result = false /\
    ((answer = ActivationReplay /\ rs_Acknowledgements result = []) \/
     (answer = ActivationNew /\ forall control, In control controls ->
        exists ack, In ack (rs_Acknowledgements result) /\ contained (ac_State record) control ack)).
Proof.
  unfold Activate. intros (now & _ & H)%may_bind. apply may_bind in H as (ready & _ & H). exists now.
  destruct ready as [err|]; [by apply recordDenied_fails in H|].
  destruct (ValidateCommand command ;; _) as [[]|err] eqn:Hchecks; [|by apply recordDenied_fails in H].
  apply seq_ok in Hchecks as [Hc Ha]. split_and!; [done..|]. fold (command_digest command) in H.
  apply may_bind in H as (activated & (w & w' & Hact)%may_calls & H).
  destruct activated as [[record answer]|err].
  2:{ apply may_bind in H as (normal & _ & H). by apply recordDenied_fails in H. }
  exists record, answer, w, w'. split; [done|]. destruct answer; [| |by apply recordDenied_fails in H].
  - apply may_bind in H as (delivered & _ & H). apply may_bind in H as ([[acks pending] err] & Hall & H).
    destruct err as [err|]; [done|]. destruct delivered, pending; try done. injection H as -> ->. cbn. split_and!; try done.
    right. split; [done|]. by eapply applyControls_contained.
  - injection H as -> ->. cbn. split_and!; [done..|]. by left.
Qed.
End containment.

(** The configuration has a control of every required kind. *)
Lemma NewWithDependencies_kinds {W} (given controls : list (Control W)) :
  NewWithDependencies false false false given = Ok controls ->
  forall kind, In kind requiredKinds -> exists control, In control controls /\ ct_Kind control = kind.
Proof.
  unfold NewWithDependencies. intros [_ H]%seq_ok. apply seq_ok in H as [_ H]. apply seq_ok in H as [H [= <-]].
  apply deny_if_ok, negb_false_iff in H. rewrite forallb_forall in H. intros kind Hin.
  specialize (H kind Hin). apply existsb_exists in H as (control & Hc & Hk%String.eqb_eq).
  exists control. split; [by apply sort_by_in|done].
Qed.

(** ** A stop is final *)

(** The stop of the scope covers the case (or the tenant, when no case is named). *)
Definition covers (s : Scope) (organizationID tenantID caseID : string) : Prop :=
  s = mkScope "global" organizationID tenantID "" \/
  (s = mkScope "case" organizationID tenantID caseID /\ caseID <> "").

(** What a store promises its controllers: which scopes are stopped, and that no step of
    anyone who goes through the store lifts a stop *)
Class StopStore (W : Type) {store : Store W} {ports : StopPorts W} : Type := {
  store_ok : W -> Prop;
  stopped : W -> Scope -> Prop;
  keeps := fun w w' : W => store_ok w -> store_ok w' /\ forall s, stopped w s -> stopped w' s;
  keeps_activate : forall ctx candidate w, keeps w (snd (store_Activate ctx candidate w));
  keeps_effective : forall ctx o t c w, keeps w (snd (store_Effective ctx o t c w));
  keeps_reserve : forall ctx d w, keeps w (snd (store_ReserveAudit ctx d w));
  keeps_record : forall ctx state ack d w, keeps w (snd (store_RecordControl ctx state ack d w));
  keeps_mark : forall ctx id w, keeps w (snd (store_MarkAuditDelivered ctx id w));
  keeps_now : forall w, keeps w (snd (StopNow w));
  keeps_append : forall d w, keeps w (snd (AppendEmergencyStopDecision d w));
  activate_stops : forall ctx candidate w record answer w', store_ok w ->
    store_Activate ctx candidate w = (Ok (record, answer), w') -> answer <> ActivationConflict ->
    stopped w' (st_Scope (ac_State record));
  effective_refuses : forall ctx o t c w state active w' s, store_ok w -> stopped w s -> covers s o t c ->
    store_Effective ctx o t c w = (Ok (state, active), w') -> active = true }.

Section final.
Context {W : Type} {store : Store W} {ports : StopPorts W} {laws : StopStore W}.

Lemma keeps_refl (w : W) : keeps w w.
Proof. by split. Qed.

Lemma keeps_trans (w1 w2 w3 : W) : keeps w1 w2 -> keeps w2 w3 -> keeps w1 w3.
Proof. intros H1 H2 Hok. destruct (H1 Hok) as [Hok2 Hs]. destruct (H2 Hok2) as [Hok3 Hs']. split; [done|]. auto. Qed.

Lemma keeps_rtc (w w' : W) : rtc keeps w w' -> keeps w w'.
Proof. induction 1; [apply keeps_refl|by eapply keeps_trans]. Qed.

(** Every call of the goroutine keeps the promise. *)
Fixpoint respects {A} (m : routine W A) : Prop :=
  match m with
  | Return _ => True
  | Call call rest => (forall w, keeps w (snd (call w))) /\ forall b, respects (rest b)
  end.

Lemma respects_bind {A B} (m : routine W A) (f : A -> routine W B) :
  respects m -> (forall a, respects (f a)) -> respects (m ≫= f).
Proof. intros Hm Hf. induction m as [a|C call rest IH]; [by apply Hf|]. destruct Hm as [Hc Hr]. split; [done|]. intros b. by apply IH. Qed.

Lemma respects_calls {B} (call : W -> B * W) : (forall w, keeps w (snd (call w))) -> respects (calls call).
Proof. by split. Qed.

Lemma respects_look {B} (f : W -> B) : respects (calls (fun w => (f w, w))).
Proof. apply respects_calls. intros w. apply keeps_refl. Qed.

Lemma respects_now : respects stop_now.
Proof. apply respects_calls. intros w. pose proof (keeps_now w) as H. by destruct (StopNow w). Qed.

Lemma respects_alone {A} (m : routine W A) w : respects m -> keeps w (snd (run_alone m w)).
Proof.
  revert w. induction m as [a|C call rest IH]; intros w H; [apply keeps_refl|]. destruct H as [Hc Hr]. cbn.
  specialize (Hc w). destruct (call w) as [b w1]. eapply keeps_trans; [done|]. by apply IH.
Qed.

Lemma respects_finish {A} (pool : list (routine W A)) w : Forall respects pool -> keeps w (snd (finish pool w)).
Proof.
  intros H. revert w. induction H as [|m pool Hm Hp IH]; intros w; [apply keeps_refl|]. cbn.
  pose proof (respects_alone m w Hm) as H1. destruct (run_alone m w) as [a w1]. specialize (IH w1).
  destruct (finish pool w1) as [rest w2]. by eapply keeps_trans.
Qed.

Lemma respects_pool {A} schedule (pool : list (routine W A)) w : Forall respects pool -> keeps w (snd (run_pool schedule pool w)).
Proof.
  unfold run_pool. revert pool w. induction schedule as [|n schedule IH]; intros pool w H; cbn [fold_left].
  - by apply respects_finish.
  - unfold advance_at at 2. destruct (pool !! n) as [[a|B call rest]|] eqn:Hn; [by apply IH| |by apply IH].
    pose proof (proj1 (Forall_lookup _ _) H n _ Hn) as [Hc Hr]. specialize (Hc w). destruct (call w) as [b w1].
    eapply keeps_trans; [done|]. apply IH. by apply Forall_insert.
Qed.

Lemma respects_amid {A} (m : routine W A) w a w' : respects m -> runs_amid keeps m w a w' -> keeps w w'.
Proof.
  revert w. induction m as [x|C call rest IH]; intros w H Hr; [destruct Hr as [_ Hr]; by apply keeps_rtc|].
  destruct H as [Hc Hrest], Hr as (w1 & He%keeps_rtc & Hr). eapply keeps_trans; [done|]. eapply keeps_trans; [apply Hc|].
  by eapply IH.
Qed.

Lemma respects_deliver record : respects (deliverAudit record).
Proof.
  apply respects_bind; [apply respects_calls, keeps_append|]. intros [u|u]; [|done].
  apply respects_bind; [apply respects_calls; intros w; apply keeps_mark|]. done.
Qed.

Lemma respects_denied ctx command authority err now : respects (recordDenied ctx command authority err now).
Proof.
  apply respects_bind; [apply respects_calls; intros w; apply keeps_reserve|]. intros [record|e].
  - apply respects_bind; [apply respects_deliver|]. by intros [].
  - apply respects_bind; [apply respects_look|]. done.
Qed.

(** The controls of a controller do not touch the store. *)
Definition aloof (control : Control W) : Prop := forall request objective w, keeps w (snd (ct_Apply control request objective w)).

Lemma respects_control state control : aloof control -> respects (applyControl state control).
Proof.
  intros Ha. apply respects_bind; [apply respects_now|]. intros started.
  apply respects_bind; [apply respects_calls, Ha|]. intros r. apply respects_bind; [apply respects_now|]. intros completed.
  destruct (acknowledge _ _ _ _ _ _) as [ack applyErr]. apply respects_bind; [apply respects_calls; intros w; apply keeps_record|].
  intros [[audit []]|e]; [|done..]. apply respects_bind; [|done]. apply respects_bind; [apply respects_deliver|]. done.
Qed.

Lemma respects_controls schedule controls state : Forall aloof controls -> respects (applyControls schedule controls state).
Proof.
  intros Ha. apply respects_bind; [|done]. apply respects_calls. intros w. apply respects_pool.
  apply Forall_map. eapply Forall_impl; [done|]. intros control. apply respects_control.
Qed.

(** An activation that answers with an active state has stopped its scope. *)
Lemma activation_stops schedule controls ctx command authority w result decision err w' :
  Forall aloof controls -> store_ok w -> runs_amid keeps (Activate schedule controls ctx command authority) w (result, decision, err) w' ->
  st_Active (rs_State result) = true -> store_ok w' /\ stopped w' (st_Scope (rs_State result)).
Proof.
  intros Ha Hok H Hactive.
  assert (Hden : forall e now w0, runs_amid keeps (recordDenied ctx command authority e now) w0 (result, decision, err) w' -> False).
  { intros e now w0 (reserved & w1 & _ & Hd)%amid_bind. destruct reserved as [record|e'].
    - apply amid_bind in Hd as ([|] & w2 & _ & [Hd _]%amid_ret); injection Hd as -> _ _; discriminate Hactive.
    - apply amid_bind in Hd as (e2 & w2 & _ & [Hd _]%amid_ret). injection Hd as -> _ _. discriminate Hactive. }
  apply amid_bind in H as (now & w1 & Hn & H). apply (respects_amid _ _ _ _ respects_now) in Hn.
  destruct (Hn Hok) as [Hok1 _]. apply amid_bind in H as (ready & w2 & Hl & H).
  apply (respects_amid _ _ _ _ (respects_look _)) in Hl. destruct (Hl Hok1) as [Hok2 _]. cbv zeta in H.
  destruct (match ready with Some err => Some err | None => _ end); [by apply Hden in H|].
  apply amid_bind in H as (activated & w3 & Hc & H). apply amid_calls in Hc as (w4 & w5 & He%keeps_rtc & Hact & He'%keeps_rtc).
  destruct (He Hok2) as [Hok4 _]. pose proof (keeps_activate ctx (mkCandidate command authority (command_digest command) now) w4 Hok4) as [Hok5 _].
  fold (command_digest command) in Hact. rewrite Hact in Hok5. cbn [snd] in Hok5.
  destruct activated as [[record answer]|e]; [|by apply amid_bind in H as (normal & w6 & _ & H%Hden)].
  assert (Hstop : answer <> ActivationConflict -> store_ok w3 /\ stopped w3 (st_Scope (ac_State record))).
  { intros Hne. pose proof (activate_stops _ _ _ _ _ _ Hok4 Hact Hne) as Hs. destruct (He' Hok5) as [Hok3 Hk]. auto. }
  destruct answer; [|apply amid_ret in H as [H Hr%keeps_rtc]|by apply Hden in H].
  - destruct Hstop as [Hok3 Hs]; [done|]. apply amid_bind in H as (delivered & w6 & Hd & H).
    apply (respects_amid _ _ _ _ (respects_deliver _)) in Hd. apply amid_bind in H as ([[acks pending] cerr] & w7 & Hcs & H).
    apply (respects_amid _ _ _ _ (respects_controls _ _ _ Ha)) in Hcs. apply amid_ret in H as [H Hr%keeps_rtc].
    injection H as -> _ _. cbn [rs_State].
    destruct (keeps_trans _ _ _ (keeps_trans _ _ _ Hd Hcs) Hr Hok3) as [Hok' Hk]. auto.
  - destruct Hstop as [Hok3 Hs]; [done|]. injection H as -> _ _. cbn [rs_State]. destruct (Hr Hok3) as [Hok' Hk]. auto.
Qed.

Lemma stopped_refused ctx o t c w r w' s : store_ok w -> stopped w s -> covers s o t c ->
  runs_amid keeps (Allow ctx o t c) w r w' -> exists err, r = Some err.
Proof.
  intros Hok Hs Hcov H. unfold Allow in H. apply amid_bind in H as ([state err] & w1 & H & [-> _]%amid_ret).
  unfold Check in H. apply amid_bind in H as (ready & w2 & Hl & H). apply (respects_amid _ _ _ _ (respects_look _)) in Hl.
  destruct (Hl Hok) as [Hok2 Hk]. cbv zeta in H. destruct ready as [e|]; [apply amid_ret in H as [[= -> ->] _]; eauto|].
  destruct (ValidateScope _ ;; _) as [u|e]; [|apply amid_ret in H as [[= -> ->] _]; eauto].
  apply amid_bind in H as (effective & w3 & Hc & H). apply amid_calls in Hc as (w4 & w5 & He%keeps_rtc & Heff & _).
  destruct (He Hok2) as [Hok4 Hk4]. destruct effective as [[st active]|e].
  - pose proof (effective_refuses _ _ _ _ _ _ _ _ _ Hok4 (Hk4 _ (Hk _ Hs)) Hcov Heff) as ->.
    apply amid_ret in H as [[= -> ->] _]. eauto.
  - apply amid_bind in H as (normal & w6 & _ & [[= -> ->] _]%amid_ret). eauto.
Qed.
End final.
