(* ===== verification/EStopTheorems.v ===== *)
(** * Emergency stops: the store in memory keeps the promise, and the properties

    [MemoryStore] discharges the interface [StopStore]; the theorems: a stop is final, success
    means containment, the guard refuses nothing else, and recovery drains the outbox. *)

From S2P Require Import Prelude GoStrings GoRegexp GoTime GoJson DomainContract Sha256 Domain GoStruct Storage Policy EStop EStopController EStopStore EStopFacts.

Local Open Scope string_scope.
Local Open Scope Z_scope.

(** ** The properties of the controller *)

Section controller.
Context {W : Type} {store : Store W} {ports : StopPorts W} {laws : StopStore W}.

(** C7. A stop is final, over any store that keeps its promise: once an activation has
    answered with an active state (new or replayed), then, whatever other controllers, brokers
    and recoveries do through the store before, between and after its calls, the guard answers every
    later question about a case the stop covers with an error.  No operation of the package
    lifts a stop. *)
Theorem emergency_stop_is_final schedule controls ctx command authority w1 result decision err w2 w3 ctx' o t c r w4 :
  Forall aloof controls -> store_ok w1 ->
  runs_amid keeps (Activate schedule controls ctx command authority) w1 (result, decision, err) w2 ->
  st_Active (rs_State result) = true -> rtc keeps w2 w3 ->
  runs_amid keeps (Allow ctx' o t c) w3 r w4 -> covers (st_Scope (rs_State result)) o t c ->
  exists refusal, r = Some refusal.
Proof.
  intros Ha Hok H Hact Hr%keeps_rtc Hallow Hcov. destruct (activation_stops _ _ _ _ _ _ _ _ _ _ Ha Hok H Hact) as [Hok2 Hs].
  destruct (Hr Hok2) as [Hok3 Hk]. eapply stopped_refused; eauto.
Qed.
End controller.

(** C15. Success means containment: an activation of a configured controller that returns no
    error was asked for by a valid command under current authority, and the store either
    replayed an earlier one or started a new one; then, whatever the goroutines of the controls
    interleaved to, each required kind of control (credentials, egress, remote jobs,
    workflows, cooperative termination) was applied to the stop's scope and epoch, within its objective, answered with
    the evidence in the acknowledgement, and was recorded; no audit is pending. *)
Theorem successful_activation_is_contained {W} {store : Store W} {ports : StopPorts W} given controls schedule ctx command
  authority result decision :
  NewWithDependencies false false false given = Ok controls ->
  may_return (Activate schedule controls ctx command authority) (result, decision, None) ->
  exists now record answer w w',
    ValidateCommand command = Ok tt /\ validateAuthority command authority now = Ok tt /\
    store_Activate ctx (mkCandidate command authority (command_digest command) now) w = (Ok (record, answer), w') /\
    rs_State result = ac_State record /\ rs_AuditPending result = false /\
    (answer = ActivationReplay \/
     answer = ActivationNew /\ forall kind, In kind requiredKinds -> exists control ack,
       In control controls /\ ct_Kind control = kind /\ In ack (rs_Acknowledgements result) /\
       contained (ac_State record) control ack).
Proof.
  intros Hnew H. apply Activate_may in H as (now & Hc & Ha & record & answer & w & w' & Hact & Hst & _ & Hp & Hans).
  exists now, record, answer, w, w'. do 5 (split; [done|]). destruct Hans as [[-> _]|[-> Hall]]; [by left|right].
  split; [done|]. intros kind Hk. destruct (NewWithDependencies_kinds _ _ Hnew kind Hk) as (control & Hin & Hkind).
  destruct (Hall control Hin) as (ack & Hack & Hcon). by exists control, ack.
Qed.

(** ** The store in memory *)

(** The ports of the controller do not touch the store. *)
Class MemoryPorts (W : Type) {has : HasMemory W} {ports : StopPorts W} : Prop := {
  now_memory : forall w, memory (snd (StopNow w)) = memory w;
  append_memory : forall d w, memory (snd (AppendEmergencyStopDecision d w)) = memory w }.

(** Active stops of the memory *)
Definition memory_stopped (m : MemoryStore) (s : Scope) : Prop :=
  exists state, ms_states m !! scopeKey s = Some state /\ st_Active state = true.

Record memory_ok (m : MemoryStore) : Prop := {
  mo_replays : forall key previous, ms_requests m !! key = Some previous ->
    memory_stopped m (st_Scope (ac_State (rp_record previous)));
  mo_keys : forall key state, ms_states m !! key = Some state -> key = scopeKey (st_Scope state);
  mo_order : forall id, In id (ms_auditOrder m) <-> is_Some (ms_audits m !! id);
  mo_ids : forall id record, ms_audits m !! id = Some record -> ar_ID record = id }.

Lemma new_memory_ok : memory_ok NewMemoryStore.
Proof. split; cbn; [done|done| |done]. intros id. rewrite lookup_empty. split; [done|by intros []]. Qed.

Lemma sort_strings_in l x : In x (sort_strings l) <-> In x l.
Proof.
  assert (Hins : forall y l', In x (insert_sorted y l') <-> x = y \/ In x l').
  { intros y l'. induction l' as [|z l' IH]; cbn; [naive_solver|]. destruct (String.leb y z); cbn; [naive_solver|]. rewrite IH. tauto. }
  induction l as [|y l IH]; [done|]. cbn [sort_strings foldr]. rewrite Hins. unfold sort_strings in IH. cbn. naive_solver.
Qed.

(** Adding an audit leaves the rest, *)
Lemma putAudit_rest m record : ms_states (putAudit m record) = ms_states m /\ ms_requests (putAudit m record) = ms_requests m /\
  ms_controls (putAudit m record) = ms_controls m.
Proof. unfold putAudit. by destruct (ms_audits m !! ar_ID record). Qed.

(** and the outbox in order. *)
Lemma putAudit_ok m record : memory_ok m -> memory_ok (putAudit m record).
Proof.
  intros [H1 H2 H3 H4]. unfold putAudit. destruct (ms_audits m !! ar_ID record) eqn:He; [by split|]. split; cbn; try done.
  - intros id. rewrite sort_strings_in, in_app_iff, H3. cbn. rewrite lookup_insert_is_Some. destruct (decide (ar_ID record = id)); naive_solver.
  - intros id r. rewrite lookup_insert_Some. intros [[<- <-]|[_ Hr]]; [done|by apply H4].
Qed.

Definition memory_keeps (m m' : MemoryStore) : Prop :=
  memory_ok m -> memory_ok m' /\ forall s, memory_stopped m s -> memory_stopped m' s.

Lemma activate_keeps m candidate : memory_keeps m (snd (activate_locked m candidate)).
Proof.
  intros Hok. unfold activate_locked. cbv zeta. destruct (ms_requests m !! _) as [previous|] eqn:Hreq.
  { by destruct (String.eqb _ _). }
  destruct (match ms_states m !! _ with Some current => _ | None => false end) eqn:Hfree; [done|]. cbn [snd].
  set (state := activation_state _ _). set (key := scopeKey _) in *. set (m1 := mkMemory _ _ _ _ _ _).
  assert (Hgrow : forall s, memory_stopped m s -> memory_stopped m1 s).
  { intros s (st & Hs & Ha). destruct (decide (scopeKey s = key)) as [Heq|Hne].
    - exfalso. rewrite Heq in Hs. rewrite Hs in Hfree. congruence.
    - exists st. cbn. by rewrite lookup_insert_ne. }
  assert (Hnew : memory_stopped m1 (cm_Scope (ca_Command candidate))) by (exists state; cbn; by rewrite lookup_insert_eq).
  assert (Hok1 : memory_ok m1).
  { destruct Hok as [H1 H2 H3 H4]. split; cbn; try done.
    - intros k p. rewrite lookup_insert_Some. intros [[_ <-]|[_ Hp]]; [exact Hnew|by apply Hgrow, (H1 k)].
    - intros k st. rewrite lookup_insert_Some. intros [[<- <-]|[_ Hk]]; [done|by apply H2]. }
  split; [by apply putAudit_ok|]. intros s Hs%Hgrow. unfold memory_stopped in *. by rewrite (proj1 (putAudit_rest _ _)).
Qed.

Lemma activate_stops_memory m candidate record answer m' : memory_ok m ->
  activate_locked m candidate = (Ok (record, answer), m') -> answer <> ActivationConflict ->
  memory_stopped m' (st_Scope (ac_State record)).
Proof.
  intros Hok. unfold activate_locked. cbv zeta. destruct (ms_requests m !! _) as [previous|] eqn:Hreq.
  { destruct (String.eqb _ _); intros [= <- <- <-]; [|done]. intros _. by eapply mo_replays. }
  destruct (match ms_states m !! _ with Some current => _ | None => false end); [done|]. intros [= <- <- <-] _.
  unfold memory_stopped. rewrite (proj1 (putAudit_rest _ _)). cbn. rewrite lookup_insert_eq. by eexists.
Qed.

Lemma record_keeps m state ack d : memory_keeps m (snd (record_locked m state ack d)).
Proof.
  intros Hok. unfold record_locked. destruct (ms_states m !! _) as [current|]; [|done]. case_bool_decide; [|done].
  cbv zeta. destruct (ms_controls m !! _) as [previous|]; [by case_bool_decide|]. cbn [snd]. set (m1 := mkMemory _ _ _ _ _ _).
  assert (Hok1 : memory_ok m1) by (destruct Hok as [H1 H2 H3 H4]; by split).
  split; [by apply putAudit_ok|]. intros s Hs. unfold memory_stopped in *. by rewrite (proj1 (putAudit_rest _ _)).
Qed.

Lemma reserve_keeps m record : memory_keeps m (putAudit m record).
Proof.
  intros Hok. split; [by apply putAudit_ok|]. intros s Hs. unfold memory_stopped in *. by rewrite (proj1 (putAudit_rest _ _)).
Qed.

Lemma mark_keeps m id : memory_keeps m (snd (mark_locked m id)).
Proof.
  intros [H1 H2 H3 H4]. unfold mark_locked. destruct (ms_audits m !! id) as [record|] eqn:Hid; [|by split]. cbn [snd].
  split; [|done]. split; cbn; try done.
  - intros id'. rewrite H3. destruct (decide (id = id')) as [<-|Hne].
    + rewrite lookup_insert_eq, Hid. split; by eexists.
    + by rewrite lookup_insert_ne.
  - intros id' r. rewrite lookup_insert_Some. intros [[<- <-]|[_ Hr]]; [exact (H4 _ _ Hid)|by apply H4].
Qed.

Lemma effective_refuses_memory m s o t c state active : memory_stopped m s -> covers s o t c ->
  effective_locked m o t c = (state, active) -> active = true.
Proof.
  intros (st & Hs & Ha) Hcov. unfold effective_locked. destruct Hcov as [->|[-> Hne]].
  - rewrite Hs, Ha. by intros [= _ <-].
  - destruct (ms_states m !! scopeKey (mkScope "global" o t "")) as [g|]; [destruct (st_Active g); [by intros [= _ <-]|]|];
      (apply String.eqb_neq in Hne; rewrite Hne, Hs, Ha; by intros [= _ <-]).
Qed.

Section memory.
Context {W : Type} {has : HasMemory W} {ports : StopPorts W} {quiet_ports : MemoryPorts W}.

Lemma locked_keeps {A} ctx (section : MemoryStore -> result (go_error Error) A * MemoryStore) w :
  (forall m, memory_keeps m (snd (section m))) -> memory_keeps (memory w) (memory (snd (locked ctx section w))).
Proof.
  intros H. unfold locked. destruct (stop_ctx_err ctx w); [by split|]. specialize (H (memory w)).
  destruct (section (memory w)) as [r m]. cbn. by rewrite memory_set.
Qed.

#[export] Instance memory_laws : StopStore W.
Proof.
  refine {| store_ok w := memory_ok (memory w); stopped w s := memory_stopped (memory w) s |}; cbn.
  - intros ctx candidate w. apply locked_keeps. intros m. apply activate_keeps.
  - intros ctx o t c w. apply locked_keeps. by split.
  - intros ctx d w. apply locked_keeps. intros m. apply reserve_keeps.
  - intros ctx state ack d w. apply locked_keeps. intros m. apply record_keeps.
  - intros ctx id w. apply locked_keeps. intros m. apply mark_keeps.
  - intros w. rewrite now_memory. by split.
  - intros d w. rewrite append_memory. by split.
  - intros ctx candidate w record answer w' Hok. unfold locked. destruct (stop_ctx_err ctx w); [done|].
    destruct (activate_locked (memory w) candidate) as [r m] eqn:Ha. intros [= -> <-] Hne. rewrite memory_set.
    by eapply activate_stops_memory.
  - intros ctx o t c w state active w' s _ Hs Hcov. unfold locked. destruct (stop_ctx_err ctx w); [done|].
    intros [= H _]. by eapply effective_refuses_memory.
Defined.
End memory.

(** ** The guard refuses nothing else *)

Lemma all_indexed_nul test index s : (forall i, test i NUL = false) -> all_indexed test index s = true ->
  ~ In NUL (String.list_ascii_of_string s).
Proof.
  intros Ht. revert index. induction s as [|c s IH]; intros index; cbn; [tauto|].
  rewrite andb_true_iff. intros [Hc Hs] [->|Hin]; [by rewrite Ht in Hc|by eapply IH].
Qed.

Lemma validUUID_length s : validUUID s = true -> String.length s = 36%nat.
Proof. unfold validUUID. destruct (_ || _) eqn:E; [done|]. bool_split. unfold len in *. intros _. lia. Qed.

Lemma scope_valid s : ValidateScope s = Ok tt -> String.length (sc_OrganizationID s) = 36%nat /\
  String.length (sc_TenantID s) = 36%nat /\
  ((sc_Kind s = "global" /\ sc_CaseID s = "") \/ (sc_Kind s = "case" /\ validUUID (sc_CaseID s) = true)).
Proof.
  unfold ValidateScope. intros [H1 H]%seq_ok. apply deny_if_ok, orb_false_iff in H1 as [Ho%negb_false_iff Ht%negb_false_iff].
  apply validUUID_length in Ho, Ht. split_and!; [done..|].
  destruct (String.eqb_spec (sc_Kind s) "global") as [Hk|_].
  { left. apply deny_if_ok, negb_false_iff, String.eqb_eq in H. done. }
  destruct (String.eqb_spec (sc_Kind s) "case") as [Hk|_]; [|done]. right. by apply deny_if_ok, negb_false_iff in H.
Qed.

(** The key of a scope determines it. *)
Lemma scopeKey_inj s s' : ValidateScope s = Ok tt -> ValidateScope s' = Ok tt -> scopeKey s = scopeKey s' -> s = s'.
Proof.
  intros (Ho & Ht & Hk)%scope_valid (Ho' & Ht' & Hk')%scope_valid. unfold scopeKey. intros H.
  apply append_inj_len in H as [Eo H]; [|congruence]. injection H as H. apply append_inj_len in H as [Et H]; [|congruence].
  injection H as H. destruct s as [k o t c], s' as [k' o' t' c']. cbn in *. subst.
  destruct Hk as [[-> ->]|[-> _]], Hk' as [[-> ->]|[-> _]]; cbn in H; try discriminate H; [done|].
  by injection H as ->.
Qed.

(** The states of the memory have valid scopes. *)
Definition scopes_valid (m : MemoryStore) : Prop :=
  forall key state, ms_states m !! key = Some state -> ValidateScope (st_Scope state) = Ok tt.

Lemma activate_scopes m candidate : ValidateScope (cm_Scope (ca_Command candidate)) = Ok tt -> scopes_valid m ->
  scopes_valid (snd (activate_locked m candidate)).
Proof.
  intros Hv Hm. unfold activate_locked. cbv zeta. destruct (ms_requests m !! _); [by destruct (String.eqb _ _)|].
  destruct (match ms_states m !! _ with Some current => _ | None => false end); [done|]. cbn [snd]. unfold scopes_valid.
  rewrite (proj1 (putAudit_rest _ _)). cbn. intros key state. rewrite lookup_insert_Some. intros [[_ <-]|[_ Hs]]; [done|by eapply Hm].
Qed.

(** A reported stop is stored under the key of a scope that covers the case. *)
Lemma effective_found m o t c state : effective_locked m o t c = (state, true) ->
  exists s, covers s o t c /\ ms_states m !! scopeKey s = Some state /\ st_Active state = true.
Proof.
  unfold effective_locked. intros He.
  assert (Hcase : (if String.eqb c "" then (zero_state, false) else
      match ms_states m !! scopeKey (mkScope "case" o t c) with Some st => (st, st_Active st) | None => (zero_state, false) end) =
      (state, true) -> exists s, covers s o t c /\ ms_states m !! scopeKey s = Some state /\ st_Active state = true).
  { destruct (String.eqb_spec c "") as [|Hne]; [done|]. intros H. exists (mkScope "case" o t c).
    destruct (ms_states m !! scopeKey (mkScope "case" o t c)) as [st|]; [|done]. injection H as <- Ha. split; [by right|done]. }
  destruct (ms_states m !! scopeKey (mkScope "global" o t "")) as [g|] eqn:Hg; [|by apply Hcase].
  destruct (st_Active g) eqn:Ha; [|by apply Hcase]. injection He as <-. exists (mkScope "global" o t "").
  split_and!; [by left|done|done].
Qed.

(** The guard of the store in memory is exact: while the stored scopes are valid, which
    activation preserves, the store reports an active stop for a case exactly when some active
    stop covers it, and then reports one that does: keys built from identifiers and NUL bytes
    are never those of another scope. *)
Theorem guard_is_exact m o t c : memory_ok m -> scopes_valid m ->
  ValidateScope (mkScope "global" o t "") = Ok tt -> (c <> "" -> ValidateScope (mkScope "case" o t c) = Ok tt) ->
  let '(state, active) := effective_locked m o t c in
  (active = true <-> exists s, covers s o t c /\ memory_stopped m s) /\
  (active = true -> st_Active state = true /\ covers (st_Scope state) o t c) /\
  (forall candidate, ValidateScope (cm_Scope (ca_Command candidate)) = Ok tt ->
     scopes_valid (snd (activate_locked m candidate))).
Proof.
  intros Hok Hsc Hg Hc. destruct (effective_locked m o t c) as [state active] eqn:He. split_and!.
  - split; [|intros (s & Hcov & Hs); by eapply effective_refuses_memory]. intros ->.
    apply effective_found in He as (s & Hcov & Hs & Ha). exists s. split; [done|]. by exists state.
  - intros ->. apply effective_found in He as (s & Hcov & Hs & Ha). split; [done|].
    assert (Hvalid : ValidateScope s = Ok tt) by (destruct Hcov as [->|[-> Hne]]; auto).
    assert (st_Scope state = s) as ->; [|done]. symmetry. apply scopeKey_inj; [done|by eapply Hsc|].
    exact (mo_keys _ Hok _ _ Hs).
  - intros candidate Hv. by apply activate_scopes.
Qed.

(** ** The outbox *)

Section outbox.
Context {W : Type} {has : HasMemory W} {ports : StopPorts W} {quiet_ports : MemoryPorts W}.

Lemma deliverAudit_marks record w w' : run_alone (deliverAudit record) w = (true, w') ->
  exists marked, ms_audits (memory w') = <[ar_ID record := marked]> (ms_audits (memory w)) /\ ar_Delivered marked = true.
Proof.
  cbn. pose proof (append_memory (ar_Decision record) w) as Hm.
  destruct (AppendEmergencyStopDecision (ar_Decision record) w) as [[u|u] w1]; [|done]. cbn in Hm |- *.
  unfold locked. destruct (stop_ctx_err _ w1); [done|]. unfold mark_locked. rewrite Hm.
  destruct (ms_audits (memory w) !! ar_ID record) as [r|]; [|done]. cbn. intros [= <-]. rewrite memory_set. cbn. by eexists.
Qed.

Lemma deliver_all_marks records delivered w n w' : run_alone (deliver_all delivered records) w = ((n, None), w') ->
  n = delivered + Z.of_nat (length records) /\
  forall id r, ms_audits (memory w') !! id = Some r -> ar_Delivered r = false ->
    ms_audits (memory w) !! id = Some r /\ ~ In id (map ar_ID records).
Proof.
  revert delivered w. induction records as [|record records IH]; intros delivered w.
  { cbn. intros [= <- <-]. split; [lia|]. tauto. }
  intros H. cbn [deliver_all] in H. rewrite run_alone_bind in H.
  destruct (run_alone (deliverAudit record) w) as [[|] w1] eqn:Hd; [|done].
  apply IH in H as [-> Hrest]. apply deliverAudit_marks in Hd as (marked & Hm & Hdel). split; [cbn [length]; lia|].
  intros id r Hr Hf. destruct (Hrest id r Hr Hf) as [Hw Hn]. rewrite Hm in Hw.
  apply lookup_insert_Some in Hw as [[_ <-]|[Hne Hw]]; [congruence|]. split; [done|]. cbn. intros [?|?]; tauto.
Qed.

Lemma pending_complete audits limit order id r : (length (pending_audits audits limit order) < limit)%nat ->
  In id order -> audits !! id = Some r -> ar_Delivered r = false -> In r (pending_audits audits limit order).
Proof.
  revert limit. induction order as [|id' order IH]; intros [|limit] Hlen Hin Hr Hf; cbn in Hlen, Hin |- *; try done; try lia.
  destruct Hin as [->|Hin].
  - rewrite Hr in *. cbn in *. rewrite Hf. by left.
  - destruct (ar_Delivered (default zero_audit (audits !! id'))); [by apply IH|]. right. apply IH; [cbn in Hlen; lia|done..].
Qed.

(** Recovery drains the outbox of the store in memory: a recovery that returns no error
    and delivered fewer records than its limit has left no audit undelivered, so decisions
    whose first delivery failed are not lost. *)
Theorem recovery_drains_the_outbox ctx limit w n w' : memory_ok (memory w) ->
  run_alone (RecoverAudit ctx limit) w = ((n, None), w') -> n < limit ->
  forall id r, ms_audits (memory w') !! id = Some r -> ar_Delivered r = true.
Proof.
  intros Hok H Hn id r Hr. destruct (ar_Delivered r) eqn:Hf; [done|]. exfalso. unfold RecoverAudit in H.
  rewrite run_alone_bind in H. cbn [calls run_alone] in H. destruct (normalizeContext ctx w); [done|].
  rewrite run_alone_bind in H. cbn [calls run_alone store_PendingAudits memory_store] in H. unfold locked in H.
  destruct (stop_ctx_err ctx w) as [e|]; [done|].
  destruct ((limit <=? 0) || (1024 <? limit)) eqn:Hlimit; [done|]. apply orb_false_iff in Hlimit as [Hl%Z.leb_gt _].
  set (records := pending_audits _ _ _) in *. apply deliver_all_marks in H as [-> Hrest].
  destruct (Hrest id r Hr Hf) as [Hw Hnot]. rewrite memory_set in Hw. apply Hnot.
  rewrite <- (mo_ids _ Hok _ _ Hw). apply in_map. apply (pending_complete _ _ _ id); [fold records; lia| |done..].
  apply (mo_order _ Hok). by eexists.
Qed.
End outbox.
