(* ===== verification/EStopExample.v ===== *)
(** * Emergency stops: a concrete activation

    A controller with the five required controls over the store in memory, as inputs for the
    theorems. *)

From S2P Require Import Prelude GoStrings GoRegexp GoTime GoJson DomainContract Sha256 Domain GoStruct Storage Policy ApprovalLifecycleFacts EStop EStopController EStopStore EStopFacts EStopTheorems.

Local Open Scope string_scope.
Local Open Scope Z_scope.

#[export] Instance ex_memory : HasMemory MemoryStore.
Proof. refine {| memory m := m; set_memory m _ := m |}. done. Defined.

Definition ex_now : Time := default zero_time (parse_timestamp (ax_time "10")).

#[export] Instance ex_ports : StopPorts MemoryStore := {|
  StopNow w := (ex_now, w); AppendEmergencyStopDecision d w := (Ok tt, w); AuditDeadline w := None |}.

#[export] Instance ex_quiet : MemoryPorts MemoryStore.
Proof. by split. Qed.

Definition ex_ctx : context MemoryStore := Some (fun _ => None).

(** A control that answers at once, with evidence *)
Definition ex_control (kind : string) : Control MemoryStore :=
  mkControl ("control-" ++ kind) kind (fun _ _ w => (mkRace (Some (Ok ax_digest)) false 1000, w)).

Definition ex_controls : list (Control MemoryStore) := sort_by ct_ID (map ex_control requiredKinds).

Definition ex_scope : Scope := mkScope "global" (ax_id "2") (ax_id "3") "".

Definition ex_command : Command :=
  mkCommand CommandSchemaVersion ContractVersion (ax_id "1") "stop-one" ex_scope (ax_id "5") "operator_emergency".

Definition ex_authority : Authority :=
  mkAuthority ex_scope (ax_id "5") 1 true true ax_digest true ax_digest ex_now.

(** The five goroutines, interleaved *)
Definition ex_schedule : list nat := [0; 1; 2; 3; 4; 4; 3; 2; 1; 0; 0; 2; 4; 1; 3; 2]%nat.

Definition ex_activate : routine MemoryStore (Result * Decision * option (go_error Error)) :=
  Activate ex_schedule ex_controls ex_ctx ex_command ex_authority.

(** No error, an active state and five acknowledgements; the guard refuses then. *)
Definition ex_succeeds (run : (Result * Decision * option (go_error Error)) * MemoryStore) : bool :=
  let '((result, _, err), _) := run in
  match err with None => true | Some _ => false end && st_Active (rs_State result) &&
  bool_decide (st_Scope (rs_State result) = ex_scope) && Nat.eqb (length (rs_Acknowledgements result)) 5.

Lemma ex_activation : ex_succeeds (run_alone ex_activate NewMemoryStore) = true.
Proof. vm_compute. reflexivity. Qed.

#[local] Opaque Activate.

Lemma ex_run : exists result decision w, run_alone ex_activate NewMemoryStore = ((result, decision, None), w) /\
  st_Active (rs_State result) = true /\ st_Scope (rs_State result) = ex_scope.
Proof.
  pose proof ex_activation as H. destruct (run_alone ex_activate NewMemoryStore) as [[[result decision] err] w].
  cbn [ex_succeeds] in H. rewrite !andb_true_iff in H. destruct H as [[[He Ha] Hs] _]. apply bool_decide_eq_true in Hs.
  destruct err as [err|]; [discriminate He|]. exists result, decision, w. exact (conj eq_refl (conj Ha Hs)).
Qed.

Lemma alone_amid {W A} (env : W -> W -> Prop) (m : routine W A) w a w' : run_alone m w = (a, w') -> runs_amid env m w a w'.
Proof.
  revert w. induction m as [x|C call rest IH]; intros w; cbn; [intros [= -> ->]; split; [done|apply rtc_refl]|].
  intros H. exists w. split; [apply rtc_refl|]. apply IH. by destruct (call w).
Qed.

(** ** Witnesses *)

Lemma emergency_stop_is_final_witness : exists w r w', run_alone (Allow ex_ctx (ax_id "2") (ax_id "3") (ax_id "4")) w = (Some r, w').
Proof.
  destruct ex_run as (result & decision & w & Hrun & Ha & Hs).
  destruct (run_alone (Allow ex_ctx (ax_id "2") (ax_id "3") (ax_id "4")) w) as [r w'] eqn:Hallow.
  destruct (emergency_stop_is_final ex_schedule ex_controls ex_ctx ex_command ex_authority NewMemoryStore result decision None w w
    ex_ctx (ax_id "2") (ax_id "3") (ax_id "4") r w') as [refusal Hr].
  - unfold ex_controls. apply List.Forall_forall. intros control Hin. apply sort_by_in, in_map_iff in Hin as (kind & <- & _).
    intros request objective m. apply keeps_refl.
  - exact new_memory_ok.
  - apply alone_amid. exact Hrun.
  - exact Ha.
  - apply rtc_refl.
  - apply alone_amid. exact Hallow.
  - rewrite Hs. left. reflexivity.
  - exists w, refusal, w'. rewrite Hallow, Hr. reflexivity.
Defined.

Lemma successful_activation_is_contained_witness : exists result now,
  rs_AuditPending result = false /\ validateAuthority ex_command ex_authority now = Ok tt.
Proof.
  destruct ex_run as (result & decision & w & Hrun & _).
  destruct (successful_activation_is_contained (map ex_control requiredKinds) ex_controls ex_schedule ex_ctx ex_command
    ex_authority result decision) as (now & record & answer & w1 & w2 & _ & Ha & _ & _ & Hp & _).
  - reflexivity.
  - eapply run_alone_may. exact Hrun.
  - exists result, now. exact (conj Hp Ha).
Defined.

Definition ex_candidate : ActivationCandidate := mkCandidate ex_command ex_authority ax_digest ex_now.
Definition ex_stopped : MemoryStore := snd (activate_locked NewMemoryStore ex_candidate).

Lemma ex_scope_valid : ValidateScope ex_scope = Ok tt.
Proof. reflexivity. Qed.

#[local] Opaque activationDecision.

Lemma ex_stopped_ok : memory_ok ex_stopped.
Proof. exact (proj1 (activate_keeps _ _ new_memory_ok)). Qed.

Lemma ex_stopped_scope : memory_stopped ex_stopped ex_scope.
Proof.
  destruct (activate_locked NewMemoryStore ex_candidate) as [[[record answer]|err] m] eqn:Ha; [|discriminate Ha].
  assert (ex_stopped = m) as -> by (unfold ex_stopped; rewrite Ha; reflexivity).
  pose proof (activate_stops_memory NewMemoryStore ex_candidate record answer m new_memory_ok Ha) as Hstop.
  injection Ha as <- <- _. apply Hstop. discriminate.
Qed.

Lemma guard_is_exact_witness : exists state, effective_locked ex_stopped (ax_id "2") (ax_id "3") (ax_id "4") = (state, true) /\
  covers (st_Scope state) (ax_id "2") (ax_id "3") (ax_id "4").
Proof.
  pose proof ex_stopped_ok as Hok.
  assert (Hsc : scopes_valid ex_stopped) by (apply activate_scopes; [exact ex_scope_valid|]; intros key state H; discriminate H).
  pose proof ex_stopped_scope as Hst.
  pose proof (guard_is_exact ex_stopped (ax_id "2") (ax_id "3") (ax_id "4") Hok Hsc ex_scope_valid (fun _ => eq_refl)) as H.
  destruct (effective_locked ex_stopped (ax_id "2") (ax_id "3") (ax_id "4")) as [state active].
  destruct H as (Hiff & Hfound & _). assert (Hact : active = true) by (apply Hiff; exists ex_scope; split; [left; reflexivity|exact Hst]).
  exists state. rewrite Hact in Hfound |- *. exact (conj eq_refl (proj2 (Hfound eq_refl))).
Defined.

(** A decision that was reserved and not delivered *)
Definition ex_pending : MemoryStore :=
  putAudit NewMemoryStore (mkAuditRecord ax_digest zero_decision false).

Lemma ex_recovers : fst (run_alone (RecoverAudit ex_ctx 10) ex_pending) = (1, None).
Proof. vm_compute. reflexivity. Qed.

#[local] Opaque RecoverAudit.

Lemma recovery_drains_the_outbox_witness : exists w', run_alone (RecoverAudit ex_ctx 10) ex_pending = ((1, None), w') /\
  forall id r, ms_audits w' !! id = Some r -> ar_Delivered r = true.
Proof.
  pose proof ex_recovers as H. destruct (run_alone (RecoverAudit ex_ctx 10) ex_pending) as [a w'] eqn:Hr.
  cbn [fst] in H. rewrite H in Hr. exists w'. rewrite H. split; [reflexivity|].
  exact (recovery_drains_the_outbox ex_ctx 10 ex_pending 1 w' (putAudit_ok _ _ new_memory_ok) Hr eq_refl).
Defined.
