(* ===== verification/SecretRef.v ===== *)
(** * internal/domain/secretref: references to secrets

    A reference names an entry of an approved backend and holds no secret; a resolution
    request asks for it in the context of a case ([types.go]).  Their validation
    ([validate.go]), digests ([digest.go]), the audited decision ([decision.go]) and the errors
    ([errors.go]).  [Decode*] read JSON with repeated keys, which is not modelled. *)

From S2P Require Import Prelude GoStrings GoRegexp GoTime GoJson DomainContract Sha256 Domain GoStruct.

Local Open Scope string_scope.
Local Open Scope Z_scope.

(** ** types.go *)

Definition SchemaVersion : string := "coh.secret-reference/v1".
Definition ContractVersion : string := "1.0.0".

Record Reference : Type := mkReference {
  rf_SchemaVersion : string; rf_ContractVersion : string; rf_Backend : string; rf_EntryID : string; rf_Version : Z }.

Record Context : Type := mkContext {
  cx_OrganizationID : string; cx_TenantID : string; cx_CaseID : string; cx_ActorID : string }.

#[export] Instance Context_eq_dec : EqDecision Context.
Proof. solve_decision. Defined.

Record ResolutionRequest : Type := mkResolution {
  rr_SchemaVersion : string; rr_ContractVersion : string; rr_RequestID : string; rr_IdempotencyKey : string;
  rr_Context : Context; rr_ActionDigest : string; rr_CredentialClass : string; rr_Reference : Reference }.

Record AuthoritySnapshot : Type := mkSnapshot {
  as_Context : Context; as_Active : bool; as_ActorRevision : Z; as_AuthorizationDecisionDigest : string }.

(** ** errors.go *)

Inductive ErrorCode : Type := InvalidInput | Denied | Conflict | Canceled | Timeout | Unavailable.

Record Error : Type := secretError { err_Code : ErrorCode; err_Reason : string }.

Definition Code (err : go_error Error) : ErrorCode :=
  match errors_as err with
  | Some secretErr => err_Code secretErr
  | None => if errors_is_canceled err then Canceled else if errors_is_deadline err then Timeout else Unavailable
  end.

(** ** validate.go *)

Definition backend_regex : regex :=
  RCat lower_class (r_upto 63 (RChr (fun c => is_lower c || is_digit c || Ascii.eqb c "-"))).
Definition backendPattern (s : string) : bool := matches backend_regex s.

Definition forbiddenBackends (backend : string) : bool :=
  existsb (String.eqb backend) ["command"; "env"; "environment"; "inline"; "url"].

(** [strings.ToValidUTF8(value, "") == value] says that the text is valid UTF-8. *)
Definition validOpaque (value : string) (minimum maximum : Z) : bool :=
  (minimum <=? len value) && (len value <=? maximum) && valid_string value && negb (contains_any value [CR; LF; TAB]).

Definition validContext (context : Context) : bool :=
  uuidPattern (cx_OrganizationID context) && uuidPattern (cx_TenantID context) &&
  uuidPattern (cx_CaseID context) && uuidPattern (cx_ActorID context).

Definition ValidateReference (reference : Reference) : result Error unit :=
  deny_if (negb (String.eqb (rf_SchemaVersion reference) SchemaVersion) ||
           negb (String.eqb (rf_ContractVersion reference) ContractVersion))
    (secretError InvalidInput "unsupported_contract") ;;
  deny_if (negb (backendPattern (rf_Backend reference)) || negb (tokenPattern (rf_EntryID reference)) ||
           (rf_Version reference =? 0))
    (secretError InvalidInput "reference_identity") ;;
  deny_if (forbiddenBackends (rf_Backend reference)) (secretError Denied "forbidden_backend").

Definition ValidateResolutionRequest (request : ResolutionRequest) : result Error unit :=
  deny_if (negb (String.eqb (rr_SchemaVersion request) SchemaVersion) ||
           negb (String.eqb (rr_ContractVersion request) ContractVersion))
    (secretError InvalidInput "unsupported_contract") ;;
  deny_if (negb (uuidPattern (rr_RequestID request)) || negb (validContext (rr_Context request)) ||
           negb (validOpaque (rr_IdempotencyKey request) 1 128) || negb (digestPattern (rr_ActionDigest request)) ||
           negb (tokenPattern (rr_CredentialClass request)))
    (secretError InvalidInput "resolution_identity") ;;
  ValidateReference (rr_Reference request).

Definition ValidateAuthority (authority : AuthoritySnapshot) : result Error unit :=
  deny_if (negb (validContext (as_Context authority)) || (as_ActorRevision authority =? 0) ||
           negb (digestPattern (as_AuthorizationDecisionDigest authority)))
    (secretError InvalidInput "authority_invalid").

(** ** The struct tags *)

Definition reference_type : gtype := TStruct [
  ("schema_version", false, TString); ("contract_version", false, TString); ("backend", false, TString);
  ("entry_id", false, TString); ("version", false, TUint 64)].

Definition reference_val (r : Reference) : gval := VStruct [
  VStr (rf_SchemaVersion r); VStr (rf_ContractVersion r); VStr (rf_Backend r); VStr (rf_EntryID r); VUint (rf_Version r)].

Definition context_type : gtype := TStruct [
  ("organization_id", false, TString); ("tenant_id", false, TString); ("case_id", false, TString);
  ("actor_id", false, TString)].

Definition context_val (c : Context) : gval := VStruct [
  VStr (cx_OrganizationID c); VStr (cx_TenantID c); VStr (cx_CaseID c); VStr (cx_ActorID c)].

Definition resolution_type : gtype := TStruct [
  ("schema_version", false, TString); ("contract_version", false, TString); ("request_id", false, TString);
  ("idempotency_key", false, TString); ("context", false, context_type); ("action_digest", false, TString);
  ("credential_class", false, TString); ("reference", false, reference_type)].

Definition resolution_val (r : ResolutionRequest) : gval := VStruct [
  VStr (rr_SchemaVersion r); VStr (rr_ContractVersion r); VStr (rr_RequestID r); VStr (rr_IdempotencyKey r);
  context_val (rr_Context r); VStr (rr_ActionDigest r); VStr (rr_CredentialClass r); reference_val (rr_Reference r)].

(** ** digest.go *)

Definition ReferenceDigest (reference : Reference) : result Error string :=
  ValidateReference reference ;;
  Ok (digest (marshal true (encode reference_type (reference_val reference)))).

(** ** decision.go *)

Record Decision : Type := mkDecision {
  de_SchemaVersion : string; de_ContractVersion : string; de_DecisionDigest : string; de_Outcome : string;
  de_ReasonCode : string; de_RequestID : string; de_Context : Context; de_ActionDigest : string;
  de_CredentialClass : string; de_ReferenceDigest : string; de_Backend : string; de_ReferenceVersion : Z;
  de_ActorRevision : Z; de_AuthorityDigest : string; de_RecordRevision : Z; de_Replayed : bool }.

Definition decision_type : gtype := TStruct [
  ("schema_version", false, TString); ("contract_version", false, TString); ("decision_digest", false, TString);
  ("outcome", false, TString); ("reason_code", false, TString); ("request_id", true, TString);
  ("context", false, context_type); ("action_digest", true, TString); ("credential_class", true, TString);
  ("reference_digest", true, TString); ("backend", true, TString); ("reference_version", true, TUint 64);
  ("actor_revision", true, TUint 64); ("authority_digest", true, TString); ("record_revision", true, TUint 64);
  ("replayed", false, TBool)].

Definition decision_val (d : Decision) : gval := VStruct [
  VStr (de_SchemaVersion d); VStr (de_ContractVersion d); VStr (de_DecisionDigest d); VStr (de_Outcome d);
  VStr (de_ReasonCode d); VStr (de_RequestID d); context_val (de_Context d); VStr (de_ActionDigest d);
  VStr (de_CredentialClass d); VStr (de_ReferenceDigest d); VStr (de_Backend d); VUint (de_ReferenceVersion d);
  VUint (de_ActorRevision d); VStr (de_AuthorityDigest d); VUint (de_RecordRevision d); VBool (de_Replayed d)].

Definition RequestDigest (request : ResolutionRequest) : result Error string :=
  ValidateResolutionRequest request ;;
  Ok (digest (marshal true (encode resolution_type (resolution_val request)))).

Definition set_digest (d : Decision) (value : string) : Decision :=
  mkDecision (de_SchemaVersion d) (de_ContractVersion d) value (de_Outcome d) (de_ReasonCode d) (de_RequestID d)
    (de_Context d) (de_ActionDigest d) (de_CredentialClass d) (de_ReferenceDigest d) (de_Backend d)
    (de_ReferenceVersion d) (de_ActorRevision d) (de_AuthorityDigest d) (de_RecordRevision d) (de_Replayed d).

Definition finalizeDecision (decision : Decision) : Decision :=
  let blank := set_digest decision "" in
  set_digest blank (digest (marshal true (encode decision_type (decision_val blank)))).

Definition zero_context : Context := mkContext "" "" "" "".

(** [referenceDigest, _ := ReferenceDigest(reference)] *)
Definition reference_digest (reference : Reference) : string :=
  match ReferenceDigest reference with Ok value => value | Err _ => "" end.

Definition NewDecision (request : ResolutionRequest) (authority : AuthoritySnapshot) (outcome reason : string)
  (recordRevision : Z) (replayed : bool) : Decision :=
  let known := is_ok (ValidateAuthority authority) in
  let asked := is_ok (ValidateResolutionRequest request) in
  let context := if known then as_Context authority else zero_context in
  let context := if asked && bool_decide (context = zero_context) then rr_Context request else context in
  let given (value : string) := if asked then value else "" in
  finalizeDecision (mkDecision SchemaVersion ContractVersion "" outcome reason (given (rr_RequestID request)) context
    (given (rr_ActionDigest request)) (given (rr_CredentialClass request)) (given (reference_digest (rr_Reference request)))
    (given (rf_Backend (rr_Reference request))) (if asked then rf_Version (rr_Reference request) else 0)
    (if known then as_ActorRevision authority else 0) (if known then as_AuthorizationDecisionDigest authority else "")
    recordRevision replayed).
