(* ===== verification/SecretResolver.v ===== *)
(** * internal/broker/secretresolver: from a reference to a secret

    [Resolve] checks the request and the authority, fetches the entry from the approved
    backend, holds it against the scope of the request, refuses conflicting replays and audits
    the decision before the secret leaves ([resolver.go], [errors.go], [types.go]);
    [replay_memory.go] is the replay store, [sealed_memory.go] a backend with revisions,
    [audit_adapter.go] the durable audit sink.  Byte slices are values: overwriting them after
    use ([zero]) is not modelled, nor is the backend on files ([protected_file.go]). *)

From S2P Require Import Prelude GoStrings GoRegexp GoTime GoJson DomainContract Sha256 Domain GoStruct TamperAudit Storage Policy EStop EStopController SecretRef.

Local Open Scope string_scope.
Local Open Scope Z_scope.

(** ** types.go *)

Definition maximumSecretBytes : Z := 64 * 1024.

Record SecretRecord : Type := mkSecretRecord {
  sr_Backend : string; sr_EntryID : string; sr_Version : Z; sr_Revision : Z; sr_Active : bool;
  sr_OrganizationID : string; sr_TenantID : string; sr_AllCases : bool; sr_CaseIDs : list string;
  sr_CredentialClass : string; sr_Value : string }.

Record ReplayRecord : Type := mkReplayRecord {
  rp_OrganizationID : string; rp_ActorID : string; rp_IdempotencyKey : string; rp_RequestDigest : string }.

Definition ReplayNew : string := "new".
Definition ReplayExact : string := "exact_replay".
Definition ReplayConflict : string := "conflict".

(** [ErrNotFound] *)
Inductive not_found : Type := ErrNotFound.

Record Backend (W : Type) : Type := mkBackend {
  be_Name : string; be_Fetch : context W -> Reference -> routine W (result (go_error not_found) SecretRecord) }.
Arguments mkBackend {W} _ _.
Arguments be_Name {W} _.
Arguments be_Fetch {W} _ _ _.

Class ResolverPorts (W : Type) : Type := {
  AppendSecretDecision : context W -> Decision -> prog W unit unit;
  CheckAndStore : context W -> ReplayRecord -> prog W (go_error Error) string }.

(** ** errors.go *)

Definition resolverError (code : ErrorCode) (reason : string) : go_error Error := EOwn (secretError code reason).

(** No context is nil. *)
Definition secretContextError {W} (ctx : context W) (w : W) : option (go_error Error) :=
  match ctx with
  | None => None
  | Some err =>
      match err w with
      | Some DoneDeadlineExceeded => Some (resolverError Timeout "request_timeout")
      | Some DoneCanceled => Some (resolverError Canceled "request_canceled")
      | None => None
      end
  end.

Definition secret_reason (err : go_error Error) : string :=
  match errors_as err with Some secretErr => err_Reason secretErr | None => "secret_resolution_unavailable" end.

(** ** resolver.go: validation

    [validUUID], [validToken] and [validSHA256Digest] are written as in the package of
    emergency stops. *)

Definition secret_validUUID : string -> bool := EStop.validUUID.
Definition secret_validToken : string -> bool := EStop.validToken.
Definition validSHA256Digest : string -> bool := EStop.validDigest.

Definition validBackendName (value : string) : bool :=
  if String.eqb value "" || (64 <? len value) || negb (is_lower (char_at 0 value)) then false
  else all_indexed (fun _ c => is_lower c || is_digit c || Ascii.eqb c "-") 0 value.

Definition validCaseGrant (record : SecretRecord) : bool :=
  if sr_AllCases record then match sr_CaseIDs record with [] => true | _ => false end
  else match sr_CaseIDs record with
       | [] => false
       | ids => is_sorted ids && forallb secret_validUUID ids && negb (adjacent_equal ids)
       end.

Definition validateRecordMetadata (record : SecretRecord) : result Error unit :=
  deny_if (negb (validBackendName (sr_Backend record)) || negb (secret_validToken (sr_EntryID record)) ||
           (sr_Version record =? 0) || (sr_Revision record =? 0) || negb (secret_validUUID (sr_OrganizationID record)) ||
           negb (secret_validUUID (sr_TenantID record)) || negb (secret_validToken (sr_CredentialClass record)) ||
           negb (validCaseGrant record))
    (secretError InvalidInput "backend_record_invalid").

Definition validateRecord (record : SecretRecord) (value : string) : result Error unit :=
  deny_if (negb (is_ok (validateRecordMetadata record)) || (len value =? 0) || (maximumSecretBytes <? len value))
    (secretError Denied "backend_record_invalid").

Definition caseAllowed (record : SecretRecord) (caseID : string) : bool :=
  sr_AllCases record || existsb (String.eqb caseID) (sr_CaseIDs record).

Definition decisionFor (request : ResolutionRequest) (authority : AuthoritySnapshot) (err : option (go_error Error))
  (revision : Z) (replayed : bool) : Decision :=
  match err with
  | None => NewDecision request authority "allowed" "secret_scope_allowed" revision replayed
  | Some err =>
      let outcome := match Code err with
                     | InvalidInput => "invalid"
                     | Denied | Conflict => "denied"
                     | Canceled => "canceled"
                     | Timeout => "timeout"
                     | Unavailable => "unavailable"
                     end in
      NewDecision request authority outcome (secret_reason err) revision replayed
  end.

(** The checks of [Resolve] on the entry that was fetched *)
Definition check_entry (request : ResolutionRequest) (record : SecretRecord) : result Error unit :=
  validateRecord record (sr_Value record) ;;
  deny_if (negb (sr_Active record)) (secretError Denied "secret_revoked") ;;
  deny_if (negb (String.eqb (sr_Backend record) (rf_Backend (rr_Reference request))) ||
           negb (String.eqb (sr_EntryID record) (rf_EntryID (rr_Reference request))))
    (secretError Denied "reference_mismatch") ;;
  deny_if (negb (sr_Version record =? rf_Version (rr_Reference request))) (secretError Denied "stale_reference") ;;
  deny_if (negb (String.eqb (sr_OrganizationID record) (cx_OrganizationID (rr_Context request))) ||
           negb (String.eqb (sr_TenantID record) (cx_TenantID (rr_Context request))) ||
           negb (String.eqb (sr_CredentialClass record) (rr_CredentialClass request)) ||
           negb (caseAllowed record (cx_CaseID (rr_Context request))))
    (secretError Denied "secret_scope_denied").

(** The checks of [Resolve] before the backend is asked *)
Definition check_request (request : ResolutionRequest) (authority : AuthoritySnapshot) : result Error unit :=
  ValidateResolutionRequest request ;;
  ValidateAuthority authority ;;
  deny_if (negb (bool_decide (as_Context authority = rr_Context request))) (secretError Denied "authority_scope_mismatch") ;;
  deny_if (negb (as_Active authority)) (secretError Denied "actor_revoked").

(** [New]: the registry of backends by name; no backend is nil. *)
Fixpoint register {W} (registry : gmap string (Backend W)) (backends : list (Backend W)) : result Error (gmap string (Backend W)) :=
  match backends with
  | [] => Ok registry
  | backend :: rest =>
      deny_if (negb (validBackendName (be_Name backend))) (secretError InvalidInput "backend_invalid") ;;
      deny_if (match registry !! be_Name backend with Some _ => true | None => false end)
        (secretError Conflict "backend_conflict") ;;
      register (<[be_Name backend := backend]> registry) rest
  end.

Definition NewResolver {W} (backends : list (Backend W)) (audit_nil replay_nil : bool) : result Error (gmap string (Backend W)) :=
  deny_if (match backends with [] => true | _ => false end || audit_nil || replay_nil)
    (secretError InvalidInput "resolver_configuration_invalid") ;;
  register ∅ backends.

(** ** resolver.go: Resolve *)

Section resolver.
Context {W : Type} {ports : ResolverPorts W}.

(** The secret, if there is one; the decision; the error *)
Definition resolution : Type := option string * Decision * option (go_error Error).

(** [Resolver.record] *)
Definition record_secret (ctx : context W) (request : ResolutionRequest) (authority : AuthoritySnapshot) (value : string)
  (resultErr : option (go_error Error)) (revision : Z) (replayed : bool) : routine W resolution :=
  let decision := decisionFor request authority resultErr revision replayed in
  appended ← calls (AppendSecretDecision ctx decision);
  match appended with
  | Err _ =>
      let auditErr := resolverError Unavailable "audit_unavailable" in
      mret (None, decisionFor request authority (Some auditErr) revision false, Some auditErr)
  | Ok _ =>
      match resultErr with
      | Some err => mret (None, decision, Some err)
      | None => mret (Some value, decision, None)
      end
  end.

Definition Resolve (backends : gmap string (Backend W)) (ctx : context W) (request : ResolutionRequest)
  (authority : AuthoritySnapshot) : routine W resolution :=
  let refuse err := record_secret ctx request authority "" (Some err) 0 false in
  ready ← calls (fun w => (secretContextError ctx w, w));
  match ready, check_request request authority with
  | Some err, _ => refuse err
  | None, Err err => refuse (EOwn err)
  | None, Ok _ =>
      match backends !! rf_Backend (rr_Reference request) with
      | None => refuse (resolverError Denied "backend_not_approved")
      | Some backend =>
          fetched ← be_Fetch backend ctx (rr_Reference request);
          match fetched with
          | Err err =>
              match errors_as err with
              | Some ErrNotFound => refuse (resolverError Denied "reference_not_found")
              | None =>
                  contextErr ← calls (fun w => (secretContextError ctx w, w));
                  refuse (default (resolverError Unavailable "backend_unavailable") contextErr)
              end
          | Ok record =>
              let answer err replayed := record_secret ctx request authority (sr_Value record) err (sr_Revision record) replayed in
              match check_entry request record with
              | Err err => answer (Some (EOwn err)) false
              | Ok _ =>
                  let requestDigest := match RequestDigest request with Ok value => value | Err _ => "" end in
                  replay ← calls (CheckAndStore ctx (mkReplayRecord (cx_OrganizationID (rr_Context request))
                    (cx_ActorID (rr_Context request)) (rr_IdempotencyKey request) requestDigest));
                  match replay with
                  | Err _ =>
                      contextErr ← calls (fun w => (secretContextError ctx w, w));
                      answer (Some (default (resolverError Unavailable "replay_store_unavailable") contextErr)) false
                  | Ok replay =>
                      if String.eqb replay ReplayNew then answer None false
                      else if String.eqb replay ReplayExact then answer None true
                      else if String.eqb replay ReplayConflict then
                        answer (Some (resolverError Conflict "idempotency_conflict")) false
                      else answer (Some (resolverError Unavailable "replay_store_unavailable")) false
                  end
              end
          end
      end
  end.
End resolver.

(** ** replay_memory.go *)

Definition NULs : string := String NUL "".

(** [ctx.Err()] *)
Definition secret_ctx_err {W E} (ctx : context W) (w : W) : option (go_error E) :=
  match ctx with
  | None => None
  | Some err => (fun reason => match reason with DoneCanceled => ECanceled | DoneDeadlineExceeded => EDeadlineExceeded end) <$> err w
  end.

Definition replay_key (record : ReplayRecord) : string :=
  rp_OrganizationID record ++ NULs ++ rp_ActorID record ++ NULs ++ rp_IdempotencyKey record.

(** [CheckAndStore] of a [MemoryReplayStore], once the context is known to be live *)
Definition replay_check (records : gmap string ReplayRecord) (record : ReplayRecord)
  : result (go_error Error) string * gmap string ReplayRecord :=
  if negb (secret_validUUID (rp_OrganizationID record)) || negb (secret_validUUID (rp_ActorID record)) ||
     String.eqb (rp_IdempotencyKey record) "" || (128 <? len (rp_IdempotencyKey record)) ||
     contains_any (rp_IdempotencyKey record) [CR; LF; TAB] || negb (validSHA256Digest (rp_RequestDigest record))
  then (Err (resolverError InvalidInput "replay_record_invalid"), records)
  else
    match records !! replay_key record with
    | None => (Ok ReplayNew, <[replay_key record := record]> records)
    | Some previous =>
        if String.eqb (rp_RequestDigest previous) (rp_RequestDigest record) then (Ok ReplayExact, records)
        else (Ok ReplayConflict, records)
    end.

(** ** sealed_memory.go *)

Definition sealedMemoryBackendName : string := "sealed-memory".

Record SealedMemory : Type := mkSealed { sm_entries : gmap string SecretRecord; sm_closed : bool }.

(** The entries of the argument are not aliases of each other. *)
Fixpoint seal_entries (seen : gmap string SecretRecord) (entries : list SecretRecord) : result Error (gmap string SecretRecord) :=
  match entries with
  | [] => Ok seen
  | entry :: rest =>
      deny_if (negb (String.eqb (sr_Backend entry) sealedMemoryBackendName) || negb (is_ok (validateRecord entry (sr_Value entry))))
        (secretError InvalidInput "sealed_entry_invalid") ;;
      deny_if (match seen !! sr_EntryID entry with Some _ => true | None => false end)
        (secretError Conflict "sealed_entry_conflict") ;;
      seal_entries (<[sr_EntryID entry := entry]> seen) rest
  end.

Definition NewSealedMemoryBackend (entries : list SecretRecord) : result Error SealedMemory :=
  sealed ← seal_entries ∅ entries; Ok (mkSealed sealed false).

(** The critical section of [Fetch] *)
Definition sealed_fetch (backend : SealedMemory) (reference : Reference) : result (go_error not_found) SecretRecord :=
  if sm_closed backend then Err (EOther [])
  else if negb (is_ok (ValidateReference reference)) || negb (String.eqb (rf_Backend reference) sealedMemoryBackendName)
  then Err (EOwn ErrNotFound)
  else match sm_entries backend !! rf_EntryID reference with
       | None => Err (EOwn ErrNotFound)
       | Some record => Ok record
       end.

(** The revision and the version of a replacement: revisions and versions are 64-bit. *)
Definition may_replace (current next : SecretRecord) : bool :=
  (sr_Revision next =? u64 (sr_Revision current + 1)) && negb (sr_Version next <? sr_Version current) &&
  negb (u64 (sr_Version current + 1) <? sr_Version next) &&
  negb ((sr_Version next =? sr_Version current) && negb (String.eqb (sr_Value next) (sr_Value current))).

Definition Replace (backend : SealedMemory) (next : SecretRecord) : result Error unit * SealedMemory :=
  if negb (String.eqb (sr_Backend next) sealedMemoryBackendName) || negb (is_ok (validateRecord next (sr_Value next)))
  then (Err (secretError InvalidInput "sealed_entry_invalid"), backend)
  else if sm_closed backend then (Err (secretError Unavailable "sealed_backend_closed"), backend)
  else
    match sm_entries backend !! sr_EntryID next with
    | Some current =>
        if may_replace current next
        then (Ok tt, mkSealed (<[sr_EntryID next := next]> (sm_entries backend)) false)
        else (Err (secretError Conflict "sealed_revision_conflict"), backend)
    | None => (Err (secretError Conflict "sealed_revision_conflict"), backend)
    end.

Definition CloseSealed (backend : SealedMemory) : SealedMemory :=
  if sm_closed backend then backend else mkSealed ∅ true.

(** ** audit_adapter.go *)

Definition secret_audit_event (decision : Decision) : TamperAudit.Event :=
  TamperAudit.mkEvent TamperAudit.EventSchemaVersion TamperAudit.ContractVersion (de_RequestID decision)
    (cx_OrganizationID (de_Context decision)) (cx_TenantID (de_Context decision)) (cx_CaseID (de_Context decision))
    (cx_ActorID (de_Context decision)) (de_ActorRevision decision) SchemaVersion "secret_resolution" (de_Outcome decision)
    (de_ReasonCode decision) (de_RequestID decision) (de_RecordRevision decision) (de_ActionDigest decision)
    (Some (evidence_set [de_DecisionDigest decision; de_ReferenceDigest decision; de_AuthorityDigest decision])) "".

(** [DurableAuditSink.AppendSecretDecision], over the appender of the sink *)
Definition AppendSecretEvent {W E} (AppendAuditEvent : TamperAudit.Event -> prog W E unit) (decision : Decision)
  : prog W Error unit :=
  let unavailable := secretError Unavailable "audit_unavailable" in
  pure (or_err (TamperAudit.ValidateEvent (secret_audit_event decision)) unavailable) ;;
  map_err (fun _ => unavailable) (AppendAuditEvent (secret_audit_event decision)).
