(* ===== verification/SecretResolverFacts.v ===== *)
(** * Secrets: what is resolved, and what a version of a secret is

    A secret that [Resolve] returns is the value of an active entry, in the version the
    reference names, granted to the case, and the decision it returns with it, which is the one
    in the audit log, says so; and a version of an entry of the sealed backend never
    changes its bytes. *)

From S2P Require Import Prelude GoStrings GoRegexp GoTime GoJson DomainContract Sha256 Domain GoStruct TamperAudit Storage Policy EStop EStopController EStopStore EStopFacts SecretRef SecretResolver.

Local Open Scope string_scope.
Local Open Scope Z_scope.

(** ** Resolution *)

(** The entry grants its value to the request. *)
Record grants (record : SecretRecord) (request : ResolutionRequest) : Prop := {
  gr_active : sr_Active record = true;
  gr_entry : sr_Backend record = rf_Backend (rr_Reference request) /\ sr_EntryID record = rf_EntryID (rr_Reference request);
  gr_version : sr_Version record = rf_Version (rr_Reference request);
  gr_tenant : sr_OrganizationID record = cx_OrganizationID (rr_Context request) /\
    sr_TenantID record = cx_TenantID (rr_Context request);
  gr_class : sr_CredentialClass record = rr_CredentialClass request;
  gr_case : sr_AllCases record = true \/ In (cx_CaseID (rr_Context request)) (sr_CaseIDs record);
  gr_size : 1 <= len (sr_Value record) <= maximumSecretBytes }.

Lemma check_entry_grants request record : check_entry request record = Ok tt -> grants record request.
Proof.
  unfold check_entry, validateRecord. rewrite !seq_ok, !deny_if_ok. intros (H0 & H1 & H2 & H3 & H4). bool_split.
  repeat match goal with H : String.eqb _ _ = true |- _ => apply String.eqb_eq in H end.
  split; try done.
  - by apply Z.eqb_eq.
  - match goal with H : caseAllowed _ _ = true |- _ => unfold caseAllowed in H; apply orb_true_iff in H as [H|H] end; [by left|right].
    match goal with H : existsb _ _ = true |- _ => apply existsb_exists in H as (c & Hc & ->%String.eqb_eq) end. done.
  - match goal with H : (len _ =? 0) = false |- _ => apply Z.eqb_neq in H end.
    match goal with H : (_ <? len _) = false |- _ => apply Z.ltb_ge in H end. unfold len in *. lia.
Qed.

(** The decision permits the request: it says "allowed", about the request, the reference and
    the authority that were presented and the revision of the entry whose value is given, and
    carries the digest of exactly these fields. *)
Record permits (request : ResolutionRequest) (authority : AuthoritySnapshot) (record : SecretRecord) (decision : Decision) : Prop := {
  pm_outcome : de_Outcome decision = "allowed" /\ de_ReasonCode decision = "secret_scope_allowed";
  pm_request : de_RequestID decision = rr_RequestID request /\ de_Context decision = rr_Context request /\
    de_ActionDigest decision = rr_ActionDigest request /\ de_CredentialClass decision = rr_CredentialClass request;
  pm_reference : ReferenceDigest (rr_Reference request) = Ok (de_ReferenceDigest decision) /\
    de_Backend decision = rf_Backend (rr_Reference request) /\ de_ReferenceVersion decision = rf_Version (rr_Reference request);
  pm_authority : as_Context authority = rr_Context request /\ as_Active authority = true /\
    de_ActorRevision decision = as_ActorRevision authority /\
    de_AuthorityDigest decision = as_AuthorizationDecisionDigest authority;
  pm_revision : de_RecordRevision decision = sr_Revision record;
  pm_digest : de_DecisionDigest decision =
    digest (marshal true (encode decision_type (decision_val (set_digest decision "")))) }.

#[local] Opaque digest marshal encode.

Lemma decisionFor_permits request authority record replayed : check_request request authority = Ok tt ->
  permits request authority record (decisionFor request authority None (sr_Revision record) replayed).
Proof.
  unfold check_request. rewrite !seq_ok, !deny_if_ok. intros (Hasked & Hknown & Hscope & Hactive).
  apply negb_false_iff in Hactive. apply negb_false_iff, bool_decide_eq_true in Hscope.
  assert (Href : ValidateReference (rr_Reference request) = Ok tt) by (unfold ValidateResolutionRequest in Hasked; rewrite !seq_ok in Hasked; tauto).
  unfold decisionFor, NewDecision. rewrite Hasked, Hknown. cbn [is_ok]. cbv zeta.
  split; [by split| | | |done..].
  - split_and!; [done| |done..]. cbn. rewrite Hscope. by case_match.
  - split_and!; [|done..]. cbn. unfold reference_digest, ReferenceDigest. by rewrite Href.
  - by split_and!.
Qed.

Section resolve.
Context {W : Type} {ports : ResolverPorts W}.

Lemma record_secret_may ctx request authority value err revision replayed secret decision e :
  may_return (record_secret ctx request authority value err revision replayed) (Some secret, decision, e) ->
  err = None /\ e = None /\ secret = value /\ decision = decisionFor request authority None revision replayed /\
  exists w w', AppendSecretDecision ctx decision w = (Ok tt, w').
Proof.
  unfold record_secret. intros (appended & (w & w' & Ha)%may_calls & H)%may_bind. destruct appended as [[]|u]; [|done].
  destruct err as [err|]; [done|]. injection H as -> -> ->. split_and!; [done..|by exists w, w'].
Qed.

(** What stands behind a secret that is resolved *)
Lemma resolve_granted backends ctx request authority secret decision e :
  may_return (Resolve backends ctx request authority) (Some secret, decision, e) ->
  e = None /\ check_request request authority = Ok tt /\
  (exists backend record, backends !! rf_Backend (rr_Reference request) = Some backend /\
     may_return (be_Fetch backend ctx (rr_Reference request)) (Ok record) /\
     grants record request /\ secret = sr_Value record /\ permits request authority record decision) /\
  exists w w', AppendSecretDecision ctx decision w = (Ok tt, w').
Proof.
  assert (Href : forall err revision value, ~ may_return (record_secret ctx request authority value (Some err) revision false)
    (Some secret, decision, e)).
  { intros err revision value H. by apply record_secret_may in H as [? _]. }
  unfold Resolve. intros (ready & _ & H)%may_bind. destruct ready as [err|]; [by apply Href in H|].
  destruct (check_request request authority) as [[]|err] eqn:Hcheck; [|by apply Href in H].
  destruct (backends !! _) as [backend|]; [|by apply Href in H].
  apply may_bind in H as (fetched & Hf & H). destruct fetched as [record|err].
  2:{ destruct (errors_as err) as [[]|]; [by apply Href in H|]. by apply may_bind in H as (c & _ & H%Href). }
  destruct (check_entry request record) as [[]|err] eqn:Hentry; [|by apply Href in H].
  apply may_bind in H as (replay & _ & H). destruct replay as [replay|err]; [|by apply may_bind in H as (c & _ & H%Href)].
  assert (Hend : exists replayed,
    may_return (record_secret ctx request authority (sr_Value record) None (sr_Revision record) replayed) (Some secret, decision, e)).
  { destruct (String.eqb replay ReplayNew); [by eauto|]. destruct (String.eqb replay ReplayExact); [by eauto|].
    destruct (String.eqb replay ReplayConflict); by apply Href in H. }
  destruct Hend as (replayed & Hend). apply record_secret_may in Hend as (_ & -> & -> & -> & Ha).
  split_and!; [done..| |done]. exists backend, record. split_and!; [done..| |done|].
  - by apply check_entry_grants.
  - by apply decisionFor_permits.
Qed.
End resolve.

(** ** The replay store *)

(** The replay store binds an idempotency key to one request: after a check that did not
    fail, later checks under the same key answer that the request is an exact replay when its
    digest is the first one's, and a conflict otherwise; no check changes what is bound. *)
Theorem replay_store_binds_keys records record answer records' other : replay_check records record = (Ok answer, records') ->
  replay_key other = replay_key record ->
  (forall key r, records !! key = Some r -> records' !! key = Some r) /\
  exists bound, records' !! replay_key record = Some bound /\
    (answer <> ReplayConflict -> rp_RequestDigest bound = rp_RequestDigest record) /\
    forall answer' records'', replay_check records' other = (Ok answer', records'') ->
      records'' = records' /\
      answer' = if String.eqb (rp_RequestDigest bound) (rp_RequestDigest other) then ReplayExact else ReplayConflict.
Proof.
  intros H Hkey. unfold replay_check in *. destruct (negb (secret_validUUID (rp_OrganizationID record)) || _ || _ || _ || _ || _); [done|].
  rewrite Hkey. destruct (records !! replay_key record) as [previous|] eqn:Hp.
  - assert (records' = records) as -> by (by destruct (String.eqb _ _); injection H). split; [done|]. exists previous. split; [done|]. split.
    { destruct (String.eqb_spec (rp_RequestDigest previous) (rp_RequestDigest record)); [done|]. injection H as <-. by intros []. }
    intros answer' records''. rewrite Hp. destruct (_ || _ || _ || _ || _ || _); [done|].
    by destruct (String.eqb (rp_RequestDigest previous) (rp_RequestDigest other)); intros [= <- <-].
  - injection H as <- <-. split; [intros key r Hr; rewrite lookup_insert_ne; congruence|]. exists record. rewrite lookup_insert_eq.
    split_and!; [done..|]. intros answer' records''. destruct (_ || _ || _ || _ || _ || _); [done|].
    by destruct (String.eqb (rp_RequestDigest record) (rp_RequestDigest other)); intros [= <- <-].
Qed.

(** ** The sealed backend *)

(** [None] closes the backend. *)
Definition sealed_op (backend : SealedMemory) (op : option SecretRecord) : SealedMemory :=
  match op with Some next => snd (Replace backend next) | None => CloseSealed backend end.

Definition sr_typed (r : SecretRecord) : Prop := is_u64 (sr_Version r) /\ is_u64 (sr_Revision r).

(** An entry and what it was replaced with: newer, and the same bytes in the same version *)
Definition supersedes (r r' : SecretRecord) : Prop :=
  sr_Version r <= sr_Version r' /\ sr_Revision r <= sr_Revision r' /\
  (sr_Version r = sr_Version r' -> sr_Value r = sr_Value r') /\ (sr_Revision r = sr_Revision r' -> r = r').

Lemma supersedes_refl r : supersedes r r.
Proof. unfold supersedes. split_and!; (done || lia). Qed.

Lemma supersedes_trans r1 r2 r3 : supersedes r1 r2 -> supersedes r2 r3 -> supersedes r1 r3.
Proof.
  intros (A & B & C & D) (A' & B' & C' & D'). unfold supersedes. split_and!; [lia..| |].
  - intros E. rewrite C, C'; [done|lia|lia].
  - intros E. rewrite D, D'; [done|lia|lia].
Qed.

Lemma may_replace_supersedes current next : is_u64 (sr_Revision current) -> 0 < sr_Revision next ->
  may_replace current next = true -> supersedes current next.
Proof.
  unfold may_replace, is_u64, u64. intros Hc Hpos H. bool_split.
  repeat match goal with
  | H : (_ =? _) = true |- _ => apply Z.eqb_eq in H
  | H : (_ <? _) = false |- _ => apply Z.ltb_ge in H
  end.
  assert (Hrev : sr_Revision next = sr_Revision current + 1).
  { destruct (decide (sr_Revision current = 2 ^ 64 - 1)) as [E|]; 
      match goal with H : sr_Revision next = _ |- _ => rename H into Hnext end.
    - rewrite E in Hnext. change ((2 ^ 64 - 1 + 1) mod 2 ^ 64) with 0 in Hnext. lia.
    - rewrite Z.mod_small in Hnext; lia. }
  unfold supersedes. split_and!; [lia..| |lia]. intros E.
  match goal with H : (_ && _) = false |- _ => rewrite <- E, Z.eqb_refl in H; apply negb_false_iff, String.eqb_eq in H end. done.
Qed.

Lemma validateRecord_revision r value : validateRecord r value = Ok tt -> sr_Revision r <> 0.
Proof.
  unfold validateRecord. rewrite deny_if_ok. intros H. bool_split. apply is_ok_true in H as [[] H].
  unfold validateRecordMetadata in H. rewrite deny_if_ok in H. bool_split.
  match goal with H : (sr_Revision r =? 0) = false |- _ => by apply Z.eqb_neq in H end.
Qed.

Definition entries_typed (backend : SealedMemory) : Prop := forall id r, sm_entries backend !! id = Some r -> sr_typed r.

Lemma sealed_op_step backend op : entries_typed backend -> (forall next, op = Some next -> sr_typed next) ->
  entries_typed (sealed_op backend op) /\
  forall id r', sm_entries (sealed_op backend op) !! id = Some r' ->
    exists r, sm_entries backend !! id = Some r /\ supersedes r r'.
Proof.
  assert (Hsame : entries_typed backend -> entries_typed backend /\ forall id r', sm_entries backend !! id = Some r' ->
    exists r, sm_entries backend !! id = Some r /\ supersedes r r').
  { intros Ht. split; [done|]. intros id r' Hr. exists r'. split; [done|apply supersedes_refl]. }
  intros Ht Hop. destruct op as [next|]; cbn.
  - unfold Replace. destruct (negb (String.eqb (sr_Backend next) _) || _) eqn:Hv; [by apply Hsame|].
    destruct (sm_closed backend); [by apply Hsame|]. destruct (sm_entries backend !! sr_EntryID next) as [current|] eqn:Hc; [|by apply Hsame].
    destruct (may_replace current next) eqn:Hm; [|by apply Hsame]. cbn. bool_split. specialize (Hop next eq_refl).
    assert (Hs : supersedes current next).
    { apply may_replace_supersedes; [by eapply Ht| |done].
      match goal with H : is_ok _ = true |- _ => apply is_ok_true in H as [[] Hok%validateRecord_revision] end.
      destruct Hop as [_ Hu]. unfold is_u64 in Hu. lia. }
    split; intros id r'; cbn; rewrite lookup_insert_Some; intros [[<- <-]|[Hne Hr]]; [done|by eapply Ht|by exists current|].
    exists r'. split; [done|apply supersedes_refl].
  - unfold CloseSealed. destruct (sm_closed backend); [by apply Hsame|]. split; intros id r'; cbn; by rewrite lookup_empty.
Qed.

(** C24. A version of a sealed secret is immutable: after any replacements (and the closing of
    the backend), an entry that can still be fetched has a version and a revision no older
    than before, the same bytes if it has the same version, and is the same entry if it has
    the same revision.  A reference that pins a version can therefore never resolve to other
    bytes; the 64-bit revision stops at its maximum instead of wrapping. *)
Theorem sealed_versions_are_immutable backend ops reference record record' :
  entries_typed backend -> Forall (fun op => forall next, op = Some next -> sr_typed next) ops ->
  sealed_fetch backend reference = Ok record ->
  sealed_fetch (fold_left sealed_op ops backend) reference = Ok record' ->
  sr_Version record <= sr_Version record' /\ sr_Revision record <= sr_Revision record' /\
  (sr_Version record = sr_Version record' -> sr_Value record = sr_Value record') /\
  (sr_Revision record = sr_Revision record' -> record = record').
Proof.
  intros Ht Hops Hf Hf'.
  assert (Hfound : forall b r, sealed_fetch b reference = Ok r -> sm_entries b !! rf_EntryID reference = Some r).
  { intros b r. unfold sealed_fetch. destruct (sm_closed b); [done|]. destruct (_ || _); [done|].
    destruct (sm_entries b !! _) as [x|]; [|done]. by intros [= ->]. }
  apply Hfound in Hf, Hf'. clear Hfound. enough (Hs : supersedes record record') by exact Hs.
  revert backend record Ht Hf Hf'. induction Hops as [|op ops Hop Hops IH]; intros backend record Ht Hf Hf'; cbn in Hf'.
  { assert (record = record') as -> by congruence. apply supersedes_refl. }
  destruct (sealed_op_step backend op Ht Hop) as [Ht1 Hback].
  assert (Hmid : forall ops b, entries_typed b -> Forall (fun op => forall next, op = Some next -> sr_typed next) ops ->
    forall r', sm_entries (fold_left sealed_op ops b) !! rf_EntryID reference = Some r' ->
    exists r, sm_entries b !! rf_EntryID reference = Some r).
  { clear. induction ops as [|op ops IH]; intros b Hb Hall r' Hr; [by exists r'|]. apply Forall_cons in Hall as [Hop Hall].
    destruct (sealed_op_step b op Hb Hop) as [Hb1 Hback]. destruct (IH _ Hb1 Hall _ Hr) as (r & Hr1).
    destruct (Hback _ _ Hr1) as (r0 & Hr0 & _). by exists r0. }
  destruct (Hmid ops _ Ht1 Hops _ Hf') as (r1 & Hr1). destruct (Hback _ _ Hr1) as (r0 & Hr0 & Hs0).
  assert (r0 = record) as -> by congruence. eapply supersedes_trans; [done|]. by eapply IH.
Qed.
