(* ===== verification/CredentialLease.v ===== *)
(** * internal/domain/credentiallease: the contract of credential leases

    A lease lets one connector or runner use one credential once, for one action of one
    case, within minutes.  The request for a lease, the authority it is issued under, the scope
    presented at its use and the reasons to revoke it ([types.go]), with their validation
    ([validate.go]), digests ([digest.go]), audited decisions ([decision.go]) and errors
    ([errors.go]).  [DecodeIssuanceRequest] reads JSON with repeated keys, which is not
    modelled. *)

From S2P Require Import Prelude GoStrings GoRegexp GoTime GoJson DomainContract Sha256 Domain GoStruct Storage EStop SecretRef.

Local Open Scope string_scope.
Local Open Scope Z_scope.

(** ** types.go *)

Definition SchemaVersion : string := "coh.credential-lease/v1".
Definition ContractVersion : string := "1.0.0".
Definition MaximumTTLSeconds : Z := 300.

Record Audience : Type := mkAudience { au_Kind : string; au_ID : string; au_TransportIdentityDigest : string }.

#[export] Instance Audience_eq_dec : EqDecision Audience.
Proof. solve_decision. Defined.

(** [TargetDigests] is a slice: [None] is the nil slice. *)
Record IssuanceRequest : Type := mkIssuance {
  iq_SchemaVersion : string; iq_ContractVersion : string; iq_RequestID : string; iq_IdempotencyKey : string;
  iq_Context : Context; iq_TaskID : string; iq_ActionDigest : string; iq_TargetDigests : option (list string);
  iq_Operation : string; iq_Audience : Audience; iq_CredentialClass : string; iq_Reference : Reference;
  iq_RequestedTTLSeconds : Z }.

Record AudienceAuthority : Type := mkAudienceAuthority {
  aa_Audience : Audience; aa_Active : bool; aa_Revision : Z; aa_Remote : bool; aa_MutualTLS : bool; aa_ObservedAt : Time }.

Record IssuanceAuthority : Type := mkIssuanceAuthority {
  ia_Context : Context; ia_Active : bool; ia_ActorRevision : Z; ia_AuthorizationAllowed : bool;
  ia_AuthorizationDecisionDigest : string; ia_PolicyAllowed : bool; ia_PolicyDecisionDigest : string;
  ia_ApprovalRequired : bool; ia_ApprovalAllowed : bool; ia_ApprovalDecisionDigest : string;
  ia_Audience : AudienceAuthority }.

Record DispatchRequest : Type := mkDispatch {
  dr_Context : Context; dr_TaskID : string; dr_ActionDigest : string; dr_TargetDigests : option (list string);
  dr_Operation : string; dr_Audience : Audience }.

Record DispatchAuthority : Type := mkDispatchAuthority {
  da_IssuanceAuthority : IssuanceAuthority; da_TaskActive : bool; da_EmergencyStopActive : bool }.

Record RevocationRequest : Type := mkRevocation { rv_LeaseID : string; rv_Reason : string }.

(** The zero values *)
Definition zero_audience : Audience := mkAudience "" "" "".
Definition zero_reference : Reference := mkReference "" "" "" "" 0.
Definition zero_request : IssuanceRequest :=
  mkIssuance "" "" "" "" zero_context "" "" None "" zero_audience "" zero_reference 0.
Definition zero_authority : IssuanceAuthority :=
  mkIssuanceAuthority zero_context false 0 false "" false "" false false "" (mkAudienceAuthority zero_audience false 0 false false zero_time).

(** The elements of a slice *)
Definition elements (slice : option (list string)) : list string := default [] slice.

(** ** errors.go *)

Inductive ErrorCode : Type := InvalidInput | Denied | Conflict | Canceled | Timeout | Unavailable.

Record Error : Type := leaseError { err_Code : ErrorCode; err_Reason : string }.

Definition Code (err : go_error Error) : ErrorCode :=
  match errors_as err with
  | Some leaseErr => err_Code leaseErr
  | None => if errors_is_canceled err then Canceled else if errors_is_deadline err then Timeout else Unavailable
  end.

(** ** validate.go

    [validUUID], [validDigest], [validToken] and [validOpaque] are written as in the package
    of emergency stops. *)

Definition validUUID : string -> bool := EStop.validUUID.
Definition validDigest : string -> bool := EStop.validDigest.
Definition validToken : string -> bool := EStop.validToken.
Definition lease_validOpaque : string -> Z -> Z -> bool := EStop.validOpaque.

Definition lease_validContext (context : Context) : bool :=
  validUUID (cx_OrganizationID context) && validUUID (cx_TenantID context) && validUUID (cx_CaseID context) &&
  validUUID (cx_ActorID context).

Definition validTargets (targets : list string) : bool :=
  negb (match targets with [] => true | _ => false end) && (Z.of_nat (length targets) <=? 64) && is_sorted targets &&
  forallb validDigest targets && negb (adjacent_equal targets).

(** The kind, the identity and the transport of an audience *)
Definition validAudience (audience : Audience) : bool :=
  (String.eqb (au_Kind audience) "connector" || String.eqb (au_Kind audience) "runner") &&
  validToken (au_ID audience) && validDigest (au_TransportIdentityDigest audience).

Definition mapSecretError (err : SecretRef.Error) : Error :=
  leaseError (match SecretRef.err_Code err with SecretRef.Denied => Denied | _ => InvalidInput end) (SecretRef.err_Reason err).

Definition ValidateIssuanceRequest (request : IssuanceRequest) : result Error unit :=
  deny_if (negb (String.eqb (iq_SchemaVersion request) SchemaVersion) ||
           negb (String.eqb (iq_ContractVersion request) ContractVersion))
    (leaseError InvalidInput "unsupported_contract") ;;
  deny_if (negb (validUUID (iq_RequestID request)) || negb (lease_validOpaque (iq_IdempotencyKey request) 1 128) ||
           negb (lease_validContext (iq_Context request)) || negb (validUUID (iq_TaskID request)) ||
           negb (validDigest (iq_ActionDigest request)) || negb (validToken (iq_Operation request)) ||
           negb (validToken (iq_CredentialClass request)))
    (leaseError InvalidInput "issuance_identity") ;;
  deny_if (negb (validTargets (elements (iq_TargetDigests request)))) (leaseError InvalidInput "target_scope") ;;
  deny_if (negb (validAudience (iq_Audience request))) (leaseError InvalidInput "audience_scope") ;;
  deny_if ((iq_RequestedTTLSeconds request =? 0) || (MaximumTTLSeconds <? iq_RequestedTTLSeconds request))
    (leaseError InvalidInput "lease_lifetime") ;;
  match ValidateReference (iq_Reference request) with
  | Ok _ => Ok tt
  | Err err => Err (mapSecretError err)
  end.

Definition ValidateIssuanceAuthority (authority : IssuanceAuthority) : result Error unit :=
  let invalid := leaseError InvalidInput "authority_invalid" in
  let audience := ia_Audience authority in
  deny_if (negb (lease_validContext (ia_Context authority)) || (ia_ActorRevision authority =? 0) ||
           negb (validDigest (ia_AuthorizationDecisionDigest authority)) ||
           negb (validDigest (ia_PolicyDecisionDigest authority))) invalid ;;
  deny_if (ia_ApprovalRequired authority && negb (validDigest (ia_ApprovalDecisionDigest authority))) invalid ;;
  deny_if (negb (ia_ApprovalRequired authority) &&
           (ia_ApprovalAllowed authority || negb (String.eqb (ia_ApprovalDecisionDigest authority) ""))) invalid ;;
  deny_if (negb (validAudience (aa_Audience audience)) || (aa_Revision audience =? 0) || is_zero (aa_ObservedAt audience))
    (leaseError InvalidInput "audience_authority_invalid") ;;
  deny_if (aa_Remote audience && negb (aa_MutualTLS audience)) (leaseError Denied "mutual_tls_required").

Definition ValidateDispatchRequest (request : DispatchRequest) : result Error unit :=
  deny_if (negb (lease_validContext (dr_Context request)) || negb (validUUID (dr_TaskID request)) ||
           negb (validDigest (dr_ActionDigest request)) || negb (validTargets (elements (dr_TargetDigests request))) ||
           negb (validToken (dr_Operation request)) || negb (validAudience (dr_Audience request)))
    (leaseError InvalidInput "dispatch_scope_invalid").

Definition ValidateDispatchAuthority (authority : DispatchAuthority) : result Error unit :=
  ValidateIssuanceAuthority (da_IssuanceAuthority authority).

Definition revocation_reasons : list string :=
  ["operator_revoked"; "credential_rotated"; "actor_revoked"; "task_canceled"; "emergency_stop"; "audience_revoked"].

Definition ValidateRevocationRequest (request : RevocationRequest) : result Error unit :=
  deny_if (negb (validUUID (rv_LeaseID request))) (leaseError InvalidInput "revocation_identity") ;;
  deny_if (negb (existsb (String.eqb (rv_Reason request)) revocation_reasons)) (leaseError InvalidInput "revocation_reason").

(** ** digest.go *)

Definition audience_type : gtype := TStruct [
  ("kind", false, TString); ("id", false, TString); ("transport_identity_digest", false, TString)].

Definition audience_val (a : Audience) : gval :=
  VStruct [VStr (au_Kind a); VStr (au_ID a); VStr (au_TransportIdentityDigest a)].

Definition issuance_type : gtype := TStruct [
  ("schema_version", false, TString); ("contract_version", false, TString); ("request_id", false, TString);
  ("idempotency_key", false, TString); ("context", false, context_type); ("task_id", false, TString);
  ("action_digest", false, TString); ("target_digests", false, TSlice TString); ("operation", false, TString);
  ("audience", false, audience_type); ("credential_class", false, TString); ("reference", false, reference_type);
  ("requested_ttl_seconds", false, TUint 32)].

Definition issuance_val (r : IssuanceRequest) : gval := VStruct [
  VStr (iq_SchemaVersion r); VStr (iq_ContractVersion r); VStr (iq_RequestID r); VStr (iq_IdempotencyKey r);
  context_val (iq_Context r); VStr (iq_TaskID r); VStr (iq_ActionDigest r); VSlice (map VStr <$> iq_TargetDigests r);
  VStr (iq_Operation r); audience_val (iq_Audience r); VStr (iq_CredentialClass r); reference_val (iq_Reference r);
  VUint (iq_RequestedTTLSeconds r)].

Definition RequestDigest (request : IssuanceRequest) : result Error string :=
  ValidateIssuanceRequest request ;;
  Ok (digest (marshal true (encode issuance_type (issuance_val request)))).

(** ** decision.go *)

Record Decision : Type := mkDecision {
  ld_SchemaVersion : string; ld_ContractVersion : string; ld_Event : string; ld_Outcome : string;
  ld_ReasonCode : string; ld_LeaseID : string; ld_RequestID : string; ld_OrganizationID : string;
  ld_TenantID : string; ld_CaseID : string; ld_ActorID : string; ld_ActorRevision : Z; ld_TaskID : string;
  ld_ActionDigest : string; ld_TargetScopeDigest : string; ld_Operation : string; ld_AudienceKind : string;
  ld_AudienceID : string; ld_TransportIdentityDigest : string; ld_AudienceRevision : Z; ld_CredentialClass : string;
  ld_CredentialReferenceDigest : string; ld_AuthorizationDecisionDigest : string; ld_PolicyDecisionDigest : string;
  ld_ApprovalDecisionDigest : string; ld_SecretDecisionDigest : string; ld_IssuedAt : Time; ld_ExpiresAt : Time;
  ld_OccurredAt : Time; ld_DecisionDigest : string }.

Definition targetScopeDigest (targets : option (list string)) : string :=
  digest (marshal true (encode (TSlice TString) (VSlice (map VStr <$> targets)))).

(** [omitempty] has no effect on the times, which are structs. *)
Definition decision_json (d : Decision) : json :=
  JObj ([("schema_version", JStr (ld_SchemaVersion d)); ("contract_version", JStr (ld_ContractVersion d));
         ("event", JStr (ld_Event d)); ("outcome", JStr (ld_Outcome d)); ("reason_code", JStr (ld_ReasonCode d))] ++
        omit_text "lease_id" (ld_LeaseID d) ++
        [("request_id", JStr (ld_RequestID d)); ("organization_id", JStr (ld_OrganizationID d));
         ("tenant_id", JStr (ld_TenantID d)); ("case_id", JStr (ld_CaseID d)); ("actor_id", JStr (ld_ActorID d));
         ("actor_revision", json_uint (ld_ActorRevision d)); ("task_id", JStr (ld_TaskID d));
         ("action_digest", JStr (ld_ActionDigest d)); ("target_scope_digest", JStr (ld_TargetScopeDigest d));
         ("operation", JStr (ld_Operation d)); ("audience_kind", JStr (ld_AudienceKind d));
         ("audience_id", JStr (ld_AudienceID d)); ("transport_identity_digest", JStr (ld_TransportIdentityDigest d));
         ("audience_revision", json_uint (ld_AudienceRevision d)); ("credential_class", JStr (ld_CredentialClass d))] ++
        omit_text "credential_reference_digest" (ld_CredentialReferenceDigest d) ++
        [("authorization_decision_digest", JStr (ld_AuthorizationDecisionDigest d));
         ("policy_decision_digest", JStr (ld_PolicyDecisionDigest d))] ++
        omit_text "approval_decision_digest" (ld_ApprovalDecisionDigest d) ++
        omit_text "secret_decision_digest" (ld_SecretDecisionDigest d) ++
        [("issued_at", JStr (format_rfc3339 (ld_IssuedAt d))); ("expires_at", JStr (format_rfc3339 (ld_ExpiresAt d)));
         ("occurred_at", JStr (format_rfc3339 (ld_OccurredAt d))); ("decision_digest", JStr (ld_DecisionDigest d))])%list.

(** [json.Marshal] fails on a time outside the years 0 to 9999, and then there are no bytes. *)
Definition decision_bytes (d : Decision) : string :=
  let printable t := (0 <=? year t) && (year t <=? 9999) in
  if printable (ld_IssuedAt d) && printable (ld_ExpiresAt d) && printable (ld_OccurredAt d)
  then marshal true (decision_json d) else "".

(** The fields in which the decisions of the three events differ *)
Definition with_event (d : Decision) (event secretDecisionDigest decisionDigest : string) (occurredAt : Time) : Decision :=
  mkDecision (ld_SchemaVersion d) (ld_ContractVersion d) event (ld_Outcome d) (ld_ReasonCode d) (ld_LeaseID d)
    (ld_RequestID d) (ld_OrganizationID d) (ld_TenantID d) (ld_CaseID d) (ld_ActorID d) (ld_ActorRevision d)
    (ld_TaskID d) (ld_ActionDigest d) (ld_TargetScopeDigest d) (ld_Operation d) (ld_AudienceKind d) (ld_AudienceID d)
    (ld_TransportIdentityDigest d) (ld_AudienceRevision d) (ld_CredentialClass d) (ld_CredentialReferenceDigest d)
    (ld_AuthorizationDecisionDigest d) (ld_PolicyDecisionDigest d) (ld_ApprovalDecisionDigest d) secretDecisionDigest
    (ld_IssuedAt d) (ld_ExpiresAt d) occurredAt decisionDigest.

Definition decisionDigest (d : Decision) : string :=
  digest (decision_bytes (with_event d (ld_Event d) (ld_SecretDecisionDigest d) "" (ld_OccurredAt d))).

(** [decision.DecisionDigest = decisionDigest(decision)] *)
Definition digested (d : Decision) : Decision :=
  with_event d (ld_Event d) (ld_SecretDecisionDigest d) (decisionDigest d) (ld_OccurredAt d).

Definition NewIssuanceDecision (request : IssuanceRequest) (authority : IssuanceAuthority)
  (leaseID outcome reason referenceDigest : string) (issuedAt expiresAt : Time) : Decision :=
  digested (mkDecision SchemaVersion ContractVersion "lease_issuance" outcome reason leaseID (iq_RequestID request)
    (cx_OrganizationID (iq_Context request)) (cx_TenantID (iq_Context request)) (cx_CaseID (iq_Context request))
    (cx_ActorID (iq_Context request)) (ia_ActorRevision authority) (iq_TaskID request) (iq_ActionDigest request)
    (targetScopeDigest (iq_TargetDigests request)) (iq_Operation request) (au_Kind (iq_Audience request))
    (au_ID (iq_Audience request)) (au_TransportIdentityDigest (iq_Audience request)) (aa_Revision (ia_Audience authority))
    (iq_CredentialClass request) referenceDigest (ia_AuthorizationDecisionDigest authority)
    (ia_PolicyDecisionDigest authority) (ia_ApprovalDecisionDigest authority) "" issuedAt expiresAt issuedAt "").

Definition NewDispatchDecision (bound : IssuanceRequest) (authority : IssuanceAuthority)
  (leaseID outcome reason referenceDigest secretDecisionDigest : string) (issuedAt expiresAt occurredAt : Time) : Decision :=
  let decision := NewIssuanceDecision bound authority leaseID outcome reason referenceDigest issuedAt expiresAt in
  digested (with_event decision "lease_dispatch" secretDecisionDigest (ld_DecisionDigest decision) occurredAt).

Definition NewRevocationDecision (bound : IssuanceRequest) (authority : IssuanceAuthority)
  (leaseID outcome reason referenceDigest : string) (issuedAt expiresAt occurredAt : Time) : Decision :=
  let decision := NewIssuanceDecision bound authority leaseID outcome reason referenceDigest issuedAt expiresAt in
  digested (with_event decision "lease_revocation" (ld_SecretDecisionDigest decision) (ld_DecisionDigest decision) occurredAt).
