(* ===== verification/LeaseBroker.v ===== *)
(** * internal/broker/credentiallease: the broker, its store in memory and the emergency stop

    [Issue] checks a request against its authority, the emergency stop and the store, and
    hands out a capability; [Use] consumes the lease, holds it against the stop and fresh
    authority, resolves the credential, audits, and only then gives the secret to the consumer;
    [Revoke] disables it ([issuer.go], [dispatch.go], [revoke.go], [errors.go], [types.go]).
    [audit_adapter.go] is the durable audit sink.

    The capability bytes of a handle are shared and mutable: they live in cells of the world.
    Each operation is a goroutine whose calls are those the source makes, in its order.
    [memory_store.go]: leases by identity, the requests that were answered and the capabilities
    in use, behind one mutex, so that every method is one atomic step; and
    [estop_control.go], the control that revokes the leases of a stopped scope. *)

From S2P Require Import Prelude GoStrings GoRegexp GoTime GoJson DomainContract Sha256 Domain GoStruct TamperAudit Storage Policy ApprovalBroker EStop EStopController EStopStore SecretRef SecretResolver CredentialLease.

Local Open Scope string_scope.
Local Open Scope Z_scope.

(** ** types.go *)

Definition tokenBytes : nat := 32.

Record LeaseRecord : Type := mkLease {
  le_LeaseID : string; le_tokenDigest : string; le_RequestDigest : string; le_Request : IssuanceRequest;
  le_Authority : IssuanceAuthority; le_IssuedAt : Time; le_ExpiresAt : Time; le_Revoked : bool;
  le_RevokeReason : string; le_Consumed : bool }.

Definition zero_lease : LeaseRecord :=
  mkLease "" "" "" zero_request zero_authority zero_time zero_time false "" false.

Inductive CreateResult : Type := CreateNew | CreateReplay | CreateConflict.

(** [Claim] returns the record also with some errors. *)
Class LeaseStore (W : Type) : Type := {
  store_Create : context W -> LeaseRecord -> prog W (go_error Error) CreateResult;
  store_Claim : context W -> string -> string -> Time -> W -> (LeaseRecord * option (go_error Error)) * W;
  store_Revoke : context W -> string -> string -> prog W (go_error Error) LeaseRecord;
  store_RevokeScope : context W -> string -> string -> string -> string -> prog W (go_error Error) Z }.

Class StopGuard (W : Type) : Type := {
  guard_Allow : context W -> string -> string -> string -> routine W (option (go_error EStop.Error)) }.

Class SecretSource (W : Type) : Type := {
  source_Resolve : context W -> ResolutionRequest -> AuthoritySnapshot ->
    routine W (option string * SecretRef.Decision * option (go_error SecretRef.Error)) }.

(** The clock, the source of randomness ([io.ReadFull]) and the audit sink, whose context is
    detached from the caller's *)
Class LeasePorts (W : Type) : Type := {
  LeaseNow : W -> Time * W;
  ReadFull : nat -> prog W unit string;
  AppendCredentialLeaseDecision : Decision -> prog W unit unit }.

(** A handle: its identity, which is never assigned again, and the cell that holds its token *)
Record Handle : Type := mkHandle { ha_LeaseID : string; ha_cell : nat }.

Record Cell : Type := mkCell { cl_token : string; cl_dead : bool }.

Class HasCells (W : Type) : Type := {
  cells : W -> list Cell;
  set_cells : list Cell -> W -> W }.

Section handles.
Context {W : Type} {has : HasCells W}.

Definition NewHandle (leaseID token : string) : routine W Handle :=
  calls (fun w => (mkHandle leaseID (length (cells w)), set_cells (cells w ++ [mkCell token false])%list w)).

Definition Destroy (handle : Handle) : routine W unit :=
  calls (fun w =>
    match cells w !! ha_cell handle with
    | Some cell => (tt, if cl_dead cell then w else set_cells (<[ha_cell handle := mkCell "" true]> (cells w)) w)
    | None => (tt, w)
    end).
End handles.

(** ** errors.go *)

Definition brokerError (code : ErrorCode) (reason : string) : go_error Error := EOwn (leaseError code reason).

(** No context is nil. *)
Definition contextError {W} (ctx : context W) (w : W) : option (go_error Error) :=
  match ctx with
  | None => None
  | Some err =>
      match err w with
      | Some DoneDeadlineExceeded => Some (brokerError Timeout "request_timeout")
      | Some DoneCanceled => Some (brokerError Canceled "request_canceled")
      | None => None
      end
  end.

Definition lease_reason (err : go_error Error) : string :=
  match errors_as err with Some leaseErr => err_Reason leaseErr | None => "credential_lease_unavailable" end.

(** The outcome of a decision with an error *)
Definition outcome_of (err : go_error Error) : string :=
  match Code err with
  | InvalidInput => "invalid"
  | Denied | Conflict => "denied"
  | Canceled => "canceled"
  | Timeout => "timeout"
  | Unavailable => "unavailable"
  end.

(** ** issuer.go *)

Definition maximumAuthorityAge : Z := 30 * second.

(** The broker is [maximumTTL]; the other dependencies are the ports. *)
Definition NewBroker (dependency_nil : bool) (maximumTTL : Z) : result Error Z :=
  deny_if (dependency_nil || (maximumTTL <=? 0) || (MaximumTTLSeconds * second <? maximumTTL))
    (leaseError InvalidInput "broker_configuration_invalid") ;;
  Ok maximumTTL.

Definition mapStopError (err : go_error EStop.Error) : go_error Error :=
  match EStop.Code err with
  | EStop.Denied => brokerError Denied "emergency_stop_active"
  | EStop.Canceled => brokerError Canceled "stop_check_canceled"
  | EStop.Timeout => brokerError Timeout "stop_check_timeout"
  | _ => brokerError Unavailable "stop_state_unavailable"
  end.

Definition lease_validateAuthority (request : IssuanceRequest) (authority : IssuanceAuthority) (now : Time) : result Error unit :=
  ValidateIssuanceAuthority authority ;;
  deny_if (negb (bool_decide (ia_Context authority = iq_Context request)) ||
           negb (bool_decide (aa_Audience (ia_Audience authority) = iq_Audience request)))
    (leaseError Denied "authority_scope_mismatch") ;;
  deny_if (negb (ia_Active authority)) (leaseError Denied "actor_revoked") ;;
  deny_if (negb (ia_AuthorizationAllowed authority)) (leaseError Denied "authorization_denied") ;;
  deny_if (negb (ia_PolicyAllowed authority)) (leaseError Denied "policy_denied") ;;
  deny_if (ia_ApprovalRequired authority && negb (ia_ApprovalAllowed authority)) (leaseError Denied "approval_denied") ;;
  deny_if (negb (aa_Active (ia_Audience authority))) (leaseError Denied "audience_revoked") ;;
  let observedAt := to_utc (aa_ObservedAt (ia_Audience authority)) in
  deny_if (after observedAt now || (maximumAuthorityAge <? time_sub now observedAt)) (leaseError Denied "audience_state_stale").

(** The request without what a refused one may not show *)
Definition redacted (request : IssuanceRequest) : IssuanceRequest :=
  mkIssuance (iq_SchemaVersion request) (iq_ContractVersion request) (iq_RequestID request) (iq_IdempotencyKey request)
    (iq_Context request) (iq_TaskID request) (iq_ActionDigest request) (iq_TargetDigests request) "" zero_audience ""
    (iq_Reference request) (iq_RequestedTTLSeconds request).

Definition issuanceDecision (request : IssuanceRequest) (authority : IssuanceAuthority) (leaseID : string)
  (err : option (go_error Error)) (referenceDigest : string) (issuedAt expiresAt : Time) : Decision :=
  match err with
  | None => NewIssuanceDecision request authority leaseID "allowed" "lease_issued" referenceDigest issuedAt expiresAt
  | Some err =>
      let invalid := match Code err with InvalidInput => true | _ => false end in
      NewIssuanceDecision (if invalid then redacted request else request) authority leaseID (outcome_of err)
        (lease_reason err) (if invalid then "" else referenceDigest) issuedAt expiresAt
  end.

(** [newLeaseID], given the 16 bytes that were read; it is written as [newID] of the approvals. *)
Definition newLeaseID : Time -> string -> string := newID.

Section broker.
Context {W : Type} {store : LeaseStore W} {stop : StopGuard W} {resolver : SecretSource W} {ports : LeasePorts W} {has : HasCells W}.
Context (maxTTL : Z).

Definition lease_now : routine W Time := calls (fun w => let '(t, w) := LeaseNow w in (to_utc t, w)).
Definition context_error (ctx : context W) : routine W (option (go_error Error)) := calls (fun w => (contextError ctx w, w)).

Definition recordIssue (ctx : context W) (request : IssuanceRequest) (authority : IssuanceAuthority) (leaseID : string)
  (handle : option Handle) (resultErr : option (go_error Error)) (referenceDigest : string) (issuedAt expiresAt : Time)
  : routine W (option Handle * Decision * option (go_error Error)) :=
  let decision := issuanceDecision request authority leaseID resultErr referenceDigest issuedAt expiresAt in
  appended ← calls (AppendCredentialLeaseDecision decision);
  match appended with
  | Err _ =>
      let auditErr := brokerError Unavailable "audit_unavailable" in
      let answer := (None, issuanceDecision request authority leaseID (Some auditErr) referenceDigest issuedAt expiresAt,
                     Some auditErr) in
      match handle with
      | Some handle =>
          calls (store_Revoke without_cancel (ha_LeaseID handle) "audit_unavailable") ;;
          Destroy handle ;;
          mret answer
      | None => mret answer
      end
  | Ok _ =>
      match resultErr with
      | Some err => mret (None, decision, Some err)
      | None => mret (handle, decision, None)
      end
  end.

(** The lease that an issuance stores *)
Definition new_lease (request : IssuanceRequest) (authority : IssuanceAuthority) (leaseID token : string) (now : Time) : LeaseRecord :=
  let requestDigest := match RequestDigest request with Ok value => value | Err _ => "" end in
  let ttl := iq_RequestedTTLSeconds request * second in
  let ttl := if maxTTL <? ttl then maxTTL else ttl in
  mkLease leaseID (sum256 token) requestDigest request authority now (time_add now ttl) false "" false.

Definition Issue (ctx : context W) (request : IssuanceRequest) (authority : IssuanceAuthority)
  : routine W (option Handle * Decision * option (go_error Error)) :=
  now ← lease_now;
  let refuse err referenceDigest expires := recordIssue ctx request authority "" None (Some err) referenceDigest now expires in
  ready ← context_error ctx;
  match ready, ValidateIssuanceRequest request ;; lease_validateAuthority request authority now with
  | Some err, _ => refuse err "" zero_time
  | None, Err err => refuse (EOwn err) "" zero_time
  | None, Ok _ =>
      allowed ← guard_Allow ctx (cx_OrganizationID (iq_Context request)) (cx_TenantID (iq_Context request))
        (cx_CaseID (iq_Context request));
      match allowed with
      | Some err => refuse (mapStopError err) "" zero_time
      | None =>
          let referenceDigest := reference_digest (iq_Reference request) in
          let entropy := brokerError Unavailable "entropy_unavailable" in
          token ← calls (ReadFull tokenBytes);
          match token with
          | Err _ => refuse entropy referenceDigest zero_time
          | Ok token =>
              identity ← calls (ReadFull 16);
              match identity with
              | Err _ => refuse entropy referenceDigest zero_time
              | Ok identity =>
                  let leaseID := newLeaseID now identity in
                  let record := new_lease request authority leaseID token now in
                  let expires := le_ExpiresAt record in
                  created ← calls (store_Create ctx record);
                  match created with
                  | Err _ =>
                      contextErr ← context_error ctx;
                      refuse (default (brokerError Unavailable "lease_store_unavailable") contextErr) referenceDigest expires
                  | Ok CreateReplay => refuse (brokerError Conflict "issuance_replay") referenceDigest expires
                  | Ok CreateConflict => refuse (brokerError Conflict "idempotency_conflict") referenceDigest expires
                  | Ok CreateNew =>
                      handle ← NewHandle leaseID token;
                      recordIssue ctx request authority leaseID (Some handle) None referenceDigest now expires
                  end
              end
          end
      end
  end.

(** ** dispatch.go *)

(** [Handle.digest] *)
Definition handle_digest (handle : Handle) : routine W (result (go_error Error) string) :=
  calls (fun w =>
    (match cells w !! ha_cell handle with
     | Some cell =>
         if cl_dead cell || negb (Nat.eqb (String.length (cl_token cell)) tokenBytes)
         then Err (brokerError Denied "capability_destroyed") else Ok (sum256 (cl_token cell))
     | None => Err (brokerError Denied "capability_destroyed")
     end, w)).

Definition sameAuthority (initial current : IssuanceAuthority) : bool :=
  bool_decide (ia_Context initial = ia_Context current) && Bool.eqb (ia_Active initial) (ia_Active current) &&
  (ia_ActorRevision initial =? ia_ActorRevision current) &&
  Bool.eqb (ia_AuthorizationAllowed initial) (ia_AuthorizationAllowed current) &&
  String.eqb (ia_AuthorizationDecisionDigest initial) (ia_AuthorizationDecisionDigest current) &&
  Bool.eqb (ia_PolicyAllowed initial) (ia_PolicyAllowed current) &&
  String.eqb (ia_PolicyDecisionDigest initial) (ia_PolicyDecisionDigest current) &&
  Bool.eqb (ia_ApprovalRequired initial) (ia_ApprovalRequired current) &&
  Bool.eqb (ia_ApprovalAllowed initial) (ia_ApprovalAllowed current) &&
  String.eqb (ia_ApprovalDecisionDigest initial) (ia_ApprovalDecisionDigest current) &&
  bool_decide (aa_Audience (ia_Audience initial) = aa_Audience (ia_Audience current)) &&
  Bool.eqb (aa_Active (ia_Audience initial)) (aa_Active (ia_Audience current)) &&
  (aa_Revision (ia_Audience initial) =? aa_Revision (ia_Audience current)) &&
  Bool.eqb (aa_Remote (ia_Audience initial)) (aa_Remote (ia_Audience current)) &&
  Bool.eqb (aa_MutualTLS (ia_Audience initial)) (aa_MutualTLS (ia_Audience current)).

Definition validateDispatch (record : LeaseRecord) (request : DispatchRequest) (authority : DispatchAuthority) (now : Time)
  : result Error unit :=
  let bound := le_Request record in
  ValidateDispatchRequest request ;;
  ValidateDispatchAuthority authority ;;
  deny_if (negb (bool_decide (dr_Context request = iq_Context bound)) || negb (String.eqb (dr_TaskID request) (iq_TaskID bound)) ||
           negb (String.eqb (dr_ActionDigest request) (iq_ActionDigest bound)) ||
           negb (String.eqb (dr_Operation request) (iq_Operation bound)) ||
           negb (bool_decide (elements (dr_TargetDigests request) = elements (iq_TargetDigests bound))))
    (leaseError Denied "lease_scope_mismatch") ;;
  deny_if (negb (String.eqb (au_Kind (dr_Audience request)) (au_Kind (iq_Audience bound))) ||
           negb (String.eqb (au_ID (dr_Audience request)) (au_ID (iq_Audience bound))))
    (leaseError Denied "audience_scope_mismatch") ;;
  deny_if (negb (String.eqb (au_TransportIdentityDigest (dr_Audience request)) (au_TransportIdentityDigest (iq_Audience bound))))
    (leaseError Denied "transport_identity_rotated") ;;
  deny_if (negb (da_TaskActive authority)) (leaseError Denied "task_canceled") ;;
  deny_if (da_EmergencyStopActive authority) (leaseError Denied "emergency_stop_active") ;;
  lease_validateAuthority bound (da_IssuanceAuthority authority) now ;;
  deny_if (negb (sameAuthority (le_Authority record) (da_IssuanceAuthority authority))) (leaseError Denied "authority_state_stale").

Definition dispatchDecision (record : LeaseRecord) (request : DispatchRequest) (authority : DispatchAuthority)
  (publicLeaseID : string) (err : option (go_error Error)) (secretDecisionDigest : string) (now : Time) : Decision :=
  let unknown := String.eqb (le_LeaseID record) "" in
  let bound := if unknown
    then mkIssuance "" "" "" "" (dr_Context request) (dr_TaskID request) (dr_ActionDigest request) (dr_TargetDigests request)
           (dr_Operation request) (dr_Audience request) "" zero_reference 0
    else le_Request record in
  let initialAuthority := if unknown then da_IssuanceAuthority authority else le_Authority record in
  let referenceDigest := if unknown then "" else reference_digest (iq_Reference (le_Request record)) in
  let '(bound, outcome, reasonCode) :=
    match err with
    | None => (bound, "allowed", "dispatch_authorized")
    | Some err =>
        (match Code err with InvalidInput => redacted bound | _ => bound end, outcome_of err, lease_reason err)
    end in
  NewDispatchDecision bound initialAuthority publicLeaseID outcome reasonCode referenceDigest secretDecisionDigest
    (le_IssuedAt record) (le_ExpiresAt record) now.

Definition recordDispatch (record : LeaseRecord) (request : DispatchRequest) (authority : DispatchAuthority)
  (publicLeaseID : string) (resultErr : option (go_error Error)) (secretDecisionDigest : string) (now : Time)
  : routine W (Decision * option (go_error Error)) :=
  let decision := dispatchDecision record request authority publicLeaseID resultErr secretDecisionDigest now in
  appended ← calls (AppendCredentialLeaseDecision decision);
  match appended with
  | Err _ =>
      let auditErr := brokerError Unavailable "audit_unavailable" in
      mret (dispatchDecision record request authority publicLeaseID (Some auditErr) secretDecisionDigest now, Some auditErr)
  | Ok _ => mret (decision, resultErr)
  end.

Definition normalizeLeaseError (ctx : context W) (err : go_error Error) : routine W (go_error Error) :=
  contextErr ← context_error ctx;
  mret (match contextErr with
        | Some contextErr => contextErr
        | None =>
            match Code err with
            | Denied | Conflict => err
            | _ => brokerError Unavailable "lease_store_unavailable"
            end
        end).

Definition mapResolutionError (err : go_error SecretRef.Error) : go_error Error :=
  brokerError
    match SecretRef.Code err with
    | SecretRef.InvalidInput => InvalidInput
    | SecretRef.Denied => Denied
    | SecretRef.Conflict => Conflict
    | SecretRef.Canceled => Canceled
    | SecretRef.Timeout => Timeout
    | SecretRef.Unavailable => Unavailable
    end
    ("credential_" ++ match errors_as err with Some secretErr => SecretRef.err_Reason secretErr | None => "resolution_unavailable" end).

Definition resolution_request (record : LeaseRecord) : ResolutionRequest :=
  let bound := le_Request record in
  mkResolution SecretRef.SchemaVersion SecretRef.ContractVersion (iq_RequestID bound) ("lease-dispatch-" ++ le_LeaseID record)
    (iq_Context bound) (iq_ActionDigest bound) (iq_CredentialClass bound) (iq_Reference bound).

Definition resolution_authority (authority : DispatchAuthority) : AuthoritySnapshot :=
  let current := da_IssuanceAuthority authority in
  mkSnapshot (ia_Context current) (ia_Active current) (ia_ActorRevision current) (ia_AuthorizationDecisionDigest current).

(** What [Use] has when it is about to call the consumer: the lease, the secret and the
    decision that was audited *)
Record Release : Type := mkRelease { rl_record : LeaseRecord; rl_secret : string; rl_decision : Decision }.

(** What [Use] comes to: its answer, or the release *)
Definition use_outcome : Type := (Decision * option (go_error Error)) + Release.

Definition refuse_use (record : LeaseRecord) (request : DispatchRequest) (authority : DispatchAuthority) (now : Time)
  (leaseID : string) (err : go_error Error) (secretDigest : string) : routine W use_outcome :=
  answer ← recordDispatch record request authority leaseID (Some err) secretDigest now; mret (inl answer).

(** [Use] once the lease is claimed, up to [secret.Use(consumer)] *)
Definition use_claimed (ctx : context W) (handle : Handle) (request : DispatchRequest) (authority : DispatchAuthority)
  (now : Time) (record : LeaseRecord) : routine W use_outcome :=
  let refuse := refuse_use record request authority now (le_LeaseID record) in
  let bound := iq_Context (le_Request record) in
  Destroy handle ;;
  allowed ← guard_Allow ctx (cx_OrganizationID bound) (cx_TenantID bound) (cx_CaseID bound);
  match allowed, validateDispatch record request authority now with
  | Some err, _ => refuse (mapStopError err) ""
  | None, Err err => refuse (EOwn err) ""
  | None, Ok _ =>
      '(secret, secretDecision, resolveErr) ←
        source_Resolve ctx (resolution_request record) (resolution_authority authority);
      let secretDigest := SecretRef.de_DecisionDigest secretDecision in
      match resolveErr, secret with
      | Some err, _ => refuse (mapResolutionError err) secretDigest
      | None, None => refuse (brokerError Unavailable "credential_resolution_unavailable") secretDigest
      | None, Some secret =>
          '(decision, err) ← recordDispatch record request authority (le_LeaseID record) None secretDigest now;
          match err with
          | Some _ => mret (inl (decision, err))
          | None => mret (inr (mkRelease record secret decision))
          end
      end
  end.

(** [Use], up to [secret.Use(consumer)] *)
Definition prepare_use (ctx : context W) (handle : option Handle) (request : DispatchRequest) (authority : DispatchAuthority)
  (consumer_nil : bool) : routine W use_outcome :=
  now ← lease_now;
  ready ← context_error ctx;
  match ready, handle, consumer_nil with
  | Some err, _, _ => refuse_use zero_lease request authority now (default "" (ha_LeaseID <$> handle)) err ""
  | None, None, _ | None, _, true =>
      refuse_use zero_lease request authority now (default "" (ha_LeaseID <$> handle))
        (brokerError InvalidInput "dispatch_input_invalid") ""
  | None, Some handle, false =>
      tokenDigest ← handle_digest handle;
      match tokenDigest with
      | Err err => refuse_use zero_lease request authority now (ha_LeaseID handle) err ""
      | Ok tokenDigest =>
          '(record, claimErr) ← calls (store_Claim ctx (ha_LeaseID handle) tokenDigest now);
          match claimErr with
          | Some err =>
              match Code err with
              | Unavailable | Canceled | Timeout => mret tt
              | _ => Destroy handle
              end ;;
              resultErr ← normalizeLeaseError ctx err;
              refuse_use record request authority now (ha_LeaseID handle) resultErr ""
          | None => use_claimed ctx handle request authority now record
          end
      end
  end.

(** [secret.Use(consumer)] and the end of [Use] *)
Definition hand_over (ctx : context W) (release : Release) (consumer : string -> prog W unit unit)
  : routine W (Decision * option (go_error Error)) :=
  used ← calls (consumer (rl_secret release));
  match used with
  | Ok _ => mret (rl_decision release, None)
  | Err _ =>
      contextErr ← context_error ctx;
      mret (rl_decision release, Some (default (brokerError Unavailable "dispatch_failed") contextErr))
  end.

(** [Use], with what was handed to the consumer *)
Definition perform_use (ctx : context W) (handle : option Handle) (request : DispatchRequest) (authority : DispatchAuthority)
  (consumer : option (string -> prog W unit unit)) : routine W ((Decision * option (go_error Error)) * option Release) :=
  prepared ← prepare_use ctx handle request authority (match consumer with Some _ => false | None => true end);
  match prepared, consumer with
  | inl answer, _ => mret (answer, None)
  | inr release, Some consumer => answer ← hand_over ctx release consumer; mret (answer, Some release)
  | inr release, None => mret ((rl_decision release, None), None)
  end.

Definition Use (ctx : context W) (handle : option Handle) (request : DispatchRequest) (authority : DispatchAuthority)
  (consumer : option (string -> prog W unit unit)) : routine W (Decision * option (go_error Error)) :=
  '(answer, _) ← perform_use ctx handle request authority consumer; mret answer.

(** ** revoke.go *)

Definition revocationDecision (record : LeaseRecord) (leaseID : string) (err : option (go_error Error)) (now : Time) : Decision :=
  let '(outcome, reasonCode) :=
    match err with
    | None => ("allowed", if String.eqb (le_RevokeReason record) "" then "lease_revoked" else le_RevokeReason record)
    | Some err => (outcome_of err, lease_reason err)
    end in
  let referenceDigest := if String.eqb (le_LeaseID record) "" then "" else reference_digest (iq_Reference (le_Request record)) in
  NewRevocationDecision (le_Request record) (le_Authority record) leaseID outcome reasonCode referenceDigest
    (le_IssuedAt record) (le_ExpiresAt record) now.

Definition recordRevocation (record : LeaseRecord) (leaseID : string) (resultErr : option (go_error Error)) (now : Time)
  : routine W (Decision * option (go_error Error)) :=
  let decision := revocationDecision record leaseID resultErr now in
  appended ← calls (AppendCredentialLeaseDecision decision);
  match appended with
  | Err _ =>
      let auditErr := brokerError Unavailable "audit_unavailable" in
      mret (revocationDecision record leaseID (Some auditErr) now, Some auditErr)
  | Ok _ => mret (decision, resultErr)
  end.

(** No [Revoke] of a store returns a record with an error. *)
Definition Revoke (ctx : context W) (request : RevocationRequest) : routine W (Decision * option (go_error Error)) :=
  now ← lease_now;
  ready ← context_error ctx;
  match ready, ValidateRevocationRequest request with
  | Some err, _ => recordRevocation zero_lease (rv_LeaseID request) (Some err) now
  | None, Err err => recordRevocation zero_lease (rv_LeaseID request) (Some (EOwn err)) now
  | None, Ok _ =>
      revoked ← calls (store_Revoke ctx (rv_LeaseID request) (rv_Reason request));
      match revoked with
      | Err err =>
          normal ← normalizeLeaseError ctx err;
          recordRevocation zero_lease (rv_LeaseID request) (Some normal) now
      | Ok record => recordRevocation record (rv_LeaseID request) None now
      end
  end.
End broker.

(** ** audit_adapter.go *)

Definition lease_audit_event (decision : Decision) : TamperAudit.Event :=
  TamperAudit.mkEvent TamperAudit.EventSchemaVersion TamperAudit.ContractVersion (ld_DecisionDigest decision)
    (ld_OrganizationID decision) (ld_TenantID decision) (ld_CaseID decision) (ld_ActorID decision)
    (ld_ActorRevision decision) SchemaVersion (ld_Event decision) (ld_Outcome decision) (ld_ReasonCode decision)
    (ld_RequestID decision) 0 (ld_ActionDigest decision)
    (Some (evidence_set [ld_DecisionDigest decision; ld_TargetScopeDigest decision; ld_TransportIdentityDigest decision;
       ld_CredentialReferenceDigest decision; ld_AuthorizationDecisionDigest decision; ld_PolicyDecisionDigest decision;
       ld_ApprovalDecisionDigest decision; ld_SecretDecisionDigest decision]))
    (format_timestamp (to_utc (ld_OccurredAt decision))).

(** [DurableAuditSink.AppendCredentialLeaseDecision], over the appender of the sink *)
Definition AppendLeaseEvent {W E} (AppendAuditEvent : TamperAudit.Event -> prog W E unit) (decision : Decision)
  : prog W Error unit :=
  let unavailable := leaseError Unavailable "audit_unavailable" in
  pure (or_err (TamperAudit.ValidateEvent (lease_audit_event decision)) unavailable) ;;
  map_err (fun _ => unavailable) (AppendAuditEvent (lease_audit_event decision)).

(** ** internal/broker/credentiallease: the store in memory and the emergency stop *)

(** ** memory_store.go *)

Record LeaseMemory : Type := mkLeaseMemory {
  lm_records : gmap string LeaseRecord; lm_requests : gmap string string; lm_tokens : gmap string string }.

Definition NewLeaseMemory : LeaseMemory := mkLeaseMemory ∅ ∅ ∅.

(** [append([]string(nil), targets...)] is nil when there are no targets. *)
Definition cloneRecord (record : LeaseRecord) : LeaseRecord :=
  let r := le_Request record in
  let targets := match elements (iq_TargetDigests r) with [] => None | targets => Some targets end in
  mkLease (le_LeaseID record) (le_tokenDigest record) (le_RequestDigest record)
    (mkIssuance (iq_SchemaVersion r) (iq_ContractVersion r) (iq_RequestID r) (iq_IdempotencyKey r) (iq_Context r) (iq_TaskID r)
       (iq_ActionDigest r) targets (iq_Operation r) (iq_Audience r) (iq_CredentialClass r) (iq_Reference r) (iq_RequestedTTLSeconds r))
    (le_Authority record) (le_IssuedAt record) (le_ExpiresAt record) (le_Revoked record) (le_RevokeReason record) (le_Consumed record).

(** The fields that change: revocation and use *)
Definition with_state (record : LeaseRecord) (revoked : bool) (reason : string) (consumed : bool) : LeaseRecord :=
  mkLease (le_LeaseID record) (le_tokenDigest record) (le_RequestDigest record) (le_Request record) (le_Authority record)
    (le_IssuedAt record) (le_ExpiresAt record) revoked reason consumed.

Definition consumed (record : LeaseRecord) : LeaseRecord :=
  with_state record (le_Revoked record) (le_RevokeReason record) true.
Definition revoked (reason : string) (record : LeaseRecord) : LeaseRecord := with_state record true reason (le_Consumed record).

Definition issue_key (request : IssuanceRequest) : string :=
  cx_OrganizationID (iq_Context request) ++ NULs ++ cx_ActorID (iq_Context request) ++ NULs ++ iq_IdempotencyKey request.

Definition has_key {A} (m : gmap string A) (key : string) : bool := match m !! key with Some _ => true | None => false end.

Definition create_locked (m : LeaseMemory) (record : LeaseRecord) : CreateResult * LeaseMemory :=
  let key := issue_key (le_Request record) in
  match lm_requests m !! key with
  | Some previous => (if String.eqb previous (le_RequestDigest record) then CreateReplay else CreateConflict, m)
  | None =>
      if has_key (lm_records m) (le_LeaseID record) then (CreateConflict, m)
      else if has_key (lm_tokens m) (le_tokenDigest record) then (CreateConflict, m)
      else (CreateNew, mkLeaseMemory (<[le_LeaseID record := cloneRecord record]> (lm_records m))
              (<[key := le_RequestDigest record]> (lm_requests m)) (<[le_tokenDigest record := le_LeaseID record]> (lm_tokens m)))
  end.

Definition set_record (m : LeaseMemory) (leaseID : string) (record : LeaseRecord) : LeaseMemory :=
  mkLeaseMemory (<[leaseID := record]> (lm_records m)) (lm_requests m) (lm_tokens m).

Definition claim_locked (m : LeaseMemory) (leaseID tokenDigest : string) (now : Time)
  : (LeaseRecord * option (go_error Error)) * LeaseMemory :=
  match lm_records m !! leaseID with
  | None => ((zero_lease, Some (brokerError Denied "lease_not_found")), m)
  | Some record =>
      if negb (String.eqb (le_tokenDigest record) tokenDigest)
      then ((zero_lease, Some (brokerError Denied "capability_invalid")), m)
      else if le_Revoked record then ((cloneRecord record, Some (brokerError Denied "lease_revoked")), m)
      else if negb (before now (le_ExpiresAt record)) then ((cloneRecord record, Some (brokerError Denied "lease_expired")), m)
      else if le_Consumed record then ((cloneRecord record, Some (brokerError Conflict "lease_replayed")), m)
      else ((cloneRecord (consumed record), None), set_record m leaseID (consumed record))
  end.

Definition revoke_locked (m : LeaseMemory) (leaseID reason : string) : result (go_error Error) LeaseRecord * LeaseMemory :=
  match lm_records m !! leaseID with
  | None => (Err (brokerError Denied "lease_not_found"), m)
  | Some record => (Ok (cloneRecord (revoked reason record)), set_record m leaseID (revoked reason record))
  end.

Definition in_scope (organizationID tenantID caseID : string) (record : LeaseRecord) : bool :=
  let scope := iq_Context (le_Request record) in
  String.eqb (cx_OrganizationID scope) organizationID && String.eqb (cx_TenantID scope) tenantID &&
  (String.eqb caseID "" || String.eqb (cx_CaseID scope) caseID).

(** Every record is visited once, in no particular order. *)
Definition revoke_scope_locked (m : LeaseMemory) (organizationID tenantID caseID reason : string) : Z * LeaseMemory :=
  let matched := in_scope organizationID tenantID caseID in
  (Z.of_nat (size (filter (fun kv => matched (snd kv) = true) (lm_records m))),
   mkLeaseMemory ((fun record => if matched record then revoked reason record else record) <$> lm_records m)
     (lm_requests m) (lm_tokens m)).

(** A world that holds the store *)
Class HasLeases (W : Type) : Type := {
  leases : W -> LeaseMemory;
  set_leases : LeaseMemory -> W -> W;
  leases_set : forall m w, leases (set_leases m w) = m }.

(** Refused by the context, or the critical section *)
Definition lease_locked {W A} {has : HasLeases W} (ctx : context W) (refused : go_error Error -> A)
  (section : LeaseMemory -> A * LeaseMemory) : W -> A * W := fun w =>
  match secret_ctx_err ctx w with
  | Some err => (refused err, w)
  | None => let '(r, m) := section (leases w) in (r, set_leases m w)
  end.

#[export] Instance lease_memory {W} {has : HasLeases W} : LeaseStore W := {|
  store_Create ctx record := lease_locked ctx Err (fun m => let '(r, m) := create_locked m record in (Ok r, m));
  store_Claim ctx leaseID tokenDigest now :=
    lease_locked ctx (fun err => (zero_lease, Some err)) (fun m => claim_locked m leaseID tokenDigest now);
  store_Revoke ctx leaseID reason := lease_locked ctx Err (fun m => revoke_locked m leaseID reason);
  store_RevokeScope ctx organizationID tenantID caseID reason :=
    lease_locked ctx Err (fun m => let '(n, m) := revoke_scope_locked m organizationID tenantID caseID reason in (Ok n, m)) |}.

(** ** estop_control.go *)

Definition emergencyStopControlID : string := "credential-leases".

Definition lease_scopeKey (scope : Scope) : string :=
  sc_Kind scope ++ NULs ++ sc_OrganizationID scope ++ NULs ++ sc_TenantID scope ++ NULs ++ sc_CaseID scope.

(** The evidence of an application: the scope, the epoch and the number of leases *)
Definition control_evidence (request : ControlRequest) (count : Z) : string :=
  digest (lease_scopeKey (cq_Scope request) ++ NULs ++ format_uint (cq_Epoch request) ++ NULs ++ format_int count).

(** [EmergencyStopControl.Apply] *)
Definition apply_lease_stop {W} {store : LeaseStore W} (ctx : context W) (request : ControlRequest) : prog W (go_error Error) string :=
  if (cq_Epoch request =? 0) || negb (is_ok (ValidateScope (cq_Scope request)))
  then pure (Err (brokerError InvalidInput "stop_control_request_invalid"))
  else
    count ← store_RevokeScope ctx (sc_OrganizationID (cq_Scope request)) (sc_TenantID (cq_Scope request))
      (sc_CaseID (cq_Scope request)) "emergency_stop";
    mret (control_evidence request count).

(** ** internal/broker/estop as the guard of the broker *)

#[export] Instance stop_guard {W} {states : EStopController.Store W} : StopGuard W := {|
  guard_Allow ctx organizationID tenantID caseID := Allow ctx organizationID tenantID caseID |}.

(** ** internal/broker/secretresolver as its source of secrets *)

Definition secret_source {W} {audit : ResolverPorts W} (backends : gmap string (Backend W)) : SecretSource W := {|
  source_Resolve ctx request authority := Resolve backends ctx request authority |}.
