(* ===== verification/LeaseFacts.v ===== *)
(** * Credential leases: pools of goroutines and what a lease store promises

    The rule for goroutines that share a world in which keys are spent: each of them may spend
    one key and owns it then, so no two results can own the same.  [LeaseLaws] is what a store
    of leases promises its brokers. *)

From S2P Require Import Prelude GoStrings GoRegexp GoTime GoJson DomainContract Sha256 Domain GoStruct TamperAudit Storage Policy ApprovalBroker EStop EStopController EStopStore EStopFacts SecretRef SecretResolver CredentialLease LeaseBroker.

Local Open Scope string_scope.
Local Open Scope Z_scope.

(** ** Goroutines that spend keys *)

(** A relation holds between the worlds before and after every call. *)
Fixpoint every_call {W A} (R : W -> W -> Prop) (m : routine W A) : Prop :=
  match m with
  | Return _ => True
  | Call call rest => (forall w, R w (snd (call w))) /\ forall b, every_call R (rest b)
  end.

Section pools.
Context {W K : Type} (I : W -> Prop) (spent : W -> K -> Prop).

(** The invariant is kept and what is spent stays spent. *)
Definition safe_step (w w' : W) : Prop := I w -> I w' /\ forall k, spent w k -> spent w' k.

(** The goroutine ends with a result that [Q] allows for the key it owns; until it owns a
    key, one of its calls may spend one. *)
Fixpoint safe {A} (Q : A -> option K -> Prop) (m : routine W A) (own : option K) : Prop :=
  match m with
  | Return a => Q a own
  | Call call rest => forall w, I w ->
      safe_step w (snd (call w)) /\
      (safe Q (rest (fst (call w))) own \/
       own = None /\ exists k, ~ spent w k /\ spent (snd (call w)) k /\ safe Q (rest (fst (call w))) (Some k))
  end.

Lemma safe_weaken {A} (Q Q' : A -> option K -> Prop) m own : (forall a o, Q a o -> Q' a o) -> safe Q m own -> safe Q' m own.
Proof.
  intros HQ. revert own. induction m as [a|B call rest IH]; intros own; cbn; [apply HQ|]. intros H w Hw.
  destruct (H w Hw) as [Hs [Hr|(-> & k & Hn & Hk & Hr)]]; split; [done|left; by apply IH|done|right].
  split; [done|]. exists k. split_and!; [done..|]. by apply IH.
Qed.

Lemma safe_bind {A B} (Q : B -> option K -> Prop) (m : routine W A) (f : A -> routine W B) own :
  safe (fun a o => safe Q (f a) o) m own -> safe Q (m ≫= f) own.
Proof.
  revert own. induction m as [a|C call rest IH]; intros own; [done|]. intros H w Hw.
  destruct (H w Hw) as [Hs [Hr|(-> & k & Hn & Hk & Hr)]]; split; [done|left; by apply IH|done|right].
  split; [done|]. exists k. split_and!; [done..|]. by apply IH.
Qed.

(** A goroutine that spends nothing *)
Lemma safe_quiet {A} (Q : A -> option K -> Prop) (m : routine W A) own :
  every_call safe_step m -> (forall a, may_return m a -> Q a own) -> safe Q m own.
Proof.
  intros Hm HQ. induction m as [a|C call rest IH]; [by apply HQ|]. destruct Hm as [Hc Hr]. intros w Hw. split; [apply Hc|left].
  apply IH; [apply Hr|]. intros a Ha. apply HQ. by exists w.
Qed.

(** What a run of one goroutine can do to the key it owns *)
Definition acquires (w : W) (own own' : option K) (w' : W) : Prop :=
  own' = own \/ own = None /\ exists k, own' = Some k /\ ~ spent w k /\ spent w' k.

Lemma run_alone_safe {A} (Q : A -> option K -> Prop) (m : routine W A) own w a w' : safe Q m own -> I w ->
  run_alone m w = (a, w') -> I w' /\ (forall k, spent w k -> spent w' k) /\ exists own', Q a own' /\ acquires w own own' w'.
Proof.
  revert own w. induction m as [x|C call rest IH]; intros own w H Hw; cbn.
  { intros [= <- <-]. split_and!; [done..|]. exists own. split; [done|by left]. }
  destruct (H w Hw) as [Hs Hr]. destruct (call w) as [b w1]. cbn [fst snd] in *. destruct (Hs Hw) as [Hw1 Hk1]. intros Hrun.
  destruct Hr as [Hr|(-> & k & Hn & Hk & Hr)]; destruct (IH _ _ _ Hr Hw1 Hrun) as (Hw' & Hk' & own' & HQ & Hacq).
  - split_and!; [done|by auto|]. exists own'. split; [done|]. destruct Hacq as [->|(-> & k & -> & Hn & Hk)]; [by left|right].
    split; [done|]. exists k. split_and!; [done| |done]. intros Hs1. by apply Hn, Hk1.
  - split_and!; [done|by auto|]. exists own'. split; [done|]. right. split; [done|].
    destruct Hacq as [->|(? & _)]; [|done]. exists k. by auto.
Qed.

(** The keys of a pool *)
Definition keys (owns : list (option K)) : list K := omap id owns.

(** The goroutines own different keys, all spent. *)
Definition owned (owns : list (option K)) (w : W) : Prop := NoDup (keys owns) /\ forall k, k ∈ keys owns -> spent w k.

Lemma finish_safe {A} (Q : A -> option K -> Prop) (pool : list (routine W A)) owns w results w' :
  Forall2 (safe Q) pool owns -> I w -> owned owns w -> finish pool w = (results, w') ->
  I w' /\ exists owns', Forall2 Q results owns' /\ owned owns' w' /\
  (forall k, spent w k -> spent w' k) /\ forall k, k ∈ keys owns' -> k ∈ keys owns \/ ~ spent w k.
Proof.
  intros H. revert w results w'. induction H as [|m own pool owns Hm Hp IH]; intros w results w' Hw [Hnd Hsp] Hrun.
  { cbn in Hrun. injection Hrun as <- <-. split; [done|]. exists []. split_and!; [constructor|by split|done|tauto]. }
  cbn in Hrun. destruct (run_alone m w) as [a w1] eqn:Ha. destruct (finish pool w1) as [rest w2] eqn:Hf. injection Hrun as <- <-.
  destruct (run_alone_safe _ _ _ _ _ _ Hm Hw Ha) as (Hw1 & Hk1 & own' & HQ & Hacq).
  assert (Htail : NoDup (keys owns) /\ forall k, k ∈ keys owns -> spent w k).
  { destruct own as [k|]; cbn in Hnd, Hsp; [|done]. apply NoDup_cons in Hnd as [_ Hnd]. split; [done|]. intros k' Hk'.
    apply Hsp. by apply list_elem_of_further. }
  destruct (IH w1 rest w2 Hw1 (conj (proj1 Htail) (fun k Hk => Hk1 k (proj2 Htail k Hk))) Hf)
    as (Hw2 & owns' & HQs & [Hnd' Hsp'] & Hk2 & Hnew). split; [done|]. exists (own' :: owns').
  assert (Hfresh : forall k, own' = Some k -> spent w1 k /\ k ∉ keys owns /\ (own = Some k \/ ~ spent w k)).
  { intros k ->. destruct Hacq as [<-|(-> & k' & [= <-] & Hn & Hk)].
    - cbn in Hnd, Hsp. apply NoDup_cons in Hnd as [Hnot _]. split_and!; [|done|by left]. apply Hk1, Hsp. by left.
    - split_and!; [done| |by right]. intros Hin. by apply Hn, (proj2 Htail). }
  split_and!; [by constructor| |by auto|].
  - destruct own' as [k|]; [|by split]. destruct (Hfresh k eq_refl) as (Hs1 & Hnot & _). split; cbn.
    + apply NoDup_cons. split; [|done]. intros Hin. destruct (Hnew k Hin) as [?|Hn]; [done|]. by apply Hn.
    + intros k' [->|Hin]%elem_of_cons; [by apply Hk2|by apply Hsp'].
  - intros k Hk. assert (Hcases : own' = Some k \/ k ∈ keys owns').
    { destruct own' as [k'|]; [|by right]. cbn in Hk. apply elem_of_cons in Hk as [->|Hk]; [by left|by right]. }
    destruct Hcases as [->|Hin].
    + destruct (Hfresh k eq_refl) as (_ & _ & [->|Hn]); [left; by left|by right].
    + destruct (Hnew k Hin) as [Hin'|Hn]; [left|right; by auto]. destruct own; [by apply list_elem_of_further|done].
Qed.

Lemma keys_insert owns n k own' : owns !! n = Some None -> k ∈ keys (<[n := own']> owns) -> k ∈ keys owns \/ own' = Some k.
Proof.
  intros Hn. unfold keys. rewrite !list_elem_of_omap. intros (o & Ho & Hk). apply list_elem_of_lookup in Ho as [i Hi].
  rewrite list_lookup_insert_Some in Hi. destruct Hi as [(-> & -> & _)|[_ Hi]]; [by right|left].
  exists o. split; [by eapply list_elem_of_lookup_2|done].
Qed.

Lemma nodup_insert owns n k : owns !! n = Some None -> k ∉ keys owns -> NoDup (keys owns) -> NoDup (keys (<[n := Some k]> owns)).
Proof.
  intros Hn Hk Hnd. rewrite (insert_take_drop _ _ _ (lookup_lt_Some _ _ _ Hn)).
  pose proof (take_drop_middle owns n None Hn) as E. rewrite <- E in Hk, Hnd. unfold keys in *. rewrite omap_app in Hk, Hnd |- *. cbn in Hk, Hnd |- *.
  apply NoDup_app in Hnd as (H1 & H2 & H3). rewrite elem_of_app in Hk. apply NoDup_app. split_and!; [done| |].
  - intros x Hx [->|Hin]%elem_of_cons; [tauto|by eapply H2].
  - apply NoDup_cons. split; [tauto|done].
Qed.

Lemma advance_safe {A} (Q : A -> option K -> Prop) (pool : list (routine W A)) owns w n pool' w' :
  Forall2 (safe Q) pool owns -> I w -> owned owns w -> advance_at (pool, w) n = (pool', w') ->
  I w' /\ exists owns', Forall2 (safe Q) pool' owns' /\ owned owns' w'.
Proof.
  intros H Hw Hown. unfold advance_at. destruct (pool !! n) as [[a|B call rest]|] eqn:Hn;
    [intros [= <- <-]; by eauto| |intros [= <- <-]; by eauto].
  destruct (Forall2_lookup_l _ _ _ _ _ H Hn) as (own & Ho & Hm). destruct (Hm w Hw) as [Hs Hr].
  destruct (call w) as [b w1]. cbn [fst snd] in *. intros [= <- <-]. destruct (Hs Hw) as [Hw1 Hk]. split; [done|].
  destruct Hown as [Hnd Hsp]. destruct Hr as [Hr|(-> & k & Hfresh & Hk1 & Hr)].
  - exists owns. split; [|split; by auto]. rewrite <- (list_insert_id owns n own Ho). by apply Forall2_insert.
  - exists (<[n := Some k]> owns). split; [by apply Forall2_insert|]. split.
    + apply nodup_insert; [done| |done]. intros Hin. by apply Hfresh, Hsp.
    + intros k' [Hin|[= ->]]%keys_insert; [by auto|done|done].
Qed.

(** The results of a pool own different keys. *)
Lemma run_pool_safe {A} (Q : A -> option K -> Prop) schedule (pool : list (routine W A)) w results w' :
  Forall (fun m => safe Q m None) pool -> I w -> run_pool schedule pool w = (results, w') ->
  I w' /\ exists owns, Forall2 Q results owns /\ NoDup (keys owns).
Proof.
  intros Hpool Hw. assert (Hall : Forall2 (safe Q) pool (map (fun _ => None) pool)).
  { induction Hpool; constructor; auto. }
  assert (Hkeys : owned (map (fun _ => None) pool) w).
  { clear. induction pool as [|m pool IH]; [split; [constructor|by intros k Hk%elem_of_nil]|exact IH]. }
  clear Hpool. revert Hall Hw Hkeys. generalize (map (fun _ : routine W A => @None K) pool) as owns. unfold run_pool.
  revert pool w. induction schedule as [|n schedule IH]; intros pool w owns Hall Hw Hkeys; cbn [fold_left].
  - intros Hrun. destruct (finish_safe _ _ _ _ _ _ Hall Hw Hkeys Hrun) as (Hw' & owns' & HQ & [Hnd _] & _).
    split; [done|]. by exists owns'.
  - destruct (advance_at (pool, w) n) as [pool1 w1] eqn:Ha.
    destruct (advance_safe _ _ _ _ _ _ _ Hall Hw Hkeys Ha) as (Hw1 & owns1 & Hall1 & Hk1). by apply (IH pool1 w1 owns1).
Qed.
End pools.

(** ** What a store of leases promises *)

(** The same lease, later: revocation and use are never undone. *)
Definition later (r r' : LeaseRecord) : Prop :=
  (exists revoked reason consumed, r' = with_state r revoked reason consumed) /\
  (le_Revoked r = true -> le_Revoked r' = true) /\ (le_Consumed r = true -> le_Consumed r' = true).

#[export] Instance later_preorder : PreOrder later.
Proof.
  split; [intros [? ? ? ? ? ? ? a b c]; split; [by exists a, b, c|done]|].
  intros r r' r'' [(a & b & c & ->) [H1 H2]] [(a' & b' & c' & ->) [H3 H4]]. split; [by exists a', b', c'|]. cbn in *. tauto.
Qed.

Class LeaseLaws (W : Type) {store : LeaseStore W} : Type := {
  lease : W -> string -> option LeaseRecord;
  (* no lease is made or lost *)
  evolves := fun w w' : W => forall id,
    match lease w id, lease w' id with Some r, Some r' => later r r' | None, None => True | _, _ => False end;
  claim_evolves : forall ctx id digest now w, evolves w (snd (store_Claim ctx id digest now w));
  claim_law : forall ctx id digest now w r w', store_Claim ctx id digest now w = ((r, None), w') ->
    exists r0, lease w id = Some r0 /\ le_tokenDigest r0 = digest /\ le_Revoked r0 = false /\
      before now (le_ExpiresAt r0) = true /\ le_Consumed r0 = false /\ r = cloneRecord (consumed r0) /\
      lease w' id = Some (consumed r0);
  create_law : forall ctx record w, let '(answer, w') := store_Create ctx record w in
    evolves w w' \/
    lease w (le_LeaseID record) = None /\ lease w' (le_LeaseID record) = Some (cloneRecord record) /\
    answer = Ok CreateNew /\ forall id, id <> le_LeaseID record -> lease w' id = lease w id;
  revoke_evolves : forall ctx id reason w, evolves w (snd (store_Revoke ctx id reason w));
  revoke_law : forall ctx id reason w r w', store_Revoke ctx id reason w = (Ok r, w') ->
    exists r0, lease w' id = Some r0 /\ le_Revoked r0 = true;
  scope_evolves : forall ctx o t c reason w, evolves w (snd (store_RevokeScope ctx o t c reason w));
  scope_law : forall ctx o t c reason w n w', store_RevokeScope ctx o t c reason w = (Ok n, w') ->
    forall id r, lease w' id = Some r -> in_scope o t c r = true -> le_Revoked r = true }.

(** A lease as [Issue] makes it: asked for by a valid request, under the authority that was
    checked when it was issued, and expiring when the request or the broker says *)
Record issued (maxTTL : Z) (id : string) (r : LeaseRecord) : Prop := {
  is_identity : le_LeaseID r = id;
  is_request : ValidateIssuanceRequest (le_Request r) = Ok tt;
  is_authority : lease_validateAuthority (le_Request r) (le_Authority r) (le_IssuedAt r) = Ok tt;
  is_expiry : le_ExpiresAt r =
    time_add (le_IssuedAt r) (Z.min (iq_RequestedTTLSeconds (le_Request r) * second) maxTTL) }.

Lemma issued_later maxTTL id r r' : later r r' -> issued maxTTL id r -> issued maxTTL id r'.
Proof. intros [(a & b & c & ->) _] []. by split. Qed.

(** A valid request has targets, so that copying its slice changes nothing. *)
Lemma clone_valid r : ValidateIssuanceRequest (le_Request r) = Ok tt -> cloneRecord r = r.
Proof.
  unfold ValidateIssuanceRequest. rewrite !seq_ok, !deny_if_ok. intros (_ & _ & H & _). apply negb_false_iff in H.
  unfold validTargets in H. bool_split. destruct r as [i td rd q au t1 t2 b1 s b2], q as [a b c d e f g targets h i' j k l]. cbn in *.
  unfold cloneRecord. cbn. by destruct targets as [[|x targets]|].
Qed.

Section laws.
Context {W : Type} {store : LeaseStore W} {laws : LeaseLaws W} (maxTTL : Z).

(** Every lease was issued. *)
Definition leases_ok (w : W) : Prop := forall id r, lease w id = Some r -> issued maxTTL id r.

Definition used_up (w : W) (id : string) : Prop := exists r, lease w id = Some r /\ le_Consumed r = true.

Lemma evolves_refl (w : W) : evolves w w.
Proof. intros id. by destruct (lease w id). Qed.

Lemma evolves_trans (w1 w2 w3 : W) : evolves w1 w2 -> evolves w2 w3 -> evolves w1 w3.
Proof.
  intros H1 H2 id. specialize (H1 id). specialize (H2 id).
  destruct (lease w1 id), (lease w2 id), (lease w3 id); try done. by etrans.
Qed.

Lemma evolves_back w w' id r' : evolves w w' -> lease w' id = Some r' -> exists r, lease w id = Some r /\ later r r'.
Proof. intros H Hr. specialize (H id). rewrite Hr in H. destruct (lease w id) as [r|]; [by exists r|done]. Qed.

Lemma evolves_forth w w' id r : evolves w w' -> lease w id = Some r -> exists r', lease w' id = Some r' /\ later r r'.
Proof. intros H Hr. specialize (H id). rewrite Hr in H. destruct (lease w' id) as [r'|]; [by exists r'|done]. Qed.

Lemma evolves_safe w w' : evolves w w' -> safe_step leases_ok used_up w w'.
Proof.
  intros H Hok. split.
  - intros id r' Hr. destruct (evolves_back _ _ _ _ H Hr) as (r & Hr0 & Hl). eapply issued_later; [done|by apply Hok].
  - intros id (r & Hr & Hc). destruct (evolves_forth _ _ _ _ H Hr) as (r' & Hr' & _ & _ & Hc'). exists r'. auto.
Qed.

Lemma create_safe ctx record w : issued maxTTL (le_LeaseID record) record ->
  safe_step leases_ok used_up w (snd (store_Create ctx record w)).
Proof.
  intros Hi. pose proof (create_law ctx record w) as H. destruct (store_Create ctx record w) as [answer w']. cbn [snd].
  destruct H as [H|(Hn & Hc & _ & Hother)]; [by apply evolves_safe|]. rewrite (clone_valid record (is_request _ _ _ Hi)) in Hc.
  intros Hok. split.
  - intros id r Hr. destruct (decide (id = le_LeaseID record)) as [->|Hne]; [by simplify_eq|]. apply Hok. by rewrite <- Hother.
  - intros id (r & Hr & Hcon). exists r. split; [|done]. rewrite Hother; [done|]. intros ->. congruence.
Qed.

(** The new lease of an issuance is one that is [issued]. *)
Lemma new_lease_issued request authority id token now :
  ValidateIssuanceRequest request = Ok tt -> lease_validateAuthority request authority now = Ok tt ->
  issued maxTTL id (new_lease maxTTL request authority id token now).
Proof.
  intros Hr Ha. split; [done..|]. cbn. f_equal. destruct (Z.ltb_spec maxTTL (iq_RequestedTTLSeconds request * second)); lia.
Qed.
End laws.
