(* ===== verification/LeaseSafety.v ===== *)
(** * Credential leases: every released secret, in every interleaving

    What the broker does with a store that keeps [LeaseLaws], whatever goroutines issue, use
    and revoke leases at the same time. *)

From S2P Require Import Prelude GoStrings GoRegexp GoTime GoJson DomainContract Sha256 Domain GoStruct TamperAudit Storage Policy ApprovalBroker EStop EStopController EStopStore EStopFacts SecretRef SecretResolver CredentialLease LeaseBroker LeaseFacts.

Local Open Scope string_scope.
Local Open Scope Z_scope.

Lemma every_call_weaken {W A} (R R' : W -> W -> Prop) (m : routine W A) :
  (forall w w', R w w' -> R' w w') -> every_call R m -> every_call R' m.
Proof. intros HR. induction m as [a|B call rest IH]; [done|]. intros [Hc Hr]. split; [auto|]. intros b. by apply IH. Qed.

Lemma every_call_bind {W A B} (R : W -> W -> Prop) (m : routine W A) (f : A -> routine W B) :
  every_call R m -> (forall a, every_call R (f a)) -> every_call R (m ≫= f).
Proof. intros Hm Hf. induction m as [a|C call rest IH]; [by apply Hf|]. destruct Hm as [Hc Hr]. split; [done|]. intros b. by apply IH. Qed.

Lemma every_call_one {W B} (R : W -> W -> Prop) (call : W -> B * W) : (forall w, R w (snd (call w))) -> every_call R (calls call).
Proof. by split. Qed.

(** A goroutine that starts with one that spends nothing *)
Lemma safe_after {W K A B} (I : W -> Prop) (spent : W -> K -> Prop) (Q : B -> option K -> Prop) (m : routine W A)
  (f : A -> routine W B) own :
  every_call (safe_step I spent) m -> (forall a, may_return m a -> safe I spent Q (f a) own) -> safe I spent Q (m ≫= f) own.
Proof. intros Hm Hf. apply safe_bind, safe_quiet; [done|]. done. Qed.

(** The ports of the broker neither make nor lose leases, nor lift a revocation or a use. *)
Class LeaseAloof (W : Type) {store : LeaseStore W} {laws : LeaseLaws W} {stop : StopGuard W} {resolver : SecretSource W}
  {ports : LeasePorts W} {has : HasCells W} : Prop := {
  aloof_now : forall w, evolves w (snd (LeaseNow w));
  aloof_random : forall n w, evolves w (snd (ReadFull n w));
  aloof_append : forall d w, evolves w (snd (AppendCredentialLeaseDecision d w));
  aloof_cells : forall l w, evolves w (set_cells l w);
  aloof_guard : forall ctx o t c, every_call evolves (guard_Allow ctx o t c);
  aloof_source : forall ctx request authority, every_call evolves (source_Resolve ctx request authority) }.

(** The scope that is presented is the scope of the lease. *)
Record within (record : LeaseRecord) (request : DispatchRequest) : Prop := {
  wi_context : dr_Context request = iq_Context (le_Request record);
  wi_task : dr_TaskID request = iq_TaskID (le_Request record);
  wi_action : dr_ActionDigest request = iq_ActionDigest (le_Request record);
  wi_targets : elements (dr_TargetDigests request) = elements (iq_TargetDigests (le_Request record));
  wi_operation : dr_Operation request = iq_Operation (le_Request record);
  wi_audience : dr_Audience request = iq_Audience (le_Request record) }.

(** Fresh authority: what was allowed at issuance still is, and the audience was seen lately. *)
Record current (record : LeaseRecord) (authority : DispatchAuthority) (now : Time) : Prop := {
  cu_task : da_TaskActive authority = true;
  cu_stop : da_EmergencyStopActive authority = false;
  cu_authority : lease_validateAuthority (le_Request record) (da_IssuanceAuthority authority) now = Ok tt;
  cu_unchanged : sameAuthority (le_Authority record) (da_IssuanceAuthority authority) = true }.

Lemma validateDispatch_ok record request authority now : validateDispatch record request authority now = Ok tt ->
  within record request /\ current record authority now.
Proof.
  unfold validateDispatch. rewrite !seq_ok, !deny_if_ok. intros (_ & _ & H1 & H2 & H3 & H4 & H5 & H6 & H7). bool_split.
  repeat match goal with
  | H : bool_decide _ = true |- _ => apply bool_decide_eq_true in H
  | H : String.eqb _ _ = true |- _ => apply String.eqb_eq in H
  end.
  split; split; try done. destruct (dr_Audience request), (iq_Audience (le_Request record)). cbn in *. congruence.
Qed.

Section safety.
Context {W : Type} {store : LeaseStore W} {laws : LeaseLaws W} {stop : StopGuard W} {resolver : SecretSource W}
  {ports : LeasePorts W} {has : HasCells W} {aloof : LeaseAloof W} (maxTTL : Z).

(** What stands behind a secret that is given to a consumer: [ld_OccurredAt] of its audited
    decision is the reading of the clock at which everything was judged current, and
    [ld_SecretDecisionDigest] names the decision that the source made for the secret. *)
Record authorised (ctx : context W) (request : DispatchRequest) (authority : DispatchAuthority) (release : Release) : Prop := {
  ar_issued : issued maxTTL (le_LeaseID (rl_record release)) (rl_record release);
  ar_live : le_Revoked (rl_record release) = false;
  ar_within : within (rl_record release) request;
  ar_current : exists now w w', LeaseNow w = (now, w') /\
    ld_OccurredAt (rl_decision release) = to_utc now /\
    before (to_utc now) (le_ExpiresAt (rl_record release)) = true /\ current (rl_record release) authority (to_utc now);
  ar_allowed : let bound := iq_Context (le_Request (rl_record release)) in
    may_return (guard_Allow ctx (cx_OrganizationID bound) (cx_TenantID bound) (cx_CaseID bound)) None;
  ar_secret : exists decision, may_return
    (source_Resolve ctx (resolution_request (rl_record release)) (resolution_authority authority))
    (Some (rl_secret release), decision, None) /\
    ld_SecretDecisionDigest (rl_decision release) = SecretRef.de_DecisionDigest decision;
  ar_audited : ld_Outcome (rl_decision release) = "allowed" /\ ld_LeaseID (rl_decision release) = le_LeaseID (rl_record release) /\
    exists w w', AppendCredentialLeaseDecision (rl_decision release) w = (Ok tt, w') }.

Local Notation leases_safe := (safe_step (leases_ok maxTTL) used_up).

Lemma quiet {A} (m : routine W A) : every_call evolves m -> every_call leases_safe m.
Proof. apply every_call_weaken, evolves_safe. Qed.

Lemma now_evolves : every_call evolves lease_now.
Proof. apply every_call_one. intros w. pose proof (aloof_now w) as H. by destruct (LeaseNow w). Qed.

Lemma look_evolves {A} (f : W -> A) : every_call evolves (calls (fun w => (f w, w))).
Proof. apply every_call_one. intros w. apply evolves_refl. Qed.

Lemma Destroy_evolves handle : every_call evolves (Destroy handle).
Proof.
  apply every_call_one. intros w. destruct (cells w !! ha_cell handle) as [cell|]; [|apply evolves_refl].
  destruct (cl_dead cell); [apply evolves_refl|apply aloof_cells].
Qed.

Lemma recordDispatch_evolves record request authority id err digest now :
  every_call evolves (recordDispatch record request authority id err digest now).
Proof. apply every_call_bind; [apply every_call_one, aloof_append|]. by intros []. Qed.

(** What can become of a use, for the lease it consumed *)
Definition use_result (ctx : context W) (request : DispatchRequest) (authority : DispatchAuthority)
  (r : use_outcome) (own : option string) : Prop :=
  match r with
  | inl _ => True
  | inr release => own = Some (le_LeaseID (rl_record release)) /\ authorised ctx request authority release
  end.

Local Notation use_safe ctx request authority := (safe (leases_ok maxTTL) used_up (use_result ctx request authority)).

Lemma refuse_safe ctx request authority record now id err digest own :
  use_safe ctx request authority (refuse_use record request authority now id err digest) own.
Proof. apply safe_after; [apply quiet, recordDispatch_evolves|]. done. Qed.

Lemma recordDispatch_audited record request authority id digest now decision :
  may_return (recordDispatch record request authority id None digest now) (decision, None) ->
  decision = dispatchDecision record request authority id None digest now /\
  exists w w', AppendCredentialLeaseDecision decision w = (Ok tt, w').
Proof.
  unfold recordDispatch. intros (appended & (w & w' & Ha)%may_calls & H)%may_bind. destruct appended as [[]|e]; [|done].
  injection H as ->. split; [done|by exists w, w'].
Qed.

(** The fields of the decision of an authorised use *)
Lemma dispatchDecision_fields record request authority id digest now :
  let decision := dispatchDecision record request authority id None digest now in
  ld_Outcome decision = "allowed" /\ ld_LeaseID decision = id /\ ld_OccurredAt decision = now /\
  ld_SecretDecisionDigest decision = digest.
Proof. unfold dispatchDecision. destruct (String.eqb _ _); split_and!; reflexivity. Qed.

(** After the claim *)
Lemma claimed_safe ctx handle request authority record w w' t : LeaseNow w = (t, w') ->
  issued maxTTL (le_LeaseID record) record -> le_Revoked record = false -> before (to_utc t) (le_ExpiresAt record) = true ->
  use_safe ctx request authority (use_claimed ctx handle request authority (to_utc t) record) (Some (le_LeaseID record)).
Proof.
  intros Hnow Hi Hr Hb. apply safe_after; [apply quiet, Destroy_evolves|]. intros _ _.
  apply safe_after; [apply quiet, aloof_guard|]. intros [err|] Hallow; [apply refuse_safe|].
  destruct (validateDispatch _ _ _ _) as [[]|err] eqn:Hv; [|apply refuse_safe].
  apply safe_after; [apply quiet, aloof_source|]. intros [[secret secretDecision] [err|]] Hres; [apply refuse_safe|].
  destruct secret as [secret|]; [|apply refuse_safe].
  apply safe_after; [apply quiet, recordDispatch_evolves|]. intros [decision [err|]] Hrec; [done|].
  split; [done|]. apply validateDispatch_ok in Hv as [Hwithin Hcurrent].
  apply recordDispatch_audited in Hrec as [-> Haudited].
  destruct (dispatchDecision_fields record request authority (le_LeaseID record) (SecretRef.de_DecisionDigest secretDecision)
    (to_utc t)) as (Ho & Hid & Hat & Hdigest).
  split; try done.
  - by exists t, w, w'.
  - by exists secretDecision.
Qed.

Lemma normalize_evolves (ctx : context W) err : every_call evolves (normalizeLeaseError ctx err).
Proof. apply every_call_bind; [apply look_evolves|done]. Qed.

Lemma prepare_use_safe ctx handle request authority consumer_nil :
  use_safe ctx request authority (prepare_use ctx handle request authority consumer_nil) None.
Proof.
  apply safe_after; [apply quiet, now_evolves|]. intros now (w0 & w0' & Hnow)%may_calls.
  destruct (LeaseNow w0) as [t w1] eqn:Ht. injection Hnow as <- <-.
  apply safe_after; [apply quiet, look_evolves|]. intros [err|] _; [apply refuse_safe|].
  destruct handle as [handle|]; [destruct consumer_nil|]; [apply refuse_safe| |apply refuse_safe].
  apply safe_after; [apply quiet, look_evolves|]. intros [digest|err] _; [|apply refuse_safe].
  intros w Hw. split; [apply evolves_safe, claim_evolves|].
  destruct (store_Claim ctx (ha_LeaseID handle) digest (to_utc t) w) as [[record [err|]] w'] eqn:Hc; cbn [fst snd].
  - left. apply safe_after; [|intros _ _]. { apply quiet. destruct (Code err); [apply Destroy_evolves..|done|done|done]. }
    apply safe_after; [apply quiet, normalize_evolves|]. intros resultErr _. apply refuse_safe.
  - right. split; [done|]. destruct (claim_law _ _ _ _ _ _ _ Hc) as (r0 & Hr0 & _ & Hrev & Hb & Hcon & Hrec & Hr1).
    pose proof (Hw _ _ Hr0) as Hi. exists (ha_LeaseID handle). split; [intros (r' & Hr' & Hc'); congruence|].
    split; [by exists (consumed r0)|]. pose proof (is_identity _ _ _ Hi) as Hid.
    assert (Hi' : issued maxTTL (ha_LeaseID handle) (consumed r0)) by (destruct Hi; by split).
    rewrite (clone_valid (consumed r0) (is_request _ _ _ Hi')) in Hrec. rewrite Hrec.
    assert (Hk : Some (ha_LeaseID handle) = Some (le_LeaseID (consumed r0))) by (cbn; by rewrite Hid). rewrite Hk.
    eapply claimed_safe; [done| |done|done]. rewrite <- Hid in Hi'. exact Hi'.
Qed.

(** ** Issuing and revoking *)

Lemma recordIssue_evolves ctx request authority id handle err digest t1 t2 :
  every_call evolves (recordIssue ctx request authority id handle err digest t1 t2).
Proof.
  apply every_call_bind; [apply every_call_one, aloof_append|]. intros [u|u]; [by destruct err|]. destruct handle as [handle|]; [|done].
  apply every_call_bind; [apply every_call_one; intros w; apply revoke_evolves|]. intros _.
  apply every_call_bind; [apply Destroy_evolves|done].
Qed.

Lemma issue_calls ctx request authority : every_call leases_safe (Issue maxTTL ctx request authority).
Proof.
  assert (Hrec : forall id handle err digest t1 t2, every_call leases_safe (recordIssue ctx request authority id handle err digest t1 t2))
    by (intros; apply quiet, recordIssue_evolves).
  apply every_call_bind; [apply quiet, now_evolves|]. intros now. apply every_call_bind; [apply quiet, look_evolves|].
  intros [err|]; [apply Hrec|]. destruct (ValidateIssuanceRequest request ;; _) as [[]|err] eqn:Hv; [|apply Hrec].
  apply seq_ok in Hv as [Hv Ha]. apply every_call_bind; [apply quiet, aloof_guard|]. intros [err|]; [apply Hrec|].
  apply every_call_bind; [apply quiet, every_call_one, aloof_random|]. intros [token|u]; [|apply Hrec].
  apply every_call_bind; [apply quiet, every_call_one, aloof_random|]. intros [identity|u]; [|apply Hrec].
  apply every_call_bind.
  { apply every_call_one. intros w. apply create_safe. by apply new_lease_issued. }
  intros [[]|err]; [|apply Hrec|apply Hrec|].
  - apply every_call_bind; [apply quiet, every_call_one; intros w; apply aloof_cells|]. intros handle. apply Hrec.
  - apply every_call_bind; [apply quiet, look_evolves|]. intros contextErr. apply Hrec.
Qed.

Lemma recordRevocation_evolves record id err now : every_call evolves (recordRevocation record id err now).
Proof. apply every_call_bind; [apply every_call_one, aloof_append|]. by intros []. Qed.

Lemma revoke_calls ctx request : every_call evolves (Revoke ctx request).
Proof.
  apply every_call_bind; [apply now_evolves|]. intros now. apply every_call_bind; [apply look_evolves|].
  intros [err|]; [apply recordRevocation_evolves|]. destruct (ValidateRevocationRequest request); [|apply recordRevocation_evolves].
  apply every_call_bind; [apply every_call_one; intros w; apply revoke_evolves|]. intros [record|err]; [apply recordRevocation_evolves|].
  apply every_call_bind; [apply normalize_evolves|]. intros normal. apply recordRevocation_evolves.
Qed.

Lemma control_evolves ctx request w : evolves w (snd (apply_lease_stop ctx request w)).
Proof.
  unfold apply_lease_stop. destruct (_ || _); [apply evolves_refl|]. unfold mbind, prog_bind.
  match goal with |- context [store_RevokeScope ?c ?o ?t ?k ?r w] => pose proof (scope_evolves c o t k r w) as H;
    destruct (store_RevokeScope c o t k r w) as [[n|e] w'] end; exact H.
Qed.

(** ** Any number of callers at once *)

(** What a goroutine of the broker's process does *)
Inductive broker_call : Type :=
| CallIssue (ctx : context W) (request : IssuanceRequest) (authority : IssuanceAuthority)
| CallUse (ctx : context W) (handle : option Handle) (request : DispatchRequest) (authority : DispatchAuthority)
    (consumer : option (string -> prog W unit unit))
| CallRevoke (ctx : context W) (request : RevocationRequest)
| CallStop (ctx : context W) (request : ControlRequest).

(** A secret that reached a consumer, with the call it answered *)
Record delivery : Type := mkDelivery {
  dl_ctx : context W; dl_request : DispatchRequest; dl_authority : DispatchAuthority; dl_release : Release }.

Definition delivered_lease (d : delivery) : string := le_LeaseID (rl_record (dl_release d)).

Definition serve (call : broker_call) : routine W (option delivery) :=
  match call with
  | CallIssue ctx request authority => _ ← Issue maxTTL ctx request authority; mret None
  | CallUse ctx handle request authority consumer =>
      used ← perform_use ctx handle request authority consumer;
      mret (option_map (mkDelivery ctx request authority) (snd used))
  | CallRevoke ctx request => _ ← Revoke ctx request; mret None
  | CallStop ctx request => _ ← calls (apply_lease_stop ctx request); mret None
  end.

(** A consumer may do anything but change leases. *)
Definition polite (call : broker_call) : Prop :=
  match call with
  | CallUse _ _ _ _ (Some consumer) => forall secret w, evolves w (snd (consumer secret w))
  | _ => True
  end.

Definition delivery_result (r : option delivery) (own : option string) : Prop :=
  match r with
  | None => True
  | Some d => own = Some (delivered_lease d) /\ authorised (dl_ctx d) (dl_request d) (dl_authority d) (dl_release d)
  end.

Lemma serve_safe call : polite call -> safe (leases_ok maxTTL) used_up delivery_result (serve call) None.
Proof.
  destruct call as [ctx request authority|ctx handle request authority consumer|ctx request|ctx request]; intros Hp.
  - apply safe_after; [apply issue_calls|done].
  - apply safe_bind, safe_bind. eapply safe_weaken; [|apply prepare_use_safe]. intros [answer|release] own HQ; [done|].
    destruct consumer as [consumer|]; [|done]. apply safe_after; [|intros answer _; exact HQ]. apply quiet.
    apply every_call_bind; [apply every_call_one, Hp|]. intros [u|u]; [done|]. apply every_call_bind; [apply look_evolves|done].
  - apply safe_after; [apply quiet, revoke_calls|done].
  - apply safe_after; [apply quiet, every_call_one, control_evolves|done].
Qed.

(** The deliveries of a pool, each standing on an authorised release of a lease of its own *)
Lemma pool_deliveries schedule calls w results w' : Forall polite calls -> leases_ok maxTTL w ->
  run_pool schedule (map serve calls) w = (results, w') ->
  leases_ok maxTTL w' /\ NoDup (map delivered_lease (omap id results)) /\
  Forall (fun d => authorised (dl_ctx d) (dl_request d) (dl_authority d) (dl_release d)) (omap id results).
Proof.
  intros Hp Hw Hrun. destruct (run_pool_safe (leases_ok maxTTL) used_up delivery_result schedule (map serve calls) w results w') as (Hw' & owns & HQ & Hnd);
    [|done|done|].
  { apply Forall_map. eapply Forall_impl; [done|]. intros call. apply serve_safe. }
  split; [done|]. clear Hrun Hw'. split.
  - revert Hnd. induction HQ as [|r own results owns Hr HQ IH]; cbn; [done|]. destruct r as [d|]; cbn.
    + destruct Hr as [-> _]. cbn. intros [Hnot Hnd]%NoDup_cons. apply NoDup_cons. split; [|by apply IH].
      intros Hin. apply Hnot. clear - HQ Hin. induction HQ as [|r own results owns Hr HQ IH]; cbn in *; [done|].
      destruct r as [d'|]; cbn in *; [destruct Hr as [-> _]; cbn|].
      * apply elem_of_cons in Hin as [Heq|Hin]; apply elem_of_cons; [left; exact Heq|right; by apply IH].
      * specialize (IH Hin). destruct own; [by apply list_elem_of_further|done].
    + destruct own; cbn; [intros [_ Hnd]%NoDup_cons|]; auto.
  - clear Hnd. induction HQ as [|r own results owns Hr HQ IH]; cbn; [constructor|]. destruct r as [d|]; cbn; [|done].
    constructor; [apply Hr|done].
Qed.
End safety.
