(* ===== verification/LeaseTheorems.v ===== *)
(** * Credential leases: the store in memory keeps its promise, and the properties

    [MemoryStore] discharges [LeaseLaws].  A lease releases one secret at most, to whom it was
    issued; under an emergency stop nothing is released; revocation is final; the secret is the
    current version of the entry the lease names. *)

From S2P Require Import Prelude GoStrings GoRegexp GoTime GoJson DomainContract Sha256 Domain GoStruct TamperAudit Storage Policy ApprovalBroker EStop EStopController EStopStore EStopFacts EStopTheorems SecretRef SecretResolver SecretResolverFacts CredentialLease LeaseBroker LeaseFacts LeaseSafety.

Local Open Scope string_scope.
Local Open Scope Z_scope.

(** ** The store in memory *)

Section memory.
Context {W : Type} {has : HasLeases W}.

Definition memory_lease (w : W) (id : string) : option LeaseRecord := lm_records (leases w) !! id.

(** The leases after a step of the store *)
Definition memory_evolves (m m' : LeaseMemory) : Prop := forall id,
  match lm_records m !! id, lm_records m' !! id with Some r, Some r' => later r r' | None, None => True | _, _ => False end.

Lemma memory_refl m : memory_evolves m m.
Proof. intros id. by destruct (lm_records m !! id). Qed.

Lemma later_consumed r : later r (consumed r).
Proof. split; [by eexists _, _, _|done]. Qed.

Lemma later_revoked reason r : later r (revoked reason r).
Proof. split; [by eexists _, _, _|done]. Qed.

Lemma set_record_evolves m id r r' : lm_records m !! id = Some r -> later r r' -> memory_evolves m (set_record m id r').
Proof.
  intros Hr Hl id'. cbn. destruct (decide (id = id')) as [<-|Hne].
  - by rewrite Hr, lookup_insert_eq.
  - rewrite lookup_insert_ne by done. by destruct (lm_records m !! id').
Qed.

Lemma claim_memory m id digest now : memory_evolves m (snd (claim_locked m id digest now)).
Proof.
  unfold claim_locked. destruct (lm_records m !! id) as [r|] eqn:Hr; [|apply memory_refl].
  repeat (case_match; [apply memory_refl|]). eapply set_record_evolves; [done|apply later_consumed].
Qed.

Lemma revoke_memory m id reason : memory_evolves m (snd (revoke_locked m id reason)).
Proof.
  unfold revoke_locked. destruct (lm_records m !! id) as [r|] eqn:Hr; [|apply memory_refl].
  eapply set_record_evolves; [done|apply later_revoked].
Qed.

Lemma scope_memory m o t c reason : memory_evolves m (snd (revoke_scope_locked m o t c reason)).
Proof.
  intros id. cbn. rewrite lookup_fmap. destruct (lm_records m !! id) as [r|]; [|done]. cbn.
  destruct (in_scope o t c r); [apply later_revoked|done].
Qed.

Lemma locked_memory {A} (ctx : context W) (refused : go_error Error -> A) section w :
  (forall m, memory_evolves m (snd (section m))) -> memory_evolves (leases w) (leases (snd (lease_locked ctx refused section w))).
Proof.
  intros H. unfold lease_locked. destruct (secret_ctx_err ctx w); [apply memory_refl|].
  specialize (H (leases w)). destruct (section (leases w)) as [r m]. cbn in *. by rewrite leases_set.
Qed.

(** A critical section that ran *)
Lemma locked_ran {A} (ctx : context W) (refused : go_error Error -> A) section w a w' :
  lease_locked ctx refused section w = (a, w') -> (forall err, refused err <> a) -> section (leases w) = (a, leases w').
Proof.
  unfold lease_locked. destruct (secret_ctx_err ctx w) as [err|]; [intros [= <- _] H; by destruct (H err)|].
  destruct (section (leases w)) as [r m]. intros [= <- <-] _. by rewrite leases_set.
Qed.

#[export] Program Instance lease_memory_laws : LeaseLaws W := {| lease := memory_lease |}.
Next Obligation. intros ctx id digest now w. apply locked_memory. intros m. apply claim_memory. Qed.
Next Obligation.
  intros ctx id digest now w r w' H%locked_ran; [|done]. unfold claim_locked in H.
  destruct (lm_records (leases w) !! id) as [r0|] eqn:Hr; [|done].
  destruct (String.eqb_spec (le_tokenDigest r0) digest) as [Hd|]; [|done]. cbn [negb] in H.
  destruct (le_Revoked r0) eqn:Hrev; [done|]. destruct (before now (le_ExpiresAt r0)) eqn:Hb; [|done]. cbn [negb] in H.
  destruct (le_Consumed r0) eqn:Hc; [done|]. injection H as <- Hw. exists r0. unfold memory_lease. rewrite <- Hw. cbn.
  by rewrite lookup_insert_eq.
Qed.
Next Obligation.
  intros ctx record w. destruct (store_Create ctx record w) as [answer w'] eqn:H. cbn in H. unfold lease_locked in H.
  destruct (secret_ctx_err ctx w); [injection H as <- <-; left; intros id; by destruct (memory_lease w id)|].
  unfold create_locked in H. unfold memory_lease.
  destruct (lm_requests (leases w) !! _) as [previous|].
  { injection H as <- <-. left. intros id. rewrite leases_set. by destruct (lm_records (leases w) !! id). }
  unfold has_key in H. destruct (lm_records (leases w) !! le_LeaseID record) as [r|] eqn:Hr.
  { injection H as <- <-. left. intros id. rewrite leases_set. by destruct (lm_records (leases w) !! id). }
  destruct (lm_tokens (leases w) !! le_tokenDigest record).
  { injection H as <- <-. left. intros id. rewrite leases_set. by destruct (lm_records (leases w) !! id). }
  injection H as <- <-. right. rewrite leases_set. cbn. split_and!; [done|by rewrite lookup_insert_eq|done|].
  intros id Hne. by rewrite lookup_insert_ne.
Qed.
Next Obligation. intros ctx id reason w. apply locked_memory. intros m. apply revoke_memory. Qed.
Next Obligation.
  intros ctx id reason w r w' H%locked_ran; [|done]. unfold revoke_locked in H.
  destruct (lm_records (leases w) !! id) as [r0|]; [|done]. injection H as <- Hw. exists (revoked reason r0).
  unfold memory_lease. rewrite <- Hw. cbn. by rewrite lookup_insert_eq.
Qed.
Next Obligation.
  intros ctx o t c reason w. apply locked_memory. intros m. exact (scope_memory m o t c reason).
Qed.
Next Obligation.
  intros ctx o t c reason w n w' H%locked_ran; [|done]. injection H as _ Hw. intros id r Hr Hin.
  unfold memory_lease in Hr. rewrite <- Hw in Hr. cbn in Hr. rewrite lookup_fmap in Hr.
  destruct (lm_records (leases w) !! id) as [r0|]; [|done]. injection Hr as <-. destruct (in_scope o t c r0) eqn:E; [done|].
  congruence.
Qed.
End memory.

Lemma new_leases_ok {W} {has : HasLeases W} maxTTL (w : W) : leases w = NewLeaseMemory -> leases_ok maxTTL w.
Proof. intros E id r Hr. cbn in Hr. unfold memory_lease in Hr. rewrite E in Hr. done. Qed.

(** ** Releases *)

Section releases.
Context {W : Type} {store : LeaseStore W} {laws : LeaseLaws W} {stop : StopGuard W} {resolver : SecretSource W}
  {ports : LeasePorts W} {cells : HasCells W} {aloof : LeaseAloof W}.

(** C6. A lease releases at most one secret: whatever goroutines issue, use and revoke leases
    and apply the emergency stop at the same time, in every interleaving of their calls (two
    uses of the same handle included), no two secrets that reach consumers are of the same
    lease. *)
Theorem leases_release_one_secret maxTTL schedule calls w results w' : Forall polite calls -> leases_ok maxTTL w ->
  run_pool schedule (map (serve maxTTL) calls) w = (results, w') ->
  NoDup (map delivered_lease (omap id results)).
Proof. intros Hp Hw Hrun. by apply (pool_deliveries maxTTL) in Hrun as (_ & Hnd & _). Qed.

(** C9. A secret reaches a consumer only under a lease that stands on every check, in every
    interleaving of the goroutines of a configured broker: the lease was issued on a valid
    request under allowed authority; the scope presented is the lease's, the authority is
    fresh and unchanged, the lease is not revoked and not older than five minutes at the reading
    of the clock that the audited decision carries; the emergency stop did not object; the
    secret was resolved for the lease's reference, by a decision that the audited one names;
    and that decision is in the audit log. *)
Theorem released_secrets_are_authorised dependency_nil maximumTTL maxTTL schedule calls w results w' :
  NewBroker dependency_nil maximumTTL = Ok maxTTL -> Forall polite calls -> leases_ok maxTTL w ->
  run_pool schedule (map (serve maxTTL) calls) w = (results, w') ->
  leases_ok maxTTL w' /\
  forall d, In (Some d) results ->
    authorised maxTTL (dl_ctx d) (dl_request d) (dl_authority d) (dl_release d) /\
    exists now wn wn', LeaseNow wn = (now, wn') /\ ld_OccurredAt (rl_decision (dl_release d)) = to_utc now /\
      nanos now - nanos (le_IssuedAt (rl_record (dl_release d))) < 300 * second.
Proof.
  intros Hnew Hp Hw Hrun. apply (pool_deliveries maxTTL) in Hrun as (Hw' & _ & Hall); [|done..]. split; [done|].
  intros d Hin. rewrite Forall_forall in Hall. assert (Hd : d ∈ omap id results).
  { apply list_elem_of_omap. exists (Some d). split; [by apply list_elem_of_In|done]. }
  specialize (Hall d Hd). split; [done|]. destruct Hall as [Hi _ _ (now & wn & wn' & Hnow & Hat & Hb & _) _ _ _].
  exists now, wn, wn'. split_and!; [done..|]. rewrite (is_expiry _ _ _ Hi) in Hb. unfold before in Hb. apply Z.ltb_lt in Hb. cbn in Hb.
  unfold NewBroker in Hnew. apply seq_ok in Hnew as [Hnew [= <-]]. apply deny_if_ok in Hnew.
  apply orb_false_iff in Hnew as [_ Hmax%Z.ltb_ge]. unfold MaximumTTLSeconds in Hmax. lia.
Qed.

End releases.

(** ** Revocation *)

Section revocation.
Context {W : Type} {store : LeaseStore W} {laws : LeaseLaws W} {stop : StopGuard W} {resolver : SecretSource W}
  {ports : LeasePorts W} {cells : HasCells W} {aloof : LeaseAloof W}.

(** Steps of anyone who goes through the store: leases evolve, and new ones appear. *)
Definition lease_step (w w' : W) : Prop :=
  evolves w w' \/ exists id r, lease w id = None /\ lease w' id = Some r /\ forall id', id' <> id -> lease w' id' = lease w id'.

Definition lease_revoked (w : W) (id : string) : Prop := exists r, lease w id = Some r /\ le_Revoked r = true.

Lemma step_revoked w w' id : lease_step w w' -> lease_revoked w id -> lease_revoked w' id.
Proof.
  intros [H|(id' & r' & Hn & _ & Hother)] (r & Hr & Hrev).
  - destruct (evolves_forth _ _ _ _ H Hr) as (r' & Hr' & _ & Hl & _). exists r'. auto.
  - exists r. split; [|done]. rewrite Hother; [done|]. intros ->. congruence.
Qed.

Lemma rtc_revoked w w' id : rtc lease_step w w' -> lease_revoked w id -> lease_revoked w' id.
Proof. induction 1; [done|]. intros Hr. by apply IHrtc, (step_revoked x). Qed.

(** Every call of a goroutine is a step. *)
Lemma amid_revoked {A} (m : routine W A) w a w' id : every_call evolves m -> runs_amid lease_step m w a w' ->
  lease_revoked w id -> lease_revoked w' id.
Proof.
  revert w. induction m as [x|C call rest IH]; intros w Hm Hrun Hr; [destruct Hrun as [_ Hrun]; by eapply rtc_revoked|].
  destruct Hm as [Hc Hrest], Hrun as (w1 & He & Hrun). eapply IH; [apply Hrest|done|]. eapply step_revoked; [by left|].
  by eapply rtc_revoked.
Qed.

Lemma refuse_no_release record request authority now id err digest w release w' :
  ~ runs_amid lease_step (refuse_use record request authority now id err digest) w (inr release) w'.
Proof. intros (answer & w1 & _ & [H _]%amid_ret)%amid_bind. discriminate H. Qed.

(** A use of the handle of a revoked lease *)
Lemma revoked_use ctx handle request authority consumer_nil w r w' : lease_revoked w (ha_LeaseID handle) ->
  runs_amid lease_step (prepare_use ctx (Some handle) request authority consumer_nil) w r w' -> exists answer, r = inl answer.
Proof.
  intros Hrev H. destruct r as [answer|release]; [by exists answer|exfalso]. unfold prepare_use in H.
  apply amid_bind in H as (now & w1 & Hn & H). apply (amid_revoked _ _ _ _ _ now_evolves Hn) in Hrev.
  apply amid_bind in H as (ready & w2 & Hl & H). apply (amid_revoked _ _ _ _ _ (look_evolves _) Hl) in Hrev.
  destruct ready as [err|]; [by apply refuse_no_release in H|]. destruct consumer_nil; [by apply refuse_no_release in H|].
  apply amid_bind in H as (digest & w3 & Hd & H). apply (amid_revoked _ _ _ _ _ (look_evolves _) Hd) in Hrev.
  destruct digest as [digest|err]; [|by apply refuse_no_release in H].
  apply amid_bind in H as ([record claimErr] & w4 & Hc & H). apply amid_calls in Hc as (w5 & w6 & He & Hc & _).
  apply (rtc_revoked _ _ _ He) in Hrev as (r0 & Hr0 & Hrev). destruct claimErr as [err|].
  - apply amid_bind in H as ([] & w7 & _ & H). apply amid_bind in H as (resultErr & w8 & _ & H). by apply refuse_no_release in H.
  - destruct (claim_law _ _ _ _ _ _ _ Hc) as (r1 & Hr1 & _ & Hlive & _). congruence.
Qed.

(** C21. Revocation is final: once the broker has answered that a lease is revoked, then,
    whatever anyone does through the store before, between and after the calls, a use of the
    lease's handle releases nothing.  A use that was already past its claim is not undone. *)
Theorem revocation_is_final ctx request decision w0 w1 w2 ctx' handle dispatch authority consumer_nil r w3 :
  runs_amid lease_step (Revoke ctx request) w0 (decision, None) w1 -> rtc lease_step w1 w2 ->
  ha_LeaseID handle = rv_LeaseID request ->
  runs_amid lease_step (prepare_use ctx' (Some handle) dispatch authority consumer_nil) w2 r w3 ->
  exists answer, r = inl answer.
Proof.
  intros Hrevoke Hsteps Hid Huse. eapply revoked_use; [|done]. eapply rtc_revoked; [done|]. rewrite Hid. clear - Hrevoke aloof.
  assert (Hfail : forall record id err now w, ~ runs_amid lease_step (recordRevocation record id (Some err) now) w (decision, None) w1).
  { intros record id err now w (appended & w2 & _ & H)%amid_bind. by destruct appended, H. }
  unfold Revoke in Hrevoke. apply amid_bind in Hrevoke as (now & w3 & _ & H). apply amid_bind in H as (ready & w4 & _ & H).
  destruct ready as [err|]; [by apply Hfail in H|]. destruct (ValidateRevocationRequest request) as [u|err]; [|by apply Hfail in H].
  apply amid_bind in H as (answer & w5 & Hc & H). apply amid_calls in Hc as (w6 & w7 & _ & Hc & Hr).
  destruct answer as [record|err]; [|by apply amid_bind in H as (normal & w8 & _ & H%Hfail)].
  destruct (revoke_law _ _ _ _ _ _ Hc) as (r0 & Hr0 & Hrev).
  eapply amid_revoked; [apply recordRevocation_evolves|done|]. eapply rtc_revoked; [done|]. by exists r0.
Qed.
End revocation.

(** ** The emergency stop *)

Section stopped.
Context {W : Type} {states : EStopController.Store W} {stops : StopPorts W} {stop_laws : StopStore W}.
Context {store : LeaseStore W} {resolver : SecretSource W} {ports : LeasePorts W} {cells : HasCells W}.

(** The calls a use or an issuance makes before it asks the guard do not lift a stop. *)
Class StopsApart : Prop := {
  apart_now : forall w, keeps w (snd (LeaseNow w));
  apart_claim : forall ctx id digest now w, keeps w (snd (store_Claim ctx id digest now w));
  apart_cells : forall l w, keeps w (set_cells l w) }.
Context {apart : StopsApart}.

Lemma keeps_lease_now : respects lease_now.
Proof. apply respects_calls. intros w. pose proof (apart_now w) as H. by destruct (LeaseNow w). Qed.

Lemma keeps_destroy handle : respects (Destroy handle).
Proof.
  apply respects_calls. intros w. destruct (LeaseBroker.cells w !! ha_cell handle) as [cell|]; [|apply keeps_refl].
  destruct (cl_dead cell); [apply keeps_refl|apply apart_cells].
Qed.

Lemma refuse_inl record request authority now id err digest w release w' :
  ~ runs_amid keeps (refuse_use record request authority now id err digest) w (inr release) w'.
Proof. intros (answer & w1 & _ & [H _]%amid_ret)%amid_bind. discriminate H. Qed.

(** A release asked the guard after the use began. *)
Lemma claimed_allowed ctx handle request authority now record w release w' :
  runs_amid keeps (use_claimed ctx handle request authority now record) w (inr release) w' ->
  let bound := iq_Context (le_Request (rl_record release)) in
  exists w1 w2, keeps w w1 /\
    runs_amid keeps (Allow ctx (cx_OrganizationID bound) (cx_TenantID bound) (cx_CaseID bound)) w1 None w2.
Proof.
  intros H. unfold use_claimed in H. apply amid_bind in H as ([] & w1 & Hd & H).
  apply (respects_amid _ _ _ _ (keeps_destroy handle)) in Hd. apply amid_bind in H as (allowed & w2 & Ha & H).
  destruct allowed as [err|]; [by apply refuse_inl in H|].
  destruct (validateDispatch _ _ _ _) as [u|err]; [|by apply refuse_inl in H].
  apply amid_bind in H as ([[secret decision] [err|]] & w3 & _ & H); [by apply refuse_inl in H|].
  destruct secret as [secret|]; [|by apply refuse_inl in H]. apply amid_bind in H as ([d [err|]] & w4 & _ & H).
  { by apply amid_ret in H as [H _]. }
  apply amid_ret in H as [[= ->] _]. by exists w1, w2.
Qed.

Lemma release_allowed ctx handle request authority consumer_nil w release w' :
  runs_amid keeps (prepare_use ctx handle request authority consumer_nil) w (inr release) w' ->
  let bound := iq_Context (le_Request (rl_record release)) in
  exists w1 w2, keeps w w1 /\
    runs_amid keeps (Allow ctx (cx_OrganizationID bound) (cx_TenantID bound) (cx_CaseID bound)) w1 None w2.
Proof.
  intros H. unfold prepare_use in H. apply amid_bind in H as (now & w1 & Hn & H).
  apply (respects_amid _ _ _ _ keeps_lease_now) in Hn. apply amid_bind in H as (ready & w2 & Hl & H).
  apply (respects_amid _ _ _ _ (respects_look _)) in Hl. destruct ready as [err|]; [by apply refuse_inl in H|].
  destruct handle as [handle|]; [destruct consumer_nil|]; [by apply refuse_inl in H| |by apply refuse_inl in H].
  apply amid_bind in H as (digest & w3 & Hd & H). apply (respects_amid _ _ _ _ (respects_look _)) in Hd.
  destruct digest as [digest|err]; [|by apply refuse_inl in H].
  apply amid_bind in H as ([record claimErr] & w4 & Hc & H).
  apply (respects_amid _ _ _ _ (respects_calls _ (apart_claim _ _ _ _))) in Hc. destruct claimErr as [err|].
  - apply amid_bind in H as ([] & w5 & _ & H). apply amid_bind in H as (resultErr & w6 & _ & H). by apply refuse_inl in H.
  - apply claimed_allowed in H as (w5 & w6 & Hk & Ha). exists w5, w6. split; [|done].
    do 4 (eapply keeps_trans; [done|]). done.
Qed.

(** C8. An emergency stop cuts off credentials: once an activation has answered with an active
    state, then, whatever anyone does through the stores, no secret reaches a consumer in a
    use that begins later under a lease of a case the stop covers, and no lease is issued for
    one.  This holds also for a lease that an issuance, past its own check, stored after the
    stop had revoked the leases of its scope. *)
Theorem emergency_stop_cuts_credentials schedule controls sctx command sauthority w1 result sdecision serr w2 w3 :
  Forall aloof controls -> store_ok w1 ->
  runs_amid keeps (Activate schedule controls sctx command sauthority) w1 (result, sdecision, serr) w2 ->
  st_Active (rs_State result) = true -> rtc keeps w2 w3 ->
  (forall ctx handle request authority consumer_nil release w4,
     runs_amid keeps (prepare_use ctx handle request authority consumer_nil) w3 (inr release) w4 ->
     let bound := iq_Context (le_Request (rl_record release)) in
     ~ covers (st_Scope (rs_State result)) (cx_OrganizationID bound) (cx_TenantID bound) (cx_CaseID bound)) /\
  (forall maxTTL ctx request authority handle decision err w4,
     runs_amid keeps (Issue maxTTL ctx request authority) w3 (Some handle, decision, err) w4 ->
     let bound := iq_Context request in
     ~ covers (st_Scope (rs_State result)) (cx_OrganizationID bound) (cx_TenantID bound) (cx_CaseID bound)).
Proof.
  intros Hcontrols Hok Hact Hactive Hsteps%keeps_rtc.
  destruct (activation_stops _ _ _ _ _ _ _ _ _ _ Hcontrols Hok Hact Hactive) as [Hok2 Hs]. destruct (Hsteps Hok2) as [Hok3 Hk].
  assert (Hguard : forall ctx o t c w w' w'', keeps w3 w -> runs_amid keeps (Allow ctx o t c) w w' w'' -> w' = None ->
    ~ covers (st_Scope (rs_State result)) o t c).
  { intros ctx o t c w r w'' Hw Hallow -> Hcov. destruct (Hw Hok3) as [Hokw Hkw].
    destruct (stopped_refused _ _ _ _ _ _ _ _ Hokw (Hkw _ (Hk _ Hs)) Hcov Hallow) as [err He]. discriminate He. }
  split.
  - intros ctx handle request authority consumer_nil release w4 Huse.
    apply release_allowed in Huse as (w5 & w6 & Hw & Hallow). by eapply Hguard.
  - intros maxTTL ctx request authority handle decision err w4 Hissue.
    assert (Href : forall e digest now expires w,
      ~ runs_amid keeps (recordIssue ctx request authority "" None (Some e) digest now expires) w (Some handle, decision, err) w4).
    { intros e digest now expires w (appended & w5 & _ & H)%amid_bind. by destruct appended, H. }
    unfold Issue in Hissue. apply amid_bind in Hissue as (now & w5 & Hn & H).
    apply (respects_amid _ _ _ _ keeps_lease_now) in Hn. apply amid_bind in H as (ready & w6 & Hl & H).
    apply (respects_amid _ _ _ _ (respects_look _)) in Hl. destruct ready as [e|]; [by apply Href in H|].
    destruct (ValidateIssuanceRequest request ;; _) as [u|e]; [|by apply Href in H].
    apply amid_bind in H as (allowed & w7 & Ha & H). destruct allowed as [e|]; [by apply Href in H|].
    eapply Hguard; [|exact Ha|done]. by eapply keeps_trans.
Qed.
End stopped.

(** ** The control of the emergency stop *)

Section control.
Context {W : Type} {has : HasLeases W}.

(** The leases of a scope are the same ones as long as none is made. *)
Lemma scope_count_evolves o t c m m' : memory_evolves m m' ->
  size (filter (fun kv => in_scope o t c (snd kv) = true) (lm_records m')) =
  size (filter (fun kv => in_scope o t c (snd kv) = true) (lm_records m)).
Proof.
  intros H. rewrite <- !size_dom. f_equal. apply set_eq. intros id. rewrite !elem_of_dom. specialize (H id).
  assert (Hsome : forall x : gmap string LeaseRecord, is_Some (filter (fun kv => in_scope o t c (snd kv) = true) x !! id) <->
    exists r, x !! id = Some r /\ in_scope o t c r = true).
  { intros x. split.
    - intros [r [Hr Hin]%map_lookup_filter_Some]. by exists r.
    - intros (r & Hr & Hin). exists r. by apply map_lookup_filter_Some. }
  rewrite !Hsome. clear Hsome. destruct (lm_records m !! id) as [r|], (lm_records m' !! id) as [r'|]; try done.
  destruct H as [(a & b & d & ->) _]. split; intros (x & [= <-] & Hx); by eexists.
Qed.

(** The control of the emergency stop over the store in memory: when it answers with
    evidence, the scope was valid, every lease of the scope is revoked and no other lease is
    changed; and applying it again, whatever uses and revocations happened meanwhile, answers
    with the same evidence as long as no lease was issued. *)
Theorem stop_control_revokes_the_scope ctx request (w : W) evidence w' :
  apply_lease_stop ctx request w = (Ok evidence, w') ->
  let scope := cq_Scope request in
  let covered r := in_scope (sc_OrganizationID scope) (sc_TenantID scope) (sc_CaseID scope) r in
  ValidateScope scope = Ok tt /\
  (forall id r, lease w' id = Some r -> covered r = true -> le_Revoked r = true) /\
  (forall id r, lease w id = Some r -> covered r = false -> lease w' id = Some r) /\
  forall w1 ctx' evidence' w2, evolves w' w1 -> apply_lease_stop ctx' request w1 = (Ok evidence', w2) -> evidence' = evidence.
Proof.
  assert (Happly : forall ctx w evidence w', apply_lease_stop ctx request w = (Ok evidence, w') ->
    ValidateScope (cq_Scope request) = Ok tt /\ exists n, evidence = control_evidence request n /\
    store_RevokeScope ctx (sc_OrganizationID (cq_Scope request)) (sc_TenantID (cq_Scope request)) (sc_CaseID (cq_Scope request))
      "emergency_stop" w = (Ok n, w') /\
    revoke_scope_locked (leases w) (sc_OrganizationID (cq_Scope request)) (sc_TenantID (cq_Scope request))
      (sc_CaseID (cq_Scope request)) "emergency_stop" = (n, leases w')).
  { clear. intros ctx w evidence w'. unfold apply_lease_stop. destruct (_ || _) eqn:Hv; [done|].
    apply orb_false_iff in Hv as [_ Hv%negb_false_iff]. apply is_ok_true in Hv as [[] Hv].
    intros (n & w1 & Hn & [= <- <-])%prog_bind_ok. split; [done|]. exists n. split_and!; [done..|].
    apply locked_ran in Hn; [|done]. injection Hn as Hn Hw. by rewrite <- Hn, <- Hw. }
  intros H. cbv zeta. destruct (Happly _ _ _ _ H) as (Hv & n & -> & Hscope & Hrun). split_and!; [done| | |].
  - intros id r. by eapply scope_law.
  - intros id r Hr Hin. cbn in Hr |- *. unfold memory_lease in *. injection Hrun as _ <-. cbn. rewrite lookup_fmap, Hr. cbn. by rewrite Hin.
  - intros w1 ctx' evidence' w2 Hev H2. destruct (Happly _ _ _ _ H2) as (_ & n2 & -> & _ & Hrun2). f_equal.
    injection Hrun as Hn Hw. injection Hrun2 as Hn2 _. rewrite <- Hn2, <- Hn. f_equal.
    transitivity (size (filter (fun kv => in_scope (sc_OrganizationID (cq_Scope request)) (sc_TenantID (cq_Scope request))
      (sc_CaseID (cq_Scope request)) (snd kv) = true) (lm_records (leases w')))); [by apply scope_count_evolves|].
    apply scope_count_evolves. rewrite <- Hw.
    exact (scope_memory (leases w) (sc_OrganizationID (cq_Scope request)) (sc_TenantID (cq_Scope request))
      (sc_CaseID (cq_Scope request)) "emergency_stop").
Qed.
End control.

(** ** The secret of a lease *)

Section secrets.
Context {W : Type} {store : LeaseStore W} {stop : StopGuard W} {ports : LeasePorts W} {audit : ResolverPorts W}.

(** C16. A released secret is the credential the lease names: with internal/broker/secretresolver
    as the source, the secret of an authorised release is the value of an active entry of an
    approved backend, in the version the lease's reference pins, of the lease's organization,
    tenant and credential class, and granted to its case.  The decision that the resolver made
    is "allowed", about the lease's request, case, action and reference, the authority that was
    presented and the revision of that entry; this decision is the one in the audit log, and
    its digest is the one the audited decision about the lease carries. *)
Theorem released_secret_is_the_leased_credential backends maxTTL ctx request authority release :
  authorised (resolver := secret_source backends) maxTTL ctx request authority release ->
  let asked := resolution_request (rl_record release) in
  exists backend record decision, backends !! rf_Backend (iq_Reference (le_Request (rl_record release))) = Some backend /\
    may_return (be_Fetch backend ctx (iq_Reference (le_Request (rl_record release)))) (Ok record) /\
    grants record asked /\ rl_secret release = sr_Value record /\
    may_return (Resolve backends ctx asked (resolution_authority authority)) (Some (rl_secret release), decision, None) /\
    permits asked (resolution_authority authority) record decision /\
    ld_SecretDecisionDigest (rl_decision release) = SecretRef.de_DecisionDigest decision /\
    exists w w', AppendSecretDecision ctx decision w = (Ok tt, w').
Proof.
  intros [_ _ _ _ _ (decision & Hmay & Hnamed) _].
  pose proof (resolve_granted _ _ _ _ _ _ _ Hmay) as (_ & _ & (backend & record & Hb & Hf & Hg & Hs & Hp) & Ha).
  by exists backend, record, decision.
Qed.
End secrets.

(** ** The durable audit sink *)

(** A decision about no lease is of no organization. *)
Lemma unknown_lease_event id err now : is_ok (TamperAudit.ValidateEvent (lease_audit_event (revocationDecision zero_lease id err now))) = false.
Proof.
  set (event := lease_audit_event _).
  assert (Ho : TamperAudit.e_OrganizationID event = "") by (unfold event; destruct err; reflexivity).
  destruct (TamperAudit.ValidateEvent event) as [[]|e] eqn:Hv; [|done]. unfold TamperAudit.ValidateEvent in Hv.
  apply seq_ok in Hv as [_ Hv]. apply seq_ok in Hv as [Hv _]. rewrite Ho in Hv. apply deny_if_ok in Hv.
  apply orb_false_iff in Hv as [Hv _]. by apply orb_false_iff in Hv as [_ Hv].
Qed.

Section durable.
Context {W E : Type} {store : LeaseStore W} {ports : LeasePorts W} (append : TamperAudit.Event -> prog W E unit).

(** The audit sink of the broker is the durable one. *)
Hypothesis durable : forall decision w, AppendCredentialLeaseDecision decision w =
  let '(r, w') := AppendLeaseEvent append decision w in (or_err r tt, w').

Lemma unknown_lease_unavailable id err now answer :
  may_return (recordRevocation zero_lease id err now) answer -> snd answer = Some (brokerError Unavailable "audit_unavailable").
Proof.
  unfold recordRevocation. intros (appended & (w & w' & Ha)%may_calls & H)%may_bind. rewrite durable in Ha.
  unfold AppendLeaseEvent in Ha. pose proof (unknown_lease_event id err now) as Hv.
  destruct (TamperAudit.ValidateEvent _) as [u|e]; [done|]. cbn in Ha. injection Ha as <- <-. by rewrite H.
Qed.

(** With the durable audit sink, the broker cannot say why a revocation was refused: the
    decision about a lease that is not known carries no organization, so the sink rejects it,
    and every refusal (an invalid request, a lease that does not exist, a cancelled context)
    is reported as an unavailable audit log and leaves no audit event. *)
Theorem refused_revocations_are_lost ctx request decision err :
  may_return (Revoke ctx request) (decision, Some err) -> err = brokerError Unavailable "audit_unavailable".
Proof.
  assert (Hzero : forall id e now, may_return (recordRevocation zero_lease id e now) (decision, Some err) ->
    err = brokerError Unavailable "audit_unavailable").
  { intros id e now H%unknown_lease_unavailable. by injection H. }
  unfold Revoke. intros (now & _ & H)%may_bind. apply may_bind in H as (ready & _ & H).
  destruct ready as [e|]; [by apply Hzero in H|]. destruct (ValidateRevocationRequest request) as [u|e]; [|by apply Hzero in H].
  apply may_bind in H as (revoked & _ & H). destruct revoked as [record|e].
  - unfold recordRevocation in H. apply may_bind in H as (appended & _ & H). destruct appended; [done|]. by injection H as _ ->.
  - apply may_bind in H as (normal & _ & H). by apply Hzero in H.
Qed.
End durable.
