(* ===== verification/LeaseExample.v ===== *)
(** * Credential leases: a concrete lease and its use

    A broker over the store in memory, the guard of the emergency stop and the resolver with a
    sealed backend, as inputs for the theorems: a lease is issued, used twice at the same time,
    revoked and stopped. *)

From S2P Require Import Prelude GoStrings GoRegexp GoTime GoJson DomainContract Sha256 Domain GoStruct TamperAudit Storage Policy ApprovalLifecycleFacts ApprovalBroker EStop EStopController EStopStore EStopFacts EStopTheorems EStopExample SecretRef SecretResolver SecretResolverFacts CredentialLease LeaseBroker LeaseFacts LeaseSafety LeaseTheorems.

Local Open Scope string_scope.
Local Open Scope Z_scope.

(** ** The world *)

Record LeaseWorld : Type := mkWorld {
  lw_stops : MemoryStore; lw_leases : LeaseMemory; lw_cells : list Cell; lw_replays : gmap string ReplayRecord }.

#[export] Instance lx_stops : HasMemory LeaseWorld.
Proof. refine {| memory := lw_stops; set_memory m w := mkWorld m (lw_leases w) (lw_cells w) (lw_replays w) |}. reflexivity. Defined.

#[export] Instance lx_leases : HasLeases LeaseWorld.
Proof. refine {| leases := lw_leases; set_leases m w := mkWorld (lw_stops w) m (lw_cells w) (lw_replays w) |}. reflexivity. Defined.

#[export] Instance lx_cells : HasCells LeaseWorld := {|
  cells := lw_cells; set_cells l w := mkWorld (lw_stops w) (lw_leases w) l (lw_replays w) |}.

#[export] Instance lx_stop_ports : StopPorts LeaseWorld := {|
  StopNow w := (ex_now, w); AppendEmergencyStopDecision d w := (Ok tt, w); AuditDeadline w := None |}.

#[export] Instance lx_stop_quiet : MemoryPorts LeaseWorld.
Proof. split; reflexivity. Qed.

Fixpoint bytes (n : nat) : string := match n with O => "" | S n => String "x" (bytes n) end.

#[export] Instance lx_ports : LeasePorts LeaseWorld := {|
  LeaseNow w := (ex_now, w); ReadFull n w := (Ok (bytes n), w); AppendCredentialLeaseDecision d w := (Ok tt, w) |}.

#[export] Instance lx_resolver_ports : ResolverPorts LeaseWorld := {|
  AppendSecretDecision ctx d w := (Ok tt, w);
  CheckAndStore ctx record w :=
    let '(r, replays) := replay_check (lw_replays w) record in (r, mkWorld (lw_stops w) (lw_leases w) (lw_cells w) replays) |}.

Definition lx_ctx : context LeaseWorld := Some (fun _ => None).

(** ** The secret *)

Definition lx_entry : SecretRecord :=
  mkSecretRecord sealedMemoryBackendName "splunk-token" 3 1 true (ax_id "2") (ax_id "3") false [ax_id "4"] "connector-token" "secret".

Definition lx_sealed : SealedMemory := mkSealed {["splunk-token" := lx_entry]} false.

Definition lx_reference : Reference :=
  mkReference SecretRef.SchemaVersion SecretRef.ContractVersion sealedMemoryBackendName "splunk-token" 3.

Definition lx_backend : Backend LeaseWorld :=
  mkBackend sealedMemoryBackendName (fun _ reference => calls (fun w => (sealed_fetch lx_sealed reference, w))).

Definition lx_backends : gmap string (Backend LeaseWorld) := {[sealedMemoryBackendName := lx_backend]}.

#[export] Instance lx_source : SecretSource LeaseWorld := secret_source lx_backends.

(** ** The lease *)

Definition lx_context : Context := mkContext (ax_id "2") (ax_id "3") (ax_id "4") (ax_id "5").
Definition lx_audience : Audience := mkAudience "connector" "splunk" ax_digest.

Definition lx_request : IssuanceRequest :=
  mkIssuance CredentialLease.SchemaVersion CredentialLease.ContractVersion (ax_id "1") "lease-one" lx_context (ax_id "6") ax_digest
    (Some [ax_digest]) "search" lx_audience "connector-token" lx_reference 60.

Definition lx_authority : IssuanceAuthority :=
  mkIssuanceAuthority lx_context true 1 true ax_digest true ax_digest true true ax_digest
    (mkAudienceAuthority lx_audience true 1 true true ex_now).

Definition lx_dispatch : DispatchRequest := mkDispatch lx_context (ax_id "6") ax_digest (Some [ax_digest]) "search" lx_audience.
Definition lx_current : DispatchAuthority := mkDispatchAuthority lx_authority true false.

Definition lx_maxTTL : Z := 300 * second.

Definition lx_empty : LeaseWorld := mkWorld NewMemoryStore NewLeaseMemory [] ∅.

(** The world in which the lease is issued *)
Definition lx_issued : LeaseWorld := snd (run_pool [] (map (serve lx_maxTTL) [CallIssue lx_ctx lx_request lx_authority]) lx_empty).

Definition lx_leaseID : string := newLeaseID ex_now (bytes 16).
Definition lx_handle : Handle := mkHandle lx_leaseID 0.

Definition lx_consumer : string -> prog LeaseWorld unit unit := fun _ w => (Ok tt, w).

(** Two uses of the same handle, interleaved call by call *)
Definition lx_calls : list (broker_call (W := LeaseWorld)) :=
  [CallUse lx_ctx (Some lx_handle) lx_dispatch lx_current (Some lx_consumer);
   CallUse lx_ctx (Some lx_handle) lx_dispatch lx_current (Some lx_consumer)].

Definition lx_schedule : list nat := [0; 1; 0; 1; 0; 1; 0; 1; 0; 1; 0; 1]%nat.

Definition lx_run : list (option (delivery (W := LeaseWorld))) * LeaseWorld :=
  run_pool lx_schedule (map (serve lx_maxTTL) lx_calls) lx_issued.

(** One of them gets the secret. *)
Lemma lx_one_release : map (option_map (fun d => rl_secret (dl_release d))) (fst lx_run) = [Some "secret"; None].
Proof. vm_compute. reflexivity. Qed.

Lemma lx_lease_issued : map le_LeaseID (map snd (map_to_list (lm_records (lw_leases lx_issued)))) = [lx_leaseID].
Proof. vm_compute. reflexivity. Qed.

(** ** The ports keep apart *)

Lemma same_leases (w w' : LeaseWorld) : lw_leases w' = lw_leases w -> evolves w w'.
Proof. intros E id. cbn. unfold memory_lease. cbn. rewrite E. by destruct (lm_records (lw_leases w) !! id). Qed.

Lemma guard_every {W} {has : HasMemory W} (R : W -> W -> Prop) (ctx : context W) o t c :
  (forall w, R w w) -> (forall w m, R w (set_memory m w)) -> every_call R (Allow ctx o t c).
Proof.
  intros Hr Hm. assert (Hlook : forall A (f : W -> A), every_call R (calls (fun w => (f w, w)))) by (by split).
  apply every_call_bind; [|by intros [state err]]. unfold Check. apply every_call_bind; [apply Hlook|]. intros [err|]; [done|].
  destruct (_ ;; _); [|done]. apply every_call_bind.
  - apply every_call_one. intros w. cbn. unfold locked. destruct (stop_ctx_err ctx w); [apply Hr|apply Hm].
  - intros [[state []]|err]; [done|done|]. apply every_call_bind; [apply Hlook|done].
Qed.

#[export] Instance lx_aloof : LeaseAloof LeaseWorld.
Proof.
  split; try (intros; apply evolves_refl).
  - intros l w. apply same_leases. reflexivity.
  - intros ctx o t c. apply guard_every; [apply evolves_refl|]. intros w m. apply same_leases. reflexivity.
  - intros ctx request authority. change (source_Resolve ctx request authority) with (Resolve lx_backends ctx request authority). unfold Resolve.
    assert (Hrec : forall value err revision replayed,
      every_call evolves (record_secret (W := LeaseWorld) ctx request authority value err revision replayed)).
    { intros value err revision replayed. apply every_call_bind; [apply look_evolves|]. by intros []; destruct err. }
    apply every_call_bind; [apply look_evolves|]. intros [err|]; [apply Hrec|].
    destruct (check_request request authority); [|apply Hrec]. destruct (lx_backends !! _) as [backend|] eqn:Hb; [|apply Hrec].
    unfold lx_backends in Hb. apply lookup_singleton_Some in Hb as [_ <-]. apply every_call_bind; [apply look_evolves|]. intros [record|err].
    + destruct (check_entry request record); [|apply Hrec]. apply every_call_bind.
      * apply every_call_one. intros w. cbn. destruct (replay_check _ _). apply same_leases. reflexivity.
      * intros [replay|err]; [repeat (case_match; [apply Hrec|]); apply Hrec|].
        apply every_call_bind; [apply look_evolves|]. intros c. apply Hrec.
    + destruct (errors_as err) as [[]|]; [apply Hrec|]. apply every_call_bind; [apply look_evolves|]. intros c. apply Hrec.
Qed.

Lemma same_stops (w w' : LeaseWorld) : lw_stops w' = lw_stops w -> keeps w w'.
Proof. intros E. unfold keeps. cbn. rewrite E. by split. Qed.

#[export] Instance lx_apart : StopsApart (W := LeaseWorld).
Proof.
  split; intros; apply same_stops; try reflexivity. cbn. unfold lease_locked. destruct (secret_ctx_err ctx w); [done|].
  by destruct (claim_locked _ _ _ _).
Qed.

Lemma lx_polite : Forall (polite (W := LeaseWorld)) lx_calls.
Proof. repeat constructor; intros secret w; apply evolves_refl. Qed.

Lemma lx_leases_ok : leases_ok lx_maxTTL lx_issued.
Proof.
  unfold lx_issued. destruct (run_pool [] _ lx_empty) as [results w] eqn:H. cbn [snd].
  apply (pool_deliveries lx_maxTTL) in H as [Hok _]; [exact Hok| |].
  - repeat constructor.
  - apply new_leases_ok. reflexivity.
Qed.

#[local] Opaque run_pool.

(** ** Witnesses *)

Lemma leases_release_one_secret_witness : exists results w, lx_run = (results, w) /\
  NoDup (map delivered_lease (omap id results)) /\ length (omap id results) = 1%nat.
Proof.
  pose proof lx_one_release as H. destruct lx_run as [results w] eqn:Hrun. exists results, w. split; [reflexivity|]. split.
  - exact (leases_release_one_secret lx_maxTTL lx_schedule lx_calls lx_issued results w lx_polite lx_leases_ok Hrun).
  - cbn [fst] in H. destruct results as [|[d|] [|[d'|] [|]]]; try discriminate H. reflexivity.
Defined.

Lemma released_secrets_are_authorised_witness : exists d,
  authorised lx_maxTTL (dl_ctx d) (dl_request d) (dl_authority d) (dl_release d) /\ rl_secret (dl_release d) = "secret".
Proof.
  pose proof lx_one_release as H. destruct lx_run as [results w] eqn:Hrun. cbn [fst] in H.
  destruct results as [|[d|] [|[d'|] [|]]]; try discriminate H. exists d.
  destruct (released_secrets_are_authorised false lx_maxTTL lx_maxTTL lx_schedule lx_calls lx_issued [Some d; None] w eq_refl
    lx_polite lx_leases_ok Hrun) as [_ Hall].
  destruct (Hall d (or_introl eq_refl)) as [Ha _]. injection H as H. exact (conj Ha H).
Defined.

Lemma lx_authorised : exists d : delivery (W := LeaseWorld),
  authorised lx_maxTTL (dl_ctx d) (dl_request d) (dl_authority d) (dl_release d) /\ rl_secret (dl_release d) = "secret".
Proof.
  pose proof lx_one_release as H. destruct lx_run as [results w] eqn:Hrun.
  destruct (pool_deliveries lx_maxTTL lx_schedule lx_calls lx_issued results w lx_polite lx_leases_ok Hrun) as (_ & _ & Hall).
  cbn [fst] in H. destruct results as [|[d|] [|[d'|] [|]]]; try discriminate H. apply Forall_cons in Hall as [Ha _].
  exists d. injection H as H. exact (conj Ha H).
Qed.

Lemma released_secret_is_the_leased_credential_witness : exists record request authority decision,
  grants record request /\ sr_Value record = "secret" /\ permits request authority record decision.
Proof.
  destruct lx_authorised as (d & Ha & Hs).
  destruct (released_secret_is_the_leased_credential lx_backends lx_maxTTL (dl_ctx d) (dl_request d) (dl_authority d) (dl_release d) Ha)
    as (backend & record & decision & _ & _ & Hg & Hv & _ & Hp & _).
  exists record, (resolution_request (rl_record (dl_release d))), (resolution_authority (dl_authority d)), decision.
  split; [exact Hg|]. split; [rewrite <- Hv; exact Hs|exact Hp].
Defined.

(** *** Revocation *)

Definition lx_revocation : RevocationRequest := mkRevocation lx_leaseID "operator_revoked".

Lemma lx_revoked : snd (fst (run_alone (Revoke lx_ctx lx_revocation) lx_issued)) = None.
Proof. vm_compute. reflexivity. Qed.

Definition lx_use : routine LeaseWorld use_outcome := prepare_use lx_ctx (Some lx_handle) lx_dispatch lx_current false.

#[local] Opaque Revoke prepare_use.

Lemma revocation_is_final_witness : exists w answer w', run_alone lx_use w = (inl answer, w').
Proof.
  pose proof lx_revoked as H. destruct (run_alone (Revoke lx_ctx lx_revocation) lx_issued) as [[decision err] w1] eqn:Hrev.
  cbn [fst snd] in H. rewrite H in Hrev. destruct (run_alone lx_use w1) as [r w3] eqn:Huse.
  destruct (revocation_is_final lx_ctx lx_revocation decision lx_issued w1 w1 lx_ctx lx_handle lx_dispatch lx_current false r w3)
    as [answer Hr].
  - apply alone_amid. exact Hrev.
  - apply rtc_refl.
  - reflexivity.
  - apply alone_amid. exact Huse.
  - exists w1, answer, w3. rewrite Huse, Hr. reflexivity.
Defined.

Definition lx_control : ControlRequest := mkControlRequest ex_scope 1 ex_now.

Lemma lx_applied : is_ok (fst (apply_lease_stop lx_ctx lx_control lx_issued)) = true.
Proof. vm_compute. reflexivity. Qed.

#[local] Opaque apply_lease_stop.

Lemma stop_control_revokes_the_scope_witness : exists evidence w,
  apply_lease_stop lx_ctx lx_control lx_issued = (Ok evidence, w) /\
  forall id r, lease w id = Some r -> in_scope (ax_id "2") (ax_id "3") "" r = true -> le_Revoked r = true.
Proof.
  pose proof lx_applied as H. destruct (apply_lease_stop lx_ctx lx_control lx_issued) as [[evidence|err] w] eqn:Happly; [|discriminate H].
  exists evidence, w. split; [reflexivity|].
  exact (proj1 (proj2 (stop_control_revokes_the_scope lx_ctx lx_control lx_issued evidence w Happly))).
Defined.

(** *** The emergency stop *)

Definition lx_control_of (kind : string) : Control LeaseWorld :=
  mkControl ("control-" ++ kind) kind (fun _ _ w => (mkRace (Some (Ok ax_digest)) false 1000, w)).

Definition lx_controls : list (Control LeaseWorld) := map lx_control_of requiredKinds.

Definition lx_activate : routine LeaseWorld (Result * EStop.Decision * option (go_error EStop.Error)) :=
  Activate [] lx_controls lx_ctx ex_command ex_authority.

Lemma lx_activated : let '((result, _, err), _) := run_alone lx_activate lx_issued in
  st_Active (rs_State result) && bool_decide (st_Scope (rs_State result) = ex_scope) = true.
Proof. vm_compute. reflexivity. Qed.

#[local] Opaque Activate Issue.

Lemma emergency_stop_cuts_credentials_witness : exists w, forall release w', runs_amid keeps lx_use w (inr release) w' ->
  let bound := iq_Context (le_Request (rl_record release)) in
  ~ covers ex_scope (cx_OrganizationID bound) (cx_TenantID bound) (cx_CaseID bound).
Proof.
  pose proof lx_activated as H. destruct (run_alone lx_activate lx_issued) as [[[result decision] err] w] eqn:Hact.
  apply andb_true_iff in H as [Hactive Hs]. apply bool_decide_eq_true in Hs. exists w. rewrite <- Hs.
  refine (proj1 (emergency_stop_cuts_credentials [] lx_controls lx_ctx ex_command ex_authority lx_issued result decision err w w
    _ _ _ Hactive _) lx_ctx (Some lx_handle) lx_dispatch lx_current false).
  - apply List.Forall_forall. intros control Hin. apply in_map_iff in Hin as (kind & <- & _).
    intros request objective w'. apply keeps_refl.
  - exact new_memory_ok.
  - apply alone_amid. exact Hact.
  - apply rtc_refl.
Defined.

(** *** The durable sink *)

Definition lx_append : TamperAudit.Event -> prog LeaseWorld unit unit := fun _ w => (Ok tt, w).

Definition lx_durable : LeasePorts LeaseWorld := {|
  LeaseNow w := (ex_now, w); ReadFull n w := (Ok (bytes n), w);
  AppendCredentialLeaseDecision d w := let '(r, w') := AppendLeaseEvent lx_append d w in (or_err r tt, w') |}.

#[local] Transparent Revoke.

(** An unknown lease: the store says that it is not found. *)
Lemma refused_revocations_are_lost_witness : exists decision,
  may_return (Revoke (ports := lx_durable) lx_ctx lx_revocation) (decision, Some (brokerError Unavailable "audit_unavailable")).
Proof.
  assert (H : match snd (fst (run_alone (Revoke (ports := lx_durable) lx_ctx lx_revocation) lx_empty)) with Some _ => true | None => false end = true)
    by (vm_compute; reflexivity).
  destruct (run_alone (Revoke (ports := lx_durable) lx_ctx lx_revocation) lx_empty) as [[decision [err|]] w] eqn:Hrun; [|discriminate H].
  apply run_alone_may in Hrun. exists decision.
  rewrite <- (refused_revocations_are_lost (ports := lx_durable) lx_append (fun _ _ => eq_refl) lx_ctx lx_revocation decision err Hrun).
  exact Hrun.
Defined.

(** *** Versions and keys *)

Definition lx_rotated : SecretRecord :=
  mkSecretRecord sealedMemoryBackendName "splunk-token" 4 2 true (ax_id "2") (ax_id "3") false [ax_id "4"] "connector-token" "rotated".

Lemma lx_fetched : sealed_fetch lx_sealed lx_reference = Ok lx_entry /\
  sealed_fetch (fold_left sealed_op [Some lx_rotated] lx_sealed) lx_reference = Ok lx_rotated.
Proof. split; vm_compute; reflexivity. Qed.

Lemma sealed_versions_are_immutable_witness : sr_Version lx_entry <= sr_Version lx_rotated.
Proof.
  destruct lx_fetched as [H1 H2].
  refine (proj1 (sealed_versions_are_immutable lx_sealed [Some lx_rotated] lx_reference lx_entry lx_rotated _ _ H1 H2)).
  - intros id r Hr. unfold lx_sealed in Hr. cbn [sm_entries] in Hr. apply lookup_singleton_Some in Hr as [_ <-].
    unfold sr_typed, is_u64. cbn. lia.
  - constructor; [|constructor]. intros next [= <-]. unfold sr_typed, is_u64. cbn. lia.
Defined.

Definition lx_replay : ReplayRecord := mkReplayRecord (ax_id "2") (ax_id "5") "lease-one" ax_digest.

Lemma replay_store_binds_keys_witness : exists records, replay_check ∅ lx_replay = (Ok ReplayNew, records) /\
  exists bound, records !! replay_key lx_replay = Some bound.
Proof.
  exists {[replay_key lx_replay := lx_replay]}. assert (H : replay_check ∅ lx_replay = (Ok ReplayNew, {[replay_key lx_replay := lx_replay]})) by reflexivity.
  split; [exact H|]. destruct (replay_store_binds_keys ∅ lx_replay ReplayNew _ lx_replay H eq_refl) as (_ & bound & Hb & _).
  exists bound. exact Hb.
Defined.
