(* ===== verification/ToolRoute.v ===== *)
(** * internal/domain/toolroute: the contract of tool routes

    What crosses the broker's boundary when a workflow asks for an action: the intent, the
    receipt that answers it and the public record of a route's state, with their validation
    ([validate.go]), their canonical text and its decoders ([canonical.go], [types.go]) and the
    errors ([errors.go]).  [ToolIntent] and [ActionReceipt] are of internal/domain ([types.go]). *)

From S2P Require Import Prelude GoStrings GoRegexp GoTime GoJson DomainContract Sha256 Domain GoStruct GoCodec.

Local Open Scope string_scope.
Local Open Scope Z_scope.

(** ** internal/domain *)

Record ArtifactRef : Type := mkArtifactRef {
  ar_Digest : string; ar_MediaType : string; ar_Classification : string; ar_Length : Z }.

Record ToolIntent : Type := mkIntent {
  ti_OperationID : string; ti_Case : CaseRef; ti_Tool : string; ti_Action : string; ti_TargetDigest : string;
  ti_ArgumentDigest : string }.

Record ActionReceipt : Type := mkReceipt {
  rc_IntentDigest : string; rc_Outcome : string; rc_Evidence : ArtifactRef }.

#[export] Instance ArtifactRef_eq_dec : EqDecision ArtifactRef.
Proof. solve_decision. Defined.
#[export] Instance ToolIntent_eq_dec : EqDecision ToolIntent.
Proof. solve_decision. Defined.
#[export] Instance ActionReceipt_eq_dec : EqDecision ActionReceipt.
Proof. solve_decision. Defined.

(** [domain.ActionReceipt{}] *)
Definition zero_receipt : ActionReceipt := mkReceipt "" "" (mkArtifactRef "" "" "" 0).

(** ** types.go *)

Definition SchemaVersion : string := "coh.tool-route/v1".
Definition ContractVersion : string := "1.0.0".

Record IntentRecord : Type := mkIntentRecord {
  ir_SchemaVersion : string; ir_ContractVersion : string; ir_OperationID : string; ir_OrganizationID : string;
  ir_TenantID : string; ir_CaseID : string; ir_Tool : string; ir_Action : string; ir_TargetDigest : string;
  ir_ArgumentDigest : string }.

Record ReceiptRecord : Type := mkReceiptRecord {
  pr_SchemaVersion : string; pr_ContractVersion : string; pr_IntentDigest : string; pr_Outcome : string;
  pr_EvidenceDigest : string; pr_EvidenceMediaType : string; pr_EvidenceClassification : string; pr_EvidenceLength : Z }.

Record StateRecord : Type := mkStateRecord {
  sr_SchemaVersion : string; sr_ContractVersion : string; sr_RecordType : string; sr_OperationID : string;
  sr_OrganizationID : string; sr_TenantID : string; sr_CaseID : string; sr_IntentDigest : string;
  sr_IdempotencyDigest : string; sr_ContextDigest : string; sr_ManifestDigest : string;
  sr_IntentPolicyDecisionDigest : string; sr_PreDispatchDecisionDigest : string; sr_ApprovalID : string;
  sr_ApprovalRevision : Z; sr_ApprovalFingerprintDigest : string; sr_RequestorActorID : string;
  sr_RequestorActorRevision : Z; sr_ActionOwnerActorID : string; sr_ActionOwnerActorRevision : Z; sr_Status : string;
  sr_ReasonCode : string; sr_DispatchAuditID : string; sr_CompletionAuditID : string; sr_ReceiptDigest : string;
  sr_PreviousProvenanceDigest : string; sr_ProvenanceDigest : string; sr_CreatedAt : string; sr_UpdatedAt : string;
  sr_Revision : Z }.

Definition IntentFromDomain (value : ToolIntent) : IntentRecord :=
  mkIntentRecord SchemaVersion ContractVersion (ti_OperationID value) (OrganizationID (ti_Case value))
    (TenantID (ti_Case value)) (CaseID (ti_Case value)) (ti_Tool value) (ti_Action value) (ti_TargetDigest value)
    (ti_ArgumentDigest value).

(** [IntentRecord.Domain] *)
Definition intent_Domain (value : IntentRecord) : ToolIntent :=
  mkIntent (ir_OperationID value) (mkCaseRef (ir_OrganizationID value) (ir_TenantID value) (ir_CaseID value))
    (ir_Tool value) (ir_Action value) (ir_TargetDigest value) (ir_ArgumentDigest value).

Definition ReceiptFromDomain (value : ActionReceipt) : ReceiptRecord :=
  mkReceiptRecord SchemaVersion ContractVersion (rc_IntentDigest value) (rc_Outcome value) (ar_Digest (rc_Evidence value))
    (ar_MediaType (rc_Evidence value)) (ar_Classification (rc_Evidence value)) (ar_Length (rc_Evidence value)).

(** [ReceiptRecord.Domain] *)
Definition receipt_Domain (value : ReceiptRecord) : ActionReceipt :=
  mkReceipt (pr_IntentDigest value) (pr_Outcome value)
    (mkArtifactRef (pr_EvidenceDigest value) (pr_EvidenceMediaType value) (pr_EvidenceClassification value)
       (pr_EvidenceLength value)).

(** ** errors.go *)

Inductive ErrorCode : Type := InvalidInput | Denied | Internal.

(** No error of the package has a cause. *)
Record Error : Type := contractError { err_Code : ErrorCode; err_Reason : string }.

(** ** validate.go *)

(** [^[a-z][a-z0-9.+-]{0,63}/[a-z0-9][a-z0-9.+-]{0,127}$] *)
Definition media_char (c : ascii) : bool :=
  is_lower c || is_digit c || Ascii.eqb c "." || Ascii.eqb c "+" || Ascii.eqb c "-".
Definition media_regex : regex :=
  r_seq [lower_class; r_upto 63 (RChr media_char); r_lit "/"; RChr (fun c => is_lower c || is_digit c);
         r_upto 127 (RChr media_char)].
Definition mediaPattern (s : string) : bool := matches media_regex s.

Definition ValidateIntent (value : ToolIntent) : result Error unit :=
  deny_if (negb (uuidPattern (ti_OperationID value)) || negb (validCase (ti_Case value)) ||
           negb (tokenPattern (ti_Tool value)) || negb (tokenPattern (ti_Action value)) ||
           negb (digestPattern (ti_TargetDigest value)) || negb (digestPattern (ti_ArgumentDigest value)))
    (contractError InvalidInput "intent_invalid").

Definition ValidateIntentRecord (value : IntentRecord) : result Error unit :=
  deny_if (negb (String.eqb (ir_SchemaVersion value) SchemaVersion) ||
           negb (String.eqb (ir_ContractVersion value) ContractVersion))
    (contractError Denied "intent_contract_unsupported") ;;
  ValidateIntent (intent_Domain value).

Definition receipt_outcomes : list string := ["succeeded"; "denied"; "canceled"; "timeout"; "failed"; "uncertain"].

Definition ValidateReceipt (value : ActionReceipt) (intentDigest : string) : result Error unit :=
  deny_if (negb (digestPattern intentDigest) || negb (String.eqb (rc_IntentDigest value) intentDigest) ||
           negb (digestPattern (ar_Digest (rc_Evidence value))) || negb (mediaPattern (ar_MediaType (rc_Evidence value))) ||
           negb (tokenPattern (ar_Classification (rc_Evidence value))) || (ar_Length (rc_Evidence value) <? 0))
    (contractError Denied "receipt_binding_invalid") ;;
  deny_if (negb (existsb (String.eqb (rc_Outcome value)) receipt_outcomes)) (contractError Denied "receipt_outcome_invalid").

Definition ValidateReceiptRecord (value : ReceiptRecord) : result Error unit :=
  deny_if (negb (String.eqb (pr_SchemaVersion value) SchemaVersion) ||
           negb (String.eqb (pr_ContractVersion value) ContractVersion))
    (contractError Denied "receipt_contract_unsupported") ;;
  ValidateReceipt (receipt_Domain value) (pr_IntentDigest value).

Definition terminalStateStatus (value : string) : bool := existsb (String.eqb value) receipt_outcomes.

Definition validStateStatus (value : string) : bool :=
  String.eqb value "pending" || String.eqb value "authorizing" || String.eqb value "dispatching" ||
  terminalStateStatus value.

Definition state_optionals (value : StateRecord) : list string :=
  [sr_PreDispatchDecisionDigest value; sr_ApprovalFingerprintDigest value; sr_DispatchAuditID value;
   sr_CompletionAuditID value; sr_ReceiptDigest value; sr_PreviousProvenanceDigest value].

Definition ValidateStateRecord (value : StateRecord) : result Error unit :=
  let set text := negb (String.eqb text "") in
  deny_if (negb (String.eqb (sr_SchemaVersion value) SchemaVersion) ||
           negb (String.eqb (sr_ContractVersion value) ContractVersion) || negb (String.eqb (sr_RecordType value) "state") ||
           negb (uuidPattern (sr_OperationID value)) || negb (uuidPattern (sr_OrganizationID value)) ||
           negb (uuidPattern (sr_TenantID value)) || negb (uuidPattern (sr_CaseID value)) ||
           negb (digestPattern (sr_IntentDigest value)) || negb (digestPattern (sr_IdempotencyDigest value)) ||
           negb (digestPattern (sr_ContextDigest value)) || negb (digestPattern (sr_ManifestDigest value)) ||
           negb (digestPattern (sr_IntentPolicyDecisionDigest value)) || negb (uuidPattern (sr_ApprovalID value)) ||
           negb (uuidPattern (sr_RequestorActorID value)) || (sr_RequestorActorRevision value =? 0) ||
           negb (uuidPattern (sr_ActionOwnerActorID value)) || (sr_ActionOwnerActorRevision value =? 0) ||
           negb (validStateStatus (sr_Status value)) || negb (tokenPattern (sr_ReasonCode value)) ||
           negb (digestPattern (sr_ProvenanceDigest value)) || (sr_Revision value =? 0))
    (contractError Denied "state_record_invalid") ;;
  for_each (fun optional => deny_if (set optional && negb (digestPattern optional))
    (contractError Denied "state_digest_invalid")) (state_optionals value) ;;
  let authorized := set (sr_PreDispatchDecisionDigest value) || negb (sr_ApprovalRevision value =? 0) ||
                    set (sr_ApprovalFingerprintDigest value) in
  deny_if (authorized && (negb (set (sr_PreDispatchDecisionDigest value)) || (sr_ApprovalRevision value =? 0) ||
                          negb (set (sr_ApprovalFingerprintDigest value))))
    (contractError Denied "state_authority_invalid") ;;
  let terminal := terminalStateStatus (sr_Status value) in
  deny_if (negb (Bool.eqb terminal (set (sr_CompletionAuditID value))) ||
           negb (Bool.eqb terminal (set (sr_ReceiptDigest value))) ||
           (String.eqb (sr_Status value) "dispatching" && negb (set (sr_DispatchAuditID value))) ||
           ((String.eqb (sr_Status value) "succeeded" || String.eqb (sr_Status value) "uncertain") &&
            negb (set (sr_DispatchAuditID value))))
    (contractError Denied "state_terminal_binding_invalid") ;;
  deny_if match parse_timestamp (sr_CreatedAt value), parse_timestamp (sr_UpdatedAt value) with
          | Some created, Some updated =>
              before updated created || negb (String.eqb (format_timestamp created) (sr_CreatedAt value)) ||
              negb (String.eqb (format_timestamp updated) (sr_UpdatedAt value))
          | _, _ => true
          end
    (contractError Denied "state_timestamp_invalid").

(** ** The struct tags *)

Definition intent_codec : codec IntentRecord := struct_codec
  (field "schema_version" str_codec $ field "contract_version" str_codec $ field "operation_id" str_codec $
   field "organization_id" str_codec $ field "tenant_id" str_codec $ field "case_id" str_codec $
   field "tool" str_codec $ field "action" str_codec $ field "target_digest" str_codec $
   field "argument_digest" str_codec $ no_fields)
  (fun '(mkIntentRecord a b c d e f g h i j) => (a, (b, (c, (d, (e, (f, (g, (h, (i, (j, tt)))))))))))
  (fun '(a, (b, (c, (d, (e, (f, (g, (h, (i, (j, _)))))))))) => mkIntentRecord a b c d e f g h i j)
  ltac:(by intros []) ltac:(by intros (? & ? & ? & ? & ? & ? & ? & ? & ? & ? & [])).

Definition receipt_codec : codec ReceiptRecord := struct_codec
  (field "schema_version" str_codec $ field "contract_version" str_codec $ field "intent_digest" str_codec $
   field "outcome" str_codec $ field "evidence_digest" str_codec $ field "evidence_media_type" str_codec $
   field "evidence_classification" str_codec $ field "evidence_length" (int_codec 64) $ no_fields)
  (fun '(mkReceiptRecord a b c d e f g h) => (a, (b, (c, (d, (e, (f, (g, (h, tt)))))))))
  (fun '(a, (b, (c, (d, (e, (f, (g, (h, _)))))))) => mkReceiptRecord a b c d e f g h)
  ltac:(by intros []) ltac:(by intros (? & ? & ? & ? & ? & ? & ? & ? & [])).

Definition state_codec : codec StateRecord := struct_codec
  (field "schema_version" str_codec $ field "contract_version" str_codec $ field "record_type" str_codec $
   field "operation_id" str_codec $ field "organization_id" str_codec $ field "tenant_id" str_codec $
   field "case_id" str_codec $ field "intent_digest" str_codec $ field "idempotency_digest" str_codec $
   field "context_digest" str_codec $ field "manifest_digest" str_codec $ field "intent_policy_decision_digest" str_codec $
   field "pre_dispatch_decision_digest" str_codec $ field "approval_id" str_codec $
   field "approval_revision" (uint_codec 64) $ field "approval_fingerprint_digest" str_codec $
   field "requestor_actor_id" str_codec $ field "requestor_actor_revision" (uint_codec 64) $
   field "action_owner_actor_id" str_codec $ field "action_owner_actor_revision" (uint_codec 64) $
   field "status" str_codec $ field "reason_code" str_codec $ field "dispatch_audit_id" str_codec $
   field "completion_audit_id" str_codec $ field "receipt_digest" str_codec $
   field "previous_provenance_digest" str_codec $ field "provenance_digest" str_codec $ field "created_at" str_codec $
   field "updated_at" str_codec $ field "revision" (uint_codec 64) $ no_fields)
  (fun '(mkStateRecord a b c d e f g h i j k l m n o p q r s t u v w x y z aa bb cc dd) =>
     (a, (b, (c, (d, (e, (f, (g, (h, (i, (j, (k, (l, (m, (n, (o, (p, (q, (r, (s, (t, (u, (v, (w, (x, (y, (z, (aa,
      (bb, (cc, (dd, tt)))))))))))))))))))))))))))))))
  (fun '(a, (b, (c, (d, (e, (f, (g, (h, (i, (j, (k, (l, (m, (n, (o, (p, (q, (r, (s, (t, (u, (v, (w, (x, (y, (z, (aa,
      (bb, (cc, (dd, _)))))))))))))))))))))))))))))) =>
     mkStateRecord a b c d e f g h i j k l m n o p q r s t u v w x y z aa bb cc dd)
  ltac:(by intros [])
  ltac:(by intros (? & ? & ? & ? & ? & ? & ? & ? & ? & ? & ? & ? & ? & ? & ? & ? & ? & ? & ? & ? & ? & ? & ? & ? & ? & ?
                   & ? & ? & ? & ? & [])).

(** ** canonical.go *)

Definition maximumRecordBytes : Z := 2 ^ 20.
Definition intentDigestDomain : string := "COH-AGENT-LOOP-INTENT-V1" ++ String NUL "".

(** The anonymous struct; [CaseRef] has no tags. *)
Definition intent_payload (value : ToolIntent) : json := JObj [
  ("operation_id", JStr (ti_OperationID value));
  ("case", JObj [("OrganizationID", JStr (OrganizationID (ti_Case value))); ("TenantID", JStr (TenantID (ti_Case value)));
                 ("CaseID", JStr (CaseID (ti_Case value)))]);
  ("tool", JStr (ti_Tool value)); ("action", JStr (ti_Action value)); ("target_digest", JStr (ti_TargetDigest value));
  ("argument_digest", JStr (ti_ArgumentDigest value))].

Definition Digest (value : ToolIntent) : result Error string :=
  ValidateIntent value ;;
  canonical ← or_err (Canonicalize (marshal true (intent_payload value)))
    (contractError Internal "intent_canonicalization_failed");
  Ok (digest (intentDigestDomain ++ canonical)).

Definition canonical {T} (c : codec T) (value : T) : result Error string :=
  or_err (canonical_struct (c_type c) (c_to c value)) (contractError Denied "record_canonicalization_failed").

Definition CanonicalIntent (value : IntentRecord) : result Error string :=
  ValidateIntentRecord value ;;
  canonical intent_codec value.

Definition CanonicalReceipt (value : ReceiptRecord) : result Error string :=
  ValidateReceiptRecord value ;;
  canonical receipt_codec value.

Definition CanonicalState (value : StateRecord) : result Error string :=
  ValidateStateRecord value ;;
  canonical state_codec value.

(** The tags of the fields, none empty and none ["-"] *)
Definition tag_names (t : gtype) : list string :=
  match t with TStruct fields => map field_name fields | _ => [] end.

Definition requiredFieldsPresent (value : json) (target : gtype) : bool :=
  match value with
  | JObj object => forallb (fun name => existsb (fun kv => String.eqb (fst kv) name) object) (tag_names target)
  | _ => false
  end.

(** What the decoder reads is what [DecodeUnique] read: one value and the end. *)
Definition decodeExact {T} (c : codec T) (input : string) : result Error T :=
  deny_if ((len input =? 0) || (maximumRecordBytes <? len input)) (contractError Denied "record_size_invalid") ;;
  decoded ← or_err (DecodeUnique input) (contractError Denied "record_duplicate_or_malformed");
  deny_if (negb (requiredFieldsPresent decoded (c_type c))) (contractError Denied "record_required_field_missing") ;;
  match v ← decode decoded (c_type c) (zero_val (c_type c)); c_of c v with
  | Some value => Ok value
  | None => Err (contractError Denied "record_malformed")
  end.

(** The value is returned with the error of its validation; a caller looks at the error first. *)
Definition DecodeIntent (input : string) : result Error IntentRecord :=
  value ← decodeExact intent_codec input; ValidateIntentRecord value ;; Ok value.

Definition DecodeReceipt (input : string) : result Error ReceiptRecord :=
  value ← decodeExact receipt_codec input; ValidateReceiptRecord value ;; Ok value.

Definition DecodeState (input : string) : result Error StateRecord :=
  value ← decodeExact state_codec input; ValidateStateRecord value ;; Ok value.

(** ** The round trip *)

Lemma present_fields fs vs ms : (forall f, f ∈ fs -> snd (fst f) = false) -> length vs = length fs ->
  map fst ms ≡ₚ map fst (encode_fields fs vs) -> requiredFieldsPresent (JObj ms) (TStruct fs) = true.
Proof.
  intros Hom Hlen Hms. cbn. apply forallb_forall. intros name Hin. apply existsb_exists.
  assert (Hname : In name (map fst ms)).
  { apply list_elem_of_In. rewrite Hms. apply list_elem_of_In in Hin. clear Hms. revert vs Hlen Hin.
    induction fs as [|[[n om] t] fs IH]; intros [|v vs] Hlen Hin; try done. cbn in Hin.
    pose proof (Hom (n, om, t) (list_elem_of_here _ _)) as H0. cbn in H0. subst om. cbn [encode_fields andb map fst].
    apply elem_of_cons in Hin as [->|Hin]; [by left|right]. apply IH; [|by injection Hlen|done].
    intros f Hf. apply Hom. by right. }
  apply in_map_iff in Hname as (kv & <- & Hkv). exists kv. by rewrite String.eqb_refl.
Qed.

Lemma tool_present_encode fs vs sorted : plain_type (TStruct fs) -> length vs = length fs ->
  requiredFieldsPresent (arrange sorted (encode (TStruct fs) (VStruct vs))) (TStruct fs) = true.
Proof.
  intros Hp Hlen. rewrite encode_struct. destruct (arrange_members sorted (encode_fields fs vs)) as (ms & -> & Hperm).
  apply (present_fields fs vs); [|done|].
  - intros f [i Hf]%list_elem_of_lookup. by apply (plain_field fs i f).
  - rewrite (fmap_Permutation fst _ _ Hperm). by rewrite <- list_fmap_compose.
Qed.

Lemma tool_decodeExact_canonical {T F} (fc : fields_codec F) (unpack : T -> F) pack H1 H2 x bytes :
  let c := struct_codec fc unpack pack H1 H2 in plain_type (c_type c) -> (type_depth (c_type c) <= 64)%nat -> typed c x ->
  canonical c x = Ok bytes -> decodeExact c bytes = Ok x.
Proof.
  intros c Hp Hdepth Hty Hcan. apply or_err_ok in Hcan.
  destruct (canonical_reads c x bytes Hp Hdepth Hty Hcan) as (Hlen & Hunique & Hdec).
  unfold decodeExact. rewrite seq_ok, deny_if_ok. split.
  { apply orb_false_iff. rewrite Z.eqb_neq, Z.ltb_ge. unfold MaxInputBytes, maximumRecordBytes in *. lia. }
  rewrite Hunique. cbn [or_err mbind result_bind]. rewrite seq_ok, deny_if_ok. split.
  { apply negb_false_iff. apply (tool_present_encode (fc_fields fc) (fc_to fc (unpack x)) true Hp).
    by apply fields_ok_length. }
  rewrite Hdec. cbn [mbind option_bind]. by rewrite c_of_to.
Qed.
