(* ===== verification/RouteRecord.v ===== *)
(** * internal/broker: the durable record of a tool route

    The record a route is kept as, the errors of routes and the pure part of the audit
    ([toolroute_types.go], [toolroute_errors.go], [toolroute_validate.go],
    [toolroute_audit.go]): what a valid record is, which transitions are legal, what a replay
    must agree with, and the digests that bind the trusted context and chain the records. *)

From S2P Require Import Prelude GoStrings GoRegexp GoTime GoBase64 GoJson DomainContract Sha256 Domain GoStruct GoCodec EStop ToolRoute Authority TamperAudit Policy Storage ApprovalLifecycle ApprovalCodec ApprovalBroker PreDispatch.

Local Open Scope string_scope.
Local Open Scope Z_scope.

(** ** toolroute_types.go *)

Definition toolRouteRecordVersion : string := "coh.tool-route-state/v1".

Definition routePending : string := "pending".
Definition routeAuthorizing : string := "authorizing".
Definition routeDispatching : string := "dispatching".
Definition routeSucceeded : string := "succeeded".
Definition routeDenied : string := "denied".
Definition routeCanceled : string := "canceled".
Definition routeTimeout : string := "timeout".
Definition routeFailed : string := "failed".
Definition routeUncertain : string := "uncertain".

Record toolRouteRecord : Type := mkRoute {
  tr_RecordVersion : string; tr_OperationID : string; tr_Case : CaseRef; tr_IntentDigest : string;
  tr_IdempotencyDigest : string; tr_ContextDigest : string; tr_ManifestDigest : string;
  tr_IntentPolicyDecisionDigest : string; tr_PreDispatchDecisionDigest : string; tr_ApprovalID : string;
  tr_ApprovalRevision : Z; tr_ApprovalFingerprintDigest : string; tr_RequestorActorID : string;
  tr_RequestorActorRevision : Z; tr_ActionOwnerActorID : string; tr_ActionOwnerActorRevision : Z; tr_Status : string;
  tr_ReasonCode : string; tr_DispatchAuditID : string; tr_CompletionAuditID : string; tr_Receipt : ActionReceipt;
  tr_ReceiptDigest : string; tr_PreviousProvenanceDigest : string; tr_ProvenanceDigest : string; tr_CreatedAt : Time;
  tr_UpdatedAt : Time; tr_Revision : Z }.

#[export] Instance toolRouteRecord_eq_dec : EqDecision toolRouteRecord.
Proof. solve_decision. Defined.

Record toolRouteIdentity : Type := mkIdentity { id_ActorID : string; id_ActorRevision : Z }.

(** ** toolroute_errors.go *)

Inductive toolRouteCode : Type :=
| routeCodeInvalidInput | routeCodeDenied | routeCodeCanceled | routeCodeTimeout | routeCodeUnavailable | routeCodeUncertain.

#[export] Instance toolRouteCode_eq_dec : EqDecision toolRouteCode.
Proof. solve_decision. Defined.

(** The cause of an error of a route: another one, an error of a dependency or of its context,
    or an error of the contract *)
Inductive toolRouteError : Type :=
| newRouteError (code : toolRouteCode) (reason : string) (indeterminate : bool) (cause : route_cause)
with route_cause : Type :=
| NoCause
| CauseRoute (err : toolRouteError)
| CauseDependency (err : go_error Error)
| CauseContract (err : ToolRoute.Error).

Definition routeCode (err : toolRouteError) : toolRouteCode := let '(newRouteError code _ _ _) := err in code.
Definition routeReason (err : toolRouteError) : string := let '(newRouteError _ reason _ _) := err in reason.
Definition DispatchIndeterminate (err : toolRouteError) : bool := let '(newRouteError _ _ indeterminate _) := err in indeterminate.

Definition refused (reason : string) : toolRouteError := newRouteError routeCodeDenied reason false NoCause.
Definition unavailable (reason : string) : toolRouteError := newRouteError routeCodeUnavailable reason false NoCause.

Definition mapLifecycleCode (err : go_error Error) : toolRouteCode :=
  match ApprovalCodec.Code err with
  | InvalidInput => routeCodeInvalidInput
  | Denied => routeCodeDenied
  | Canceled => routeCodeCanceled
  | Timeout => routeCodeTimeout
  | _ => routeCodeUnavailable
  end.

(** What [ctx.Err()] says *)
Definition context_done {W} (ctx : context W) (w : W) : option done_reason :=
  match ctx with Some err => err w | None => None end.

Definition mapRouteContext {W} (ctx : context W) (reason : string) (indeterminate : bool) (err : go_error Error) (w : W)
  : toolRouteError :=
  if errors_is_canceled err || match context_done ctx w with Some DoneCanceled => true | _ => false end
  then newRouteError routeCodeCanceled reason indeterminate (CauseDependency ECanceled)
  else if errors_is_deadline err || match context_done ctx w with Some DoneDeadlineExceeded => true | _ => false end
  then newRouteError routeCodeTimeout reason indeterminate (CauseDependency EDeadlineExceeded)
  else newRouteError (mapLifecycleCode err) (ApprovalCodec.Reason err) indeterminate NoCause.

(** The error of a dependency at the end of the chain of causes *)
Fixpoint route_dependency (err : toolRouteError) : option (go_error Error) :=
  match err with
  | newRouteError _ _ _ (CauseRoute err) => route_dependency err
  | newRouteError _ _ _ (CauseDependency err) => Some err
  | _ => None
  end.

(** ** toolroute_authority.go: the tables *)

Definition routeStatusForOutcome (outcome : string) : string :=
  if existsb (String.eqb outcome) ["succeeded"; "denied"; "canceled"; "timeout"; "failed"] then outcome else routeUncertain.

Definition routeStatusForCode (code : toolRouteCode) : string :=
  match code with
  | routeCodeDenied | routeCodeInvalidInput => routeDenied
  | routeCodeCanceled => routeCanceled
  | routeCodeTimeout => routeTimeout
  | routeCodeUncertain => routeUncertain
  | routeCodeUnavailable => routeFailed
  end.

Definition routeOutcomeForStatus (status : string) : string := status.

Definition routeAuditOutcomeForStatus (status : string) : string :=
  if String.eqb status routeSucceeded then "allowed" else status.

Definition routeAuditOutcome (err : toolRouteError) : string :=
  let dependency := default (EOther []) (route_dependency err) in
  if errors_is_canceled dependency || bool_decide (routeCode err = routeCodeCanceled) then "canceled"
  else if errors_is_deadline dependency || bool_decide (routeCode err = routeCodeTimeout) then "timeout"
  else if bool_decide (routeCode err = routeCodeDenied) || bool_decide (routeCode err = routeCodeInvalidInput) ||
          match ApprovalCodec.Code dependency with Denied => true | _ => false end then "denied"
  else "failed".

(** ** toolroute_validate.go *)

Definition toolRouteContextDomain : string := "COH-TOOL-ROUTE-CONTEXT-V1" ++ String NUL "".
Definition toolRouteProvenanceDomain : string := "COH-TOOL-ROUTE-PROVENANCE-V1" ++ String NUL "".
Definition toolRouteReceiptDomain : string := "COH-TOOL-ROUTE-RECEIPT-V1" ++ String NUL "".

Definition routeDigest (domain value : string) : string := digest (domain ++ value).

Definition validRouteCase : CaseRef -> bool := validCase.

Definition terminalToolRouteStatus (value : string) : bool :=
  String.eqb value routeSucceeded || String.eqb value routeDenied || String.eqb value routeCanceled ||
  String.eqb value routeTimeout || String.eqb value routeFailed || String.eqb value routeUncertain.

Definition validToolRouteStatus (value : string) : bool :=
  String.eqb value routePending || String.eqb value routeAuthorizing || String.eqb value routeDispatching ||
  terminalToolRouteStatus value.

Definition legalToolRouteTransition (prior next : string) : bool :=
  if String.eqb prior routePending then String.eqb next routeAuthorizing || terminalToolRouteStatus next
  else if String.eqb prior routeAuthorizing then String.eqb next routeDispatching || terminalToolRouteStatus next
  else if String.eqb prior routeDispatching then terminalToolRouteStatus next
  else false.

(** *** The records as JSON: no tags *)

Definition case_fields : list (string * bool * gtype) :=
  [("OrganizationID", false, TString); ("TenantID", false, TString); ("CaseID", false, TString)].

Definition case_val (value : CaseRef) : gval := VStruct [VStr (OrganizationID value); VStr (TenantID value); VStr (CaseID value)].

Definition domain_receipt_type : gtype := TStruct [
  ("IntentDigest", false, TString); ("Outcome", false, TString);
  ("Evidence", false, TStruct [("Digest", false, TString); ("MediaType", false, TString);
     ("Classification", false, TString); ("Length", false, TInt 64)])].

Definition domain_receipt_val (value : ActionReceipt) : gval := VStruct [
  VStr (rc_IntentDigest value); VStr (rc_Outcome value);
  VStruct [VStr (ar_Digest (rc_Evidence value)); VStr (ar_MediaType (rc_Evidence value));
           VStr (ar_Classification (rc_Evidence value)); VInt (ar_Length (rc_Evidence value))]].

Definition route_type : gtype := TStruct [
  ("RecordVersion", false, TString); ("OperationID", false, TString); ("Case", false, TStruct case_fields);
  ("IntentDigest", false, TString); ("IdempotencyDigest", false, TString); ("ContextDigest", false, TString);
  ("ManifestDigest", false, TString); ("IntentPolicyDecisionDigest", false, TString);
  ("PreDispatchDecisionDigest", false, TString); ("ApprovalID", false, TString); ("ApprovalRevision", false, TUint 64);
  ("ApprovalFingerprintDigest", false, TString); ("RequestorActorID", false, TString);
  ("RequestorActorRevision", false, TUint 64); ("ActionOwnerActorID", false, TString);
  ("ActionOwnerActorRevision", false, TUint 64); ("Status", false, TString); ("ReasonCode", false, TString);
  ("DispatchAuditID", false, TString); ("CompletionAuditID", false, TString); ("Receipt", false, domain_receipt_type);
  ("ReceiptDigest", false, TString); ("PreviousProvenanceDigest", false, TString); ("ProvenanceDigest", false, TString);
  ("CreatedAt", false, TString); ("UpdatedAt", false, TString); ("Revision", false, TUint 64)].

(** A time marshals as RFC 3339 text; records have UTC times. *)
Definition route_val (r : toolRouteRecord) : gval := VStruct [
  VStr (tr_RecordVersion r); VStr (tr_OperationID r); case_val (tr_Case r); VStr (tr_IntentDigest r);
  VStr (tr_IdempotencyDigest r); VStr (tr_ContextDigest r); VStr (tr_ManifestDigest r);
  VStr (tr_IntentPolicyDecisionDigest r); VStr (tr_PreDispatchDecisionDigest r); VStr (tr_ApprovalID r);
  VUint (tr_ApprovalRevision r); VStr (tr_ApprovalFingerprintDigest r); VStr (tr_RequestorActorID r);
  VUint (tr_RequestorActorRevision r); VStr (tr_ActionOwnerActorID r); VUint (tr_ActionOwnerActorRevision r);
  VStr (tr_Status r); VStr (tr_ReasonCode r); VStr (tr_DispatchAuditID r); VStr (tr_CompletionAuditID r);
  domain_receipt_val (tr_Receipt r); VStr (tr_ReceiptDigest r); VStr (tr_PreviousProvenanceDigest r);
  VStr (tr_ProvenanceDigest r); VStr (format_rfc3339 (tr_CreatedAt r)); VStr (format_rfc3339 (tr_UpdatedAt r));
  VUint (tr_Revision r)].

(** [Time.MarshalJSON] refuses years that do not have four digits. *)
Definition marshalable (t : Time) : bool := (0 <=? year t) && (year t <=? 9999).

Definition with_provenance (r : toolRouteRecord) (value : string) : toolRouteRecord :=
  mkRoute (tr_RecordVersion r) (tr_OperationID r) (tr_Case r) (tr_IntentDigest r) (tr_IdempotencyDigest r)
    (tr_ContextDigest r) (tr_ManifestDigest r) (tr_IntentPolicyDecisionDigest r) (tr_PreDispatchDecisionDigest r)
    (tr_ApprovalID r) (tr_ApprovalRevision r) (tr_ApprovalFingerprintDigest r) (tr_RequestorActorID r)
    (tr_RequestorActorRevision r) (tr_ActionOwnerActorID r) (tr_ActionOwnerActorRevision r) (tr_Status r)
    (tr_ReasonCode r) (tr_DispatchAuditID r) (tr_CompletionAuditID r) (tr_Receipt r) (tr_ReceiptDigest r)
    (tr_PreviousProvenanceDigest r) value (tr_CreatedAt r) (tr_UpdatedAt r) (tr_Revision r).

(** [bytes.Join] with the separator zero *)
Definition provenance_message (prior operation canonical : string) : string :=
  prior ++ String NUL "" ++ operation ++ String NUL "" ++ canonical.

Definition toolRouteProvenance (prior operation : string) (value : toolRouteRecord) : result toolRouteError string :=
  deny_if (negb (marshalable (tr_CreatedAt value)) || negb (marshalable (tr_UpdatedAt value)))
    (unavailable "route_provenance_encoding") ;;
  canonical ← or_err (canonical_struct route_type (route_val (with_provenance value ""))) (refused "route_provenance_invalid");
  Ok (routeDigest toolRouteProvenanceDomain (provenance_message prior operation canonical)).

Definition toolRouteStateRecord (value : toolRouteRecord) : StateRecord :=
  mkStateRecord ToolRoute.SchemaVersion ToolRoute.ContractVersion "state" (tr_OperationID value) (OrganizationID (tr_Case value))
    (TenantID (tr_Case value)) (CaseID (tr_Case value)) (tr_IntentDigest value) (tr_IdempotencyDigest value)
    (tr_ContextDigest value) (tr_ManifestDigest value) (tr_IntentPolicyDecisionDigest value)
    (tr_PreDispatchDecisionDigest value) (tr_ApprovalID value) (tr_ApprovalRevision value)
    (tr_ApprovalFingerprintDigest value) (tr_RequestorActorID value) (tr_RequestorActorRevision value)
    (tr_ActionOwnerActorID value) (tr_ActionOwnerActorRevision value) (tr_Status value) (tr_ReasonCode value)
    (tr_DispatchAuditID value) (tr_CompletionAuditID value) (tr_ReceiptDigest value) (tr_PreviousProvenanceDigest value)
    (tr_ProvenanceDigest value) (formatTime (tr_CreatedAt value)) (formatTime (tr_UpdatedAt value)) (tr_Revision value).

Definition is_set (text : string) : bool := negb (String.eqb text "").

Definition optional_digest (text : string) : bool := negb (is_set text) || digestPattern text.

Definition validateToolRouteRecord (value : toolRouteRecord) : result toolRouteError unit :=
  deny_if (negb (String.eqb (tr_RecordVersion value) toolRouteRecordVersion) || negb (uuidPattern (tr_OperationID value)) ||
           negb (validRouteCase (tr_Case value)) || negb (digestPattern (tr_IntentDigest value)) ||
           negb (digestPattern (tr_IdempotencyDigest value)) || negb (digestPattern (tr_ContextDigest value)) ||
           negb (digestPattern (tr_ManifestDigest value)) || negb (digestPattern (tr_IntentPolicyDecisionDigest value)) ||
           negb (uuidPattern (tr_ApprovalID value)) || negb (uuidPattern (tr_RequestorActorID value)) ||
           (tr_RequestorActorRevision value =? 0) || negb (uuidPattern (tr_ActionOwnerActorID value)) ||
           (tr_ActionOwnerActorRevision value =? 0) || negb (digestPattern (tr_ProvenanceDigest value)) ||
           is_zero (tr_CreatedAt value) || is_zero (tr_UpdatedAt value) || negb (is_utc (tr_CreatedAt value)) ||
           negb (is_utc (tr_UpdatedAt value)) || before (tr_UpdatedAt value) (tr_CreatedAt value) ||
           (tr_Revision value =? 0) || negb (tokenPattern (tr_ReasonCode value)))
    (refused "route_record_invalid") ;;
  deny_if (negb (optional_digest (tr_PreDispatchDecisionDigest value)) ||
           negb (optional_digest (tr_ApprovalFingerprintDigest value)) || negb (optional_digest (tr_DispatchAuditID value)) ||
           negb (optional_digest (tr_CompletionAuditID value)) || negb (optional_digest (tr_ReceiptDigest value)) ||
           negb (optional_digest (tr_PreviousProvenanceDigest value)))
    (refused "route_record_digest_invalid") ;;
  let authorized := is_set (tr_PreDispatchDecisionDigest value) || negb (tr_ApprovalRevision value =? 0) ||
                    is_set (tr_ApprovalFingerprintDigest value) in
  deny_if (authorized && (negb (is_set (tr_PreDispatchDecisionDigest value)) || (tr_ApprovalRevision value =? 0) ||
                          negb (is_set (tr_ApprovalFingerprintDigest value))))
    (refused "route_record_authority_invalid") ;;
  deny_if (negb (validToolRouteStatus (tr_Status value))) (refused "route_record_status_invalid") ;;
  let terminal := terminalToolRouteStatus (tr_Status value) in
  deny_if (negb (Bool.eqb terminal (is_set (tr_ReceiptDigest value))) ||
           negb (Bool.eqb terminal (is_set (tr_CompletionAuditID value))) ||
           (terminal && negb (is_ok (ValidateReceipt (tr_Receipt value) (tr_IntentDigest value)))) ||
           (negb terminal && negb (bool_decide (tr_Receipt value = zero_receipt))))
    (refused "route_record_receipt_invalid") ;;
  deny_if ((String.eqb (tr_Status value) routeDispatching && negb (is_set (tr_DispatchAuditID value))) ||
           (terminal && negb (String.eqb (tr_Status value) routeDenied) && negb (is_set (tr_DispatchAuditID value)) &&
            negb (String.eqb (tr_Status value) routeCanceled) && negb (String.eqb (tr_Status value) routeTimeout) &&
            negb (String.eqb (tr_Status value) routeFailed)))
    (refused "route_record_audit_invalid") ;;
  match ValidateStateRecord (toolRouteStateRecord value) with
  | Err err => Err (newRouteError routeCodeDenied "route_state_contract_invalid" false (CauseContract err))
  | Ok _ =>
      deny_if match toolRouteProvenance (tr_PreviousProvenanceDigest value) (tr_ReasonCode value) value with
              | Ok expected => negb (String.eqb expected (tr_ProvenanceDigest value))
              | Err _ => true
              end
        (refused "route_provenance_invalid")
  end.

(** What no transition and no replay may change *)
Definition route_binding (r : toolRouteRecord) :=
  (tr_OperationID r, tr_Case r, tr_IntentDigest r, tr_IdempotencyDigest r, tr_ContextDigest r, tr_ManifestDigest r,
   tr_IntentPolicyDecisionDigest r, tr_ApprovalID r, tr_RequestorActorID r, tr_RequestorActorRevision r,
   tr_ActionOwnerActorID r, tr_ActionOwnerActorRevision r).

(** Set before, and something else now *)
Definition changed (prior next : string) : bool := is_set prior && negb (String.eqb prior next).

Definition validateToolRouteTransition (prior next : toolRouteRecord) : result toolRouteError unit :=
  validateToolRouteRecord prior ;;
  validateToolRouteRecord next ;;
  deny_if (negb (String.eqb (tr_RecordVersion prior) (tr_RecordVersion next)) ||
           negb (bool_decide (route_binding prior = route_binding next)) ||
           negb (bool_decide (tr_CreatedAt prior = tr_CreatedAt next)) || before (tr_UpdatedAt next) (tr_UpdatedAt prior) ||
           negb (tr_Revision next =? u64 (tr_Revision prior + 1)) ||
           negb (String.eqb (tr_PreviousProvenanceDigest next) (tr_ProvenanceDigest prior)) ||
           String.eqb (tr_ProvenanceDigest prior) (tr_ProvenanceDigest next) ||
           negb (legalToolRouteTransition (tr_Status prior) (tr_Status next)))
    (refused "route_transition_invalid") ;;
  deny_if (changed (tr_PreDispatchDecisionDigest prior) (tr_PreDispatchDecisionDigest next) ||
           (negb (tr_ApprovalRevision prior =? 0) && negb (tr_ApprovalRevision prior =? tr_ApprovalRevision next)) ||
           changed (tr_ApprovalFingerprintDigest prior) (tr_ApprovalFingerprintDigest next) ||
           changed (tr_DispatchAuditID prior) (tr_DispatchAuditID next) ||
           is_set (tr_CompletionAuditID prior) || is_set (tr_ReceiptDigest prior) ||
           negb (bool_decide (tr_Receipt prior = zero_receipt)) ||
           (String.eqb (tr_Status next) routeAuthorizing &&
            (is_set (tr_PreDispatchDecisionDigest next) || negb (tr_ApprovalRevision next =? 0) ||
             is_set (tr_ApprovalFingerprintDigest next) || is_set (tr_DispatchAuditID next))) ||
           (String.eqb (tr_Status next) routeDispatching && negb (is_set (tr_DispatchAuditID next))) ||
           (terminalToolRouteStatus (tr_Status next) && (negb (is_set (tr_CompletionAuditID next)) || negb (is_set (tr_ReceiptDigest next)))))
    (refused "route_transition_binding_invalid").

Definition validateIntentManifestBinding (intent : ToolIntent) (verified : VerifiedEnvelope) : result toolRouteError unit :=
  let manifest := ve_manifest verified in
  deny_if (negb (String.eqb (m_WorkflowTaskID manifest) (ti_OperationID intent)) ||
           negb (String.eqb (m_OrganizationID manifest) (OrganizationID (ti_Case intent))) ||
           negb (String.eqb (m_TenantID manifest) (TenantID (ti_Case intent))) ||
           negb (String.eqb (m_CaseID manifest) (CaseID (ti_Case intent))) ||
           negb (String.eqb (t_Name (m_Tool manifest)) (ti_Tool intent)) ||
           negb (String.eqb (m_Operation manifest) (ti_Action intent)) ||
           match items (m_TargetDigests manifest) with
           | [target] => negb (String.eqb target (ti_TargetDigest intent))
           | _ => true
           end ||
           negb (String.eqb (m_ArgumentsDigest manifest) (ti_ArgumentDigest intent)))
    (refused "intent_manifest_binding").

Definition validateRouteReplay (existing candidate : toolRouteRecord) : result toolRouteError unit :=
  deny_if (negb (bool_decide (route_binding existing = route_binding candidate))) (refused "route_replay_binding") ;;
  validateToolRouteRecord existing.

(** *** The trusted context as JSON: no tags, and no field that is not exported *)

(** A [[]byte]: base64 of the standard alphabet with its padding.  No bytes are a nil slice
    here. *)
Definition std_char (c : ascii) : ascii := if Ascii.eqb c "-" then "+"%char else if Ascii.eqb c "_" then "/"%char else c.

Fixpoint std_base64 (n : nat) (s : string) : string :=
  match s with
  | EmptyString => match n with 2%nat => "==" | 3%nat => "=" | _ => "" end
  | String c s' => String (std_char c) (std_base64 (if Nat.eqb n 3 then 0 else S n) s')
  end.

Definition json_bytes (value : string) : json :=
  if String.eqb value "" then JNull else JStr (std_base64 0 (base64_encode value)).

Definition signer_json (a : SignerAuthority) : json := JObj [
  ("ActorID", JStr (sa_ActorID a)); ("KeyID", JStr (sa_KeyID a)); ("KeyRevision", json_uint (sa_KeyRevision a));
  ("Active", JBool (sa_Active a)); ("PublicKey", json_bytes (sa_PublicKey a))].

Definition runtime_json (a : RuntimeAuthority) : json := JObj [
  ("DataRoute", JStr (ra_DataRoute a)); ("ValidatorState", JStr (ra_ValidatorState a));
  ("ToolRegistered", JBool (ra_ToolRegistered a)); ("TargetsAuthorized", JBool (ra_TargetsAuthorized a));
  ("TenantAuthorized", JBool (ra_TenantAuthorized a)); ("DataRouteAuthorized", JBool (ra_DataRouteAuthorized a));
  ("CapabilityFieldsKnown", JBool (ra_CapabilityFieldsKnown a));
  ("EmergencyStopActive", JBool (ra_EmergencyStopActive a))].

Definition bundle_json (a : BundleAuthority) : json := JObj [
  ("KeyID", JStr (ba_KeyID a)); ("KeyRevision", json_uint (ba_KeyRevision a)); ("Algorithm", JStr (ba_Algorithm a));
  ("Active", JBool (ba_Active a)); ("PublicKey", json_bytes (ba_PublicKey a))].

(** No grant authorities are a nil slice here. *)
Definition transition_json (c : approvalTransitionCommand) : json := JObj [
  ("ApprovalID", JStr (tc_ApprovalID c)); ("IdempotencyKey", JStr (tc_IdempotencyKey c));
  ("ExpectedRevision", json_uint (tc_ExpectedRevision c)); ("Case", encode (TStruct case_fields) (case_val (tc_Case c)));
  ("Actor", actor_json (tc_Actor c));
  ("Principal", match tc_Principal c with Some p => principal_json p | None => JNull end);
  ("GrantAuthorities", match tc_GrantAuthorities c with [] => JNull | l => JArr (map grant_authority_json l) end);
  ("ReasonCode", JStr (tc_ReasonCode c))].

Definition command_json (c : preDispatchCommand) : json := JObj [
  ("SignedManifest", json_bytes (pd_SignedManifest c)); ("ManifestSigner", signer_json (pd_ManifestSigner c));
  ("EvaluationID", JStr (pd_EvaluationID c)); ("PolicyActor", actor_json (pd_PolicyActor c));
  ("Runtime", runtime_json (pd_Runtime c)); ("PolicySigner", bundle_json (pd_PolicySigner c));
  ("Approval", transition_json (pd_Approval c)); ("Fingerprint", fingerprint_json (pd_Fingerprint c));
  ("IntentDecision", decision_json (pd_IntentDecision c))].

Definition toolRouteContextDigest (command : preDispatchCommand) : result toolRouteError string :=
  canonical ← or_err (Canonicalize (marshal true (command_json command))) (refused "route_context_invalid");
  Ok (routeDigest toolRouteContextDomain canonical).

Definition toolRouteReceiptDigest (value : ActionReceipt) : result toolRouteError string :=
  canonical ← or_err (CanonicalReceipt (ReceiptFromDomain value))
    (newRouteError routeCodeDenied "route_receipt_invalid" true NoCause);
  Ok (routeDigest toolRouteReceiptDomain canonical).

(** The record without its provenance *)
Definition route_started (intent : ToolIntent) (intentDigest idempotencyDigest contextDigest : string)
  (verified : VerifiedEnvelope) (command : preDispatchCommand) (now : Time) : toolRouteRecord :=
  mkRoute toolRouteRecordVersion (ti_OperationID intent) (ti_Case intent) intentDigest idempotencyDigest contextDigest
    (ve_ManifestDigest verified) (d_DecisionDigest (pd_IntentDecision command)) "" (tc_ApprovalID (pd_Approval command)) 0 ""
    (aa_ActorID (pd_PolicyActor command)) (aa_Revision (pd_PolicyActor command))
    (aa_ActorID (tc_Actor (pd_Approval command))) (aa_Revision (tc_Actor (pd_Approval command))) routePending
    "route_started" "" "" zero_receipt "" "" "" now now 1.

Definition newToolRouteRecord (intent : ToolIntent) (intentDigest idempotencyDigest contextDigest : string)
  (verified : VerifiedEnvelope) (command : preDispatchCommand) (now : Time) : result toolRouteError toolRouteRecord :=
  let record := route_started intent intentDigest idempotencyDigest contextDigest verified command now in
  provenance ← toolRouteProvenance "" "route_started" record;
  let record := with_provenance record provenance in
  validateToolRouteRecord record ;;
  Ok record.

Definition routeEvidence (values : list string) : list string := compact (sort_strings (List.filter digestPattern values)).

(** ** toolroute_audit.go *)

Definition toolRouteAuditDomain : string := "COH-TOOL-ROUTE-AUDIT-V1" ++ String NUL "".

Definition with_event_id (event : TamperAudit.Event) (id : string) : TamperAudit.Event :=
  TamperAudit.mkEvent (TamperAudit.e_SchemaVersion event) (TamperAudit.e_ContractVersion event) id
    (TamperAudit.e_OrganizationID event) (TamperAudit.e_TenantID event) (TamperAudit.e_CaseID event)
    (TamperAudit.e_ActorID event) (TamperAudit.e_ActorRevision event) (TamperAudit.e_SourceSchema event)
    (TamperAudit.e_Operation event) (TamperAudit.e_Outcome event) (TamperAudit.e_ReasonCode event)
    (TamperAudit.e_SubjectID event) (TamperAudit.e_SubjectRevision event) (TamperAudit.e_SubjectDigest event)
    (TamperAudit.e_EvidenceDigests event) (TamperAudit.e_OccurredAt event).

Definition toolRouteAuditID (event : TamperAudit.Event) : string :=
  digest (toolRouteAuditDomain ++ marshal true (encode event_type (event_val (with_event_id event "")))).

(** The event of [appendRouteAudit], without its identity *)
Definition route_event (identity : toolRouteIdentity) (record : toolRouteRecord) (outcome reason : string)
  (evidence : list string) (now : Time) : TamperAudit.Event :=
  let owned := uuidPattern (tr_ActionOwnerActorID record) && negb (tr_ActionOwnerActorRevision record =? 0) in
  TamperAudit.mkEvent TamperAudit.EventSchemaVersion TamperAudit.ContractVersion "" (OrganizationID (tr_Case record))
    (TenantID (tr_Case record)) (CaseID (tr_Case record))
    (if owned then tr_ActionOwnerActorID record else id_ActorID identity)
    (if owned then tr_ActionOwnerActorRevision record else id_ActorRevision identity) ToolRoute.SchemaVersion "route_tool" outcome
    reason (tr_OperationID record) (tr_Revision record) (tr_IntentDigest record)
    (Some (routeEvidence (evidence ++ [tr_ContextDigest record; tr_ManifestDigest record; tr_IntentPolicyDecisionDigest record;
       tr_PreDispatchDecisionDigest record; tr_ApprovalFingerprintDigest record])%list)) (formatTime now).

(** With its identity *)
Definition route_audit_event (identity : toolRouteIdentity) (record : toolRouteRecord) (outcome reason : string)
  (evidence : list string) (now : Time) : TamperAudit.Event :=
  let event := route_event identity record outcome reason evidence now in with_event_id event (toolRouteAuditID event).

(** The record that [appendUnboundAudit] audits *)
Definition unbound_record (identity : toolRouteIdentity) (intent : ToolIntent) (intentDigest : string) : toolRouteRecord :=
  mkRoute "" (ti_OperationID intent) (ti_Case intent) intentDigest "" "" "" "" "" "" 0 "" (id_ActorID identity)
    (id_ActorRevision identity) (id_ActorID identity) (id_ActorRevision identity) "" "" "" "" zero_receipt "" "" ""
    zero_time zero_time 1.

Definition routeReceipt (intentDigest outcome evidence : string) : ActionReceipt :=
  mkReceipt intentDigest outcome (mkArtifactRef evidence "application/vnd.coh.tool-route.audit+json" "restricted" 0).
