(* ===== verification/RouteBroker.v ===== *)
(** * internal/broker: routing a tool request

    [Submit] is the only way from a workflow to a connector: it checks the intent, replays what
    is already decided, resolves and binds the trusted context, persists each state before it
    acts on it, asks the stop guard and the pre-dispatch gate, audits, calls the connector once
    and persists its receipt ([toolroute_authority.go], the rest of [toolroute_audit.go] and of
    [toolroute_types.go]).

    A submission is a goroutine: the calls it makes, in the source's order.  The gate and the
    stop guard are goroutines it runs; [RouteCompose.v] gives the repository's own. *)

From S2P Require Import Prelude GoStrings GoRegexp GoTime GoJson DomainContract Sha256 Domain GoStruct GoCodec EStop EStopController ToolRoute Authority TamperAudit Policy ActionManifest Storage ApprovalLifecycle ApprovalCodec ApprovalBroker PreDispatch RouteRecord.

Local Open Scope string_scope.
Local Open Scope Z_scope.

(** ** toolroute_types.go: the dependencies *)

Class RouteStore (W : Type) : Type := {
  route_lookup : context W -> CaseRef -> string -> prog W (go_error Error) (toolRouteRecord * bool);
  route_begin : context W -> string -> toolRouteRecord -> prog W (go_error Error) (toolRouteRecord * bool);
  route_save : context W -> string -> toolRouteRecord -> toolRouteRecord -> prog W (go_error Error) toolRouteRecord }.

(** The resolver, what the manifest's verification uses, the gate, the stop guard, the connector,
    the audit log, the clock, and the context of a save that the caller cannot cancel *)
Class RoutePorts (W : Type) : Type := {
  resolveToolRoute : context W -> ToolIntent -> string -> prog W (go_error Error) preDispatchCommand;
  route_Looks : context W -> W -> nat -> context_state;
  route_ed25519 : string -> string -> string -> bool;
  route_authorize : context W -> preDispatchCommand -> routine W (result Error preDispatchAuthority);
  route_Allow : context W -> string -> string -> string -> routine W (option (go_error Error));
  Dispatch : context W -> ToolIntent -> prog W (go_error Error) ActionReceipt;
  route_AppendAuditEvent : TamperAudit.Event -> prog W unit unit;
  RouteNow : W -> Time * W;
  PersistDeadline : W -> option done_reason }.

(** The authority is its identity; the other dependencies are the ports.  [Submit]'s own test
    for a missing dependency never fires on what this returns. *)
Definition newToolRouteAuthority (dependency_nil : bool) (identity : toolRouteIdentity) : result toolRouteError toolRouteIdentity :=
  deny_if (dependency_nil || negb (uuidPattern (id_ActorID identity)) || (id_ActorRevision identity =? 0))
    (newRouteError routeCodeInvalidInput "route_dependencies" false NoCause) ;;
  Ok identity.

(** ** Records in transition *)

(** [transitionRoute], before its provenance *)
Definition advanced (current : toolRouteRecord) (status operation : string) (now : Time) : toolRouteRecord :=
  mkRoute (tr_RecordVersion current) (tr_OperationID current) (tr_Case current) (tr_IntentDigest current)
    (tr_IdempotencyDigest current) (tr_ContextDigest current) (tr_ManifestDigest current)
    (tr_IntentPolicyDecisionDigest current) (tr_PreDispatchDecisionDigest current) (tr_ApprovalID current)
    (tr_ApprovalRevision current) (tr_ApprovalFingerprintDigest current) (tr_RequestorActorID current)
    (tr_RequestorActorRevision current) (tr_ActionOwnerActorID current) (tr_ActionOwnerActorRevision current) status
    operation (tr_DispatchAuditID current) (tr_CompletionAuditID current) (tr_Receipt current) (tr_ReceiptDigest current)
    (tr_ProvenanceDigest current) (tr_ProvenanceDigest current) (tr_CreatedAt current) now (u64 (tr_Revision current + 1)).

(** The record with the three references of an authorization, and with the identities of its
    audit events and its receipt *)
Definition with_authority (r : toolRouteRecord) (decision : string) (revision : Z) (fingerprint : string) : toolRouteRecord :=
  mkRoute (tr_RecordVersion r) (tr_OperationID r) (tr_Case r) (tr_IntentDigest r) (tr_IdempotencyDigest r)
    (tr_ContextDigest r) (tr_ManifestDigest r) (tr_IntentPolicyDecisionDigest r) decision (tr_ApprovalID r) revision
    fingerprint (tr_RequestorActorID r) (tr_RequestorActorRevision r) (tr_ActionOwnerActorID r)
    (tr_ActionOwnerActorRevision r) (tr_Status r) (tr_ReasonCode r) (tr_DispatchAuditID r) (tr_CompletionAuditID r)
    (tr_Receipt r) (tr_ReceiptDigest r) (tr_PreviousProvenanceDigest r) (tr_ProvenanceDigest r) (tr_CreatedAt r)
    (tr_UpdatedAt r) (tr_Revision r).

Definition with_outcome (r : toolRouteRecord) (dispatchAudit completionAudit : string) (receipt : ActionReceipt)
  (receiptDigest : string) : toolRouteRecord :=
  mkRoute (tr_RecordVersion r) (tr_OperationID r) (tr_Case r) (tr_IntentDigest r) (tr_IdempotencyDigest r)
    (tr_ContextDigest r) (tr_ManifestDigest r) (tr_IntentPolicyDecisionDigest r) (tr_PreDispatchDecisionDigest r)
    (tr_ApprovalID r) (tr_ApprovalRevision r) (tr_ApprovalFingerprintDigest r) (tr_RequestorActorID r)
    (tr_RequestorActorRevision r) (tr_ActionOwnerActorID r) (tr_ActionOwnerActorRevision r) (tr_Status r)
    (tr_ReasonCode r) dispatchAudit completionAudit receipt receiptDigest (tr_PreviousProvenanceDigest r)
    (tr_ProvenanceDigest r) (tr_CreatedAt r) (tr_UpdatedAt r) (tr_Revision r).

(** The references of the capability that the gate gave *)
Definition authorized_by (r : toolRouteRecord) (capability : preDispatchAuthority) : toolRouteRecord :=
  with_authority r (d_DecisionDigest (au_PreDispatchDecision capability)) (a_Revision (au_Approval capability))
    (a_FingerprintDigest (au_Approval capability)).

(** The last steps to a state: chain the record to the one before it and hold the transition
    against the rules *)
Definition chained (current : toolRouteRecord) (operation : string) (next : toolRouteRecord)
  : result toolRouteError toolRouteRecord :=
  provenance ← toolRouteProvenance (tr_ProvenanceDigest current) operation next;
  let next := with_provenance next provenance in
  validateToolRouteTransition current next ;;
  Ok next.

Definition dispatching_record (current transition : toolRouteRecord) (dispatchAuditID : string)
  (capability : preDispatchAuthority) : result toolRouteError toolRouteRecord :=
  chained current "dispatch_started"
    (authorized_by (with_outcome transition dispatchAuditID (tr_CompletionAuditID transition) (tr_Receipt transition)
                      (tr_ReceiptDigest transition)) capability).

Definition finished_record (current auditRecord transition : toolRouteRecord) (reason auditID : string)
  (receipt : ActionReceipt) : result toolRouteError toolRouteRecord :=
  receiptDigest ← toolRouteReceiptDigest receipt;
  chained current reason
    (with_authority (with_outcome transition (tr_DispatchAuditID transition) auditID receipt receiptDigest)
       (tr_PreDispatchDecisionDigest auditRecord) (tr_ApprovalRevision auditRecord) (tr_ApprovalFingerprintDigest auditRecord)).

Definition done_error (reason : done_reason) : go_error Error :=
  match reason with DoneCanceled => ECanceled | DoneDeadlineExceeded => EDeadlineExceeded end.

(** The key of a submission *)
Definition route_key (intent : ToolIntent) : string :=
  "tool-route:" ++ OrganizationID (ti_Case intent) ++ ":" ++ TenantID (ti_Case intent) ++ ":" ++
  CaseID (ti_Case intent) ++ ":" ++ ti_OperationID intent.

Section authority.
Context {W : Type} {store : RouteStore W} {ports : RoutePorts W} (identity : toolRouteIdentity).
Local Notation answer := (ActionReceipt * option toolRouteError)%type.

Definition route_now : routine W Time := calls (fun w => let '(t, w) := RouteNow w in (to_utc t, w)).

Definition mapped (ctx : context W) (reason : string) (indeterminate : bool) (err : go_error Error) : routine W toolRouteError :=
  calls (fun w => (mapRouteContext ctx reason indeterminate err w, w)).

Definition fail (err : toolRouteError) : routine W answer := mret (zero_receipt, Some err).

(** ** toolroute_audit.go *)

(** The event is appended under a context detached from the caller's. *)
Definition appendRouteAudit (record : toolRouteRecord) (outcome reason : string) (evidence : list string)
  : routine W (result toolRouteError string) :=
  now ← route_now;
  if is_zero now then mret (Err (unavailable "route_clock_unavailable"))
  else
    let event := route_audit_event identity record outcome reason evidence now in
    match TamperAudit.ValidateEvent event with
    | Err _ => mret (Err (unavailable "route_audit_event_invalid"))
    | Ok _ =>
        appended ← calls (route_AppendAuditEvent event);
        mret (match appended with Ok _ => Ok (TamperAudit.e_EventID event) | Err _ => Err (unavailable "route_audit_unavailable") end)
    end.

Definition appendUnboundAudit (intent : ToolIntent) (intentDigest outcome reason : string)
  : routine W (result toolRouteError string) :=
  appendRouteAudit (unbound_record identity intent intentDigest) outcome reason [].

(** The submission fails, once that is audited. *)
Definition refuse_unbound (intent : ToolIntent) (intentDigest outcome : string) (err : toolRouteError) : routine W answer :=
  audited ← appendUnboundAudit intent intentDigest outcome (routeReason err);
  match audited with
  | Err auditErr => fail auditErr
  | Ok _ => fail err
  end.

(** ** toolroute_authority.go *)

Definition transitionRoute (current : toolRouteRecord) (status operation : string)
  : routine W (result toolRouteError toolRouteRecord) :=
  now ← route_now;
  let next := advanced current status operation now in
  mret (provenance ← toolRouteProvenance (tr_ProvenanceDigest current) operation next; Ok (with_provenance next provenance)).

Definition checkStop (ctx : context W) (scope : CaseRef) : routine W (option toolRouteError) :=
  allowed ← route_Allow ctx (OrganizationID scope) (TenantID scope) (CaseID scope);
  match allowed with
  | Some err => e ← mapped ctx "emergency_stop" false err; mret (Some e)
  | None => mret None
  end.

Definition finishRouteBound (ctx : context W) (key : string) (current auditRecord : toolRouteRecord) (status reason : string)
  (supplied : option ActionReceipt) : routine W answer :=
  let outcome := routeOutcomeForStatus status in
  let indeterminate := String.eqb (tr_Status current) routeDispatching in
  let evidence := routeEvidence (tr_DispatchAuditID auditRecord ::
    match supplied with Some receipt => [ar_Digest (rc_Evidence receipt)] | None => [] end) in
  audited ← appendRouteAudit auditRecord (routeAuditOutcomeForStatus status) reason evidence;
  match audited with
  | Err err => fail (newRouteError routeCodeUnavailable "route_completion_audit" indeterminate (CauseRoute err))
  | Ok auditID =>
      let receipt := default (routeReceipt (tr_IntentDigest current) outcome auditID) supplied in
      transition ← transitionRoute current status reason;
      match (transition ← transition; finished_record current auditRecord transition reason auditID receipt) with
      | Err err => fail err
      | Ok next =>
          saved ← calls (route_save (Some PersistDeadline) (key ++ ":terminal:" ++ outcome) current next);
          match saved with
          | Err err => fail (newRouteError routeCodeUnavailable "route_store_terminal" indeterminate (CauseDependency err))
          | Ok saved => mret (tr_Receipt saved, None)
          end
      end
  end.

Definition finishRoute (ctx : context W) (key : string) (current : toolRouteRecord) (status reason : string)
  (supplied : option ActionReceipt) : routine W answer :=
  finishRouteBound ctx key current current status reason supplied.

Definition finishAuthorizedRouteError (ctx : context W) (key : string) (current authorized : toolRouteRecord)
  (err : toolRouteError) : routine W answer :=
  finished ← finishRouteBound ctx key current authorized (routeStatusForCode (routeCode err)) (routeReason err) None;
  let '(receipt, finishErr) := (finished : answer) in
  match finishErr with
  | Some _ => mret finished
  | None =>
      match routeCode err with
      | routeCodeCanceled | routeCodeTimeout | routeCodeInvalidInput | routeCodeUnavailable => mret (receipt, Some err)
      | _ => mret (receipt, None)
      end
  end.

Definition finishRouteError (ctx : context W) (key : string) (current : toolRouteRecord) (err : toolRouteError)
  : routine W answer :=
  finishAuthorizedRouteError ctx key current current err.

(** The connector's turn: the record is dispatching. *)
Definition dispatch_route (ctx : context W) (key : string) (current : toolRouteRecord) (intent : ToolIntent)
  : routine W answer :=
  answered ← calls (Dispatch ctx intent);
  match answered with
  | Err err =>
      e ← mapped ctx "connector_dispatch" true err;
      finishRoute ctx key current routeUncertain (routeReason e) None
  | Ok receipt =>
      match ValidateReceipt receipt (tr_IntentDigest current) with
      | Err _ => finishRoute ctx key current routeUncertain "connector_receipt_invalid" None
      | Ok _ =>
          finishRoute ctx key current (routeStatusForOutcome (rc_Outcome receipt)) ("connector_" ++ rc_Outcome receipt)
            (Some receipt)
      end
  end.

(** With the gate's capability *)
Definition authorized_route (ctx : context W) (key : string) (current : toolRouteRecord) (intent : ToolIntent)
  (capability : preDispatchAuthority) : routine W answer :=
  let decision := d_DecisionDigest (au_PreDispatchDecision capability) in
  let fingerprint := a_FingerprintDigest (au_Approval capability) in
  if negb (is_ok (validateIntentManifestBinding intent (au_Manifest capability))) || negb (is_set decision) ||
     negb (is_set fingerprint)
  then finishRoute ctx key current routeDenied "predispatch_binding" None
  else
    let authorized := authorized_by current capability in
    stopped ← checkStop ctx (tr_Case current);
    match stopped with
    | Some err => finishAuthorizedRouteError ctx key current authorized err
    | None =>
        audited ← appendRouteAudit authorized "allowed" "route_dispatching" [au_AuditEventID capability; decision; fingerprint];
        match audited with
        | Err err => fail err
        | Ok dispatchAuditID =>
            transition ← transitionRoute current routeDispatching "dispatch_started";
            match (transition ← transition; dispatching_record current transition dispatchAuditID capability) with
            | Err err => fail err
            | Ok next =>
                saved ← calls (route_save ctx (key ++ ":dispatching") current next);
                match saved with
                | Err err => e ← mapped ctx "route_store_dispatching" false err; fail e
                | Ok current => dispatch_route ctx key current intent
                end
            end
        end
    end.

(** From pending to authorizing; the error, if that fails *)
Definition begin_authorizing (ctx : context W) (key : string) (current : toolRouteRecord)
  : routine W (result toolRouteError toolRouteRecord) :=
  transition ← transitionRoute current routeAuthorizing "authorization_started";
  match (transition ← transition; validateToolRouteTransition current transition ;; Ok transition) with
  | Err err => mret (Err err)
  | Ok next =>
      saved ← calls (route_save ctx (key ++ ":authorizing") current next);
      match saved with
      | Err err => e ← mapped ctx "route_store_authorizing" false err; mret (Err e)
      | Ok current => mret (Ok current)
      end
  end.

Definition authorizeAndDispatch (ctx : context W) (key : string) (current : toolRouteRecord) (intent : ToolIntent)
  (command : preDispatchCommand) : routine W answer :=
  started ← (if String.eqb (tr_Status current) routePending then begin_authorizing ctx key current else mret (Ok current));
  match started with
  | Err err => fail err
  | Ok current =>
      capability ← route_authorize ctx command;
      match capability with
      | Err err => e ← mapped ctx "predispatch_authority" false (EOwn err); finishRouteError ctx key current e
      | Ok capability => authorized_route ctx key current intent capability
      end
  end.

(** A durable record that is decided is replayed, one that was dispatching is uncertain. *)
Definition resume (ctx : context W) (key : string) (current : toolRouteRecord) (continue : routine W answer) : routine W answer :=
  if terminalToolRouteStatus (tr_Status current) then mret (tr_Receipt current, None)
  else if String.eqb (tr_Status current) routeDispatching
  then finishRoute ctx key current routeUncertain "dispatch_receipt_missing" None
  else continue.

(** Once the record is durable *)
Definition begun_route (ctx : context W) (key : string) (current : toolRouteRecord) (intent : ToolIntent)
  (verified : VerifiedEnvelope) (command : preDispatchCommand) : routine W answer :=
  match validateIntentManifestBinding intent verified with
  | Err err => finishRoute ctx key current routeDenied (routeReason err) None
  | Ok _ =>
      stopped ← checkStop ctx (tr_Case current);
      match stopped with
      | Some err => finishRouteError ctx key current err
      | None => authorizeAndDispatch ctx key current intent command
      end
  end.

(** From the trusted context to a durable record *)
Definition bound_route (ctx : context W) (key : string) (intent : ToolIntent) (intentDigest : string)
  (command : preDispatchCommand) (verified : VerifiedEnvelope) : routine W answer :=
  match toolRouteContextDigest command with
  | Err err => fail err
  | Ok contextDigest =>
      now ← route_now;
      if is_zero now then fail (unavailable "route_clock_unavailable")
      else
        let idempotencyDigest := routeDigest ("COH-TOOL-ROUTE-IDEMPOTENCY-V1" ++ String NUL "") key in
        match newToolRouteRecord intent intentDigest idempotencyDigest contextDigest verified command now with
        | Err err => fail err
        | Ok candidate =>
            begun ← calls (route_begin ctx key candidate);
            match begun with
            | Err err => e ← mapped ctx "route_store_begin" false err; fail e
            | Ok (current, false) => begun_route ctx key current intent verified command
            | Ok (current, true) =>
                match validateRouteReplay current candidate with
                | Err err => refuse_unbound intent intentDigest "denied" err
                | Ok _ => resume ctx key current (begun_route ctx key current intent verified command)
                end
            end
        end
  end.

Definition resolved_route (ctx : context W) (key : string) (intent : ToolIntent) (intentDigest : string) : routine W answer :=
  resolved ← calls (resolveToolRoute ctx intent intentDigest);
  match resolved with
  | Err err =>
      e ← mapped ctx "route_context_resolution" false err;
      refuse_unbound intent intentDigest (routeAuditOutcome e) e
  | Ok command =>
      verified ← calls (fun w =>
        (ActionManifest.Verify route_ed25519 (route_Looks ctx w) (pd_SignedManifest command) (pd_ManifestSigner command), w));
      match verified with
      | Err err =>
          e ← mapped ctx "manifest_authority" false (EOwn (mapManifestError err));
          refuse_unbound intent intentDigest (routeAuditOutcome e) e
      | Ok verified => bound_route ctx key intent intentDigest command verified
      end
  end.

Definition Submit (ctx : context W) (intent : ToolIntent) : routine W answer :=
  match ctx, ToolRoute.Digest intent with
  | None, _ => fail (newRouteError routeCodeInvalidInput "context_required" false NoCause)
  | Some _, Err err => fail (newRouteError routeCodeInvalidInput (ToolRoute.err_Reason err) false NoCause)
  | Some _, Ok intentDigest =>
      ended ← calls (fun w => (context_done ctx w, w));
      match ended with
      | Some reason =>
          e ← mapped ctx "route_context" false (done_error reason);
          refuse_unbound intent intentDigest (routeAuditOutcome e) e
      | None =>
          let key := route_key intent in
          found ← calls (route_lookup ctx (ti_Case intent) (ti_OperationID intent));
          match found with
          | Err err => e ← mapped ctx "route_store_lookup" false err; fail e
          | Ok (_, false) => resolved_route ctx key intent intentDigest
          | Ok (current, true) =>
              match validateToolRouteRecord current with
              | Err err => fail err
              | Ok _ =>
                  if negb (String.eqb (tr_IntentDigest current) intentDigest)
                  then refuse_unbound intent intentDigest "denied" (refused "route_replay_binding")
                  else resume ctx key current (resolved_route ctx key intent intentDigest)
              end
          end
      end
  end.
End authority.
