(* ===== verification/RouteSafety.v ===== *)
(** * Tool routes: goroutines with a token, and what a submission can do

    A goroutine may acquire a token by spending its key, and give it up for one entry of a log.
    The rule says that then, whatever the interleaving and wherever it is cut off, the log never
    has two entries with the same key.
    The state machine of records, what a store of routes promises ([RouteLaws]), and the
    walk through [Submit]: every call moves records along the state machine only, and a
    connector is called only with the token that the save to dispatching gives. *)

From S2P Require Import Prelude GoStrings GoRegexp GoTime GoJson DomainContract Sha256 Domain GoStruct GoCodec EStop EStopController EStopFacts ToolRoute Authority TamperAudit Policy ActionManifest Storage ApprovalLifecycle ApprovalCodec ApprovalBroker PreDispatch LeaseFacts LeaseSafety RouteRecord RouteBroker.

Local Open Scope string_scope.
Local Open Scope Z_scope.

(** ** Lives of a process

    A process runs its goroutines as a schedule says and stops somewhere, by a crash or a
    restart; what they were about to do is lost. *)

Definition life (W A : Type) : Type := list (routine W A) * list nat.

Definition live {W A} (l : life W A) (w : W) : W := snd (fold_left advance_at (snd l) (fst l, w)).

Definition lives {W A} (ls : list (life W A)) (w : W) : W := fold_left (fun w l => live l w) ls w.

(** A relation that every call keeps is kept by a goroutine that runs alone. *)
Lemma alone_every {W A} (R : W -> W -> Prop) (m : routine W A) w : PreOrder R -> every_call R m -> R w (snd (run_alone m w)).
Proof.
  intros HR. revert w. induction m as [a|B call rest IH]; intros w; [done|]. intros [Hc Hr]. cbn. specialize (Hc w).
  destruct (call w) as [b w1]. trans w1; [done|]. by apply IH.
Qed.

(** ** Goroutines with a token *)

Section tokens.
Context {W K T E : Type} (I : W -> Prop) (R : W -> W -> Prop) (spent : W -> K -> Prop) (holds : W -> T -> Prop)
  (key : T -> K) (log : W -> list E) (entry_key : E -> K).

(** A call that has nothing to do with tokens *)
Definition quiet_step (w w' : W) : Prop := I w -> I w' /\ R w w' /\ log w' = log w.

(** The goroutine, holding what [own] says, ends with a result and a token that [Q] allows. *)
Fixpoint once {A} (Q : A -> option T -> Prop) (m : routine W A) (own : option T) : Prop :=
  match m with
  | Return a => Q a own
  | Call call rest => forall w, I w -> (forall t, own = Some t -> holds w t) ->
      I (snd (call w)) /\ R w (snd (call w)) /\
      (log (snd (call w)) = log w /\
       (once Q (rest (fst (call w))) own \/
        own = None /\ exists t, ~ spent w (key t) /\ holds (snd (call w)) t /\ once Q (rest (fst (call w))) (Some t)) \/
       exists t e, own = Some t /\ log (snd (call w)) = (log w ++ [e])%list /\ entry_key e = key t /\
         once Q (rest (fst (call w))) None)
  end.

Lemma once_weaken {A} (Q Q' : A -> option T -> Prop) m own : (forall a o, Q a o -> Q' a o) -> once Q m own -> once Q' m own.
Proof.
  intros HQ. revert own. induction m as [a|B call rest IH]; intros own; cbn; [apply HQ|]. intros H w Hw Ho.
  destruct (H w Hw Ho) as (Hi & Hk & [(Hl & [Hr|(-> & t & Hn & Ht & Hr)])|(t & e & -> & Hl & He & Hr)]);
    (split; [done|split; [done|]]).
  - left. split; [done|]. left. by apply IH.
  - left. split; [done|]. right. split; [done|]. exists t. split_and!; [done..|]. by apply IH.
  - right. exists t, e. split_and!; [done..|]. by apply IH.
Qed.

Lemma once_bind {A B} (Q : B -> option T -> Prop) (m : routine W A) (f : A -> routine W B) own :
  once (fun a o => once Q (f a) o) m own -> once Q (m ≫= f) own.
Proof.
  revert own. induction m as [a|C call rest IH]; intros own; [done|]. intros H w Hw Ho.
  destruct (H w Hw Ho) as (Hi & Hk & [(Hl & [Hr|(-> & t & Hn & Ht & Hr)])|(t & e & -> & Hl & He & Hr)]);
    (split; [done|split; [done|]]).
  - left. split; [done|]. left. by apply IH.
  - left. split; [done|]. right. split; [done|]. exists t. split_and!; [done..|]. by apply IH.
  - right. exists t, e. split_and!; [done..|]. by apply IH.
Qed.

Lemma once_quiet {A} (Q : A -> option T -> Prop) (m : routine W A) own :
  every_call quiet_step m -> (forall a, may_return m a -> Q a own) -> once Q m own.
Proof.
  intros Hm HQ. induction m as [a|C call rest IH]; [by apply HQ|]. destruct Hm as [Hc Hr]. intros w Hw Ho.
  destruct (Hc w Hw) as (Hi & Hk & Hl). split; [done|split; [done|]]. left. split; [done|]. left.
  apply IH; [apply Hr|]. intros a Ha. apply HQ. by exists w.
Qed.

(** A quiet goroutine first *)
Lemma once_after {A B} (Q : B -> option T -> Prop) (m : routine W A) (f : A -> routine W B) own :
  every_call quiet_step m -> (forall a, may_return m a -> once Q (f a) own) -> once Q (m ≫= f) own.
Proof. intros Hm Hf. apply once_bind. by apply once_quiet. Qed.

(** ** The invariant of a pool *)

(** The world moves along [R], which never takes back what is known of a token. *)
Context {HR : PreOrder R}.
Hypothesis holds_kept : forall w w' t, R w w' -> holds w t -> holds w' t.
Hypothesis holds_spent : forall w t, holds w t -> spent w (key t).
Hypothesis logged_spent : forall w e, I w -> e ∈ log w -> spent w (entry_key e).

Definition tokens (owns : list (option T)) : list T := omap id owns.

(** No key is in the log twice, or in the log and held, or held twice. *)
Definition pool_ok (owns : list (option T)) (w : W) : Prop :=
  I w /\ NoDup (map entry_key (log w) ++ map key (tokens owns)) /\ forall t, t ∈ tokens owns -> holds w t.

Lemma tokens_middle owns n own own' : owns !! n = Some own ->
  exists before after, tokens owns = (before ++ option_list own ++ after)%list /\
    tokens (<[n := own']> owns) = (before ++ option_list own' ++ after)%list.
Proof.
  intros Hn. rewrite (insert_take_drop _ _ _ (lookup_lt_Some _ _ _ Hn)). pose proof (take_drop_middle owns n own Hn) as Hsplit.
  exists (tokens (take n owns)), (tokens (drop (S n) owns)). unfold tokens. rewrite <- Hsplit at 1. rewrite !omap_app.
  by destruct own, own'.
Qed.

Lemma quiet_pool owns w w' : I w -> I w' -> R w w' -> log w' = log w -> pool_ok owns w -> pool_ok owns w'.
Proof. intros _ Hi Hk Hl (_ & Hnd & Hown). split; [done|]. rewrite Hl. split; [done|]. intros t Ht. by apply (holds_kept w w' t Hk), Hown. Qed.

Lemma acquire_pool owns n t w w' : owns !! n = Some None -> I w' -> R w w' -> log w' = log w -> ~ spent w (key t) ->
  holds w' t -> pool_ok owns w -> pool_ok (<[n := Some t]> owns) w'.
Proof.
  intros Hn Hi Hk Hl Hfresh Ht (Hw & Hnd & Hown). destruct (tokens_middle owns n None (Some t) Hn) as (b & a & Ht1 & Ht2).
  unfold pool_ok. rewrite Ht2. rewrite Ht1 in Hnd, Hown. cbn in *. split; [done|]. rewrite Hl. split.
  - rewrite !map_app in *. cbn. rewrite app_assoc, <- Permutation_middle. apply NoDup_cons. split; [|by rewrite <- app_assoc].
    rewrite !elem_of_app. intros Hin. apply Hfresh. assert (Hs : forall x, x ∈ (b ++ a)%list -> spent w (key x)) by (intros x Hx; by apply holds_spent, Hown).
    destruct Hin as [[Hin|Hin]|Hin]; apply list_elem_of_fmap in Hin as (x & -> & Hx).
    + by apply logged_spent.
    + apply Hs. apply elem_of_app. by left.
    + apply Hs. apply elem_of_app. by right.
  - intros x [Hx|[->|Hx]%elem_of_cons]%elem_of_app; [|done|]; apply (holds_kept w w' _ Hk), Hown, elem_of_app; [by left|by right].
Qed.

Lemma use_pool owns n t e w w' : owns !! n = Some (Some t) -> I w' -> R w w' -> log w' = (log w ++ [e])%list ->
  entry_key e = key t -> pool_ok owns w -> pool_ok (<[n := None]> owns) w'.
Proof.
  intros Hn Hi Hk Hl He (Hw & Hnd & Hown). destruct (tokens_middle owns n (Some t) None Hn) as (b & a & Ht1 & Ht2).
  unfold pool_ok. rewrite Ht2. rewrite Ht1 in Hnd, Hown. cbn in *. split; [done|]. rewrite Hl. split.
  - rewrite !map_app in *. cbn in *. rewrite He, <- app_assoc. cbn. by rewrite <- (Permutation_middle (map key b)) in Hnd.
  - intros x Hx. apply (holds_kept w w' _ Hk), Hown. apply elem_of_app in Hx as [Hx|Hx]; apply elem_of_app; [by left|right; by right].
Qed.

Lemma advance_once {A} (Q : A -> option T -> Prop) (pool : list (routine W A)) owns w n pool' w' :
  Forall2 (once Q) pool owns -> pool_ok owns w -> advance_at (pool, w) n = (pool', w') ->
  R w w' /\ log w `prefix_of` log w' /\ exists owns', Forall2 (once Q) pool' owns' /\ pool_ok owns' w'.
Proof.
  intros H Hok. unfold advance_at. destruct (pool !! n) as [[a|B call rest]|] eqn:Hn;
    [intros [= <- <-]; split_and!; [done|done|by exists owns]| |intros [= <- <-]; split_and!; [done|done|by exists owns]].
  destruct (Forall2_lookup_l _ _ _ _ _ H Hn) as (own & Ho & Hm). pose proof Hok as (Hw & _ & Hown).
  assert (Hmine : forall t, own = Some t -> holds w t).
  { intros t ->. apply Hown. apply list_elem_of_omap. exists (Some t). split; [by eapply list_elem_of_lookup_2|done]. }
  destruct (Hm w Hw Hmine) as (Hi & Hk & Hcase). destruct (call w) as [b w1]. cbn [fst snd] in *. intros [= <- <-]. split; [done|].
  destruct Hcase as [(Hl & [Hr|(-> & t & Hfresh & Ht & Hr)])|(t & e & -> & Hl & He & Hr)];
    (split; [rewrite Hl; (done || by apply prefix_app_r)|]).
  - exists owns. split; [|by apply (quiet_pool owns w)]. rewrite <- (list_insert_id owns n own Ho). by apply Forall2_insert.
  - exists (<[n := Some t]> owns). split; [by apply Forall2_insert|by apply (acquire_pool owns n t w)].
  - exists (<[n := None]> owns). split; [by apply Forall2_insert|by apply (use_pool owns n t e w)].
Qed.

Lemma drop_tokens owns w : pool_ok owns w -> forall n : nat, pool_ok (replicate n None) w.
Proof.
  intros (Hi & Hnd & _) n. assert (Hnone : tokens (replicate n None) = []) by (induction n; done).
  unfold pool_ok. rewrite Hnone. cbn. rewrite app_nil_r. apply NoDup_app in Hnd as (Hnd & _). split_and!; [done..|].
  by intros t Ht%elem_of_nil.
Qed.

Lemma live_once {A} (Q : A -> option T -> Prop) (l : life W A) w : Forall (fun m => once Q m None) (fst l) ->
  pool_ok [] w -> R w (live l w) /\ log w `prefix_of` log (live l w) /\ pool_ok [] (live l w).
Proof.
  destruct l as [pool schedule]. cbn [fst]. intros Hpool Hw. unfold live. cbn [fst snd].
  assert (Hall : Forall2 (once Q) pool (replicate (length pool) None)).
  { induction Hpool; cbn; constructor; auto. }
  assert (Hok : pool_ok (replicate (length pool) None) w) by by apply (drop_tokens []).
  clear Hpool Hw. revert Hall Hok. generalize (replicate (length pool) (@None T)) as owns.
  revert pool w. induction schedule as [|n schedule IH]; intros pool w owns Hall Hok; cbn [fold_left]; [split_and!; [done|done|by apply (drop_tokens owns w Hok 0)]|].
  destruct (advance_at (pool, w) n) as [pool1 w1] eqn:Ha.
  destruct (advance_once Q pool owns w n pool1 w1 Hall Hok Ha) as (Hr1 & Hl1 & owns1 & Hall1 & Hok1).
  destruct (IH pool1 w1 owns1 Hall1 Hok1) as (Hr2 & Hl2 & Hok2). split_and!; [by trans w1|by trans (log w1)|done].
Qed.

(** Crash after crash, the log has no key twice. *)
Lemma lives_once {A} (Q : A -> option T -> Prop) (ls : list (life W A)) w :
  Forall (fun l => Forall (fun m => once Q m None) (fst l)) ls -> pool_ok [] w -> R w (lives ls w) /\ log w `prefix_of` log (lives ls w) /\ pool_ok [] (lives ls w).
Proof.
  intros H. revert w. unfold lives. induction H as [|l ls Hl Hls IH]; intros w Hw; cbn; [done|].
  destruct (live_once Q l w Hl Hw) as (Hr1 & Hl1 & Hw1). destruct (IH _ Hw1) as (Hr2 & Hl2 & Hw2).
  split_and!; [by trans (live l w)|by trans (log (live l w))|done].
Qed.
End tokens.

(** Keys that were spent before count as logged. *)
Section before.
Context {W K T E : Type} (I : W -> Prop) (R : W -> W -> Prop) (spent : W -> K -> Prop) (holds : W -> T -> Prop)
  (key : T -> K) (log : W -> list E) (entry_key : E -> K) (extra : list K).
Hypothesis spent_kept : forall w w' k, R w w' -> spent w k -> spent w' k.

Definition spent_before (w : W) : Prop := I w /\ forall k, k ∈ extra -> spent w k.

Lemma once_before {A} (Q : A -> option T -> Prop) (m : routine W A) own : once I R spent holds key log entry_key Q m own ->
  once spent_before R spent holds key (fun w => extra ++ map entry_key (log w))%list id Q m own.
Proof.
  revert own. induction m as [a|C call rest IH]; intros own; [done|]. intros H w [Hw Hs] Ho.
  destruct (H w Hw Ho) as (Hi & Hk & Hcase). split; [by split; eauto|]. split; [done|].
  destruct Hcase as [(Hl & [Hr|(-> & t & Hn & Ht & Hr)])|(t & e & -> & Hl & He & Hr)].
  - left. rewrite Hl. split; [done|]. left. by apply IH.
  - left. rewrite Hl. split; [done|]. right. split; [done|]. exists t. split_and!; [done..|]. by apply IH.
  - right. exists t, (entry_key e). rewrite Hl, map_app, app_assoc. split_and!; [done..|]. by apply IH.
Qed.
End before.

(** ** Tool routes: what a submission can do to the durable routes *)

(** ** The state machine of records *)

Definition transition (r r' : toolRouteRecord) : Prop := validateToolRouteTransition r r' = Ok tt.

(** What a transition keeps and what it changes *)
Record step_facts (r r' : toolRouteRecord) : Prop := {
  sf_valid : validateToolRouteRecord r = Ok tt /\ validateToolRouteRecord r' = Ok tt;
  sf_binding : route_binding r = route_binding r';
  sf_created : tr_CreatedAt r = tr_CreatedAt r';
  sf_revision : tr_Revision r' = u64 (tr_Revision r + 1);
  sf_chain : tr_PreviousProvenanceDigest r' = tr_ProvenanceDigest r;
  sf_legal : legalToolRouteTransition (tr_Status r) (tr_Status r') = true;
  sf_dispatch : is_set (tr_DispatchAuditID r) = true -> tr_DispatchAuditID r' = tr_DispatchAuditID r;
  sf_authorizing : tr_Status r' = routeAuthorizing -> tr_DispatchAuditID r' = "" }.

Lemma is_set_false s : is_set s = false <-> s = "".
Proof. unfold is_set. rewrite negb_false_iff. apply String.eqb_eq. Qed.

Lemma changed_false prior next : changed prior next = false -> is_set prior = true -> next = prior.
Proof. unfold changed. intros H Hs. rewrite Hs in H. cbn in H. apply negb_false_iff, String.eqb_eq in H. by symmetry. Qed.

Lemma transition_facts r r' : transition r r' -> step_facts r r'.
Proof.
  unfold transition, validateToolRouteTransition. rewrite !seq_ok. intros (H1 & H2 & H3%deny_if_ok & H4%deny_if_ok).
  repeat (apply orb_false_iff in H3 as [H3 ?]). repeat (apply orb_false_iff in H4 as [H4 ?]).
  repeat match goal with
  | H : negb _ = false |- _ => apply negb_false_iff in H
  | H : bool_decide _ = true |- _ => apply bool_decide_eq_true in H
  | H : String.eqb _ _ = true |- _ => apply String.eqb_eq in H
  | H : Z.eqb _ _ = true |- _ => apply Z.eqb_eq in H
  end.
  split; try done; [by apply changed_false|]. intros Ha.
  match goal with H : String.eqb (tr_Status r') routeAuthorizing && _ = false |- _ => rewrite Ha in H; cbn in H end.
  repeat match goal with H : _ || _ = false |- _ => apply orb_false_iff in H as [? ?] end. by apply is_set_false.
Qed.

Lemma terminal_statuses s : terminalToolRouteStatus s = true ->
  s = routeSucceeded \/ s = routeDenied \/ s = routeCanceled \/ s = routeTimeout \/ s = routeFailed \/ s = routeUncertain.
Proof. unfold terminalToolRouteStatus. rewrite !orb_true_iff, !String.eqb_eq. tauto. Qed.

Lemma terminal_is_final r r' : terminalToolRouteStatus (tr_Status r) = true -> ~ transition r r'.
Proof.
  intros Ht H%transition_facts. pose proof (sf_legal _ _ H) as Hl.
  apply terminal_statuses in Ht as [Hs|[Hs|[Hs|[Hs|[Hs|Hs]]]]]; by rewrite Hs in Hl.
Qed.

Lemma to_dispatching s : legalToolRouteTransition s routeDispatching = true -> s = routeAuthorizing.
Proof.
  unfold legalToolRouteTransition. destruct (String.eqb s routePending); [done|].
  destruct (String.eqb_spec s routeAuthorizing) as [->|]; [done|]. by destruct (String.eqb s routeDispatching).
Qed.

Lemma not_to_pending s : legalToolRouteTransition s routePending = false.
Proof. unfold legalToolRouteTransition. by repeat case_match. Qed.

Definition location (r : toolRouteRecord) : CaseRef * string := (tr_Case r, tr_OperationID r).

Lemma binding_location r r' : route_binding r = route_binding r' -> location r = location r'.
Proof. intros [=]. unfold location. congruence. Qed.

Lemma reached_binding r r' : rtc transition r r' -> route_binding r = route_binding r'.
Proof. induction 1 as [|x y z H%transition_facts _ IH]; [done|]. rewrite <- IH. apply H. Qed.

Lemma reached_dispatch r r' : rtc transition r r' -> is_set (tr_DispatchAuditID r) = true ->
  tr_DispatchAuditID r' = tr_DispatchAuditID r.
Proof.
  induction 1 as [|x y z H%transition_facts _ IH]; [done|]. intros Hs. pose proof (sf_dispatch _ _ H Hs) as E.
  rewrite IH; [done|]. by rewrite E.
Qed.

(** ** What the dependencies promise *)

Class RouteLaws (W : Type) {store : RouteStore W} {ports : RoutePorts W} : Type := {
  (* the durable record of an operation, and the calls of the connector so far *)
  route_at : W -> CaseRef * string -> option toolRouteRecord;
  dispatched : W -> list ToolIntent;
  apart := fun w w' : W => (forall l, route_at w' l = route_at w l) /\ dispatched w' = dispatched w;
  placed := fun (w : W) (r : toolRouteRecord) (w' : W) =>
    route_at w' (location r) = Some r /\ (forall l, l <> location r -> route_at w' l = route_at w l) /\ dispatched w' = dispatched w;
  apart_lookup : forall ctx c id w, apart w (snd (route_lookup ctx c id w));
  lookup_law : forall ctx c id w r found w', route_lookup ctx c id w = (Ok (r, found), w') ->
    route_at w (c, id) = if found then Some r else None;
  begin_law : forall ctx key candidate w, let '(answer, w') := route_begin ctx key candidate w in
    apart w w' /\ (forall r found, answer = Ok (r, found) -> found = true /\ route_at w (location candidate) = Some r) \/
    route_at w (location candidate) = None /\ placed w candidate w' /\ forall r found, answer = Ok (r, found) -> r = candidate;
  (* compare and swap; an error leaves open which of the two happened *)
  save_law : forall ctx key prior next w, transition prior next -> let '(answer, w') := route_save ctx key prior next w in
    apart w w' /\ is_ok answer = false \/
    route_at w (location prior) = Some prior /\ placed w next w' /\ forall r, answer = Ok r -> r = next;
  dispatch_law : forall ctx intent w, let w' := snd (Dispatch ctx intent w) in
    (forall l, route_at w' l = route_at w l) /\ dispatched w' = (dispatched w ++ [intent])%list;
  apart_resolve : forall ctx intent digest w, apart w (snd (resolveToolRoute ctx intent digest w));
  apart_authorize : forall ctx command, every_call apart (route_authorize ctx command);
  apart_allow : forall ctx o t c, every_call apart (route_Allow ctx o t c);
  apart_append : forall event w, apart w (snd (route_AppendAuditEvent event w));
  apart_now : forall w, apart w (snd (RouteNow w)) }.

Section laws.
Context {W : Type} {store : RouteStore W} {ports : RoutePorts W} {laws : RouteLaws W}.

(** A stored record: valid, and without a dispatch until it is dispatching *)
Definition route_ok (r : toolRouteRecord) : Prop :=
  validateToolRouteRecord r = Ok tt /\
  (tr_Status r = routePending \/ tr_Status r = routeAuthorizing -> tr_DispatchAuditID r = "").

(** The records are only moved along the state machine. *)
Definition evolves (w w' : W) : Prop := forall l r, route_at w l = Some r -> exists r', route_at w' l = Some r' /\ rtc transition r r'.

#[export] Instance evolves_preorder : PreOrder evolves.
Proof.
  split; [intros w l r H; by exists r|]. intros w1 w2 w3 H1 H2 l r Hr. destruct (H1 l r Hr) as (r' & Hr' & Ht).
  destruct (H2 l r' Hr') as (r'' & Hr'' & Ht'). exists r''. split; [done|]. by etrans.
Qed.

(** The operation has been handed to the connector, or is about to be. *)
Definition begun_at (w : W) (l : CaseRef * string) : Prop := exists r, route_at w l = Some r /\ is_set (tr_DispatchAuditID r) = true.

(** The record that was saved as dispatching, which is the token *)
Definition holds (w : W) (t : toolRouteRecord) : Prop :=
  is_set (tr_DispatchAuditID t) = true /\ exists r, route_at w (location t) = Some r /\ rtc transition t r.

Definition intent_location (intent : ToolIntent) : CaseRef * string := (ti_Case intent, ti_OperationID intent).

Lemma begun_kept w w' l : evolves w w' -> begun_at w l -> begun_at w' l.
Proof.
  intros H (r & Hr & Hs). destruct (H l r Hr) as (r' & Hr' & Ht). exists r'. split; [done|]. by rewrite (reached_dispatch r r' Ht Hs).
Qed.

Lemma holds_kept w w' t : evolves w w' -> holds w t -> holds w' t.
Proof.
  intros H (Hs & r & Hr & Ht). destruct (H _ r Hr) as (r' & Hr' & Ht'). split; [done|]. exists r'. split; [done|]. by etrans.
Qed.

Lemma holds_begun w t : holds w t -> begun_at w (location t).
Proof. intros (Hs & r & Hr & Ht). exists r. split; [done|]. by rewrite (reached_dispatch t r Ht Hs). Qed.

(** What stands behind a call of the connector: [t] is the record that was saved as dispatching
    before it. *)
Record dispatch_stands (intent : ToolIntent) (t : toolRouteRecord) : Prop := {
  ds_intent : ToolRoute.Digest intent = Ok (tr_IntentDigest t);
  ds_location : location t = intent_location intent;
  ds_dispatching : tr_Status t = routeDispatching /\ validateToolRouteRecord t = Ok tt;
  ds_authorized : exists ctx command capability,
    (exists w w', resolveToolRoute ctx intent (tr_IntentDigest t) w = (Ok command, w')) /\
    toolRouteContextDigest command = Ok (tr_ContextDigest t) /\
    may_return (route_authorize ctx command) (Ok capability) /\
    validateIntentManifestBinding intent (au_Manifest capability) = Ok tt /\
    tr_PreDispatchDecisionDigest t = d_DecisionDigest (au_PreDispatchDecision capability) /\
    tr_ApprovalFingerprintDigest t = a_FingerprintDigest (au_Approval capability) /\
    tr_ApprovalRevision t = a_Revision (au_Approval capability) /\
    may_return (route_Allow ctx (OrganizationID (ti_Case intent)) (TenantID (ti_Case intent)) (CaseID (ti_Case intent))) None;
  ds_audited : exists event w w', route_AppendAuditEvent event w = (Ok tt, w') /\
    TamperAudit.e_EventID event = tr_DispatchAuditID t /\ TamperAudit.e_Outcome event = "allowed" /\
    TamperAudit.e_SubjectID event = ti_OperationID intent /\ TamperAudit.e_SubjectDigest event = tr_IntentDigest t }.

(** The routes of a world: every record is valid and where it belongs, and behind every call
    of the connector stands a record that is still there, moved on at most. *)
Definition routes_ok (w : W) : Prop :=
  (forall l r, route_at w l = Some r -> route_ok r /\ location r = l) /\
  forall intent, intent ∈ dispatched w -> exists t, dispatch_stands intent t /\ holds w t.

Lemma logged_begun w intent : routes_ok w -> intent ∈ dispatched w -> begun_at w (intent_location intent).
Proof. intros [_ H] Hin. destruct (H intent Hin) as (t & Ht & Hh). rewrite <- (ds_location _ _ Ht). by apply holds_begun. Qed.

Local Notation quiet := (quiet_step routes_ok evolves dispatched).
Local Notation once := (once routes_ok evolves begun_at holds location dispatched intent_location).

(** ** The calls of a submission *)

Lemma apart_quiet w w' : apart w w' -> quiet w w'.
Proof.
  intros [Hr Hd] [H1 H2]. assert (He : evolves w w') by (intros l r Hl; exists r; by rewrite Hr).
  split; [|by split]. split; [intros l r Hl; rewrite Hr in Hl; by apply H1|]. intros intent Hin. rewrite Hd in Hin.
  destruct (H2 intent Hin) as (t & Ht & Hh). exists t. split; [done|by apply (holds_kept w)].
Qed.

Lemma apart_refl (w : W) : apart w w.
Proof. by split. Qed.

Lemma quiet_apart {A} (m : routine W A) : every_call apart m -> every_call quiet m.
Proof. apply every_call_weaken, apart_quiet. Qed.

(** A record is put where none was, or where the one before it was. *)
Lemma placed_quiet w r w' : placed w r w' -> route_ok r ->
  (forall r0, route_at w (location r) = Some r0 -> transition r0 r) -> quiet w w'.
Proof.
  intros (Hat & Hother & Hd) Hok Hstep [H1 H2]. assert (He : evolves w w').
  { intros l r0 Hl. destruct (decide (l = location r)) as [->|Hne].
    - exists r. split; [done|]. by apply rtc_once, Hstep.
    - exists r0. by rewrite Hother. }
  split; [|by split]. split.
  - intros l r0 Hl. destruct (decide (l = location r)) as [->|Hne]; [|apply H1; by rewrite <- Hother].
    rewrite Hat in Hl. by injection Hl as <-.
  - intros intent Hin. rewrite Hd in Hin. destruct (H2 intent Hin) as (t & Ht & Hh). exists t. split; [done|by apply (holds_kept w)].
Qed.

Lemma stepped_ok r r' : transition r r' -> route_ok r'.
Proof.
  intros H%transition_facts. split; [apply H|]. intros [Hs|Hs]; [|by apply (sf_authorizing _ _ H)].
  pose proof (sf_legal _ _ H) as Hl. by rewrite Hs, not_to_pending in Hl.
Qed.

Lemma save_quiet ctx key prior next w : transition prior next -> quiet w (snd (route_save ctx key prior next w)).
Proof.
  intros Ht. pose proof (save_law ctx key prior next w Ht) as H. destruct (route_save ctx key prior next w) as [answer w'].
  cbn [snd]. destruct H as [[H _]|(Hp & Hpl & _)]; [by apply apart_quiet|]. apply (placed_quiet w next w'); [done|by eapply stepped_ok|].
  pose proof (binding_location _ _ (sf_binding _ _ (transition_facts _ _ Ht))) as E. rewrite <- E. intros r0 Hr0. congruence.
Qed.
(** ** The walk *)

Context (identity : toolRouteIdentity).

(** A relation that the clock, the audit log and a look at the world keep *)
Record reads (R : W -> W -> Prop) : Prop := {
  rd_look : forall w, R w w;
  rd_now : forall w, R w (snd (RouteNow w));
  rd_append : forall event w, R w (snd (route_AppendAuditEvent event w)) }.

(** And a save along the state machine *)
Definition saves (R : W -> W -> Prop) : Prop :=
  forall ctx key prior next w, transition prior next -> R w (snd (route_save ctx key prior next w)).

Lemma chained_transition current operation next r : chained current operation next = Ok r -> transition current r.
Proof. unfold chained. intros (p & _ & H)%bind_ok. by apply seq_ok in H as [H [= <-]]. Qed.

Lemma authorizing_saved current t next :
  (tr ← t; validateToolRouteTransition current tr ;; Ok tr) = Ok next -> transition current next.
Proof. intros (tr & _ & Hn)%bind_ok. by apply seq_ok in Hn as [Ht [= <-]]. Qed.

Section every.
Context (R : W -> W -> Prop) (Hread : reads R).

Lemma look_every {A} (f : W -> A) : every_call R (calls (fun w => (f w, w))).
Proof. apply every_call_one, Hread. Qed.

Lemma now_every : every_call R route_now.
Proof. apply every_call_one. intros w. pose proof (rd_now _ Hread w) as H. by destruct (RouteNow w). Qed.

Lemma audit_every record outcome reason evidence : every_call R (appendRouteAudit identity record outcome reason evidence).
Proof.
  unfold appendRouteAudit. cbv zeta. apply every_call_bind; [apply now_every|]. intros now. destruct (is_zero now); [done|].
  destruct (TamperAudit.ValidateEvent (route_audit_event identity record outcome reason evidence now)); [|done].
  apply every_call_bind; [|done]. apply every_call_one, Hread.
Qed.

Lemma transition_every current status operation : every_call R (transitionRoute current status operation).
Proof. apply every_call_bind; [apply now_every|done]. Qed.

Lemma refuse_every intent digest outcome err : every_call R (refuse_unbound identity intent digest outcome err).
Proof. apply every_call_bind; [apply audit_every|]. by intros []. Qed.

Context (Hsave : saves R).

Lemma finish_every ctx key current auditRecord status reason supplied :
  every_call R (finishRouteBound identity ctx key current auditRecord status reason supplied).
Proof.
  apply every_call_bind; [apply audit_every|]. intros [auditID|err]; [|done]. apply every_call_bind; [apply transition_every|].
  intros next0. match goal with |- context [match ?m with Ok _ => _ | Err _ => _ end] => destruct m as [next|err] eqn:Hn end; [|done].
  apply bind_ok in Hn as (tr & _ & Hn). apply bind_ok in Hn as (d & _ & Hn%chained_transition).
  apply every_call_bind; [|by intros []]. apply every_call_one. intros w. by apply Hsave.
Qed.

Lemma finish_error_every ctx key current authorized err :
  every_call R (finishAuthorizedRouteError identity ctx key current authorized err).
Proof.
  apply every_call_bind; [apply finish_every|]. intros [receipt [e|]]; [done|]. by destruct (routeCode err).
Qed.

Lemma authorizing_every ctx key current : every_call R (begin_authorizing ctx key current).
Proof.
  apply every_call_bind; [apply transition_every|]. intros t. destruct (t ≫= _) as [next|err] eqn:Hn; [|done].
  apply authorizing_saved in Hn. apply every_call_bind; [apply every_call_one; intros w; by apply Hsave|].
  intros [saved|err]; [done|]. apply every_call_bind; [apply look_every|done].
Qed.

(** What is left of a dispatch once the connector has answered *)
Lemma answered_every ctx key t answered :
  every_call R (match answered with
    | Err err => e ← mapped ctx "connector_dispatch" true err; finishRoute identity ctx key t routeUncertain (routeReason e) None
    | Ok receipt =>
        match ValidateReceipt receipt (tr_IntentDigest t) with
        | Err _ => finishRoute identity ctx key t routeUncertain "connector_receipt_invalid" None
        | Ok _ => finishRoute identity ctx key t (routeStatusForOutcome (rc_Outcome receipt)) ("connector_" ++ rc_Outcome receipt)
                    (Some receipt)
        end
    end).
Proof.
  destruct answered as [receipt|err]; [destruct (ValidateReceipt _ _); apply finish_every|].
  apply every_call_bind; [apply look_every|]. intros e. apply finish_every.
Qed.
End every.

Lemma reads_apart : reads apart.
Proof. split; [apply apart_refl|apply apart_now|intros event w; apply apart_append]. Qed.

Lemma reads_quiet : reads quiet.
Proof. destruct reads_apart as [H1 H2 H3]. split; intros; by apply apart_quiet. Qed.

Lemma saves_quiet : saves quiet.
Proof. intros ctx key prior next w. apply save_quiet. Qed.

(** An audit event that was appended *)
Lemma audit_appended record outcome reason evidence id : may_return (appendRouteAudit identity record outcome reason evidence) (Ok id) ->
  exists event w w', route_AppendAuditEvent event w = (Ok tt, w') /\ TamperAudit.e_EventID event = id /\
    TamperAudit.e_Outcome event = outcome /\ TamperAudit.e_SubjectID event = tr_OperationID record /\
    TamperAudit.e_SubjectDigest event = tr_IntentDigest record.
Proof.
  unfold appendRouteAudit. cbv zeta. intros (now & _ & H)%may_bind. destruct (is_zero now); [done|]. destruct (TamperAudit.ValidateEvent (route_audit_event identity record outcome reason evidence now)); [|done].
  apply may_bind in H as (appended & (w & w' & Ha)%may_calls & H). destruct appended as [[]|e]; [|done]. injection H as ->.
  eexists _, w, w'. split; [exact Ha|]. by cbn.
Qed.

Lemma stop_apart ctx scope : every_call apart (checkStop ctx scope).
Proof.
  apply every_call_bind; [apply apart_allow|]. intros [err|]; [|done]. apply every_call_bind; [apply look_every, reads_apart|done].
Qed.

Lemma stop_quiet ctx scope : every_call quiet (checkStop ctx scope).
Proof. apply quiet_apart, stop_apart. Qed.

Lemma stop_allowed ctx scope : may_return (checkStop ctx scope) None ->
  may_return (route_Allow ctx (OrganizationID scope) (TenantID scope) (CaseID scope)) None.
Proof. intros ([err|] & Ha & H)%may_bind; [|done]. by apply may_bind in H as (e & _ & H). Qed.

Definition any {A} (a : A) (own : option toolRouteRecord) : Prop := True.

Lemma quiet_once {A} (m : routine W A) own : every_call quiet m -> once any m own.
Proof. intros H. by apply once_quiet. Qed.

(** With the token: the connector is called, and the token is gone. *)
Lemma dispatch_once ctx key t intent : dispatch_stands intent t -> once any (dispatch_route identity ctx key t intent) (Some t).
Proof.
  intros Ht. apply once_bind. intros w [H1 H2] Hown. specialize (Hown t eq_refl).
  pose proof (dispatch_law ctx intent w) as [Hr Hd]. destruct (Dispatch ctx intent w) as [answered w']. cbn [fst snd] in *.
  assert (He : evolves w w') by (intros l r Hl; exists r; by rewrite Hr).
  split; [|split; [done|right]].
  - split; [intros l r Hl; rewrite Hr in Hl; by apply H1|]. intros intent' Hin. rewrite Hd in Hin. apply elem_of_app in Hin as [Hin|Hin].
    + destruct (H2 intent' Hin) as (t' & Ht' & Hh). exists t'. split; [done|by apply (holds_kept w)].
    + apply list_elem_of_singleton in Hin as ->. exists t. split; [done|by apply (holds_kept w)].
  - exists t, intent. split_and!; [done|done|symmetry; apply Ht|].
    apply quiet_once, answered_every; [apply reads_quiet|apply saves_quiet].
Qed.

(** The record belongs to this intent, under the authority that the command brings. *)
Definition bound (intent : ToolIntent) (command : preDispatchCommand) (r : toolRouteRecord) : Prop :=
  ToolRoute.Digest intent = Ok (tr_IntentDigest r) /\ location r = intent_location intent /\
  toolRouteContextDigest command = Ok (tr_ContextDigest r).

Lemma bound_by intent command r r' : route_binding r = route_binding r' -> bound intent command r -> bound intent command r'.
Proof.
  intros E (H1 & H2 & H3). pose proof (binding_location _ _ E) as El. injection E as E1 E2 E3 E4 E5 _ _ _ _ _ _ _.
  unfold bound. rewrite <- El, <- E3, <- E5. done.
Qed.
(** The record that is saved before the connector is called *)
Lemma dispatching_saved current capability id transition next :
  may_return (transitionRoute current routeDispatching "dispatch_started") transition ->
  (tr ← transition; dispatching_record current tr id capability) = Ok next ->
  RouteSafety.transition current next /\ tr_Status next = routeDispatching /\ tr_DispatchAuditID next = id /\
  tr_PreDispatchDecisionDigest next = d_DecisionDigest (au_PreDispatchDecision capability) /\
  tr_ApprovalFingerprintDigest next = a_FingerprintDigest (au_Approval capability) /\
  tr_ApprovalRevision next = a_Revision (au_Approval capability).
Proof.
  intros (now & _ & Hret)%may_bind (tr & -> & Hn)%bind_ok. cbn in Hret. try symmetry in Hret.
  apply bind_ok in Hret as (p & _ & [= <-]). pose proof (chained_transition _ _ _ _ Hn) as Ht. split; [done|].
  unfold dispatching_record, chained in Hn. apply bind_ok in Hn as (p' & _ & Hn). apply seq_ok in Hn as [_ [= <-]]. done.
Qed.

Lemma authorized_once ctx key current intent command capability : bound intent command current ->
  (exists w w', resolveToolRoute ctx intent (tr_IntentDigest current) w = (Ok command, w')) ->
  may_return (route_authorize ctx command) (Ok capability) ->
  once any (authorized_route identity ctx key current intent capability) None.
Proof.
  intros Hb Hres Hcap. unfold authorized_route. cbv zeta. destruct (_ || _ || _) eqn:Hchk; [apply quiet_once, finish_every; [apply reads_quiet|apply saves_quiet]|].
  repeat apply orb_false_iff in Hchk as [Hchk ?]. apply negb_false_iff, is_ok_true in Hchk as [[] Hman].
  apply once_after; [apply stop_quiet|]. intros [err|] Hstop; [apply quiet_once, finish_error_every; [apply reads_quiet|apply saves_quiet]|].
  apply once_after; [apply audit_every, reads_quiet|]. intros [id|err] Haud; [|done]. apply once_after; [apply transition_every, reads_quiet|].
  intros transition Htr. destruct (transition ≫= _) as [next|err] eqn:Hn; [|done].
  destruct (dispatching_saved _ _ _ _ _ Htr Hn) as (Ht & Hst & Hid & Hdec & Hfp & Hrev). apply once_bind. intros w Hw _.
  destruct (save_quiet ctx (key ++ ":dispatching") current next w Ht Hw) as (Hi & He & Hl).
  pose proof (save_law ctx (key ++ ":dispatching") current next w Ht) as Hlaw.
  destruct (route_save ctx (key ++ ":dispatching") current next w) as [[saved|err] w'] eqn:Hsave; cbn [fst snd] in *;
    (split; [done|split; [done|left; split; [done|]]]).
  2: { left. apply quiet_once. apply every_call_bind; [apply look_every, reads_quiet|done]. }
  destruct Hlaw as [[_ ?]|(Hat & (Hat' & _) & Hsaved)]; [done|]. rewrite (Hsaved saved eq_refl). right. split; [done|].
  pose proof (transition_facts _ _ Ht) as Hf. pose proof (binding_location _ _ (sf_binding _ _ Hf)) as El.
  assert (Hset : is_set id = true).
  { destruct (audit_appended _ _ _ _ _ Haud) as (event & _ & _ & _ & Hid' & _). unfold is_set. apply negb_true_iff, String.eqb_neq.
    intros ->. pose proof (proj2 (sf_valid _ _ Hf)) as Hv. unfold validateToolRouteRecord in Hv. rewrite !seq_ok in Hv.
    destruct Hv as (_ & _ & _ & _ & _ & Hv%deny_if_ok & _). rewrite Hst, Hid in Hv. done. }
  exists next. split_and!.
  - rewrite <- El. intros (r & Hr & Hs). rewrite Hat in Hr. injection Hr as <-. destruct (proj1 Hw _ _ Hat) as [[_ Hno] _].
    pose proof (sf_legal _ _ Hf) as Hlegal. rewrite Hst in Hlegal. rewrite Hno in Hs; [done|right; by apply to_dispatching].
  - split; [by rewrite Hid|]. by exists next.
  - apply dispatch_once. pose proof (bound_by _ _ _ _ (sf_binding _ _ Hf) Hb) as (H1 & H2 & H3).
    assert (Hdig : tr_IntentDigest current = tr_IntentDigest next) by (injection (sf_binding _ _ Hf); congruence).
    assert (Hcase : tr_Case current = ti_Case intent) by (destruct Hb as (_ & [= ? ?] & _); done).
    split; [done|done|split; [done|apply Hf]| |].
    + exists ctx, command, capability. rewrite <- Hdig. split_and!; try done. rewrite <- Hcase. by apply stop_allowed.
    + destruct (audit_appended _ _ _ _ _ Haud) as (event & w1 & w2 & Happ & Hid' & Hout & Hsub & Hdig').
      exists event, w1, w2. split; [done|]. rewrite Hid, Hid', Hout, Hsub, Hdig'. cbn. rewrite Hdig.
      split_and!; try done. by injection (proj1 (proj2 Hb)).
Qed.
Lemma authorizing_binding ctx key current r : may_return (begin_authorizing ctx key current) (Ok r) -> route_binding current = route_binding r.
Proof.
  intros (transition & _ & H)%may_bind. destruct (transition ≫= _) as [next|err] eqn:Hn; [|done]. apply authorizing_saved in Hn.
  apply may_bind in H as (saved & (w & w' & Hs)%may_calls & H). pose proof (save_law ctx (key ++ ":authorizing") current next w Hn) as Hlaw.
  rewrite Hs in Hlaw. destruct saved as [saved|err]; [|by apply may_bind in H as (e & _ & H)]. injection H as ->.
  destruct Hlaw as [[_ ?]|(_ & _ & Hsaved)]; [done|]. rewrite (Hsaved _ eq_refl). by apply transition_facts in Hn as [].
Qed.

Lemma authorize_once ctx key current intent command : bound intent command current ->
  (exists w w', resolveToolRoute ctx intent (tr_IntentDigest current) w = (Ok command, w')) ->
  once any (authorizeAndDispatch identity ctx key current intent command) None.
Proof.
  intros Hb Hres. apply once_after.
  { destruct (String.eqb _ _); [apply authorizing_every; [apply reads_quiet|apply saves_quiet]|done]. }
  intros [r|err] Hr; [|done]. assert (E : route_binding current = route_binding r).
  { destruct (String.eqb _ _); [by eapply authorizing_binding|by injection Hr as ->]. }
  apply once_after; [apply quiet_apart, apart_authorize|]. intros [capability|err] Hcap.
  - apply (authorized_once ctx key r intent command); [by eapply bound_by| |done]. by injection E as _ _ <- _ _ _ _ _ _ _ _ _.
  - apply quiet_once. apply every_call_bind; [apply look_every, reads_quiet|]. intros e. apply finish_error_every; [apply reads_quiet|apply saves_quiet].
Qed.

Lemma begun_once ctx key current intent verified command : bound intent command current ->
  (exists w w', resolveToolRoute ctx intent (tr_IntentDigest current) w = (Ok command, w')) ->
  once any (begun_route identity ctx key current intent verified command) None.
Proof.
  intros Hb Hres. unfold begun_route. destruct (validateIntentManifestBinding _ _) as [[]|err]; [|apply quiet_once, finish_every; [apply reads_quiet|apply saves_quiet]].
  apply once_after; [apply stop_quiet|]. intros [err|] _; [apply quiet_once, finish_error_every; [apply reads_quiet|apply saves_quiet]|by apply authorize_once].
Qed.

Lemma resume_once ctx key current continue : once any continue None -> once any (resume identity ctx key current continue) None.
Proof.
  intros H. unfold resume. destruct (terminalToolRouteStatus _); [done|]. destruct (String.eqb _ _); [|done].
  apply quiet_once, finish_every; [apply reads_quiet|apply saves_quiet].
Qed.

(** The record a submission starts with *)
Lemma candidate_facts intent digest idempotency context verified command now r :
  newToolRouteRecord intent digest idempotency context verified command now = Ok r ->
  route_ok r /\ tr_Status r = routePending /\ tr_IntentDigest r = digest /\ tr_ContextDigest r = context /\ location r = intent_location intent.
Proof.
  unfold newToolRouteRecord. intros (p & _ & H)%bind_ok. apply seq_ok in H as [H [= <-]]. done.
Qed.

Lemma begin_quiet ctx key candidate w : route_ok candidate -> quiet w (snd (route_begin ctx key candidate w)).
Proof.
  intros Hok. pose proof (begin_law ctx key candidate w) as H. destruct (route_begin ctx key candidate w) as [answer w']. cbn [snd].
  destruct H as [[H _]|(Hn & Hp & _)]; [by apply apart_quiet|]. apply (placed_quiet w candidate w'); [done|done|]. intros r Hr. congruence.
Qed.

Lemma bound_once ctx key intent digest command verified : ToolRoute.Digest intent = Ok digest ->
  (exists w w', resolveToolRoute ctx intent digest w = (Ok command, w')) ->
  once any (bound_route identity ctx key intent digest command verified) None.
Proof.
  intros Hd Hres. unfold bound_route. destruct (toolRouteContextDigest command) as [context|err] eqn:Hc; [|done].
  apply once_after; [apply now_every, reads_quiet|]. intros now _. destruct (is_zero now); [done|]. cbv zeta.
  destruct (newToolRouteRecord _ _ _ _ _ _ _) as [candidate|err] eqn:Hn; [|done].
  apply candidate_facts in Hn as (Hok & Hst & Hdig & Hctx & Hloc).
  assert (Hb : bound intent command candidate) by (unfold bound; by rewrite Hdig, Hctx).
  apply once_after; [apply every_call_one; intros w; by apply begin_quiet|]. intros [[current [|]]|err] (w & w' & Hbegin)%may_calls.
  - destruct (validateRouteReplay current candidate) as [[]|err] eqn:Hrep; [|apply quiet_once, refuse_every, reads_quiet]. apply resume_once.
    unfold validateRouteReplay in Hrep. apply seq_ok in Hrep as [Hrep _]. apply deny_if_ok, negb_false_iff, bool_decide_eq_true in Hrep.
    apply begun_once; [by apply (bound_by _ _ candidate)|]. injection Hrep as _ _ E _ _ _ _ _ _ _ _ _. by rewrite E, Hdig.
  - pose proof (begin_law ctx key candidate w) as H. rewrite Hbegin in H. destruct H as [[_ H]|(_ & _ & H)].
    + by destruct (H current false eq_refl).
    + rewrite (H current false eq_refl). apply begun_once; [done|by rewrite Hdig].
  - apply quiet_once. apply every_call_bind; [apply look_every, reads_quiet|done].
Qed.

Lemma resolved_once ctx key intent digest : ToolRoute.Digest intent = Ok digest ->
  once any (resolved_route identity ctx key intent digest) None.
Proof.
  intros Hd. apply once_after; [apply every_call_one; intros w; apply apart_quiet, apart_resolve|].
  intros [command|err] Hres%may_calls.
  - apply once_after; [apply look_every, reads_quiet|]. intros [verified|err] _; [by apply bound_once|].
    apply quiet_once. apply every_call_bind; [apply look_every, reads_quiet|]. intros e. apply refuse_every, reads_quiet.
  - apply quiet_once. apply every_call_bind; [apply look_every, reads_quiet|]. intros e. apply refuse_every, reads_quiet.
Qed.

Lemma submit_once ctx intent : once any (Submit identity ctx intent) None.
Proof.
  unfold Submit. destruct ctx as [look|]; [|done]. destruct (ToolRoute.Digest intent) as [digest|err] eqn:Hd; [|done].
  apply once_after; [apply look_every, reads_quiet|]. intros [reason|] _.
  { apply quiet_once. apply every_call_bind; [apply look_every, reads_quiet|]. intros e. apply refuse_every, reads_quiet. }
  apply once_after; [apply every_call_one; intros w; apply apart_quiet, apart_lookup|]. intros [[current [|]]|err] _.
  - destruct (validateToolRouteRecord current) as [[]|err]; [|done]. destruct (negb _); [apply quiet_once, refuse_every, reads_quiet|].
    by apply resume_once, resolved_once.
  - by apply resolved_once.
  - apply quiet_once. apply every_call_bind; [apply look_every, reads_quiet|done].
Qed.
End laws.
