(* ===== verification/RouteTheorems.v ===== *)
(** * Tool routes: the theorems

    At most one call of the connector for an operation, across interleavings, crashes and
    restarts; what stands behind each call; the state machine of durable records; what a
    repeated submission gets. *)

From S2P Require Import Prelude GoStrings GoRegexp GoTime GoJson DomainContract Sha256 Domain GoStruct GoCodec EStop EStopController EStopFacts ToolRoute Authority TamperAudit Policy ActionManifest Storage ApprovalLifecycle ApprovalCodec ApprovalBroker PreDispatch LeaseFacts LeaseSafety RouteRecord RouteBroker RouteSafety.

Local Open Scope string_scope.
Local Open Scope Z_scope.

(** ** The state machine, abstractly *)

Inductive phase_step : string -> string -> Prop :=
| phase_authorize : phase_step routePending routeAuthorizing
| phase_dispatch : phase_step routeAuthorizing routeDispatching
| phase_decide s s' : In s [routePending; routeAuthorizing; routeDispatching] -> terminalToolRouteStatus s' = true -> phase_step s s'.

Lemma legal_phase s s' : legalToolRouteTransition s s' = true <-> phase_step s s'.
Proof.
  split.
  - unfold legalToolRouteTransition. destruct (String.eqb_spec s routePending) as [->|_].
    { intros [->%String.eqb_eq|H]%orb_true_iff; [constructor|]. apply phase_decide; [by left|done]. }
    destruct (String.eqb_spec s routeAuthorizing) as [->|_].
    { intros [->%String.eqb_eq|H]%orb_true_iff; [constructor|]. apply phase_decide; [by right; left|done]. }
    destruct (String.eqb_spec s routeDispatching) as [->|_]; [|done]. intros H. apply phase_decide; [by right; right; left|done].
  - intros [| |t t' [<-|[<-|[<-|[]]]] Ht]; [done..| | |]; cbn; rewrite Ht; try done; apply orb_true_r.
Qed.

(** The same route, later *)
Record later_route (r r' : toolRouteRecord) : Prop := {
  lr_binding : route_binding r = route_binding r';
  lr_created : tr_CreatedAt r = tr_CreatedAt r';
  lr_phase : rtc phase_step (tr_Status r) (tr_Status r');
  lr_dispatch : is_set (tr_DispatchAuditID r) = true -> tr_DispatchAuditID r' = tr_DispatchAuditID r;
  lr_final : terminalToolRouteStatus (tr_Status r) = true -> r' = r }.

Lemma reached_later r r' : rtc transition r r' -> later_route r r'.
Proof.
  induction 1 as [r|r1 r2 r3 H _ IH]; [by split|]. pose proof (transition_facts _ _ H) as Hf. destruct IH as [H1 H2 H3 H4 H5]. split.
  - rewrite (sf_binding _ _ Hf). exact H1.
  - rewrite (sf_created _ _ Hf). exact H2.
  - eapply rtc_l; [by apply legal_phase, (sf_legal _ _ Hf)|exact H3].
  - intros Hs. pose proof (sf_dispatch _ _ Hf Hs) as E. rewrite <- E in Hs |- *. by apply H4.
  - intros Ht. by destruct (terminal_is_final _ _ Ht H).
Qed.

(** ** Any number of submissions, and anything that leaves routes alone *)

Section theorems.
Context {W : Type} {store : RouteStore W} {ports : RoutePorts W} {laws : RouteLaws W}.

Inductive route_task : Type :=
| TaskSubmit (identity : toolRouteIdentity) (ctx : context W) (intent : ToolIntent)
| TaskOther (m : routine W unit).

Definition serve (task : route_task) : routine W (option (ActionReceipt * option toolRouteError)) :=
  match task with
  | TaskSubmit identity ctx intent => answer ← Submit identity ctx intent; mret (Some answer)
  | TaskOther m => _ ← m; mret None
  end.

(** What runs besides submissions leaves routes and the connector alone. *)
Definition polite (task : route_task) : Prop :=
  match task with TaskSubmit _ _ _ => True | TaskOther m => every_call apart m end.

(** A process: the tasks it starts with, and the schedule until it ends or crashes *)
Definition process : Type := list route_task * list nat.

Definition run_processes (processes : list process) (w : W) : W :=
  lives (map (fun p : process => (map serve (fst p), snd p)) processes) w.

Definition well_behaved (processes : list process) : Prop := Forall (fun p : process => Forall polite (fst p)) processes.

Lemma serve_once task : polite task -> once routes_ok evolves begun_at holds location dispatched intent_location any (serve task) None.
Proof.
  destruct task as [identity ctx intent|m]; intros Hp.
  - apply once_bind. eapply once_weaken; [|apply submit_once]. done.
  - apply once_after; [by apply quiet_apart|done].
Qed.

(** The routes are in order: valid, each call of the connector stands on one, and no operation has two. *)
Definition in_order (w : W) : Prop := routes_ok w /\ NoDup (map intent_location (dispatched w)).

Lemma tasks_once processes : well_behaved processes ->
  Forall (fun l : life W _ => Forall (fun m => once routes_ok evolves begun_at holds location dispatched intent_location any m None) (fst l))
    (map (fun p : process => (map serve (fst p), snd p)) processes).
Proof.
  intros Hp. apply Forall_map. eapply Forall_impl; [exact Hp|]. intros p Hps. cbn. apply Forall_map. eapply Forall_impl; [exact Hps|].
  intros task. apply serve_once.
Qed.

Lemma run_processes_ok processes w : well_behaved processes -> in_order w ->
  evolves w (run_processes processes w) /\ dispatched w `prefix_of` dispatched (run_processes processes w) /\
  in_order (run_processes processes w).
Proof.
  intros Hp [Hw Hnd].
  destruct (lives_once routes_ok evolves begun_at holds location dispatched intent_location holds_kept holds_begun logged_begun
    any _ w (tasks_once processes Hp)) as (He & Hl & Hi & Hnd' & _).
  - split; [done|]. cbn. rewrite app_nil_r. split; [done|]. by intros t Ht%elem_of_nil.
  - cbn in Hnd'. by rewrite app_nil_r in Hnd'.
Qed.

(** An operation that was begun before and not called then is not called now. *)
Lemma begun_not_called processes w l : well_behaved processes -> in_order w -> begun_at w l ->
  l ∉ map intent_location (dispatched w) -> l ∉ map intent_location (dispatched (run_processes processes w)).
Proof.
  intros Hp [Hw Hnd] Hl Hnot.
  destruct (lives_once (spent_before routes_ok begun_at [l]) evolves begun_at holds location
    (fun w => [l] ++ map intent_location (dispatched w))%list id holds_kept holds_begun) with (Q := @any (option (ActionReceipt * option toolRouteError)))
    (ls := map (fun p : process => (map serve (fst p), snd p)) processes) (w := w) as (_ & _ & _ & Hnd' & _).
  - intros w0 k [Hw0 Hs] [Hk|Hk]%elem_of_app; [by apply Hs|]. apply list_elem_of_fmap in Hk as (i & -> & Hi). by apply logged_begun.
  - eapply Forall_impl; [by apply tasks_once|]. intros p Hps. eapply Forall_impl; [exact Hps|]. intros m. apply once_before, begun_kept.
  - split; [split; [done|]; by intros k ->%list_elem_of_singleton|]. cbn. rewrite app_nil_r, map_id. split; [by constructor|].
    by intros t Ht%elem_of_nil.
  - cbn in Hnd'. rewrite app_nil_r, map_id in Hnd'. by apply NoDup_cons in Hnd' as [H _].
Qed.

(** C4. The connector is called at most once for an operation of a case.  Whatever is submitted, by any
    number of processes one after the other, each running any number of submissions in any interleaving with anything that
    leaves routes alone, and each stopping anywhere, a crash between two calls included: no two calls of the connector are for the same
    operation of the same case.  The store is only assumed to compare and swap, and its errors may leave
    open whether it did. *)
Theorem connector_is_called_once processes w : well_behaved processes -> in_order w ->
  NoDup (map intent_location (dispatched (run_processes processes w))).
Proof. intros Hp Hw. by destruct (run_processes_ok processes w Hp Hw) as (_ & _ & _ & H). Qed.

(** Behind every call of the connector, in the runs of [connector_is_called_once], stands a durable
    record that was saved as dispatching for exactly this intent, and that is still there, moved on along the state machine at
    most.  Behind that record stand the trusted context its digest names, a capability of the
    gate whose signed manifest is of this intent and whose decision and approval the record names, a
    stop guard that allowed the case, and an audit event that was appended and whose identity it holds. *)
Theorem connector_calls_are_authorised processes w intent : well_behaved processes -> in_order w ->
  intent ∈ dispatched (run_processes processes w) ->
  exists t r, dispatch_stands intent t /\ route_at (run_processes processes w) (intent_location intent) = Some r /\ later_route t r.
Proof.
  intros Hp Hw Hin. destruct (run_processes_ok processes w Hp Hw) as (_ & _ & [_ H] & _).
  destruct (H intent Hin) as (t & Ht & _ & r & Hr & Hreach). exists t, r. rewrite (ds_location _ _ Ht) in Hr.
  split; [done|split; [done|by apply reached_later]].
Qed.

(** C11. Durable routes follow the state machine: a record, however many processes run after it, is
    still there, is of the same intent, context, manifest, decision, approval and actors, has moved from state to state as the
    abstract machine does, keeps the audit of its dispatch once it has one, and is byte for byte the
    same if it was decided. *)
Theorem routes_follow_the_state_machine processes w l r : well_behaved processes -> in_order w ->
  route_at w l = Some r ->
  exists r', route_at (run_processes processes w) l = Some r' /\ later_route r r' /\ validateToolRouteRecord r' = Ok tt.
Proof.
  intros Hp Hw Hr. destruct (run_processes_ok processes w Hp Hw) as (He & _ & [Hok _] & _).
  destruct (He l r Hr) as (r' & Hr' & Hreach). exists r'. split; [done|]. split; [by apply reached_later|]. apply (Hok l r' Hr').
Qed.

(** C13. What was begun is not begun again: an operation whose record says that it was handed to the connector, or
    was about to be when its process stopped, is never handed to it by any process that starts later. *)
Theorem interrupted_routes_are_not_dispatched processes w intent r : well_behaved processes -> in_order w ->
  route_at w (intent_location intent) = Some r -> is_set (tr_DispatchAuditID r) = true ->
  intent ∈ dispatched (run_processes processes w) -> intent ∈ dispatched w.
Proof.
  intros Hp Hw Hr Hs Hin. destruct (decide (intent_location intent ∈ map intent_location (dispatched w))) as [Hold|Hnot].
  - apply list_elem_of_fmap in Hold as (old & Hl & Hold). destruct (run_processes_ok processes w Hp Hw) as (_ & [l Hl'] & _ & Hnd).
    assert (Hold' : old ∈ dispatched (run_processes processes w)) by (rewrite Hl'; apply elem_of_app; by left).
    apply list_elem_of_lookup in Hin as [i Hi]. apply list_elem_of_lookup in Hold' as [j Hj].
    assert (i = j) as ->; [|by congruence]. eapply (NoDup_lookup _ i j (intent_location intent) Hnd).
    + change map with (@fmap list list_fmap). by rewrite list_lookup_fmap, Hi.
    + change map with (@fmap list list_fmap). rewrite list_lookup_fmap, Hj. cbn. by rewrite Hl.
  - destruct (begun_not_called processes w (intent_location intent) Hp Hw) as []; [by exists r|done|].
    apply list_elem_of_fmap. by exists intent.
Qed.

(** ** A submission of what is already there *)

#[local] Instance apart_preorder : PreOrder (@apart W store ports laws).
Proof. split; [by intros w|]. intros w1 w2 w3 [H1 H2] [H3 H4]. split; [intros l; by rewrite H3|by rewrite H4]. Qed.

Lemma alone_apart {A} (m : routine W A) w a w' : every_call apart m -> run_alone m w = (a, w') -> apart w w'.
Proof. intros Hm H. pose proof (alone_every apart m w _ Hm) as Ha. by rewrite H in Ha. Qed.

(** Finishing a route stores what it answers, or fails. *)
Lemma finish_alone identity ctx key current auditRecord status reason w answer w' :
  run_alone (finishRouteBound identity ctx key current auditRecord status reason None) w = (answer, w') ->
  dispatched w' = dispatched w /\
  (snd answer = None -> exists r, route_at w' (location r) = Some r /\ transition current r /\ tr_Status r = status /\
     fst answer = tr_Receipt r /\ rc_Outcome (tr_Receipt r) = status).
Proof.
  unfold finishRouteBound. cbv zeta. rewrite run_alone_bind.
  match goal with |- context [run_alone (appendRouteAudit ?i ?r ?o ?why ?e) w] =>
    destruct (run_alone (appendRouteAudit i r o why e) w) as [audited w1] eqn:Ha; apply (alone_apart _ _ _ _ (audit_every i _ reads_apart r o why e)) in Ha end.
  destruct audited as [auditID|err]; [|cbn; intros [= <- <-]; by split; [apply Ha|]]. rewrite run_alone_bind.
  destruct (run_alone (transitionRoute current status reason) w1) as [tr w2] eqn:Ht.
  pose proof (run_alone_may _ _ _ _ Ht) as Hmay. apply (alone_apart _ _ _ _ (transition_every _ reads_apart _ _ _)) in Ht.
  assert (Hd2 : dispatched w2 = dispatched w) by (transitivity (dispatched w1); [apply Ht|apply Ha]).
  destruct (tr ≫= _) as [next|err] eqn:Hn; [|cbn; intros [= <- <-]; by split]. cbn -[finished_record].
  apply may_bind in Hmay as (now & _ & Hret). apply bind_ok in Hn as (next0 & -> & Hn). cbn in Hret. symmetry in Hret.
  apply bind_ok in Hret as (p & _ & [= <-]). unfold finished_record in Hn. apply bind_ok in Hn as (rd & _ & Hn).
  pose proof (chained_transition _ _ _ _ Hn) as Hstep. unfold chained in Hn. apply bind_ok in Hn as (p' & _ & Hn).
  apply seq_ok in Hn as [_ [= <-]].
  match goal with |- context [route_save ?c ?k ?prior ?n w2] => pose proof (save_law c k prior n w2 Hstep) as Hlaw;
    destruct (route_save c k prior n w2) as [[saved|err] w3] end; cbn; intros [= <- <-].
  - destruct Hlaw as [[_ ?]|(_ & (Hat & _ & Hd) & Hsaved)]; [done|]. split; [by rewrite Hd|]. intros _. rewrite (Hsaved saved eq_refl).
    eexists. by split_and!; [exact Hat|exact Hstep| | |].
  - split; [|done]. destruct Hlaw as [[[_ Hd] _]|(_ & (_ & _ & Hd) & _)]; by rewrite Hd.
Qed.

(** C14. A repeated submission settles, and never dispatches: if the record of the operation is decided or was left
    dispatching, a submission calls no connector, and, when it does not fail, it is of the very intent of the
    record and answers with the durable receipt, which is the one that was decided, unchanged, or else says
    uncertain, in a record that is now decided so. *)
Theorem resubmissions_settle identity look intent w r answer w' :
  routes_ok w -> route_at w (intent_location intent) = Some r ->
  terminalToolRouteStatus (tr_Status r) = true \/ tr_Status r = routeDispatching ->
  run_alone (Submit identity (Some look) intent) w = (answer, w') ->
  dispatched w' = dispatched w /\
  (snd answer = None -> ToolRoute.Digest intent = Ok (tr_IntentDigest r) /\
   exists r', route_at w' (intent_location intent) = Some r' /\ later_route r r' /\ fst answer = tr_Receipt r' /\
     (terminalToolRouteStatus (tr_Status r) = false -> tr_Status r' = routeUncertain /\ rc_Outcome (tr_Receipt r') = "uncertain")).
Proof.
  intros Hok Hr Hst Hrun. unfold Submit in Hrun. destruct (ToolRoute.Digest intent) as [digest|err]; [|injection Hrun as <- <-; by split].
  rewrite run_alone_bind in Hrun. cbn [calls run_alone] in Hrun.
  destruct (context_done (Some look) w) as [reason|].
  { rewrite run_alone_bind in Hrun. cbn [mapped calls run_alone] in Hrun. apply run_alone_may in Hrun as Hmay.
    apply (alone_apart _ _ _ _ (refuse_every _ _ reads_apart _ _ _ _)) in Hrun as [_ Hd]. split; [done|]. intros Hnone.
    apply may_bind in Hmay as ([|] & _ & Hmay); cbn in Hmay; by subst answer. }
  rewrite run_alone_bind in Hrun. cbn [calls run_alone] in Hrun.
  pose proof (apart_lookup (Some look) (ti_Case intent) (ti_OperationID intent) w) as Hap.
  destruct (route_lookup (Some look) (ti_Case intent) (ti_OperationID intent) w) as [[[cur found]|err] w1] eqn:Hl; cbn [snd] in Hap.
  2: { rewrite run_alone_bind in Hrun. cbn [mapped calls run_alone] in Hrun. injection Hrun as <- <-. split; [apply Hap|done]. }
  apply lookup_law in Hl. fold (intent_location intent) in Hl. rewrite Hr in Hl. destruct found; [|done]. injection Hl as <-.
  destruct Hap as [Hroutes Hd1]. destruct (validateToolRouteRecord r) as [u|err]; [|injection Hrun as <- <-; by split].
  destruct (String.eqb_spec (tr_IntentDigest r) digest) as [<-|Hne]; cbn [negb] in Hrun.
  2: { apply run_alone_may in Hrun as Hmay. apply (alone_apart _ _ _ _ (refuse_every _ _ reads_apart _ _ _ _)) in Hrun as [_ Hd].
       split; [by rewrite Hd|]. intros Hnone. apply may_bind in Hmay as ([|] & _ & Hmay); cbn in Hmay; by subst answer. }
  unfold resume in Hrun. destruct (terminalToolRouteStatus (tr_Status r)) eqn:Hterm.
  { injection Hrun as <- <-. split; [done|]. intros _. split; [done|]. exists r. rewrite Hroutes. by split_and!. }
  destruct Hst as [?|Hst]; [done|]. rewrite Hst, String.eqb_refl in Hrun.
  apply (finish_alone identity (Some look)) in Hrun as [Hd2 Hfin]. split; [by rewrite Hd2|]. intros Hnone. split; [done|]. destruct (Hfin Hnone) as (r' & Hat & Hstep & Hs & Ha & Ho).
  exists r'. destruct (proj1 Hok _ _ Hr) as [_ Hloc]. rewrite <- Hloc, (binding_location _ _ (sf_binding _ _ (transition_facts _ _ Hstep))).
  split; [done|]. split; [by apply reached_later, rtc_once|]. by split.
Qed.
End theorems.
