(* ===== verification/RouteCompose.v ===== *)
(** * Tool routes: with the gate, the approvals and the emergency stop behind them

    The gate of the routes is [PreDispatch.authorize] over the approval service and the
    fingerprint engine, as the repository composes them: what a call of a connector stands on,
    from the signed manifest to the use of the approval.
    The stop guard of the routes is the one of the repository, [EStopController.Allow]: once a
    stop is active, submissions that start afterwards call no connector for what it covers. *)

From S2P Require Import Prelude GoStrings GoRegexp GoTime GoJson DomainContract Sha256 Domain GoStruct GoCodec EStop EStopController EStopFacts ToolRoute Authority TamperAudit Policy ActionManifest ActionManifestFacts Storage StorageFacts ApprovalLifecycle ApprovalLifecycleFacts ApprovalCodec ApprovalBroker ApprovalBrokerFacts ApprovalBrokerRuns ApprovalFingerprint ApprovalFingerprintFacts ApprovalBinding PreDispatch PreDispatchFacts LeaseFacts LeaseSafety RouteRecord RouteBroker RouteSafety RouteTheorems.

Local Open Scope string_scope.
Local Open Scope Z_scope.

(** ** An intent and its manifest *)

(** The manifest is of exactly the action that the intent asks for. *)
Record manifest_of_intent (intent : ToolIntent) (m : Manifest) : Prop := {
  mi_operation : m_WorkflowTaskID m = ti_OperationID intent;
  mi_case : m_OrganizationID m = OrganizationID (ti_Case intent) /\ m_TenantID m = TenantID (ti_Case intent) /\
    m_CaseID m = CaseID (ti_Case intent);
  mi_action : t_Name (m_Tool m) = ti_Tool intent /\ m_Operation m = ti_Action intent;
  mi_target : items (m_TargetDigests m) = [ti_TargetDigest intent];
  mi_arguments : m_ArgumentsDigest m = ti_ArgumentDigest intent }.

Lemma validateIntentManifestBinding_ok intent verified : validateIntentManifestBinding intent verified = Ok tt ->
  manifest_of_intent intent (ve_manifest verified).
Proof.
  intros H%deny_if_ok. repeat (apply orb_false_iff in H as [H ?]).
  repeat match goal with H : negb _ = false |- _ => apply negb_false_iff, String.eqb_eq in H end.
  split; try done. destruct (items _) as [|target [|]]; try done. f_equal.
  by match goal with H : negb _ = false |- _ => apply negb_false_iff, String.eqb_eq in H end.
Qed.

(** ** The gate behind the routes *)

Section gate.
Context {W : Type} {store : RouteStore W} {ports : RoutePorts W} {laws : RouteLaws W}.
Context {G GE : Type} {metadata : MetadataStore G} {broker : BrokerPorts G} {observed : Observed G}
  {engine : EnginePorts GE} {backed : EngineBacked G GE} {gate : GatePorts G}.

(** The gate's part of the world, and how the gate sees a caller's context *)
Variables (part : W -> G) (merge : G -> W -> W) (inner : context W -> context G).

Hypothesis gate_is_authorize : forall ctx command,
  route_authorize ctx command = calls (fun w => let '(answer, g) := authorize (inner ctx) command (part w) in (answer, merge g w)).
Hypothesis consumer_is_the_service : forall ctx command g, gate_consumeApproval ctx command g = consumeApproval ctx command g.

(** What the resolver answers is a Go value: its counters are machine integers. *)
Hypothesis resolver_counters : forall ctx intent digest w command w',
  resolveToolRoute ctx intent digest w = (Ok command, w') -> fingerprint_counters (pd_Fingerprint command).

Lemma gate_answer ctx command a : may_return (route_authorize ctx command) (Ok a) ->
  exists g g', authorize (inner ctx) command g = (Ok a, g').
Proof.
  rewrite gate_is_authorize. intros (w & w' & H)%may_calls. destruct (authorize (inner ctx) command (part w)) as [answer g'] eqn:Ha.
  injection H as -> _. by exists (part w), g'.
Qed.

(** What a call of the connector stands on, from one end to the other: [a] is what the gate gave. *)
Record approved_call (intent : ToolIntent) (a : preDispatchAuthority) (t : toolRouteRecord) : Prop := {
  ap_intent : ToolRoute.Digest intent = Ok (tr_IntentDigest t) /\ tr_Case t = ti_Case intent /\
    tr_OperationID t = ti_OperationID intent;
  ap_manifest : manifest_of_intent intent (ve_manifest (au_Manifest a));
  ap_signed : exists ctx command g', toolRouteContextDigest command = Ok (tr_ContextDigest t) /\ dispatch_authority ctx command a g';
  ap_approval : tr_ApprovalFingerprintDigest t = a_FingerprintDigest (au_Approval a) /\
    tr_ApprovalRevision t = a_Revision (au_Approval a) /\
    tr_PreDispatchDecisionDigest t = d_DecisionDigest (au_PreDispatchDecision a);
  ap_used : exists cur p, ValidateTransition cur (au_Approval a) = Ok tt /\ a_UseCount (au_Approval a) = a_UseCount cur + 1 /\
    approves cur p (ve_manifest (au_Manifest a)) /\ a_ActionTier cur = m_ActionTier (ve_manifest (au_Manifest a)) }.

(** C3. Every call of a connector is one counted use of a signed approval of exactly that call.
    With the repository's gate, approval service and fingerprint engine behind the routes, in any runs, crashes
    and interleavings: for every intent a connector was called with there is a durable record, saved as
    dispatching before, and an authority of the gate that it names, such that the signed
    manifest is of this operation, case, tool, action, target and arguments, every check of the gate
    passed (signature, actor, fresh policy decision, rules of engagement, audit), and the
    approval of that very manifest went from a valid state to one with one use more. *)
Theorem connector_calls_are_uses_of_signed_approvals processes w intent : well_behaved processes -> in_order w ->
  intent ∈ dispatched (run_processes processes w) ->
  exists t r a, approved_call intent a t /\
    route_at (run_processes processes w) (intent_location intent) = Some r /\ later_route t r.
Proof.
  intros Hp Hw Hin. destruct (run_processes_ok processes w Hp Hw) as (_ & _ & [_ H] & _).
  destruct (H intent Hin) as (t & Ht & _ & r & Hr & Hreach). exists t, r.
  destruct Ht as [Hdig Hloc _ (ctx & command & a & (w1 & w2 & Hres) & Hctx & Hgate & Hman & Hd & Hf & Hrev & _) _].
  exists a. rewrite Hloc in Hr. split; [|split; [done|by apply reached_later]].
  destruct (gate_answer _ _ _ Hgate) as (g & g' & Ha). injection Hloc as Hcase Hop. split.
  - done.
  - by apply validateIntentManifestBinding_ok.
  - exists (inner ctx), command, g'. split; [done|]. by eapply dispatch_stands_on_every_check.
  - done.
  - destruct (dispatch_is_one_use_of_a_signed_approval (observed := observed) (backed := backed) consumer_is_the_service (inner ctx) command g a g')
      as (_ & _ & _ & _ & cur & _ & _ & _ & _ & p & _ & _ & _ & _ & _ & _ & Hstep & Huse & _ & _ & Happ & Htier);
      [by eapply resolver_counters|done|]. by exists cur, p.
Qed.
End gate.

(** ** Tool routes: with the emergency stop behind them *)

(** ** Goroutines under an invariant *)

Section invariant.
Context {W : Type} (I : W -> Prop).

(** While everyone keeps the invariant, so does the goroutine, and it ends as [Q] says. *)
Fixpoint under {A} (Q : A -> Prop) (m : routine W A) : Prop :=
  match m with
  | Return a => Q a
  | Call call rest => forall w, I w -> I (snd (call w)) /\ under Q (rest (fst (call w)))
  end.

Lemma under_bind {A B} (Q : A -> Prop) (Q' : B -> Prop) (m : routine W A) (f : A -> routine W B) :
  under Q m -> (forall a, Q a -> under Q' (f a)) -> under Q' (m ≫= f).
Proof.
  intros Hm Hf. induction m as [a|C call rest IH]; [by apply Hf|]. intros w Hw. destruct (Hm w Hw) as [Hi Hr].
  split; [done|]. by apply IH.
Qed.

Lemma under_every {A} (m : routine W A) : every_call (fun w w' => I w -> I w') m -> under (fun _ => True) m.
Proof.
  induction m as [a|C call rest IH]; [done|]. intros [Hc Hr] w Hw. split; [by apply Hc|]. by apply IH.
Qed.

Lemma under_weaken {A} (Q Q' : A -> Prop) (m : routine W A) : (forall a, Q a -> Q' a) -> under Q m -> under Q' m.
Proof.
  intros HQ. induction m as [a|C call rest IH]; [by apply HQ|]. intros H w Hw. destruct (H w Hw) as [Hi Hr].
  split; [done|]. by apply IH.
Qed.

Lemma advance_under {A} (Q : A -> Prop) (pool : list (routine W A)) w n : Forall (under Q) pool -> I w ->
  Forall (under Q) (fst (advance_at (pool, w) n)) /\ I (snd (advance_at (pool, w) n)).
Proof.
  intros H Hw. unfold advance_at. destruct (pool !! n) as [[a|B call rest]|] eqn:Hn; [done| |done].
  destruct (Forall_lookup_1 _ _ _ _ H Hn w Hw) as [Hi Hr]. destruct (call w) as [b w1]. cbn in *. split; [|done].
  by apply Forall_insert.
Qed.

Lemma lives_under {A} (Q : A -> Prop) (ls : list (life W A)) w : Forall (fun l => Forall (under Q) (fst l)) ls -> I w -> I (lives ls w).
Proof.
  intros H. revert w. unfold lives. induction H as [|[pool schedule] ls Hl _ IH]; intros w Hw; cbn [fold_left]; [done|].
  apply IH. unfold live. cbn [fst snd] in *. clear IH. revert pool w Hl Hw.
  induction schedule as [|n schedule IH]; intros pool w Hl Hw; [done|]. cbn [fold_left].
  destruct (advance_under Q pool w n Hl Hw) as [Hp Hi]. destruct (advance_at (pool, w) n) as [pool' w']. by apply IH.
Qed.
End invariant.

(** ** The guard of the repository *)

(** An error of another package is not an error of this one. *)
Fixpoint foreign {E E'} (err : go_error E) : go_error E' :=
  match err with
  | EOwn _ => EOther []
  | ECanceled => ECanceled
  | EDeadlineExceeded => EDeadlineExceeded
  | EOther wrapped => EOther (map foreign wrapped)
  end.

Definition stop_guard {W} {stops : EStopController.Store W} {clock : StopPorts W} (ctx : context W) (organizationID tenantID caseID : string)
  : routine W (option (go_error ApprovalLifecycle.Error)) :=
  answer ← EStopController.Allow ctx organizationID tenantID caseID;
  mret (option_map foreign answer).

(** The guard asks the stops' store once, and looks at the context. *)
Lemma stop_guard_every {W} {stops : EStopController.Store W} {clock : StopPorts W} (R : W -> W -> Prop) ctx o t c :
  (forall w, R w w) -> (forall w, R w (snd (store_Effective ctx o t c w))) -> every_call R (stop_guard ctx o t c).
Proof.
  intros Hlook Heff. apply every_call_bind; [|done]. apply every_call_bind; [|by intros []].
  apply every_call_bind; [by apply every_call_one|]. cbv zeta. intros [err|]; [done|]. destruct (ValidateScope _ ;; _); [|done].
  apply every_call_bind; [by apply every_call_one|]. intros [[state [|]]|err]; [done..|].
  apply every_call_bind; [by apply every_call_one|done].
Qed.

Section stop.
Context {W : Type} {store : RouteStore W} {ports : RoutePorts W} {laws : RouteLaws W}.
Context {stops : EStopController.Store W} {clock : StopPorts W} {stop_laws : StopStore W}.

Hypothesis guard_is_allow : forall ctx o t c, route_Allow ctx o t c = stop_guard ctx o t c.

(** What the routes do to the stops: nothing that goes around the stops' store. *)
Record leaves_stops : Prop := {
  ls_lookup : forall ctx c id w, keeps w (snd (route_lookup ctx c id w));
  ls_begin : forall ctx key candidate w, keeps w (snd (route_begin ctx key candidate w));
  ls_save : forall ctx key prior next w, keeps w (snd (route_save ctx key prior next w));
  ls_resolve : forall ctx intent digest w, keeps w (snd (resolveToolRoute ctx intent digest w));
  ls_authorize : forall ctx command, respects (route_authorize ctx command);
  ls_dispatch : forall ctx intent w, keeps w (snd (Dispatch ctx intent w));
  ls_append : forall event w, keeps w (snd (route_AppendAuditEvent event w));
  ls_now : forall w, keeps w (snd (RouteNow w)) }.

Hypothesis leaves : leaves_stops.

(** What a call does that is not the connector's *)
Definition silent (w w' : W) : Prop := keeps w w' /\ dispatched w' = dispatched w.

Lemma every_both {A} (R R' : W -> W -> Prop) (m : routine W A) : every_call R m -> every_call R' m ->
  every_call (fun w w' => R w w' /\ R' w w') m.
Proof. induction m as [a|B call rest IH]; [done|]. intros [H1 H2] [H3 H4]. split; [by split|]. intros b. by apply IH. Qed.

Lemma silent_respects {A} (m : routine W A) : respects m -> every_call apart m -> every_call silent m.
Proof.
  intros H Ha. induction m as [a|B call rest IH]; [done|]. destruct H as [H1 H2], Ha as [H3 H4].
  split; [intros w; split; [done|apply H3]|]. intros b. by apply IH.
Qed.

Lemma reads_silent : reads silent.
Proof.
  destruct reads_apart as [_ H2 H3]. split.
  - intros w. split; [apply keeps_refl|done].
  - intros w. split; [by apply ls_now|apply H2].
  - intros event w. split; [by apply ls_append|apply H3].
Qed.

Lemma saves_silent : saves silent.
Proof.
  intros ctx key prior next w Ht. split; [by apply ls_save|]. pose proof (save_law ctx key prior next w Ht) as H.
  destruct (route_save ctx key prior next w) as [answer w']. by destruct H as [[[_ ?] _]|(_ & (_ & _ & ?) & _)].
Qed.

Lemma begin_silent ctx key candidate w : silent w (snd (route_begin ctx key candidate w)).
Proof.
  split; [by apply ls_begin|]. pose proof (begin_law ctx key candidate w) as H.
  destruct (route_begin ctx key candidate w) as [answer w']. by destruct H as [[[_ ?] _]|(_ & (_ & _ & ?) & _)].
Qed.

(** ** A stop that is active *)

Context (s : Scope) (earlier : list ToolIntent).

Definition covered (intent : ToolIntent) : Prop :=
  covers s (OrganizationID (ti_Case intent)) (TenantID (ti_Case intent)) (CaseID (ti_Case intent)).

(** The stop stands, and the calls since [earlier] are for what it does not cover. *)
Definition contained (w : W) : Prop :=
  store_ok w /\ stopped w s /\ exists calls, dispatched w = (earlier ++ calls)%list /\ Forall (fun intent => ~ covered intent) calls.

Lemma silent_contained w w' : silent w w' -> contained w -> contained w'.
Proof. intros [Hk Hd] (Hok & Hs & Hc). destruct (Hk Hok) as [Hok' Hs']. unfold contained. rewrite Hd. auto. Qed.

Lemma silent_under {A} (m : routine W A) : every_call silent m -> under contained (fun _ => True) m.
Proof. intros H. apply under_every. eapply every_call_weaken; [|exact H]. intros w w'. apply silent_contained. Qed.

Lemma dispatch_contained ctx intent w : ~ covered intent -> contained w -> contained (snd (Dispatch ctx intent w)).
Proof.
  intros Hn (Hok & Hs & calls & Hd & Hc). destruct (ls_dispatch leaves ctx intent w Hok) as [Hok' Hs'].
  split_and!; [done|by apply Hs'|]. exists (calls ++ [intent])%list. destruct (dispatch_law ctx intent w) as [_ ->].
  rewrite Hd, app_assoc. split; [done|]. apply Forall_app. split; [done|]. by constructor.
Qed.
(** The guard refuses what the stop covers. *)
Lemma guard_refuses ctx o t c :
  under (fun w => store_ok w /\ stopped w s) (fun answer => covers s o t c -> answer <> None) (stop_guard ctx o t c).
Proof.
  assert (Hk : forall w w', keeps w w' -> store_ok w /\ stopped w s -> store_ok w' /\ stopped w' s).
  { intros w w' H [Hok Hs]. destruct (H Hok) as [Hok' Hs']. auto. }
  apply (under_bind _ (fun err => covers s o t c -> err <> None)); [|intros [err|] H Hc; [done|by apply H in Hc]].
  unfold Allow. apply (under_bind _ (fun answer => covers s o t c -> snd answer <> None)); [|by intros [state err]].
  apply (under_bind _ (fun _ => True)); [by apply under_every; split|]. cbv zeta. intros [err|] _; [done|].
  destruct (ValidateScope _ ;; _) as [u|err]; [|done]. intros w Hw. split; [by eapply Hk; [apply keeps_effective|]|].
  destruct (store_Effective ctx o t c w) as [[[state active]|err] w'] eqn:He; cbn [fst].
  - destruct active; [done|]. intros Hc. by pose proof (effective_refuses _ _ _ _ _ _ _ _ _ (proj1 Hw) (proj2 Hw) Hc He).
  - apply (under_bind _ (fun _ => True)); [by apply under_every; split|]. done.
Qed.

Lemma under_apart {A} (Q : A -> Prop) (m : routine W A) : under (fun w => store_ok w /\ stopped w s) Q m -> every_call apart m ->
  under contained Q m.
Proof.
  induction m as [a|B call rest IH]; [done|]. intros H [Ha Hr] w (Hok & Hs & calls & Hd & Hc).
  destruct (H w (conj Hok Hs)) as [[Hok' Hs'] Hu]. split; [|by apply IH]. split_and!; [done..|]. exists calls.
  by rewrite (proj2 (Ha w)).
Qed.

Lemma check_refuses ctx scope : under contained
  (fun err => covers s (OrganizationID scope) (TenantID scope) (CaseID scope) -> err <> None) (checkStop ctx scope).
Proof.
  apply (under_bind _ (fun err => covers s (OrganizationID scope) (TenantID scope) (CaseID scope) -> err <> None)).
  - apply under_apart; [rewrite guard_is_allow; apply guard_refuses|apply apart_allow].
  - intros [err|] H; [|by intros Hc; apply H in Hc]. apply (under_bind _ (fun _ => True)); [|done]. apply silent_under, look_every, reads_silent.
Qed.

(** ** The walk *)

Context (identity : toolRouteIdentity).
Local Notation under := (under contained (fun _ => True)).

Lemma under_then {A B} (m : routine W A) (f : A -> routine W B) : every_call silent m ->
  (forall a, may_return m a -> under (f a)) -> under (m ≫= f).
Proof.
  intros Hm Hf. induction m as [a|C call rest IH]; [by apply Hf|]. destruct Hm as [Hc Hr]. intros w Hw.
  split; [by eapply silent_contained|]. apply IH; [apply Hr|]. intros a Ha. apply Hf. by exists w.
Qed.

Lemma dispatch_under ctx key t intent : ~ covered intent -> under (dispatch_route identity ctx key t intent).
Proof.
  intros Hn. apply (under_bind _ (fun _ => True)); [by split; [apply dispatch_contained|]|]. intros answered _.
  apply silent_under, answered_every; [apply reads_silent|apply saves_silent].
Qed.

Lemma finish_under ctx key current auditRecord status reason supplied :
  under (finishRouteBound identity ctx key current auditRecord status reason supplied).
Proof. apply silent_under, finish_every; [apply reads_silent|apply saves_silent]. Qed.

Lemma finish_error_under ctx key current authorized err : under (finishAuthorizedRouteError identity ctx key current authorized err).
Proof. apply silent_under, finish_error_every; [apply reads_silent|apply saves_silent]. Qed.

Lemma refuse_under intent digest outcome err : under (refuse_unbound identity intent digest outcome err).
Proof. apply silent_under, refuse_every, reads_silent. Qed.

Lemma mapped_under {B} ctx reason indeterminate err (f : toolRouteError -> routine W B) : (forall e, under (f e)) ->
  under (mapped ctx reason indeterminate err ≫= f).
Proof. intros Hf. apply under_then; [apply look_every, reads_silent|]. intros e _. apply Hf. Qed.

Lemma authorized_under ctx key current intent capability : tr_Case current = ti_Case intent ->
  under (authorized_route identity ctx key current intent capability).
Proof.
  intros Hcase. unfold authorized_route. cbv zeta. destruct (_ || _ || _); [apply finish_under|].
  eapply under_bind; [apply check_refuses|]. intros [err|] Hstop; [apply finish_error_under|].
  apply under_then; [apply audit_every, reads_silent|]. intros [id|err] _; [|done].
  apply under_then; [apply transition_every, reads_silent|]. intros tr _. destruct (tr ≫= _) as [next|err] eqn:Hn; [|done].
  apply bind_ok in Hn as (tr0 & _ & Hn%chained_transition). apply under_then; [apply every_call_one; intros w; by apply saves_silent|].
  intros [saved|err] _; [|by apply mapped_under]. apply dispatch_under. unfold covered. rewrite <- Hcase.
  intros Hc. by apply Hstop in Hc.
Qed.
Lemma authorize_under ctx key current intent command : tr_Case current = ti_Case intent ->
  under (authorizeAndDispatch identity ctx key current intent command).
Proof.
  intros Hcase. apply under_then.
  { destruct (String.eqb _ _); [apply authorizing_every; [apply reads_silent|apply saves_silent]|done]. }
  intros [r|err] Hr; [|done]. assert (tr_Case r = ti_Case intent).
  { destruct (String.eqb _ _); [|by injection Hr as ->]. apply authorizing_binding in Hr. injection Hr. congruence. }
  apply under_then; [by apply silent_respects; [apply ls_authorize|apply apart_authorize]|]. intros [capability|err] _.
  - by apply authorized_under.
  - apply mapped_under. intros e. apply finish_error_under.
Qed.

Lemma begun_under ctx key current intent verified command : tr_Case current = ti_Case intent ->
  under (begun_route identity ctx key current intent verified command).
Proof.
  intros Hcase. unfold begun_route. destruct (validateIntentManifestBinding _ _) as [u|err]; [|apply finish_under].
  eapply under_bind; [apply check_refuses|]. intros [err|] _; [apply finish_error_under|by apply authorize_under].
Qed.

Lemma resume_under ctx key current continue : under continue -> under (resume identity ctx key current continue).
Proof. intros H. unfold resume. destruct (terminalToolRouteStatus _); [done|]. destruct (String.eqb _ _); [apply finish_under|done]. Qed.

Lemma bound_under ctx key intent digest command verified : under (bound_route identity ctx key intent digest command verified).
Proof.
  unfold bound_route. destruct (toolRouteContextDigest command) as [context|err]; [|done].
  apply under_then; [apply now_every, reads_silent|]. intros now _. destruct (is_zero now); [done|]. cbv zeta.
  destruct (newToolRouteRecord _ _ _ _ _ _ _) as [candidate|err] eqn:Hn; [|done].
  apply candidate_facts in Hn as (_ & _ & _ & _ & [= Hcase _]).
  apply under_then; [apply every_call_one; intros w; apply begin_silent|]. intros [[current [|]]|err] (w & w' & Hbegin)%may_calls.
  - destruct (validateRouteReplay current candidate) as [u|err] eqn:Hrep; [|apply refuse_under]. apply resume_under, begun_under.
    unfold validateRouteReplay in Hrep. apply seq_ok in Hrep as [Hrep _]. apply deny_if_ok, negb_false_iff, bool_decide_eq_true in Hrep.
    injection Hrep. congruence.
  - pose proof (begin_law ctx key candidate w) as H. rewrite Hbegin in H. apply begun_under. destruct H as [[_ H]|(_ & _ & H)].
    + by destruct (H current false eq_refl).
    + by rewrite (H current false eq_refl).
  - by apply mapped_under.
Qed.

Lemma resolved_under ctx key intent digest : under (resolved_route identity ctx key intent digest).
Proof.
  apply under_then; [apply every_call_one; intros w; split; [by apply ls_resolve|apply apart_resolve]|]. intros [command|err] _.
  - apply under_then; [apply look_every, reads_silent|]. intros [verified|err] _; [apply bound_under|].
    apply mapped_under. intros e. apply refuse_under.
  - apply mapped_under. intros e. apply refuse_under.
Qed.

Lemma submit_under ctx intent : under (Submit identity ctx intent).
Proof.
  unfold Submit. destruct ctx as [look|]; [|done]. destruct (ToolRoute.Digest intent) as [digest|err]; [|done].
  apply under_then; [apply look_every, reads_silent|]. intros [reason|] _.
  { apply mapped_under. intros e. apply refuse_under. }
  apply under_then; [apply every_call_one; intros w; split; [by apply ls_lookup|apply apart_lookup]|]. intros [[current [|]]|err] _.
  - destruct (validateToolRouteRecord current) as [u|err]; [|done]. destruct (negb _); [apply refuse_under|].
    apply resume_under, resolved_under.
  - apply resolved_under.
  - by apply mapped_under.
Qed.
End stop.

(** ** The theorems *)

Section theorems.
Context {W : Type} {store : RouteStore W} {ports : RoutePorts W} {laws : RouteLaws W}.
Context {stops : EStopController.Store W} {clock : StopPorts W} {stop_laws : StopStore W}.

(** What else runs leaves the routes alone and only goes through the stops' store. *)
Definition law_abiding (task : route_task) : Prop :=
  match task with TaskSubmit _ _ _ => True | TaskOther m => every_call apart m /\ respects m end.

(** C10. An emergency stop stops tool calls.  With the repository's stop guard behind the routes: once a stop is in
    the store, no process that starts afterwards calls a connector for a case that the stop covers,
    whatever it and the processes after it submit, activate or recover, in any interleaving and with crashes anywhere; a
    route that was begun before the stop is no exception. *)
Theorem stopped_cases_are_not_dispatched processes w s :
  (forall ctx o t c, route_Allow ctx o t c = stop_guard ctx o t c) -> leaves_stops ->
  Forall (fun p : process => Forall law_abiding (fst p)) processes -> store_ok w -> stopped w s ->
  exists calls, dispatched (run_processes processes w) = (dispatched w ++ calls)%list /\
    Forall (fun intent => ~ covers s (OrganizationID (ti_Case intent)) (TenantID (ti_Case intent)) (CaseID (ti_Case intent))) calls.
Proof.
  intros Hguard Hleaves Hp Hok Hs. apply (lives_under (contained s (dispatched w)) (fun _ => True)).
  - apply Forall_map. eapply Forall_impl; [exact Hp|]. intros p Htasks. cbn. apply Forall_map. eapply Forall_impl; [exact Htasks|].
    intros [identity ctx intent|m] Ht; (eapply under_bind; [|done]); [by apply submit_under|].
    destruct Ht as [Ha Hr]. apply (silent_under s), silent_respects; done.
  - split_and!; [done..|]. exists []. by rewrite app_nil_r.
Qed.

(** A stop that the guard reports is not an error of the approval lifecycle, and so what the
    submission makes of it is a failed dependency, not a denial. *)
Lemma a_stop_is_recorded_as_unavailable (look : W -> option done_reason) (err : EStop.Error) (w : W) : look w = None ->
  mapRouteContext (Some look) "emergency_stop" false (foreign (EOwn err)) w =
    newRouteError routeCodeUnavailable "approval_lifecycle_unavailable" false NoCause /\
  routeStatusForCode routeCodeUnavailable = routeFailed.
Proof. intros H. unfold mapRouteContext. cbn. by rewrite H. Qed.
End theorems.
