(* ===== verification/RouteExample.v ===== *)
(** * Tool routes: a concrete action, routed

    The signed action and the gate of PreDispatchExample.v behind an
    in-memory store of routes: submissions that race, crash and are repeated. *)

From S2P Require Import Prelude GoStrings GoRegexp GoTime GoBase64 GoJson DomainContract Sha256 Domain GoStruct GoCodec EStop EStopController EStopStore EStopFacts EStopTheorems EStopExample ToolRoute Authority TamperAudit Policy ActionManifest Storage ApprovalLifecycle ApprovalLifecycleFacts ApprovalCodec ApprovalBroker ApprovalBrokerExample ApprovalFingerprintFacts ApprovalBinding PreDispatch PreDispatchFacts PreDispatchExample LeaseFacts LeaseSafety RouteRecord RouteBroker RouteSafety RouteTheorems RouteCompose.

Local Open Scope string_scope.
Local Open Scope Z_scope.

Record rx_world : Type := mkRxWorld {
  rx_gate : bx_world; rx_routes : gmap (CaseRef * string) toolRouteRecord; rx_calls : list ToolIntent;
  rx_events : list TamperAudit.Event; rx_stops : MemoryStore }.

Definition rx_set (routes : gmap (CaseRef * string) toolRouteRecord) (w : rx_world) : rx_world :=
  mkRxWorld (rx_gate w) routes (rx_calls w) (rx_events w) (rx_stops w).

#[export] Instance rx_store : RouteStore rx_world := {|
  route_lookup ctx c id w :=
    (Ok match rx_routes w !! (c, id) with Some r => (r, true) | None => (mkRoute "" "" c "" "" "" "" "" "" "" 0 "" "" 0 "" 0 "" "" "" "" zero_receipt "" "" "" zero_time zero_time 0, false) end, w);
  route_begin ctx key candidate w :=
    match rx_routes w !! location candidate with
    | Some r => (Ok (r, true), w)
    | None => (Ok (candidate, false), rx_set (<[location candidate := candidate]> (rx_routes w)) w)
    end;
  route_save ctx key prior next w :=
    if bool_decide (rx_routes w !! location prior = Some prior)
    then (Ok next, rx_set (<[location next := next]> (rx_routes w)) w) else (Err (EOther []), w) |}.

Definition rx_case : CaseRef := mkCaseRef (ax_id "2") (ax_id "3") (ax_id "4").
Definition rx_intent : ToolIntent := mkIntent (ax_id "2") rx_case "edr" "isolate.host" ax_digest ax_digest.
Definition rx_digest : string := match ToolRoute.Digest rx_intent with Ok d => d | Err _ => "" end.

(** The emergency stop of the same world *)
#[export] Instance rx_memory : HasMemory rx_world.
Proof.
  refine {| memory := rx_stops; set_memory m w := mkRxWorld (rx_gate w) (rx_routes w) (rx_calls w) (rx_events w) m |}. done.
Defined.

#[export] Instance rx_stop_ports : StopPorts rx_world := {|
  StopNow w := (ex_now, w); AppendEmergencyStopDecision d w := (Ok tt, w); AuditDeadline w := None |}.

#[export] Instance rx_memory_ports : MemoryPorts rx_world.
Proof. by split. Qed.

#[export] Instance rx_ports : RoutePorts rx_world := {|
  resolveToolRoute ctx intent digest w := (Ok dx_command, w);
  route_Looks ctx w := hx_live;
  route_ed25519 := hx_ed25519;
  route_authorize ctx command := calls (fun w =>
    let '(answer, g) := authorize bx_ctx command (rx_gate w) in
    (answer, mkRxWorld g (rx_routes w) (rx_calls w) (rx_events w) (rx_stops w)));
  route_Allow ctx o t c := stop_guard ctx o t c;
  Dispatch ctx intent w :=
    (Ok (mkReceipt rx_digest "succeeded" (mkArtifactRef ax_digest "application/json" "restricted" 42)),
     mkRxWorld (rx_gate w) (rx_routes w) (rx_calls w ++ [intent])%list (rx_events w) (rx_stops w));
  route_AppendAuditEvent event w :=
    (Ok tt, mkRxWorld (rx_gate w) (rx_routes w) (rx_calls w) (rx_events w ++ [event])%list (rx_stops w));
  RouteNow w := (bx_now, w);
  PersistDeadline w := None |}.

Definition rx_ctx : context rx_world := Some (fun _ => None).
Definition rx_identity : toolRouteIdentity := mkIdentity (ax_id "5") 1.
Definition rx_start : rx_world := mkRxWorld dx_world ∅ [] [] NewMemoryStore.

(** The first process crashes when the connector has been called; the second one submits again. *)
Definition rx_processes : list (process (W := rx_world)) :=
  [([TaskSubmit rx_identity rx_ctx rx_intent], repeat 0%nat 19); ([TaskSubmit rx_identity rx_ctx rx_intent], repeat 0%nat 30)].

Definition rx_end : rx_world := run_processes rx_processes rx_start.

(** One call, a record that is decided, and an event for the dispatch and for its end *)
Definition rx_expected (w : rx_world) : bool :=
  bool_decide (rx_calls w = [rx_intent]) &&
  match rx_routes w !! intent_location rx_intent with
  | Some r => String.eqb (tr_Status r) routeUncertain && is_set (tr_DispatchAuditID r)
  | None => false
  end && Nat.eqb (length (rx_events w)) 2.

Lemma rx_result : rx_expected rx_end = true.
Proof. vm_compute. reflexivity. Qed.

(** ** The laws *)

Definition rx_apart (w w' : rx_world) : Prop := (forall l, rx_routes w' !! l = rx_routes w !! l) /\ rx_calls w' = rx_calls w.

Lemma rx_guard ctx o t c : every_call rx_apart (stop_guard ctx o t c).
Proof.
  apply stop_guard_every; [by split|]. intros w. cbn. unfold locked. destruct (stop_ctx_err ctx w); [by split|].
  by destruct (effective_locked _ o t c).
Qed.

#[export] Instance rx_laws : RouteLaws rx_world.
Proof.
  refine {| route_at w l := rx_routes w !! l; dispatched := rx_calls |}; cbn.
  - done.
  - intros ctx c id w r found w'. by destruct (rx_routes w !! (c, id)) as [r0|]; intros [= <- <- <-].
  - intros ctx key candidate w. destruct (rx_routes w !! location candidate) as [r|] eqn:Hr.
    + left. split; [done|]. intros r0 found [= <- <-]. done.
    + right. split; [done|]. split; [|by intros r0 found [= <- _]]. split; [apply lookup_insert_eq|]. split; [|done].
      intros l Hl. by apply lookup_insert_ne.
  - intros ctx key prior next w Ht. case_bool_decide as Hp; [right|by left]. split; [done|]. split; [|by intros r [= <-]].
    split; [apply lookup_insert_eq|]. split; [|done]. intros l Hl. by apply lookup_insert_ne.
  - done.
  - done.
  - intros ctx command. split; [|done]. intros w. by destruct (authorize bx_ctx command (rx_gate w)).
  - exact rx_guard.
  - done.
  - done.
Defined.

Lemma rx_end_is : rx_end = run_processes rx_processes rx_start.
Proof. reflexivity. Qed.

#[local] Opaque authorize Submit rx_end run_processes.

(** ** Witnesses *)

Lemma rx_behaved : well_behaved rx_processes.
Proof. by repeat constructor. Qed.

Lemma rx_start_ok : in_order rx_start.
Proof.
  split; [|constructor]. split.
  - intros l r H. change (@lookup _ _ (gmap (CaseRef * string) toolRouteRecord) _ l ∅ = Some r) in H. by rewrite lookup_empty in H.
  - intros intent Hin. change (intent ∈ @nil ToolIntent) in Hin. by apply elem_of_nil in Hin.
Qed.

Lemma rx_end_ok : in_order rx_end.
Proof. rewrite rx_end_is. by destruct (run_processes_ok rx_processes rx_start rx_behaved rx_start_ok) as (_ & _ & H). Qed.

Lemma rx_end_calls : dispatched rx_end = [rx_intent].
Proof.
  pose proof rx_result as H. unfold rx_expected in H. apply andb_prop in H as [H _]. apply andb_prop in H as [H _]. exact (bool_decide_eq_true_1 _ H).
Qed.

Lemma rx_end_called : rx_intent ∈ dispatched rx_end.
Proof. rewrite rx_end_calls. by apply list_elem_of_singleton. Qed.

Lemma rx_end_route : exists r, route_at rx_end (intent_location rx_intent) = Some r /\ tr_Status r = routeUncertain /\
  is_set (tr_DispatchAuditID r) = true.
Proof.
  pose proof rx_result as H. unfold rx_expected in H. apply andb_prop in H as [H _]. apply andb_prop in H as [_ H].
  change (route_at rx_end (intent_location rx_intent)) with (rx_routes rx_end !! intent_location rx_intent).
  destruct (rx_routes rx_end !! intent_location rx_intent) as [r|]; [|done]. apply andb_true_iff in H as [Hs%String.eqb_eq Ha]. by exists r.
Qed.

Lemma connector_is_called_once_witness : dispatched rx_end = [rx_intent] /\ NoDup (map intent_location (dispatched rx_end)).
Proof. split; [exact rx_end_calls|]. rewrite rx_end_is. exact (connector_is_called_once rx_processes rx_start rx_behaved rx_start_ok). Defined.

Lemma connector_calls_are_uses_of_signed_approvals_witness : exists t a, approved_call (gate := dx_gate) rx_intent a t.
Proof.
  destruct (connector_calls_are_uses_of_signed_approvals (ports := rx_ports) (laws := rx_laws) (observed := hx_observed) (backed := hx_backed) (gate := dx_gate)
    rx_gate (fun g w => mkRxWorld g (rx_routes w) (rx_calls w) (rx_events w) (rx_stops w)) (fun _ => bx_ctx)
    (fun _ _ => eq_refl) (fun _ _ _ => eq_refl)) with (processes := rx_processes) (w := rx_start) (intent := rx_intent)
    as (t & r & a & H & _).
  - intros ctx intent digest w command w' [= <- <-]. split; unfold is_u64, is_u32; cbn; lia.
  - exact rx_behaved.
  - exact rx_start_ok.
  - rewrite <- rx_end_is. exact rx_end_called.
  - exists t, a. exact H.
Defined.

Lemma routes_follow_the_state_machine_witness : exists r r', route_at (run_processes rx_processes rx_end) (intent_location rx_intent) = Some r' /\
  tr_Status r = routeUncertain /\ later_route r r'.
Proof.
  destruct rx_end_route as (r & Hr & Hs & _).
  destruct (routes_follow_the_state_machine rx_processes rx_end _ r rx_behaved rx_end_ok Hr) as (r' & Hr' & Hl & _).
  exists r, r'. exact (conj Hr' (conj Hs Hl)).
Defined.

Lemma interrupted_routes_are_not_dispatched_witness : rx_intent ∈ dispatched rx_end.
Proof.
  destruct rx_end_route as (r & Hr & _ & Hs). apply (interrupted_routes_are_not_dispatched rx_processes rx_end rx_intent r rx_behaved rx_end_ok Hr Hs).
  destruct (run_processes_ok rx_processes rx_end rx_behaved rx_end_ok) as (_ & [l ->] & _). apply elem_of_app. left. exact rx_end_called.
Defined.

Lemma resubmissions_settle_witness : exists answer w', run_alone (Submit rx_identity rx_ctx rx_intent) rx_end = (answer, w') /\
  dispatched w' = [rx_intent].
Proof.
  destruct rx_end_route as (r & Hr & Hs & _).
  destruct (run_alone (Submit rx_identity rx_ctx rx_intent) rx_end) as [answer w'] eqn:Hrun. exists answer, w'. split; [reflexivity|].
  destruct (resubmissions_settle rx_identity (fun _ => None) rx_intent rx_end r answer w' (proj1 rx_end_ok) Hr) as [Hd _].
  - left. rewrite Hs. reflexivity.
  - exact Hrun.
  - rewrite Hd. exact rx_end_calls.
Defined.

(** The same world with a stop *)
Definition rx_halted : rx_world := mkRxWorld dx_world ∅ [] [] ex_stopped.

Lemma rx_leaves_stops : leaves_stops (W := rx_world).
Proof.
  assert (Hsame : forall w w' : rx_world, rx_stops w' = rx_stops w -> keeps w w') by (intros w w' E; unfold keeps; cbn; by rewrite E).
  split; intros; try (by apply Hsame).
  - apply Hsame. cbn. by destruct (rx_routes w !! location candidate).
  - apply Hsame. cbn. by case_bool_decide.
  - apply respects_calls. intros w. apply Hsame. by destruct (authorize bx_ctx command (rx_gate w)).
Qed.

Lemma stopped_cases_are_not_dispatched_witness : exists calls, dispatched (run_processes rx_processes rx_halted) = calls /\
  rx_intent ∉ calls.
Proof.
  destruct (stopped_cases_are_not_dispatched (ports := rx_ports) (laws := rx_laws) (stops := memory_store) rx_processes rx_halted ex_scope (fun _ _ _ _ => eq_refl) rx_leaves_stops)
    as (calls & Hd & Hc).
  - repeat constructor.
  - exact ex_stopped_ok.
  - exact ex_stopped_scope.
  - exists calls. split; [exact Hd|]. intros Hin. rewrite List.Forall_forall in Hc. apply (Hc rx_intent); [by apply list_elem_of_In|].
    left. reflexivity.
Defined.
