(* ===== verification/AgentLoop.v ===== *)
(** * internal/workflow/agentloop: runs, steps and their rules

    A run of the agent is a sequence of steps, planning or one authorized action each, whose
    durable snapshots move along a state machine ([types.go], [validate.go], [outcomes.go],
    [canonical.go], [errors.go], [budget_errors.go]). *)

From S2P Require Import Prelude GoStrings GoRegexp GoTime GoJson DomainContract Sha256 Domain GoStruct GoCodec RunBudget Storage EStop ToolRoute Authority Policy ApprovalBroker.

Local Open Scope string_scope.
Local Open Scope Z_scope.

(** ** types.go *)

Definition ContractVersion : string := "coh.agent-loop/v1".
Definition WorkflowDefinition : string := "coh.agent-loop.v1".
Definition WorkflowVersion : string := "1.0.0".

Definition RunRunning : string := "running".
Definition RunWaiting : string := "waiting".
Definition RunSucceeded : string := "succeeded".
Definition RunFailed : string := "failed".
Definition RunDenied : string := "denied".
Definition RunCanceled : string := "canceled".
Definition RunTimeout : string := "timeout".
Definition RunUncertain : string := "uncertain".

Definition StepPending : string := "pending".
Definition StepRunning : string := "running".
Definition StepDispatching : string := "dispatching".
Definition StepSucceeded : string := "succeeded".
Definition StepFailed : string := "failed".
Definition StepDenied : string := "denied".
Definition StepCanceled : string := "canceled".
Definition StepTimeout : string := "timeout".
Definition StepUncertain : string := "uncertain".

Definition PlanningActivity : string := "planning".
Definition AuthorizedActionActivity : string := "authorized_action".

(** The slices of a stored snapshot are never nil: every snapshot is cloned. *)
Record Run : Type := mkRun {
  ru_ContractVersion : string; ru_RunID : string; ru_Case : CaseRef; ru_ActorID : string; ru_WorkflowVersion : string;
  ru_PolicyDigest : string; ru_ProviderRoute : string; ru_BudgetPlanDigest : string; ru_Status : string;
  ru_CurrentStepID : string; ru_Sequence : Z; ru_InputRefs : list string; ru_OutputRefs : list string;
  ru_ProvenanceDigest : string; ru_CreatedAt : Time; ru_UpdatedAt : Time; ru_Revision : Z }.

Record Step : Type := mkStep {
  sp_ContractVersion : string; sp_StepID : string; sp_RunID : string; sp_Case : CaseRef; sp_Kind : string;
  sp_Status : string; sp_Attempt : Z; sp_Deadline : Time; sp_InputRefs : list string; sp_OutputRefs : list string;
  sp_IntentDigest : string; sp_ReceiptDigest : string; sp_BudgetReservationDigest : string;
  sp_BudgetSettlementDigest : string; sp_ProvenanceDigest : string; sp_CreatedAt : Time; sp_UpdatedAt : Time;
  sp_Revision : Z }.

Record Snapshot : Type := mkSnapshot { sn_Run : Run; sn_Step : Step; sn_Replayed : bool }.

#[export] Instance Run_eq_dec : EqDecision Run.
Proof. solve_decision. Defined.
#[export] Instance Step_eq_dec : EqDecision Step.
Proof. solve_decision. Defined.
#[export] Instance Snapshot_eq_dec : EqDecision Snapshot.
Proof. solve_decision. Defined.

Definition zero_case : CaseRef := mkCaseRef "" "" "".
Definition zero_run : Run := mkRun "" "" zero_case "" "" "" "" "" "" "" 0 [] [] "" zero_time zero_time 0.
Definition zero_step : Step := mkStep "" "" "" zero_case "" "" 0 zero_time [] [] "" "" "" "" "" zero_time zero_time 0.
Definition zero_snapshot : Snapshot := mkSnapshot zero_run zero_step false.

Record StartRequest : Type := mkStartRequest {
  st_IdempotencyKey : string; st_RunID : string; st_StepID : string; st_Case : CaseRef; st_ActorID : string;
  st_PolicyDigest : string; st_ProviderRoute : string; st_Activity : string; st_InputRefs : slice string;
  st_IntentDigest : string; st_Deadline : Time; st_BudgetPlan : option Plan; st_TaskBudget : Vector;
  st_BudgetClaim : Vector }.

Record ExecuteRequest : Type := mkExecuteRequest {
  ex_IdempotencyKey : string; ex_Case : CaseRef; ex_RunID : string; ex_StepID : string; ex_Intent : option ToolIntent }.

Record ScheduleRequest : Type := mkScheduleRequest {
  sc_IdempotencyKey : string; sc_Case : CaseRef; sc_RunID : string; sc_StepID : string; sc_Activity : string;
  sc_InputRefs : slice string; sc_IntentDigest : string; sc_Deadline : Time; sc_BudgetParentTaskID : string;
  sc_TaskBudget : Vector; sc_BudgetClaim : Vector }.

Record CompleteRequest : Type := mkCompleteRequest { co_IdempotencyKey : string; co_Case : CaseRef; co_RunID : string }.

Record ResumeRequest : Type := mkResumeRequest {
  re_IdempotencyKey : string; re_Case : CaseRef; re_RunID : string; re_Intent : option ToolIntent }.

Record TerminateRequest : Type := mkTerminateRequest {
  te_IdempotencyKey : string; te_Case : CaseRef; te_RunID : string; te_StepID : string; te_Outcome : string;
  te_ReasonDigest : string }.

(** ** errors.go *)

Inductive ErrorCode : Type := InvalidInput | Denied | NotFound | Conflict | Canceled | Timeout | Unavailable | Internal.

#[export] Instance ErrorCode_eq_dec : EqDecision ErrorCode.
Proof. solve_decision. Defined.

(** An error of this package and what it wraps.  Of an error that a model provider or the action
    authority returns, the code asks whether it is or wraps one of this package, a canceled or an
    expired context, and what its methods [ActivityOutcome] and [DispatchIndeterminate] say. *)
Inductive Error : Type :=
| newError (code : ErrorCode) (operation reason : string) (retryable : bool) (cause : error_cause)
with error_cause : Type :=
| NoCause
| CauseContext (reason : done_reason)
| CauseBudget (err : RunBudget.go_error)
| CauseStorage (err : storage_error)
| CauseActivity (err : activity_error)
with activity_error : Type :=
| mkActivityError (own : option Error) (canceled deadline : bool) (outcome : option string) (dispatch : option (string * bool)).

Definition own (err : Error) : activity_error := mkActivityError (Some err) false false None None.

Definition err_Code (err : Error) : ErrorCode := let '(newError code _ _ _ _) := err in code.
Definition err_Reason (err : Error) : string := let '(newError _ _ reason _ _) := err in reason.

Definition Code (err : activity_error) : ErrorCode :=
  let '(mkActivityError loopError canceled deadline _ _) := err in
  match loopError with
  | Some loopError => err_Code loopError
  | None => if canceled : bool then Canceled else if deadline : bool then Timeout else Unavailable
  end.

Definition Reason (err : activity_error) : string :=
  let '(mkActivityError loopError _ _ _ _) := err in
  match loopError with Some loopError => err_Reason loopError | None => "activity_unavailable" end.

Definition ActivityOutcome (err : activity_error) : option string := let '(mkActivityError _ _ _ outcome _) := err in outcome.
Definition Dispatch_class (err : activity_error) : option (string * bool) := let '(mkActivityError _ _ _ _ dispatch) := err in dispatch.

(** *** budget_errors.go *)

Definition mapBudgetError (operation : string) (err : RunBudget.go_error) : Error :=
  let reason := ErrorReason err in
  match RunBudget.ErrorCode err with
  | RunBudget.InvalidInput => newError InvalidInput operation reason false NoCause
  | RunBudget.Denied => newError Denied operation reason false NoCause
  | RunBudget.Conflict => newError Conflict operation reason (Retryable err) NoCause
  | RunBudget.Canceled => newError Canceled operation reason false (CauseBudget err)
  | RunBudget.Timeout => newError Timeout operation reason false (CauseBudget err)
  | RunBudget.Internal => newError Internal operation reason false NoCause
  | _ => newError Unavailable operation reason (Retryable err) NoCause
  end.

(** ** validate.go *)

Definition maximumReferences : nat := 128.

(** [sort.StringsAreSorted], and no reference twice *)
Fixpoint strictly_sorted (values : list string) : bool :=
  match values with
  | a :: ((b :: _) as rest) => String.ltb a b && strictly_sorted rest
  | _ => true
  end.

Definition validateReferences (values : list string) : bool :=
  Nat.leb (length values) maximumReferences && strictly_sorted values && forallb digestPattern values.

Definition validateActivity (kind intentDigest : string) : bool :=
  if String.eqb kind PlanningActivity then String.eqb intentDigest ""
  else if String.eqb kind AuthorizedActionActivity then digestPattern intentDigest
  else false.

Definition validateStart (request : StartRequest) (now : Time) : result Error unit :=
  deny_if (String.eqb (st_IdempotencyKey request) "" || negb (Domain.validOpaque (st_IdempotencyKey request) 256) ||
           negb (uuidPattern (st_RunID request)) || negb (uuidPattern (st_StepID request)) ||
           negb (validCase (st_Case request)) || negb (uuidPattern (st_ActorID request)) ||
           negb (digestPattern (st_PolicyDigest request)) || negb (tokenPattern (st_ProviderRoute request)) ||
           negb (validateActivity (st_Activity request) (st_IntentDigest request)) ||
           negb (validateReferences (items (st_InputRefs request))) || negb (is_utc (st_Deadline request)) ||
           negb (before now (st_Deadline request)))
    (newError InvalidInput "start" "start_request_invalid" false NoCause).

Definition validateExecute (request : ExecuteRequest) : result Error unit :=
  deny_if (negb (Domain.validOpaque (ex_IdempotencyKey request) 256) || negb (validCase (ex_Case request)) ||
           negb (uuidPattern (ex_RunID request)) || negb (uuidPattern (ex_StepID request)))
    (newError InvalidInput "execute" "execute_request_invalid" false NoCause).

Definition validateSchedule (request : ScheduleRequest) (now : Time) : result Error unit :=
  deny_if (negb (Domain.validOpaque (sc_IdempotencyKey request) 256) || negb (validCase (sc_Case request)) ||
           negb (uuidPattern (sc_RunID request)) || negb (uuidPattern (sc_StepID request)) ||
           negb (validateActivity (sc_Activity request) (sc_IntentDigest request)) ||
           negb (validateReferences (items (sc_InputRefs request))) || negb (is_utc (sc_Deadline request)) ||
           negb (before now (sc_Deadline request)))
    (newError InvalidInput "schedule" "schedule_request_invalid" false NoCause).

Definition terminal_outcomes : list string := ["failed"; "denied"; "canceled"; "timeout"; "uncertain"].

Definition validateTerminate (request : TerminateRequest) : result Error unit :=
  deny_if (negb (Domain.validOpaque (te_IdempotencyKey request) 256) || negb (validCase (te_Case request)) ||
           negb (uuidPattern (te_RunID request)) || negb (uuidPattern (te_StepID request)) ||
           negb (digestPattern (te_ReasonDigest request)))
    (newError InvalidInput "terminate" "terminate_request_invalid" false NoCause) ;;
  deny_if (negb (existsb (String.eqb (te_Outcome request)) terminal_outcomes))
    (newError InvalidInput "terminate" "terminate_outcome_invalid" false NoCause).

Definition validTimes (created updated : Time) : bool :=
  negb (is_zero created) && negb (is_zero updated) && is_utc created && is_utc updated && negb (before updated created).

Definition run_statuses : list string :=
  [RunRunning; RunWaiting; RunSucceeded; RunFailed; RunDenied; RunCanceled; RunTimeout; RunUncertain].
Definition step_statuses : list string :=
  [StepPending; StepRunning; StepDispatching; StepSucceeded; StepFailed; StepDenied; StepCanceled; StepTimeout; StepUncertain].

Definition terminalRun (status : string) : bool :=
  String.eqb status RunSucceeded || String.eqb status RunFailed || String.eqb status RunDenied ||
  String.eqb status RunCanceled || String.eqb status RunTimeout || String.eqb status RunUncertain.

Definition terminalStep (status : string) : bool :=
  String.eqb status StepSucceeded || String.eqb status StepFailed || String.eqb status StepDenied ||
  String.eqb status StepCanceled || String.eqb status StepTimeout || String.eqb status StepUncertain.

Definition state_error (reason : string) : Error := newError Denied "state" reason false NoCause.

Definition validateRun (value : Run) : result Error unit :=
  deny_if (negb (String.eqb (ru_ContractVersion value) ContractVersion) || negb (uuidPattern (ru_RunID value)) ||
           negb (validCase (ru_Case value)) || negb (uuidPattern (ru_ActorID value)) ||
           negb (String.eqb (ru_WorkflowVersion value) WorkflowVersion) || negb (digestPattern (ru_PolicyDigest value)) ||
           negb (tokenPattern (ru_ProviderRoute value)) || negb (digestPattern (ru_BudgetPlanDigest value)) ||
           negb (uuidPattern (ru_CurrentStepID value)) || (ru_Sequence value =? 0) ||
           negb (validateReferences (ru_InputRefs value)) || negb (validateReferences (ru_OutputRefs value)) ||
           negb (digestPattern (ru_ProvenanceDigest value)) ||
           negb (validTimes (ru_CreatedAt value) (ru_UpdatedAt value)) || (ru_Revision value =? 0))
    (state_error "run_record_invalid") ;;
  deny_if (negb (existsb (String.eqb (ru_Status value)) run_statuses)) (state_error "run_status_invalid").

Definition optional (text : string) : bool := String.eqb text "" || digestPattern text.

Definition validateStep (value : Step) : result Error unit :=
  deny_if (negb (String.eqb (sp_ContractVersion value) ContractVersion) || negb (uuidPattern (sp_StepID value)) ||
           negb (uuidPattern (sp_RunID value)) || negb (validCase (sp_Case value)) ||
           negb (validateActivity (sp_Kind value) (sp_IntentDigest value)) || (sp_Attempt value =? 0) ||
           (1000 <? sp_Attempt value) || negb (is_utc (sp_Deadline value)) ||
           negb (validateReferences (sp_InputRefs value)) || negb (validateReferences (sp_OutputRefs value)) ||
           negb (digestPattern (sp_BudgetReservationDigest value)) || negb (optional (sp_BudgetSettlementDigest value)) ||
           negb (digestPattern (sp_ProvenanceDigest value)) ||
           negb (validTimes (sp_CreatedAt value) (sp_UpdatedAt value)) || (sp_Revision value =? 0))
    (state_error "step_record_invalid") ;;
  deny_if (negb (optional (sp_ReceiptDigest value))) (state_error "step_receipt_invalid") ;;
  deny_if (negb (existsb (String.eqb (sp_Status value)) step_statuses)) (state_error "step_status_invalid") ;;
  deny_if (negb (terminalStep (sp_Status value)) && negb (String.eqb (sp_BudgetSettlementDigest value) ""))
    (state_error "step_budget_settlement_invalid").

Definition validStatusBinding (run step : string) : bool :=
  if existsb (String.eqb step) [StepPending; StepRunning; StepDispatching] then String.eqb run RunRunning
  else if String.eqb step StepSucceeded then String.eqb run RunWaiting || String.eqb run RunSucceeded
  else if String.eqb step StepFailed then String.eqb run RunFailed
  else if String.eqb step StepDenied then String.eqb run RunDenied
  else if String.eqb step StepCanceled then String.eqb run RunCanceled
  else if String.eqb step StepTimeout then String.eqb run RunTimeout
  else if String.eqb step StepUncertain then String.eqb run RunUncertain
  else false.

Definition validateSnapshot (value : Snapshot) : result Error unit :=
  let run := sn_Run value in
  let step := sn_Step value in
  validateRun run ;;
  validateStep step ;;
  deny_if (negb (bool_decide (ru_Case run = sp_Case step)) || negb (String.eqb (ru_RunID run) (sp_RunID step)) ||
           negb (String.eqb (ru_CurrentStepID run) (sp_StepID step)) ||
           negb (bool_decide (ru_UpdatedAt run = sp_UpdatedAt step)) ||
           negb (String.eqb (ru_ProvenanceDigest run) (sp_ProvenanceDigest step)) ||
           negb (validStatusBinding (ru_Status run) (sp_Status step)))
    (state_error "snapshot_binding_invalid").

Definition validInitialSnapshot (value : Snapshot) : bool :=
  let run := sn_Run value in
  let step := sn_Step value in
  (ru_Revision run =? 1) && (sp_Revision step =? 1) && (ru_Sequence run =? 1) && String.eqb (ru_Status run) RunRunning &&
  String.eqb (sp_Status step) StepPending && (sp_Attempt step =? 1) && bool_decide (ru_CreatedAt run = ru_UpdatedAt run) &&
  bool_decide (sp_CreatedAt step = sp_UpdatedAt step) && bool_decide (ru_CreatedAt run = sp_CreatedAt step) &&
  bool_decide (ru_OutputRefs run = []) && bool_decide (sp_OutputRefs step = []) &&
  String.eqb (sp_ReceiptDigest step) "" && String.eqb (sp_BudgetSettlementDigest step) "".

Definition oneOfStep (value : string) (choices : list string) : bool := existsb (String.eqb value) choices.

(** [slices.BinarySearch] halves the range as [contains] does. *)
Definition referenceSubset (prior next : list string) : bool := forallb (contains next) prior.

Definition legalStepTransition (prior next : Step) : bool :=
  let same := sp_Attempt next =? sp_Attempt prior in
  let s := sp_Status prior in
  if (sp_Attempt next <? sp_Attempt prior) || (u32 (sp_Attempt prior + 1) <? sp_Attempt next) then false
  else if String.eqb s StepPending then
    same && oneOfStep (sp_Status next) [StepRunning; StepDispatching; StepFailed; StepDenied; StepCanceled; StepTimeout]
  else if String.eqb s StepRunning then
    if String.eqb (sp_Status next) StepRunning then sp_Attempt next =? u32 (sp_Attempt prior + 1)
    else same && oneOfStep (sp_Status next) [StepSucceeded; StepFailed; StepDenied; StepCanceled; StepTimeout]
  else if String.eqb s StepDispatching then
    same && oneOfStep (sp_Status next) [StepSucceeded; StepFailed; StepDenied; StepCanceled; StepTimeout; StepUncertain]
  else if String.eqb s StepSucceeded then
    same && oneOfStep (sp_Status next) [StepSucceeded; StepFailed; StepDenied; StepCanceled; StepTimeout]
  else if oneOfStep s [StepFailed; StepDenied; StepCanceled; StepTimeout; StepUncertain] then same && String.eqb (sp_Status next) s
  else false.

(** What no transition of a run may change *)
Definition run_binding (run : Run) :=
  (ru_ContractVersion run, ru_Case run, ru_RunID run, ru_ActorID run, ru_WorkflowVersion run, ru_PolicyDigest run,
   ru_ProviderRoute run, ru_BudgetPlanDigest run, ru_CreatedAt run, ru_InputRefs run).

(** And of a step *)
Definition step_binding (step : Step) :=
  (sp_ContractVersion step, sp_RunID step, sp_Case step, sp_Kind step, sp_Deadline step, sp_IntentDigest step,
   sp_BudgetReservationDigest step, sp_CreatedAt step, sp_InputRefs step).

Definition save_error (reason : string) : Error := newError Denied "save" reason false NoCause.

Definition validateSchedule_transition (prior next : Snapshot) : result Error unit :=
  let run := sn_Run prior in
  let step := sn_Step next in
  deny_if (negb (String.eqb (ru_Status run) RunWaiting) || negb (String.eqb (sp_Status (sn_Step prior)) StepSucceeded) ||
           negb (String.eqb (ru_Status (sn_Run next)) RunRunning) ||
           String.eqb (sp_BudgetSettlementDigest (sn_Step prior)) "" || negb (String.eqb (sp_Status step) StepPending) ||
           negb (sp_Attempt step =? 1) || negb (String.eqb (sp_ReceiptDigest step) "") ||
           negb (String.eqb (sp_BudgetSettlementDigest step) "") || negb (digestPattern (sp_BudgetReservationDigest step)) ||
           negb (bool_decide (sp_OutputRefs step = [])) || negb (String.eqb (sp_RunID step) (ru_RunID run)) ||
           negb (bool_decide (sp_Case step = ru_Case run)) || before (sp_CreatedAt step) (sp_UpdatedAt (sn_Step prior)) ||
           negb (bool_decide (ru_OutputRefs run = ru_OutputRefs (sn_Run next))))
    (save_error "step_schedule_transition_invalid").

Definition validateStep_transition (prior next : Step) : result Error unit :=
  deny_if (negb (bool_decide (step_binding prior = step_binding next)) || before (sp_UpdatedAt next) (sp_UpdatedAt prior) ||
           negb (referenceSubset (sp_OutputRefs prior) (sp_OutputRefs next)) || negb (legalStepTransition prior next))
    (save_error "step_transition_invalid") ;;
  deny_if (negb (String.eqb (sp_BudgetSettlementDigest prior) (sp_BudgetSettlementDigest next)) &&
           (negb (String.eqb (sp_BudgetSettlementDigest prior) "") || negb (digestPattern (sp_BudgetSettlementDigest next)) ||
            negb (terminalStep (sp_Status prior)) || negb (String.eqb (sp_Status prior) (sp_Status next))))
    (save_error "step_budget_transition_invalid").

Definition validateTransition (prior next : Snapshot) : result Error unit :=
  deny_if (negb (bool_decide (run_binding (sn_Run prior) = run_binding (sn_Run next))) ||
           before (ru_UpdatedAt (sn_Run next)) (ru_UpdatedAt (sn_Run prior)) ||
           String.eqb (ru_ProvenanceDigest (sn_Run prior)) (ru_ProvenanceDigest (sn_Run next)) ||
           negb (referenceSubset (ru_OutputRefs (sn_Run prior)) (ru_OutputRefs (sn_Run next))))
    (save_error "run_transition_invalid") ;;
  if String.eqb (sp_StepID (sn_Step prior)) (sp_StepID (sn_Step next))
  then validateStep_transition (sn_Step prior) (sn_Step next)
  else validateSchedule_transition prior next.

(** ** outcomes.go *)

Definition planningFailure (ended : option done_reason) (err : activity_error) : string * string * Error :=
  match ended with
  | Some DoneCanceled =>
      (StepCanceled, RunCanceled, newError Canceled "activity" "context_canceled" false (CauseContext DoneCanceled))
  | Some DoneDeadlineExceeded =>
      (StepTimeout, RunTimeout, newError Timeout "activity" "context_deadline" false (CauseContext DoneDeadlineExceeded))
  | None =>
      if bool_decide (Code err = Denied) ||
         match ActivityOutcome err with
         | Some outcome => String.eqb outcome "denied" || String.eqb outcome "invalid_input"
         | None => false
         end
      then (StepDenied, RunDenied, newError Denied "activity" "activity_output_denied" false NoCause)
      else (StepFailed, RunFailed, newError Unavailable "activity" "planning_unavailable" true NoCause)
  end.

(** The statuses and the error, when the outcome is definitive *)
Definition actionFailure (err : activity_error) : option (string * string * Error) :=
  match Dispatch_class err with
  | Some (outcome, false) =>
      if String.eqb outcome "denied" || String.eqb outcome "invalid_input"
      then Some (StepDenied, RunDenied, newError Denied "authorized_action" "broker_denied" false NoCause)
      else if String.eqb outcome "canceled"
      then Some (StepCanceled, RunCanceled, newError Canceled "authorized_action" "broker_canceled" false (CauseActivity err))
      else if String.eqb outcome "timeout"
      then Some (StepTimeout, RunTimeout, newError Timeout "authorized_action" "broker_timeout" false (CauseActivity err))
      else if String.eqb outcome "failed" || String.eqb outcome "unavailable"
      then Some (StepFailed, RunFailed, newError Unavailable "authorized_action" "broker_unavailable" true NoCause)
      else None
  | _ => None
  end.

Definition validArtifact (value : ArtifactRef) : bool :=
  digestPattern (ar_Digest value) && Domain.validOpaque (ar_MediaType value) 256 &&
  tokenPattern (ar_Classification value) && (0 <=? ar_Length value).

Definition validReceipt (value : ActionReceipt) (intentDigest : string) : bool := is_ok (ToolRoute.ValidateReceipt value intentDigest).

Definition receiptStatuses (outcome : string) : string * string :=
  if String.eqb outcome "succeeded" then (StepSucceeded, RunWaiting)
  else if String.eqb outcome "denied" then (StepDenied, RunDenied)
  else if String.eqb outcome "canceled" then (StepCanceled, RunCanceled)
  else if String.eqb outcome "timeout" then (StepTimeout, RunTimeout)
  else if String.eqb outcome "failed" then (StepFailed, RunFailed)
  else (StepUncertain, RunUncertain).

Definition terminalStatuses (outcome : string) : string * string :=
  if String.eqb outcome "failed" then (StepFailed, RunFailed)
  else if String.eqb outcome "denied" then (StepDenied, RunDenied)
  else if String.eqb outcome "canceled" then (StepCanceled, RunCanceled)
  else if String.eqb outcome "timeout" then (StepTimeout, RunTimeout)
  else (StepUncertain, RunUncertain).

Definition sortedReferences (values : list string) : list string := sort_strings values.

Definition mergeReferences (left right : list string) : list string := compact (sort_strings (left ++ right)%list).

Definition budgetOutcome (status : string) : string :=
  if String.eqb status StepSucceeded then "succeeded"
  else if String.eqb status StepDenied then "denied"
  else if String.eqb status StepCanceled then "canceled"
  else if String.eqb status StepTimeout then "timeout"
  else if String.eqb status StepUncertain then "uncertain"
  else "failed".

(** ** canonical.go *)

Definition provenanceDomain : string := "COH-AGENT-LOOP-PROVENANCE-V1" ++ String NUL "".
Definition receiptDomain : string := "COH-AGENT-LOOP-RECEIPT-V1" ++ String NUL "".

Definition canonicalValue (value : json) : result Error string :=
  or_err (Canonicalize (marshal true value)) (newError InvalidInput "canonical" "value_not_canonicalizable" false NoCause).

Definition digestBytes (domain value : string) : string := digest (domain ++ value).

Definition transitionDigest (prior operation : string) (value : json) : result Error string :=
  canonical ← canonicalValue value;
  Ok (digestBytes provenanceDomain (prior ++ String NUL "" ++ operation ++ String NUL "" ++ canonical)).

Definition toolIntentDigest (intent : ToolIntent) : result Error string :=
  match ToolRoute.Digest intent with
  | Ok digest => Ok digest
  | Err err => Err (newError Denied "digest" (ToolRoute.err_Reason err) false NoCause)
  end.

Definition actionReceiptDigest (receipt : ActionReceipt) : result Error string :=
  canonical ← canonicalValue (JObj [
    ("intent_digest", JStr (rc_IntentDigest receipt)); ("outcome", JStr (rc_Outcome receipt));
    ("evidence", JObj [("Digest", JStr (ar_Digest (rc_Evidence receipt))); ("MediaType", JStr (ar_MediaType (rc_Evidence receipt)));
       ("Classification", JStr (ar_Classification (rc_Evidence receipt))); ("Length", json_int (ar_Length (rc_Evidence receipt)))])]);
  Ok (digestBytes receiptDomain canonical).

(** *** The JSON of a start: no tags but those of the budget's types.  A plan that was reserved
    has UTC times, and a valid request a UTC deadline. *)
Definition plain_case_json (value : CaseRef) : json :=
  JObj [("OrganizationID", JStr (OrganizationID value)); ("TenantID", JStr (TenantID value)); ("CaseID", JStr (CaseID value))].

Definition plan_json (value : Plan) : json := JObj [
  ("schema_version", JStr (p_SchemaVersion value)); ("contract_version", JStr (p_ContractVersion value));
  ("run_id", JStr (p_RunID value)); ("case", plain_case_json (p_Case value)); ("policy_digest", JStr (p_PolicyDigest value));
  ("provider_route", JStr (p_ProviderRoute value)); ("limits", vector_json (p_Limits value));
  ("created_at", JStr (format_rfc3339 (p_CreatedAt value))); ("expires_at", JStr (format_rfc3339 (p_ExpiresAt value)))].

Definition start_json (request : StartRequest) : json := JObj [
  ("IdempotencyKey", JStr (st_IdempotencyKey request)); ("RunID", JStr (st_RunID request)); ("StepID", JStr (st_StepID request));
  ("Case", plain_case_json (st_Case request)); ("ActorID", JStr (st_ActorID request));
  ("PolicyDigest", JStr (st_PolicyDigest request)); ("ProviderRoute", JStr (st_ProviderRoute request));
  ("Activity", JStr (st_Activity request));
  ("InputRefs", match st_InputRefs request with None => JNull | Some refs => JArr (map JStr refs) end);
  ("IntentDigest", JStr (st_IntentDigest request)); ("Deadline", JStr (format_rfc3339 (st_Deadline request)));
  ("BudgetPlan", match st_BudgetPlan request with None => JNull | Some plan => plan_json plan end);
  ("TaskBudget", vector_json (st_TaskBudget request)); ("BudgetClaim", vector_json (st_BudgetClaim request))].

(** [Time.MarshalJSON] refuses years that do not have four digits. *)
Definition start_marshalable (request : StartRequest) : bool :=
  let ok t := (0 <=? year t) && (year t <=? 9999) in
  ok (st_Deadline request) &&
  match st_BudgetPlan request with Some plan => ok (p_CreatedAt plan) && ok (p_ExpiresAt plan) | None => true end.

Definition start_provenance (request : StartRequest) (budget : Reservation) : result Error string :=
  deny_if (negb (start_marshalable request)) (newError Internal "canonical" "value_encoding_failed" false NoCause) ;;
  transitionDigest "" "start" (JObj [("request", start_json request); ("budget_plan_digest", JStr (rv_PlanDigest budget));
    ("budget_reservation_digest", JStr (rv_ReservationDigest budget))]).

(** *** [stamp] *)
Definition stamp_json (value : Snapshot) (now : Time) : json :=
  let run := sn_Run value in
  let step := sn_Step value in
  JObj [("run_id", JStr (ru_RunID run)); ("step_id", JStr (sp_StepID step)); ("run_status", JStr (ru_Status run));
        ("step_status", JStr (sp_Status step)); ("sequence", json_uint (ru_Sequence run));
        ("run_revision", json_uint (ru_Revision run)); ("step_revision", json_uint (sp_Revision step));
        ("intent_digest", JStr (sp_IntentDigest step)); ("receipt_digest", JStr (sp_ReceiptDigest step));
        ("budget_plan_digest", JStr (ru_BudgetPlanDigest run));
        ("budget_reservation_digest", JStr (sp_BudgetReservationDigest step));
        ("budget_settlement_digest", JStr (sp_BudgetSettlementDigest step)); ("updated_at", JStr (formatTime now))].

Definition stamped_run (run : Run) (provenance : string) (now : Time) : Run :=
  mkRun (ru_ContractVersion run) (ru_RunID run) (ru_Case run) (ru_ActorID run) (ru_WorkflowVersion run) (ru_PolicyDigest run)
    (ru_ProviderRoute run) (ru_BudgetPlanDigest run) (ru_Status run) (ru_CurrentStepID run) (ru_Sequence run)
    (ru_InputRefs run) (ru_OutputRefs run) provenance (ru_CreatedAt run) now (ru_Revision run).

Definition stamped_step (step : Step) (provenance : string) (now : Time) : Step :=
  mkStep (sp_ContractVersion step) (sp_StepID step) (sp_RunID step) (sp_Case step) (sp_Kind step) (sp_Status step)
    (sp_Attempt step) (sp_Deadline step) (sp_InputRefs step) (sp_OutputRefs step) (sp_IntentDigest step)
    (sp_ReceiptDigest step) (sp_BudgetReservationDigest step) (sp_BudgetSettlementDigest step) provenance
    (sp_CreatedAt step) now (sp_Revision step).

Definition stamp (value : Snapshot) (prior operation : string) (now : Time) : result Error Snapshot :=
  digest ← transitionDigest prior operation (stamp_json value now);
  Ok (mkSnapshot (stamped_run (sn_Run value) digest now) (stamped_step (sn_Step value) digest now) (sn_Replayed value)).
