(* ===== verification/AgentStore.v ===== *)
(** * internal/workflow/agentloop: the store of runs and steps

    A run and its current step are two metadata records, written by one transaction that
    compares both revisions, with a message for the outbox; what is loaded is decoded exactly
    and validated again ([repository_store.go], and the exact decoder of [canonical.go]). *)

From S2P Require Import Prelude GoStrings GoRegexp GoTime GoJson DomainContract Sha256 Domain GoStruct GoCodec RunBudget RunBudgetBinding Storage StorageFacts EStop EStopController ToolRoute Authority Policy ApprovalBroker AgentLoop.

Local Open Scope string_scope.
Local Open Scope Z_scope.

(** ** types.go: what the loop asks of a store *)

Class StateStore (W : Type) : Type := {
  state_Create : context W -> string -> Snapshot -> routine W (result activity_error Snapshot);
  state_Load : context W -> CaseRef -> string -> routine W (result activity_error Snapshot);
  state_Save : context W -> string -> Snapshot -> Snapshot -> routine W (result activity_error Snapshot) }.

Definition checked {A} (r : result Error A) : result activity_error A :=
  match r with Ok a => Ok a | Err err => Err (own err) end.

(** [validateContext] *)
Definition context_error {W} (operation : string) (ctx : context W) (w : W) : result Error unit :=
  match ctx with
  | None => Err (newError InvalidInput operation "context_required" false NoCause)
  | Some ended =>
      match ended w with
      | None => Ok tt
      | Some DoneDeadlineExceeded => Err (newError Timeout operation "context_deadline" false (CauseContext DoneDeadlineExceeded))
      | Some DoneCanceled => Err (newError Canceled operation "context_canceled" false (CauseContext DoneCanceled))
      end
  end.

(** ** repository_store.go: the two envelopes *)

Definition RecordSchema : string := "coh.domain/v1".

Record runPayload : Type := mkRunPayload {
  rp_ContractVersion : string; rp_InitiatingActorID : string; rp_WorkflowType : string; rp_WorkflowVersion : string;
  rp_PolicyDigest : string; rp_ProviderRoute : string; rp_BudgetPlanDigest : string; rp_Status : string;
  rp_CurrentStepID : string; rp_Sequence : Z; rp_InputRefs : slice string; rp_OutputRefs : slice string;
  rp_ProvenanceDigest : string; rp_UpdatedAt : string }.

Record stepPayload : Type := mkStepPayload {
  pp_ContractVersion : string; pp_RunID : string; pp_ActivityKind : string; pp_Status : string; pp_Attempt : Z;
  pp_Deadline : string; pp_InputRefs : slice string; pp_OutputRefs : slice string; pp_IntentDigest : string;
  pp_ReceiptDigest : string; pp_BudgetReservationDigest : string; pp_BudgetSettlementDigest : string;
  pp_ProvenanceDigest : string; pp_UpdatedAt : string }.

(** [runEnvelope] and [stepEnvelope] differ in their data only. *)
Record loopEnvelope (D : Type) : Type := mkLoopEnvelope {
  le_Schema : string; le_Kind : string; le_ID : string; le_OrganizationID : string; le_TenantID : string;
  le_CaseID : string; le_Revision : Z; le_CreatedAt : string; le_Data : D }.
Arguments mkLoopEnvelope {D} _ _ _ _ _ _ _ _ _.
Arguments le_Schema {D} _.
Arguments le_Kind {D} _.
Arguments le_ID {D} _.
Arguments le_OrganizationID {D} _.
Arguments le_TenantID {D} _.
Arguments le_CaseID {D} _.
Arguments le_Revision {D} _.
Arguments le_CreatedAt {D} _.
Arguments le_Data {D} _.

Definition refs_codec : codec (slice string) := slice_codec str_codec.

Definition run_payload_codec : codec runPayload := struct_codec
  (field "contract_version" str_codec $ field "initiating_actor_id" str_codec $ field "workflow_type" str_codec $
     field "workflow_version" str_codec $ field "policy_digest" str_codec $ field "provider_route" str_codec $
     field "budget_plan_digest" str_codec $ field "status" str_codec $ field "current_step_id" str_codec $
     field "sequence" (uint_codec 64) $ field "input_refs" refs_codec $ field "output_refs" refs_codec $
     field "provenance_digest" str_codec $ field "updated_at" str_codec $ no_fields)
  (fun '(mkRunPayload a b c d e f g h i j k l m n) => (a, (b, (c, (d, (e, (f, (g, (h, (i, (j, (k, (l, (m, (n, tt)))))))))))))))
  (fun '(a, (b, (c, (d, (e, (f, (g, (h, (i, (j, (k, (l, (m, (n, _)))))))))))))) => mkRunPayload a b c d e f g h i j k l m n)
  ltac:(by intros []) ltac:(by intros (? & ? & ? & ? & ? & ? & ? & ? & ? & ? & ? & ? & ? & ? & [])).

Definition step_payload_codec : codec stepPayload := struct_codec
  (field "contract_version" str_codec $ field "run_id" str_codec $ field "activity_kind" str_codec $
     field "status" str_codec $ field "attempt" (uint_codec 32) $ field "deadline" str_codec $
     field "input_refs" refs_codec $ field "output_refs" refs_codec $ field "intent_digest" str_codec $
     field "receipt_digest" str_codec $ field "budget_reservation_digest" str_codec $
     field "budget_settlement_digest" str_codec $ field "provenance_digest" str_codec $ field "updated_at" str_codec $ no_fields)
  (fun '(mkStepPayload a b c d e f g h i j k l m n) => (a, (b, (c, (d, (e, (f, (g, (h, (i, (j, (k, (l, (m, (n, tt)))))))))))))))
  (fun '(a, (b, (c, (d, (e, (f, (g, (h, (i, (j, (k, (l, (m, (n, _)))))))))))))) => mkStepPayload a b c d e f g h i j k l m n)
  ltac:(by intros []) ltac:(by intros (? & ? & ? & ? & ? & ? & ? & ? & ? & ? & ? & ? & ? & ? & [])).

Definition envelope_codec {D} (data : codec D) : codec (loopEnvelope D) := struct_codec
  (field "schema" str_codec $ field "kind" str_codec $ field "id" str_codec $ field "organization_id" str_codec $
     field "tenant_id" str_codec $ field "case_id" str_codec $ field "revision" (uint_codec 64) $
     field "created_at" str_codec $ field "data" data $ no_fields)
  (fun '(mkLoopEnvelope a b c d e f g h i) => (a, (b, (c, (d, (e, (f, (g, (h, (i, tt))))))))))
  (fun '(a, (b, (c, (d, (e, (f, (g, (h, (i, _))))))))) => mkLoopEnvelope a b c d e f g h i)
  ltac:(by intros []) ltac:(by intros (? & ? & ? & ? & ? & ? & ? & ? & ? & [])).

Definition run_codec : codec (loopEnvelope runPayload) := envelope_codec run_payload_codec.
Definition step_codec : codec (loopEnvelope stepPayload) := envelope_codec step_payload_codec.

(** *** To records *)

Definition metadataRecord {T} (c : codec T) (scope : CaseRef) (kind id : string) (revision : Z) (value : T) : result Error MetadataRecord :=
  canonical ← or_err (canonical_struct (c_type c) (c_to c value))
    (newError InvalidInput "canonical" "value_not_canonicalizable" false NoCause);
  Ok (mkMetadataRecord (mkRecordKey scope kind id) RecordSchema revision canonical (digest canonical)).

Definition run_envelope (value : Run) : loopEnvelope runPayload :=
  mkLoopEnvelope RecordSchema "run" (ru_RunID value) (OrganizationID (ru_Case value)) (TenantID (ru_Case value))
    (CaseID (ru_Case value)) (ru_Revision value) (formatTime (ru_CreatedAt value))
    (mkRunPayload (ru_ContractVersion value) (ru_ActorID value) WorkflowDefinition (ru_WorkflowVersion value)
       (ru_PolicyDigest value) (ru_ProviderRoute value) (ru_BudgetPlanDigest value) (ru_Status value)
       (ru_CurrentStepID value) (ru_Sequence value) (Some (ru_InputRefs value)) (Some (ru_OutputRefs value))
       (ru_ProvenanceDigest value) (formatTime (ru_UpdatedAt value))).

Definition encodeRun (value : Run) : result Error MetadataRecord :=
  metadataRecord run_codec (ru_Case value) "run" (ru_RunID value) (ru_Revision value) (run_envelope value).

Definition step_envelope (value : Step) : loopEnvelope stepPayload :=
  mkLoopEnvelope RecordSchema "task" (sp_StepID value) (OrganizationID (sp_Case value)) (TenantID (sp_Case value))
    (CaseID (sp_Case value)) (sp_Revision value) (formatTime (sp_CreatedAt value))
    (mkStepPayload (sp_ContractVersion value) (sp_RunID value) (sp_Kind value) (sp_Status value) (sp_Attempt value)
       (formatTime (sp_Deadline value)) (Some (sp_InputRefs value)) (Some (sp_OutputRefs value)) (sp_IntentDigest value)
       (sp_ReceiptDigest value) (sp_BudgetReservationDigest value) (sp_BudgetSettlementDigest value)
       (sp_ProvenanceDigest value) (formatTime (sp_UpdatedAt value))).

Definition encodeStep (value : Step) : result Error MetadataRecord :=
  metadataRecord step_codec (sp_Case value) "task" (sp_StepID value) (sp_Revision value) (step_envelope value).

(** *** From records *)

Definition decode_error (reason : string) : Error := newError Denied "decode" reason false NoCause.

(** Input of at most 2^20 bytes without a repeated key, and nothing after its value *)
Definition decodeExact {T} (c : codec T) (input : string) : result Error T :=
  deny_if ((len input =? 0) || (1048576 <? len input)) (decode_error "record_size_invalid") ;;
  or_err (_ ← DecodeUnique input; Ok tt) (decode_error "record_duplicate_or_malformed") ;;
  match decode_text c input with Some value => Ok value | None => Err (decode_error "record_malformed") end.

Definition parseTime (value : string) : result Error Time :=
  match parse_timestamp value with
  | Some parsed => Ok (to_utc parsed)
  | None => Err (decode_error "timestamp_invalid")
  end.

Definition envelope_case {D} (value : loopEnvelope D) : CaseRef :=
  mkCaseRef (le_OrganizationID value) (le_TenantID value) (le_CaseID value).

(** A nil slice is read as an empty one: what is loaded is cloned. *)
Definition run_of (value : loopEnvelope runPayload) (created updated : Time) : Run :=
  let data := le_Data value in
  mkRun (rp_ContractVersion data) (le_ID value) (envelope_case value) (rp_InitiatingActorID data)
    (rp_WorkflowVersion data) (rp_PolicyDigest data) (rp_ProviderRoute data) (rp_BudgetPlanDigest data) (rp_Status data)
    (rp_CurrentStepID data) (rp_Sequence data) (items (rp_InputRefs data)) (items (rp_OutputRefs data))
    (rp_ProvenanceDigest data) created updated (le_Revision value).

Definition decodeRun (input : string) : result Error Run :=
  value ← decodeExact run_codec input;
  created ← parseTime (le_CreatedAt value);
  updated ← parseTime (rp_UpdatedAt (le_Data value));
  deny_if (negb (String.eqb (le_Schema value) RecordSchema) || negb (String.eqb (le_Kind value) "run") ||
           negb (String.eqb (rp_WorkflowType (le_Data value)) WorkflowDefinition)) (decode_error "run_envelope_invalid") ;;
  validateRun (run_of value created updated) ;;
  Ok (run_of value created updated).

Definition step_of (value : loopEnvelope stepPayload) (deadline created updated : Time) : Step :=
  let data := le_Data value in
  mkStep (pp_ContractVersion data) (le_ID value) (pp_RunID data) (envelope_case value) (pp_ActivityKind data)
    (pp_Status data) (pp_Attempt data) deadline (items (pp_InputRefs data)) (items (pp_OutputRefs data))
    (pp_IntentDigest data) (pp_ReceiptDigest data) (pp_BudgetReservationDigest data) (pp_BudgetSettlementDigest data)
    (pp_ProvenanceDigest data) created updated (le_Revision value).

Definition decodeStep (input : string) : result Error Step :=
  value ← decodeExact step_codec input;
  deadline ← parseTime (pp_Deadline (le_Data value));
  created ← parseTime (le_CreatedAt value);
  updated ← parseTime (pp_UpdatedAt (le_Data value));
  deny_if (negb (String.eqb (le_Schema value) RecordSchema) || negb (String.eqb (le_Kind value) "task"))
    (decode_error "step_envelope_invalid") ;;
  validateStep (step_of value deadline created updated) ;;
  Ok (step_of value deadline created updated).

(** *** Transactions *)

Definition mapStorageError (operation : string) (err : storage_error) : Error :=
  match StorageCode err with
  | StorageInvalidInput => newError InvalidInput operation "storage_input_invalid" false NoCause
  | StorageDenied => newError Denied operation "storage_denied" false NoCause
  | StorageNotFound => newError NotFound operation "state_not_found" false NoCause
  | StorageConflict => newError Conflict operation "state_conflict" false NoCause
  | StorageCanceled => newError Canceled operation "storage_canceled" false (CauseStorage err)
  | StorageTimeout => newError Timeout operation "storage_timeout" false (CauseStorage err)
  | _ => newError Unavailable operation "storage_unavailable" true NoCause
  end.

(** The first sixteen bytes of a digest as a UUID of version 7 *)
Definition deterministicUUID (domain input : string) : string :=
  let sum := sum256 (domain ++ input) in
  let sum := set_byte 6 (fun b => Z.lor (Z.land b 15) 112) sum in
  let sum := set_byte 8 (fun b => Z.lor (Z.land b 63) 128) sum in
  let encoded := hex_encode (String.substring 0 16 sum) in
  String.substring 0 8 encoded ++ "-" ++ String.substring 8 4 encoded ++ "-" ++ String.substring 12 4 encoded ++ "-" ++
  String.substring 16 4 encoded ++ "-" ++ String.substring 20 12 encoded.

(** The message of a transition *)
Definition transition_message (next : Run) : OutboxMessage :=
  mkOutboxMessage
    (deterministicUUID ("COH-AGENT-LOOP-EVENT-ID-V1" ++ String NUL "") (ru_RunID next ++ String NUL "" ++ format_uint (ru_Sequence next)))
    (ru_Case next) "agent_loop.transition" ("coh-agent-loop://" ++ ru_RunID next ++ "/" ++ format_uint (ru_Sequence next))
    (ru_ProvenanceDigest next).

(** The record of the run and of its step, in the order of their keys: the kind decides. *)
Definition transition_mutations (runRecord stepRecord : MetadataRecord) (runExpected stepExpected : Z) : list Mutation :=
  let run := mkMutation MutationPut (mr_Key runRecord) runExpected (Some runRecord) in
  let step := mkMutation MutationPut (mr_Key stepRecord) stepExpected (Some stepRecord) in
  if String.ltb (recordKeyString (mr_Key stepRecord)) (recordKeyString (mr_Key runRecord)) then [step; run] else [run; step].

(** What [prior] expects to be stored: nothing, when there is none *)
Definition expected_revisions (prior : option Snapshot) (next : Snapshot) : Z * Z :=
  match prior with
  | None => (0, 0)
  | Some prior =>
      (ru_Revision (sn_Run prior),
       if String.eqb (sp_StepID (sn_Step prior)) (sp_StepID (sn_Step next)) then sp_Revision (sn_Step prior) else 0)
  end.

Definition transition_transaction (key : string) (prior : option Snapshot) (next : Snapshot) : result Error Transaction :=
  deny_if (negb (Domain.validOpaque key 256)) (newError InvalidInput "transact" "idempotency_key_invalid" false NoCause) ;;
  runRecord ← encodeRun (sn_Run next);
  stepRecord ← encodeStep (sn_Step next);
  let '(runExpected, stepExpected) := expected_revisions prior next in
  Ok (mkTransaction StorageContractVersion key (transition_mutations runRecord stepRecord runExpected stepExpected)
        [transition_message (sn_Run next)]).

(** What [Save] requires of a transition *)
Definition saveable (prior next : Snapshot) : result Error unit :=
  validateSnapshot prior ;;
  validateSnapshot next ;;
  deny_if (negb (bool_decide (ru_Case (sn_Run prior) = ru_Case (sn_Run next))) ||
           negb (String.eqb (ru_RunID (sn_Run prior)) (ru_RunID (sn_Run next))) ||
           negb (ru_Revision (sn_Run next) =? u64 (ru_Revision (sn_Run prior) + 1)) ||
           negb (ru_Sequence (sn_Run next) =? u64 (ru_Sequence (sn_Run prior) + 1)))
    (newError Conflict "save" "run_revision_conflict" false NoCause) ;;
  validateTransition prior next ;;
  if String.eqb (sp_StepID (sn_Step prior)) (sp_StepID (sn_Step next))
  then deny_if (negb (sp_Revision (sn_Step next) =? u64 (sp_Revision (sn_Step prior) + 1)))
         (newError Conflict "save" "step_revision_conflict" false NoCause)
  else deny_if (negb (sp_Revision (sn_Step next) =? 1)) (newError Conflict "save" "new_step_revision_invalid" false NoCause).

(** ** repository_store.go: the store

    What [cloneSnapshot] copies is a value here. *)
Section repository.
Context {W : Type} {repository : MetadataStore W}.
Local Notation answer := (result activity_error Snapshot).

(** [if err != nil { return Snapshot{}, err }] *)
Definition or_return {A} (r : result Error A) (rest : A -> routine W answer) : routine W answer :=
  match r with Ok a => rest a | Err err => mret (Err (own err)) end.

Definition storage_answer {A} (operation : string) (r : result storage_error A) : result Error A :=
  match r with Ok a => Ok a | Err err => Err (mapStorageError operation err) end.

Definition validateContext (operation : string) (ctx : context W) : routine W (result Error unit) :=
  calls (fun w => (context_error operation ctx w, w)).

(** The two records are read one after the other. *)
Definition RepositoryStore_Load (ctx : context W) (scope : CaseRef) (runID : string) : routine W answer :=
  ready ← validateContext "load" ctx;
  or_return (ready ;; deny_if (negb (validCase scope) || negb (uuidPattern runID))
                        (newError InvalidInput "load" "scope_invalid" false NoCause)) (fun _ =>
  runRecord ← calls (store_Get ctx (mkRecordKey scope "run" runID));
  or_return (runRecord ← storage_answer "load" runRecord; decodeRun (mr_Canonical runRecord)) (fun run =>
  stepRecord ← calls (store_Get ctx (mkRecordKey scope "task" (ru_CurrentStepID run)));
  or_return (stepRecord ← storage_answer "load" stepRecord; decodeStep (mr_Canonical stepRecord)) (fun step =>
  or_return (validateSnapshot (mkSnapshot run step false)) (fun _ => mret (Ok (mkSnapshot run step false)))))).

Definition transact (ctx : context W) (key : string) (prior : option Snapshot) (next : Snapshot) : routine W answer :=
  or_return (transition_transaction key prior next) (fun transaction =>
  result ← calls (store_Transact ctx transaction);
  or_return (storage_answer "transact" result) (fun result =>
  if cr_Replayed result
  then
    stored ← RepositoryStore_Load ctx (ru_Case (sn_Run next)) (ru_RunID (sn_Run next));
    mret (stored ← stored; Ok (mkSnapshot (sn_Run stored) (sn_Step stored) true))
  else mret (Ok next))).

Definition RepositoryStore_Create (ctx : context W) (key : string) (next : Snapshot) : routine W answer :=
  ready ← validateContext "create" ctx;
  or_return (ready ;; deny_if (negb (is_ok (validateSnapshot next)) || negb (validInitialSnapshot next))
                        (newError InvalidInput "create" "initial_state_invalid" false NoCause)) (fun _ =>
  transact ctx key None next).

Definition RepositoryStore_Save (ctx : context W) (key : string) (prior next : Snapshot) : routine W answer :=
  ready ← validateContext "save" ctx;
  or_return (ready ;; saveable prior next) (fun _ => transact ctx key (Some prior) next).
End repository.

(** [NewRepositoryStore] *)
Definition NewRepositoryStore (repository_nil : bool) : result Error unit :=
  deny_if repository_nil (newError InvalidInput "store" "repository_required" false NoCause).

Definition repository_store {W} {repository : MetadataStore W} : StateStore W :=
  {| state_Create := RepositoryStore_Create; state_Load := RepositoryStore_Load; state_Save := RepositoryStore_Save |}.

(** ** The round trip of records *)

(** What Go's types and the layout of times hold of a value *)
Definition printable (t : Time) : Prop := four_digit_year t = true.

Definition run_typed (value : Run) : Prop :=
  is_u64 (ru_Sequence value) /\ is_u64 (ru_Revision value) /\ printable (ru_CreatedAt value) /\ printable (ru_UpdatedAt value).

Definition step_typed (value : Step) : Prop :=
  is_u32 (sp_Attempt value) /\ is_u64 (sp_Revision value) /\ printable (sp_Deadline value) /\
  printable (sp_CreatedAt value) /\ printable (sp_UpdatedAt value).

Definition snapshot_typed (value : Snapshot) : Prop := run_typed (sn_Run value) /\ step_typed (sn_Step value).

Lemma run_codec_plain : plain_type (c_type run_codec).
Proof. split; vm_compute; reflexivity. Qed.

Lemma run_codec_depth : (type_depth (c_type run_codec) <= 64)%nat.
Proof. vm_compute. lia. Qed.

Lemma step_codec_plain : plain_type (c_type step_codec).
Proof. split; vm_compute; reflexivity. Qed.

Lemma step_codec_depth : (type_depth (c_type step_codec) <= 64)%nat.
Proof. vm_compute. lia. Qed.

Lemma optional_digest_valid s : optional s = true -> valid_string s = true.
Proof. unfold optional. intros [->%String.eqb_eq|H]%orb_true_iff; [done|eauto with coh]. Qed.

Lemma activity_valid kind intent : validateActivity kind intent = true -> valid_string kind = true /\ valid_string intent = true.
Proof.
  unfold validateActivity. destruct (String.eqb_spec kind PlanningActivity) as [->|]; [by intros ->%String.eqb_eq|].
  destruct (String.eqb_spec kind AuthorizedActionActivity) as [->|]; [|done]. split; eauto with coh.
Qed.

Lemma references_valid l : validateReferences l = true -> typed refs_codec (Some l).
Proof.
  unfold validateReferences. intros [_ H]%andb_true_iff. apply typed_slice. rewrite forallb_forall in H.
  apply Forall_forall. intros s Hs. apply typed_str. apply list_elem_of_In in Hs. eauto with coh.
Qed.

Lemma case_valid c : validCase c = true ->
  valid_string (OrganizationID c) = true /\ valid_string (TenantID c) = true /\ valid_string (CaseID c) = true.
Proof. unfold validCase. intros H. bool_split. split_and!; eauto with coh. Qed.

Lemma exact_back {T} (c : codec T) x m scope kind id revision : plain_type (c_type c) -> (type_depth (c_type c) <= 64)%nat -> typed c x ->
  metadataRecord c scope kind id revision x = Ok m ->
  decodeExact c (mr_Canonical m) = Ok x /\ mr_Key m = mkRecordKey scope kind id /\ mr_Revision m = revision.
Proof.
  intros Hp Hd Ht (canonical & Hc%or_err_ok & [= <-])%bind_ok. cbn. split; [|done].
  destruct (canonical_reads c x canonical Hp Hd Ht Hc) as (Hlen & Hu & _). unfold decodeExact.
  replace ((len canonical =? 0) || (1048576 <? len canonical)) with false by (change MaxInputBytes with 1048576 in Hlen; lia).
  cbn [deny_if mbind result_bind]. rewrite Hu. cbn [mbind result_bind or_err]. unfold decode_text.
  rewrite (decode_canonical_struct _ (proj1 Hp) Hd _ _ Ht Hc). cbn. by rewrite c_of_to.
Qed.

Lemma parse_back t : printable t -> is_utc t = true -> parseTime (formatTime t) = Ok t.
Proof.
  intros Hy Hu. unfold parseTime, formatTime. destruct t as [n u]. cbn in Hu. subst u.
  by rewrite parse_format_timestamp.
Qed.

Lemma validTimes_utc created updated : validTimes created updated = true -> is_utc created = true /\ is_utc updated = true.
Proof. unfold validTimes. intros H. by bool_split. Qed.

Lemma run_fields_valid value : run_typed value -> validateRun value = Ok tt -> typed run_codec (run_envelope value).
Proof.
  intros (H1 & H2 & H3 & H4) Hv. apply seq_ok in Hv as [Hv%deny_if_ok Hs%deny_if_ok]. bool_split.
  destruct (case_valid _ ltac:(eassumption)) as (? & ? & ?). apply (typed_uint 64) in H1, H2.
  repeat match goal with H : String.eqb _ _ = true |- _ => apply String.eqb_eq in H end.
  assert (valid_string (ru_Status value) = true) by by eapply (word_valid run_statuses).
  pose proof (formatTime_valid (ru_CreatedAt value)). pose proof (formatTime_valid (ru_UpdatedAt value)).
  assert (valid_string (ru_ContractVersion value) = true) by by replace (ru_ContractVersion value) with ContractVersion.
  assert (valid_string (ru_WorkflowVersion value) = true) by by replace (ru_WorkflowVersion value) with WorkflowVersion.
  unfold run_codec, envelope_codec. apply typed_struct.
  repeat (apply fields_typed_cons; split; cbn [fst snd run_envelope]); try by apply fields_typed_nil.
  all: try (apply typed_str; eauto with coh); try assumption.
  unfold run_payload_codec. apply typed_struct.
  repeat (apply fields_typed_cons; split; cbn [fst snd]); try by apply fields_typed_nil.
  all: try (apply typed_str; eauto with coh); try assumption; by apply references_valid.
Qed.

Lemma step_fields_valid value : step_typed value -> validateStep value = Ok tt -> typed step_codec (step_envelope value).
Proof.
  intros (H1 & H2 & H3 & H4 & H5) Hv. unfold validateStep in Hv. rewrite !seq_ok, !deny_if_ok in Hv. destruct Hv as (Hv & Hr & Hs & _).
  bool_split. destruct (case_valid _ ltac:(eassumption)) as (? & ? & ?). apply (typed_uint 64) in H2. apply (typed_uint 32) in H1.
  destruct (activity_valid _ _ ltac:(eassumption)) as (? & ?).
  repeat match goal with H : String.eqb _ _ = true |- _ => apply String.eqb_eq in H end.
  assert (valid_string (sp_Status value) = true) by by eapply (word_valid step_statuses).
  pose proof (formatTime_valid (sp_CreatedAt value)). pose proof (formatTime_valid (sp_UpdatedAt value)).
  pose proof (formatTime_valid (sp_Deadline value)).
  assert (valid_string (sp_ContractVersion value) = true) by by replace (sp_ContractVersion value) with ContractVersion.
  assert (valid_string (sp_ReceiptDigest value) = true) by by apply optional_digest_valid.
  assert (valid_string (sp_BudgetSettlementDigest value) = true) by by apply optional_digest_valid.
  unfold step_codec, envelope_codec. apply typed_struct.
  repeat (apply fields_typed_cons; split; cbn [fst snd step_envelope]); try by apply fields_typed_nil.
  all: try (apply typed_str; eauto with coh); try assumption.
  unfold step_payload_codec. apply typed_struct.
  repeat (apply fields_typed_cons; split; cbn [fst snd]); try by apply fields_typed_nil.
  all: try (apply typed_str; eauto with coh); try assumption; by apply references_valid.
Qed.

Lemma run_of_envelope value : run_of (run_envelope value) (ru_CreatedAt value) (ru_UpdatedAt value) = value.
Proof. destruct value as [? ? [] ? ? ? ? ? ? ? ? ? ? ? ? ? ?]. reflexivity. Qed.

Lemma step_of_envelope value :
  step_of (step_envelope value) (sp_Deadline value) (sp_CreatedAt value) (sp_UpdatedAt value) = value.
Proof. destruct value as [? ? ? [] ? ? ? ? ? ? ? ? ? ? ? ? ? ?]. reflexivity. Qed.

Lemma run_back value m : run_typed value -> validateRun value = Ok tt -> encodeRun value = Ok m ->
  decodeRun (mr_Canonical m) = Ok value /\ mr_Key m = mkRecordKey (ru_Case value) "run" (ru_RunID value) /\
  mr_Revision m = ru_Revision value.
Proof.
  intros Ht Hv Hm. pose proof (run_fields_valid _ Ht Hv) as Hty.
  destruct (exact_back run_codec _ _ _ _ _ _ run_codec_plain run_codec_depth Hty Hm) as (Hd & Hk & Hrev). split; [|done].
  pose proof Hv as Hv'. apply seq_ok in Hv' as [Hv'%deny_if_ok _]. bool_split. destruct Ht as (_ & _ & Hc & Hu).
  destruct (validTimes_utc _ _ ltac:(eassumption)) as [? ?].
  apply bind_ok. exists (run_envelope value). split; [exact Hd|].
  apply bind_ok. exists (ru_CreatedAt value). split; [by apply parse_back|].
  apply bind_ok. exists (ru_UpdatedAt value). split; [by apply parse_back|].
  apply seq_ok. split; [reflexivity|]. rewrite run_of_envelope. apply seq_ok. by split.
Qed.

Lemma step_back value m : step_typed value -> validateStep value = Ok tt -> encodeStep value = Ok m ->
  decodeStep (mr_Canonical m) = Ok value /\ mr_Key m = mkRecordKey (sp_Case value) "task" (sp_StepID value) /\
  mr_Revision m = sp_Revision value.
Proof.
  intros Ht Hv Hm. pose proof (step_fields_valid _ Ht Hv) as Hty.
  destruct (exact_back step_codec _ _ _ _ _ _ step_codec_plain step_codec_depth Hty Hm) as (Hd & Hk & Hrev). split; [|done].
  pose proof Hv as Hv'. apply seq_ok in Hv' as [Hv'%deny_if_ok _]. bool_split. destruct Ht as (_ & _ & He & Hc & Hu).
  destruct (validTimes_utc _ _ ltac:(eassumption)) as [? ?].
  apply bind_ok. exists (step_envelope value). split; [exact Hd|].
  apply bind_ok. exists (sp_Deadline value). split; [by apply parse_back|].
  apply bind_ok. exists (sp_CreatedAt value). split; [by apply parse_back|].
  apply bind_ok. exists (sp_UpdatedAt value). split; [by apply parse_back|].
  apply seq_ok. split; [reflexivity|]. rewrite step_of_envelope. apply seq_ok. by split.
Qed.
