(* ===== verification/AgentRun.v ===== *)
(** * internal/workflow/agentloop: the loop

    [Start] and [Schedule] reserve the budget of a step, [Execute] saves that it starts before it
    runs its one activity, planning by a model or one action through the broker, [Complete],
    [Resume] and [Terminate] end it, and a step that ended is settled ([activities.go],
    [loop.go]).  Each is a goroutine: the calls it makes, in the source's order. *)

From S2P Require Import Prelude GoStrings GoRegexp GoTime GoJson DomainContract Sha256 Domain GoStruct GoCodec RunBudget Storage StorageFacts EStop EStopController ToolRoute Authority Policy ApprovalBroker AgentLoop AgentStore.

Local Open Scope string_scope.
Local Open Scope Z_scope.

(** ** The dependencies *)

(** internal/workflow/ports.go and internal/domain/types.go *)
Record Operation : Type := mkOperation { op_ID : string; op_Case : CaseRef; op_Kind : string; op_Version : string }.

Record ModelRequest : Type := mkModelRequest {
  mr_RunID : string; mr_Operation : Operation; mr_PolicyDigest : string; mr_ProviderRoute : string;
  mr_InputRefs : list string; mr_BudgetReservationDigest : string; mr_CreatedAt : Time; mr_Deadline : Time }.

(** The model provider, the action authority (a goroutine, which answers with a receipt and an
    error), the budgets, the clock, and the context of a call that the caller cannot cancel *)
Class LoopPorts (W : Type) : Type := {
  Invoke : context W -> ModelRequest -> prog W activity_error ArtifactRef;
  action_Submit : context W -> ToolIntent -> routine W (ActionReceipt * option activity_error);
  budget_Reserve : context W -> ReservationRequest -> prog W RunBudget.go_error Reservation;
  budget_Settle : context W -> SettlementRequest -> prog W RunBudget.go_error Settlement;
  LoopNow : W -> Time * W;
  SettleDeadline : W -> option done_reason }.

(** [New] *)
Definition NewLoop (dependency_nil : bool) : result Error unit :=
  deny_if dependency_nil (newError InvalidInput "new" "dependencies_required" false NoCause).

Section loop.
Context {W : Type} {store : StateStore W} {ports : LoopPorts W}.
Local Notation answer := (Snapshot * option activity_error)%type.

Definition failed (err : Error) : routine W answer := mret (zero_snapshot, Some (own err)).

(** [if err != nil { return Snapshot{}, err }] *)
Definition or_fail {A} (r : result activity_error A) (rest : A -> routine W answer) : routine W answer :=
  match r with Ok a => rest a | Err err => mret (zero_snapshot, Some err) end.

Definition loop_now (operation : string) : routine W (result Error Time) :=
  calls (fun w => let '(t, w) := LoopNow w in
    (if is_zero t then Err (newError Internal operation "clock_unavailable" false NoCause) else Ok (to_utc t), w)).

(** What the store answers must be a valid snapshot of the same run. *)
Definition store_result (operation : string) (scope : CaseRef) (runID : string) (result : Snapshot) : Prelude.result Error Snapshot :=
  deny_if (negb (is_ok (validateSnapshot result)) || negb (String.eqb (ru_RunID (sn_Run result)) runID) ||
           negb (bool_decide (ru_Case (sn_Run result) = scope)))
    (newError Denied operation "store_result_invalid" false NoCause) ;;
  Ok result.

Definition loop_create (ctx : context W) (key : string) (value : Snapshot) : routine W answer :=
  created ← state_Create ctx key value;
  or_fail (created ← created; checked (store_result "create" (ru_Case (sn_Run value)) (ru_RunID (sn_Run value)) created))
    (fun value => mret (value, None)).

Definition loop_load (ctx : context W) (scope : CaseRef) (runID : string) : routine W (result activity_error Snapshot) :=
  loaded ← state_Load ctx scope runID;
  mret (loaded ← loaded; checked (store_result "load" scope runID loaded)).

Definition loop_save (ctx : context W) (key : string) (prior next : Snapshot) : routine W (result activity_error Snapshot) :=
  saved ← state_Save ctx key prior next;
  mret (saved ← saved; checked (store_result "save" (ru_Case (sn_Run next)) (ru_RunID (sn_Run next)) saved)).

Definition save_answer (ctx : context W) (key : string) (prior next : Snapshot) : routine W answer :=
  saved ← loop_save ctx key prior next;
  or_fail saved (fun value => mret (value, None)).

(** ** activities.go *)

Definition Plan_activity (ctx : context W) (request : ModelRequest) : routine W (result activity_error ArtifactRef) :=
  ready ← validateContext "plan_activity" ctx;
  match ready ;;
        deny_if (negb (uuidPattern (op_ID (mr_Operation request))) || negb (validCase (op_Case (mr_Operation request))) ||
                 negb (String.eqb (op_Kind (mr_Operation request)) "agent_plan") ||
                 negb (String.eqb (op_Version (mr_Operation request)) WorkflowDefinition) ||
                 negb (uuidPattern (mr_RunID request)) || negb (digestPattern (mr_PolicyDigest request)) ||
                 negb (tokenPattern (mr_ProviderRoute request)) || negb (validateReferences (mr_InputRefs request)) ||
                 negb (digestPattern (mr_BudgetReservationDigest request)) ||
                 negb (validTimes (mr_CreatedAt request) (mr_Deadline request)))
          (newError InvalidInput "plan_activity" "request_invalid" false NoCause) with
  | Err err => mret (Err (own err))
  | Ok _ =>
      artifact ← calls (Invoke ctx request);
      mret (artifact ← artifact;
            checked (deny_if (negb (validArtifact artifact))
                       (newError Denied "plan_activity" "model_artifact_invalid" false NoCause)) ;;
            Ok artifact)
  end.

Definition Act (ctx : context W) (intent : ToolIntent) (intentDigest : string) : routine W (result activity_error ActionReceipt) :=
  ready ← validateContext "action_activity" ctx;
  match ready ;;
        deny_if match toolIntentDigest intent with
                | Ok digest => negb (String.eqb digest intentDigest) || negb (is_ok (ToolRoute.ValidateIntent intent))
                | Err _ => true
                end
          (newError Denied "action_activity" "intent_binding_invalid" false NoCause) with
  | Err err => mret (Err (own err))
  | Ok _ =>
      '(receipt, err) ← action_Submit ctx intent;
      mret (match err with
            | Some err => Err err
            | None =>
                checked (deny_if (negb (validReceipt receipt intentDigest))
                           (newError Denied "action_activity" "broker_receipt_invalid" false NoCause)) ;;
                Ok receipt
            end)
  end.

(** ** loop.go: the next snapshots *)

(** The run moves on by one revision. *)
Definition advanced_run (run : Run) (status : string) (outputs : list string) : Run :=
  mkRun (ru_ContractVersion run) (ru_RunID run) (ru_Case run) (ru_ActorID run) (ru_WorkflowVersion run) (ru_PolicyDigest run)
    (ru_ProviderRoute run) (ru_BudgetPlanDigest run) status (ru_CurrentStepID run) (u64 (ru_Sequence run + 1))
    (ru_InputRefs run) outputs (ru_ProvenanceDigest run) (ru_CreatedAt run) (ru_UpdatedAt run) (u64 (ru_Revision run + 1)).

Definition advanced_step (step : Step) (status : string) (attempt : Z) (outputs : list string) (receipt settlement : string) : Step :=
  mkStep (sp_ContractVersion step) (sp_StepID step) (sp_RunID step) (sp_Case step) (sp_Kind step) status attempt
    (sp_Deadline step) (sp_InputRefs step) outputs (sp_IntentDigest step) receipt (sp_BudgetReservationDigest step) settlement
    (sp_ProvenanceDigest step) (sp_CreatedAt step) (sp_UpdatedAt step) (u64 (sp_Revision step + 1)).

Definition started (current : Snapshot) (attempt : Z) : Snapshot :=
  let run := sn_Run current in
  let step := sn_Step current in
  mkSnapshot (advanced_run run (ru_Status run) (ru_OutputRefs run))
    (advanced_step step (if String.eqb (sp_Kind step) AuthorizedActionActivity then StepDispatching else StepRunning) attempt
       (sp_OutputRefs step) (sp_ReceiptDigest step) (sp_BudgetSettlementDigest step))
    (sn_Replayed current).

Definition finished (current : Snapshot) (stepStatus runStatus : string) (outputs : list string) (receiptDigest : string) : Snapshot :=
  let run := sn_Run current in
  let step := sn_Step current in
  mkSnapshot (advanced_run run runStatus
                (if String.eqb stepStatus StepSucceeded then mergeReferences (ru_OutputRefs run) outputs else ru_OutputRefs run))
    (advanced_step step stepStatus (sp_Attempt step) (sortedReferences outputs) receiptDigest (sp_BudgetSettlementDigest step))
    (sn_Replayed current).

Definition settled (current : Snapshot) (settlement : string) : Snapshot :=
  let run := sn_Run current in
  let step := sn_Step current in
  mkSnapshot (advanced_run run (ru_Status run) (ru_OutputRefs run))
    (advanced_step step (sp_Status step) (sp_Attempt step) (sp_OutputRefs step) (sp_ReceiptDigest step) settlement)
    (sn_Replayed current).

Definition completed (current : Snapshot) : Snapshot :=
  let run := sn_Run current in
  let step := sn_Step current in
  mkSnapshot (advanced_run run RunSucceeded (ru_OutputRefs run))
    (advanced_step step (sp_Status step) (sp_Attempt step) (sp_OutputRefs step) (sp_ReceiptDigest step) (sp_BudgetSettlementDigest step))
    (sn_Replayed current).

Definition first_step (runID stepID : string) (scope : CaseRef) (activity : string) (deadline : Time) (inputs : list string)
  (intentDigest reservation provenance : string) (now : Time) : Step :=
  mkStep ContractVersion stepID runID scope activity StepPending 1 deadline inputs [] intentDigest "" reservation "" provenance
    now now 1.

Definition initial (request : StartRequest) (budget : Reservation) (provenance : string) (now : Time) : Snapshot :=
  let inputs := items (st_InputRefs request) in
  mkSnapshot
    (mkRun ContractVersion (st_RunID request) (st_Case request) (st_ActorID request) WorkflowVersion (st_PolicyDigest request)
       (st_ProviderRoute request) (rv_PlanDigest budget) RunRunning (st_StepID request) 1 inputs [] provenance now now 1)
    (first_step (st_RunID request) (st_StepID request) (st_Case request) (st_Activity request) (st_Deadline request) inputs
       (st_IntentDigest request) (rv_ReservationDigest budget) provenance now)
    false.

Definition scheduled (request : ScheduleRequest) (current : Snapshot) (budget : Reservation) (now : Time) : Snapshot :=
  let run := sn_Run current in
  mkSnapshot
    (mkRun (ru_ContractVersion run) (ru_RunID run) (ru_Case run) (ru_ActorID run) (ru_WorkflowVersion run) (ru_PolicyDigest run)
       (ru_ProviderRoute run) (ru_BudgetPlanDigest run) RunRunning (sc_StepID request) (u64 (ru_Sequence run + 1))
       (ru_InputRefs run) (ru_OutputRefs run) (ru_ProvenanceDigest run) (ru_CreatedAt run) (ru_UpdatedAt run)
       (u64 (ru_Revision run + 1)))
    (first_step (sc_RunID request) (sc_StepID request) (sc_Case request) (sc_Activity request) (sc_Deadline request)
       (items (sc_InputRefs request)) (sc_IntentDigest request) (rv_ReservationDigest budget) "" now)
    (sn_Replayed current).

Definition replayed (value : Snapshot) : Snapshot := mkSnapshot (sn_Run value) (sn_Step value) true.
(** ** loop.go: settling and finishing a step *)

(** The reservation of a step that ended is released, and the step bound to the settlement. *)
Definition settleAndBind (key : string) (current : Snapshot) : routine W answer :=
  let run := sn_Run current in
  let step := sn_Step current in
  if negb (String.eqb (sp_BudgetSettlementDigest step) "") then mret (replayed current, None)
  else if negb (terminalStep (sp_Status step))
  then failed (newError Conflict "budget_settle" "step_not_terminal" false NoCause)
  else
    let persist := Some SettleDeadline in
    settlement ← calls (budget_Settle persist
      (mkSettlementRequest ("budget-settle:" ++ ru_RunID run ++ ":" ++ sp_StepID step) (ru_RunID run) (sp_StepID step)
         (ru_Case run) (sp_BudgetReservationDigest step) None (budgetOutcome (sp_Status step))));
    match settlement with
    | Err err => mret (current, Some (own (mapBudgetError "budget_settle" err)))
    | Ok settlement =>
        if negb (String.eqb (sv_ReservationDigest settlement) (sp_BudgetReservationDigest step)) ||
           negb (digestPattern (sv_SettlementDigest settlement))
        then mret (current, Some (own (newError Denied "budget_settle" "budget_settlement_invalid" false NoCause)))
        else
          now ← loop_now "budget_settle";
          match (now ← now; stamp (settled current (sv_SettlementDigest settlement)) (ru_ProvenanceDigest run) "budget_settled" now) with
          | Err err => mret (current, Some (own err))
          | Ok next => save_answer persist (key ++ ":bound") current next
          end
    end.

Definition loop_finish (ctx : context W) (key : string) (current : Snapshot) (stepStatus runStatus : string) (outputs : list string)
  (receiptDigest operation : string) : routine W answer :=
  now ← loop_now "finish";
  match (now ← now; stamp (finished current stepStatus runStatus outputs receiptDigest) (ru_ProvenanceDigest (sn_Run current)) operation now) with
  | Err err => failed err
  | Ok next =>
      saved ← loop_save ctx key current next;
      or_fail saved (fun saved =>
        if negb (String.eqb (sp_BudgetSettlementDigest (sn_Step saved)) "") then mret (saved, None)
        else settleAndBind (key ++ ":budget") saved)
  end.

Definition finishAfterActivity (key : string) (active : Snapshot) (stepStatus runStatus : string) (reason : string)
  (activityErr : activity_error) : routine W answer :=
  '(result, err) ← loop_finish (Some SettleDeadline) key active stepStatus runStatus [] "" reason;
  mret (match err with Some err => (zero_snapshot, Some err) | None => (result, Some activityErr) end).

Definition markUncertain (ctx : context W) (key : string) (current : Snapshot) (reason : string) : routine W answer :=
  '(result, err) ← loop_finish ctx key current StepUncertain RunUncertain [] "" reason;
  mret (match err with
        | Some err => (zero_snapshot, Some err)
        | None => (result, Some (own (newError Conflict "resume" reason false NoCause)))
        end).

(** ** loop.go: executing a step *)

Definition planning_request (active : Snapshot) : ModelRequest :=
  let run := sn_Run active in
  let step := sn_Step active in
  mkModelRequest (ru_RunID run) (mkOperation (sp_StepID step) (ru_Case run) "agent_plan" WorkflowDefinition)
    (ru_PolicyDigest run) (ru_ProviderRoute run) (sp_InputRefs step) (sp_BudgetReservationDigest step) (sp_CreatedAt step)
    (sp_Deadline step).

Definition executePlanning (ctx : context W) (key : string) (active : Snapshot) : routine W answer :=
  result ← Plan_activity ctx (planning_request active);
  match result with
  | Err err =>
      ended ← calls (fun w => (match ctx with Some ended => ended w | None => None end, w));
      let '(status, runStatus, mapped) := planningFailure ended err in
      finishAfterActivity (key ++ ":finished") active status runStatus (err_Reason mapped) (own mapped)
  | Ok artifact => loop_finish ctx (key ++ ":finished") active StepSucceeded RunWaiting [ar_Digest artifact] "" "planning_succeeded"
  end.

Definition executeAction (ctx : context W) (key : string) (active : Snapshot) (intent : ToolIntent) : routine W answer :=
  result ← Act ctx intent (sp_IntentDigest (sn_Step active));
  match result with
  | Err err =>
      if bool_decide (Code err = Denied) && String.eqb (Reason err) "broker_receipt_invalid"
      then finishAfterActivity (key ++ ":finished") active StepUncertain RunUncertain "broker_receipt_invalid" err
      else
        match actionFailure err with
        | Some (step, run, mapped) => finishAfterActivity (key ++ ":finished") active step run (err_Reason mapped) (own mapped)
        | None =>
            finishAfterActivity (key ++ ":finished") active StepUncertain RunUncertain "action_outcome_uncertain"
              (own (newError Unavailable "authorized_action" "action_outcome_uncertain" false NoCause))
        end
  | Ok receipt =>
      match actionReceiptDigest receipt with
      | Err err => failed err
      | Ok receiptDigest =>
          let '(stepStatus, runStatus) := receiptStatuses (rc_Outcome receipt) in
          loop_finish ctx (key ++ ":finished") active stepStatus runStatus [ar_Digest (rc_Evidence receipt)] receiptDigest
            ("action_" ++ rc_Outcome receipt)
      end
  end.

(** The intent must be the step's own. *)
Definition check_intent (request : ExecuteRequest) (current : Snapshot) : result Error unit :=
  let step := sn_Step current in
  deny_if match ex_Intent request with
          | Some _ => String.eqb (sp_Kind step) PlanningActivity
          | None => String.eqb (sp_Kind step) AuthorizedActionActivity
          end (newError InvalidInput "execute" "activity_payload_mismatch" false NoCause) ;;
  match ex_Intent request with
  | None => Ok tt
  | Some intent =>
      deny_if (match toolIntentDigest intent with
               | Ok digest => negb (String.eqb digest (sp_IntentDigest step))
               | Err _ => true
               end || negb (bool_decide (ti_Case intent = ru_Case (sn_Run current))) ||
               negb (String.eqb (ti_OperationID intent) (sp_StepID step)))
        (newError Denied "execute" "intent_binding_mismatch" false NoCause)
  end.

(** Saved as started, the step runs its activity. *)
Definition run_activity (ctx : context W) (request : ExecuteRequest) (current : Snapshot) (attempt : Z) (now : Time) : routine W answer :=
  match stamp (started current attempt) (ru_ProvenanceDigest (sn_Run current)) "activity_started" now with
  | Err err => failed err
  | Ok active =>
      saved ← loop_save ctx (ex_IdempotencyKey request ++ ":started") current active;
      or_fail saved (fun active =>
        if String.eqb (sp_Kind (sn_Step active)) PlanningActivity then executePlanning ctx (ex_IdempotencyKey request) active
        else match ex_Intent request with
             | Some intent => executeAction ctx (ex_IdempotencyKey request) active intent
             | None => mret (zero_snapshot, None) (* the source dereferences a nil intent: it panics *)
             end)
  end.

(** A step that has not ended *)
Definition execute_step (ctx : context W) (request : ExecuteRequest) (current : Snapshot) : routine W answer :=
  let step := sn_Step current in
  match check_intent request current with
  | Err err => failed err
  | Ok _ =>
      now ← loop_now "execute";
      match now with
      | Err err => failed err
      | Ok now =>
          if negb (before now (sp_Deadline step))
          then loop_finish ctx (ex_IdempotencyKey request ++ ":deadline") current StepTimeout RunTimeout [] "" "deadline_elapsed"
          else
            let attempt := if String.eqb (sp_Status step) StepPending then sp_Attempt step else u32 (sp_Attempt step + 1) in
            if 1000 <? attempt
            then loop_finish ctx (ex_IdempotencyKey request ++ ":attempt-limit") current StepFailed RunFailed [] "" "attempt_limit"
            else run_activity ctx request current attempt now
      end
  end.

Definition Execute (ctx : context W) (request : ExecuteRequest) : routine W answer :=
  ready ← validateContext "execute" ctx;
  match ready ;; validateExecute request with
  | Err err => failed err
  | Ok _ =>
      loaded ← loop_load ctx (ex_Case request) (ex_RunID request);
      or_fail loaded (fun current =>
        let run := sn_Run current in
        let step := sn_Step current in
        if negb (String.eqb (sp_StepID step) (ex_StepID request)) || negb (bool_decide (ru_Case run = ex_Case request))
        then failed (newError Denied "execute" "scope_or_step_mismatch" false NoCause)
        else if terminalRun (ru_Status run) || terminalStep (sp_Status step)
        then if String.eqb (sp_BudgetSettlementDigest step) ""
             then settleAndBind (ex_IdempotencyKey request ++ ":recovery") current
             else mret (replayed current, None)
        else if negb (String.eqb (ru_Status run) RunRunning)
        then failed (newError Conflict "execute" "run_not_executable" false NoCause)
        else if String.eqb (sp_Kind step) AuthorizedActionActivity && String.eqb (sp_Status step) StepDispatching
        then markUncertain ctx (ex_IdempotencyKey request ++ ":recovery") current "dispatch_receipt_missing"
        else execute_step ctx request current)
  end.
(** ** loop.go: starting, scheduling and ending *)

Definition Start (ctx : context W) (request : StartRequest) : routine W answer :=
  ready ← validateContext "start" ctx;
  match ready with
  | Err err => failed err
  | Ok _ =>
      now ← loop_now "start";
      match (now ← now; validateStart request now ;; Ok now) with
      | Err err => failed err
      | Ok now =>
          budget ← calls (budget_Reserve ctx
            (mkReservationRequest (st_IdempotencyKey request) (st_RunID request) (st_StepID request) "" (st_Case request)
               (st_Activity request) (st_PolicyDigest request) (st_ProviderRoute request) (st_Deadline request)
               (st_BudgetPlan request) (st_TaskBudget request) (st_BudgetClaim request)));
          match budget with
          | Err err => failed (mapBudgetError "start_budget" err)
          | Ok budget =>
              match start_provenance request budget with
              | Err err => failed err
              | Ok provenance => loop_create ctx (st_IdempotencyKey request) (initial request budget provenance now)
              end
          end
      end
  end.

Definition reserveSchedule (ctx : context W) (request : ScheduleRequest) (current : Snapshot) : routine W (result Error Reservation) :=
  let run := sn_Run current in
  budget ← calls (budget_Reserve ctx
    (mkReservationRequest (sc_IdempotencyKey request) (sc_RunID request) (sc_StepID request) (sc_BudgetParentTaskID request)
       (sc_Case request) (sc_Activity request) (ru_PolicyDigest run) (ru_ProviderRoute run) (sc_Deadline request) None
       (sc_TaskBudget request) (sc_BudgetClaim request)));
  mret match budget with
  | Err err => Err (mapBudgetError "schedule_budget" err)
  | Ok budget =>
      deny_if (negb (String.eqb (rv_PlanDigest budget) (ru_BudgetPlanDigest run)))
        (newError Denied "schedule" "budget_plan_binding_mismatch" false NoCause) ;;
      Ok budget
  end.

Definition schedule_replay (ctx : context W) (request : ScheduleRequest) (current : Snapshot) : routine W answer :=
  let step := sn_Step current in
  if negb (String.eqb (sp_Kind step) (sc_Activity request)) || negb (bool_decide (sp_Deadline step = sc_Deadline request)) ||
     negb (String.eqb (sp_IntentDigest step) (sc_IntentDigest request)) ||
     negb (bool_decide (sp_InputRefs step = items (sc_InputRefs request)))
  then failed (newError Denied "schedule" "schedule_replay_binding_mismatch" false NoCause)
  else
    budget ← reserveSchedule ctx request current;
    match budget with
    | Err err => failed err
    | Ok budget =>
        if negb (String.eqb (rv_ReservationDigest budget) (sp_BudgetReservationDigest step))
        then failed (newError Denied "schedule" "budget_reservation_binding_mismatch" false NoCause)
        else mret (replayed current, None)
    end.

Definition schedule_next (ctx : context W) (request : ScheduleRequest) (current : Snapshot) (now : Time) : routine W answer :=
  let run := sn_Run current in
  let step := sn_Step current in
  if negb (String.eqb (ru_Status run) RunWaiting) || negb (String.eqb (sp_Status step) StepSucceeded) ||
     String.eqb (sp_BudgetSettlementDigest step) "" || negb (bool_decide (ru_Case run = sc_Case request))
  then failed (newError Conflict "schedule" "run_not_waiting" false NoCause)
  else
    budget ← reserveSchedule ctx request current;
    match (budget ← budget; stamp (scheduled request current budget now) (ru_ProvenanceDigest run) "step_scheduled" now) with
    | Err err => failed err
    | Ok next => save_answer ctx (sc_IdempotencyKey request) current next
    end.

Definition Schedule (ctx : context W) (request : ScheduleRequest) : routine W answer :=
  ready ← validateContext "schedule" ctx;
  match ready with
  | Err err => failed err
  | Ok _ =>
      now ← loop_now "schedule";
      match (now ← now; validateSchedule request now ;; Ok now) with
      | Err err => failed err
      | Ok now =>
          loaded ← loop_load ctx (sc_Case request) (sc_RunID request);
          or_fail loaded (fun current =>
            if String.eqb (ru_CurrentStepID (sn_Run current)) (sc_StepID request) then schedule_replay ctx request current
            else schedule_next ctx request current now)
      end
  end.

Definition Complete (ctx : context W) (request : CompleteRequest) : routine W answer :=
  if negb (Domain.validOpaque (co_IdempotencyKey request) 256) || negb (validCase (co_Case request)) || negb (uuidPattern (co_RunID request))
  then failed (newError InvalidInput "complete" "complete_request_invalid" false NoCause)
  else
    ready ← validateContext "complete" ctx;
    match ready with
    | Err err => failed err
    | Ok _ =>
        loaded ← loop_load ctx (co_Case request) (co_RunID request);
        or_fail loaded (fun current =>
          let run := sn_Run current in
          let step := sn_Step current in
          if String.eqb (ru_Status run) RunSucceeded then mret (replayed current, None)
          else if negb (String.eqb (ru_Status run) RunWaiting) || negb (String.eqb (sp_Status step) StepSucceeded) ||
                  String.eqb (sp_BudgetSettlementDigest step) ""
          then failed (newError Conflict "complete" "run_not_completable" false NoCause)
          else
            now ← loop_now "complete";
            match (now ← now; stamp (completed current) (ru_ProvenanceDigest run) "run_completed" now) with
            | Err err => failed err
            | Ok next => save_answer ctx (co_IdempotencyKey request) current next
            end)
    end.

Definition Resume (ctx : context W) (request : ResumeRequest) : routine W answer :=
  if negb (Domain.validOpaque (re_IdempotencyKey request) 256) || negb (validCase (re_Case request)) || negb (uuidPattern (re_RunID request))
  then failed (newError InvalidInput "resume" "resume_request_invalid" false NoCause)
  else
    ready ← validateContext "resume" ctx;
    match ready with
    | Err err => failed err
    | Ok _ =>
        loaded ← loop_load ctx (re_Case request) (re_RunID request);
        or_fail loaded (fun current =>
          let run := sn_Run current in
          let step := sn_Step current in
          if terminalRun (ru_Status run) || String.eqb (ru_Status run) RunWaiting
          then if String.eqb (sp_BudgetSettlementDigest step) ""
               then settleAndBind (re_IdempotencyKey request ++ ":recovery") current
               else mret (replayed current, None)
          else if String.eqb (sp_Kind step) AuthorizedActionActivity && String.eqb (sp_Status step) StepDispatching
          then markUncertain ctx (re_IdempotencyKey request ++ ":uncertain") current "dispatch_receipt_missing"
          else Execute ctx (mkExecuteRequest (re_IdempotencyKey request) (re_Case request) (re_RunID request) (sp_StepID step)
                 (re_Intent request)))
    end.

Definition Terminate (ctx : context W) (request : TerminateRequest) : routine W answer :=
  ready ← validateContext "terminate" ctx;
  match ready ;; validateTerminate request with
  | Err err => failed err
  | Ok _ =>
      loaded ← loop_load ctx (te_Case request) (te_RunID request);
      or_fail loaded (fun current =>
        let run := sn_Run current in
        let step := sn_Step current in
        if negb (String.eqb (sp_StepID step) (te_StepID request)) || negb (bool_decide (ru_Case run = te_Case request))
        then failed (newError Denied "terminate" "scope_or_step_mismatch" false NoCause)
        else if terminalRun (ru_Status run)
        then if String.eqb (sp_BudgetSettlementDigest step) ""
             then settleAndBind (te_IdempotencyKey request ++ ":recovery") current
             else mret (replayed current, None)
        else if String.eqb (sp_Status step) StepDispatching && negb (String.eqb (te_Outcome request) "uncertain")
        then failed (newError Denied "terminate" "dispatch_outcome_requires_uncertainty" false NoCause)
        else
          let '(stepStatus, runStatus) := terminalStatuses (te_Outcome request) in
          loop_finish ctx (te_IdempotencyKey request) current stepStatus runStatus
            (if String.eqb (sp_Status step) StepSucceeded then sp_OutputRefs step else []) ""
            ("terminated_" ++ te_Outcome request ++ "_" ++ te_ReasonDigest request))
  end.
End loop.

(** ** recovery_control.go: the loop as recovery sees it

    Inspection, resumption and cancellation of a child, with the types of
    internal/workflow/recoverycontrol ([types.go], [errors.go]) *)

Definition WorkPending : string := "pending".
Definition WorkRunning : string := "running".
Definition WorkWaiting : string := "waiting".
Definition WorkFailed : string := "failed".
Definition WorkDenied : string := "denied".
Definition WorkCanceled : string := "canceled".
Definition WorkTimeout : string := "timeout".
Definition WorkUncertain : string := "uncertain".

Definition NoSideEffect : string := "none".
Definition ConfirmedSideEffect : string := "confirmed".
Definition IndeterminateSideEffect : string := "indeterminate".

Record WorkSnapshot : Type := mkWorkSnapshot {
  wk_Case : CaseRef; wk_RunID : string; wk_TaskID : string; wk_Status : string; wk_SideEffect : string;
  wk_IntentDigest : string; wk_ReceiptDigest : string; wk_ProvenanceDigest : string; wk_TerminalEvidence : string }.

Record WorkLookup : Type := mkWorkLookup { wl_Case : CaseRef; wl_RunID : string; wl_TaskID : string }.

Record WorkResume : Type := mkWorkResume {
  wr_IdempotencyKey : string; wr_Case : CaseRef; wr_RunID : string; wr_TaskID : string;
  wr_ExpectedProvenanceDigest : string; wr_IntentDigest : string }.

Definition ChildTask : string := "child_task".

Record CancelTarget : Type := mkCancelTarget {
  ct_Sequence : Z; ct_Kind : string; ct_TargetID : string; ct_ExpectedProvenanceDigest : string }.

Record CancelCommand : Type := mkCancelCommand {
  cc_IdempotencyKey : string; cc_Case : CaseRef; cc_RunID : string; cc_RootTaskID : string; cc_Target : CancelTarget;
  cc_ReasonDigest : string; cc_Deadline : Time }.

Definition AckCanceled : string := "canceled".
Definition AckAlreadyTerminal : string := "already_terminal".

Record CancellationAck : Type := mkCancellationAck {
  ck_Sequence : Z; ck_Kind : string; ck_TargetID : string; ck_Outcome : string; ck_EvidenceDigest : string;
  ck_ProvenanceDigest : string }.

(** An error of recoverycontrol without a cause *)
Record DependencyError : Type := mkDependencyError {
  de_code : string; de_reason : string; de_retryable : bool; de_indeterminate : bool }.

Definition dependency_codes : list string := ["denied"; "conflict"; "canceled"; "timeout"; "unavailable"; "internal"].

Definition NewDependencyError (code reason : string) (retryable indeterminate : bool) : DependencyError :=
  if negb (tokenPattern reason) || negb (existsb (String.eqb code) dependency_codes)
  then mkDependencyError "internal" "dependency_error_invalid" false true
  else mkDependencyError code reason retryable indeterminate.

Definition recoveryStatus (value : string) : string :=
  if String.eqb value StepPending then WorkPending
  else if String.eqb value StepRunning || String.eqb value StepDispatching then WorkRunning
  else if String.eqb value StepSucceeded then WorkWaiting
  else if String.eqb value StepFailed then WorkFailed
  else if String.eqb value StepDenied then WorkDenied
  else if String.eqb value StepCanceled then WorkCanceled
  else if String.eqb value StepTimeout then WorkTimeout
  else WorkUncertain.

Definition recoverySnapshot (value : Snapshot) : WorkSnapshot :=
  let step := sn_Step value in
  let sideEffect :=
    if String.eqb (sp_Status step) StepDispatching then IndeterminateSideEffect
    else if negb (String.eqb (sp_ReceiptDigest step) "") then ConfirmedSideEffect
    else NoSideEffect in
  let terminalEvidence := if terminalStep (sp_Status step) then sp_ProvenanceDigest step else "" in
  mkWorkSnapshot (ru_Case (sn_Run value)) (ru_RunID (sn_Run value)) (sp_StepID step) (recoveryStatus (sp_Status step)) sideEffect
    (sp_IntentDigest step) (sp_ReceiptDigest step) (sp_ProvenanceDigest step) terminalEvidence.

Definition mapRecoveryError (err : activity_error) : DependencyError :=
  match Code err with
  | Denied | InvalidInput => NewDependencyError "denied" (Reason err) false false
  | Canceled => NewDependencyError "canceled" (Reason err) false false
  | Timeout => NewDependencyError "timeout" (Reason err) false false
  | Conflict => NewDependencyError "conflict" (Reason err) false false
  | _ => NewDependencyError "unavailable" (Reason err) true false
  end.

(** [NewRecoveryControlAdapter]; an adapter has its loop and its resolver of intents. *)
Definition NewRecoveryControlAdapter (dependency_nil : bool) : result Error unit :=
  deny_if dependency_nil (newError InvalidInput "recovery_adapter" "dependencies_required" false NoCause).

Class IntentResolver (W : Type) : Type := {
  ResolveIntent : context W -> CaseRef -> string -> prog W unit ToolIntent }.

Section recovery.
Context {W : Type} {store : StateStore W} {ports : LoopPorts W} {intents : IntentResolver W}.

Definition recovery_error {A} (code reason : string) (retryable indeterminate : bool) : routine W (result DependencyError A) :=
  mret (Err (NewDependencyError code reason retryable indeterminate)).

Definition Inspect (ctx : context W) (lookup : WorkLookup) : routine W (result DependencyError WorkSnapshot) :=
  loaded ← loop_load ctx (wl_Case lookup) (wl_RunID lookup);
  match loaded with
  | Err err => mret (Err (mapRecoveryError err))
  | Ok snapshot =>
      if negb (String.eqb (sp_StepID (sn_Step snapshot)) (wl_TaskID lookup))
      then recovery_error "denied" "scope_or_task_mismatch" false false
      else mret (Ok (recoverySnapshot snapshot))
  end.

Definition adapter_Resume (ctx : context W) (request : WorkResume) : routine W (result DependencyError WorkSnapshot) :=
  loaded ← loop_load ctx (wr_Case request) (wr_RunID request);
  match loaded with
  | Err err => mret (Err (mapRecoveryError err))
  | Ok current =>
      let step := sn_Step current in
      if negb (String.eqb (sp_StepID step) (wr_TaskID request)) ||
         negb (String.eqb (sp_ProvenanceDigest step) (wr_ExpectedProvenanceDigest request)) ||
         negb (String.eqb (sp_IntentDigest step) (wr_IntentDigest request))
      then recovery_error "denied" "resume_binding_invalid" false false
      else
        intent ← (if String.eqb (sp_Kind step) AuthorizedActionActivity
                  then resolved ← calls (ResolveIntent ctx (wr_Case request) (wr_IntentDigest request));
                       mret (match resolved with Ok intent => Ok (Some intent) | Err _ => Err tt end)
                  else mret (Ok None));
        match intent with
        | Err _ => recovery_error "unavailable" "intent_unavailable" true false
        | Ok intent =>
            '(result, err) ← Resume ctx (mkResumeRequest (wr_IdempotencyKey request) (wr_Case request) (wr_RunID request) intent);
            mret (match err with Some err => Err (mapRecoveryError err) | None => Ok (recoverySnapshot result) end)
        end
  end.

Definition CancelChild (ctx : context W) (command : CancelCommand) : routine W (result DependencyError CancellationAck) :=
  loaded ← loop_load ctx (cc_Case command) (cc_RunID command);
  match loaded with
  | Err err => mret (Err (mapRecoveryError err))
  | Ok current =>
      let step := sn_Step current in
      let target := cc_Target command in
      if negb (String.eqb (ct_Kind target) ChildTask) || negb (String.eqb (sp_StepID step) (ct_TargetID target)) ||
         negb (String.eqb (sp_ProvenanceDigest step) (ct_ExpectedProvenanceDigest target)) ||
         String.eqb (sp_StepID step) (cc_RootTaskID command)
      then recovery_error "denied" "child_binding_invalid" false false
      else if String.eqb (sp_Status step) StepDispatching
      then recovery_error "conflict" "child_dispatch_outcome_uncertain" false true
      else
        '(result, err) ← Terminate ctx (mkTerminateRequest (cc_IdempotencyKey command) (cc_Case command) (cc_RunID command)
           (ct_TargetID target) "canceled" (cc_ReasonDigest command));
        mret (match err with
              | Some err => Err (mapRecoveryError err)
              | None =>
                  Ok (mkCancellationAck (ct_Sequence target) (ct_Kind target) (ct_TargetID target)
                        (if terminalStep (sp_Status step) then AckAlreadyTerminal else AckCanceled)
                        (sp_ProvenanceDigest (sn_Step result)) (ru_ProvenanceDigest (sn_Run result)))
              end)
  end.
End recovery.
