(* ===== verification/AgentSafety.v ===== *)
(** * The agent loop: what goroutines over the store of runs rely on

    A weakest-precondition rule for goroutines that share a world: each keeps an invariant and
    moves the world along a preorder, and what it has learnt is kept by it.  The contract of a metadata
    store that compares and swaps, and what the repository of runs and steps promises over it:
    what is read or saved was stored, and stays on the way to what is stored. *)

From S2P Require Import Prelude GoStrings GoRegexp GoTime GoJson DomainContract Sha256 Domain GoStruct GoCodec RunBudget Storage StorageFacts EStop EStopController EStopFacts ToolRoute Authority Policy ApprovalBroker LeaseFacts LeaseSafety RouteSafety AgentLoop AgentStore.

Local Open Scope string_scope.
Local Open Scope Z_scope.

(** ** The logic *)

Section logic.
Context {W : Type} (I : W -> Prop) (E : W -> W -> Prop) {HE : PreOrder E}.

(** From a world that [w] has become along [E], the goroutine keeps [I], moves along [E] and
    ends with an answer and a world that [Q] allows. *)
Fixpoint wp {A} (Q : A -> W -> Prop) (m : routine W A) (w : W) : Prop :=
  match m with
  | Return a => Q a w
  | Call call rest => forall w1, E w w1 -> I w1 ->
      I (snd (call w1)) /\ E w1 (snd (call w1)) /\ wp Q (rest (fst (call w1))) (snd (call w1))
  end.

Lemma wp_weaken {A} (Q Q' : A -> W -> Prop) (m : routine W A) w :
  (forall a w', E w w' -> Q a w' -> Q' a w') -> wp Q m w -> wp Q' m w.
Proof.
  revert w. induction m as [a|B call rest IH]; intros w HQ; cbn; [by apply HQ|]. intros H w1 Hw Hi.
  destruct (H w1 Hw Hi) as (Hi' & He & Hr). split; [done|split; [done|]]. apply IH; [|done].
  intros a w' Hw'. apply HQ. trans w1; [done|]. by trans (snd (call w1)).
Qed.

Lemma wp_bind {A B} (Q : B -> W -> Prop) (m : routine W A) (f : A -> routine W B) w :
  wp (fun a w' => wp Q (f a) w') m w -> wp Q (m ≫= f) w.
Proof.
  revert w. induction m as [a|C call rest IH]; intros w; [done|]. intros H w1 Hw Hi.
  destruct (H w1 Hw Hi) as (Hi' & He & Hr). split; [done|split; [done|]]. by apply IH.
Qed.

(** A step first, then the rest with what the step taught *)
Lemma wp_then {A B} (P : A -> W -> Prop) (Q : B -> W -> Prop) (m : routine W A) (f : A -> routine W B) w :
  wp P m w -> (forall a w', E w w' -> P a w' -> wp Q (f a) w') -> wp Q (m ≫= f) w.
Proof. intros Hm Hf. apply wp_bind. eapply wp_weaken; [|exact Hm]. exact Hf. Qed.

(** Calls that keep the invariant and move along [E] teach what the goroutine may return. *)
Definition harmless (w w' : W) : Prop := I w -> I w' /\ E w w'.

Lemma wp_harmless {A} (m : routine W A) w : every_call harmless m -> wp (fun a _ => may_return m a) m w.
Proof.
  revert w. induction m as [a|C call rest IH]; intros w; [done|]. intros [Hc Hr] w1 Hw Hi. destruct (Hc w1 Hi) as [Hi' He].
  split; [done|split; [done|]]. eapply wp_weaken; [|apply IH, Hr]. intros a w' _ Ha. by exists w1.
Qed.

Lemma wp_quiet {A B} (Q : B -> W -> Prop) (m : routine W A) (f : A -> routine W B) w : every_call harmless m ->
  (forall a w', E w w' -> may_return m a -> wp Q (f a) w') -> wp Q (m ≫= f) w.
Proof. intros Hm. apply wp_then. by apply wp_harmless. Qed.

(** In a pool every goroutine has seen a world that the present one has become. *)
Lemma advance_wp {A} (Q : A -> W -> Prop) (pool : list (routine W A)) w n :
  Forall (fun m => exists w0, E w0 w /\ wp Q m w0) pool -> I w ->
  let '(pool', w') := advance_at (pool, w) n in
  Forall (fun m => exists w0, E w0 w' /\ wp Q m w0) pool' /\ I w' /\ E w w'.
Proof.
  intros H Hi. unfold advance_at. destruct (pool !! n) as [[a|B call rest]|] eqn:Hn; [done| |done].
  destruct (Forall_lookup_1 _ _ _ _ H Hn) as (w0 & Hw0 & Hm). destruct (Hm w Hw0 Hi) as (Hi' & He & Hr).
  destruct (call w) as [b w1]. cbn [fst snd] in *. split; [|done]. apply Forall_insert; [|by exists w1].
  eapply Forall_impl; [exact H|]. intros m (w2 & Hw2 & Hm2). exists w2. split; [by trans w|done].
Qed.

Lemma lives_wp {A} (Q : A -> W -> Prop) (ls : list (life W A)) w :
  Forall (fun l => Forall (fun m => forall w0, wp Q m w0) (fst l)) ls -> I w -> I (lives ls w) /\ E w (lives ls w).
Proof.
  intros H. revert w. unfold lives. induction H as [|[pool schedule] ls Hl _ IH]; intros w Hi; cbn [fold_left]; [done|].
  assert (Hlive : I (live (pool, schedule) w) /\ E w (live (pool, schedule) w)).
  { clear IH. unfold live. cbn [fst snd] in *. assert (Hall : Forall (fun m => exists w0, E w0 w /\ wp Q m w0) pool).
    { eapply Forall_impl; [exact Hl|]. intros m Hm. by exists w. }
    clear Hl. revert pool w Hall Hi. induction schedule as [|n schedule IHs]; intros pool w Hall Hi; [done|]. cbn [fold_left].
    pose proof (advance_wp Q pool w n Hall Hi) as Ha. destruct (advance_at (pool, w) n) as [pool' w'].
    destruct Ha as (Hall' & Hi' & He). destruct (IHs pool' w' Hall' Hi') as [Hi2 He2]. split; [done|by trans w']. }
  destruct Hlive as [Hi1 He1]. destruct (IH _ Hi1) as [Hi2 He2]. split; [done|by trans (live (pool, schedule) w)].
Qed.
End logic.

(** ** A metadata store that compares and swaps *)

Definition stored_revision (record : option MetadataRecord) : Z := from_option mr_Revision 0 record.

Class MetadataLaws (W : Type) {repository : MetadataStore W} : Type := {
  (* the records, and the transactions committed so far *)
  meta_at : W -> RecordKey -> option MetadataRecord;
  committed : W -> Transaction -> Prop;
  untouched := fun w w' : W => (forall key, meta_at w' key = meta_at w key) /\ (forall tx, committed w' tx -> committed w tx);
  applied := fun (tx : Transaction) (w w' : W) =>
    Forall (fun m => stored_revision (meta_at w (mu_Key m)) = mu_ExpectedRevision m /\ meta_at w' (mu_Key m) = mu_Record m) (tx_Mutations tx) /\
    (forall key, key ∉ map mu_Key (tx_Mutations tx) -> meta_at w' key = meta_at w key) /\
    (forall tx', committed w' tx' -> tx' = tx \/ committed w tx');
  positive_law : forall w key m, meta_at w key = Some m -> mr_Revision m <> 0;
  get_law : forall ctx key w, let '(answer, w') := store_Get ctx key w in
    untouched w w' /\ forall m, answer = Ok m -> meta_at w key = Some m;
  (* an error leaves open whether the transaction was committed; only one that was is replayed *)
  transact_law : forall ctx tx w, Forall (fun m => mu_Kind m = MutationPut) (tx_Mutations tx) ->
    let '(answer, w') := store_Transact ctx tx w in
    untouched w w' /\ (forall value, answer = Ok value -> cr_Replayed value = true /\ committed w tx) \/
    applied tx w w' /\ (forall value, answer = Ok value -> cr_Replayed value = false) }.

(** ** Snapshots and their moves *)

(** What is stored does not say whether it was replayed. *)
Definition plain (v : Snapshot) : Snapshot := mkSnapshot (sn_Run v) (sn_Step v) false.

Definition good (v : Snapshot) : Prop := validateSnapshot v = Ok tt /\ snapshot_typed v /\ sn_Replayed v = false.

Definition move (v v' : Snapshot) : Prop := saveable v v' = Ok tt /\ good v /\ good v'.

Definition run_key (v : Snapshot) : RecordKey := mkRecordKey (ru_Case (sn_Run v)) "run" (ru_RunID (sn_Run v)).
Definition step_key (v : Snapshot) : RecordKey := mkRecordKey (ru_Case (sn_Run v)) "task" (ru_CurrentStepID (sn_Run v)).

Record snapshot_facts (v : Snapshot) : Prop := {
  sf_run : validateRun (sn_Run v) = Ok tt;
  sf_step : validateStep (sn_Step v) = Ok tt;
  sf_case : ru_Case (sn_Run v) = sp_Case (sn_Step v);
  sf_runID : ru_RunID (sn_Run v) = sp_RunID (sn_Step v);
  sf_stepID : ru_CurrentStepID (sn_Run v) = sp_StepID (sn_Step v);
  sf_revision : ru_Revision (sn_Run v) <> 0 /\ sp_Revision (sn_Step v) <> 0;
  sf_status : validStatusBinding (ru_Status (sn_Run v)) (sp_Status (sn_Step v)) = true }.

Lemma snapshot_valid v : validateSnapshot v = Ok tt -> snapshot_facts v.
Proof.
  unfold validateSnapshot. cbv zeta. rewrite !seq_ok. intros (H1 & H2 & H3%deny_if_ok). bool_split.
  repeat match goal with
  | H : bool_decide _ = true |- _ => apply bool_decide_eq_true in H
  | H : String.eqb _ _ = true |- _ => apply String.eqb_eq in H
  end. split; try done. split.
  - apply seq_ok in H1 as [H1%deny_if_ok _]. bool_split. by apply Z.eqb_neq.
  - apply seq_ok in H2 as [H2%deny_if_ok _]. bool_split. by apply Z.eqb_neq.
Qed.

Lemma move_facts v v' : move v v' -> run_key v' = run_key v /\ ru_Revision (sn_Run v') = ru_Revision (sn_Run v) + 1.
Proof.
  intros (H & (_ & [Hr _] & _) & Hv' & _). unfold saveable in H. rewrite !seq_ok in H.
  destruct H as (_ & _ & H%deny_if_ok & _). bool_split.
  repeat match goal with
  | H : bool_decide _ = true |- _ => apply bool_decide_eq_true in H
  | H : String.eqb _ _ = true |- _ => apply String.eqb_eq in H
  | H : Z.eqb _ _ = true |- _ => apply Z.eqb_eq in H
  end. split; [unfold run_key; congruence|].
  pose proof (proj1 (sf_revision _ (snapshot_valid _ Hv'))). destruct Hr as (_ & Hr & _).
  apply (next_revision_exact (ru_Revision (sn_Run v))); [done| |done]. done.
Qed.

Lemma moves_key v v' : rtc move v v' -> run_key v' = run_key v.
Proof. induction 1 as [|x y z H%move_facts _ IH]; [done|]. rewrite IH. apply H. Qed.

Lemma moves_revision v v' : rtc move v v' -> v' = v \/ ru_Revision (sn_Run v) < ru_Revision (sn_Run v').
Proof.
  induction 1 as [|x y z H%move_facts _ IH]; [by left|]. right. destruct IH as [->|IH]; destruct H as [_ H]; lia.
Qed.

(** ** The transaction of a snapshot *)

Lemma transition_transaction_puts key prior next tx : good (plain next) -> transition_transaction key prior next = Ok tx ->
  exists run step, decodeRun (mr_Canonical run) = Ok (sn_Run next) /\ mr_Key run = run_key next /\
    mr_Revision run = ru_Revision (sn_Run next) /\ decodeStep (mr_Canonical step) = Ok (sn_Step next) /\
    mr_Key step = step_key next /\ mr_Revision step = sp_Revision (sn_Step next) /\
    tx_Mutations tx ≡ₚ [mkMutation MutationPut (run_key next) (fst (expected_revisions prior next)) (Some run);
                        mkMutation MutationPut (step_key next) (snd (expected_revisions prior next)) (Some step)].
Proof.
  intros (Hv & [Hr Hs] & _) H. apply snapshot_valid in Hv as [H1 H2 H3 H4 H5 _ _]. cbn in H1, H2, H3, H4, H5, Hr, Hs.
  unfold transition_transaction in H. apply seq_ok in H as [_ H]. apply bind_ok in H as (run & Hrun & H). apply bind_ok in H as (step & Hstep & H).
  destruct (run_back _ _ Hr H1 Hrun) as (Hd & Hk & Hrev). destruct (step_back _ _ Hs H2 Hstep) as (Hd' & Hk' & Hrev').
  exists run, step. assert (Hsk : mr_Key step = step_key next) by (unfold step_key; by rewrite Hk', H3, H5).
  split_and!; try done. destruct (expected_revisions prior next) as [e1 e2]. injection H as <-. cbn [tx_Mutations fst snd].
  unfold transition_mutations. rewrite <- Hsk. change (run_key next) with (mkRecordKey (ru_Case (sn_Run next)) "run" (ru_RunID (sn_Run next))). rewrite <- Hk.
  destruct (String.ltb _ _); [apply Permutation_swap|done].
Qed.

(** A transaction is of one snapshot only. *)
Lemma transaction_of_one key key' prior prior' next next' tx : good (plain next) -> good (plain next') ->
  transition_transaction key prior next = Ok tx -> transition_transaction key' prior' next' = Ok tx -> plain next = plain next'.
Proof.
  intros Hg Hg' H H'. destruct (transition_transaction_puts _ _ _ _ Hg H) as (r & s & Hr & Hrk & _ & Hs & Hsk & _ & Hp).
  destruct (transition_transaction_puts _ _ _ _ Hg' H') as (r' & s' & Hr' & Hrk' & _ & Hs' & Hsk' & _ & Hp').
  rewrite Hp in Hp'. unfold plain.
  assert (Hin : mkMutation MutationPut (run_key next) (fst (expected_revisions prior next)) (Some r) ∈
    [mkMutation MutationPut (run_key next') (fst (expected_revisions prior' next')) (Some r');
     mkMutation MutationPut (step_key next') (snd (expected_revisions prior' next')) (Some s')]) by (rewrite <- Hp'; by left).
  assert (Hin' : mkMutation MutationPut (step_key next) (snd (expected_revisions prior next)) (Some s) ∈
    [mkMutation MutationPut (run_key next') (fst (expected_revisions prior' next')) (Some r');
     mkMutation MutationPut (step_key next') (snd (expected_revisions prior' next')) (Some s')]) by (rewrite <- Hp'; by right; left).
  rewrite !elem_of_cons in Hin, Hin'. destruct Hin as [[=]|[[=]|[]%elem_of_nil]], Hin' as [[=]|[[=]|[]%elem_of_nil]]. subst.
  f_equal; congruence.
Qed.

(** ** What is stored *)

Section stored.
Context {W : Type} {repository : MetadataStore W} {laws : MetadataLaws W}.

(** Both records of the snapshot are stored. *)
Definition stored (w : W) (v : Snapshot) : Prop :=
  good v /\ (exists m, meta_at w (run_key v) = Some m /\ decodeRun (mr_Canonical m) = Ok (sn_Run v) /\ mr_Revision m = ru_Revision (sn_Run v)) /\
  exists m, meta_at w (step_key v) = Some m /\ decodeStep (mr_Canonical m) = Ok (sn_Step v) /\ mr_Revision m = sp_Revision (sn_Step v).

(** It was stored: from there the run has moved on to what is stored now, and so has the record of
    its step, to where the run left it. *)
Definition recorded (w : W) (v : Snapshot) : Prop :=
  exists v' cur m, rtc move v v' /\ rtc move v' cur /\ stored w cur /\
    meta_at w (step_key v) = Some m /\ decodeStep (mr_Canonical m) = Ok (sn_Step v') /\ step_key v' = step_key v.

(** What two reads, one after the other, may see: a run that was stored and a step of it, no older *)
Definition seen (w : W) (v : Snapshot) : Prop :=
  exists v1 v2 cur, sn_Run v = sn_Run v1 /\ sn_Step v = sn_Step v2 /\ rtc move v1 v2 /\ rtc move v2 cur /\ stored w cur.

Definition grows (w w' : W) : Prop := forall v, recorded w v -> recorded w' v.

#[export] Instance grows_preorder : PreOrder grows.
Proof. split; [by intros w v|]. intros w1 w2 w3 H1 H2 v Hv. by apply H2, H1. Qed.

Lemma stored_recorded w v : stored w v -> recorded w v.
Proof. intros H. pose proof H as (_ & _ & m & Hm & Hd & _). by exists v, v, m. Qed.

Lemma recorded_seen w v : recorded w v -> seen w v.
Proof. intros (v' & cur & m & H1 & H2 & H3 & _). exists v, v, cur. split_and!; try done. by trans v'. Qed.


Lemma stored_grows w w' v : grows w w' -> stored w v -> exists cur, rtc move v cur /\ stored w' cur.
Proof. intros H Hv%stored_recorded%H. destruct Hv as (v' & cur & m & H1 & H2 & H3 & _). exists cur. split; [by trans v'|done]. Qed.

Lemma seen_kept w w' v : grows w w' -> seen w v -> seen w' v.
Proof.
  intros H (v1 & v2 & cur & E1 & E2 & H1 & H2 & Hs). destruct (stored_grows w w' cur H Hs) as (cur' & Hm & Hs').
  exists v1, v2, cur'. split_and!; try done. by trans cur.
Qed.

Lemma stored_unique w v v' : stored w v -> stored w v' -> run_key v = run_key v' -> v = v'.
Proof.
  intros ((_ & _ & P) & (m & Hm & Hd & _) & m2 & Hm2 & Hd2 & _) ((_ & _ & P') & (m' & Hm' & Hd' & _) & m2' & Hm2' & Hd2' & _) E.
  rewrite E, Hm' in Hm. injection Hm as ->. rewrite Hd' in Hd. injection Hd as Hr.
  assert (Es : step_key v = step_key v') by (unfold step_key; by rewrite Hr).
  rewrite Es, Hm2' in Hm2. injection Hm2 as ->. rewrite Hd2' in Hd2. injection Hd2 as Hs.
  destruct v, v'; cbn in *. congruence.
Qed.

(** A snapshot that was seen, and whose run is at the stored revision, is what is stored. *)
Lemma seen_current w v : seen w v -> stored_revision (meta_at w (run_key v)) = ru_Revision (sn_Run v) -> stored w (plain v).
Proof.
  intros (v1 & v2 & cur & E1 & E2 & H1 & H2 & Hs) Hrev. assert (Hk : run_key cur = run_key v).
  { rewrite (moves_key v2 cur), (moves_key v1 v2) by done. unfold run_key. by rewrite E1. }
  pose proof Hs as ((_ & _ & Hplain) & (m & Hm & _ & Hr) & _). rewrite <- Hk, Hm in Hrev. cbn in Hrev. rewrite E1, Hr in Hrev.
  destruct (moves_revision _ _ H1) as [->|Hlt1], (moves_revision _ _ H2) as [->|Hlt2]; [|lia..].
  by replace (plain v) with v1 by (unfold plain; rewrite E1, E2; destruct v1; cbn in *; congruence).
Qed.

Lemma stored_same w w' v : (forall key, meta_at w' key = meta_at w key) -> stored w v -> stored w' v.
Proof. intros H. unfold stored. by rewrite !H. Qed.

Lemma same_grows w w' : (forall key, meta_at w' key = meta_at w key) -> grows w w'.
Proof.
  intros H v (v' & cur & m & H1 & H2 & H3 & H4 & H5). exists v', cur, m. rewrite H. split_and!; try done; [|apply H5..].
  by eapply stored_same.
Qed.

(** ** A snapshot is put *)

(** The step's record is the step's of the run that it belongs to. *)
Lemma step_owner v v' : good v -> good v' -> sn_Step v = sn_Step v' -> run_key v = run_key v'.
Proof.
  intros ([_ _ C1 R1 _ _ _]%snapshot_valid & _) ([_ _ C2 R2 _ _ _]%snapshot_valid & _) E. unfold run_key. congruence.
Qed.

Lemma moves_good v v' : rtc move v v' -> good v' -> good v.
Proof. induction 1 as [|x y z H _ IH]; [done|]. intros _. by destruct H as (_ & H & _). Qed.

(** [next] is put over the snapshot it moves from, or where there was none; its step's record is
    the one of that snapshot, or a new one. *)
Record puts (origin : option Snapshot) (next : Snapshot) (w w' : W) : Prop := {
  pu_next : stored w' next;
  pu_origin : match origin with Some p => stored w p /\ move p next | None => meta_at w (run_key next) = None end;
  pu_step : meta_at w (step_key next) = None \/ exists p, origin = Some p /\ step_key p = step_key next;
  pu_other : forall key, key <> run_key next -> key <> step_key next -> meta_at w' key = meta_at w key }.

Lemma put_apart origin next w w' v m s : puts origin next w w' -> stored w v -> run_key v <> run_key next ->
  forall v', good v' -> run_key v' = run_key v -> meta_at w (step_key v') = Some m -> decodeStep (mr_Canonical m) = Ok s ->
  s = sn_Step v' -> step_key v' <> step_key next.
Proof.
  intros Hp Hv Hne v' Hg Hk Hm Hd -> E. rewrite E in Hm. destruct (pu_step _ _ _ _ Hp) as [Hnone|(p & -> & Ep)]; [congruence|].
  destruct (pu_origin _ _ _ _ Hp) as [(Hgp & _ & m' & Hm' & Hd' & _) Hmove]. rewrite Ep, Hm in Hm'. injection Hm' as <-.
  apply Hne. rewrite <- Hk. rewrite (proj1 (move_facts _ _ Hmove)). apply step_owner; [done..|]. congruence.
Qed.

Lemma put_keeps_others origin next w w' v : puts origin next w w' -> stored w v -> run_key v <> run_key next -> stored w' v.
Proof.
  intros Hp Hv Hne. pose proof Hv as (Hg & (m & Hm & Hr) & m2 & Hm2 & Hd2 & Hr2).
  assert (Hsk : step_key v <> step_key next) by by eapply put_apart.
  split; [done|]. split; [exists m|exists m2]; (split; [|done]).
  - rewrite (pu_other _ _ _ _ Hp); [done|done|]. intros [=].
  - rewrite (pu_other _ _ _ _ Hp); [done| |done]. intros [=].
Qed.

Lemma put_grows origin next w w' : puts origin next w w' -> grows w w'.
Proof.
  intros Hp v (v' & cur & m & H1 & H2 & Hs & Hm & Hd & Ek).
  destruct (decide (run_key cur = run_key next)) as [E|Hne].
  - destruct origin as [p|]; [|pose proof (pu_origin _ _ _ _ Hp) as Hn; destruct Hs as (_ & (? & ? & _) & _); cbn in Hn; congruence].
    destruct (pu_origin _ _ _ _ Hp) as [Hsp Hmove]. replace cur with p in *.
    2:{ eapply stored_unique; [done..|]. by rewrite E, (proj1 (move_facts _ _ Hmove)). }
    pose proof (pu_next _ _ _ _ Hp) as Hn. destruct (decide (step_key v = step_key next)) as [Es|Hes].
    + pose proof Hn as (_ & _ & m' & Hm' & Hd' & _). exists next, next, m'. rewrite Es. split_and!; try done. trans v'; [done|].
      eapply rtc_r; [exact H2|done].
    + exists v', next, m. split_and!; try done; [by eapply rtc_r|]. rewrite (pu_other _ _ _ _ Hp); [done| |done]. intros [=].
  - pose proof (put_keeps_others _ _ _ _ _ Hp Hs Hne) as Hs'. exists v', cur, m. split_and!; try done.
    assert (Hg : good v') by (eapply moves_good; [exact H2|apply Hs]).
    assert (Hsk : step_key v' <> step_key next) by (eapply (put_apart origin next w w' cur); eauto; [by rewrite (moves_key _ _ H2)|by rewrite Ek]).
    rewrite (pu_other _ _ _ _ Hp); [done| |by rewrite <- Ek]. intros [=].
Qed.
End stored.

(** ** The invariant, and what the repository answers *)

Section repository.
Context {W : Type} {repository : MetadataStore W} {laws : MetadataLaws W}.

(** What is to hold of every step that is stored, and the tool calls that were made *)
Context (accounted : Step -> Prop) (called : W -> list ToolIntent).
Hypothesis get_called : forall ctx key w, called (snd (store_Get ctx key w)) = called w.
Hypothesis transact_called : forall ctx tx w, called (snd (store_Transact ctx tx w)) = called w.

(** The step was saved as dispatching this intent. *)
Record step_for (intent : ToolIntent) (v : Snapshot) : Prop := {
  st_dispatching : sp_Status (sn_Step v) = StepDispatching;
  st_intent : ToolRoute.Digest intent = Ok (sp_IntentDigest (sn_Step v));
  st_operation : sp_StepID (sn_Step v) = ti_OperationID intent;
  st_case : ru_Case (sn_Run v) = ti_Case intent;
  st_accounted : accounted (sn_Step v) }.

Definition stepped (w : W) (intent : ToolIntent) : Prop := exists v, recorded w v /\ step_for intent v.

Record runs_ok (w : W) : Prop := {
  ro_whole : forall key m, rk_Kind key = "run" -> meta_at w key = Some m -> exists v, stored w v /\ run_key v = key;
  ro_committed : forall tx key prior next, committed w tx -> transition_transaction key prior next = Ok tx -> good (plain next) ->
    recorded w (plain next);
  ro_accounted : forall key m s, rk_Kind key = "task" -> meta_at w key = Some m -> decodeStep (mr_Canonical m) = Ok s -> accounted s;
  ro_called : forall intent, intent ∈ called w -> stepped w intent }.

Lemma stepped_kept w w' intent : grows w w' -> stepped w intent -> stepped w' intent.
Proof. intros H (v & Hv & Hs). exists v. split; [by apply H|done]. Qed.

Local Notation wp := (wp runs_ok grows).
Local Notation harmless := (harmless runs_ok grows).

(** Records that are left alone *)
Lemma untouched_harmless w w' : untouched w w' -> called w' = called w -> harmless w w'.
Proof.
  intros [Hm Hc] Hd [H1 H2 H3 H4]. assert (He : grows w w') by by apply same_grows. split; [|done]. split.
  - intros key m Hk. rewrite Hm. intros Hkm. destruct (H1 key m Hk Hkm) as (v & Hv & E). exists v. split; [by eapply stored_same|done].
  - intros tx key prior next Htx%Hc Ht Hg. apply He. by eapply H2.
  - intros key m s. rewrite Hm. apply H3.
  - intros intent. rewrite Hd. intros Hin%H4. by eapply stepped_kept.
Qed.

Lemma put_ok origin next key prior value tx w w' : puts origin next w w' -> accounted (sn_Step next) -> plain value = next ->
  transition_transaction key prior value = Ok tx -> (forall tx', committed w' tx' -> tx' = tx \/ committed w tx') ->
  called w' = called w -> harmless w w'.
Proof.
  intros Hp Ha Hval Htx Hcom Hd [H1 H2 H3 H4]. pose proof (put_grows _ _ _ _ Hp) as He. split; [|done]. split.
  - intros k m Hk Hm. destruct (decide (k = run_key next)) as [->|Hne]; [by exists next; split; [apply Hp|]|].
    rewrite (pu_other _ _ _ _ Hp) in Hm; [|done|by intros ->]. destruct (H1 k m Hk Hm) as (v & Hv & <-). exists v. split; [|done].
    by eapply put_keeps_others.
  - intros tx' k p n [->|Hc]%Hcom Ht Hg; [|by eapply He, H2].
    assert (Hgn : good (plain value)) by (rewrite Hval; apply (pu_next _ _ _ _ Hp)).
    rewrite (transaction_of_one _ _ _ _ _ _ _ Hg Hgn Ht Htx), Hval. by eapply stored_recorded, pu_next.
  - intros k m s Hk Hm Hs. destruct (decide (k = step_key next)) as [->|Hne].
    + destruct (pu_next _ _ _ _ Hp) as (_ & _ & m' & Hm' & Hd' & _). congruence.
    + rewrite (pu_other _ _ _ _ Hp) in Hm; [|by intros ->|done]. by eapply H3.
  - intros intent. rewrite Hd. intros Hin%H4. by eapply stepped_kept.
Qed.

Lemma look_harmless {A} (f : W -> A) : every_call harmless (calls (fun w => (f w, w))).
Proof. apply every_call_one. intros w Hw. by split. Qed.

Lemma context_harmless operation ctx : every_call harmless (validateContext operation ctx).
Proof. apply look_harmless. Qed.

(** ** Loading *)

(** What a goroutine holds when it has a snapshot in its hands *)
Definition held (w : W) (v : Snapshot) : Prop := seen w v /\ good (plain v) /\ accounted (sn_Step v).

Lemma held_kept w w' v : grows w w' -> held w v -> held w' v.
Proof. intros H (H1 & H2 & H3). split; [by eapply seen_kept|done]. Qed.

Lemma wp_get ctx key (Q : result storage_error MetadataRecord -> W -> Prop) w :
  (forall r w1 w', grows w w1 -> runs_ok w1 -> grows w1 w' -> (forall m, r = Ok m -> meta_at w' key = Some m) -> runs_ok w' -> Q r w') ->
  wp Q (calls (store_Get ctx key)) w.
Proof.
  intros HQ w1 Hw Hi. pose proof (get_law ctx key w1) as H. pose proof (get_called ctx key w1) as Hd.
  destruct (store_Get ctx key w1) as [r w']. cbn [fst snd] in *. destruct H as [Hu Hr].
  destruct (untouched_harmless w1 w' Hu Hd Hi) as [Hi' He]. split; [done|split; [done|]]. apply (HQ r w1); try done.
  intros m Hm. destruct Hu as [-> _]. by apply Hr.
Qed.

Definition loaded (scope : CaseRef) (runID : string) (r : result activity_error Snapshot) (w : W) : Prop :=
  forall v, r = Ok v -> held w v /\ run_key v = mkRecordKey scope "run" runID /\ sn_Replayed v = false.

Lemma wp_or_return {A B} (Q : result activity_error A -> W -> Prop) (r : result Error B) (rest : B -> routine W (result activity_error A)) w :
  (forall e, Q (Err e) w) -> (forall b, r = Ok b -> wp Q (rest b) w) ->
  wp Q (match r with Ok a => rest a | Err err => mret (Err (own err)) end) w.
Proof. intros He Hok. destruct r as [b|err]; [by apply Hok|apply He]. Qed.

Lemma storage_ok {A} operation (r : result storage_error A) a : storage_answer operation r = Ok a -> r = Ok a.
Proof. by destruct r as [b|e]; cbn; intros [=]; subst. Qed.

Lemma wp_load ctx scope runID w : wp (loaded scope runID) (RepositoryStore_Load ctx scope runID) w.
Proof.
  apply wp_quiet; [apply grows_preorder|apply context_harmless|]. intros ready w0 _ _. apply wp_or_return; [done|]. intros _ _.
  eapply wp_then; [apply grows_preorder| |].
  { apply (wp_get _ _ (fun r w' => runs_ok w' /\ forall m, r = Ok m -> meta_at w' (mkRecordKey scope "run" runID) = Some m)). by intros. }
  intros mr w1 _ [Hi1 Hm1]. apply wp_or_return; [done|]. intros run (m & ->%storage_ok & Hrun)%bind_ok.
  destruct (ro_whole _ Hi1 (mkRecordKey scope "run" runID) m eq_refl (Hm1 m eq_refl)) as (v1 & Hv1 & Hk1).
  assert (Er : run = sn_Run v1).
  { destruct Hv1 as (_ & (m' & Hm' & Hd' & _) & _). rewrite Hk1, (Hm1 m eq_refl) in Hm'. injection Hm' as <-. congruence. }
  assert (Ek : mkRecordKey scope "task" (ru_CurrentStepID run) = step_key v1) by (rewrite Er; unfold step_key; injection Hk1 as -> _; done).
  rewrite Ek. eapply wp_then; [apply grows_preorder| |].
  { apply (wp_get _ _ (fun r w' => runs_ok w' /\ recorded w' v1 /\ forall m, r = Ok m -> meta_at w' (step_key v1) = Some m)).
    intros r w2 w' Hw2 _ Hw' Hm Hi. split_and!; [done|by apply Hw', Hw2, stored_recorded|done]. }
  intros ms w2 _ (Hi2 & Hv2 & Hm2). apply wp_or_return; [done|]. intros step (m2 & ->%storage_ok & Hstep)%bind_ok.
  apply wp_or_return; [done|]. intros [] Hval v [= <-].
  destruct Hv2 as (v' & cur & m' & H1 & H2 & Hcur & Hm' & Hd' & _). rewrite (Hm2 m2 eq_refl) in Hm'. injection Hm' as <-.
  assert (Es : step = sn_Step v') by congruence. subst step run. split; [|by split; [rewrite <- Hk1|]].
  split; [by exists v1, v', cur|]. split.
  - pose proof Hv1 as ((_ & [Ht1 _] & _) & _). pose proof (moves_good _ _ H2 (proj1 Hcur)) as (_ & [_ Ht2] & _). by split.
  - eapply ro_accounted; [exact Hi2| |by apply Hm2|exact Hstep]. done.
Qed.

(** ** Saving *)

Definition saved (next : Snapshot) (r : result activity_error Snapshot) (w : W) : Prop :=
  forall v, r = Ok v -> held w v /\ run_key v = run_key next /\ recorded w (plain next).

(** What a snapshot is saved over *)
Definition over (w : W) (prior : option Snapshot) (next : Snapshot) : Prop :=
  match prior with Some p => held w p /\ saveable p next = Ok tt | None => True end.

Lemma revision_zero w key : stored_revision (meta_at w key) = 0 -> meta_at w key = None.
Proof. destruct (meta_at w key) as [m|] eqn:Hm; [|done]. intros H. by apply positive_law in Hm. Qed.

Lemma saveable_keys p next : saveable p next = Ok tt -> run_key (plain p) = run_key next.
Proof.
  unfold saveable. rewrite !seq_ok. intros (_ & _ & H%deny_if_ok & _). bool_split.
  repeat match goal with
  | H : bool_decide _ = true |- _ => apply bool_decide_eq_true in H
  | H : String.eqb _ _ = true |- _ => apply String.eqb_eq in H
  end. unfold run_key. cbn. congruence.
Qed.

Lemma saveable_move p next : good (plain p) -> good (plain next) -> saveable p next = Ok tt -> move (plain p) (plain next).
Proof. intros H1 H2 H. by split. Qed.

Lemma applied_puts key prior next tx w w' : good (plain next) -> over w prior next ->
  transition_transaction key prior next = Ok tx -> applied tx w w' -> exists origin, puts origin (plain next) w w'.
Proof.
  intros Hg Hover Htx (Hmut & Hother & _).
  destruct (transition_transaction_puts _ _ _ _ Hg Htx) as (run & step & Hdr & Hkr & Hrr & Hds & Hks & Hrs & Hp).
  rewrite Hp in Hmut. rewrite !Forall_cons in Hmut. destruct Hmut as ([Hr1 Hr2] & [Hs1 Hs2] & _). cbn [mu_Key mu_ExpectedRevision mu_Record] in *.
  assert (Hnext : stored w' (plain next)) by (split; [done|split; [by exists run|by exists step]]).
  assert (Hrest : forall k, k <> run_key (plain next) -> k <> step_key (plain next) -> meta_at w' k = meta_at w k).
  { intros k H1 H2. apply Hother. rewrite Hp. cbn. rewrite !elem_of_cons, elem_of_nil. intros [->|[->|[]]]; done. }
  destruct prior as [p|]; cbn [expected_revisions fst snd] in *.
  - exists (Some (plain p)). destruct Hover as [(Hseen & Hgp & _) Hsave]. pose proof (saveable_keys _ _ Hsave) as Ek.
    assert (Hst : stored w (plain p)) by (apply seen_current; [done|]; change (run_key p) with (run_key (plain p)); by rewrite Ek).
    split; [done|split; [done|by apply saveable_move]| |done].
    destruct (String.eqb_spec (sp_StepID (sn_Step p)) (sp_StepID (sn_Step next))) as [E|E]; [right|left; by apply revision_zero].
    exists (plain p). split; [done|]. destruct Hgp as (H1%snapshot_valid & _), Hg as (H2%snapshot_valid & _).
    pose proof (sf_stepID _ H1) as E1. pose proof (sf_stepID _ H2) as E2. unfold step_key. injection Ek as Ec _. cbn in *. congruence.
  - exists None. split; [done|by apply revision_zero|left; by apply revision_zero|done].
Qed.

Lemma over_kept w w' prior next : grows w w' -> over w prior next -> over w' prior next.
Proof. intros H. destruct prior as [p|]; [|done]. intros [Hh Hs]. split; [by eapply held_kept|done]. Qed.

Lemma transaction_put_only key prior next tx : good (plain next) -> transition_transaction key prior next = Ok tx ->
  Forall (fun m => mu_Kind m = MutationPut) (tx_Mutations tx).
Proof.
  intros Hg Htx. destruct (transition_transaction_puts _ _ _ _ Hg Htx) as (run & step & _ & _ & _ & _ & _ & _ & Hp).
  rewrite Hp. by repeat constructor.
Qed.

Lemma wp_transact ctx key prior next w : good (plain next) -> accounted (sn_Step next) -> over w prior next ->
  wp (saved next) (transact ctx key prior next) w.
Proof.
  intros Hg Ha Hover. apply wp_or_return; [done|]. intros tx Htx.
  eapply (wp_then _ _ (fun r w' => forall value, r = Ok value -> recorded w' (plain next))); [|].
  - intros w1 Hw Hi. pose proof (transact_law ctx tx w1 (transaction_put_only _ _ _ _ Hg Htx)) as H.
    pose proof (transact_called ctx tx w1) as Hd. destruct (store_Transact ctx tx w1) as [r w']. cbn [fst snd] in *.
    destruct H as [[Hu Hr]|[Happ Hr]].
    + destruct (untouched_harmless w1 w' Hu Hd Hi) as [Hi' He]. split; [done|split; [done|]]. intros value Hv.
      apply He. destruct (Hr value Hv) as [_ Hc]. by eapply ro_committed.
    + destruct (applied_puts key prior next tx w1 w' Hg (over_kept _ _ _ _ Hw Hover) Htx Happ) as [origin Hp].
      destruct (put_ok origin (plain next) key prior next tx w1 w' Hp Ha eq_refl Htx (proj2 (proj2 Happ)) Hd Hi) as [Hi' He].
      split; [done|split; [done|]]. intros value Hv. by eapply stored_recorded, pu_next.
  - intros r w1 Hw Hr. apply wp_or_return; [done|]. intros value ->%storage_ok. destruct (cr_Replayed value).
    + eapply wp_then; [apply grows_preorder|apply wp_load|]. intros answer w2 Hw2 Hl v (stored & -> & [= <-])%bind_ok.
      destruct (Hl stored eq_refl) as ((H1 & H2 & H3) & Hk & _). split_and!; try done. by eapply Hw2, Hr.
    + intros v E. injection E as <-. pose proof (Hr value eq_refl) as Hrec. split; [|done]. split; [|done].
      exact (recorded_seen _ _ Hrec).
Qed.

Lemma wp_create ctx key next w : snapshot_typed next -> accounted (sn_Step next) ->
  wp (saved next) (RepositoryStore_Create ctx key next) w.
Proof.
  intros Ht Ha. apply wp_quiet; [apply grows_preorder|apply context_harmless|]. intros ready w0 _ _. apply wp_or_return; [done|].
  intros [] (_ & H%deny_if_ok)%seq_ok. apply orb_false_iff in H as [H _]. apply negb_false_iff, is_ok_true in H as [[] Hv].
  by apply wp_transact.
Qed.

Lemma wp_repository_save ctx key prior next w : held w prior -> snapshot_typed next -> accounted (sn_Step next) ->
  wp (saved next) (RepositoryStore_Save ctx key prior next) w.
Proof.
  intros Hh Ht Ha. apply wp_quiet; [apply grows_preorder|apply context_harmless|]. intros ready w0 Hw _. apply wp_or_return; [done|].
  intros [] (_ & Hs)%seq_ok. assert (Hv : validateSnapshot next = Ok tt) by (unfold saveable in Hs; rewrite !seq_ok in Hs; apply Hs).
  apply wp_transact; [by split|done|]. split; [by eapply held_kept|done].
Qed.
End repository.
