(* ===== verification/AgentTheorems.v ===== *)
(** * The agent loop: the theorems

    With the repository behind the loop and the tool routes behind its actions: every call of a connector is
    of one durable step, saved as dispatching before, whose budget was reserved, and no
    operation is called twice; durable runs and steps follow their state machine; a canceled
    action loses its receipt. *)

From S2P Require Import Prelude GoStrings GoRegexp GoTime GoJson DomainContract Sha256 Domain GoStruct GoCodec RunBudget Storage StorageFacts EStop EStopController EStopFacts ToolRoute Authority Policy ApprovalLifecycle ApprovalBroker LeaseFacts LeaseSafety RouteRecord RouteBroker RouteSafety AgentLoop AgentStore AgentRun AgentSafety.

Local Open Scope string_scope.
Local Open Scope Z_scope.

(** ** The routes behind the actions *)

(** toolRouteCode as the string it is *)
Definition route_outcome (code : toolRouteCode) : string :=
  match code with
  | routeCodeInvalidInput => "invalid_input"
  | routeCodeDenied => "denied"
  | routeCodeCanceled => "canceled"
  | routeCodeTimeout => "timeout"
  | routeCodeUnavailable => "unavailable"
  | routeCodeUncertain => "uncertain"
  end.

(** What the loop asks of an error of a route: it is none of its own, it may wrap a context's, and
    it has the two methods. *)
Definition route_activity_error (err : toolRouteError) : activity_error :=
  let wraps test := match route_dependency err with Some cause => test cause | None => false end in
  mkActivityError None (wraps errors_is_canceled) (wraps errors_is_deadline) (Some (route_outcome (routeCode err)))
    (Some (route_outcome (routeCode err), DispatchIndeterminate err)).

Definition loop_answer (answer : ActionReceipt * option toolRouteError) : ActionReceipt * option activity_error :=
  (fst answer, option_map route_activity_error (snd answer)).

(** A goroutine over a part of the world *)
Fixpoint lift {V W A} (part : W -> V) (merge : V -> W -> W) (m : routine V A) : routine W A :=
  match m with
  | Return a => Return a
  | Call call rest => Call (fun w => let '(b, v) := call (part w) in (b, merge v w)) (fun b => lift part merge (rest b))
  end.

(** The repository of runs and steps, the routes, and everything else the loop calls, in one
    world.  The clock prints, and the budgets answer only for deadlines that print. *)
Class LoopWorld (W V : Type) {repository : MetadataStore W} {laws : MetadataLaws W} {ports : LoopPorts W} {intents : IntentResolver W}
  {routes : RouteStore V} {route_ports : RoutePorts V} (identity : toolRouteIdentity) : Type := {
  part : W -> V;
  merge : V -> W -> W;
  inner : context W -> context V;
  aside := fun w w' : W => untouched w w' /\ part w' = part w;
  part_merge : forall v w, part (merge v w) = v;
  merge_untouched : forall v w, untouched w (merge v w);
  get_part : forall ctx key w, part (snd (store_Get ctx key w)) = part w;
  transact_part : forall ctx tx w, part (snd (store_Transact ctx tx w)) = part w;
  invoke_aside : forall ctx request w, aside w (snd (Invoke ctx request w));
  reserve_aside : forall ctx request w, aside w (snd (budget_Reserve ctx request w));
  settle_aside : forall ctx request w, aside w (snd (budget_Settle ctx request w));
  now_aside : forall w, aside w (snd (LoopNow w));
  resolve_aside : forall ctx scope intentDigest w, aside w (snd (ResolveIntent ctx scope intentDigest w));
  clock_prints : forall w t w', LoopNow w = (t, w') -> printable t;
  deadlines_print : forall ctx request w r w', budget_Reserve ctx request w = (Ok r, w') -> printable (q_Deadline request);
  actions_are_submissions : forall ctx intent, action_Submit ctx intent =
    lift part merge (Submit identity (inner ctx) intent) ≫= fun answer => Return (loop_answer answer) }.

(** ** What a submission can call

    A relation that every dependency of the routes keeps is kept by a submission. *)
Section submission.
Context {V : Type} {routes : RouteStore V} {ports : RoutePorts V} {laws : RouteLaws V} (identity : toolRouteIdentity)
  (R : V -> V -> Prop) (intent : ToolIntent).
Hypothesis Hread : reads R.
Hypothesis Hsave : saves R.
Hypothesis Hlookup : forall ctx c id v, R v (snd (route_lookup ctx c id v)).
Hypothesis Hbegin : forall ctx key candidate v, R v (snd (route_begin ctx key candidate v)).
Hypothesis Hresolve : forall ctx digest v, R v (snd (resolveToolRoute ctx intent digest v)).
Hypothesis Hauthorize : forall ctx command, every_call R (route_authorize ctx command).
Hypothesis Hallow : forall ctx o t c, every_call R (route_Allow ctx o t c).
Hypothesis Hdispatch : forall ctx v, R v (snd (Dispatch ctx intent v)).

Lemma mapped_every {A} ctx reason indeterminate err (f : toolRouteError -> routine V A) : (forall e, every_call R (f e)) ->
  every_call R (mapped ctx reason indeterminate err ≫= f).
Proof. intros Hf. apply every_call_bind; [by apply look_every|done]. Qed.

Lemma check_every ctx scope : every_call R (checkStop ctx scope).
Proof. apply every_call_bind; [apply Hallow|]. intros [err|]; [by apply mapped_every|done]. Qed.

Lemma authorized_every ctx key current capability : every_call R (authorized_route identity ctx key current intent capability).
Proof.
  unfold authorized_route. cbv zeta. destruct (_ || _ || _); [by apply finish_every|].
  apply every_call_bind; [apply check_every|]. intros [err|]; [by apply finish_error_every|].
  apply every_call_bind; [by apply audit_every|]. intros [id|err]; [|done].
  apply every_call_bind; [by apply transition_every|]. intros tr. destruct (tr ≫= _) as [next|err] eqn:Hn; [|done].
  apply bind_ok in Hn as (tr0 & _ & Hn%chained_transition). apply every_call_bind; [apply every_call_one; intros v; by apply Hsave|].
  intros [saved|err]; [|by apply mapped_every]. apply every_call_bind; [by apply every_call_one|]. intros answered. by apply answered_every.
Qed.

Lemma begun_every ctx key current verified command : every_call R (begun_route identity ctx key current intent verified command).
Proof.
  unfold begun_route. destruct (validateIntentManifestBinding _ _); [|by apply finish_every].
  apply every_call_bind; [apply check_every|]. intros [err|]; [by apply finish_error_every|].
  apply every_call_bind; [destruct (String.eqb _ _); [by apply authorizing_every|done]|]. intros [r|err]; [|done].
  apply every_call_bind; [apply Hauthorize|]. intros [capability|err]; [apply authorized_every|].
  apply mapped_every. intros e. by apply finish_error_every.
Qed.

Lemma resume_every ctx key current continue : every_call R continue -> every_call R (resume identity ctx key current continue).
Proof. intros H. unfold resume. destruct (terminalToolRouteStatus _); [done|]. destruct (String.eqb _ _); [by apply finish_every|done]. Qed.

Lemma resolved_every ctx key digest : every_call R (resolved_route identity ctx key intent digest).
Proof.
  apply every_call_bind; [by apply every_call_one|]. intros [command|err]; [|apply mapped_every; intros e; by apply refuse_every].
  apply every_call_bind; [by apply look_every|]. intros [verified|err]; [|apply mapped_every; intros e; by apply refuse_every].
  unfold bound_route. destruct (toolRouteContextDigest command) as [context|err]; [|done].
  apply every_call_bind; [by apply now_every|]. intros now. destruct (is_zero now); [done|]. cbv zeta.
  destruct (newToolRouteRecord _ _ _ _ _ _ _) as [candidate|err]; [|done].
  apply every_call_bind; [by apply every_call_one|]. intros [[current [|]]|err]; [|apply begun_every|by apply mapped_every].
  destruct (validateRouteReplay current candidate); [apply resume_every, begun_every|by apply refuse_every].
Qed.

Lemma submit_every ctx : every_call R (Submit identity ctx intent).
Proof.
  unfold Submit. destruct ctx as [look|]; [|done]. destruct (ToolRoute.Digest intent) as [digest|err]; [|done].
  apply every_call_bind; [by apply look_every|]. intros [reason|]; [apply mapped_every; intros e; by apply refuse_every|].
  apply every_call_bind; [by apply every_call_one|]. intros [[current [|]]|err]; [|apply resolved_every|by apply mapped_every].
  destruct (validateToolRouteRecord current); [|done]. destruct (negb _); [by apply refuse_every|]. apply resume_every, resolved_every.
Qed.
End submission.

(** A submission hands nothing but its intent to a connector. *)
Definition hands_over {V} {routes : RouteStore V} {ports : RoutePorts V} {laws : RouteLaws V} (intent : ToolIntent) (v v' : V) : Prop :=
  dispatched v' = dispatched v \/ dispatched v' = (dispatched v ++ [intent])%list.

Lemma submit_hands_over {V} {routes : RouteStore V} {ports : RoutePorts V} {laws : RouteLaws V} identity ctx intent :
  every_call (hands_over intent) (Submit identity ctx intent).
Proof.
  assert (Hapart : forall v v' : V, apart v v' -> hands_over intent v v') by (intros v v' [_ H]; by left).
  destruct reads_apart as [H1 H2 H3]. apply submit_every; [split; intros; by apply Hapart|..].
  - intros c key prior next v Ht. pose proof (save_law c key prior next v Ht) as H. destruct (route_save c key prior next v) as [answer v'].
    left. by destruct H as [[[_ ?] _]|(_ & (_ & _ & ?) & _)].
  - intros c case id v. apply Hapart, apart_lookup.
  - intros c key candidate v. pose proof (begin_law c key candidate v) as H. destruct (route_begin c key candidate v) as [answer v'].
    left. by destruct H as [[[_ ?] _]|(_ & (_ & _ & ?) & _)].
  - intros c digest v. apply Hapart, apart_resolve.
  - intros c command. eapply every_call_weaken; [exact Hapart|apply apart_authorize].
  - intros c o t case. eapply every_call_weaken; [exact Hapart|apply apart_allow].
  - intros c v. right. apply dispatch_law.
Qed.

(** ** The budget of a step *)

(** The budgets answered a reservation for this step, and, once it is settled, a settlement of that
    reservation. *)
Definition paid {W} {ports : LoopPorts W} (step : Step) : Prop :=
  (exists ctx request w reservation w', budget_Reserve ctx request w = (Ok reservation, w') /\
     rv_ReservationDigest reservation = sp_BudgetReservationDigest step /\ q_RunID request = sp_RunID step /\
     q_TaskID request = sp_StepID step /\ q_Case request = sp_Case step /\ q_Activity request = sp_Kind step /\
     q_Deadline request = sp_Deadline step) /\
  (sp_BudgetSettlementDigest step = "" \/
   exists ctx request w settlement w', budget_Settle ctx request w = (Ok settlement, w') /\
     sv_SettlementDigest settlement = sp_BudgetSettlementDigest step /\ sv_ReservationDigest settlement = sp_BudgetReservationDigest step /\
     s_RunID request = sp_RunID step /\ s_TaskID request = sp_StepID step /\ s_ReservationDigest request = sp_BudgetReservationDigest step).

(** ** The walk *)

Section walk.
Context {W V : Type} {repository : MetadataStore W} {laws : MetadataLaws W} {ports : LoopPorts W} {intents : IntentResolver W}
  {routes : RouteStore V} {route_ports : RoutePorts V} {route_laws : RouteLaws V} (identity : toolRouteIdentity)
  {world : LoopWorld W V identity}.
#[local] Existing Instance repository_store.

Definition called (w : W) : list ToolIntent := dispatched (part w).

Lemma get_called ctx key w : called (snd (store_Get ctx key w)) = called w.
Proof. unfold called. by rewrite get_part. Qed.

Lemma transact_called ctx tx w : called (snd (store_Transact ctx tx w)) = called w.
Proof. unfold called. by rewrite transact_part. Qed.

Local Notation runs_ok := (runs_ok paid called).
Local Notation wp := (wp runs_ok grows).
Local Notation harmless := (harmless runs_ok grows).
Local Notation held := (held paid).
Local Notation stepped := (stepped paid).

Definition done_well {A} (a : A) (w : W) : Prop := True.

Lemma aside_harmless w w' : aside w w' -> harmless w w'.
Proof. intros [Hu Hp]. apply untouched_harmless; [done|]. unfold called. by rewrite Hp. Qed.

Lemma then_call {A B} (Q : B -> W -> Prop) (call : W -> A * W) (f : A -> routine W B) w : (forall w, aside w (snd (call w))) ->
  (forall a w1 w2, call w1 = (a, w2) -> grows w w2 -> wp Q (f a) w2) -> wp Q (calls call ≫= f) w.
Proof.
  intros Hc Hf w1 Hw Hi. pose proof (aside_harmless _ _ (Hc w1) Hi) as [Hi' He].
  destruct (call w1) as [a w2] eqn:Hcall. cbn [fst snd] in *. split; [done|split; [done|]]. eapply Hf; [done|by trans w1].
Qed.

Lemma then_context {B} (Q : B -> W -> Prop) operation ctx (f : result Error unit -> routine W B) w :
  (forall r w', grows w w' -> wp Q (f r) w') -> wp Q (validateContext operation ctx ≫= f) w.
Proof. intros Hf. apply then_call; [by intros w1|]. intros r w1 w2 _ Hw. by apply Hf. Qed.

Lemma then_now {B} (Q : B -> W -> Prop) operation (f : result Error Time -> routine W B) w :
  (forall r w', grows w w' -> (forall t, r = Ok t -> printable t) -> wp Q (f r) w') -> wp Q (loop_now operation ≫= f) w.
Proof.
  intros Hf. apply then_call; [intros w1; pose proof (now_aside w1) as H; by destruct (LoopNow w1)|].
  intros r w1 w2 Hr Hw. apply Hf; [done|]. intros t E. subst r. destruct (LoopNow w1) as [t0 w0] eqn:Hn. case_match; [done|].
  injection Hr as <- <-. by eapply (clock_prints _ _ _ Hn).
Qed.

Lemma then_load {B} (Q : B -> W -> Prop) ctx scope runID (f : result activity_error Snapshot -> routine W B) w :
  (forall r w', grows w w' -> (forall v, r = Ok v -> held w' v) -> wp Q (f r) w') -> wp Q (loop_load ctx scope runID ≫= f) w.
Proof.
  intros Hf. apply wp_bind. eapply wp_then; [apply grows_preorder|apply wp_load, get_called|].
  intros r w1 Hw Hl. apply Hf; [done|]. intros v (v' & -> & Hv)%bind_ok. unfold checked, store_result in Hv.
  destruct (deny_if _ _); cbn in Hv; [|done]. injection Hv as <-. by apply Hl.
Qed.

Lemma then_save {B} (Q : B -> W -> Prop) ctx key prior next (f : result activity_error Snapshot -> routine W B) w :
  held w prior -> snapshot_typed next -> paid (sn_Step next) ->
  (forall r w', grows w w' -> (forall v, r = Ok v -> held w' v /\ recorded w' (plain next)) -> wp Q (f r) w') ->
  wp Q (loop_save ctx key prior next ≫= f) w.
Proof.
  intros Hh Ht Hp Hf. apply wp_bind. eapply wp_then; [apply grows_preorder|by apply wp_repository_save; [apply get_called|apply transact_called|..]|].
  intros r w1 Hw Hl. apply Hf; [done|]. intros v (v' & -> & Hv)%bind_ok. unfold checked, store_result in Hv.
  destruct (deny_if _ _); cbn in Hv; [|done]. injection Hv as <-. by destruct (Hl v' eq_refl) as (H1 & _ & H2).
Qed.

Lemma save_done ctx key prior next w : held w prior -> snapshot_typed next -> paid (sn_Step next) ->
  wp done_well (save_answer ctx key prior next) w.
Proof. intros Hh Ht Hp. apply then_save; [done..|]. by intros [v|err] w' _ _. Qed.

(** ** The next snapshots *)

Lemma stamp_is value prior operation now next : stamp value prior operation now = Ok next ->
  exists digest, next = mkSnapshot (stamped_run (sn_Run value) digest now) (stamped_step (sn_Step value) digest now) (sn_Replayed value).
Proof. intros (digest & _ & [= <-])%bind_ok. by exists digest. Qed.

Lemma stamp_typed value prior operation now next : stamp value prior operation now = Ok next -> snapshot_typed value -> printable now ->
  snapshot_typed next /\ (paid (sn_Step value) -> paid (sn_Step next)).
Proof.
  intros (digest & ->)%stamp_is [(H1 & H2 & H3 & H4) (H5 & H6 & H7 & H8 & H9)] Hnow. by split_and!.
Qed.

Lemma advanced_typed current status outputs stepStatus attempt stepOutputs receipt settlement replayed : is_u32 attempt -> good (plain current) ->
  snapshot_typed (mkSnapshot (advanced_run (sn_Run current) status outputs)
    (advanced_step (sn_Step current) stepStatus attempt stepOutputs receipt settlement) replayed).
Proof.
  intros Ha (_ & [(H1 & H2 & H3 & H4) (H5 & H6 & H7 & H8 & H9)] & _). cbn in *.
  split; (split_and!; try done; apply u64_is_u64).
Qed.

(** A valid snapshot whose step is paid *)
Definition held_snapshot (v : Snapshot) : Prop := validateSnapshot (plain v) = Ok tt /\ paid (sn_Step v).

Lemma held_attempt w current : held w current -> is_u32 (sp_Attempt (sn_Step current)).
Proof. intros (_ & (_ & [_ H] & _) & _). apply H. Qed.

(** ** The operations *)

Lemma failed_done err w : wp done_well (failed err) w.
Proof. done. Qed.

(** The step of a snapshot that is bound to the settlement that the budgets answered *)
Lemma settled_paid current key outcome settlement w1 w2 : held_snapshot current ->
  budget_Settle (Some SettleDeadline) (mkSettlementRequest key (ru_RunID (sn_Run current)) (sp_StepID (sn_Step current))
    (ru_Case (sn_Run current)) (sp_BudgetReservationDigest (sn_Step current)) None outcome) w1 = (Ok settlement, w2) ->
  sv_ReservationDigest settlement = sp_BudgetReservationDigest (sn_Step current) ->
  paid (sn_Step (settled current (sv_SettlementDigest settlement))).
Proof.
  intros [Hv [Hp _]] Hset Hres. split; [exact Hp|]. right. eexists _, _, w1, settlement, w2. split; [exact Hset|]. split_and!; try done.
  apply snapshot_valid in Hv. apply (sf_runID _ Hv).
Qed.

Lemma settle_done key current w : held w current -> wp done_well (settleAndBind key current) w.
Proof.
  intros Hh. unfold settleAndBind. cbv zeta. destruct (negb (String.eqb (sp_BudgetSettlementDigest (sn_Step current)) "")); [done|].
  destruct (negb (terminalStep _)); [done|]. apply then_call; [apply settle_aside|].
  intros [settlement|err] w1 w2 Hset Hw; [|done]. destruct (_ || _) eqn:Hchk; [done|]. apply orb_false_iff in Hchk as [Hres _].
  apply negb_false_iff, String.eqb_eq in Hres. apply then_now. intros r w3 Hw3 Hnow. destruct (r ≫= _) as [next|err] eqn:Hn; [|done].
  apply bind_ok in Hn as (now & -> & Hn). specialize (Hnow now eq_refl). pose proof (held_kept _ _ _ _ Hw Hh) as Hh2.
  assert (Hpaid : paid (sn_Step (settled current (sv_SettlementDigest settlement)))).
  { eapply settled_paid; [|exact Hset|done]. split; [apply Hh|apply Hh]. }
  destruct (stamp_typed _ _ _ _ _ Hn) as [Ht Hp]; [eapply advanced_typed; [by eapply held_attempt|apply Hh]|done|].
  apply save_done; [by eapply held_kept|done|by apply Hp].
Qed.

Lemma finish_done ctx key current stepStatus runStatus outputs receipt operation w : held w current ->
  wp done_well (loop_finish ctx key current stepStatus runStatus outputs receipt operation) w.
Proof.
  intros Hh. apply then_now. intros r w1 Hw Hnow. destruct (r ≫= _) as [next|err] eqn:Hn; [|done].
  apply bind_ok in Hn as (now & -> & Hn). specialize (Hnow now eq_refl).
  destruct (stamp_typed _ _ _ _ _ Hn) as [Ht Hp]; [eapply advanced_typed; [by eapply held_attempt|apply Hh]|done|].
  apply then_save; [by eapply held_kept|done|apply Hp, Hh|]. intros [v|err] w2 _ Hv; [|done].
  cbn [or_fail]. destruct (negb _); [done|]. by apply settle_done, (Hv v).
Qed.

Lemma finish_then {B} ctx key current stepStatus runStatus outputs receipt operation (f : Snapshot * option activity_error -> routine W B) w :
  held w current -> (forall a w', wp done_well (f a) w') ->
  wp done_well (loop_finish ctx key current stepStatus runStatus outputs receipt operation ≫= f) w.
Proof. intros Hh Hf. eapply wp_then; [apply grows_preorder|by apply finish_done|]. intros a w' _ _. apply Hf. Qed.

Lemma after_activity_done key active stepStatus runStatus reason err w : held w active ->
  wp done_well (finishAfterActivity key active stepStatus runStatus reason err) w.
Proof. intros Hh. apply finish_then; [done|]. by intros [result [e|]] w'. Qed.

Lemma uncertain_done ctx key current reason w : held w current -> wp done_well (markUncertain ctx key current reason) w.
Proof. intros Hh. apply finish_then; [done|]. by intros [result [e|]] w'. Qed.

Lemma planning_failed_done (ctx : context W) key active err w : held w active -> wp done_well
  (ended ← calls (fun w => (match ctx with Some ended => ended w | None => None end, w));
   let '(status, runStatus, mapped) := planningFailure ended err in
   finishAfterActivity (key ++ ":finished") active status runStatus (err_Reason mapped) (own mapped)) w.
Proof.
  intros Hh. apply then_call; [by intros w1|]. intros ended w1 w2 _ Hw. destruct (planningFailure ended err) as [[status runStatus] mapped].
  apply after_activity_done. by eapply held_kept.
Qed.

Lemma planning_done ctx key active w : held w active -> wp done_well (executePlanning ctx key active) w.
Proof.
  intros Hh. apply wp_bind. apply then_context. intros ready w1 Hw1. pose proof (held_kept _ _ _ _ Hw1 Hh) as Hh1.
  destruct (ready ;; _) as [[]|err]; [|exact (planning_failed_done ctx key active (own err) w1 Hh1)].
  apply then_call; [apply invoke_aside|]. intros r w2 w3 _ Hw3. pose proof (held_kept _ _ _ _ Hw3 Hh1) as Hh3.
  cbn [wp mret routine_ret AgentSafety.wp]. destruct (r ≫= _) as [artifact|err]; [by apply finish_done|by apply planning_failed_done].
Qed.

(** ** Actions *)

Lemma stepped_call w v' intent : stepped w intent -> hands_over intent (part w) v' -> harmless w (merge v' w).
Proof.
  intros Hs Hv [H1 H2 H3 H4].
  assert (He : grows w (merge v' w)) by apply same_grows, merge_untouched. split; [|done].
  destruct (merge_untouched v' w) as [Hm Hc]. split.
  - intros key m Hk. rewrite Hm. intros Hkm. destruct (H1 key m Hk Hkm) as (v & Hv1 & E). exists v. split; [by eapply stored_same|done].
  - intros tx key prior next Htx%Hc Ht Hg. apply He. by eapply H2.
  - intros key m s. rewrite Hm. apply H3.
  - intros i. unfold called. rewrite part_merge. intros Hi. eapply stepped_kept; [exact He|].
    destruct Hv as [E|E]; rewrite E in Hi; [by apply H4|]. apply elem_of_app in Hi as [Hi|Hi%list_elem_of_singleton]; [by apply H4|by subst i].
Qed.

Lemma lifted_submission {A} (m : routine V A) intent w : every_call (hands_over intent) m -> stepped w intent ->
  wp done_well (lift part merge m) w.
Proof.
  revert w. induction m as [a|B call rest IH]; intros w; [done|]. intros [Hc Hr] Hs w1 Hw Hi. specialize (Hc (part w1)).
  pose proof (stepped_kept _ _ _ _ Hw Hs) as Hs1. destruct (call (part w1)) as [b v']. cbn [fst snd] in *.
  destruct (stepped_call w1 v' intent Hs1 Hc Hi) as [Hi' He]. split; [done|split; [done|]]. apply IH; [apply Hr|].
  by eapply stepped_kept.
Qed.

Lemma act_done ctx intent intentDigest w : stepped w intent -> wp done_well (Act ctx intent intentDigest) w.
Proof.
  intros Hs. apply then_context. intros ready w1 Hw. destruct (ready ;; _) as [[]|err]; [|done]. rewrite actions_are_submissions.
  apply wp_bind, wp_bind. eapply wp_weaken; [apply grows_preorder| |apply (lifted_submission _ intent); [apply submit_hands_over|by eapply stepped_kept]].
  intros [receipt err] w2 _ _. done.
Qed.

Lemma action_done ctx key active intent w : held w active -> stepped w intent -> wp done_well (executeAction ctx key active intent) w.
Proof.
  intros Hh Hs. eapply wp_then; [apply grows_preorder|by apply act_done|]. intros [receipt|err] w1 Hw _; pose proof (held_kept _ _ _ _ Hw Hh) as Hh1.
  - destruct (actionReceiptDigest receipt) as [digest|err]; [|done]. destruct (receiptStatuses _). by apply finish_done.
  - destruct (_ && _); [by apply after_activity_done|]. destruct (actionFailure err) as [[[step run] mapped]|]; by apply after_activity_done.
Qed.

Lemma action_kind v : validateSnapshot v = Ok tt -> String.eqb (sp_Kind (sn_Step v)) PlanningActivity = false ->
  sp_Kind (sn_Step v) = AuthorizedActionActivity.
Proof.
  intros Hst%snapshot_valid%sf_step Hk. unfold validateStep in Hst. apply seq_ok in Hst as [Hst%deny_if_ok _].
  repeat (apply orb_false_iff in Hst as [Hst ?]).
  match goal with H : negb (validateActivity _ _) = false |- _ => apply negb_false_iff in H; unfold validateActivity in H; rewrite Hk in H end.
  by destruct (String.eqb_spec (sp_Kind (sn_Step v)) AuthorizedActionActivity).
Qed.

(** What [check_intent] and the save of the start say of the intent *)
Lemma started_for request current intent attempt now next : check_intent request current = Ok tt -> ex_Intent request = Some intent ->
  held_snapshot current -> stamp (started current attempt) (ru_ProvenanceDigest (sn_Run current)) "activity_started" now = Ok next ->
  step_for paid intent (plain next).
Proof.
  intros Hchk Hi (Hv & Hp) (digest & ->)%stamp_is. unfold check_intent in Hchk. rewrite Hi in Hchk.
  apply seq_ok in Hchk as [H1%deny_if_ok H2%deny_if_ok]. apply orb_false_iff in H2 as [H2 Hop]. apply orb_false_iff in H2 as [Hdig Hcase].
  apply negb_false_iff, String.eqb_eq in Hop. apply negb_false_iff, bool_decide_eq_true in Hcase.
  unfold toolIntentDigest in Hdig. destruct (ToolRoute.Digest intent) as [d|err] eqn:Hd; [|done]. apply negb_false_iff, String.eqb_eq in Hdig.
  split; cbn; [|by rewrite Hd, Hdig|done..].
  pose proof (action_kind (plain current) Hv H1) as Hk. cbn in Hk. by rewrite Hk.
Qed.

Lemma activity_done ctx request current attempt now w : held w current -> is_u32 attempt -> printable now ->
  check_intent request current = Ok tt -> wp done_well (run_activity ctx request current attempt now) w.
Proof.
  intros Hh Ha Hnow Hchk. unfold run_activity. destruct (stamp _ _ _ _) as [next|err] eqn:Hn; [|done].
  destruct (stamp_typed _ _ _ _ _ Hn) as [Ht Hp]; [by eapply advanced_typed; [|apply Hh]|done|].
  apply then_save; [done|done|apply Hp, Hh|]. intros [active|err] w1 _ Hsaved; [|done]. destruct (Hsaved active eq_refl) as [Hha Hrec].
  cbn [or_fail]. destruct (String.eqb _ _); [by apply planning_done|]. destruct (ex_Intent request) as [intent|] eqn:Hi; [|done].
  apply action_done; [done|]. exists (plain next). split; [done|]. eapply started_for; [done..| |exact Hn].
  destruct Hh as (_ & (Hv & _) & Hpaid). by split.
Qed.

Lemma step_done ctx request current w : held w current -> wp done_well (execute_step ctx request current) w.
Proof.
  intros Hh. unfold execute_step. cbv zeta. destruct (check_intent request current) as [[]|err] eqn:Hchk; [|done].
  apply then_now. intros [now|err] w1 Hw Hnow; [|done]. specialize (Hnow now eq_refl). pose proof (held_kept _ _ _ _ Hw Hh) as Hh1.
  destruct (negb _); [by apply finish_done|].
  assert (Ha : is_u32 (if String.eqb (sp_Status (sn_Step current)) StepPending then sp_Attempt (sn_Step current) else u32 (sp_Attempt (sn_Step current) + 1))).
  { destruct (String.eqb _ _); [by eapply held_attempt|]. unfold is_u32, u32. apply Z.mod_pos_bound. lia. }
  destruct (1000 <? _); [by apply finish_done|by apply activity_done].
Qed.

(** ** The six operations *)

Lemma execute_done ctx request w : wp done_well (Execute ctx request) w.
Proof.
  apply then_context. intros ready w1 _. destruct (ready ;; _) as [[]|err]; [|done].
  apply then_load. intros [current|err] w2 _ Hl; [|done]. specialize (Hl current eq_refl). cbn [or_fail]. cbv zeta.
  destruct (_ || _); [done|]. destruct (_ || _); [destruct (String.eqb _ _); [by apply settle_done|done]|].
  destruct (negb _); [done|]. destruct (_ && _); [by apply uncertain_done|by apply step_done].
Qed.

Lemma resume_done ctx request w : wp done_well (Resume ctx request) w.
Proof.
  unfold Resume. destruct (_ || _); [done|]. apply then_context. intros [[]|err] w1 _; [|done].
  apply then_load. intros [current|err] w2 _ Hl; [|done]. specialize (Hl current eq_refl). cbn [or_fail]. cbv zeta.
  destruct (_ || _); [destruct (String.eqb _ _); [by apply settle_done|done]|].
  destruct (_ && _); [by apply uncertain_done|by apply execute_done].
Qed.

Lemma terminate_done ctx request w : wp done_well (Terminate ctx request) w.
Proof.
  apply then_context. intros ready w1 _. destruct (ready ;; _) as [[]|err]; [|done].
  apply then_load. intros [current|err] w2 _ Hl; [|done]. specialize (Hl current eq_refl). cbn [or_fail]. cbv zeta.
  destruct (_ || _); [done|]. destruct (terminalRun _); [destruct (String.eqb _ _); [by apply settle_done|done]|].
  destruct (_ && _); [done|]. destruct (terminalStatuses _). by apply finish_done.
Qed.

Lemma complete_done ctx request w : wp done_well (Complete ctx request) w.
Proof.
  unfold Complete. destruct (_ || _); [done|]. apply then_context. intros [[]|err] w1 _; [|done].
  apply then_load. intros [current|err] w2 _ Hl; [|done]. specialize (Hl current eq_refl). cbn [or_fail]. cbv zeta.
  destruct (String.eqb _ _); [done|]. destruct (_ || _); [done|]. apply then_now. intros r w3 Hw Hnow.
  destruct (r ≫= _) as [next|err] eqn:Hn; [|done]. apply bind_ok in Hn as (now & -> & Hn). specialize (Hnow now eq_refl).
  destruct (stamp_typed _ _ _ _ _ Hn) as [Ht Hp]; [eapply advanced_typed; [by eapply held_attempt|apply Hl]|done|].
  apply save_done; [by eapply held_kept|done|apply Hp, Hl].
Qed.

(** A first step, under the reservation that the budgets answered *)
Lemma first_step_paid ctx request reservation w w' runID stepID scope activity deadline inputs intentDigest provenance now :
  budget_Reserve ctx request w = (Ok reservation, w') -> q_RunID request = runID -> q_TaskID request = stepID -> q_Case request = scope ->
  q_Activity request = activity -> q_Deadline request = deadline ->
  paid (first_step runID stepID scope activity deadline inputs intentDigest (rv_ReservationDigest reservation) provenance now).
Proof. intros H <- <- <- <- <-. split; [|by left]. by eexists _, _, w, reservation, w'. Qed.

Lemma start_done ctx request w : wp done_well (Start ctx request) w.
Proof.
  apply then_context. intros [[]|err] w1 _; [|done]. apply then_now. intros r w2 _ Hnow.
  destruct (r ≫= _) as [now|err] eqn:Hr; [|done]. apply bind_ok in Hr as (now' & -> & Hr%seq_ok). destruct Hr as [_ [= ->]].
  specialize (Hnow now eq_refl). apply then_call; [apply reserve_aside|]. intros [budget|err] w3 w4 Hres _; [|done].
  destruct (start_provenance request budget) as [provenance|err]; [|done].
  eapply wp_then; [apply grows_preorder|apply wp_create; [apply get_called|apply transact_called|..]|].
  - pose proof (deadlines_print _ _ _ _ _ Hres). by split_and!.
  - by eapply first_step_paid.
  - intros answer w5 _ _. by destruct (answer ≫= _).
Qed.

Lemma reserve_then ctx request current (f : result Error Reservation -> routine W (Snapshot * option activity_error)) w :
  (forall r w', grows w w' -> (forall budget, r = Ok budget -> printable (sc_Deadline request) /\
     forall inputs intentDigest provenance now, paid (first_step (sc_RunID request) (sc_StepID request) (sc_Case request) (sc_Activity request)
       (sc_Deadline request) inputs intentDigest (rv_ReservationDigest budget) provenance now)) -> wp done_well (f r) w') ->
  wp done_well (reserveSchedule ctx request current ≫= f) w.
Proof.
  intros Hf. apply wp_bind. apply then_call; [apply reserve_aside|]. intros answer w1 w2 Hres Hw. apply Hf; [done|]. intros budget E.
  destruct answer as [reservation|err]; [|done]. apply seq_ok in E as [_ [= <-]].
  split; [exact (deadlines_print _ _ _ _ _ Hres)|]. intros. by eapply first_step_paid.
Qed.

Lemma schedule_done ctx request w : wp done_well (Schedule ctx request) w.
Proof.
  apply then_context. intros [[]|err] w1 _; [|done]. apply then_now. intros r w2 _ Hnow.
  destruct (r ≫= _) as [now|err] eqn:Hr; [|done]. apply bind_ok in Hr as (now' & -> & Hr%seq_ok). destruct Hr as [_ [= ->]].
  specialize (Hnow now eq_refl). apply then_load. intros [current|err] w3 _ Hl; [|done]. specialize (Hl current eq_refl). cbn [or_fail].
  destruct (String.eqb _ _).
  - unfold schedule_replay. cbv zeta. destruct (_ || _); [done|]. apply reserve_then. intros [budget|err] w4 _ _; [|done]. by destruct (negb _).
  - unfold schedule_next. cbv zeta. destruct (_ || _); [done|]. apply reserve_then. intros r w4 Hw Hb.
    destruct (r ≫= _) as [next|err] eqn:Hn; [|done]. apply bind_ok in Hn as (budget & -> & Hn). destruct (Hb budget eq_refl) as [Hd Hpaid].
    destruct (stamp_typed _ _ _ _ _ Hn) as [Ht Hp]; [|done|apply save_done; [by eapply held_kept|done|by apply Hp, Hpaid]].
    destruct Hl as (_ & (_ & [(? & ? & ? & ?) _] & _) & _). split; split_and!; try done; apply u64_is_u64.
Qed.

(** *** And the adapter for recovery *)

Lemma then_done {A B} (m : routine W A) (f : A -> routine W B) w : (forall w, wp done_well m w) -> (forall a w', wp done_well (f a) w') ->
  wp done_well (m ≫= f) w.
Proof. intros Hm Hf. eapply wp_then; [apply grows_preorder|apply Hm|]. intros a w' _ _. apply Hf. Qed.

Lemma inspect_done ctx lookup w : wp done_well (Inspect ctx lookup) w.
Proof. apply then_load. intros [v|err] w1 _ _; [|done]. by destruct (negb _). Qed.

Lemma adapter_done ctx request w : wp done_well (adapter_Resume ctx request) w.
Proof.
  apply then_load. intros [v|err] w1 _ _; [|done]. cbv zeta. destruct (_ || _); [done|]. apply then_done.
  - intros w2. destruct (String.eqb _ _); [|done]. by apply then_call; [apply resolve_aside|].
  - intros [intent|err] w2; [|done]. apply then_done; [intros w3; apply resume_done|]. by intros [result [err|]].
Qed.

Lemma cancel_done ctx command w : wp done_well (CancelChild ctx command) w.
Proof.
  apply then_load. intros [v|err] w1 _ _; [|done]. cbv zeta. destruct (_ || _); [done|]. destruct (String.eqb _ _); [done|].
  apply then_done; [intros w2; apply terminate_done|]. by intros [result [err|]].
Qed.

(** ** The routes under the loop

    Everything but an action leaves the routes alone. *)
Definition routes_kept (w w' : W) : Prop := part w' = part w.
Local Notation alone m := (every_call routes_kept m).

Lemma context_alone operation (ctx : context W) : alone (validateContext operation ctx).
Proof. by apply every_call_one. Qed.

Lemma now_alone operation : alone (loop_now operation).
Proof. apply every_call_one. intros w. pose proof (now_aside w) as [_ H]. by destruct (LoopNow w). Qed.

Lemma get_alone ctx key : alone (calls (store_Get ctx key)).
Proof. apply every_call_one. intros w. apply get_part. Qed.

Lemma load_alone ctx scope runID : alone (RepositoryStore_Load ctx scope runID).
Proof.
  apply every_call_bind; [apply context_alone|]. intros ready. unfold or_return. destruct (ready ;; _); [|done].
  apply every_call_bind; [apply get_alone|]. intros run. destruct (storage_answer _ run ≫= _); [|done].
  apply every_call_bind; [apply get_alone|]. intros step. destruct (storage_answer _ step ≫= _); [|done]. by destruct (validateSnapshot _).
Qed.

Lemma transact_alone ctx key prior next : alone (transact ctx key prior next).
Proof.
  unfold transact, or_return. destruct (transition_transaction _ _ _); [|done].
  apply every_call_bind; [apply every_call_one; intros w; apply transact_part|]. intros r. destruct (storage_answer _ r); [|done].
  destruct (cr_Replayed _); [|done]. by apply every_call_bind; [apply load_alone|].
Qed.

Lemma loop_load_alone ctx scope runID : alone (loop_load ctx scope runID).
Proof. by apply every_call_bind; [apply load_alone|]. Qed.

Lemma loop_save_alone ctx key prior next : alone (loop_save ctx key prior next).
Proof.
  apply every_call_bind; [|done]. apply every_call_bind; [apply context_alone|]. intros ready. unfold or_return.
  destruct (ready ;; _); [apply transact_alone|done].
Qed.

Lemma save_answer_alone ctx key prior next : alone (save_answer ctx key prior next).
Proof. apply every_call_bind; [apply loop_save_alone|]. by intros [v|err]. Qed.

Lemma settle_alone key current : alone (settleAndBind key current).
Proof.
  unfold settleAndBind. cbv zeta. destruct (negb (String.eqb _ _)); [done|]. destruct (negb _); [done|].
  apply every_call_bind; [apply every_call_one; intros w; apply settle_aside|]. intros [settlement|err]; [|done].
  destruct (_ || _); [done|]. apply every_call_bind; [apply now_alone|]. intros now. destruct (now ≫= _); [apply save_answer_alone|done].
Qed.

Lemma loop_finish_alone ctx key current stepStatus runStatus outputs receipt operation :
  alone (loop_finish ctx key current stepStatus runStatus outputs receipt operation).
Proof.
  apply every_call_bind; [apply now_alone|]. intros now. destruct (now ≫= _); [|done].
  apply every_call_bind; [apply loop_save_alone|]. intros [v|err]; [|done]. cbn [or_fail]. destruct (negb _); [done|apply settle_alone].
Qed.

Lemma after_activity_alone key active stepStatus runStatus reason err : alone (finishAfterActivity key active stepStatus runStatus reason err).
Proof. apply every_call_bind; [apply loop_finish_alone|]. by intros [result [e|]]. Qed.

Lemma uncertain_alone ctx key current reason : alone (markUncertain ctx key current reason).
Proof. apply every_call_bind; [apply loop_finish_alone|]. by intros [result [e|]]. Qed.

Lemma planning_alone ctx key active : alone (executePlanning ctx key active).
Proof.
  apply every_call_bind.
  - apply every_call_bind; [apply context_alone|]. intros ready. destruct (ready ;; _); [|done].
    apply every_call_bind; [apply every_call_one; intros w; apply invoke_aside|done].
  - intros [artifact|err]; [apply loop_finish_alone|]. apply every_call_bind; [by apply every_call_one|]. intros ended.
    destruct (planningFailure ended err) as [[status runStatus] mapped]. apply after_activity_alone.
Qed.

(** *** With the token of the routes *)
Local Notation once := (once (fun w => routes_ok (part w)) (fun w w' => evolves (part w) (part w')) (fun w => begun_at (part w))
  (fun w => holds (part w)) location called intent_location).

Lemma once_lift {A} (Q : A -> option toolRouteRecord -> Prop) (m : routine V A) own :
  RouteSafety.once routes_ok evolves begun_at holds location dispatched intent_location Q m own -> once Q (lift part merge m) own.
Proof.
  revert own. induction m as [a|B call rest IH]; intros own; [done|]. intros H w Hw Ho. specialize (H (part w) Hw Ho).
  destruct (call (part w)) as [b v] eqn:Hcall. cbn [fst snd] in *. unfold called. rewrite part_merge.
  destruct H as (Hi & Hk & [(Hl & [Hr|(-> & t & Hn & Ht & Hr)])|(t & e & -> & Hl & He & Hr)]); (split; [done|split; [done|]]).
  - left. split; [done|]. left. by apply IH.
  - left. split; [done|]. right. split; [done|]. exists t. split_and!; [done..|]. by apply IH.
  - right. exists t, e. split_and!; [done..|]. by apply IH.
Qed.

Lemma alone_quiet {A} (m : routine W A) : alone m ->
  every_call (quiet_step (fun w => routes_ok (part w)) (fun w w' => evolves (part w) (part w')) called) m.
Proof. apply every_call_weaken. intros w w' E Hw. unfold called. by rewrite E. Qed.

Lemma once_alone {A} (m : routine W A) own : alone m -> once any m own.
Proof. intros H. apply once_quiet; [by apply alone_quiet|done]. Qed.

Lemma once_next {A B} (m : routine W A) (f : A -> routine W B) : alone m -> (forall a, once any (f a) None) -> once any (m ≫= f) None.
Proof. intros Hm Hf. apply once_after; [by apply alone_quiet|]. intros a _. apply Hf. Qed.

Lemma act_once ctx intent intentDigest : once any (Act ctx intent intentDigest) None.
Proof.
  apply once_next; [apply context_alone|]. intros ready. destruct (ready ;; _); [|done]. rewrite actions_are_submissions.
  apply once_bind, once_bind. eapply once_weaken; [|apply once_lift, submit_once]. by intros [receipt err] [t|] _.
Qed.

Lemma action_once ctx key active intent : once any (executeAction ctx key active intent) None.
Proof.
  apply once_bind. eapply once_weaken; [|apply act_once]. intros [receipt|err] own _; apply once_alone.
  - destruct (actionReceiptDigest receipt); [|done]. destruct (receiptStatuses _). apply loop_finish_alone.
  - destruct (_ && _); [apply after_activity_alone|]. destruct (actionFailure err) as [[[step run] mapped]|]; apply after_activity_alone.
Qed.

Lemma step_once ctx request current : once any (execute_step ctx request current) None.
Proof.
  unfold execute_step. cbv zeta. destruct (check_intent request current); [|done].
  apply once_next; [apply now_alone|]. intros [now|err]; [|done]. destruct (negb _); [apply once_alone, loop_finish_alone|].
  destruct (1000 <? _); [apply once_alone, loop_finish_alone|]. unfold run_activity. destruct (stamp _ _ _ _); [|done].
  apply once_next; [apply loop_save_alone|]. intros [active|err]; [|done]. cbn [or_fail].
  destruct (String.eqb _ _); [apply once_alone, planning_alone|]. destruct (ex_Intent request); [apply action_once|done].
Qed.

Lemma execute_once ctx request : once any (Execute ctx request) None.
Proof.
  apply once_next; [apply context_alone|]. intros ready. destruct (ready ;; _); [|done].
  apply once_next; [apply loop_load_alone|]. intros [current|err]; [|done]. cbn [or_fail]. cbv zeta.
  destruct (_ || _); [done|]. destruct (_ || _); [destruct (String.eqb _ _); [apply once_alone, settle_alone|done]|].
  destruct (negb _); [done|]. destruct (_ && _); [apply once_alone, uncertain_alone|apply step_once].
Qed.

Lemma resume_run_once ctx request : once any (Resume ctx request) None.
Proof.
  unfold Resume. destruct (_ || _); [done|]. apply once_next; [apply context_alone|]. intros [[]|err]; [|done].
  apply once_next; [apply loop_load_alone|]. intros [current|err]; [|done]. cbn [or_fail]. cbv zeta.
  destruct (_ || _); [destruct (String.eqb _ _); [apply once_alone, settle_alone|done]|].
  destruct (_ && _); [apply once_alone, uncertain_alone|apply execute_once].
Qed.

Lemma terminate_alone ctx request : alone (Terminate ctx request).
Proof.
  apply every_call_bind; [apply context_alone|]. intros ready. destruct (ready ;; _); [|done].
  apply every_call_bind; [apply loop_load_alone|]. intros [current|err]; [|done]. cbn [or_fail]. cbv zeta.
  destruct (_ || _); [done|]. destruct (terminalRun _); [destruct (String.eqb _ _); [apply settle_alone|done]|].
  destruct (_ && _); [done|]. destruct (terminalStatuses _). apply loop_finish_alone.
Qed.

Lemma complete_alone ctx request : alone (Complete ctx request).
Proof.
  unfold Complete. destruct (_ || _); [done|]. apply every_call_bind; [apply context_alone|]. intros [[]|err]; [|done].
  apply every_call_bind; [apply loop_load_alone|]. intros [current|err]; [|done]. cbn [or_fail]. cbv zeta.
  destruct (String.eqb _ _); [done|]. destruct (_ || _); [done|]. apply every_call_bind; [apply now_alone|].
  intros now. destruct (now ≫= _); [apply save_answer_alone|done].
Qed.

Lemma start_alone ctx request : alone (Start ctx request).
Proof.
  apply every_call_bind; [apply context_alone|]. intros [[]|err]; [|done]. apply every_call_bind; [apply now_alone|].
  intros now. destruct (now ≫= _); [|done]. apply every_call_bind; [apply every_call_one; intros w; apply reserve_aside|].
  intros [budget|err]; [|done]. destruct (start_provenance _ _); [|done]. apply every_call_bind.
  - apply every_call_bind; [apply context_alone|]. intros ready. unfold or_return. destruct (ready ;; _); [apply transact_alone|done].
  - intros answer. by destruct (answer ≫= _).
Qed.

Lemma schedule_alone ctx request : alone (Schedule ctx request).
Proof.
  assert (Hres : forall current, alone (reserveSchedule ctx request current)).
  { intros current. apply every_call_bind; [apply every_call_one; intros w; apply reserve_aside|done]. }
  apply every_call_bind; [apply context_alone|]. intros [[]|err]; [|done]. apply every_call_bind; [apply now_alone|].
  intros now. destruct (now ≫= _); [|done]. apply every_call_bind; [apply loop_load_alone|]. intros [current|err]; [|done]. cbn [or_fail].
  destruct (String.eqb _ _).
  - unfold schedule_replay. cbv zeta. destruct (_ || _); [done|]. apply every_call_bind; [apply Hres|].
    intros [budget|err]; [|done]. by destruct (negb _).
  - unfold schedule_next. cbv zeta. destruct (_ || _); [done|]. apply every_call_bind; [apply Hres|]. intros budget.
    destruct (budget ≫= _); [apply save_answer_alone|done].
Qed.

Lemma inspect_alone ctx lookup : alone (Inspect ctx lookup).
Proof. apply every_call_bind; [apply loop_load_alone|]. intros [v|err]; [|done]. by destruct (negb _). Qed.

Lemma cancel_alone ctx command : alone (CancelChild ctx command).
Proof.
  apply every_call_bind; [apply loop_load_alone|]. intros [v|err]; [|done]. cbv zeta. destruct (_ || _); [done|]. destruct (String.eqb _ _); [done|].
  apply every_call_bind; [apply terminate_alone|]. by intros [result [err|]].
Qed.

Lemma adapter_once ctx request : once any (adapter_Resume ctx request) None.
Proof.
  apply once_next; [apply loop_load_alone|]. intros [v|err]; [|done]. cbv zeta. destruct (_ || _); [done|]. apply once_next.
  - destruct (String.eqb _ _); [|done]. apply every_call_bind; [apply every_call_one; intros w; apply resolve_aside|done].
  - intros [intent|err]; [|done]. apply once_bind. eapply once_weaken; [|apply resume_run_once]. by intros [result [err|]] own _.
Qed.
(** ** Operations that run alone *)

(** The answer of a goroutine that nobody interrupts, and the world it leaves *)
Definition ends {A} (Q : A -> W -> Prop) (m : routine W A) (w : W) : Prop := Q (fst (run_alone m w)) (snd (run_alone m w)).

Lemma ends_bind {A B} (Q : B -> W -> Prop) (m : routine W A) (f : A -> routine W B) w :
  ends (fun a w' => ends Q (f a) w') m w -> ends Q (m ≫= f) w.
Proof. unfold ends. rewrite run_alone_bind. by destruct (run_alone m w). Qed.

Lemma ends_calls {B} (Q : B -> W -> Prop) (call : W -> B * W) w : Q (fst (call w)) (snd (call w)) -> ends Q (calls call) w.
Proof. unfold ends. cbn. by destruct (call w). Qed.

Lemma ends_mono {A} (Q Q' : A -> W -> Prop) (m : routine W A) w : (forall a w', Q a w' -> Q' a w') -> ends Q m w -> ends Q' m w.
Proof. intros H. apply H. Qed.

(** The snapshot is the current one of its run. *)
Definition current_at (w : W) (v : Snapshot) : Prop := runs_ok w /\ stored w v.

Lemma current_aside w w' v : aside w w' -> current_at w v -> current_at w' v.
Proof. intros Ha [Hr Hs]. split; [by apply (aside_harmless w w')|]. destruct Ha as [[Hm _] _]. by eapply stored_same. Qed.

Lemma current_held w v : current_at w (plain v) -> held w v.
Proof.
  intros [Hr Hs]. split; [exact (recorded_seen w (plain v) (stored_recorded w (plain v) Hs))|]. split; [apply Hs|].
  destruct Hs as (_ & _ & m & Hm & Hd & _). by eapply (ro_accounted _ _ _ Hr (step_key (plain v))).
Qed.

Lemma ends_get ctx key v w (Q : result storage_error MetadataRecord -> W -> Prop) : current_at w v ->
  (forall r w', current_at w' v -> (forall m, r = Ok m -> meta_at w' key = Some m) -> Q r w') -> ends Q (calls (store_Get ctx key)) w.
Proof.
  intros [Hr Hs] HQ. apply ends_calls. pose proof (get_law ctx key w) as H. pose proof (get_called ctx key w) as Hd.
  destruct (store_Get ctx key w) as [r w']. cbn [fst snd] in *. destruct H as [Hu Hm].
  destruct (untouched_harmless paid called w w' Hu Hd Hr) as [Hr' _]. destruct Hu as [Hsame _]. apply HQ; [split; [done|by eapply stored_same]|].
  intros m Hrm. rewrite Hsame. by apply Hm.
Qed.

Lemma ends_load ctx scope runID v w : current_at w v -> run_key v = mkRecordKey scope "run" runID ->
  ends (fun r w' => current_at w' v /\ forall u, r = Ok u -> u = v) (loop_load ctx scope runID) w.
Proof.
  intros Hw Hk. apply ends_bind. apply (ends_mono (fun r w' => current_at w' v /\ forall u, r = Ok u -> u = v)).
  { intros r w' [H1 H2]. split; [done|]. intros u (u' & -> & Hu)%bind_ok. unfold checked, store_result in Hu.
    destruct (deny_if _ _); cbn in Hu; [|done]. injection Hu as <-. by apply H2. }
  apply ends_bind, ends_calls. cbn [fst snd]. unfold or_return. destruct (_ ;; _); [|by split].
  apply ends_bind. apply (ends_get _ _ v); [done|]. intros rm w1 Hw1 Hm1.
  destruct (storage_answer _ rm ≫= _) as [run|] eqn:Hrun; [|by split]. apply bind_ok in Hrun as (m & ->%storage_ok & Hdr).
  pose proof Hw1 as [_ ((_ & _ & Hplain) & (m1 & Hm & Hd & _) & _)].
  rewrite Hk, (Hm1 m eq_refl) in Hm. injection Hm as <-. rewrite Hd in Hdr. injection Hdr as <-.
  assert (Ek : mkRecordKey scope "task" (ru_CurrentStepID (sn_Run v)) = step_key v) by (unfold step_key; injection Hk as -> _; done).
  rewrite Ek. apply ends_bind. apply (ends_get _ _ v); [done|]. intros rs w2 Hw2 Hm2.
  destruct (storage_answer _ rs ≫= _) as [step|] eqn:Hstep; [|by split]. apply bind_ok in Hstep as (m' & ->%storage_ok & Hds).
  pose proof Hw2 as [_ (_ & _ & (m2 & Hm & Hd2 & _))].
  rewrite (Hm2 m' eq_refl) in Hm. injection Hm as <-. rewrite Hd2 in Hds. injection Hds as <-.
  destruct (validateSnapshot _); [|by split]. split; [done|]. intros u [= <-]. destruct v. cbn in *. congruence.
Qed.

(** What moves on from the current snapshot was not recorded before. *)
Lemma move_unrecorded w p next : stored w p -> move p next -> ~ recorded w next.
Proof.
  intros Hs Hmove (v' & cur & m & H1 & H2 & Hcur & _). destruct (move_facts _ _ Hmove) as [Hk Hrev].
  assert (H : rtc move next cur) by by trans v'.
  assert (cur = p) as -> by (eapply stored_unique; [done..|]; by rewrite (moves_key _ _ H)).
  destruct (moves_revision _ _ H) as [->|Hlt]; lia.
Qed.

(** A save that answers has put the snapshot. *)
Lemma ends_save ctx key prior next w : current_at w (plain prior) -> snapshot_typed next -> paid (sn_Step next) ->
  ends (fun r w' => forall u, r = Ok u -> u = next /\ current_at w' (plain next)) (loop_save ctx key prior next) w.
Proof.
  intros Hw Ht Hp. apply ends_bind. apply (ends_mono (fun r w' => forall u, r = Ok u -> u = next /\ current_at w' (plain next))).
  { intros r w' H u (u' & -> & Hu)%bind_ok. unfold checked, store_result in Hu.
    destruct (deny_if _ _); cbn in Hu; [|done]. injection Hu as <-. by apply H. }
  apply ends_bind, ends_calls. cbn [fst snd]. unfold or_return. destruct (_ ;; _) as [[]|] eqn:Hsave; [|done].
  apply seq_ok in Hsave as [_ Hsave]. pose proof (current_held _ _ Hw) as Hh. destruct Hw as [Hr Hs].
  assert (Hgood : good (plain next)).
  { split; [|by split]. unfold saveable in Hsave. rewrite !seq_ok in Hsave. exact (proj1 (proj2 Hsave)). }
  unfold transact, or_return. destruct (transition_transaction key (Some prior) next) as [tx|] eqn:Htx; [|done].
  apply ends_bind, ends_calls. pose proof (transact_law ctx tx w (transaction_put_only _ _ _ _ Hgood Htx)) as Hlaw.
  pose proof (transact_called ctx tx w) as Hd. destruct (store_Transact ctx tx w) as [r w']. cbn [fst snd] in *.
  destruct (storage_answer _ r) as [value|] eqn:Ha; [|done]. apply storage_ok in Ha as ->.
  destruct Hlaw as [[_ H]|[Happ H]].
  - destruct (H value eq_refl) as [_ Hc]. exfalso. eapply (move_unrecorded w (plain prior) (plain next)); [done| |by eapply ro_committed].
    apply saveable_move; [apply Hs|done|done].
  - rewrite (H value eq_refl).
    destruct (applied_puts paid key (Some prior) next tx w w' Hgood (conj Hh Hsave) Htx Happ) as [origin Hput].
    destruct (put_ok paid called origin (plain next) key (Some prior) next tx w w' Hput Hp eq_refl Htx (proj2 (proj2 Happ)) Hd Hr) as [Hr' _].
    intros u [= <-]. split; [done|]. split; [done|by eapply pu_next].
Qed.

(** The step of the run, with this status and this receipt *)
Record step_at (v : Snapshot) (status receipt : string) (v' : Snapshot) : Prop := {
  sa_run : run_key v' = run_key v;
  sa_step : sp_StepID (sn_Step v') = sp_StepID (sn_Step v) /\ sp_IntentDigest (sn_Step v') = sp_IntentDigest (sn_Step v);
  sa_status : sp_Status (sn_Step v') = status;
  sa_receipt : sp_ReceiptDigest (sn_Step v') = receipt }.

Definition leaves_step (v : Snapshot) (status receipt : string) (a : Snapshot * option activity_error) (w : W) : Prop :=
  snd a = None -> exists v', current_at w v' /\ step_at v status receipt v'.

Lemma stamp_step value prior operation now next status receipt v : stamp value prior operation now = Ok next ->
  step_at v status receipt value -> step_at v status receipt (plain next).
Proof. intros (digest & ->)%stamp_is [H1 H2 H3 H4]. by split. Qed.

Lemma ends_now Q operation w : (forall r w', (forall v, current_at w v -> current_at w' v) -> (forall t, r = Ok t -> printable t) -> Q r w') ->
  ends Q (loop_now operation) w.
Proof.
  intros HQ. apply ends_calls. pose proof (now_aside w) as Ha. destruct (LoopNow w) as [t w'] eqn:Hn. cbn [fst snd] in *.
  apply HQ; [intros v; by apply current_aside|]. case_match; [done|]. intros ? [= <-]. by eapply (clock_prints _ _ _ Hn).
Qed.

(** Settling keeps the status and the receipt of the step. *)
Lemma ends_settle key current v status receipt w : current_at w (plain current) -> step_at v status receipt (plain current) ->
  ends (leaves_step v status receipt) (settleAndBind key current) w.
Proof.
  intros Hw Hat. unfold settleAndBind. cbv zeta.
  destruct (negb (String.eqb (sp_BudgetSettlementDigest (sn_Step current)) "")); [by intros _; exists (plain current)|].
  destruct (negb (terminalStep _)); [done|]. apply ends_bind, ends_calls.
  pose proof (settle_aside (Some SettleDeadline) (mkSettlementRequest ("budget-settle:" ++ ru_RunID (sn_Run current) ++ ":" ++ sp_StepID (sn_Step current))
    (ru_RunID (sn_Run current)) (sp_StepID (sn_Step current)) (ru_Case (sn_Run current)) (sp_BudgetReservationDigest (sn_Step current)) None
    (budgetOutcome (sp_Status (sn_Step current)))) w) as Ha.
  destruct (budget_Settle _ _ w) as [[settlement|err] w1] eqn:Hset; cbn [fst snd] in *; [|done].
  pose proof (current_aside _ _ _ Ha Hw) as Hw1. pose proof (current_held _ _ Hw1) as Hh.
  destruct (_ || _) eqn:Hchk; [done|]. apply orb_false_iff in Hchk as [Hres%negb_false_iff%String.eqb_eq _].
  apply ends_bind, ends_now. intros r w2 Hw2 Hnow. destruct (r ≫= _) as [next|err] eqn:Hn; [|done].
  apply bind_ok in Hn as (now & -> & Hn). specialize (Hnow now eq_refl).
  destruct (stamp_typed _ _ _ _ _ Hn) as [Ht Hp]; [eapply advanced_typed; [by eapply held_attempt|apply Hh]|done|].
  apply ends_bind. eapply ends_mono; [|apply (ends_save _ _ current next); [by apply Hw2|done|]].
  - intros [u|err] w3 H; [|done]. intros _. destruct (H u eq_refl) as [_ H3]. exists (plain next). split; [done|].
    eapply stamp_step; [exact Hn|]. destruct Hat. by split.
  - apply Hp. eapply settled_paid; [|exact Hset|done]. split; [apply Hh|apply Hh].
Qed.

(** Finishing leaves the status and the receipt that it is given. *)
Lemma ends_finish ctx key v stepStatus runStatus outputs receipt operation w : current_at w (plain v) ->
  ends (leaves_step v stepStatus receipt) (loop_finish ctx key v stepStatus runStatus outputs receipt operation) w.
Proof.
  intros Hw. pose proof (current_held _ _ Hw) as Hh. apply ends_bind, ends_now. intros r w1 Hw1 Hnow.
  destruct (r ≫= _) as [next|err] eqn:Hn; [|done]. apply bind_ok in Hn as (now & -> & Hn). specialize (Hnow now eq_refl).
  destruct (stamp_typed _ _ _ _ _ Hn) as [Ht Hp]; [eapply advanced_typed; [by eapply held_attempt|apply Hh]|done|].
  apply ends_bind. eapply ends_mono; [|apply (ends_save _ _ v next); [by apply Hw1|done|apply Hp, Hh]].
  intros [u|err] w2 H; [|done]. destruct (H u eq_refl) as [-> Hw2]. cbn [or_fail].
  assert (Hat : step_at v stepStatus receipt (plain next)) by (eapply stamp_step; [exact Hn|by split]).
  destruct (negb _); [by intros _; exists (plain next)|by apply ends_settle].
Qed.

Ltac branch := lazymatch goal with |- ends _ (if ?b then _ else _) _ => destruct b end.

(** C35. Canceling a child whose action was executed erases its receipt.  Take any stored run
    whose step has succeeded with a receipt while the run waits (recovery is told of a confirmed
    side effect), and cancel the step as a child, with nobody in between: whenever the
    cancellation is acknowledged, it is as already terminal, and yet the stored step is canceled
    now and has no receipt, with the same intent: recovery is told that there was no side
    effect. *)
Theorem canceled_actions_lose_their_receipt ctx command v w ack w' : runs_ok w -> stored w v ->
  run_key v = mkRecordKey (cc_Case command) "run" (cc_RunID command) ->
  ru_Status (sn_Run v) = RunWaiting -> sp_Status (sn_Step v) = StepSucceeded -> sp_ReceiptDigest (sn_Step v) <> "" ->
  run_alone (CancelChild ctx command) w = (Ok ack, w') ->
  wk_SideEffect (recoverySnapshot v) = ConfirmedSideEffect /\ ck_Outcome ack = AckAlreadyTerminal /\
  exists v', stored w' v' /\ step_at v StepCanceled "" v' /\ wk_SideEffect (recoverySnapshot v') = NoSideEffect.
Proof.
  intros Hr Hs Hk Hrun Hstep Hreceipt Hcancel.
  assert (Hends : ends (fun a w' => forall ack, a = Ok ack -> ck_Outcome ack = AckAlreadyTerminal /\
    exists v', current_at w' v' /\ step_at v StepCanceled "" v') (CancelChild ctx command) w).
  { apply ends_bind. eapply ends_mono; [|by apply (ends_load ctx (cc_Case command) (cc_RunID command) v)]. intros [u|err] w1 [Hw1 Hu]; [|done].
    rewrite (Hu u eq_refl). clear Hu. cbv zeta. branch; [done|]. rewrite Hstep.
    change (String.eqb StepSucceeded StepDispatching) with false. cbv iota. apply ends_bind.
    eapply (ends_mono (leaves_step v StepCanceled "")).
    { intros [result [err|]] w2 H; [done|]. intros ack' [= <-]. split; [reflexivity|by apply H]. }
    apply ends_bind, ends_calls. cbn [fst snd]. destruct (_ ;; _); [|done].
    apply ends_bind. eapply ends_mono; [|by apply (ends_load ctx (cc_Case command) (cc_RunID command) v)]. intros [u'|err] w2 [Hw2 Hu]; [|done].
    rewrite (Hu u' eq_refl). cbn [or_fail]. cbv zeta. branch; [done|]. rewrite Hrun, Hstep.
    change (terminalRun RunWaiting) with false. change (String.eqb StepSucceeded StepDispatching) with false. cbn [andb te_Outcome].
    change (terminalStatuses "canceled") with (StepCanceled, RunCanceled). cbv beta iota.
    apply ends_finish. replace (plain v) with v; [done|]. destruct Hw2 as [_ ((_ & _ & Hp) & _)]. destruct v. cbn in *. by rewrite Hp. }
  unfold ends in Hends. rewrite Hcancel in Hends. destruct (Hends ack eq_refl) as (Hack & v' & [_ Hs'] & Hat).
  split_and!; [|done|].
  - unfold recoverySnapshot. cbn. rewrite Hstep. apply String.eqb_neq in Hreceipt. by rewrite Hreceipt.
  - exists v'. split_and!; [done..|]. unfold recoverySnapshot. cbn. by rewrite (sa_status _ _ _ _ Hat), (sa_receipt _ _ _ _ Hat).
Qed.
End walk.

(** ** The state machine, abstractly *)

Definition ended : list string := [StepFailed; StepDenied; StepCanceled; StepTimeout; StepUncertain].

Inductive step_phase : string -> string -> Prop :=
| phase_plan : step_phase StepPending StepRunning
| phase_act : step_phase StepPending StepDispatching
| phase_retry : step_phase StepRunning StepRunning
| phase_succeed s : s ∈ [StepRunning; StepDispatching] -> step_phase s StepSucceeded
| phase_lose : step_phase StepDispatching StepUncertain
| phase_end s s' : s ∈ [StepPending; StepRunning; StepDispatching; StepSucceeded] ->
    s' ∈ [StepFailed; StepDenied; StepCanceled; StepTimeout] -> step_phase s s'
| phase_stay s : s ∈ StepSucceeded :: ended -> step_phase s s.

Lemma one_of value choices : oneOfStep value choices = true <-> value ∈ choices.
Proof.
  unfold oneOfStep. rewrite existsb_exists. split.
  - intros (x & Hx & ->%String.eqb_eq). by apply list_elem_of_In.
  - intros H%list_elem_of_In. exists value. by rewrite String.eqb_refl.
Qed.

Lemma legal_step prior next : legalStepTransition prior next = true -> step_phase (sp_Status prior) (sp_Status next).
Proof.
  unfold legalStepTransition. cbv zeta. destruct (_ || _); [done|].
  destruct (String.eqb_spec (sp_Status prior) StepPending) as [->|_].
  { intros [_ H%one_of]%andb_true_iff. rewrite !elem_of_cons in H. destruct H as [->|[->|H]]; [constructor|constructor|].
    apply phase_end; [by left|]. rewrite !elem_of_cons. tauto. }
  destruct (String.eqb_spec (sp_Status prior) StepRunning) as [->|_].
  { destruct (String.eqb_spec (sp_Status next) StepRunning) as [->|_]; [constructor|].
    intros [_ H%one_of]%andb_true_iff. rewrite elem_of_cons in H. destruct H as [->|H]; [apply phase_succeed; by left|].
    apply phase_end; [by right; left|done]. }
  destruct (String.eqb_spec (sp_Status prior) StepDispatching) as [->|_].
  { intros [_ H%one_of]%andb_true_iff. rewrite !elem_of_cons, elem_of_nil in H.
    destruct H as [->|[H|[H|[H|[H|[->|[]]]]]]]; [apply phase_succeed; by right; left| | | | |constructor];
      (apply phase_end; [by right; right; left|rewrite H, !elem_of_cons; tauto]). }
  destruct (String.eqb_spec (sp_Status prior) StepSucceeded) as [->|_].
  { intros [_ H%one_of]%andb_true_iff. rewrite elem_of_cons in H. destruct H as [->|H]; [apply phase_stay; by left|].
    apply phase_end; [by right; right; right; left|done]. }
  destruct (oneOfStep (sp_Status prior) _) eqn:He; [|done]. intros [_ ->%String.eqb_eq]%andb_true_iff.
  apply phase_stay. right. by apply one_of.
Qed.

(** The steps of a run: the same one further, or the next one once this one has succeeded and is
    settled *)
Inductive run_step (s s' : Step) : Prop :=
| same_step : sp_StepID s' = sp_StepID s -> step_binding s = step_binding s' -> step_phase (sp_Status s) (sp_Status s') ->
    (sp_BudgetSettlementDigest s <> "" -> sp_BudgetSettlementDigest s' = sp_BudgetSettlementDigest s) -> run_step s s'
| next_step : sp_StepID s' <> sp_StepID s -> sp_Status s = StepSucceeded -> sp_BudgetSettlementDigest s <> "" ->
    sp_Status s' = StepPending -> sp_Attempt s' = 1 -> sp_ReceiptDigest s' = "" -> run_step s s'.

Lemma move_step v v' : move v v' -> run_binding (sn_Run v) = run_binding (sn_Run v') /\ run_step (sn_Step v) (sn_Step v').
Proof.
  intros (H & _ & _). unfold saveable in H. rewrite !seq_ok in H. destruct H as (_ & _ & _ & H & _).
  unfold validateTransition in H. apply seq_ok in H as [H1%deny_if_ok H2]. repeat (apply orb_false_iff in H1 as [H1 _]).
  apply negb_false_iff, bool_decide_eq_true in H1. split; [done|].
  destruct (String.eqb_spec (sp_StepID (sn_Step v)) (sp_StepID (sn_Step v'))) as [E|E].
  - unfold validateStep_transition in H2. apply seq_ok in H2 as [H2%deny_if_ok H3%deny_if_ok]. bool_split.
    match goal with H : bool_decide _ = true |- _ => apply bool_decide_eq_true in H end.
    apply same_step; [done|done|by apply legal_step|]. intros Hs%String.eqb_neq.
    destruct (String.eqb_spec (sp_BudgetSettlementDigest (sn_Step v)) (sp_BudgetSettlementDigest (sn_Step v'))) as [->|]; [done|].
    by rewrite Hs in H3.
  - unfold validateSchedule_transition in H2. cbv zeta in H2. apply deny_if_ok in H2. bool_split.
    repeat match goal with
    | H : String.eqb _ _ = true |- _ => apply String.eqb_eq in H
    | H : Z.eqb _ _ = true |- _ => apply Z.eqb_eq in H
    | H : String.eqb _ _ = false |- _ => apply String.eqb_neq in H
    end. by apply next_step.
Qed.

(** The same run, later *)
Record later_run (v v' : Snapshot) : Prop := {
  lu_binding : run_binding (sn_Run v) = run_binding (sn_Run v');
  lu_steps : rtc run_step (sn_Step v) (sn_Step v');
  lu_revision : ru_Revision (sn_Run v) <= ru_Revision (sn_Run v');
  lu_ended : sp_Status (sn_Step v) ∈ ended -> sp_StepID (sn_Step v') = sp_StepID (sn_Step v) /\
    sp_Status (sn_Step v') = sp_Status (sn_Step v) /\ ru_Status (sn_Run v') = ru_Status (sn_Run v) }.

Lemma ended_stays s s' : sp_Status s ∈ ended -> rtc run_step s s' -> sp_StepID s' = sp_StepID s /\ sp_Status s' = sp_Status s.
Proof.
  intros He H. revert He. induction H as [s|s1 s2 s3 H _ IH]; [done|]. intros He.
  assert (E : sp_StepID s2 = sp_StepID s1 /\ sp_Status s2 = sp_Status s1).
  { destruct H as [E _ Hp _|_ E _ _ _ _]; [split; [done|]|rewrite E in He; by apply one_of in He].
    apply one_of in He. destruct Hp as [| | |s Hs| |s s' Hs|]; try done; apply one_of in Hs; cbn in Hs;
      repeat (apply orb_true_iff in Hs as [->%String.eqb_eq|Hs]; [done|]); done. }
  destruct E as [E1 E2]. destruct IH as [E3 E4]; [by rewrite E2|]. split; congruence.
Qed.

Lemma ended_run v v' : good v -> good v' -> sp_Status (sn_Step v) ∈ ended -> sp_Status (sn_Step v') = sp_Status (sn_Step v) ->
  ru_Status (sn_Run v') = ru_Status (sn_Run v).
Proof.
  intros (H1%snapshot_valid & _) (H2%snapshot_valid & _) He E. pose proof (sf_status _ H1) as B1. pose proof (sf_status _ H2) as B2.
  rewrite E in B2. unfold ended in He. rewrite !elem_of_cons, elem_of_nil in He.
  destruct He as [He|[He|[He|[He|[He|[]]]]]]; rewrite He in B1, B2; cbn in B1, B2; apply String.eqb_eq in B1, B2; congruence.
Qed.

Lemma moves_later v v' : rtc move v v' -> good v' -> later_run v v'.
Proof.
  intros H Hg. pose proof (moves_good _ _ H Hg) as Hgv.
  assert (Hs : run_binding (sn_Run v) = run_binding (sn_Run v') /\ rtc run_step (sn_Step v) (sn_Step v')).
  { clear Hg Hgv. induction H as [|x y z [E Hs]%move_step _ [IH1 IH2]]; [done|]. split; [by trans (run_binding (sn_Run y))|by eapply rtc_l]. }
  destruct Hs as [H1 H2]. split; [done|done| |].
  - destruct (moves_revision _ _ H) as [->|Hlt]; lia.
  - intros He. destruct (ended_stays _ _ He H2) as [E1 E2]. split; [done|]. split; [done|]. by apply ended_run.
Qed.

(** ** Any number of operations of the loop *)

Section theorems.
Context {W V : Type} {repository : MetadataStore W} {laws : MetadataLaws W} {ports : LoopPorts W} {intents : IntentResolver W}
  {routes : RouteStore V} {route_ports : RoutePorts V} {route_laws : RouteLaws V} (identity : toolRouteIdentity)
  {world : LoopWorld W V identity}.
#[local] Existing Instance repository_store.

(** The operations of the loop and of its adapter for recovery, and what else runs *)
Inductive loop_task : Type :=
| DoStart (ctx : context W) (request : StartRequest)
| DoExecute (ctx : context W) (request : ExecuteRequest)
| DoSchedule (ctx : context W) (request : ScheduleRequest)
| DoComplete (ctx : context W) (request : CompleteRequest)
| DoResume (ctx : context W) (request : ResumeRequest)
| DoTerminate (ctx : context W) (request : TerminateRequest)
| DoInspect (ctx : context W) (lookup : WorkLookup)
| DoRecover (ctx : context W) (request : WorkResume)
| DoCancelChild (ctx : context W) (command : CancelCommand)
| DoOther (m : routine W unit).

Definition no_answer {A} (m : routine W A) : routine W unit := m ≫= fun _ => mret tt.

Definition perform (task : loop_task) : routine W unit :=
  match task with
  | DoStart ctx request => no_answer (Start ctx request)
  | DoExecute ctx request => no_answer (Execute ctx request)
  | DoSchedule ctx request => no_answer (Schedule ctx request)
  | DoComplete ctx request => no_answer (Complete ctx request)
  | DoResume ctx request => no_answer (Resume ctx request)
  | DoTerminate ctx request => no_answer (Terminate ctx request)
  | DoInspect ctx lookup => no_answer (Inspect ctx lookup)
  | DoRecover ctx request => no_answer (adapter_Resume ctx request)
  | DoCancelChild ctx command => no_answer (CancelChild ctx command)
  | DoOther m => m
  end.

(** What runs besides the loop leaves the records and the routes alone. *)
Definition considerate (task : loop_task) : Prop :=
  match task with DoOther m => every_call aside m | _ => True end.

Definition loop_process : Type := list loop_task * list nat.

Definition run_loops (processes : list loop_process) (w : W) : W :=
  lives (map (fun p : loop_process => (map perform (fst p), snd p)) processes) w.

Definition well_mannered (processes : list loop_process) : Prop := Forall (fun p : loop_process => Forall considerate (fst p)) processes.

Lemma perform_done task w : considerate task -> wp (runs_ok paid (called identity)) grows done_well (perform task) w.
Proof.
  destruct task; intros Ht; try (apply then_done; [intros w0|done]);
    [apply start_done|apply execute_done|apply schedule_done|apply complete_done|apply resume_done|apply terminate_done|
     apply inspect_done|apply adapter_done|apply cancel_done|].
  eapply wp_weaken; [apply grows_preorder| |apply wp_harmless; [apply grows_preorder|]]; [done|].
  eapply every_call_weaken; [|exact Ht]. apply aside_harmless.
Qed.

Lemma perform_once task : considerate task ->
  once (fun w => routes_ok (part w)) (fun w w' => evolves (part w) (part w')) (fun w => begun_at (part w)) (fun w => holds (part w))
    location (called identity) intent_location any (perform task) None.
Proof.
  destruct task; intros Ht; try (apply once_bind; eapply once_weaken; [by intros a own _|]);
    [apply once_alone, start_alone|apply execute_once|apply once_alone, schedule_alone|apply once_alone, complete_alone|
     apply resume_run_once|apply once_alone, terminate_alone|apply once_alone, inspect_alone|apply adapter_once|apply once_alone, cancel_alone|].
  apply once_alone. eapply every_call_weaken; [|exact Ht]. by intros w w' [_ H].
Qed.

(** The runs and the routes are in order, and no operation was called twice. *)
Definition loops_ok (w : W) : Prop :=
  runs_ok paid (called identity) w /\ routes_ok (part w) /\ NoDup (map intent_location (dispatched (part w))).

Lemma run_loops_ok processes w : well_mannered processes -> loops_ok w ->
  loops_ok (run_loops processes w) /\ grows w (run_loops processes w).
Proof.
  intros Hp (Hr & Hi & Hnd).
  destruct (lives_wp (runs_ok paid (called identity)) grows done_well
    (map (fun p : loop_process => (map perform (fst p), snd p)) processes) w) as [Hr' He]; [|done|].
  { apply Forall_map. eapply Forall_impl; [exact Hp|]. intros p Hps. cbn. apply Forall_map. eapply Forall_impl; [exact Hps|].
    intros task Ht w0. by apply perform_done. }
  assert (Hpre : PreOrder (fun w w' : W => evolves (part w) (part w'))).
  { split; [intros x; reflexivity|]. intros x y z H1 H2. by trans (part y). }
  destruct (lives_once (fun w => routes_ok (part w)) (fun w w' => evolves (part w) (part w')) (fun w => begun_at (part w)) (fun w => holds (part w))
    location (called identity) intent_location) with (Q := @any unit)
    (ls := map (fun p : loop_process => (map perform (fst p), snd p)) processes) (w := w) as (_ & _ & Hi' & Hnd' & _).
  - intros w1 w2 t H. by apply holds_kept.
  - intros w1 t. apply holds_begun.
  - intros w1 e Hw1. by apply logged_begun.
  - apply Forall_map. eapply Forall_impl; [exact Hp|]. intros p Hps. cbn. apply Forall_map. eapply Forall_impl; [exact Hps|].
    intros task. apply perform_once.
  - split; [done|]. cbn. rewrite app_nil_r. split; [done|]. by intros t Ht%elem_of_nil.
  - cbn in Hnd'. rewrite app_nil_r in Hnd'. by split_and!.
Qed.

(** C5. Every call of a connector belongs to one durable step whose budget was reserved.  The agent loop over its
    repository, any metadata store that compares and swaps, with the tool routes behind its
    actions: whatever operations of the loop any number of processes run, in any interleaving of
    their calls of the store, the model, the budgets and the routes, with crashes anywhere, no two calls of the connector
    are for one operation, and behind each is a snapshot that was stored before it, whose step is this operation of
    this case, dispatching exactly this intent, under a reservation that the budgets answered for this step;
    and the run has only moved on from there, along its state machine. *)
Theorem connector_calls_belong_to_paid_steps processes w : well_mannered processes -> loops_ok w ->
  NoDup (map intent_location (dispatched (part (run_loops processes w)))) /\
  forall intent, intent ∈ dispatched (part (run_loops processes w)) ->
    exists v cur, step_for paid intent v /\ rtc move v cur /\ stored (run_loops processes w) cur /\ later_run v cur.
Proof.
  intros Hp Hw. destruct (run_loops_ok processes w Hp Hw) as [(Hr & _ & Hnd) _]. split; [done|]. intros intent Hin.
  destruct (ro_called _ _ _ Hr intent Hin) as (v & (v' & cur & m & H1 & H2 & Hs & _) & Hv). exists v, cur.
  assert (H : rtc move v cur) by by trans v'. split_and!; [done..|]. apply moves_later; [done|apply Hs].
Qed.

(** C12. Durable runs follow their state machine.  Whatever processes run: a run that is stored stays stored, for the
    same case, actor, policy, provider and budget plan; its steps move as the abstract machine says, one after the
    other, the next one only once the one before has succeeded and its budget is settled; a settlement that is
    bound stays bound; and a run whose step failed, was denied, canceled, timed out or is uncertain
    keeps that step and that outcome for good. *)
Theorem runs_follow_the_state_machine processes w v : well_mannered processes -> loops_ok w -> stored w v ->
  exists v', stored (run_loops processes w) v' /\ run_key v' = run_key v /\ later_run v v'.
Proof.
  intros Hp Hw Hv. destruct (run_loops_ok processes w Hp Hw) as [_ He]. destruct (stored_grows _ _ _ He Hv) as (v' & Hm & Hs).
  exists v'. split; [done|]. split; [by apply moves_key|]. apply moves_later; [done|apply Hs].
Qed.
End theorems.
