(* ===== verification/AgentExample.v ===== *)
(** * The agent loop: a run with one action

    A store in memory, budgets that answer, and the routes of RouteExample.v: a run is started, its
    action executed, and then it is terminated. *)

From S2P Require Import Prelude GoStrings GoRegexp GoTime GoJson DomainContract Sha256 Domain GoStruct GoCodec RunBudget Storage StorageFacts EStop EStopController EStopStore EStopFacts EStopExample ToolRoute Authority TamperAudit Policy ActionManifest ApprovalLifecycle ApprovalLifecycleFacts ApprovalCodec ApprovalBroker ApprovalBrokerExample PreDispatch PreDispatchExample LeaseFacts LeaseSafety RouteRecord RouteBroker RouteSafety RouteTheorems RouteCompose RouteExample AgentLoop AgentStore AgentRun AgentSafety AgentTheorems.

Local Open Scope string_scope.
Local Open Scope Z_scope.

#[export] Instance MetadataRecord_eq_dec : EqDecision MetadataRecord.
Proof. solve_decision. Defined.
#[export] Instance Mutation_eq_dec : EqDecision Mutation.
Proof. solve_decision. Defined.
#[export] Instance OutboxMessage_eq_dec : EqDecision OutboxMessage.
Proof. solve_decision. Defined.
#[export] Instance Transaction_eq_dec : EqDecision Transaction.
Proof. solve_decision. Defined.

Record lx_world : Type := mkLxWorld {
  lx_records : gmap RecordKey MetadataRecord; lx_commits : list Transaction; lx_routes : rx_world; lx_ticks : Z }.

(** A record counts when its revision does. *)
Definition lx_at (w : lx_world) (key : RecordKey) : option MetadataRecord :=
  match lx_records w !! key with Some m => if mr_Revision m =? 0 then None else Some m | None => None end.

Definition lx_error (code : StorageErrorCode) : storage_error := NewStorageError code "store" "" "" None.

(** Transactions of two puts, compared and swapped *)
Definition lx_commit (tx : Transaction) (w : lx_world) : result storage_error CommitResult * lx_world :=
  let result replayed := mkCommitResult (tx_IdempotencyKey tx) 1 replayed ∅ [] in
  if bool_decide (tx ∈ lx_commits w) then (Ok (result true), w)
  else if bool_decide (tx_IdempotencyKey tx ∈ map tx_IdempotencyKey (lx_commits w)) then (Err (lx_error StorageConflict), w)
  else
    match tx_Mutations tx with
    | [mkMutation _ key1 expected1 (Some record1); mkMutation _ key2 expected2 (Some record2)] =>
        if bool_decide (key1 <> key2) && (stored_revision (lx_at w key1) =? expected1) && (stored_revision (lx_at w key2) =? expected2) &&
           negb (mr_Revision record1 =? 0) && negb (mr_Revision record2 =? 0)
        then (Ok (result false), mkLxWorld (<[key1 := record1]> (<[key2 := record2]> (lx_records w))) (tx :: lx_commits w) (lx_routes w) (lx_ticks w))
        else (Err (lx_error StorageConflict), w)
    | _ => (Err (lx_error StorageInvalidInput), w)
    end.

#[export] Instance lx_store : MetadataStore lx_world | 0 := {|
  store_Get ctx key w := (match lx_at w key with Some m => Ok m | None => Err (lx_error StorageNotFound) end, w);
  store_Transact ctx tx w := lx_commit tx w |}.

#[export] Instance lx_laws : MetadataLaws lx_world.
Proof.
  refine {| meta_at := lx_at; committed w tx := tx ∈ lx_commits w |}.
  - intros w key m. unfold lx_at. destruct (lx_records w !! key) as [m'|]; [|done]. destruct (Z.eqb_spec (mr_Revision m') 0); [done|].
    by intros [= <-].
  - intros ctx key w. cbn. split; [done|]. intros m. destruct (lx_at w key); [|done]. by intros [= ->].
  - intros ctx tx w Hputs. cbn. unfold lx_commit. case_bool_decide as Hin; [left; split; [done|]; by intros value [= <-]|].
    case_bool_decide as Hkey; [by left|]. destruct (tx_Mutations tx) as [|[k1 key1 e1 [r1|]] [|[k2 key2 e2 [r2|]] [|]]] eqn:Htx; try by left.
    destruct (_ && _) eqn:Hok; [right|by left]. bool_split.
    match goal with H : bool_decide (key1 <> key2) = true |- _ => apply bool_decide_eq_true in H; rename H into Hok end.
    repeat match goal with H : Z.eqb _ _ = true |- _ => apply Z.eqb_eq in H end.
    assert (Hat : forall key, lx_at (mkLxWorld (<[key1 := r1]> (<[key2 := r2]> (lx_records w))) (tx :: lx_commits w) (lx_routes w) (lx_ticks w)) key =
      if decide (key = key1) then Some r1 else if decide (key = key2) then Some r2 else lx_at w key).
    { intros key. unfold lx_at. cbn [lx_records]. destruct (decide (key = key1)) as [->|]; [rewrite lookup_insert_eq; by case_match|].
      rewrite lookup_insert_ne by done. destruct (decide (key = key2)) as [->|]; [rewrite lookup_insert_eq; by case_match|].
      by rewrite lookup_insert_ne. }
    split; [|by intros value [= <-]]. split_and!.
    + repeat constructor; cbn [mu_Key mu_ExpectedRevision mu_Record]; try done; rewrite Hat.
      * by rewrite decide_True.
      * rewrite decide_False by done. by rewrite decide_True.
    + intros key Hn. cbn in Hn. rewrite !elem_of_cons in Hn. rewrite Hat, !decide_False by tauto. done.
    + intros tx' [->|Hc]%elem_of_cons; [by left|by right].
Defined.

(** ** Everything else the loop calls *)

(** A clock that moves by a nanosecond, while that prints *)
Definition lx_now (w : lx_world) : Time :=
  let t := mkTime (nanos bx_now + lx_ticks w) true in if four_digit_year t then t else bx_now.

Lemma lx_now_prints w : printable (lx_now w).
Proof.
  unfold lx_now, printable. cbv zeta. destruct (four_digit_year (mkTime _ true)) eqn:H; [exact H|]. vm_compute. reflexivity.
Qed.

(** Budgets that answer for deadlines that print *)
#[export] Instance lx_ports : LoopPorts lx_world := {|
  Invoke ctx request w := (Ok (mkArtifactRef ax_digest "application/json" "restricted" 7), w);
  action_Submit ctx intent :=
    lift lx_routes (fun v w => mkLxWorld (lx_records w) (lx_commits w) v (lx_ticks w)) (Submit rx_identity rx_ctx intent) ≫=
    fun answer => Return (loop_answer answer);
  budget_Reserve ctx request w :=
    (if four_digit_year (q_Deadline request) then Ok (mkReservation ax_digest ax_digest ax_digest ax_digest false)
     else Err RunBudget.Foreign, w);
  budget_Settle ctx request w := (Ok (mkSettlement (s_ReservationDigest request) ax_digest ax_digest false), w);
  LoopNow w := (lx_now w, mkLxWorld (lx_records w) (lx_commits w) (lx_routes w) (lx_ticks w + 1));
  SettleDeadline w := None |}.

#[export] Instance lx_intents : IntentResolver lx_world := {| ResolveIntent ctx scope digest w := (Ok rx_intent, w) |}.

#[local] Existing Instance repository_store.
#[local] Opaque lx_now.

#[export] Instance lx_loop : LoopWorld lx_world rx_world rx_identity.
Proof.
  refine {| part := lx_routes; merge v w := mkLxWorld (lx_records w) (lx_commits w) v (lx_ticks w); inner ctx := rx_ctx |}.
  - done.
  - by intros v w.
  - done.
  - intros ctx tx w. cbn. unfold lx_commit. case_bool_decide; [done|]. case_bool_decide; [done|].
    destruct (tx_Mutations tx) as [|[k1 key1 e1 [r1|]] [|[k2 key2 e2 [r2|]] [|]]]; try done. by destruct (_ && _).
  - done.
  - done.
  - done.
  - done.
  - done.
  - intros w t w' H. injection H as <- _. apply lx_now_prints.
  - intros ctx request w r w'. cbn. unfold printable. by destruct (four_digit_year (q_Deadline request)).
  - done.
Defined.

(** ** The run *)

Definition lx_ctx : context lx_world := Some (fun _ => None).
Definition lx_run : string := ax_id "7".
Definition lx_intent_digest : string := rx_digest.

Definition lx_start_request : StartRequest :=
  mkStartRequest "start-one" lx_run (ti_OperationID rx_intent) rx_case (ax_id "5") ax_digest "route" AuthorizedActionActivity (Some [])
    lx_intent_digest (mkTime (nanos bx_now + 60000000000) true) None zero_vector zero_vector.

Definition lx_execute_request : ExecuteRequest :=
  mkExecuteRequest "execute-one" rx_case lx_run (ti_OperationID rx_intent) (Some rx_intent).

Definition lx_begin : lx_world := mkLxWorld ∅ [] rx_start 0.

(** The run is started; then its action is executed while recovery inspects it. *)
Definition lx_processes : list (loop_process (W := lx_world)) :=
  [([DoStart lx_ctx lx_start_request], repeat 0%nat 20);
   ([DoExecute lx_ctx lx_execute_request; DoInspect lx_ctx (mkWorkLookup rx_case lx_run (ti_OperationID rx_intent))],
      ([0; 0; 1]%nat ++ repeat 0%nat 100 ++ [1]%nat)%list)].

Definition lx_end : lx_world := run_loops lx_processes lx_begin.

Definition lx_key : RecordKey := mkRecordKey rx_case "run" lx_run.

Definition lx_snapshot (w : lx_world) : option Snapshot :=
  match lx_at w lx_key, fst (run_alone (loop_load lx_ctx rx_case lx_run) w) with Some _, Ok v => Some v | _, _ => None end.

(** One call, a step that succeeded with a receipt and is settled *)
Definition lx_executed (w : lx_world) : bool :=
  bool_decide (rx_calls (lx_routes w) = [rx_intent]) &&
  match lx_snapshot w with
  | Some v =>
      String.eqb (ru_Status (sn_Run v)) RunWaiting && String.eqb (sp_Status (sn_Step v)) StepSucceeded &&
      digestPattern (sp_ReceiptDigest (sn_Step v)) && digestPattern (sp_BudgetSettlementDigest (sn_Step v)) &&
      String.eqb (wk_SideEffect (recoverySnapshot v)) ConfirmedSideEffect
  | None => false
  end.

(** Its cancellation as a child *)
Definition lx_command (v : option Snapshot) : CancelCommand :=
  mkCancelCommand "cancel-one" rx_case lx_run (ax_id "9")
    (mkCancelTarget 1 ChildTask (ti_OperationID rx_intent) match v with Some v => sp_ProvenanceDigest (sn_Step v) | None => "" end)
    ax_digest bx_now.

Definition lx_cancel (w : lx_world) : result DependencyError CancellationAck * lx_world :=
  run_alone (CancelChild lx_ctx (lx_command (lx_snapshot w))) w.

(** What recovery is told afterwards *)
Definition lx_canceled (answer : result DependencyError CancellationAck * lx_world) : bool :=
  match answer with
  | (Ok ack, w) =>
      match fst (run_alone (Inspect lx_ctx (mkWorkLookup rx_case lx_run (ti_OperationID rx_intent))) w) with
      | Ok work =>
          String.eqb (wk_Status work) WorkCanceled && String.eqb (wk_SideEffect work) NoSideEffect && String.eqb (wk_ReceiptDigest work) ""
      | Err _ => false
      end
  | _ => false
  end.

Lemma lx_result : lx_executed lx_end && lx_canceled (lx_cancel lx_end) = true.
Proof. vm_compute. reflexivity. Qed.

Lemma lx_end_executed : lx_executed lx_end = true.
Proof. exact (proj1 (andb_prop _ _ lx_result)). Qed.

Lemma lx_end_is : lx_end = run_loops lx_processes lx_begin.
Proof. reflexivity. Qed.

#[local] Opaque lx_end run_loops loop_load CancelChild Inspect run_alone.

Lemma lx_mannered : well_mannered rx_identity lx_processes.
Proof. by repeat constructor. Qed.

Lemma lx_begin_ok : loops_ok rx_identity lx_begin.
Proof.
  split; [|exact rx_start_ok]. assert (Hnone : forall key, lx_at lx_begin key = None) by done. split.
  - intros key m _ Hm. change (lx_at lx_begin key = Some m) in Hm. by rewrite Hnone in Hm.
  - intros tx key prior next Hc. change (tx ∈ @nil Transaction) in Hc. by apply elem_of_nil in Hc.
  - intros key m s _ Hm. change (lx_at lx_begin key = Some m) in Hm. by rewrite Hnone in Hm.
  - intros intent Hin. change (intent ∈ @nil ToolIntent) in Hin. by apply elem_of_nil in Hin.
Qed.

Lemma lx_end_ok : loops_ok rx_identity lx_end.
Proof. rewrite lx_end_is. exact (proj1 (run_loops_ok rx_identity lx_processes lx_begin lx_mannered lx_begin_ok)). Qed.

Lemma lx_end_calls : dispatched (lx_routes lx_end) = [rx_intent].
Proof.
  pose proof lx_end_executed as H. unfold lx_executed in H. apply andb_prop in H as [H _]. exact (bool_decide_eq_true_1 _ H).
Qed.

Lemma lx_end_stored : exists v, stored lx_end v.
Proof.
  destruct lx_end_ok as (Hr & _). destruct (ro_called _ _ _ Hr rx_intent) as (v & (v' & cur & m & _ & _ & Hs & _) & _); [|by exists cur].
  unfold called. change (part lx_end) with (lx_routes lx_end). rewrite lx_end_calls. by apply list_elem_of_singleton.
Qed.

Lemma connector_calls_belong_to_paid_steps_witness :
  exists v cur, step_for paid rx_intent v /\ stored (run_loops lx_processes lx_begin) cur /\ later_run v cur.
Proof.
  destruct (connector_calls_belong_to_paid_steps rx_identity lx_processes lx_begin lx_mannered lx_begin_ok) as [_ H].
  destruct (H rx_intent) as (v & cur & Hv & _ & Hs & Hl).
  - rewrite <- lx_end_is. change (part lx_end) with (lx_routes lx_end). rewrite lx_end_calls. apply list_elem_of_singleton. reflexivity.
  - exists v, cur. exact (conj Hv (conj Hs Hl)).
Defined.

Lemma runs_follow_the_state_machine_witness : exists v v', stored (run_loops lx_processes lx_end) v' /\ later_run v v'.
Proof.
  destruct lx_end_stored as [v Hv].
  destruct (runs_follow_the_state_machine rx_identity lx_processes lx_end v lx_mannered lx_end_ok Hv) as (v' & Hs & _ & Hl).
  exists v, v'. exact (conj Hs Hl).
Defined.

(** The executed action of the run *)
Lemma lx_end_current : exists v, current_at rx_identity lx_end v /\ run_key v = lx_key /\ lx_snapshot lx_end = Some v /\
  ru_Status (sn_Run v) = RunWaiting /\ sp_Status (sn_Step v) = StepSucceeded /\ digestPattern (sp_ReceiptDigest (sn_Step v)) = true.
Proof.
  pose proof lx_end_executed as H. unfold lx_executed in H. apply andb_prop in H as [_ H].
  destruct (lx_snapshot lx_end) as [u|] eqn:Hu; [|discriminate H]. apply andb_prop in H as [H _]. apply andb_prop in H as [H _].
  apply andb_prop in H as [H Hreceipt]. apply andb_prop in H as [Hrun Hstep]. apply String.eqb_eq in Hrun, Hstep.
  unfold lx_snapshot in Hu. destruct (lx_at lx_end lx_key) as [m|] eqn:Hm; [|discriminate Hu].
  destruct lx_end_ok as (Hr & _). destruct (ro_whole _ _ _ Hr lx_key m eq_refl Hm) as (v & Hs & Hk).
  pose proof (ends_load rx_identity lx_ctx rx_case lx_run v lx_end (conj Hr Hs) Hk) as [_ Hload].
  destruct (fst (run_alone (loop_load lx_ctx rx_case lx_run) lx_end)) as [u'|err] eqn:Hl; [|discriminate Hu].
  injection Hu as ->. rewrite (Hload u eq_refl) in *.
  exists v. exact (conj (conj Hr Hs) (conj Hk (conj eq_refl (conj Hrun (conj Hstep Hreceipt))))).
Qed.

Lemma canceled_actions_lose_their_receipt_witness : exists v ack w' v', stored lx_end v /\
  run_alone (CancelChild lx_ctx (lx_command (Some v))) lx_end = (Ok ack, w') /\ ck_Outcome ack = AckAlreadyTerminal /\
  stored w' v' /\ step_at v StepCanceled "" v'.
Proof.
  destruct lx_end_current as (v & [Hr Hs] & Hk & Hv & Hrun & Hstep & Hreceipt).
  pose proof (proj2 (andb_prop _ _ lx_result)) as H. unfold lx_cancel in H. rewrite Hv in H.
  destruct (run_alone (CancelChild lx_ctx (lx_command (Some v))) lx_end) as [[ack|err] w'] eqn:Hc; [|discriminate H].
  destruct (canceled_actions_lose_their_receipt rx_identity lx_ctx (lx_command (Some v)) v lx_end ack w' Hr Hs Hk Hrun Hstep)
    as (_ & Hack & v' & Hs' & Hat & _).
  - exact (digestPattern_nonempty _ Hreceipt).
  - exact Hc.
  - exists v, ack, w', v'. exact (conj Hs (conj Hc (conj Hack (conj Hs' Hat)))).
Defined.
